(* ===== verification/_CoqProject ===== *)
-Q . S2P
Prelude.v
Text.v
DoipProtocol.v
Uds.v
DoipInterface.v
LwipAdapter.v
DoipEntity.v
DoipTask.v
DoipTester.v
DebugPrint.v
DoipLog.v
RtosList.v
Heap4.v
RtosQueue.v
SysArch.v
RtosStream.v
DoipMutex.v
RtosTasks.v
RtosSched.v
RtosKernel.v
RtosTime.v
RtosEvents.v
RtosTimers.v
Pbuf.v
InetChksum.v
Ip4Addr.v
EthPort.v
