(* ===== verification/Prelude.v ===== *)
(** * Verification of the S32K344 DoIP/UDS boot-loader firmware

    The firmware answers diagnostic requests over Ethernet. A tester finds the
    vehicle by UDP (DoIP, ISO 13400-2), opens a TCP connection, activates
    routing and sends UDS requests (ISO 14229) in diagnostic messages; one
    FreeRTOS task polls the sockets every 10 ms, reassembles the messages, and
    passes each request to the UDS server, whose reply goes back in a diagnostic
    message. Below it are the socket adapter of lwIP, the kernel with its heap,
    lists and queues, and a serial line for text output.

    ** Files

    - [Prelude]: machine integers, bytes, the outcome of a C computation, memory
      accesses, the state monad and its weakest preconditions, shared lemmas.
    - [Text]: formatted text and terminated strings.
    - [DoipProtocol]: [src/doip/doip_protocol.c], the message codec, and the
      acknowledgement encoder of [app_doip_entity.c].
    - [Uds]: [src/uds/uds_services.c], the UDS server, with the reference
      behaviour [uds_spec] on service ids and byte lists.
    - [DoipInterface]: [src/doip/doip_interface.c], connection slots and the
      reception loop. The network is a table of operations, as in the code; the
      class [NetLaws] is the receive contract the loop relies on, [TcpStream]
      a connection that delivers a byte stream in pieces.
    - [LwipAdapter]: [src/doip/doip_lwip_adapter.c], that table on the socket
      calls of lwIP. Its theorem [adapter_net_laws] discharges [NetLaws].
    - [DoipEntity]: [src/doip/app_doip_entity.c], the vehicle: announcements,
      identification, routing activation, diagnostic messages, timers.
    - [DoipTask]: [src/doip/doip_task_example.c], the task, the
      callback that connects the entity to the UDS server, the start-up.
    - [DoipTester]: [src/doip/app_doip_tester.c], the client side.
    - [DebugPrint]: [src/debug_print.c], text on the serial line.
    - [DoipLog]: [src/doip/doip_log.c], the logger.
    - [RtosList]: [FreeRTOS/Source/list.c], the kernel's lists.
    - [Heap4]: [FreeRTOS/Source/portable/MemMang/heap_4.c], the kernel's heap.
    - [RtosQueue]: [FreeRTOS/Source/queue.c], queues, semaphores and mutexes. The
      scheduler is a table of operations; the other tasks and the interrupts are
      two functions applied where the caller may be interrupted.
    - [SysArch]: [stacks/tcpip/code/ports/OS/FreeRTOS/sys_arch.c], what lwIP's
      threads use of the kernel: mailboxes, semaphores, mutexes, on [RtosQueue].
    - [RtosStream]: [FreeRTOS/Source/stream_buffer.c], stream and message buffers: a
      ring of bytes between one writer and one reader without a lock. Each side is
      verified against what the other promises ([Reader], [Writer]): what it changes, and
      how many bytes it has taken or published.
    - [Pbuf]: [stacks/tcpip/lwip/src/core/pbuf.c], the packet buffers of lwIP: chains of
      structures with reference counts, on a store of structures and memory blocks.
    - [InetChksum]: [lwip/src/core/inet_chksum.c], the checksums of the packets of [Pbuf],
      against the sum of RFC 1071; any of three summing routines ([Summing]).
    - [Ip4Addr]: [lwip/src/core/ipv4/ip4_addr.c], addresses as text, masks, broadcasts.
    - [EthPort]: [stacks/tcpip/code/ports/netif/ethif/rtd/ethif_port.c], the Ethernet
      port of lwIP: packets of [Pbuf] on their way to and from the driver.
    - [DoipMutex]: [DoipTask] with its mutex that of [RtosQueue].
    - [RtosTasks]: [FreeRTOS/Source/tasks.c], the scheduler: tasks, the tick,
      delays, priorities, event lists, notifications. Its lists are the zippers
      that [RtosList] shows the linked lists to be.
    - [RtosSched]: the invariant [ok] of the scheduler's state, and what the
      operations do to it.
    - [RtosKernel]: the calls of the tasks and the two interrupts of the port as a
      transition system, with the invariant [kernel_ok]: which task runs.
    - [RtosTime]: the clock as a set of timers; sleeping, periods, time-outs.
    - [RtosEvents]: [event_groups.c] on [RtosTasks]: flags that tasks set, clear, wait
      for and synchronise on, against the group as flags and a list of requests.
    - [RtosTimers]: [timers.c], software timers: the timer task, its two lists and the
      commands it is sent. The rest of the kernel is a table of operations.

    ** Conventions

    A C function is a function to [outcome]: [Done] with its result, [Fault]
    for an access outside its objects, [Diverge] when the fuel of a loop runs out.
    A function that changes objects behind pointers is a state transformer
    [ST] on the state that holds them; a parameter the code compares with
    [NULL] is an [option] or a [ptr]. Integers are [Z] with the wrap-around
    written out ([u8], [u16], [u32]); buffers are byte lists of the size the
    code gives them. [wp D m Q s] says that [m] does not fault from [s], that
    [Q] holds when it returns, and that it diverges only if [D].

    Callbacks are parameters of the operations that call them, so that the
    client's theorems are proved against their contract ([reacts], [uds_layer_ok]);
    [DoipEntity] and [DoipTask] discharge it for the callbacks of the firmware.

    ** What is shown

    - The codec: every encoder writes the wire format exactly when its buffer holds the
      message, decoders invert encoders, and where the 32-bit size test fails
      ([DoipProtocol]).
    - The UDS server implements [uds_spec] and stays within its buffers; it is
      unlocked exactly when some request carried the key of the seed in force when it
      arrived; its attempt limit locks nothing ([Uds]).
    - Reassembly delivers the messages of a stream whole and in order however
      the network cuts it; a message of more than 4096 bytes is never delivered;
      a connection takes the first free slot ([DoipInterface]).
    - The adapter opens and closes sockets in pairs ([LwipAdapter]).
    - The entity keeps its invariant in every cycle, whatever arrives; what each
      message leads to; announcements and inactivity timers as schedules; and
      the eight bytes that make the loop run forever ([DoipEntity]).
    - The whole program, from start-up, is memory safe and keeps the
      invariant; a TCP session answers every request of at most 4083 parameter
      bytes as [uds_spec] says ([DoipTask]).
    - Tester and entity understand each other ([DoipTester]).
    - What is printed and logged, byte for byte; waiting is bounded; printing
      on a stuck line is not ([DebugPrint], [DoipLog]).
    - Sorted insertion, fair round-robin and removal of list items
      ([RtosList]); first fit, coalescing release, and their composition
      ([Heap4]).
    - Sending to and receiving from a queue are atomic on its list of items,
      between steps of the others, and return before their time is over; an
      interrupt's item on a locked queue wakes its receiver ([RtosQueue]).
    - A mailbox of lwIP is a queue of pointers; posting delivers, fetching takes the
      first message; time-outs above 4294967 ms wrap, and a full mailbox stops an
      interrupt for ever ([SysArch]).
    - The writer of a stream buffer appends and its reader takes from the front,
      whatever the other does between two accesses: nothing is dropped but what the
      reader took, nothing is read but what the writer published; messages arrive
      whole; a call from an interrupt does what the call of an undisturbed task does
      ([RtosStream]).
    - Packet buffers: the pool gives a whole packet or nothing; freeing ends at the first
      structure that others refer to; data is written, read and found across structures
      as in one piece; headers stay inside the block; chaining is undone ([Pbuf]).
    - The three summing routines compute the sum of RFC 1071, a chain's checksum is that
      of its bytes in one piece, and what a sender stores a receiver verifies, however
      each cuts the packet; a changed word is detected ([InetChksum]).
    - An address printed is read back; which masks are valid; which addresses are
      broadcasts; a text whose numbers wrap is accepted ([Ip4Addr]).
    - Setting bits of an event group releases exactly the tasks that wait for them;
      no call gives up the processor or ends with a task waiting for what is there;
      a rendezvous releases all
      that take part; deleting a group ends all its waits ([RtosEvents]).
    - The timer task calls each function once per period that has passed, a one-shot
      timer's once, and sleeps until the next is due; a start counts from the call, even
      over the overflow of the tick count;
      stopping, changing, deleting and creating a timer ([RtosTimers]).
    - A packet is given to the driver buffer by buffer, after as many attempts as it takes
      until a slot is free and the driver accepts; what becomes of a received frame;
      one confirmation releases all frames on their way; a copy too long ([EthPort]).
    - The DoIP task always gets its mutex, so no cycle is skipped ([DoipMutex]).
    - From the start of the scheduler on, whatever its tasks and the clock do, the
      task that runs is a ready one of the highest priority, unless a switch is
      under way; tasks of equal priority take turns; a mutex lends the priority of
      those that wait for it to its holder and takes it back ([RtosKernel]).
    - A tick counts the delayed tasks down across the overflow of the tick count,
      a task sleeps for exactly its time whatever calls the others make that do not
      suspend it, a periodic task does not drift, and a time-out is over exactly when
      its time is ([RtosTime]).

    ** Fuel

    Only loops whose bound the code does not show take fuel. [process_messages]
    needs one unit per message in the 4096-byte buffer, so more than 4096 are
    enough unless a message of size 0 is in it; the walk through a list or the
    free blocks needs one unit per element; a dump one per byte. The theorems
    state these bounds, and [zero_size_message_hangs] and
    [stuck_transmitter_never_returns] that no fuel is enough. The task's
    infinite loop is run for any number of cycles. The loop of a blocking queue
    operation needs one unit more than the rounds left until its time is over, a
    measure that the scheduler is required to decrease ([Deadline], [rounds]).
    The tick and the resumption of the scheduler take one unit more than there are
    tasks. The loop that computes the room of a stream buffer needs one unit more
    than the buffer holds bytes, since it repeats only when the reader has taken
    some; the wait for room needs the rounds of its clock ([Clock]). The walks through a
    packet need one unit more than it has structures, a pool allocation two more than
    the bytes asked for. The walks along the waiting tasks of an event group need one
    unit more than there are of them; making up for missed periods of a timer, one more
    than were missed, and switching the timer lists, one more than there are timers in
    the list. A checksum takes one unit more than the packet has structures, the test of
    a mask 33.

    ** Not modelled

    The TCP/IP stack and the drivers are parameters with named contracts, or
    absent where nothing reads what they do: static allocation, queue sets and
    co-routines of [queue.c]; stacks, names, tags, statistics and the other cores
    of [tasks.c]; co-routines; the semaphore per thread of
    [sys_arch.c]; lwIP but for its packet buffers, checksums and
    IPv4 address functions, its sample applications, the NXP drivers, the start-up code,
    [device.c], [led.c] and the unused [test.c]. [RtosQueue] takes the scheduler
    as a table of operations; that of [RtosTasks] is not put in its place. Calls
    that only print are left out of the DoIP handlers; the printing itself is
    modelled in [DebugPrint] and [DoipLog]. *)

From Stdlib Require Import ZArith Lia.
From Stdlib Require Strings.String Strings.Ascii.
From stdpp Require Export base tactics list.
From stdpp Require functions.

#[global] Open Scope Z_scope.

(** ** Machine integers

    A [w]-bit unsigned C integer is the [Z] in [[0, 2^w)] it denotes; the
    conversions below are C's conversions to [uint8_t], [uint16_t] and
    [uint32_t], i.e. reduction modulo [2^w]. *)

Definition u8 (x : Z) : Z := x mod 2 ^ 8.
Definition u16 (x : Z) : Z := x mod 2 ^ 16.
Definition u32 (x : Z) : Z := x mod 2 ^ 32.

Definition is_u8 (x : Z) : Prop := 0 <= x < 2 ^ 8.
Definition is_u16 (x : Z) : Prop := 0 <= x < 2 ^ 16.
Definition is_u32 (x : Z) : Prop := 0 <= x < 2 ^ 32.

Abbreviation bytes := (list Z).
Definition bytes_ok (b : bytes) : Prop := Forall is_u8 b.

(** Length as a [Z], the type the code's [uint32_t] lengths have here. *)
Definition len {A} (l : list A) : Z := Z.of_nat (length l).

Lemma u8_range x : is_u8 (u8 x).
Proof. apply Z.mod_pos_bound; lia. Qed.
Lemma u16_range x : is_u16 (u16 x).
Proof. apply Z.mod_pos_bound; lia. Qed.
Lemma u32_range x : is_u32 (u32 x).
Proof. apply Z.mod_pos_bound; lia. Qed.
Lemma u8_small x : is_u8 x → u8 x = x.
Proof. intros ?. by apply Z.mod_small. Qed.
Lemma u16_small x : is_u16 x → u16 x = x.
Proof. intros ?. by apply Z.mod_small. Qed.
Lemma u32_small x : is_u32 x → u32 x = x.
Proof. intros ?. by apply Z.mod_small. Qed.

Create HintDb width.
Create Rewrite HintDb width.
#[export] Hint Resolve u8_range u16_range u32_range : width.
#[export] Hint Rewrite u8_small u16_small u32_small using (unfold is_u8, is_u16, is_u32 in *; lia) : width.

Lemma len_nonneg {A} (l : list A) : 0 <= len l.
Proof. unfold len; lia. Qed.
Lemma len_nil {A} : len (@nil A) = 0.
Proof. reflexivity. Qed.
Lemma len_cons {A} (x : A) l : len (x :: l) = 1 + len l.
Proof. unfold len; simpl; lia. Qed.
Lemma len_app {A} (l k : list A) : len (l ++ k) = len l + len k.
Proof. unfold len. rewrite length_app. lia. Qed.
Lemma len_take {A} (l : list A) n : 0 <= n <= len l → len (take (Z.to_nat n) l) = n.
Proof. unfold len. intros. rewrite length_take. lia. Qed.
Lemma len_drop {A} (l : list A) n : 0 <= n <= len l → len (drop (Z.to_nat n) l) = len l - n.
Proof. unfold len. intros. rewrite length_drop. lia. Qed.
Lemma len_drop_nat {A} (l : list A) n : Z.of_nat n <= len l → len (drop n l) = len l - Z.of_nat n.
Proof. unfold len. intros. rewrite length_drop. lia. Qed.
Lemma len_replicate {A} n (x : A) : len (replicate n x) = Z.of_nat n.
Proof. unfold len. by rewrite length_replicate. Qed.

Create Rewrite HintDb len.
#[export] Hint Rewrite @len_nil @len_cons @len_app @len_replicate : len.
#[export] Hint Rewrite @len_take @len_drop using (autorewrite with len in *; lia) : len.

(** [len_lia]: linear arithmetic modulo the lengths of list expressions. *)
Ltac len_lia :=
  unfold is_u8, is_u16, is_u32 in *; autorewrite with len in *;
  try match goal with |- context [len ?l] => pose proof (len_nonneg l) end;
  lia.

(** ** Big-endian bytes *)

Lemma land_shiftl_low a b n :
  0 <= n → 0 <= b < 2 ^ n → Z.land (Z.shiftl a n) b = 0.
Proof.
  intros Hn Hb. apply Z.bits_inj'. intros i Hi. rewrite Z.land_spec, Z.bits_0.
  destruct (decide (i < n)).
  - by rewrite Z.shiftl_spec_low by lia.
  - rewrite <- (Z.mod_small b (2 ^ n)) by lia.
    rewrite Z.mod_pow2_bits_high by lia. apply andb_false_r.
Qed.

Lemma lor_shiftl_low a b n :
  0 <= n → 0 <= b < 2 ^ n → Z.lor (Z.shiftl a n) b = a * 2 ^ n + b.
Proof.
  intros Hn Hb. pose proof (Z.add_lor_land (Z.shiftl a n) b) as H.
  rewrite land_shiftl_low in H by done.
  rewrite Z.shiftl_mul_pow2 in * by lia. lia.
Qed.

(** The two- and four-byte encodings of the protocol, most significant byte
    first, and the values they denote. *)
Definition be16 (v : Z) : bytes := [v / 256 mod 256; v mod 256].
Definition be32 (v : Z) : bytes :=
  [v / 2 ^ 24 mod 256; v / 2 ^ 16 mod 256; v / 2 ^ 8 mod 256; v mod 256].
Definition of_be16 (a b : Z) : Z := a * 256 + b.
Definition of_be32 (a b c d : Z) : Z := a * 2 ^ 24 + b * 2 ^ 16 + c * 2 ^ 8 + d.

(** The shift-and-or expressions the C code reads them with. *)
Lemma lor_be16 a b : is_u8 a → is_u8 b → u16 (Z.lor (u16 (Z.shiftl a 8)) b) = of_be16 a b.
Proof.
  unfold is_u8. intros. rewrite (u16_small (Z.shiftl a 8)).
  2: { unfold is_u16. rewrite Z.shiftl_mul_pow2 by lia. lia. }
  rewrite lor_shiftl_low by lia. unfold of_be16. apply u16_small. unfold is_u16. lia.
Qed.
Lemma lor_be32 a b c d : is_u8 a → is_u8 b → is_u8 c → is_u8 d →
  Z.lor (Z.lor (Z.lor (u32 (Z.shiftl a 24)) (u32 (Z.shiftl b 16))) (u32 (Z.shiftl c 8))) d =
  of_be32 a b c d.
Proof.
  unfold is_u8. intros.
  rewrite !u32_small by (unfold is_u32; rewrite Z.shiftl_mul_pow2 by lia; lia).
  rewrite <- !Z.lor_assoc.
  rewrite (lor_shiftl_low c d 8) by lia.
  rewrite (lor_shiftl_low b _ 16) by lia.
  rewrite (lor_shiftl_low a _ 24) by lia. unfold of_be32. lia.
Qed.

Lemma of_be16_be16 v : is_u16 v → of_be16 (v / 256 mod 256) (v mod 256) = v.
Proof. unfold is_u16, of_be16. intros. Z.to_euclidean_division_equations; lia. Qed.
Lemma of_be32_be32 v : is_u32 v →
  of_be32 (v / 2 ^ 24 mod 256) (v / 2 ^ 16 mod 256) (v / 2 ^ 8 mod 256) (v mod 256) = v.
Proof. unfold is_u32, of_be32. intros. Z.to_euclidean_division_equations; lia. Qed.
Lemma be16_of_be16 a b : is_u8 a → is_u8 b → be16 (of_be16 a b) = [a; b].
Proof.
  unfold is_u8, of_be16, be16. intros.
  repeat f_equal; Z.to_euclidean_division_equations; lia.
Qed.
Lemma be32_of_be32 a b c d : is_u8 a → is_u8 b → is_u8 c → is_u8 d →
  be32 (of_be32 a b c d) = [a; b; c; d].
Proof.
  unfold is_u8, of_be32, be32. intros.
  repeat f_equal; Z.to_euclidean_division_equations; lia.
Qed.
Lemma of_be16_range a b : is_u8 a → is_u8 b → is_u16 (of_be16 a b).
Proof. unfold is_u8, is_u16, of_be16. lia. Qed.
Lemma of_be32_range a b c d : is_u8 a → is_u8 b → is_u8 c → is_u8 d → is_u32 (of_be32 a b c d).
Proof. unfold is_u8, is_u32, of_be32. lia. Qed.
(** Little-endian words in memory. *)
Definition le32 (p : Z) : bytes := [p mod 256; p / 2 ^ 8 mod 256; p / 2 ^ 16 mod 256; p / 2 ^ 24 mod 256].
Definition of_le32 (b : bytes) : Z :=
  match b with b0 :: b1 :: b2 :: b3 :: _ => b0 + b1 * 2 ^ 8 + b2 * 2 ^ 16 + b3 * 2 ^ 24 | _ => 0 end.
Lemma of_le32_le32 p rest : is_u32 p → of_le32 (le32 p ++ rest) = p.
Proof. unfold is_u32, of_le32. simpl. intros. Z.to_euclidean_division_equations; lia. Qed.
Lemma len_le32 p : len (le32 p) = 4.
Proof. done. Qed.

(** [solve_bytes_ok]: the elements of an explicit list are bytes. *)
Ltac solve_bytes_ok :=
  unfold bytes_ok; rewrite ?Forall_cons, ?Forall_nil;
  repeat match goal with |- _ ∧ _ => split end;
  try done; auto with width; try (apply Z.mod_pos_bound; lia);
  try (unfold is_u8 in *; lia).

(** [by_compute]: closed goals built from comparisons, conjunctions and
    equations. *)
Ltac by_compute :=
  vm_compute; repeat match goal with |- _ ∧ _ => split | |- Forall _ (_ :: _) => constructor end;
  first [ discriminate | reflexivity | constructor ].

Lemma be16_ok v : bytes_ok (be16 v).
Proof. unfold be16. solve_bytes_ok. Qed.
Lemma be32_ok v : bytes_ok (be32 v).
Proof. unfold be32. solve_bytes_ok. Qed.
#[export] Hint Resolve of_be16_range of_be32_range be16_ok be32_ok : width.

(** ** Outcomes of a C computation

    [Done v]: it returned [v].  [Fault]: it performed an access outside the
    object it points into, which C leaves undefined.  [Diverge]: the fuel given
    to a loop of the model ran out; a theorem that a loop terminates says that
    enough fuel never gives this outcome. *)

Inductive outcome (A : Type) : Type :=
  | Done (a : A)
  | Fault
  | Diverge.
Arguments Done {A} a.
Arguments Fault {A}.
Arguments Diverge {A}.

#[export] Instance outcome_ret : MRet outcome := λ A a, Done a.
#[export] Instance outcome_bind : MBind outcome := λ A B f m,
  match m with Done a => f a | Fault => Fault | Diverge => Diverge end.

(** State-passing computations: a C function that reads and writes objects
    through pointers is a function on the state that holds those objects. *)
Definition ST (S A : Type) : Type := S → outcome (A * S).

#[export] Instance ST_ret S : MRet (ST S) := λ A a s, Done (a, s).
#[export] Instance ST_bind S : MBind (ST S) := λ A B f m s,
  match m s with Done (a, s') => f a s' | Fault => Fault | Diverge => Diverge end.

Definition gets {S A} (f : S → A) : ST S A := λ s, Done (f s, s).
Definition modify {S} (f : S → S) : ST S unit := λ s, Done (tt, f s).
Definition lift {S A} (m : outcome A) : ST S A := λ s,
  match m with Done a => Done (a, s) | Fault => Fault | Diverge => Diverge end.
Definition diverge {S A} : ST S A := λ _, Diverge.

(** [for (i = l[0], l[1], ...) body] *)
Fixpoint for_each {S I} (l : list I) (body : I → ST S unit) : ST S unit :=
  match l with
  | [] => mret tt
  | i :: l' => body i ≫= λ _, for_each l' body
  end.

(** A [for] loop with [break]: the body returns [Some r] to leave with [r]. *)
Fixpoint for_find {S I R} (l : list I) (body : I → ST S (option R)) : ST S (option R) :=
  match l with
  | [] => mret None
  | i :: l' => body i ≫= λ r, match r with Some v => mret (Some v) | None => for_find l' body end
  end.

(** ** Memory

    An array is the list of its bytes; a pointer into an array is the list of
    the bytes from there to the end of the array, so that a read past the end
    is a [Fault] whatever length the caller announced. *)

Definition load (b : bytes) (i : Z) : outcome Z :=
  if 0 <=? i then match b !! Z.to_nat i with Some v => Done v | None => Fault end else Fault.

Definition store (b : bytes) (i v : Z) : outcome bytes :=
  if (0 <=? i) && (i <? len b) then Done (<[Z.to_nat i := v]> b) else Fault.

(** The [n] bytes at offset [off]: the source of a [memcpy] of [n] bytes. *)
Definition slice (b : bytes) (off n : Z) : outcome bytes :=
  if (0 <=? off) && (0 <=? n) && (off + n <=? len b)
  then Done (take (Z.to_nat n) (drop (Z.to_nat off) b)) else Fault.

(** [patch b off d]: [b] with the bytes from [off] on replaced by [d]. *)
Definition patch (b : bytes) (off : Z) (d : bytes) : bytes :=
  take (Z.to_nat off) b ++ d ++ drop (Z.to_nat off + length d) b.

(** [memcpy (&b[off], d, sizeof d)] *)
Definition memcpy (b : bytes) (off : Z) (d : bytes) : outcome bytes :=
  if (0 <=? off) && (off + len d <=? len b) then Done (patch b off d) else Fault.

(** [&b[n]] for a constant [n]. *)
Definition ptr_add (b : bytes) (n : Z) : bytes := drop (Z.to_nat n) b.

(** A local array of [n] bytes. Its initial contents are indeterminate in C; no
    theorem depends on the value chosen here, since each is stated on the
    prefix the code has written. *)
Definition local_array (n : Z) : bytes := replicate (Z.to_nat n) 0.

(** A pointer parameter that is either [NULL] or the one object of its type
    the firmware has (the model's state holds that object). *)
Inductive ptr := NULL | OBJ.
#[export] Instance ptr_eq_dec : EqDecision ptr.
Proof. solve_decision. Defined.

(** The bytes of a C string literal, without its terminator. *)
Definition literal (s : String.string) : bytes :=
  map (λ a, Z.of_N (Ascii.N_of_ascii a)) (String.list_ascii_of_string s).

(** [strncpy (dst, s, n)]: the characters of [s] up to [n], padded with zeros. *)
Definition strncpy (dst : bytes) (s : String.string) (n : Z) : outcome bytes :=
  let l := take (Z.to_nat n) (literal s) in
  memcpy dst 0 (l ++ replicate (Z.to_nat n - length l) 0).

(** ** Lemmas on memory *)

Lemma length_to_nat_len {A} (l : list A) : length l = Z.to_nat (len l).
Proof. unfold len. lia. Qed.

Lemma len_patch b off d : 0 <= off → off + len d <= len b → len (patch b off d) = len b.
Proof.
  unfold len, patch. intros. rewrite !length_app, length_take, length_drop. lia.
Qed.
#[export] Hint Rewrite len_patch using (autorewrite with len in *; lia) : len.

Lemma memcpy_patch b off d : 0 <= off → off + len d <= len b → memcpy b off d = Done (patch b off d).
Proof.
  intros. unfold memcpy.
  by rewrite (proj2 (Z.leb_le _ _)), (proj2 (Z.leb_le _ _)) by lia.
Qed.

Lemma memcpy_overflow b off d : len b < off + len d → memcpy b off d = Fault.
Proof.
  intros. unfold memcpy. rewrite (proj2 (Z.leb_gt (off + len d) _)) by lia. by rewrite andb_false_r.
Qed.

Lemma store_patch b i v : 0 <= i < len b → store b i v = Done (patch b i [v]).
Proof.
  intros. unfold store. rewrite (proj2 (Z.leb_le _ _)), (proj2 (Z.ltb_lt _ _)) by lia. simpl.
  f_equal. unfold patch. change (length [v]) with 1%nat. unfold len in *.
  rewrite insert_take_drop by lia. do 3 f_equal. lia.
Qed.

(** Two consecutive writes are one write of the concatenation. *)
Lemma patch_patch b off d1 d2 off2 :
  0 <= off → off2 = off + len d1 → off2 + len d2 <= len b →
  patch (patch b off d1) off2 d2 = patch b off (d1 ++ d2).
Proof.
  intros H0 -> H2. unfold patch, len in *.
  replace (Z.to_nat (off + Z.of_nat (length d1))) with (Z.to_nat off + length d1)%nat by lia.
  assert (length (take (Z.to_nat off) b) = Z.to_nat off) as Ht by (rewrite length_take; lia).
  rewrite (app_assoc (take _ b)).
  assert (length (take (Z.to_nat off) b ++ d1) = (Z.to_nat off + length d1)%nat) as Hl
    by (rewrite length_app; lia).
  rewrite take_app_length' by lia. rewrite drop_app_ge by lia. rewrite Hl, drop_drop.
  rewrite <- !app_assoc. rewrite length_app. do 4 f_equal. lia.
Qed.

Lemma patch_0 b d : len d <= len b → patch b 0 d = d ++ drop (length d) b.
Proof. reflexivity. Qed.

Lemma take_patch_0 b d : take (length d) (patch b 0 d) = d.
Proof. unfold patch. simpl. by rewrite take_app_length. Qed.

Lemma slice_patch_0 b d : len d <= len b → slice (patch b 0 d) 0 (len d) = Done d.
Proof.
  intros. unfold slice. rewrite len_patch by lia.
  pose proof (len_nonneg d).
  rewrite !(proj2 (Z.leb_le _ _)) by lia. simpl.
  unfold len. rewrite Nat2Z.id. change (Z.to_nat 0) with 0%nat. rewrite drop_0.
  by rewrite take_patch_0.
Qed.

Lemma load_lookup b i v : 0 <= i → b !! Z.to_nat i = Some v → load b i = Done v.
Proof. intros. unfold load. rewrite (proj2 (Z.leb_le _ _)) by lia. by rewrite H0. Qed.

Lemma load_cons_0 a l : load (a :: l) 0 = Done a.
Proof. done. Qed.
Lemma load_cons_1 a b l : load (a :: b :: l) 1 = Done b.
Proof. done. Qed.
Lemma load_cons_2 a b c l : load (a :: b :: c :: l) 2 = Done c.
Proof. done. Qed.
Lemma load_cons_3 a b c d l : load (a :: b :: c :: d :: l) 3 = Done d.
Proof. done. Qed.
Lemma load_cons_4 a b c d e l : load (a :: b :: c :: d :: e :: l) 4 = Done e.
Proof. done. Qed.

Lemma load_inv b i v : load b i = Done v → 0 <= i < len b ∧ b !! Z.to_nat i = Some v.
Proof.
  unfold load, len. case (Z.leb_spec 0 i); [|done]. intros.
  destruct (b !! Z.to_nat i) eqn:E; [|done]. simplify_eq.
  split; [|done]. apply lookup_lt_Some in E. lia.
Qed.

Lemma load_in_bounds b i : 0 <= i < len b → ∃ v, load b i = Done v ∧ b !! Z.to_nat i = Some v.
Proof.
  unfold len. intros. destruct (lookup_lt_is_Some_2 b (Z.to_nat i)) as [v Hv]; [lia|].
  exists v. split; [|done]. by apply load_lookup; [lia|].
Qed.

Lemma bytes_ok_lookup b i v : bytes_ok b → b !! i = Some v → is_u8 v.
Proof. unfold bytes_ok. rewrite Forall_lookup. eauto. Qed.
Lemma bytes_ok_load b i v : bytes_ok b → load b i = Done v → is_u8 v.
Proof. intros ? [_ ?]%load_inv. by eapply bytes_ok_lookup. Qed.
Lemma bytes_ok_app b1 b2 : bytes_ok b1 → bytes_ok b2 → bytes_ok (b1 ++ b2).
Proof. apply Forall_app_2. Qed.
Lemma bytes_ok_take b n : bytes_ok b → bytes_ok (take n b).
Proof. apply Forall_take. Qed.
Lemma bytes_ok_drop b n : bytes_ok b → bytes_ok (drop n b).
Proof. apply Forall_drop. Qed.
Lemma bytes_ok_replicate n v : is_u8 v → bytes_ok (replicate n v).
Proof. apply Forall_replicate. Qed.
#[export] Hint Resolve bytes_ok_lookup bytes_ok_load bytes_ok_app bytes_ok_take bytes_ok_drop : width.

Lemma bytes_ok_patch b off d : bytes_ok b → bytes_ok d → bytes_ok (patch b off d).
Proof. intros. unfold patch. auto with width. Qed.
#[export] Hint Resolve bytes_ok_patch : width.

Lemma slice_Done b off n : 0 <= off → 0 <= n → off + n <= len b →
  slice b off n = Done (take (Z.to_nat n) (drop (Z.to_nat off) b)).
Proof. intros. unfold slice. by rewrite !(proj2 (Z.leb_le _ _)) by lia. Qed.

(** Byte strings given by literals: checked by evaluation. *)
Definition bytes_okb (b : bytes) : bool := forallb (λ c, (0 <=? c) && (c <? 256)) b.
Lemma bytes_okb_spec b : bytes_okb b = true → bytes_ok b.
Proof.
  unfold bytes_okb. intros H. apply Forall_forall. intros c Hc.
  rewrite forallb_forall in H. apply list_elem_of_In in Hc. specialize (H c Hc).
  apply andb_true_iff in H as [?%Z.leb_le ?%Z.ltb_lt]. unfold is_u8. lia.
Qed.

(** [fold_writes]: turns the writes of a straight-line encoder into one
    [patch] at the offset of the first. *)
Ltac fold_writes :=
  repeat first
    [ rewrite store_patch by (autorewrite with len; lia); cbn [mbind outcome_bind]
    | rewrite memcpy_patch by (autorewrite with len; lia); cbn [mbind outcome_bind]
    | rewrite patch_patch by (autorewrite with len; lia) ];
  cbn [app].

(** ** Weakest preconditions

    [wp D m Q s]: from [s], [m] does not fault; when it returns, its result and
    final state satisfy [Q]; and it runs out of fuel only if [D] holds. So
    [wp False] is total correctness and [wp True] is safety. *)
Definition wp (D : Prop) {S A} (m : ST S A) (Q : A → S → Prop) (s : S) : Prop :=
  match m s with Done (a, s') => Q a s' | Fault => False | Diverge => D end.

Section wp.
Context {S : Type} {D : Prop}.

Lemma wp_ret {A} (a : A) (Q : A → S → Prop) (s : S) : Q a s → wp D (mret a) Q s.
Proof. done. Qed.
Lemma wp_bind {A B} (m : ST S A) (k : A → ST S B) (Q : B → S → Prop) (s : S) :
  wp D m (λ a, wp D (k a) Q) s → wp D (m ≫= k) Q s.
Proof. unfold wp, mbind, ST_bind. by destruct (m s) as [[??]| |]. Qed.
Lemma wp_gets {A} (f : S → A) (Q : A → S → Prop) (s : S) : Q (f s) s → wp D (gets f) Q s.
Proof. done. Qed.
Lemma wp_modify (f : S → S) (Q : unit → S → Prop) (s : S) : Q tt (f s) → wp D (modify f) Q s.
Proof. done. Qed.
Lemma wp_lift {A} (m : outcome A) (a : A) (Q : A → S → Prop) (s : S) :
  m = Done a → Q a s → wp D (lift m) Q s.
Proof. intros ->. done. Qed.
Lemma wp_mono {A} (m : ST S A) (Q Q' : A → S → Prop) (s : S) :
  wp D m Q s → (∀ a s', Q a s' → Q' a s') → wp D m Q' s.
Proof. unfold wp. destruct (m s) as [[??]| |]; eauto. Qed.
Lemma wp_for_each {I} (l : list I) (body : I → ST S unit) (Inv : S → Prop) (s : S) :
  Inv s → (∀ i s, i ∈ l → Inv s → wp D (body i) (λ _, Inv) s) → wp D (for_each l body) (λ _, Inv) s.
Proof.
  revert s. induction l as [|i l IH]; intros s Hs Hb; [done|].
  simpl. apply wp_bind. eapply wp_mono; [apply Hb; [left|done]|].
  intros [] s2 Hs2. apply IH; [done|]. intros i0 s0 Hi0 Hs0. apply Hb; [by right|done].
Qed.
Lemma wp_intro {A} (m : ST S A) (Q : A → S → Prop) (s : S) (a : A) (s' : S) :
  m s = Done (a, s') → Q a s' → wp D m Q s.
Proof. unfold wp. by intros ->. Qed.
End wp.

Lemma wp_done_unit {S} (m : ST S unit) s s' : wp False m (λ _ x, x = s') s → m s = Done (tt, s').
Proof. unfold wp. destruct (m s) as [[[] ?]| |]; [by intros ->|done..]. Qed.
Lemma wp_done {S A} (m : ST S A) a s s' : wp False m (λ b x, b = a ∧ x = s') s → m s = Done (a, s').
Proof. unfold wp. destruct (m s) as [[??]| |]; [by intros [-> ->]|done..]. Qed.
Lemma wp_inv {S A} (m : ST S A) Q s : wp False m Q s → ∃ a s', m s = Done (a, s') ∧ Q a s'.
Proof. unfold wp. destruct (m s) as [[??]| |]; [eauto|done..]. Qed.
Lemma wp_weaken {D D' : Prop} {S A} (m : ST S A) Q s : (D → D') → wp D m Q s → wp D' m Q s.
Proof. unfold wp. destruct (m s) as [[??]| |]; auto. Qed.
Lemma wp_total_partial {D : Prop} {S A} (m : ST S A) Q s : wp False m Q s → wp D m Q s.
Proof. unfold wp. by destruct (m s) as [[??]| |]. Qed.

(** The equations of the monad's primitives. *)
Lemma gets_bind {S A B} (f : S → A) (k : A → ST S B) s : (gets f ≫= k) s = k (f s) s.
Proof. done. Qed.
Lemma gets_id {S B} (k : S → ST S B) s : (gets id ≫= k) s = k s s.
Proof. done. Qed.
Lemma ret_bind {S A B} (a : A) (k : A → ST S B) s : (mret a ≫= k) s = k a s.
Proof. done. Qed.
Lemma modify_bind {S B} (f : S → S) (k : unit → ST S B) s : (modify f ≫= k) s = k tt (f s).
Proof. done. Qed.
Lemma lift_bind {S A B} (m : outcome A) (a : A) (k : A → ST S B) s :
  m = Done a → (lift m ≫= k) s = k a s.
Proof. intros ->. done. Qed.
Lemma lift_bind_fault {S A B} (m : outcome A) (k : A → ST S B) s : m = Fault → (lift m ≫= k) s = Fault.
Proof. intros ->. done. Qed.
Lemma bind_done {S A B} (m : ST S A) (k : A → ST S B) s a s' : m s = Done (a, s') → (m ≫= k) s = k a s'.
Proof. unfold mbind, ST_bind. intros ->. done. Qed.
Lemma outcome_assoc {A B C} (m : outcome A) (f : A → outcome B) (g : B → outcome C) :
  (m ≫= f) ≫= g = m ≫= λ x, f x ≫= g.
Proof. by destruct m. Qed.

(** One step of symbolic execution. *)
Ltac wp_step :=
  lazymatch goal with
  | |- wp _ (mret _) _ _ => apply wp_ret
  | |- wp _ (_ ≫= _) _ _ => apply wp_bind
  | |- wp _ (gets _) _ _ => apply wp_gets
  | |- wp _ (modify _) _ _ => apply wp_modify
  end; cbv beta.
Ltac wp_steps := repeat wp_step.

(** [fn_cases]: values of fields that are functions updated at some arguments. *)
Ltac fn_cases := unfold insert, functions.fn_insert; repeat case_decide; subst; congruence.
