(* ===== verification/Text.v ===== *)
(** * Formatted text

    The C library's text functions as the logger and the debug output use
    them: the conversions [%02X], [%04lX] and [%lu], [snprintf] into a buffer
    with its truncation and its size argument of 32 bits, and the reading of a
    terminated string; with the lemmas on a buffer that a text is appended to
    piece by piece. *)

From Stdlib Require Import ZArith Lia.
From Stdlib Require Import Strings.String.
From stdpp Require Import list_numbers.
From S2P Require Import Prelude.
Local Open Scope list_scope.
Local Open Scope Z_scope.

(** ** Formatting *)

Definition hex_digit (d : Z) : Z := if d <? 10 then 48 + d else 55 + d.

(** [%02X] of a byte, and [%0<width>lX] of a 32-bit number. *)
Definition hex2 (b : Z) : bytes := [hex_digit (b / 16); hex_digit (b mod 16)].
Fixpoint hex_digits (fuel : nat) (v : Z) : bytes :=
  match fuel with
  | O => []
  | S fuel => if v <? 16 then [hex_digit v] else hex_digits fuel (v / 16) ++ [hex_digit (v mod 16)]
  end.
Definition hex_pad (width : nat) (v : Z) : bytes :=
  let d := hex_digits 8 v in replicate (width - length d) 48 ++ d.

(** [%lu] of a 32-bit number. *)
Fixpoint dec_digits (fuel : nat) (v : Z) : bytes :=
  match fuel with
  | O => []
  | S fuel => if v <? 10 then [48 + v mod 10] else dec_digits fuel (v / 10) ++ [48 + v mod 10]
  end.
Definition dec (v : Z) : bytes := dec_digits 10 v.

(** The first [n] elements. *)
Definition cut (n : Z) (l : bytes) : bytes := if n <? len l then take (Z.to_nat n) l else l.

(** [snprintf (&buf[off], size, ...)] for a text: at most [size - 1] characters
    and a terminator; the result is the length of the whole text. *)
Definition snprintf (buf : bytes) (off size : Z) (text : bytes) : outcome (bytes * Z) :=
  if size =? 0 then mret (buf, len text) else
  b ← memcpy buf off (cut (size - 1) text ++ [0]);
  mret (b, len text).

(** [offset += snprintf (&buffer[offset], sizeof (buffer) - (uint32_t) offset, ...)]
    for a buffer of [n] bytes; the state is the buffer and the offset. *)
Definition append (n : Z) (bo : bytes * Z) (text : bytes) : outcome (bytes * Z) :=
  '(b, k) ← snprintf bo.1 bo.2 (u32 (n - bo.2)) text;
  mret (b, bo.2 + k).

(** The string at the start of a buffer. *)
Fixpoint cstring (b : bytes) : bytes :=
  match b with
  | [] => []
  | c :: b => if c =? 0 then [] else c :: cstring b
  end.

(** The string a pointer to a buffer denotes: [strlen] reads on until it finds
    a terminator, past the end of the buffer if there is none. *)
Definition read_string (b : bytes) : outcome bytes :=
  if existsb (Z.eqb 0) b then Done (cstring b) else Fault.

(** ** Properties of texts *)

Definition no_nul (t : bytes) : Prop := Forall (λ c, c ≠ 0) t.

Lemma hex_digit_pos d : 0 <= d → hex_digit d ≠ 0.
Proof. unfold hex_digit. case (Z.ltb_spec d 10); lia. Qed.

Lemma hex_digits_spec fuel v : 0 <= v →
  no_nul (hex_digits fuel v) ∧ (length (hex_digits fuel v) <= fuel)%nat.
Proof.
  revert v. induction fuel as [|fuel IH]; intros v Hv; [split; [constructor|done]|].
  cbn [hex_digits]. case (Z.ltb_spec v 16); intros Hlt.
  - split; [|simpl; lia]. apply Forall_singleton, hex_digit_pos. lia.
  - destruct (IH (v / 16)) as [H1 H2]; [apply Z.div_pos; lia|]. split.
    + apply Forall_app_2; [done|]. apply Forall_singleton, hex_digit_pos, Z.mod_pos_bound. lia.
    + rewrite length_app. simpl. lia.
Qed.

Lemma no_nul_replicate n c : c ≠ 0 → no_nul (replicate n c).
Proof. intros. by apply Forall_replicate. Qed.

Lemma hex2_no_nul c : is_u8 c → no_nul (hex2 c).
Proof.
  unfold is_u8. intros Hc. unfold hex2.
  apply Forall_cons; split; [apply hex_digit_pos, Z.div_pos; lia|].
  apply Forall_singleton, hex_digit_pos, Z.mod_pos_bound. lia.
Qed.

Lemma hex_pad_spec v : 0 <= v → no_nul (hex_pad 4 v) ∧ len (hex_pad 4 v) <= 8.
Proof.
  intros Hv. destruct (hex_digits_spec 8 v Hv) as [H1 H2]. unfold hex_pad. split.
  - apply Forall_app_2; [|done]. apply no_nul_replicate. lia.
  - unfold len. rewrite length_app, length_replicate. lia.
Qed.

Lemma dec_digits_spec fuel v : no_nul (dec_digits fuel v) ∧ len (dec_digits fuel v) <= Z.of_nat fuel.
Proof.
  revert v. induction fuel as [|fuel IH]; intros v; [split; [constructor|done]|].
  assert (no_nul [48 + v mod 10])
    by (apply Forall_singleton; pose proof (Z.mod_pos_bound v 10 ltac:(lia)); lia).
  cbn [dec_digits]. case (Z.ltb_spec v 10); intros Hlt; [split; [done|unfold len; simpl; lia]|].
  destruct (IH (v / 10)) as [H1 H2]. split; [by apply Forall_app_2|].
  rewrite len_app. change (len [48 + v mod 10]) with 1. lia.
Qed.

Definition no_nulb (t : bytes) : bool := forallb (λ c, negb (c =? 0)) t.
Lemma no_nulb_spec t : no_nulb t = true → no_nul t.
Proof.
  unfold no_nulb, no_nul. intros H. apply Forall_forall. intros c Hc.
  rewrite forallb_forall in H. apply list_elem_of_In in Hc. specialize (H c Hc).
  apply negb_true_iff, Z.eqb_neq in H. done.
Qed.

(** [no_nul_solve]: texts made of literals, numbers and texts known to be free
    of terminators. *)
Ltac no_nul_solve :=
  repeat match goal with
  | |- no_nul (_ ++ _) => apply Forall_app_2
  | |- Forall _ (_ ++ _) => apply Forall_app_2
  | |- _ => assumption
  | |- _ (dec _) => apply dec_digits_spec
  | |- _ => apply no_nulb_spec; reflexivity
  end.


(** ** Text buffers

    [holds n b t]: the [n]-byte buffer [b] starts with the text [t], cut to
    [n - 1] characters, and a terminator. *)

Definition holds (n : Z) (b t : bytes) : Prop :=
  len b = n ∧ ∃ rest, b = take (Z.to_nat (n - 1)) t ++ 0 :: rest.

(** [written n t r]: [r] is what appending the pieces of the text [t] to an
    [n]-byte buffer gives: a buffer that holds the text, or a write outside
    it, the latter only when a piece started past the end. *)
Definition written (n : Z) (t : bytes) (r : outcome (bytes * Z)) : Prop :=
  (∃ b, r = Done (b, len t) ∧ holds n b t) ∨ (r = Fault ∧ n < len t).

Lemma cut_take n l : 0 <= n → cut n l = take (Z.to_nat n) l.
Proof.
  intros. unfold cut, len. case (Z.ltb_spec n (Z.of_nat (length l))); [done|].
  intros. by rewrite take_ge by lia.
Qed.

Lemma cstring_take t rest : no_nul t → cstring (t ++ 0 :: rest) = t.
Proof. induction 1 as [|c t Hc _ IH]; [done|]. simpl. by rewrite (proj2 (Z.eqb_neq _ _) Hc), IH. Qed.

Lemma read_string_take t rest : no_nul t → read_string (t ++ 0 :: rest) = Done t.
Proof.
  intros Ht. unfold read_string. rewrite existsb_app. simpl. rewrite orb_true_r. by rewrite cstring_take.
Qed.

Lemma cstring_holds n b t : no_nul t → holds n b t → cstring b = take (Z.to_nat (n - 1)) t.
Proof. intros Ht [_ [rest ->]]. by apply cstring_take, Forall_take. Qed.

Lemma holds_fresh n : 0 < n → holds n (local_array n) [].
Proof.
  intros. split; [unfold local_array; rewrite len_replicate; lia|].
  exists (replicate (Z.to_nat n - 1) 0). rewrite take_nil. unfold local_array. simpl.
  by replace (Z.to_nat n) with (S (Z.to_nat n - 1)) at 1 by lia.
Qed.

Lemma snprintf_at n b t x : 0 < n < 2 ^ 32 → len b = n → (∃ rest, b = t ++ rest) → len t < n →
  ∃ b', snprintf b (len t) (n - len t) x = Done (b', len x) ∧ holds n b' (t ++ x).
Proof.
  intros Hn Hl [rest Hb] Ht. pose proof (len_nonneg t) as Ht0. pose proof (len_nonneg x) as Hx0.
  unfold snprintf. rewrite (proj2 (Z.eqb_neq _ _)) by lia. rewrite cut_take by lia.
  assert (len (take (Z.to_nat (n - len t - 1)) x ++ [0]) <= n - len t) as Hle
    by (unfold len in *; rewrite length_app, length_take; simpl; lia).
  rewrite memcpy_patch by lia. cbn [mbind outcome_bind]. eexists. split; [done|].
  split; [rewrite len_patch by lia; done|].
  unfold patch. rewrite Hb. rewrite take_app_length' by (unfold len; lia).
  rewrite <- !app_assoc. eexists. rewrite (app_assoc t). simpl. f_equal.
  rewrite take_app_ge by (unfold len in *; lia). repeat f_equal. unfold len. lia.
Qed.

Lemma snprintf_holds n b t x : 0 < n < 2 ^ 32 → holds n b t → len t < n →
  ∃ b', snprintf b (len t) (n - len t) x = Done (b', len x) ∧ holds n b' (t ++ x).
Proof.
  intros Hn [Hl [rest Hb]] Ht. apply snprintf_at; [done|done| |done].
  exists (0 :: rest). by rewrite take_ge in Hb by (unfold len in *; lia).
Qed.

Lemma snprintf_start n b x : 0 < n < 2 ^ 32 → len b = n →
  ∃ b', snprintf b 0 n x = Done (b', len x) ∧ holds n b' x.
Proof.
  intros Hn Hl. destruct (snprintf_at n b [] x) as (b' & E & H); [done|done|by exists b|change (len (@nil Z)) with 0; lia|].
  change (len (@nil Z)) with 0 in E. rewrite Z.sub_0_r in E. eauto.
Qed.

Lemma append_past_end n b t x : 0 < n < 2 ^ 31 → holds n b t → n < len t < 2 ^ 31 →
  append n (b, len t) x = Fault.
Proof.
  intros Hn [Hb _] Ht. unfold append. simpl.
  assert (u32 (n - len t) = 2 ^ 32 + n - len t) as ->.
  { unfold u32. rewrite <- (Z.mod_unique (n - len t) (2 ^ 32) (-1) (2 ^ 32 + n - len t)); lia. }
  unfold snprintf. rewrite (proj2 (Z.eqb_neq _ _)) by lia.
  rewrite memcpy_overflow; [done|]. rewrite len_app, Hb.
  pose proof (len_nonneg (cut (2 ^ 32 + n - len t - 1) x)). change (len [0]) with 1. lia.
Qed.

Lemma append_holds n b t x : 0 < n < 2 ^ 31 → holds n b t → len (t ++ x) < 2 ^ 31 →
  written n (t ++ x) (append n (b, len t) x).
Proof.
  intros Hn Hb Ht. pose proof (len_nonneg t). pose proof (len_nonneg x).
  rewrite len_app in Ht.
  destruct (Z.lt_trichotomy (len t) n) as [Hlt|[Heq|Hgt]].
  - left. unfold append. simpl. rewrite u32_small by (unfold is_u32; lia).
    destruct (snprintf_holds n b t x) as (b' & -> & Hb'); [lia|done..|].
    exists b'. simpl. by rewrite len_app.
  - left. exists b. unfold append. simpl. rewrite Heq, Z.sub_diag. change (u32 0) with 0.
    unfold snprintf. simpl. rewrite len_app, Heq. split; [done|].
    destruct Hb as [Hl [rest Hb]]. split; [done|]. exists rest.
    by rewrite take_app_le by (unfold len in *; lia).
  - right. rewrite len_app. split; [|lia]. apply append_past_end; [done|done|lia].
Qed.

Lemma written_append n t x r : 0 < n < 2 ^ 31 → len (t ++ x) < 2 ^ 31 →
  written n t r → written n (t ++ x) (r ≫= λ bo, append n bo x).
Proof.
  intros Hn Hl [(b & -> & Hb)|[-> Ht]]; [by apply append_holds|].
  right. split; [done|]. rewrite len_app. pose proof (len_nonneg x). lia.
Qed.

Lemma written_fits n t r : written n t r → len t <= n → ∃ b, r = Done (b, len t) ∧ holds n b t.
Proof. intros [?|[_ ?]] ?; [done|lia]. Qed.

Lemma append_last n t x r : 0 < n < 2 ^ 31 → len (t ++ x) < 2 ^ 31 → written n t r →
  if n <? len t then (r ≫= λ bo, append n bo x) = Fault
  else ∃ b, (r ≫= λ bo, append n bo x) = Done (b, len (t ++ x)) ∧ holds n b (t ++ x).
Proof.
  intros Hn Hl Hr. pose proof (len_nonneg x). pose proof (len_app t x).
  case (Z.ltb_spec n (len t)); intros Ht.
  - destruct Hr as [(b & -> & Hb)|[-> _]]; [|done]. apply append_past_end; [done..|lia].
  - destruct (written_fits n t r Hr Ht) as (b & -> & Hb). cbn [mbind outcome_bind].
    destruct (append_holds n b t x Hn Hb Hl) as [?|[_ ?]]; [done|].
    destruct (Z.eq_dec (len t) n) as [Heq|Hne].
    + exists b. split.
      * unfold append. simpl. rewrite Heq, Z.sub_diag. change (u32 0) with 0. unfold snprintf. simpl.
        by rewrite H0, Heq.
      * destruct Hb as [? [rest Hb]]. split; [done|]. exists rest.
        by rewrite take_app_le by (unfold len in *; lia).
    + destruct (snprintf_holds n b t x) as (b' & E & Hb'); [lia|done|lia|].
      exists b'. unfold append. simpl. rewrite u32_small by (unfold is_u32; pose proof (len_nonneg t); lia).
      by rewrite E, H0.
Qed.

(** [printed n t r]: [r] is what appending all the pieces of [t] and a last one
    [x] gives: a write outside the buffer when [t] is longer than the buffer,
    else the buffer with the text. *)
Definition printed (n : Z) (t x : bytes) (r : outcome (bytes * Z)) : Prop :=
  if n <? len t then r = Fault else ∃ b, r = Done (b, len (t ++ x)) ∧ holds n b (t ++ x).

(** The step [g] appends the piece [x]. *)
Definition writes (n : Z) (g : bytes * Z → outcome (bytes * Z)) (x : bytes) : Prop :=
  ∀ t r, len (t ++ x) < 2 ^ 31 → written n t r → written n (t ++ x) (r ≫= g).

Lemma writes_append n x : 0 < n < 2 ^ 31 → writes n (λ bo, append n bo x) x.
Proof. intros ? t r ??. by apply written_append. Qed.
Lemma writes_skip n : writes n (λ bo, mret bo) [].
Proof. intros t r _ Hr. rewrite app_nil_r. destruct r; exact Hr. Qed.
Lemma writes_if n (c : bool) g h x y : writes n g x → writes n h y →
  writes n (λ bo, if c then g bo else h bo) (if c then x else y).
Proof. by destruct c. Qed.

Lemma printed_step n t x y r g k x' :
  writes n g x → len ((t ++ x ++ y) ++ x') < 2 ^ 31 → written n t r →
  (∀ r', len (((t ++ x) ++ y) ++ x') < 2 ^ 31 → written n (t ++ x) r' →
     printed n ((t ++ x) ++ y) x' (r' ≫= k)) →
  printed n (t ++ x ++ y) x' (r ≫= λ bo, g bo ≫= k).
Proof.
  intros Hg Hl Hr HP. rewrite app_assoc in *. rewrite <- outcome_assoc. apply HP, Hg; [done| |done].
  rewrite !len_app in Hl. rewrite len_app. pose proof (len_nonneg y). pose proof (len_nonneg x'). lia.
Qed.

Lemma printed_last n t x r g x' : 0 < n < 2 ^ 31 →
  writes n g x → len ((t ++ x) ++ x') < 2 ^ 31 → written n t r →
  printed n (t ++ x) x' (r ≫= λ bo, g bo ≫= λ bo, append n bo x').
Proof.
  intros Hn Hg Hl Hr. rewrite <- outcome_assoc. apply append_last; [done..|].
  apply Hg; [|done]. rewrite len_app in Hl. pose proof (len_nonneg x'). lia.
Qed.

Lemma written_nil n : 0 < n → written n [] (Done (local_array n, 0)).
Proof. left. eexists. split; [done|]. by apply holds_fresh. Qed.

Lemma append_fits n b t x : 0 < n < 2 ^ 31 → holds n b t → len t + len x < n →
  ∃ b', append n (b, len t) x = Done (b', len (t ++ x)) ∧ holds n b' (t ++ x).
Proof.
  intros Hn Hb Hl. destruct (append_holds n b t x Hn Hb) as [?|[_ ?]]; rewrite ?len_app in *; [lia|done|lia].
Qed.

Lemma store_next a t v : (∃ rest, a = t ++ rest) → len t < len a →
  ∃ a', store a (len t) v = Done a' ∧ len a' = len a ∧ ∃ rest, a' = (t ++ [v]) ++ rest.
Proof.
  intros [rest ->] Hl. pose proof (len_nonneg t). rewrite store_patch by lia.
  eexists. split; [done|]. split; [rewrite len_patch; unfold len in *; simpl; lia|].
  exists (drop 1 rest). unfold patch. rewrite take_app_length' by (unfold len; lia).
  rewrite drop_app_ge by (unfold len; lia). rewrite <- app_assoc. repeat f_equal. unfold len. simpl. lia.
Qed.

