(* ===== verification/DoipProtocol.v ===== *)
(** * The DoIP message codec

    [src/doip/doip_protocol.c] and its header, with
    [doip_encode_diag_message_ack] of [src/doip/app_doip_entity.c]: the structures
    of ISO 13400-2 messages and the functions that write them to and read them
    from a byte buffer. A pointer that the code compares with [NULL] is an
    [option]; out-parameters are returned. *)

From Stdlib Require Import ZArith Lia.
From S2P Require Import Prelude.

(** ** Constants *)

Definition DOIP_PROTOCOL_VERSION_2012 : Z := 0x02.
Definition DOIP_PROTOCOL_VERSION_2019 : Z := 0x03.
Definition DOIP_INVERSE_VERSION_2012 : Z := 0xFD.
Definition DOIP_INVERSE_VERSION_2019 : Z := 0xFC.

Definition DOIP_PAYLOAD_TYPE_GENERIC_NACK : Z := 0x0000.
Definition DOIP_PAYLOAD_TYPE_VEHICLE_ID_REQ : Z := 0x0001.
Definition DOIP_PAYLOAD_TYPE_VEHICLE_ID_REQ_EID : Z := 0x0002.
Definition DOIP_PAYLOAD_TYPE_VEHICLE_ID_REQ_VIN : Z := 0x0003.
Definition DOIP_PAYLOAD_TYPE_VEHICLE_ANNOUNCEMENT : Z := 0x0004.
Definition DOIP_PAYLOAD_TYPE_ROUTING_ACTIVATION_REQ : Z := 0x0005.
Definition DOIP_PAYLOAD_TYPE_ROUTING_ACTIVATION_RES : Z := 0x0006.
Definition DOIP_PAYLOAD_TYPE_ALIVE_CHECK_REQ : Z := 0x0007.
Definition DOIP_PAYLOAD_TYPE_ALIVE_CHECK_RES : Z := 0x0008.
Definition DOIP_PAYLOAD_TYPE_DIAG_MESSAGE : Z := 0x8001.
Definition DOIP_PAYLOAD_TYPE_DIAG_MESSAGE_ACK : Z := 0x8002.
Definition DOIP_PAYLOAD_TYPE_DIAG_MESSAGE_NACK : Z := 0x8003.

Definition DOIP_ROUTING_ACT_RES_UNKNOWN_SOURCE : Z := 0x00.
Definition DOIP_ROUTING_ACT_RES_SUCCESS : Z := 0x10.
Definition DOIP_ROUTING_ACT_RES_CONFIRM_REQUIRED : Z := 0x11.

Definition DOIP_DIAG_NACK_INVALID_SOURCE : Z := 0x02.
Definition DOIP_DIAG_NACK_UNKNOWN_TARGET : Z := 0x03.

Definition DOIP_MAX_PAYLOAD_SIZE : Z := 4 * 1024.
Definition DOIP_VIN_LENGTH : Z := 17.
Definition DOIP_EID_LENGTH : Z := 6.
Definition DOIP_GID_LENGTH : Z := 6.

(** ** Data *)

Inductive doip_result_t :=
  | DOIP_RESULT_OK
  | DOIP_RESULT_ERROR
  | DOIP_RESULT_INVALID_PARAM
  | DOIP_RESULT_BUFFER_TOO_SMALL
  | DOIP_RESULT_INVALID_FORMAT
  | DOIP_RESULT_TIMEOUT
  | DOIP_RESULT_NOT_READY
  | DOIP_RESULT_NO_MEMORY.
#[export] Instance doip_result_eq_dec : EqDecision doip_result_t.
Proof. solve_decision. Defined.

Record doip_header_t := Header {
  protocol_version : Z;
  inverse_protocol_version : Z;
  payload_type : Z;
  payload_length : Z;
}.

Record doip_vehicle_id_response_t := VehicleIdResponse {
  vir_vin : bytes;
  vir_logical_address : Z;
  vir_eid : bytes;
  vir_gid : bytes;
  vir_further_action_required : Z;
  vir_sync_status : Z;
}.

Record doip_routing_activation_req_t := RoutingActivationReq {
  rreq_source_address : Z;
  rreq_activation_type : Z;
  rreq_reserved : Z;
  rreq_oem_specific : Z;
}.

Record doip_routing_activation_res_t := RoutingActivationRes {
  rres_tester_address : Z;
  rres_entity_address : Z;
  rres_response_code : Z;
  rres_reserved : Z;
  rres_oem_specific : Z;
}.

Record doip_diagnostic_message_t := DiagnosticMessage {
  dm_source_address : Z;
  dm_target_address : Z;
  dm_user_data_length : Z;
  dm_user_data : option bytes;
}.

(** ** Byte order *)

Definition write_be16 (buf : bytes) (off val : Z) : outcome bytes :=
  buf ← store buf off (u8 (Z.shiftr val 8));
  store buf (off + 1) (u8 (Z.land val 0xFF)).

Definition write_be32 (buf : bytes) (off val : Z) : outcome bytes :=
  buf ← store buf off (u8 (Z.shiftr val 24));
  buf ← store buf (off + 1) (u8 (Z.land (Z.shiftr val 16) 0xFF));
  buf ← store buf (off + 2) (u8 (Z.land (Z.shiftr val 8) 0xFF));
  store buf (off + 3) (u8 (Z.land val 0xFF)).

Definition read_be16 (buf : bytes) : outcome Z :=
  b0 ← load buf 0;
  b1 ← load buf 1;
  mret (u16 (Z.lor (u16 (Z.shiftl b0 8)) b1)).

Definition read_be32 (buf : bytes) : outcome Z :=
  b0 ← load buf 0;
  b1 ← load buf 1;
  b2 ← load buf 2;
  b3 ← load buf 3;
  mret (Z.lor (Z.lor (Z.lor (u32 (Z.shiftl b0 24)) (u32 (Z.shiftl b1 16)))
                     (u32 (Z.shiftl b2 8))) b3).

(** ** Header *)

Definition doip_encode_header (header : option doip_header_t) (buffer : option bytes)
    (buffer_size : Z) : outcome (doip_result_t * option bytes) :=
  match header, buffer with
  | Some h, Some buf =>
      if buffer_size <? 8 then mret (DOIP_RESULT_BUFFER_TOO_SMALL, buffer) else
      buf ← store buf 0 (protocol_version h);
      buf ← store buf 1 (inverse_protocol_version h);
      buf ← write_be16 buf 2 (payload_type h);
      buf ← write_be32 buf 4 (payload_length h);
      mret (DOIP_RESULT_OK, Some buf)
  | _, _ => mret (DOIP_RESULT_INVALID_PARAM, buffer)
  end.

Definition doip_decode_header (buffer : option bytes) (buffer_size : Z)
    (header : option doip_header_t) : outcome (doip_result_t * option doip_header_t) :=
  match buffer, header with
  | Some buf, Some _ =>
      if buffer_size <? 8 then mret (DOIP_RESULT_BUFFER_TOO_SMALL, header) else
      pv ← load buf 0;
      ipv ← load buf 1;
      pt ← read_be16 (ptr_add buf 2);
      pl ← read_be32 (ptr_add buf 4);
      mret (DOIP_RESULT_OK, Some (Header pv ipv pt pl))
  | _, _ => mret (DOIP_RESULT_INVALID_PARAM, header)
  end.

Definition doip_validate_header (header : option doip_header_t) : bool :=
  match header with
  | Some h =>
      let is_valid :=
        if (protocol_version h =? DOIP_PROTOCOL_VERSION_2012) &&
           (inverse_protocol_version h =? DOIP_INVERSE_VERSION_2012) then true
        else if (protocol_version h =? DOIP_PROTOCOL_VERSION_2019) &&
                (inverse_protocol_version h =? DOIP_INVERSE_VERSION_2019) then true
        else false in
      if is_valid && (DOIP_MAX_PAYLOAD_SIZE <? payload_length h) then false else is_valid
  | None => false
  end.

(** The header every encoder below writes: version 2019, a payload type and a
    payload length. *)
Definition header_2019 (type length : Z) : doip_header_t :=
  Header DOIP_PROTOCOL_VERSION_2019 DOIP_INVERSE_VERSION_2019 type length.

(** ** Messages *)

Definition doip_encode_vehicle_id_response (response : option doip_vehicle_id_response_t)
    (buffer : option bytes) (buffer_size : Z) (encoded_length : option Z) :
    outcome (doip_result_t * option bytes * option Z) :=
  match response, buffer, encoded_length with
  | Some r, Some _, Some _ =>
      if buffer_size <? 41 then mret (DOIP_RESULT_BUFFER_TOO_SMALL, buffer, encoded_length) else
      let header := header_2019 DOIP_PAYLOAD_TYPE_VEHICLE_ANNOUNCEMENT 33 in
      '(res, buffer) ← doip_encode_header (Some header) buffer buffer_size;
      match res, buffer with
      | DOIP_RESULT_OK, Some buf =>
          let offset := 8 in
          buf ← (slice (vir_vin r) 0 DOIP_VIN_LENGTH ≫= memcpy buf offset);
          let offset := offset + DOIP_VIN_LENGTH in
          buf ← write_be16 buf offset (vir_logical_address r);
          let offset := offset + 2 in
          buf ← (slice (vir_eid r) 0 DOIP_EID_LENGTH ≫= memcpy buf offset);
          let offset := offset + DOIP_EID_LENGTH in
          buf ← (slice (vir_gid r) 0 DOIP_GID_LENGTH ≫= memcpy buf offset);
          let offset := offset + DOIP_GID_LENGTH in
          buf ← store buf offset (vir_further_action_required r);
          let offset := offset + 1 in
          buf ← store buf offset (vir_sync_status r);
          let offset := offset + 1 in
          mret (DOIP_RESULT_OK, Some buf, Some offset)
      | _, _ => mret (DOIP_RESULT_ERROR, buffer, encoded_length)
      end
  | _, _, _ => mret (DOIP_RESULT_INVALID_PARAM, buffer, encoded_length)
  end.

Definition doip_encode_routing_activation_req (request : option doip_routing_activation_req_t)
    (buffer : option bytes) (buffer_size : Z) (encoded_length : option Z) :
    outcome (doip_result_t * option bytes * option Z) :=
  match request, buffer, encoded_length with
  | Some r, Some _, Some _ =>
      if buffer_size <? 19 then mret (DOIP_RESULT_BUFFER_TOO_SMALL, buffer, encoded_length) else
      let header := header_2019 DOIP_PAYLOAD_TYPE_ROUTING_ACTIVATION_REQ 11 in
      '(res, buffer) ← doip_encode_header (Some header) buffer buffer_size;
      match res, buffer with
      | DOIP_RESULT_OK, Some buf =>
          let offset := 8 in
          buf ← write_be16 buf offset (rreq_source_address r);
          let offset := offset + 2 in
          buf ← store buf offset (rreq_activation_type r);
          let offset := offset + 1 in
          buf ← write_be32 buf offset (rreq_reserved r);
          let offset := offset + 4 in
          buf ← write_be32 buf offset (rreq_oem_specific r);
          let offset := offset + 4 in
          mret (DOIP_RESULT_OK, Some buf, Some offset)
      | _, _ => mret (DOIP_RESULT_ERROR, buffer, encoded_length)
      end
  | _, _, _ => mret (DOIP_RESULT_INVALID_PARAM, buffer, encoded_length)
  end.

Definition doip_decode_routing_activation_req (payload : option bytes) (payload_length : Z)
    (request : option doip_routing_activation_req_t) :
    outcome (doip_result_t * option doip_routing_activation_req_t) :=
  match payload, request with
  | Some p, Some _ =>
      sa ← read_be16 (ptr_add p 0);
      at_ ← load p 2;
      rsv ← read_be32 (ptr_add p 3);
      oem ← (if 11 <=? payload_length then read_be32 (ptr_add p 7) else mret 0);
      mret (DOIP_RESULT_OK, Some (RoutingActivationReq sa at_ rsv oem))
  | _, _ => mret (DOIP_RESULT_INVALID_PARAM, request)
  end.

Definition doip_encode_routing_activation_res (response : option doip_routing_activation_res_t)
    (buffer : option bytes) (buffer_size : Z) (encoded_length : option Z) :
    outcome (doip_result_t * option bytes * option Z) :=
  match response, buffer, encoded_length with
  | Some r, Some _, Some _ =>
      if buffer_size <? 21 then mret (DOIP_RESULT_BUFFER_TOO_SMALL, buffer, encoded_length) else
      let header := header_2019 DOIP_PAYLOAD_TYPE_ROUTING_ACTIVATION_RES 13 in
      '(res, buffer) ← doip_encode_header (Some header) buffer buffer_size;
      match res, buffer with
      | DOIP_RESULT_OK, Some buf =>
          let offset := 8 in
          buf ← write_be16 buf offset (rres_tester_address r);
          let offset := offset + 2 in
          buf ← write_be16 buf offset (rres_entity_address r);
          let offset := offset + 2 in
          buf ← store buf offset (rres_response_code r);
          let offset := offset + 1 in
          buf ← write_be32 buf offset (rres_reserved r);
          let offset := offset + 4 in
          buf ← write_be32 buf offset (rres_oem_specific r);
          let offset := offset + 4 in
          mret (DOIP_RESULT_OK, Some buf, Some offset)
      | _, _ => mret (DOIP_RESULT_ERROR, buffer, encoded_length)
      end
  | _, _, _ => mret (DOIP_RESULT_INVALID_PARAM, buffer, encoded_length)
  end.

Definition doip_encode_diagnostic_message (message : option doip_diagnostic_message_t)
    (buffer : option bytes) (buffer_size : Z) (encoded_length : option Z) :
    outcome (doip_result_t * option bytes * option Z) :=
  match message, buffer, encoded_length with
  | Some m, Some _, Some _ =>
      match dm_user_data m with
      | None => mret (DOIP_RESULT_INVALID_PARAM, buffer, encoded_length)
      | Some user_data =>
          let total_length := u32 (8 + 4 + dm_user_data_length m) in
          if buffer_size <? total_length
          then mret (DOIP_RESULT_BUFFER_TOO_SMALL, buffer, encoded_length) else
          let header := header_2019 DOIP_PAYLOAD_TYPE_DIAG_MESSAGE
                                    (u32 (4 + dm_user_data_length m)) in
          '(res, buffer) ← doip_encode_header (Some header) buffer buffer_size;
          match res, buffer with
          | DOIP_RESULT_OK, Some buf =>
              let offset := 8 in
              buf ← write_be16 buf offset (dm_source_address m);
              let offset := offset + 2 in
              buf ← write_be16 buf offset (dm_target_address m);
              let offset := offset + 2 in
              buf ← (slice user_data 0 (dm_user_data_length m) ≫= memcpy buf offset);
              let offset := u32 (offset + dm_user_data_length m) in
              mret (DOIP_RESULT_OK, Some buf, Some offset)
          | _, _ => mret (DOIP_RESULT_ERROR, buffer, encoded_length)
          end
      end
  | _, _, _ => mret (DOIP_RESULT_INVALID_PARAM, buffer, encoded_length)
  end.

Definition doip_decode_diagnostic_message (payload : option bytes) (payload_length : Z)
    (message : option doip_diagnostic_message_t) :
    outcome (doip_result_t * option doip_diagnostic_message_t) :=
  match payload, message with
  | Some p, Some _ =>
      if payload_length <? 4 then mret (DOIP_RESULT_INVALID_FORMAT, message) else
      sa ← read_be16 (ptr_add p 0);
      ta ← read_be16 (ptr_add p 2);
      mret (DOIP_RESULT_OK,
            Some (DiagnosticMessage sa ta (u32 (payload_length - 4)) (Some (ptr_add p 4))))
  | _, _ => mret (DOIP_RESULT_INVALID_PARAM, message)
  end.

Definition doip_encode_generic_nack (nack_code : Z) (buffer : option bytes)
    (buffer_size : Z) (encoded_length : option Z) :
    outcome (doip_result_t * option bytes * option Z) :=
  match buffer, encoded_length with
  | Some _, Some _ =>
      if buffer_size <? 9 then mret (DOIP_RESULT_BUFFER_TOO_SMALL, buffer, encoded_length) else
      let header := header_2019 DOIP_PAYLOAD_TYPE_GENERIC_NACK 1 in
      '(res, buffer) ← doip_encode_header (Some header) buffer buffer_size;
      match res, buffer with
      | DOIP_RESULT_OK, Some buf =>
          buf ← store buf 8 nack_code;
          mret (DOIP_RESULT_OK, Some buf, Some 9)
      | _, _ => mret (DOIP_RESULT_ERROR, buffer, encoded_length)
      end
  | _, _ => mret (DOIP_RESULT_INVALID_PARAM, buffer, encoded_length)
  end.

Definition doip_encode_diag_message_ack (source_address target_address ack_code : Z)
    (buffer : option bytes) (buffer_size : Z) (encoded_length : option Z) :
    outcome (doip_result_t * option bytes * option Z) :=
  match buffer, encoded_length with
  | Some _, Some _ =>
      if buffer_size <? 13 then mret (DOIP_RESULT_BUFFER_TOO_SMALL, buffer, encoded_length) else
      let payload_type := if ack_code =? 0x00 then DOIP_PAYLOAD_TYPE_DIAG_MESSAGE_ACK
                          else DOIP_PAYLOAD_TYPE_DIAG_MESSAGE_NACK in
      let header := header_2019 payload_type 5 in
      '(res, buffer) ← doip_encode_header (Some header) buffer buffer_size;
      match res, buffer with
      | DOIP_RESULT_OK, Some buf =>
          let offset := 8 in
          buf ← store buf offset (u8 (Z.shiftr source_address 8));
          buf ← store buf (offset + 1) (u8 (Z.land source_address 0xFF));
          let offset := offset + 2 in
          buf ← store buf offset (u8 (Z.shiftr target_address 8));
          buf ← store buf (offset + 1) (u8 (Z.land target_address 0xFF));
          let offset := offset + 2 in
          buf ← store buf offset ack_code;
          let offset := offset + 1 in
          mret (DOIP_RESULT_OK, Some buf, Some offset)
      | _, _ => mret (DOIP_RESULT_ERROR, buffer, encoded_length)
      end
  | _, _ => mret (DOIP_RESULT_INVALID_PARAM, buffer, encoded_length)
  end.

(** ** Wire format

    What each message looks like on the wire: the reference the encoders are
    proved equal to. *)

Definition header_bytes (h : doip_header_t) : bytes :=
  [protocol_version h; inverse_protocol_version h] ++ be16 (payload_type h) ++ be32 (payload_length h).

(** A version-2019 message with a given payload. *)
Definition message_2019 (type : Z) (payload : bytes) : bytes :=
  header_bytes (header_2019 type (len payload)) ++ payload.

Definition vehicle_id_payload (r : doip_vehicle_id_response_t) : bytes :=
  vir_vin r ++ be16 (vir_logical_address r) ++ vir_eid r ++ vir_gid r ++
  [vir_further_action_required r; vir_sync_status r].
Definition routing_req_payload (r : doip_routing_activation_req_t) : bytes :=
  be16 (rreq_source_address r) ++ [rreq_activation_type r] ++
  be32 (rreq_reserved r) ++ be32 (rreq_oem_specific r).
Definition routing_res_payload (r : doip_routing_activation_res_t) : bytes :=
  be16 (rres_tester_address r) ++ be16 (rres_entity_address r) ++ [rres_response_code r] ++
  be32 (rres_reserved r) ++ be32 (rres_oem_specific r).
Definition diag_payload (source target : Z) (data : bytes) : bytes :=
  be16 source ++ be16 target ++ data.
Definition ack_payload (source target code : Z) : bytes :=
  be16 source ++ be16 target ++ [code].

Definition header_ok (h : doip_header_t) : Prop :=
  is_u8 (protocol_version h) ∧ is_u8 (inverse_protocol_version h) ∧
  is_u16 (payload_type h) ∧ is_u32 (payload_length h).

(** ** Byte-order lemmas *)

Lemma len_be16 v : len (be16 v) = 2.
Proof. reflexivity. Qed.
Lemma len_be32 v : len (be32 v) = 4.
Proof. reflexivity. Qed.
Lemma len_header_bytes h : len (header_bytes h) = 8.
Proof. reflexivity. Qed.
#[export] Hint Rewrite len_be16 len_be32 len_header_bytes : len.

Lemma drop_header_bytes h rest : drop 8 (header_bytes h ++ rest) = rest.
Proof. done. Qed.

Lemma u8_shiftr v n : 0 <= n → u8 (Z.shiftr v n) = v / 2 ^ n mod 256.
Proof. intros. unfold u8. by rewrite Z.shiftr_div_pow2. Qed.
Lemma u8_land_ff v : u8 (Z.land v 0xFF) = v mod 256.
Proof.
  change 0xFF with (Z.ones 8). rewrite Z.land_ones by lia. unfold u8.
  rewrite Z.mod_mod by lia. reflexivity.
Qed.

Lemma write_be16_patch buf off v :
  0 <= off → off + 2 <= len buf → write_be16 buf off v = Done (patch buf off (be16 v)).
Proof.
  intros. unfold write_be16. fold_writes.
  by rewrite u8_shiftr, u8_land_ff by lia.
Qed.

Lemma write_be32_patch buf off v :
  0 <= off → off + 4 <= len buf → write_be32 buf off v = Done (patch buf off (be32 v)).
Proof.
  intros. unfold write_be32. fold_writes.
  by rewrite u8_shiftr, !u8_land_ff, !Z.shiftr_div_pow2 by lia.
Qed.

Lemma read_be16_cons a b rest :
  is_u8 a → is_u8 b → read_be16 (a :: b :: rest) = Done (of_be16 a b).
Proof.
  intros Ha Hb. unfold read_be16. simpl. unfold mret, outcome_ret. by rewrite lor_be16.
Qed.

Lemma read_be32_cons a b c d rest :
  is_u8 a → is_u8 b → is_u8 c → is_u8 d →
  read_be32 (a :: b :: c :: d :: rest) = Done (of_be32 a b c d).
Proof.
  intros Ha Hb Hc Hd. unfold read_be32. simpl. unfold mret, outcome_ret. by rewrite lor_be32.
Qed.

(** ** Encoders

    Each encoder, given a buffer of at least the size it announces, writes
    exactly the wire format at the start of the buffer. *)

Lemma doip_encode_header_ok h buf size :
  8 <= size → 8 <= len buf →
  doip_encode_header (Some h) (Some buf) size = Done (DOIP_RESULT_OK, Some (patch buf 0 (header_bytes h))).
Proof.
  intros. unfold doip_encode_header. rewrite (proj2 (Z.ltb_ge _ _)) by lia.
  fold_writes. rewrite write_be16_patch by (autorewrite with len; lia). cbn [mbind outcome_bind].
  rewrite write_be32_patch by (autorewrite with len; lia). cbn [mbind outcome_bind].
  fold_writes. done.
Qed.

(** Runs a straight-line encoder to the end. *)
Ltac encode :=
  rewrite doip_encode_header_ok by (autorewrite with len; lia);
  cbn [mbind outcome_bind]; cbv beta iota zeta;
  repeat first
    [ rewrite write_be16_patch by (autorewrite with len; lia); cbn [mbind outcome_bind]
    | rewrite write_be32_patch by (autorewrite with len; lia); cbn [mbind outcome_bind]
    | rewrite store_patch by (autorewrite with len; lia); cbn [mbind outcome_bind]
    | rewrite memcpy_patch by (autorewrite with len; lia); cbn [mbind outcome_bind]
    | rewrite patch_patch by (autorewrite with len; lia) ].

Lemma slice_full b n : len b = n → slice b 0 n = Done b.
Proof.
  intros <-. rewrite slice_Done by (pose proof (len_nonneg b); lia). rewrite drop_0.
  unfold len. rewrite Nat2Z.id. by rewrite take_ge by lia.
Qed.
Lemma slice_prefix b rest n : len b = n → slice (b ++ rest) 0 n = Done b.
Proof.
  intros <-. pose proof (len_nonneg b). pose proof (len_nonneg rest).
  rewrite slice_Done by (rewrite ?len_app; lia). rewrite drop_0. unfold len.
  rewrite Nat2Z.id. by rewrite take_app_length.
Qed.

Lemma doip_encode_vehicle_id_response_ok r buf size el :
  len (vir_vin r) = 17 → len (vir_eid r) = 6 → len (vir_gid r) = 6 →
  41 <= size → 41 <= len buf →
  doip_encode_vehicle_id_response (Some r) (Some buf) size (Some el) =
  Done (DOIP_RESULT_OK,
        Some (patch buf 0 (message_2019 DOIP_PAYLOAD_TYPE_VEHICLE_ANNOUNCEMENT (vehicle_id_payload r))),
        Some 41).
Proof.
  intros Hv He Hg Hs Hb. unfold doip_encode_vehicle_id_response.
  rewrite (proj2 (Z.ltb_ge _ _)) by lia.
  unfold DOIP_VIN_LENGTH, DOIP_EID_LENGTH, DOIP_GID_LENGTH.
  rewrite !slice_full by done. encode.
  unfold message_2019, vehicle_id_payload. autorewrite with len. rewrite Hv, He, Hg.
  simpl. rewrite <- ?app_assoc. done.
Qed.

Lemma doip_encode_routing_activation_req_ok r buf size el :
  19 <= size → 19 <= len buf →
  doip_encode_routing_activation_req (Some r) (Some buf) size (Some el) =
  Done (DOIP_RESULT_OK,
        Some (patch buf 0 (message_2019 DOIP_PAYLOAD_TYPE_ROUTING_ACTIVATION_REQ (routing_req_payload r))),
        Some 19).
Proof.
  intros. unfold doip_encode_routing_activation_req. rewrite (proj2 (Z.ltb_ge _ _)) by lia.
  encode. done.
Qed.

Lemma doip_encode_routing_activation_res_ok r buf size el :
  21 <= size → 21 <= len buf →
  doip_encode_routing_activation_res (Some r) (Some buf) size (Some el) =
  Done (DOIP_RESULT_OK,
        Some (patch buf 0 (message_2019 DOIP_PAYLOAD_TYPE_ROUTING_ACTIVATION_RES (routing_res_payload r))),
        Some 21).
Proof.
  intros. unfold doip_encode_routing_activation_res. rewrite (proj2 (Z.ltb_ge _ _)) by lia.
  encode. done.
Qed.

Lemma doip_encode_diagnostic_message_ok sa ta data rest buf size el :
  12 + len data <= size → 12 + len data <= len buf → is_u32 (12 + len data) →
  doip_encode_diagnostic_message (Some (DiagnosticMessage sa ta (len data) (Some (data ++ rest))))
    (Some buf) size (Some el) =
  Done (DOIP_RESULT_OK,
        Some (patch buf 0 (message_2019 DOIP_PAYLOAD_TYPE_DIAG_MESSAGE (diag_payload sa ta data))),
        Some (12 + len data)).
Proof.
  intros Hs Hb Hu. pose proof (len_nonneg data). unfold is_u32 in Hu.
  unfold doip_encode_diagnostic_message. cbn [dm_user_data dm_user_data_length dm_source_address dm_target_address].
  rewrite !u32_small by (unfold is_u32; lia). rewrite (proj2 (Z.ltb_ge _ _)) by lia.
  rewrite slice_prefix by done. encode.
  unfold message_2019, diag_payload. autorewrite with len.
  replace (2 + (2 + len data)) with (4 + len data) by lia.
  simpl. rewrite <- ?app_assoc. replace (8 + 2 + 2 + len data) with (12 + len data) by lia. done.
Qed.

Lemma doip_encode_generic_nack_ok code buf size el :
  9 <= size → 9 <= len buf →
  doip_encode_generic_nack code (Some buf) size (Some el) =
  Done (DOIP_RESULT_OK,
        Some (patch buf 0 (message_2019 DOIP_PAYLOAD_TYPE_GENERIC_NACK [code])), Some 9).
Proof.
  intros. unfold doip_encode_generic_nack. rewrite (proj2 (Z.ltb_ge _ _)) by lia.
  encode. done.
Qed.

Definition ack_type (code : Z) : Z :=
  if code =? 0 then DOIP_PAYLOAD_TYPE_DIAG_MESSAGE_ACK else DOIP_PAYLOAD_TYPE_DIAG_MESSAGE_NACK.

Lemma doip_encode_diag_message_ack_ok sa ta code buf size el :
  13 <= size → 13 <= len buf →
  doip_encode_diag_message_ack sa ta code (Some buf) size (Some el) =
  Done (DOIP_RESULT_OK,
        Some (patch buf 0 (message_2019 (ack_type code) (ack_payload sa ta code))), Some 13).
Proof.
  intros. unfold doip_encode_diag_message_ack. rewrite (proj2 (Z.ltb_ge _ _)) by lia.
  encode. rewrite !u8_land_ff, !u8_shiftr by lia. done.
Qed.

(** ** Decoders *)

Definition uninit_header : doip_header_t := Header 0 0 0 0.
Definition uninit_routing_req : doip_routing_activation_req_t := RoutingActivationReq 0 0 0 0.
Definition uninit_diag_message : doip_diagnostic_message_t := DiagnosticMessage 0 0 0 None.

Lemma doip_decode_header_cons a b c d e f g h rest size h0 :
  8 <= size → bytes_ok [a; b; c; d; e; f; g; h] →
  doip_decode_header (Some (a :: b :: c :: d :: e :: f :: g :: h :: rest)) size (Some h0) =
  Done (DOIP_RESULT_OK, Some (Header a b (of_be16 c d) (of_be32 e f g h))).
Proof.
  intros Hs Hok. unfold bytes_ok in Hok. rewrite !Forall_cons in Hok.
  unfold doip_decode_header. rewrite (proj2 (Z.ltb_ge _ _)) by lia.
  change (load (a :: b :: c :: d :: e :: f :: g :: h :: rest) 0) with (Done a).
  change (load (a :: b :: c :: d :: e :: f :: g :: h :: rest) 1) with (Done b).
  cbn [mbind outcome_bind].
  unfold ptr_add. change (Z.to_nat 2) with 2%nat. change (Z.to_nat 4) with 4%nat. cbn [drop].
  rewrite read_be16_cons, read_be32_cons by tauto. done.
Qed.

(** The first eight bytes of a buffer, split off. *)
Lemma split_8 (buf : bytes) : 8 <= len buf →
  ∃ a b c d e f g h rest, buf = a :: b :: c :: d :: e :: f :: g :: h :: rest.
Proof.
  intros Hl. do 8 (destruct buf as [|? buf]; [unfold len in Hl; simpl in Hl; lia|]). eauto 10.
Qed.

Lemma header_2019_ok t n : is_u16 t → is_u32 n → header_ok (header_2019 t n).
Proof. intros. split_and!; [by_compute|by_compute|done|done]. Qed.

Lemma header_bytes_ok h : header_ok h → bytes_ok (header_bytes h).
Proof.
  intros (?&?&?&?). unfold header_bytes. apply bytes_ok_app; [solve_bytes_ok|].
  auto with width.
Qed.

Lemma doip_decode_header_bytes h rest size h0 :
  header_ok h → 8 <= size →
  doip_decode_header (Some (header_bytes h ++ rest)) size (Some h0) = Done (DOIP_RESULT_OK, Some h).
Proof.
  intros Hok Hs. pose proof (header_bytes_ok h Hok) as Hb. destruct Hok as (Hp&Hi&Ht&Hl).
  destruct h as [pv ipv pt pl]. unfold header_bytes, be16, be32 in *. 
  cbn [protocol_version inverse_protocol_version payload_type payload_length app] in *.
  rewrite doip_decode_header_cons; [|done|exact Hb].
  by rewrite of_be16_be16, of_be32_be32.
Qed.

(** Any eight bytes are the encoding of some header. *)
Lemma header_split b : 8 <= len b → bytes_ok b → ∃ h rest, b = header_bytes h ++ rest ∧ header_ok h.
Proof.
  intros H8 Hb. destruct (split_8 b H8) as (pv&ipv&t1&t0&l3&l2&l1&l0&rest&->).
  unfold bytes_ok in Hb. rewrite !Forall_cons in Hb. destruct Hb as (?&?&?&?&?&?&?&?&_).
  exists (Header pv ipv (of_be16 t1 t0) (of_be32 l3 l2 l1 l0)), rest. split.
  - unfold header_bytes. cbn [protocol_version inverse_protocol_version payload_type payload_length].
    by rewrite be16_of_be16, be32_of_be32.
  - split; [done|]. split; [done|]. split; simpl; auto with width.
Qed.

Lemma doip_decode_diagnostic_message_cons a b c d rest n m0 :
  4 <= n → n < 2 ^ 32 → bytes_ok [a; b; c; d] →
  doip_decode_diagnostic_message (Some (a :: b :: c :: d :: rest)) n (Some m0) =
  Done (DOIP_RESULT_OK, Some (DiagnosticMessage (of_be16 a b) (of_be16 c d) (n - 4) (Some rest))).
Proof.
  intros Hn Hn' Hok. unfold bytes_ok in Hok. rewrite !Forall_cons in Hok.
  unfold doip_decode_diagnostic_message. rewrite (proj2 (Z.ltb_ge _ _)) by lia.
  unfold ptr_add. change (Z.to_nat 0) with 0%nat. change (Z.to_nat 2) with 2%nat.
  change (Z.to_nat 4) with 4%nat. cbn [drop].
  rewrite !read_be16_cons by tauto. cbn [mbind outcome_bind].
  by rewrite u32_small by (unfold is_u32; lia).
Qed.

Lemma doip_decode_routing_activation_req_cons a b t r0 r1 r2 r3 rest n q0 :
  bytes_ok [a; b; t; r0; r1; r2; r3] → n < 11 →
  doip_decode_routing_activation_req (Some (a :: b :: t :: r0 :: r1 :: r2 :: r3 :: rest)) n (Some q0) =
  Done (DOIP_RESULT_OK,
        Some (RoutingActivationReq (of_be16 a b) t (of_be32 r0 r1 r2 r3) 0)).
Proof.
  intros Hok Hn. unfold bytes_ok in Hok. rewrite !Forall_cons in Hok.
  unfold doip_decode_routing_activation_req, ptr_add. cbn [drop].
  change (Z.to_nat 0) with 0%nat. change (Z.to_nat 3) with 3%nat. cbn [drop].
  rewrite read_be16_cons, read_be32_cons by tauto. cbn [mbind outcome_bind].
  rewrite (proj2 (Z.leb_gt _ _)) by lia. done.
Qed.
Lemma doip_decode_routing_activation_req_full a b t r0 r1 r2 r3 o0 o1 o2 o3 rest n q0 :
  bytes_ok [a; b; t; r0; r1; r2; r3; o0; o1; o2; o3] → 11 <= n →
  doip_decode_routing_activation_req
    (Some (a :: b :: t :: r0 :: r1 :: r2 :: r3 :: o0 :: o1 :: o2 :: o3 :: rest)) n (Some q0) =
  Done (DOIP_RESULT_OK,
        Some (RoutingActivationReq (of_be16 a b) t (of_be32 r0 r1 r2 r3) (of_be32 o0 o1 o2 o3))).
Proof.
  intros Hok Hn. unfold bytes_ok in Hok. rewrite !Forall_cons in Hok.
  unfold doip_decode_routing_activation_req, ptr_add.
  change (Z.to_nat 0) with 0%nat. change (Z.to_nat 3) with 3%nat. change (Z.to_nat 7) with 7%nat.
  cbn [drop]. rewrite read_be16_cons, !read_be32_cons by tauto. cbn [mbind outcome_bind].
  rewrite (proj2 (Z.leb_le _ _)) by lia. done.
Qed.

(** Any eleven bytes decode as a routing activation request. *)
Lemma doip_decode_routing_total p n q0 : 11 <= len p → bytes_ok p →
  ∃ r, doip_decode_routing_activation_req (Some p) n (Some q0) = Done (DOIP_RESULT_OK, Some r) ∧
       is_u16 (rreq_source_address r) ∧ rreq_source_address r = of_be16 (p !!! 0%nat) (p !!! 1%nat).
Proof.
  intros Hl Hb. unfold len in Hl. do 11 (destruct p as [|? p]; [simpl in Hl; lia|]).
  unfold bytes_ok in Hb. rewrite !Forall_cons in Hb. destruct Hb as (?&?&?&?&?&?&?&?&?&?&?&_).
  destruct (decide (n < 11)).
  - eexists. split; [apply doip_decode_routing_activation_req_cons; [solve_bytes_ok|done]|].
    simpl. auto with width.
  - eexists. split; [apply doip_decode_routing_activation_req_full; [solve_bytes_ok|lia]|].
    simpl. auto with width.
Qed.

(** Any four bytes decode as the addresses of a diagnostic message. *)
Lemma doip_decode_diag_total p n m0 : 4 <= len p → 4 <= n → n < 2 ^ 32 → bytes_ok p →
  ∃ sa ta, doip_decode_diagnostic_message (Some p) n (Some m0) =
    Done (DOIP_RESULT_OK, Some (DiagnosticMessage sa ta (n - 4) (Some (drop 4 p)))) ∧
    is_u16 sa ∧ is_u16 ta.
Proof.
  intros Hl Hn Hn' Hb. unfold len in Hl. do 4 (destruct p as [|? p]; [simpl in Hl; lia|]).
  unfold bytes_ok in Hb. rewrite !Forall_cons in Hb. destruct Hb as (?&?&?&?&_).
  eexists _, _. split; [apply doip_decode_diagnostic_message_cons; [done|done|solve_bytes_ok]|].
  auto with width.
Qed.

Definition routing_req_ok (r : doip_routing_activation_req_t) : Prop :=
  is_u16 (rreq_source_address r) ∧ is_u8 (rreq_activation_type r) ∧
  is_u32 (rreq_reserved r) ∧ is_u32 (rreq_oem_specific r).

Lemma doip_decode_routing_req_payload r rest n q0 :
  routing_req_ok r → 11 <= n →
  doip_decode_routing_activation_req (Some (routing_req_payload r ++ rest)) n (Some q0) =
  Done (DOIP_RESULT_OK, Some r).
Proof.
  intros (Hs&Ht&Hr&Ho) Hn. destruct r as [sa t rsv oem]. unfold routing_req_payload.
  cbn [rreq_source_address rreq_activation_type rreq_reserved rreq_oem_specific] in *.
  unfold be16, be32. cbn [app].
  rewrite doip_decode_routing_activation_req_full; [|..].
  - by rewrite of_be16_be16, !of_be32_be32.
  - solve_bytes_ok.
  - done.
Qed.

Lemma doip_decode_diag_payload sa ta data rest n m0 :
  is_u16 sa → is_u16 ta → n = 4 + len data → n < 2 ^ 32 →
  doip_decode_diagnostic_message (Some (diag_payload sa ta data ++ rest)) n (Some m0) =
  Done (DOIP_RESULT_OK, Some (DiagnosticMessage sa ta (len data) (Some (data ++ rest)))).
Proof.
  intros Hs Ht -> Hn. pose proof (len_nonneg data). unfold diag_payload, be16. cbn [app].
  rewrite doip_decode_diagnostic_message_cons; [|lia|lia|].
  - rewrite !of_be16_be16 by done. do 4 f_equal. lia.
  - solve_bytes_ok.
Qed.

(** ** Properties *)

Lemma drop_patch_0 b d n : Z.of_nat n = len d → len d <= len b → drop n (patch b 0 d) = drop n b.
Proof.
  intros Hn Hd. unfold len in Hn, Hd. rewrite patch_0 by (unfold len; lia).
  rewrite drop_app_ge by lia. rewrite drop_drop. f_equal. lia.
Qed.

(** C21: encoding a well-formed header and decoding the buffer gives the header
    back, and encoding what was decoded rewrites the same eight bytes; the
    encoder touches nothing beyond them. *)
Theorem header_roundtrip h buf size :
  header_ok h → 8 <= size → 8 <= len buf → bytes_ok (take 8 buf) →
  (∃ buf', doip_encode_header (Some h) (Some buf) size = Done (DOIP_RESULT_OK, Some buf') ∧
     doip_decode_header (Some buf') size (Some uninit_header) = Done (DOIP_RESULT_OK, Some h) ∧
     len buf' = len buf ∧ drop 8 buf' = drop 8 buf) ∧
  (∃ h', doip_decode_header (Some buf) size (Some uninit_header) = Done (DOIP_RESULT_OK, Some h') ∧
     header_ok h' ∧
     doip_encode_header (Some h') (Some buf) size = Done (DOIP_RESULT_OK, Some buf)).
Proof.
  intros Hok Hs Hb Hbuf. split.
  - eexists. split; [by apply doip_encode_header_ok|]. split_and!.
    + rewrite patch_0 by (by autorewrite with len). by apply doip_decode_header_bytes.
    + by rewrite len_patch by (autorewrite with len; lia).
    + by apply drop_patch_0; rewrite len_header_bytes; lia.
  - destruct (split_8 buf Hb) as (a&b&c&d&e&f&g&i&rest&->). cbn [take] in Hbuf.
    eexists. split; [by apply doip_decode_header_cons|].
    pose proof Hbuf as Hall. unfold bytes_ok in Hall. rewrite !Forall_cons in Hall.
    split; [split_and!; cbn; try tauto; [apply of_be16_range|apply of_be32_range]; tauto|].
    rewrite doip_encode_header_ok by done. rewrite patch_0 by exact Hb.
    unfold header_bytes. cbn [protocol_version inverse_protocol_version payload_type payload_length].
    rewrite be16_of_be16, be32_of_be32 by tauto. done.
Qed.

Lemma header_roundtrip_witness :
  ∃ buf', doip_encode_header (Some (header_2019 0x8001 6)) (Some (local_array 16)) 16 =
            Done (DOIP_RESULT_OK, Some buf') ∧ take 8 buf' = [3; 0xFC; 0x80; 0x01; 0; 0; 0; 6].
Proof.
  destruct (header_roundtrip (header_2019 0x8001 6) (local_array 16) 16) as [(buf'&H&_) _].
  - by_compute.
  - lia.
  - by_compute.
  - by_compute.
  - exists buf'. split; [exact H|]. vm_compute in H. injection H as <-. reflexivity.
Defined.

(** What an encoder, applied to its structure, owes to its caller for the wire
    message [m]: in a buffer of the size given, the message at the start and the
    bytes behind it untouched, with the length of the message, when the message
    fits; a refusal that touches nothing when the buffer is too small or an
    object is missing. *)
Definition encodes (encode : option bytes → Z → option Z → outcome (doip_result_t * option bytes * option Z))
    (m : bytes) : Prop :=
  (∀ buf size el, size <= len buf → len m <= size →
     encode (Some buf) size (Some el) = Done (DOIP_RESULT_OK, Some (m ++ drop (length m) buf), Some (len m))) ∧
  (∀ buf size el, size < len m → encode (Some buf) size (Some el) = Done (DOIP_RESULT_BUFFER_TOO_SMALL, Some buf, Some el)) ∧
  (∀ buffer size encoded_length, buffer = None ∨ encoded_length = None →
     encode buffer size encoded_length = Done (DOIP_RESULT_INVALID_PARAM, buffer, encoded_length)).

Lemma encodes_intro encode m n : len m = n →
  (∀ buf size el, n <= size → n <= len buf →
     encode (Some buf) size (Some el) = Done (DOIP_RESULT_OK, Some (patch buf 0 m), Some n)) →
  (∀ buf size el, size < n → encode (Some buf) size (Some el) = Done (DOIP_RESULT_BUFFER_TOO_SMALL, Some buf, Some el)) →
  (∀ buffer size encoded_length, buffer = None ∨ encoded_length = None →
     encode buffer size encoded_length = Done (DOIP_RESULT_INVALID_PARAM, buffer, encoded_length)) →
  encodes encode m.
Proof.
  intros <- Hfit Hshort Hnull. split_and!; [|done..].
  intros buf size el Hb Hs. rewrite Hfit by lia. by rewrite patch_0 by lia.
Qed.

(** Goals of [encodes] for an encoder whose success is [ok]. *)
Ltac encodes_by n ok :=
  apply (encodes_intro _ _ n);
  [ try done
  | intros; apply ok; try done; lia
  | intros buf size el Hs; cbv beta delta [doip_encode_vehicle_id_response doip_encode_routing_activation_req
      doip_encode_routing_activation_res doip_encode_generic_nack doip_encode_diag_message_ack];
    cbv beta iota; by rewrite (proj2 (Z.ltb_lt _ _)) by exact Hs
  | by intros [?|] size [?|] [?|?] ].

(** C22: the encoders and the wire format. Every message encoder, in a buffer of
    any size, writes exactly the version-2019 message of its argument (header,
    then the fields of the payload in big-endian order) at the start of the
    buffer, leaves the rest alone and returns the length of that message as
    soon as the size given is at least that length, and refuses without
    touching anything when it is smaller or the buffer or the length object is
    missing; so does the header encoder with the eight bytes of any header. For
    the vehicle response the three identifiers have the lengths of their
    arrays; for a diagnostic message the user data is there and
    [12 + user_data_length] is below [2^32]. *)
Theorem encoders_wire_format :
  (∀ h buf size, (8 <= size → size <= len buf → doip_encode_header (Some h) (Some buf) size =
                    Done (DOIP_RESULT_OK, Some (header_bytes h ++ drop 8 buf))) ∧
                 (size < 8 → doip_encode_header (Some h) (Some buf) size = Done (DOIP_RESULT_BUFFER_TOO_SMALL, Some buf))) ∧
  (∀ r, len (vir_vin r) = 17 → len (vir_eid r) = 6 → len (vir_gid r) = 6 →
     encodes (doip_encode_vehicle_id_response (Some r))
       (message_2019 DOIP_PAYLOAD_TYPE_VEHICLE_ANNOUNCEMENT (vehicle_id_payload r))) ∧
  (∀ r, encodes (doip_encode_routing_activation_req (Some r))
          (message_2019 DOIP_PAYLOAD_TYPE_ROUTING_ACTIVATION_REQ (routing_req_payload r))) ∧
  (∀ r, encodes (doip_encode_routing_activation_res (Some r))
          (message_2019 DOIP_PAYLOAD_TYPE_ROUTING_ACTIVATION_RES (routing_res_payload r))) ∧
  (∀ sa ta data rest, 12 + len data < 2 ^ 32 →
     encodes (doip_encode_diagnostic_message (Some (DiagnosticMessage sa ta (len data) (Some (data ++ rest)))))
       (message_2019 DOIP_PAYLOAD_TYPE_DIAG_MESSAGE (diag_payload sa ta data))) ∧
  (∀ code, encodes (doip_encode_generic_nack code) (message_2019 DOIP_PAYLOAD_TYPE_GENERIC_NACK [code])) ∧
  (∀ sa ta code, encodes (doip_encode_diag_message_ack sa ta code)
                   (message_2019 (ack_type code) (ack_payload sa ta code))).
Proof.
  split_and!.
  - intros h buf size. split.
    + intros. rewrite doip_encode_header_ok by lia. by rewrite patch_0 by (autorewrite with len; lia).
    + intros Hs. unfold doip_encode_header. by rewrite (proj2 (Z.ltb_lt _ _)) by exact Hs.
  - intros r Hv He Hg. encodes_by 41 doip_encode_vehicle_id_response_ok.
    unfold message_2019, vehicle_id_payload. autorewrite with len. lia.
  - intros r. encodes_by 19 doip_encode_routing_activation_req_ok.
  - intros r. encodes_by 21 doip_encode_routing_activation_res_ok.
  - intros sa ta data rest Hu. pose proof (len_nonneg data). apply (encodes_intro _ _ (12 + len data)).
    + unfold message_2019, diag_payload. autorewrite with len. lia.
    + intros. apply doip_encode_diagnostic_message_ok; unfold is_u32; lia.
    + intros buf size el Hs. unfold doip_encode_diagnostic_message. cbn [dm_user_data dm_user_data_length].
      rewrite u32_small by (unfold is_u32; lia). by rewrite (proj2 (Z.ltb_lt _ _)) by lia.
    + by intros [?|] size [?|] [?|?].
  - intros code. encodes_by 9 doip_encode_generic_nack_ok.
  - intros sa ta code. encodes_by 13 doip_encode_diag_message_ack_ok.
Qed.

Lemma encoders_wire_format_witness :
  doip_encode_diag_message_ack 0x1000 0x0E80 0 (Some (local_array 16)) 13 (Some 0) =
    Done (DOIP_RESULT_OK, Some [3; 0xFC; 0x80; 0x02; 0; 0; 0; 5; 0x10; 0; 0x0E; 0x80; 0; 0; 0; 0], Some 13) ∧
  doip_encode_diag_message_ack 0x1000 0x0E80 0 (Some (local_array 16)) 12 (Some 0) =
    Done (DOIP_RESULT_BUFFER_TOO_SMALL, Some (local_array 16), Some 0) ∧
  doip_encode_diagnostic_message (Some (DiagnosticMessage 0x1000 0x0E80 2 (Some [0x3E; 0; 0x55])))
    (Some (local_array 16)) 14 (Some 0) =
    Done (DOIP_RESULT_OK, Some [3; 0xFC; 0x80; 0x01; 0; 0; 0; 6; 0x10; 0; 0x0E; 0x80; 0x3E; 0; 0; 0], Some 14).
Proof.
  destruct encoders_wire_format as (_&_&_&_&Hd&_&Ha).
  split_and!.
  - rewrite (proj1 (Ha 0x1000 0x0E80 0) (local_array 16) 13 0) by (vm_compute; discriminate). reflexivity.
  - rewrite (proj1 (proj2 (Ha 0x1000 0x0E80 0)) (local_array 16) 12 0) by reflexivity. reflexivity.
  - assert (12 + len [0x3E; 0] < 2 ^ 32) as Hu by reflexivity.
    by refine (proj1 (Hd 0x1000 0x0E80 [0x3E; 0] [0x55] Hu) (local_array 16) 14 0 _ _).
Defined.

(** A diagnostic message that fits is encoded as header, addresses and user
    data, and its payload decodes to the same addresses, length and bytes; one
    that does not fit is refused with the buffer untouched. The size test is
    made on 32 bits, so a length above [2^32 - 13] passes it and the copy then
    leaves the source array. *)
Theorem diag_message_roundtrip sa ta data n buf size el :
  is_u16 sa → is_u16 ta → is_u32 n → 8 <= size → 8 <= len buf → size <= len buf → n <= len data →
  let r := doip_encode_diagnostic_message (Some (DiagnosticMessage sa ta n (Some data)))
             (Some buf) size (Some el) in
  (12 + n <= size → 12 + n < 2 ^ 32 →
     ∃ buf', r = Done (DOIP_RESULT_OK, Some buf', Some (12 + n)) ∧
       doip_decode_header (Some buf') (12 + n) (Some uninit_header) =
         Done (DOIP_RESULT_OK, Some (header_2019 DOIP_PAYLOAD_TYPE_DIAG_MESSAGE (4 + n))) ∧
       ∃ rest, doip_decode_diagnostic_message (Some (ptr_add buf' 8)) (4 + n) (Some uninit_diag_message) =
         Done (DOIP_RESULT_OK, Some (DiagnosticMessage sa ta n (Some (take (Z.to_nat n) data ++ rest))))) ∧
  (size < 12 + n → 12 + n < 2 ^ 32 → r = Done (DOIP_RESULT_BUFFER_TOO_SMALL, Some buf, Some el)) ∧
  (12 <= size → 2 ^ 32 <= 12 + n → len buf < 12 + n → r = Fault).
Proof.
  intros Hsa Hta Hn H8 H8' Hsb Hnd r. split_and!.
  - intros Hfit Hu. subst r. unfold is_u32 in Hn.
    assert (∃ d rest, data = d ++ rest ∧ len d = n ∧ take (Z.to_nat n) data = d) as (d&rest&->&<-&->).
    { exists (take (Z.to_nat n) data), (drop (Z.to_nat n) data). rewrite take_drop.
      split_and!; [done|by apply len_take; lia|done]. }
    rewrite doip_encode_diagnostic_message_ok by (unfold is_u32; lia). eexists. split; [done|].
    rewrite patch_0 by (unfold message_2019, diag_payload; autorewrite with len; lia).
    unfold message_2019. rewrite <- app_assoc. split.
    + rewrite doip_decode_header_bytes;
        [|apply header_2019_ok; unfold diag_payload; [by_compute|autorewrite with len; unfold is_u32; lia]|lia].
      unfold diag_payload. autorewrite with len. by replace (2 + (2 + len d)) with (4 + len d) by lia.
    + eexists. unfold ptr_add. rewrite drop_app_ge by (unfold len; simpl; lia).
      replace (Z.to_nat 8 - length (header_bytes (header_2019 DOIP_PAYLOAD_TYPE_DIAG_MESSAGE
        (len (diag_payload sa ta d)))))%nat with 0%nat by (simpl; lia).
      rewrite drop_0. apply doip_decode_diag_payload; done || lia.
  - intros Hbig Hu. subst r. unfold doip_encode_diagnostic_message. cbn [dm_user_data dm_user_data_length].
    unfold is_u32 in Hn. rewrite u32_small by (unfold is_u32; lia).
    by rewrite (proj2 (Z.ltb_lt _ _)) by lia.
  - intros Hs Hwrap Hbuf. subst r. unfold doip_encode_diagnostic_message.
    cbn [dm_user_data dm_user_data_length dm_source_address dm_target_address].
    unfold is_u32 in Hn. assert (u32 (8 + 4 + n) = 12 + n - 2 ^ 32) as ->.
    { unfold u32. symmetry. apply (Z.mod_unique _ _ 1); lia. }
    rewrite (proj2 (Z.ltb_ge _ _)) by lia. rewrite slice_Done by lia. encode.
    rewrite memcpy_overflow; [done|]. rewrite len_patch by (autorewrite with len; lia).
    rewrite len_take by (rewrite drop_0; lia). lia.
Qed.

Lemma diag_message_roundtrip_witness :
  ∃ buf', doip_encode_diagnostic_message (Some (DiagnosticMessage 0x1000 0x0E80 2 (Some [0x62; 0xF1])))
             (Some (local_array 16)) 16 (Some 0) = Done (DOIP_RESULT_OK, Some buf', Some 14) ∧
          take 14 buf' = [3; 0xFC; 0x80; 1; 0; 0; 0; 6; 0x10; 0; 0x0E; 0x80; 0x62; 0xF1].
Proof.
  destruct (diag_message_roundtrip 0x1000 0x0E80 [0x62; 0xF1] 2 (local_array 16) 16 0) as [H _];
    try (unfold is_u16, is_u32; lia); try (vm_compute; discriminate).
  destruct H as (buf'&H&_); [lia..|]. exists buf'. split; [exact H|].
  vm_compute in H. injection H as <-. reflexivity.
Defined.

(** A routing activation request of 11 payload bytes decodes to the request
    it encodes, and of 7 to 10 bytes to the same with a zero OEM field; the
    decoder does not look at shorter lengths at all and reads past the end of a
    payload of fewer than 7 readable bytes. *)
Theorem routing_req_roundtrip r rest n :
  routing_req_ok r → 11 <= n →
  doip_decode_routing_activation_req (Some (routing_req_payload r ++ rest)) n
    (Some uninit_routing_req) = Done (DOIP_RESULT_OK, Some r) ∧
  (∀ m, m < 11 →
     doip_decode_routing_activation_req (Some (take 7 (routing_req_payload r) ++ rest)) m
       (Some uninit_routing_req) =
     Done (DOIP_RESULT_OK,
           Some (RoutingActivationReq (rreq_source_address r) (rreq_activation_type r) (rreq_reserved r) 0))) ∧
  (∀ k m, (k < 7)%nat →
     doip_decode_routing_activation_req (Some (take k (routing_req_payload r))) m
       (Some uninit_routing_req) = Fault).
Proof.
  intros Hok Hn. split; [by apply doip_decode_routing_req_payload|].
  pose proof Hok as (Hs&Ht&Hr&Ho). split.
  - intros m Hm. unfold routing_req_payload, be16, be32. cbn [take app].
    rewrite doip_decode_routing_activation_req_cons; [|solve_bytes_ok|done].
    by rewrite of_be16_be16, of_be32_be32.
  - intros k m Hk. unfold routing_req_payload, be16, be32. cbn [app].
    do 7 (destruct k as [|k]; [done|]). lia.
Qed.

Lemma routing_req_roundtrip_witness :
  doip_decode_routing_activation_req
    (Some [0x0E; 0x80; 0; 0; 0; 0; 0; 0; 0; 0; 7]) 11 (Some uninit_routing_req) =
  Done (DOIP_RESULT_OK, Some (RoutingActivationReq 0x0E80 0 0 7)).
Proof.
  destruct (routing_req_roundtrip (RoutingActivationReq 0x0E80 0 0 7) [] 11) as [H _].
  - by_compute.
  - lia.
  - exact H.
Defined.
