(* ===== verification/Uds.v ===== *)
(** * The UDS server

    [src/uds/uds_services.c] and [src/uds/uds_services.h]: the diagnostic context,
    the service handlers and the dispatcher. Pointer parameters are [option]s;
    a handler returns the context and the response object it leaves behind. *)

From Stdlib Require Import ZArith Lia.
From Stdlib Require Import Strings.String Strings.Ascii.
From Stdlib Require Import List.
From S2P Require Import Prelude.
Local Open Scope list_scope.
Local Open Scope Z_scope.

(** ** Constants *)

Definition UDS_SID_DIAGNOSTIC_SESSION_CONTROL : Z := 0x10.
Definition UDS_SID_ECU_RESET : Z := 0x11.
Definition UDS_SID_SECURITY_ACCESS : Z := 0x27.
Definition UDS_SID_TESTER_PRESENT : Z := 0x3E.
Definition UDS_SID_READ_DATA_BY_IDENTIFIER : Z := 0x22.
Definition UDS_POSITIVE_RESPONSE_OFFSET : Z := 0x40.

Definition UDS_NRC_SERVICE_NOT_SUPPORTED : Z := 0x11.
Definition UDS_NRC_SUB_FUNCTION_NOT_SUPPORTED : Z := 0x12.
Definition UDS_NRC_INCORRECT_MESSAGE_LENGTH : Z := 0x13.
Definition UDS_NRC_REQUEST_OUT_OF_RANGE : Z := 0x31.
Definition UDS_NRC_SECURITY_ACCESS_DENIED : Z := 0x33.
Definition UDS_NRC_INVALID_KEY : Z := 0x35.
Definition UDS_NRC_EXCEEDED_NUMBER_OF_ATTEMPTS : Z := 0x36.

Definition UDS_SESSION_DEFAULT : Z := 0x01.
Definition UDS_SESSION_PROGRAMMING : Z := 0x02.
Definition UDS_SESSION_EXTENDED : Z := 0x03.
Definition UDS_RESET_HARD : Z := 0x01.
Definition UDS_RESET_KEY_OFF_ON : Z := 0x02.
Definition UDS_RESET_SOFT : Z := 0x03.
Definition UDS_SECURITY_REQUEST_SEED_LEVEL_1 : Z := 0x01.
Definition UDS_SECURITY_SEND_KEY_LEVEL_1 : Z := 0x02.
Definition UDS_DID_VIN : Z := 0xF190.
Definition UDS_DID_ECU_SERIAL_NUMBER : Z := 0xF18C.
Definition UDS_DID_ECU_SOFTWARE_NUMBER : Z := 0xF194.

(** ** Data *)

Record uds_request_t := Request {
  req_sid : Z;
  req_data : bytes;
  req_length : Z;
}.

Record uds_response_t := Response {
  resp_buffer : bytes;
  resp_max_length : Z;
  resp_actual_length : Z;
}.

Record uds_context_t := Context {
  current_session : Z;
  security_level : Z;
  security_unlocked : bool;
  seed : Z;
  failed_security_attempts : Z;
  last_tester_present_time : Z;
}.

Definition set_session (s : Z) (c : uds_context_t) : uds_context_t :=
  Context s (security_level c) (security_unlocked c) (seed c)
          (failed_security_attempts c) (last_tester_present_time c).
Definition set_seed (s : Z) (c : uds_context_t) : uds_context_t :=
  Context (current_session c) (security_level c) (security_unlocked c) s
          (failed_security_attempts c) (last_tester_present_time c).
Definition set_unlocked (b : bool) (c : uds_context_t) : uds_context_t :=
  Context (current_session c) (security_level c) b (seed c)
          (failed_security_attempts c) (last_tester_present_time c).
Definition set_attempts (n : Z) (c : uds_context_t) : uds_context_t :=
  Context (current_session c) (security_level c) (security_unlocked c) (seed c)
          n (last_tester_present_time c).

Definition vin_literal : bytes := literal "WVWZZZ1KZ1A234567"%string.
Definition serial_literal : bytes := literal "SN123456789"%string.

(** ** Operations *)

Definition uds_init (context : option uds_context_t) : option uds_context_t :=
  match context with
  | Some _ => Some (Context UDS_SESSION_DEFAULT 0 false 0 0 0)
  | None => None
  end.

Definition uds_send_negative_response (sid nrc : Z) (response : option uds_response_t) :
    outcome (option uds_response_t) :=
  match response with
  | Some r =>
      if 3 <=? resp_max_length r then
        buf ← store (resp_buffer r) 0 0x7F;
        buf ← store buf 1 sid;
        buf ← store buf 2 nrc;
        mret (Some (Response buf (resp_max_length r) 3))
      else mret response
  | None => mret response
  end.

Definition uds_send_positive_response (sid : Z) (data : option bytes) (length : Z)
    (response : option uds_response_t) : outcome (option uds_response_t) :=
  match response with
  | Some r =>
      let total_length := u32 (1 + length) in
      if total_length <=? resp_max_length r then
        buf ← store (resp_buffer r) 0 (u8 (sid + UDS_POSITIVE_RESPONSE_OFFSET));
        buf ← match data with
              | Some d => if 0 <? length then slice d 0 length ≫= memcpy buf 1 else mret buf
              | None => mret buf
              end;
        mret (Some (Response buf (resp_max_length r) total_length))
      else mret response
  | None => mret response
  end.

Definition handler : Type :=
  option uds_context_t → option uds_request_t → option uds_response_t →
  outcome (option uds_context_t * option uds_response_t).

Definition uds_handle_diagnostic_session_control : handler := λ context request response,
  match request, response, context with
  | Some req, Some _, Some ctx =>
      if req_length req <? 1 then
        r ← uds_send_negative_response UDS_SID_DIAGNOSTIC_SESSION_CONTROL
              UDS_NRC_INCORRECT_MESSAGE_LENGTH response;
        mret (context, r)
      else
      session_type ← load (req_data req) 0;
      if negb (session_type =? UDS_SESSION_DEFAULT) &&
         negb (session_type =? UDS_SESSION_PROGRAMMING) &&
         negb (session_type =? UDS_SESSION_EXTENDED) then
        r ← uds_send_negative_response UDS_SID_DIAGNOSTIC_SESSION_CONTROL
              UDS_NRC_SUB_FUNCTION_NOT_SUPPORTED response;
        mret (context, r)
      else
      let context := Some (set_session session_type ctx) in
      let resp_data := [session_type; 0x00; 0x32; 0x01; 0xF4] in
      r ← uds_send_positive_response UDS_SID_DIAGNOSTIC_SESSION_CONTROL
            (Some resp_data) 5 response;
      mret (context, r)
  | _, _, _ => mret (context, response)
  end.

Definition uds_handle_ecu_reset : handler := λ context request response,
  match request, response, context with
  | Some req, Some _, Some ctx =>
      if req_length req <? 1 then
        r ← uds_send_negative_response UDS_SID_ECU_RESET UDS_NRC_INCORRECT_MESSAGE_LENGTH response;
        mret (context, r)
      else
      reset_type ← load (req_data req) 0;
      if negb (reset_type =? UDS_RESET_HARD) && negb (reset_type =? UDS_RESET_KEY_OFF_ON) &&
         negb (reset_type =? UDS_RESET_SOFT) then
        r ← uds_send_negative_response UDS_SID_ECU_RESET UDS_NRC_SUB_FUNCTION_NOT_SUPPORTED response;
        mret (context, r)
      else
      if negb (security_unlocked ctx) && negb (current_session ctx =? UDS_SESSION_DEFAULT) then
        r ← uds_send_negative_response UDS_SID_ECU_RESET UDS_NRC_SECURITY_ACCESS_DENIED response;
        mret (context, r)
      else
      r ← uds_send_positive_response UDS_SID_ECU_RESET (Some [reset_type]) 1 response;
      mret (context, r)
  | _, _, _ => mret (context, response)
  end.

Definition uds_handle_security_access : handler := λ context request response,
  match request, response, context with
  | Some req, Some _, Some ctx =>
      if req_length req <? 1 then
        r ← uds_send_negative_response UDS_SID_SECURITY_ACCESS UDS_NRC_INCORRECT_MESSAGE_LENGTH response;
        mret (context, r)
      else
      sub_function ← load (req_data req) 0;
      if sub_function =? UDS_SECURITY_REQUEST_SEED_LEVEL_1 then
        if security_unlocked ctx then
          r ← uds_send_positive_response UDS_SID_SECURITY_ACCESS
                (Some [sub_function; 0; 0; 0; 0]) 5 response;
          mret (context, r)
        else
        let ctx := set_seed 0x12345678 ctx in
        let resp_data := [sub_function; u8 (Z.shiftr (seed ctx) 24); u8 (Z.shiftr (seed ctx) 16);
                          u8 (Z.shiftr (seed ctx) 8); u8 (Z.land (seed ctx) 0xFF)] in
        r ← uds_send_positive_response UDS_SID_SECURITY_ACCESS (Some resp_data) 5 response;
        mret (Some ctx, r)
      else if sub_function =? UDS_SECURITY_SEND_KEY_LEVEL_1 then
        if req_length req <? 5 then
          r ← uds_send_negative_response UDS_SID_SECURITY_ACCESS UDS_NRC_INCORRECT_MESSAGE_LENGTH response;
          mret (context, r)
        else
        d1 ← load (req_data req) 1;
        d2 ← load (req_data req) 2;
        d3 ← load (req_data req) 3;
        d4 ← load (req_data req) 4;
        let received_key := Z.lor (Z.lor (Z.lor (u32 (Z.shiftl d1 24)) (u32 (Z.shiftl d2 16)))
                                         (u32 (Z.shiftl d3 8))) d4 in
        let expected_key := Z.lxor (seed ctx) 0xA5A5A5A5 in
        if received_key =? expected_key then
          let context := Some (set_attempts 0 (set_unlocked true ctx)) in
          r ← uds_send_positive_response UDS_SID_SECURITY_ACCESS (Some [sub_function]) 1 response;
          mret (context, r)
        else
          let ctx := set_attempts (u8 (failed_security_attempts ctx + 1)) ctx in
          if 3 <=? failed_security_attempts ctx then
            r ← uds_send_negative_response UDS_SID_SECURITY_ACCESS
                  UDS_NRC_EXCEEDED_NUMBER_OF_ATTEMPTS response;
            mret (Some ctx, r)
          else
            r ← uds_send_negative_response UDS_SID_SECURITY_ACCESS UDS_NRC_INVALID_KEY response;
            mret (Some ctx, r)
      else
        r ← uds_send_negative_response UDS_SID_SECURITY_ACCESS UDS_NRC_SUB_FUNCTION_NOT_SUPPORTED response;
        mret (context, r)
  | _, _, _ => mret (context, response)
  end.

Definition uds_handle_tester_present : handler := λ context request response,
  match request, response, context with
  | Some req, Some _, Some _ =>
      if req_length req <? 1 then
        r ← uds_send_negative_response UDS_SID_TESTER_PRESENT UDS_NRC_INCORRECT_MESSAGE_LENGTH response;
        mret (context, r)
      else
      d0 ← load (req_data req) 0;
      r ← uds_send_positive_response UDS_SID_TESTER_PRESENT (Some [d0]) 1 response;
      mret (context, r)
  | _, _, _ => mret (context, response)
  end.

Definition uds_handle_read_data_by_id : handler := λ context request response,
  match request, response, context with
  | Some req, Some _, Some _ =>
      if req_length req <? 2 then
        r ← uds_send_negative_response UDS_SID_READ_DATA_BY_IDENTIFIER
              UDS_NRC_INCORRECT_MESSAGE_LENGTH response;
        mret (context, r)
      else
      d0 ← load (req_data req) 0;
      d1 ← load (req_data req) 1;
      let did := u16 (Z.lor (u16 (Z.shiftl d0 8)) d1) in
      let resp_data := local_array 32 in
      resp_data ← store resp_data 0 d0;
      resp_data ← store resp_data 1 d1;
      let resp_length := 2 in
      if did =? UDS_DID_VIN then
        resp_data ← memcpy resp_data resp_length vin_literal;
        r ← uds_send_positive_response UDS_SID_READ_DATA_BY_IDENTIFIER
              (Some resp_data) (resp_length + 17) response;
        mret (context, r)
      else if did =? UDS_DID_ECU_SERIAL_NUMBER then
        resp_data ← memcpy resp_data resp_length serial_literal;
        r ← uds_send_positive_response UDS_SID_READ_DATA_BY_IDENTIFIER
              (Some resp_data) (resp_length + 11) response;
        mret (context, r)
      else if did =? UDS_DID_ECU_SOFTWARE_NUMBER then
        resp_data ← store resp_data resp_length 0x01;
        resp_data ← store resp_data (resp_length + 1) 0x00;
        resp_data ← store resp_data (resp_length + 2) 0x05;
        r ← uds_send_positive_response UDS_SID_READ_DATA_BY_IDENTIFIER
              (Some resp_data) (resp_length + 3) response;
        mret (context, r)
      else
        r ← uds_send_negative_response UDS_SID_READ_DATA_BY_IDENTIFIER
              UDS_NRC_REQUEST_OUT_OF_RANGE response;
        mret (context, r)
  | _, _, _ => mret (context, response)
  end.

Definition uds_process_request (context : option uds_context_t) (request : option uds_request_t)
    (response : option uds_response_t) :
    outcome (bool * option uds_context_t * option uds_response_t) :=
  match context, request, response with
  | Some _, Some req, Some _ =>
      '(context, response) ←
        (if req_sid req =? UDS_SID_DIAGNOSTIC_SESSION_CONTROL then
           uds_handle_diagnostic_session_control context request response
         else if req_sid req =? UDS_SID_ECU_RESET then
           uds_handle_ecu_reset context request response
         else if req_sid req =? UDS_SID_SECURITY_ACCESS then
           uds_handle_security_access context request response
         else if req_sid req =? UDS_SID_TESTER_PRESENT then
           uds_handle_tester_present context request response
         else if req_sid req =? UDS_SID_READ_DATA_BY_IDENTIFIER then
           uds_handle_read_data_by_id context request response
         else
           r ← uds_send_negative_response (req_sid req) UDS_NRC_SERVICE_NOT_SUPPORTED response;
           mret (context, r));
      mret (match response with Some r => 0 <? resp_actual_length r | None => false end,
            context, response)
  | _, _, _ => mret (false, context, response)
  end.

(** ** Reference behaviour

    What the server answers to a request with service id [sid] and parameter
    bytes [d]: the new context and the reply, with no buffers. *)

Definition negative (sid nrc : Z) : bytes := [0x7F; sid; nrc].
Definition positive (sid : Z) (data : bytes) : bytes := u8 (sid + 0x40) :: data.
Definition security_key (s : Z) : Z := Z.lxor s 0xA5A5A5A5.

Definition read_did (d0 d1 : Z) : option bytes :=
  if of_be16 d0 d1 =? UDS_DID_VIN then Some vin_literal
  else if of_be16 d0 d1 =? UDS_DID_ECU_SERIAL_NUMBER then Some serial_literal
  else if of_be16 d0 d1 =? UDS_DID_ECU_SOFTWARE_NUMBER then Some [1; 0; 5]
  else None.

Definition spec_session (c : uds_context_t) (d : bytes) : uds_context_t * bytes :=
  match d with
  | [] => (c, negative 0x10 UDS_NRC_INCORRECT_MESSAGE_LENGTH)
  | s :: _ => if (1 <=? s) && (s <=? 3) then (set_session s c, positive 0x10 [s; 0x00; 0x32; 0x01; 0xF4])
              else (c, negative 0x10 UDS_NRC_SUB_FUNCTION_NOT_SUPPORTED)
  end.

Definition spec_reset (c : uds_context_t) (d : bytes) : uds_context_t * bytes :=
  match d with
  | [] => (c, negative 0x11 UDS_NRC_INCORRECT_MESSAGE_LENGTH)
  | t :: _ => if (1 <=? t) && (t <=? 3) then
                if security_unlocked c || (current_session c =? 1) then (c, positive 0x11 [t])
                else (c, negative 0x11 UDS_NRC_SECURITY_ACCESS_DENIED)
              else (c, negative 0x11 UDS_NRC_SUB_FUNCTION_NOT_SUPPORTED)
  end.

Definition wrong_key_nrc (attempts : Z) : Z :=
  if 3 <=? attempts then UDS_NRC_EXCEEDED_NUMBER_OF_ATTEMPTS else UDS_NRC_INVALID_KEY.

Definition spec_send_key (c : uds_context_t) (key : Z) : uds_context_t * bytes :=
  if key =? security_key (seed c) then (set_attempts 0 (set_unlocked true c), positive 0x27 [2])
  else let n := u8 (failed_security_attempts c + 1) in
       (set_attempts n c, negative 0x27 (wrong_key_nrc n)).

Definition spec_security (c : uds_context_t) (d : bytes) : uds_context_t * bytes :=
  match d with
  | [] => (c, negative 0x27 UDS_NRC_INCORRECT_MESSAGE_LENGTH)
  | f :: d' =>
      if f =? 1 then
        if security_unlocked c then (c, positive 0x27 [1; 0; 0; 0; 0])
        else (set_seed 0x12345678 c, positive 0x27 [1; 0x12; 0x34; 0x56; 0x78])
      else if f =? 2 then
        match d' with
        | k1 :: k2 :: k3 :: k4 :: _ => spec_send_key c (of_be32 k1 k2 k3 k4)
        | _ => (c, negative 0x27 UDS_NRC_INCORRECT_MESSAGE_LENGTH)
        end
      else (c, negative 0x27 UDS_NRC_SUB_FUNCTION_NOT_SUPPORTED)
  end.

Definition spec_tester_present (c : uds_context_t) (d : bytes) : uds_context_t * bytes :=
  match d with
  | [] => (c, negative 0x3E UDS_NRC_INCORRECT_MESSAGE_LENGTH)
  | f :: _ => (c, positive 0x3E [f])
  end.

Definition spec_read_did (c : uds_context_t) (d : bytes) : uds_context_t * bytes :=
  match d with
  | d0 :: d1 :: _ =>
      match read_did d0 d1 with
      | Some v => (c, positive 0x22 (d0 :: d1 :: v))
      | None => (c, negative 0x22 UDS_NRC_REQUEST_OUT_OF_RANGE)
      end
  | _ => (c, negative 0x22 UDS_NRC_INCORRECT_MESSAGE_LENGTH)
  end.

Definition uds_spec (c : uds_context_t) (sid : Z) (d : bytes) : uds_context_t * bytes :=
  if sid =? UDS_SID_DIAGNOSTIC_SESSION_CONTROL then spec_session c d
  else if sid =? UDS_SID_ECU_RESET then spec_reset c d
  else if sid =? UDS_SID_SECURITY_ACCESS then spec_security c d
  else if sid =? UDS_SID_TESTER_PRESENT then spec_tester_present c d
  else if sid =? UDS_SID_READ_DATA_BY_IDENTIFIER then spec_read_did c d
  else (c, negative sid UDS_NRC_SERVICE_NOT_SUPPORTED).

(** ** The handlers implement the reference *)

(** The buffer is as long as the response object says. *)
Definition resp_ok (r : uds_response_t) : Prop := resp_max_length r <= len (resp_buffer r).

(** The response object that holds the reply [reply]; unchanged when the reply
    does not fit. *)
Definition answer (r : uds_response_t) (reply : bytes) : uds_response_t :=
  if len reply <=? resp_max_length r
  then Response (patch (resp_buffer r) 0 reply) (resp_max_length r) (len reply)
  else r.

Lemma send_negative_ok sid nrc r :
  resp_ok r → uds_send_negative_response sid nrc (Some r) = Done (Some (answer r (negative sid nrc))).
Proof.
  unfold resp_ok. intros H1. unfold uds_send_negative_response, answer.
  change (len (negative sid nrc)) with 3. destruct (Z.leb_spec 3 (resp_max_length r)); [|done].
  fold_writes. done.
Qed.

Lemma send_positive_ok sid data rest n r :
  resp_ok r → n = len data → 0 < n <= 19 →
  uds_send_positive_response sid (Some (data ++ rest)) n (Some r) =
  Done (Some (answer r (positive sid data))).
Proof.
  unfold resp_ok. intros H1 -> Hn. unfold uds_send_positive_response, answer, positive.
  rewrite len_cons, u32_small by (unfold is_u32; lia).
  destruct (Z.leb_spec (1 + len data) (resp_max_length r)); [|done].
  rewrite (proj2 (Z.ltb_lt 0 _)) by lia.
  fold_writes. cbn [mbind outcome_bind]. rewrite slice_Done by (rewrite ?len_app; pose proof (len_nonneg rest); lia).
  cbn [mbind outcome_bind]. rewrite drop_0, <- length_to_nat_len, take_app_length.
  fold_writes. done.
Qed.

Lemma send_positive_exact sid data n r :
  resp_ok r → n = len data → 0 < n <= 19 →
  uds_send_positive_response sid (Some data) n (Some r) = Done (Some (answer r (positive sid data))).
Proof. intros. rewrite <- (app_nil_r data) at 1. by apply send_positive_ok. Qed.

(** The request whose [length] parameter bytes are [d]; more bytes of the
    receive buffer may be readable behind them. *)
Definition request_of (sid : Z) (d rest : bytes) : uds_request_t := Request sid (d ++ rest) (len d).

Ltac reply := cbn [mbind outcome_bind];
  first [ rewrite send_negative_ok by done | rewrite send_positive_exact by (done || lia) ];
  cbn [mbind outcome_bind]; try done.

(** Case analysis on the scrutinee of the first boolean test of the goal. *)
Ltac case_test :=
  match goal with
  | |- context [if ?a =? ?b then _ else _] => destruct (Z.eqb_spec a b)
  | |- context [if ?a <=? ?b then _ else _] => destruct (Z.leb_spec a b)
  | |- context [if ?a <? ?b then _ else _] => destruct (Z.ltb_spec a b)
  end.

Lemma in_1_3 s :
  negb (s =? 1) && negb (s =? 2) && negb (s =? 3) = negb ((1 <=? s) && (s <=? 3)).
Proof.
  destruct (Z.eqb_spec s 1), (Z.eqb_spec s 2), (Z.eqb_spec s 3), (Z.leb_spec 1 s), (Z.leb_spec s 3);
    simpl; done || lia.
Qed.

Lemma session_control_spec c d rest r sid :
  resp_ok r →
  uds_handle_diagnostic_session_control (Some c) (Some (request_of sid d rest)) (Some r) =
  let '(c', reply) := spec_session c d in Done (Some c', Some (answer r reply)).
Proof.
  intros Hr. unfold uds_handle_diagnostic_session_control, spec_session. cbn [req_length req_data request_of].
  destruct d as [|s d]; [reply|]. rewrite len_cons. pose proof (len_nonneg d).
  rewrite (proj2 (Z.ltb_ge _ _)) by lia.
  change (load ((s :: d) ++ rest) 0) with (Done s). cbn [mbind outcome_bind].
  unfold UDS_SESSION_DEFAULT, UDS_SESSION_PROGRAMMING, UDS_SESSION_EXTENDED. rewrite in_1_3.
  destruct ((1 <=? s) && (s <=? 3)); simpl negb; cbv iota; reply.
Qed.

Lemma ecu_reset_spec c d rest r sid :
  resp_ok r →
  uds_handle_ecu_reset (Some c) (Some (request_of sid d rest)) (Some r) =
  let '(c', reply) := spec_reset c d in Done (Some c', Some (answer r reply)).
Proof.
  intros Hr. unfold uds_handle_ecu_reset, spec_reset. cbn [req_length req_data request_of].
  destruct d as [|s d]; [reply|]. rewrite len_cons. pose proof (len_nonneg d).
  rewrite (proj2 (Z.ltb_ge _ _)) by lia.
  change (load ((s :: d) ++ rest) 0) with (Done s). cbn [mbind outcome_bind].
  unfold UDS_RESET_HARD, UDS_RESET_KEY_OFF_ON, UDS_RESET_SOFT, UDS_SESSION_DEFAULT. rewrite in_1_3.
  destruct ((1 <=? s) && (s <=? 3)); simpl negb; cbv iota; [|reply].
  rewrite <- negb_orb. destruct (security_unlocked c || (current_session c =? 1)); simpl negb; cbv iota; reply.
Qed.

Lemma tester_present_spec c d rest r sid :
  resp_ok r →
  uds_handle_tester_present (Some c) (Some (request_of sid d rest)) (Some r) =
  let '(c', reply) := spec_tester_present c d in Done (Some c', Some (answer r reply)).
Proof.
  intros Hr. unfold uds_handle_tester_present, spec_tester_present. cbn [req_length req_data request_of].
  destruct d as [|s d]; [reply|]. rewrite len_cons. pose proof (len_nonneg d).
  rewrite (proj2 (Z.ltb_ge _ _)) by lia.
  change (load ((s :: d) ++ rest) 0) with (Done s). reply.
Qed.

Lemma security_access_spec c d rest r sid :
  resp_ok r → bytes_ok d →
  uds_handle_security_access (Some c) (Some (request_of sid d rest)) (Some r) =
  let '(c', reply) := spec_security c d in Done (Some c', Some (answer r reply)).
Proof.
  intros Hr Hd. unfold uds_handle_security_access, spec_security. cbn [req_length req_data request_of].
  destruct d as [|f d]; [reply|]. rewrite len_cons. pose proof (len_nonneg d).
  rewrite (proj2 (Z.ltb_ge _ 1)) by lia.
  change (load ((f :: d) ++ rest) 0) with (Done f). cbn [mbind outcome_bind].
  unfold UDS_SECURITY_REQUEST_SEED_LEVEL_1, UDS_SECURITY_SEND_KEY_LEVEL_1.
  destruct (Z.eqb_spec f 1) as [->|]; [destruct (security_unlocked c); reply|].
  destruct (Z.eqb_spec f 2) as [->|]; [|reply].
  do 4 (destruct d as [|? d]; [reply|]).
  rewrite !len_cons. pose proof (len_nonneg d). rewrite (proj2 (Z.ltb_ge _ 5)) by lia.
  cbn [app]. rewrite !load_cons_1, !load_cons_2, !load_cons_3, !load_cons_4. cbn [mbind outcome_bind].
  unfold bytes_ok in Hd. rewrite !Forall_cons in Hd. rewrite lor_be32 by tauto.
  unfold spec_send_key, security_key, wrong_key_nrc.
  destruct (_ =? _); [reply|].
  cbn [failed_security_attempts set_attempts]. destruct (3 <=? _); reply.
Qed.

Lemma read_data_by_id_spec c d rest r sid :
  resp_ok r → bytes_ok d →
  uds_handle_read_data_by_id (Some c) (Some (request_of sid d rest)) (Some r) =
  let '(c', reply) := spec_read_did c d in Done (Some c', Some (answer r reply)).
Proof.
  intros Hr Hd. unfold uds_handle_read_data_by_id, spec_read_did. cbn [req_length req_data request_of].
  destruct d as [|d0 d]; [reply|]. destruct d as [|d1 d]; [reply|].
  rewrite !len_cons. pose proof (len_nonneg d). rewrite (proj2 (Z.ltb_ge _ _)) by lia.
  cbn [app]. rewrite load_cons_0, load_cons_1. cbn [mbind outcome_bind].
  unfold bytes_ok in Hd. rewrite !Forall_cons in Hd. rewrite lor_be16 by tauto.
  change (store (local_array 32) 0 d0) with (Done (d0 :: replicate 31 0)).
  cbn [mbind outcome_bind].
  change (store (d0 :: replicate 31 0) 1 d1) with (Done (d0 :: d1 :: replicate 30 0)).
  cbn [mbind outcome_bind]. unfold read_did.
  destruct (_ =? UDS_DID_VIN); [|destruct (_ =? UDS_DID_ECU_SERIAL_NUMBER);
    [|destruct (_ =? UDS_DID_ECU_SOFTWARE_NUMBER)]]; [..|reply].
  - change (memcpy (d0 :: d1 :: replicate 30 0) 2 vin_literal)
      with (Done ((d0 :: d1 :: vin_literal) ++ replicate 13 0)).
    cbn [mbind outcome_bind]. by rewrite send_positive_ok by (done || lia).
  - change (memcpy (d0 :: d1 :: replicate 30 0) 2 serial_literal)
      with (Done ((d0 :: d1 :: serial_literal) ++ replicate 19 0)).
    cbn [mbind outcome_bind]. by rewrite send_positive_ok by (done || lia).
  - change (store (d0 :: d1 :: replicate 30 0) 2 1) with (Done (d0 :: d1 :: 1 :: replicate 29 0)).
    cbn [mbind outcome_bind].
    change (store (d0 :: d1 :: 1 :: replicate 29 0) (2 + 1) 0) with (Done (d0 :: d1 :: 1 :: 0 :: replicate 28 0)).
    cbn [mbind outcome_bind].
    change (store (d0 :: d1 :: 1 :: 0 :: replicate 28 0) (2 + 2) 5)
      with (Done ([d0; d1; 1; 0; 5] ++ replicate 27 0)).
    cbn [mbind outcome_bind]. by rewrite send_positive_ok by (done || lia).
Qed.

Lemma len_uds_spec c sid d : 2 <= len (uds_spec c sid d).2 <= 20.
Proof.
  unfold uds_spec, spec_session, spec_reset, spec_security, spec_send_key, spec_tester_present,
    spec_read_did, read_did.
  repeat case_match; simplify_eq/=; unfold len; simpl; lia.
Qed.

(** The dispatcher implements the reference on every request. *)
Lemma process_request_spec c sid d rest r :
  resp_ok r → bytes_ok d →
  uds_process_request (Some c) (Some (request_of sid d rest)) (Some r) =
  let '(c', reply) := uds_spec c sid d in
  Done (0 <? resp_actual_length (answer r reply), Some c', Some (answer r reply)).
Proof.
  intros Hr Hd. unfold uds_process_request. cbn [req_sid request_of].
  fold (request_of sid d rest).
  assert (∀ (m : outcome (option uds_context_t * option uds_response_t)),
    m = (let '(c', reply) := uds_spec c sid d in Done (Some c', Some (answer r reply))) →
    (m ≫= λ '(context, response),
       mret (match response with Some r => 0 <? resp_actual_length r | None => false end, context, response)) =
    (let '(c', reply) := uds_spec c sid d in
     Done (0 <? resp_actual_length (answer r reply), Some c', Some (answer r reply)))) as Hdone.
  { intros m ->. by destruct (uds_spec c sid d) as [c' reply]. }
  apply Hdone. unfold uds_spec.
  destruct (sid =? UDS_SID_DIAGNOSTIC_SESSION_CONTROL); [by apply session_control_spec|].
  destruct (sid =? UDS_SID_ECU_RESET); [by apply ecu_reset_spec|].
  destruct (sid =? UDS_SID_SECURITY_ACCESS); [by apply security_access_spec|].
  destruct (sid =? UDS_SID_TESTER_PRESENT); [by apply tester_present_spec|].
  destruct (sid =? UDS_SID_READ_DATA_BY_IDENTIFIER); [by apply read_data_by_id_spec|].
  reply.
Qed.

(** No handler distinguishes lengths of 5 and more. *)
Lemma process_request_length c sid data n1 n2 r : 5 <= n1 → 5 <= n2 →
  uds_process_request c (Some (Request sid data n1)) r = uds_process_request c (Some (Request sid data n2)) r.
Proof.
  intros H1 H2. unfold uds_process_request, uds_handle_diagnostic_session_control, uds_handle_ecu_reset,
    uds_handle_security_access, uds_handle_tester_present, uds_handle_read_data_by_id.
  cbn [req_sid req_data req_length].
  by rewrite !(proj2 (Z.ltb_ge n1 1)), !(proj2 (Z.ltb_ge n2 1)), !(proj2 (Z.ltb_ge n1 2)), !(proj2 (Z.ltb_ge n2 2)),
    !(proj2 (Z.ltb_ge n1 5)), !(proj2 (Z.ltb_ge n2 5)) by lia.
Qed.

(** ** The server as a state machine

    A step is one call of the dispatcher, with any request object whose
    parameter bytes are bytes and any response object whose buffer is as long
    as it says; it is labelled with the service id and parameters. *)

Inductive uds_step (c : uds_context_t) : Z * bytes → uds_context_t → Prop :=
  | uds_step_call sid d rest r ok c' r' :
      bytes_ok d → resp_ok r →
      uds_process_request (Some c) (Some (request_of sid d rest)) (Some r) = Done (ok, Some c', Some r') →
      uds_step c (sid, d) c'.

Definition uds_initial : uds_context_t := Context UDS_SESSION_DEFAULT 0 false 0 0 0.

(** Contexts reachable from [uds_init], with the requests that led there (the
    latest first). *)
Inductive uds_reachable : list (Z * bytes) → uds_context_t → Prop :=
  | uds_reach_init c : uds_init (Some c) = Some uds_initial → uds_reachable [] uds_initial
  | uds_reach_step tr c l c' : uds_reachable tr c → uds_step c l c' → uds_reachable (l :: tr) c'.

Lemma uds_step_spec c sid d c' : uds_step c (sid, d) c' → c' = (uds_spec c sid d).1 ∧ bytes_ok d.
Proof.
  inversion 1 as [sid' d' rest r ok c'' r' Hd Hr Hp]; subst.
  rewrite process_request_spec in Hp by done. destruct (uds_spec c sid d) as [c1 reply].
  by simplify_eq.
Qed.

Definition uds_context_ok (c : uds_context_t) : Prop :=
  1 <= current_session c <= 3 ∧ security_level c = 0 ∧ (seed c = 0 ∨ seed c = 0x12345678) ∧
  is_u8 (failed_security_attempts c) ∧ last_tester_present_time c = 0.

Lemma uds_spec_context_ok c sid d : uds_context_ok c → uds_context_ok (uds_spec c sid d).1.
Proof.
  intros Hok. unfold uds_spec, spec_session, spec_reset, spec_security, spec_send_key,
    spec_tester_present, spec_read_did.
  pose proof (u8_range (failed_security_attempts c + 1)).
  repeat case_match; simplify_eq/=; try exact Hok; unfold uds_context_ok, is_u8 in *; simpl;
    rewrite ?andb_true_iff, ?Z.leb_le in *; intuition (try lia; auto).
Qed.

(** The requests that ask for the seed and those that send a key. *)
Definition is_seed_request (l : Z * bytes) : bool :=
  match l with (sid, f :: _) => (sid =? 0x27) && (f =? 1) | _ => false end.
Definition is_key (key : Z) (l : Z * bytes) : Prop :=
  ∃ k1 k2 k3 k4 d, l = (0x27, 2 :: k1 :: k2 :: k3 :: k4 :: d) ∧ of_be32 k1 k2 k3 k4 = key.

(** The seed in force after the requests of a history (the latest first), read
    off the history alone: the constant of the code once a seed was requested,
    zero before. *)
Definition seed_in_force (tr : list (Z * bytes)) : Z := if existsb is_seed_request tr then 0x12345678 else 0.

(** What a step does to the security state: it unlocks the server exactly when
    it sends the key of the seed of the context, and a seed request of a locked
    server sets the seed. *)
Lemma uds_spec_security c sid d :
  let c' := (uds_spec c sid d).1 in
  (security_unlocked c' = true ↔
     security_unlocked c = true ∨ is_key (security_key (seed c)) (sid, d)) ∧
  (security_unlocked c = false →
     seed c' = if is_seed_request (sid, d) then 0x12345678 else seed c).
Proof.
  unfold uds_spec, spec_session, spec_reset, spec_security, spec_send_key, spec_tester_present,
    spec_read_did, is_seed_request, is_key, UDS_SID_SECURITY_ACCESS. cbv zeta.
  repeat case_match; simplify_eq/=;
    repeat match goal with
    | H : (_ =? _) = true |- _ => apply Z.eqb_eq in H; subst
    | H : (_ =? _) = false |- _ => apply Z.eqb_neq in H
    end; try done;
    (split; [split; [naive_solver|intros [?|(?&?&?&?&?&?&?)]; simplify_eq/=; try done; naive_solver]|
             intros; try (exfalso; naive_solver lia); done]).
Qed.

(** ** Properties *)

(** C3: for every context, service id, parameter bytes and response object, the
    dispatcher returns (it never reads or writes outside its objects), leaves
    the context the reference behaviour gives, and puts the reference reply,
    which has between 2 and 20 bytes, at the start of the buffer exactly when
    it fits, leaving the response object alone otherwise; its result says
    whether the object holds a reply. With a null argument it does nothing and
    returns false. *)
Theorem process_request_refines c sid d rest r :
  bytes_ok d → resp_ok r →
  let c' := (uds_spec c sid d).1 in
  let reply := (uds_spec c sid d).2 in
  (∃ r', uds_process_request (Some c) (Some (request_of sid d rest)) (Some r) =
           Done (0 <? resp_actual_length r', Some c', Some r') ∧
     resp_ok r' ∧ resp_max_length r' = resp_max_length r ∧
     (len reply <= resp_max_length r →
        resp_actual_length r' = len reply ∧
        resp_buffer r' = reply ++ drop (length reply) (resp_buffer r)) ∧
     (resp_max_length r < len reply → r' = r)) ∧
  2 <= len reply <= 20 ∧
  (∀ ctx req resp, ctx = None ∨ req = None ∨ resp = None →
     uds_process_request ctx req resp = Done (false, ctx, resp)).
Proof.
  intros Hd Hr. cbv zeta. split; [|split; [apply len_uds_spec|]].
  - rewrite process_request_spec by done. destruct (uds_spec c sid d) as [c' reply]. simpl.
    eexists. split; [done|]. unfold answer.
    destruct (Z.leb_spec (len reply) (resp_max_length r)) as [Hle|Hgt]; simpl.
    + split_and!; [|done..|by intros; lia].
      unfold resp_ok in *; simpl. rewrite len_patch by lia. done.
    + split_and!; [done..|by intros; lia|done].
  - intros ctx req resp Hn. unfold uds_process_request.
    destruct ctx, req, resp; try done. by destruct Hn as [?|[?|?]].
Qed.

Lemma process_request_refines_witness :
  uds_process_request (Some uds_initial) (Some (request_of 0x22 [0xF1; 0x94] []))
    (Some (Response (local_array 8) 8 0)) =
  Done (true, Some uds_initial, Some (Response [0x62; 0xF1; 0x94; 1; 0; 5; 0; 0] 8 6)).
Proof.
  destruct (process_request_refines uds_initial 0x22 [0xF1; 0x94] [] (Response (local_array 8) 8 0))
    as [(r'&H&_&Hm&Hfit&_) _]; [by_compute..|].
  destruct Hfit as [Ha Hb]; [by_compute|]. rewrite H. destruct r' as [b m a].
  simpl in Hm, Ha, Hb. rewrite Hm, Ha, Hb. reflexivity.
Defined.

(** C6: in every reachable context the session is one of the three defined, the
    seed is zero or the constant of the code and the attempt counter is a byte.
    While the server is locked its seed is the one the history of requests
    gives: zero before the first seed request, [0x12345678] from then on. The
    server is unlocked exactly when some request of the history sent the key of
    the seed in force at that moment, given by the requests before it:
    [0xA5A5A5A5] if no seed had been requested, [0x12345678 xor 0xA5A5A5A5] if
    one had; the key of the other seed, or any other key, never unlocks it. *)
Theorem security_unlocked_only_by_key tr c :
  uds_reachable tr c →
  uds_context_ok c ∧
  (security_unlocked c = false → seed c = seed_in_force tr) ∧
  (security_unlocked c = true ↔
     ∃ later l earlier, tr = later ++ l :: earlier ∧ is_key (security_key (seed_in_force earlier)) l).
Proof.
  induction 1 as [c0 H|tr c [sid d] c' Hreach (Hok&Hseed&Hun) Hstep].
  - split_and!; [unfold uds_context_ok, is_u8, uds_initial, UDS_SESSION_DEFAULT; simpl; intuition lia|done|].
    split; [done|]. by intros ([]&?&?&?&?).
  - apply uds_step_spec in Hstep as [-> Hd].
    destruct (uds_spec_security c sid d) as [H1 H2]. cbv zeta in *.
    split_and!; [by apply uds_spec_context_ok| |].
    + intros Hf. destruct (security_unlocked c) eqn:Eu.
      { by rewrite (proj2 H1 (or_introl eq_refl)) in Hf. }
      rewrite H2, Hseed by done. unfold seed_in_force. cbn [existsb]. by destruct (is_seed_request _).
    + rewrite H1. split.
      * intros Hu. destruct (security_unlocked c) eqn:Eu.
        -- destruct (proj1 Hun eq_refl) as (later&l&earlier&->&Hk). by exists ((sid, d) :: later), l, earlier.
        -- destruct Hu as [?|Hk]; [done|]. exists [], (sid, d), tr. split; [done|].
           by rewrite <- Hseed.
      * intros ([|x later]&l&earlier&E&Hk); simplify_eq/=.
        -- destruct (security_unlocked c) eqn:Eu; [by left|right]. by rewrite Hseed.
        -- left. apply Hun. eauto.
Qed.

Lemma uds_spec_reachable tr c sid d c' :
  uds_reachable tr c → bytes_ok d → (uds_spec c sid d).1 = c' → uds_reachable ((sid, d) :: tr) c'.
Proof.
  intros Hr Hd <-. assert (resp_ok (Response [] 0 0)) as Hok by by_compute.
  apply (uds_reach_step tr c); [exact Hr|].
  pose proof (process_request_spec c sid d [] _ Hok Hd) as Hp.
  destruct (uds_spec c sid d) as [c' reply]. by eapply uds_step_call.
Qed.

Lemma security_unlocked_only_by_key_witness :
  ∃ c, uds_reachable [(0x27, [2; 0xB7; 0x91; 0xF3; 0xDD]); (0x27, [1])] c ∧
       security_unlocked c = true ∧ seed c = 0x12345678 ∧ uds_context_ok c ∧
       ∃ later l earlier, [(0x27, [2; 0xB7; 0x91; 0xF3; 0xDD]); (0x27, [1])] = later ++ l :: earlier ∧
         is_key (security_key (seed_in_force earlier)) l.
Proof.
  eexists. assert (uds_reachable [(0x27, [2; 0xB7; 0x91; 0xF3; 0xDD]); (0x27, [1])]
    (Context 1 0 true 0x12345678 0 0)) as H.
  { eapply uds_spec_reachable; [eapply uds_spec_reachable; [by apply (uds_reach_init uds_initial)|by_compute|reflexivity]|by_compute|reflexivity]. }
  destruct (security_unlocked_only_by_key _ _ H) as (Hok&_&Hun).
  split; [exact H|]. split; [reflexivity|]. split; [reflexivity|]. split; [exact Hok|].
  apply Hun. reflexivity.
Defined.

(** One request served the way the task does, with a 256-byte response buffer:
    the new context and the reply. *)
Definition serve (c : uds_context_t) (sid : Z) (d : bytes) : option (uds_context_t * bytes) :=
  match uds_process_request (Some c) (Some (request_of sid d []))
          (Some (Response (local_array 256) 256 0)) with
  | Done (_, Some c', Some r') =>
      Some (c', take (Z.to_nat (resp_actual_length r')) (resp_buffer r'))
  | _ => None
  end.

Lemma serve_spec c sid d : bytes_ok d → serve c sid d = Some (uds_spec c sid d).
Proof.
  intros Hd. unfold serve. rewrite process_request_spec by by_compute || done.
  pose proof (len_uds_spec c sid d) as Hl. destruct (uds_spec c sid d) as [c' reply]. simpl in Hl.
  unfold answer. change (len (resp_buffer (Response (local_array 256) 256 0))) with 256.
  cbn [resp_max_length]. rewrite (proj2 (Z.leb_le _ _)) by lia. cbn [resp_actual_length resp_buffer].
  do 2 f_equal. rewrite <- length_to_nat_len. apply take_patch_0.
Qed.

(** [n] send-key requests in a row with the same key bytes. *)
Fixpoint send_keys (n : nat) (key : bytes) (c : uds_context_t) : option uds_context_t :=
  match n with
  | O => Some c
  | S n => match serve c 0x27 (2 :: key) with Some (c', _) => send_keys n key c' | None => None end
  end.

Lemma send_keys_context n k1 k2 k3 k4 c :
  bytes_ok [k1; k2; k3; k4] →
  of_be32 k1 k2 k3 k4 ≠ security_key (seed c) → is_u8 (failed_security_attempts c) →
  send_keys n [k1; k2; k3; k4] c =
  Some (set_attempts (u8 (failed_security_attempts c + Z.of_nat n)) c).
Proof.
  intros Hb. revert c. induction n as [|n IH]; intros c Hk Ha; cbn [send_keys].
  - rewrite Z.add_0_r, u8_small by done. by destruct c.
  - rewrite serve_spec by (constructor; [by_compute|done]).
    cbn -[of_be32 u8 Z.of_nat send_keys]. unfold spec_send_key. rewrite (proj2 (Z.eqb_neq _ _)) by done.
    rewrite IH; [|done|apply u8_range]. unfold set_attempts; cbn [failed_security_attempts]. do 2 f_equal.
    unfold u8. rewrite Zplus_mod_idemp_l. f_equal. lia.
Qed.

(** The attempt limit locks nothing. After any number [n] of consecutive
    wrong keys from a context with no failed attempt, only the counter has
    changed, to [n mod 256]; a further wrong key is answered with
    "exceeded number of attempts" when the counter is at least 3 and with "invalid
    key" again once the eight-bit counter has wrapped; and the right key, sent
    at any point, unlocks the server. *)
Theorem wrong_keys_never_lock n k1 k2 k3 k4 g1 g2 g3 g4 c :
  bytes_ok [k1; k2; k3; k4] → bytes_ok [g1; g2; g3; g4] →
  of_be32 k1 k2 k3 k4 ≠ security_key (seed c) → of_be32 g1 g2 g3 g4 = security_key (seed c) →
  failed_security_attempts c = 0 →
  ∃ c', send_keys n [k1; k2; k3; k4] c = Some c' ∧
    c' = set_attempts (Z.of_nat n mod 256) c ∧
    (∃ c'', serve c' 0x27 [2; k1; k2; k3; k4] =
       Some (c'', [0x7F; 0x27; if 3 <=? Z.of_nat (S n) mod 256 then 0x36 else 0x35])) ∧
    serve c' 0x27 [2; g1; g2; g3; g4] =
      Some (set_attempts 0 (set_unlocked true c), [0x67; 2]).
Proof.
  intros Hkb Hgb Hk Hg Ha. eexists. split; [apply send_keys_context; [done..|rewrite Ha; by_compute]|].
  rewrite Ha, Z.add_0_l. split_and!; [done| |].
  - rewrite serve_spec by (constructor; [by_compute|done]). eexists.
    cbn -[of_be32 u8 Z.of_nat Z.modulo]. unfold spec_send_key, wrong_key_nrc.
    cbn [seed set_attempts failed_security_attempts]. rewrite (proj2 (Z.eqb_neq _ _)) by done.
    assert (u8 (u8 (Z.of_nat n) + 1) = Z.of_nat (S n) mod 256) as ->; [|done].
    unfold u8. rewrite Zplus_mod_idemp_l. f_equal. lia.
  - rewrite serve_spec by (constructor; [by_compute|done]).
    cbn -[of_be32]. unfold spec_send_key. cbn [seed set_attempts].
    by rewrite (proj2 (Z.eqb_eq _ _)) by done.
Qed.

Lemma wrong_keys_never_lock_witness :
  ∃ c', send_keys 255 [0; 0; 0; 0] uds_initial = Some c' ∧
    (∃ c'', serve c' 0x27 [2; 0; 0; 0; 0] = Some (c'', [0x7F; 0x27; 0x35])) ∧
    serve c' 0x27 [2; 0xA5; 0xA5; 0xA5; 0xA5] = Some (set_unlocked true uds_initial, [0x67; 2]).
Proof.
  destruct (wrong_keys_never_lock 255 0 0 0 0 0xA5 0xA5 0xA5 0xA5 uds_initial)
    as (c'&H1&_&H2&H3); [by_compute|by_compute|discriminate|reflexivity|reflexivity|].
  exists c'. split; [exact H1|]. split; [exact H2|exact H3].
Defined.
