(* ===== verification/DoipInterface.v ===== *)
(** * The network interface of the DoIP stack

    [src/doip/doip_interface.c] and [src/doip/doip_interface.h]: the table of
    network operations, the connection slots, and the reception loop that
    accepts connections, reassembles DoIP messages from the TCP stream and
    hands them to callbacks. *)

From Stdlib Require Import ZArith Lia.
From Stdlib Require Import Strings.String.
From S2P Require Import Prelude DoipProtocol.
Local Open Scope list_scope.
Local Open Scope Z_scope.

Definition DOIP_UDP_DISCOVERY_PORT : Z := 13400.
Definition DOIP_TCP_DATA_PORT : Z := 13400.
Definition DOIP_MAX_CONNECTIONS : Z := 2.
Definition DOIP_RX_BUFFER_SIZE : Z := 4096.
Definition INVALID_SOCKET : Z := -1.

(** ** Data *)

(** The function table the stack runs on. [N] is the state of the network
    below it. A function that receives returns the bytes it puts at the start
    of the buffer it is given; one that sends gets the bytes it reads. The
    [socket_select] entry is never called, and the adapter leaves it null. *)
Record doip_network_ops_t (N : Type) := NetOps {
  udp_bind : Z → N → Z * N;
  udp_sendto : Z → bytes → string → Z → N → Z * N;
  udp_recvfrom : Z → Z → N → Z * bytes * string * Z * N;
  tcp_listen : Z → N → Z * N;
  tcp_accept : Z → N → Z * N;
  tcp_connect : string → Z → N → Z * N;
  tcp_send : Z → bytes → N → Z * N;
  tcp_recv : Z → Z → N → Z * bytes * N;
  close_socket : Z → N → N;
}.
Arguments NetOps {N}.
Arguments udp_bind {N}. Arguments udp_sendto {N}. Arguments udp_recvfrom {N}.
Arguments tcp_listen {N}. Arguments tcp_accept {N}. Arguments tcp_connect {N}.
Arguments tcp_send {N}. Arguments tcp_recv {N}. Arguments close_socket {N}.

Inductive doip_connection_state_t :=
  | DOIP_CONN_STATE_CLOSED
  | DOIP_CONN_STATE_LISTEN
  | DOIP_CONN_STATE_PENDING_ACTIVATION
  | DOIP_CONN_STATE_ACTIVATED
  | DOIP_CONN_STATE_FINALIZE.
#[export] Instance doip_connection_state_eq_dec : EqDecision doip_connection_state_t.
Proof. solve_decision. Defined.

Record doip_tcp_connection_t := TcpConnection {
  socket_fd : Z;
  state : doip_connection_state_t;
  source_address : Z;
  last_activity_time : Z;
  rx_buffer : bytes;
  rx_buffer_used : Z;
}.

Record doip_interface_t (N : Type) := Interface {
  net_ops : doip_network_ops_t N;
  udp_socket : Z;
  tcp_listen_socket : Z;
  connections : list doip_tcp_connection_t;
  udp_rx_buffer : bytes;
}.
Arguments Interface {N}.
Arguments net_ops {N}. Arguments udp_socket {N}. Arguments tcp_listen_socket {N}.
Arguments connections {N}. Arguments udp_rx_buffer {N}.

Definition with_socket (fd : Z) (c : doip_tcp_connection_t) : doip_tcp_connection_t :=
  TcpConnection fd (state c) (source_address c) (last_activity_time c) (rx_buffer c) (rx_buffer_used c).
Definition with_state (s : doip_connection_state_t) (c : doip_tcp_connection_t) : doip_tcp_connection_t :=
  TcpConnection (socket_fd c) s (source_address c) (last_activity_time c) (rx_buffer c) (rx_buffer_used c).
Definition with_source (a : Z) (c : doip_tcp_connection_t) : doip_tcp_connection_t :=
  TcpConnection (socket_fd c) (state c) a (last_activity_time c) (rx_buffer c) (rx_buffer_used c).
Definition with_time (t : Z) (c : doip_tcp_connection_t) : doip_tcp_connection_t :=
  TcpConnection (socket_fd c) (state c) (source_address c) t (rx_buffer c) (rx_buffer_used c).
Definition with_rx (b : bytes) (c : doip_tcp_connection_t) : doip_tcp_connection_t :=
  TcpConnection (socket_fd c) (state c) (source_address c) (last_activity_time c) b (rx_buffer_used c).
Definition with_used (u : Z) (c : doip_tcp_connection_t) : doip_tcp_connection_t :=
  TcpConnection (socket_fd c) (state c) (source_address c) (last_activity_time c) (rx_buffer c) u.

(** The state the interface functions work on: the one interface object, the
    network, and the objects the callbacks' [user_data] points to. *)
Record world (N U : Type) := World {
  w_iface : doip_interface_t N;
  w_net : N;
  w_user : U;
}.
Arguments World {N U}. Arguments w_iface {N U}. Arguments w_net {N U}. Arguments w_user {N U}.

Section interface.
Context {N U : Type}.
Local Abbreviation W := (world N U).

Definition set_iface (f : doip_interface_t N) (w : W) : W := World f (w_net w) (w_user w).
Definition set_net (n : N) (w : W) : W := World (w_iface w) n (w_user w).
Definition set_user (u : U) (w : W) : W := World (w_iface w) (w_net w) u.

Definition set_conns (cs : list doip_tcp_connection_t) (w : W) : W :=
  let f := w_iface w in
  set_iface (Interface (net_ops f) (udp_socket f) (tcp_listen_socket f) cs (udp_rx_buffer f)) w.
Definition set_udp_socket (s : Z) (w : W) : W :=
  let f := w_iface w in
  set_iface (Interface (net_ops f) s (tcp_listen_socket f) (connections f) (udp_rx_buffer f)) w.
Definition set_listen_socket (s : Z) (w : W) : W :=
  let f := w_iface w in
  set_iface (Interface (net_ops f) (udp_socket f) s (connections f) (udp_rx_buffer f)) w.
Definition set_udp_rx (b : bytes) (w : W) : W :=
  let f := w_iface w in
  set_iface (Interface (net_ops f) (udp_socket f) (tcp_listen_socket f) (connections f) b) w.
Definition set_net_ops (o : doip_network_ops_t N) (w : W) : W :=
  let f := w_iface w in
  set_iface (Interface o (udp_socket f) (tcp_listen_socket f) (connections f) (udp_rx_buffer f)) w.

(** [interface->connections[i]], as a value and as an lvalue. *)
Definition conn_at (w : W) (i : Z) : option doip_tcp_connection_t :=
  if 0 <=? i then connections (w_iface w) !! Z.to_nat i else None.
Definition get_conn (i : Z) : ST W doip_tcp_connection_t := λ w,
  match conn_at w i with Some c => Done (c, w) | None => Fault end.
Definition put_conn (i : Z) (c : doip_tcp_connection_t) (w : W) : W :=
  set_conns (<[Z.to_nat i := c]> (connections (w_iface w))) w.
Definition upd_conn (i : Z) (f : doip_tcp_connection_t → doip_tcp_connection_t) : ST W unit := λ w,
  match conn_at w i with Some c => Done (tt, put_conn i (f c) w) | None => Fault end.

(** A call through the function table. *)
Definition call_net {A} (f : doip_network_ops_t N → N → A * N) : ST W A := λ w,
  let '(a, n) := f (net_ops (w_iface w)) (w_net w) in Done (a, set_net n w).

(** ** Operations *)

Definition conn_ids : list Z := [0; 1].

Definition doip_interface_init (interface : ptr) (ops : option (doip_network_ops_t N)) :
    ST W doip_result_t :=
  match interface, ops with
  | OBJ, Some o =>
      modify (set_net_ops o);;
      modify (set_udp_socket INVALID_SOCKET);;
      modify (set_listen_socket INVALID_SOCKET);;
      for_each conn_ids (λ i,
        upd_conn i (with_socket INVALID_SOCKET);;
        upd_conn i (with_state DOIP_CONN_STATE_CLOSED);;
        upd_conn i (with_source 0);;
        upd_conn i (with_time 0);;
        upd_conn i (with_used 0));;
      mret DOIP_RESULT_OK
  | _, _ => mret DOIP_RESULT_INVALID_PARAM
  end.

Definition doip_interface_start_udp (interface : ptr) (port : Z) : ST W doip_result_t :=
  match interface with
  | NULL => mret DOIP_RESULT_INVALID_PARAM
  | OBJ =>
      s ← call_net (λ o, udp_bind o port);
      modify (set_udp_socket s);;
      if s <? 0 then mret DOIP_RESULT_ERROR else mret DOIP_RESULT_OK
  end.

Definition doip_interface_start_tcp_server (interface : ptr) (port : Z) : ST W doip_result_t :=
  match interface with
  | NULL => mret DOIP_RESULT_INVALID_PARAM
  | OBJ =>
      s ← call_net (λ o, tcp_listen o port);
      modify (set_listen_socket s);;
      if s <? 0 then mret DOIP_RESULT_ERROR else mret DOIP_RESULT_OK
  end.

Definition doip_interface_udp_broadcast (interface : ptr) (data : option bytes) (length port : Z) :
    ST W doip_result_t :=
  match interface, data with
  | OBJ, Some d =>
      msg ← lift (slice d 0 length);
      sock ← gets (λ w, udp_socket (w_iface w));
      result ← call_net (λ o, udp_sendto o sock msg "255.255.255.255" port);
      mret (if 0 <=? result then DOIP_RESULT_OK else DOIP_RESULT_ERROR)
  | _, _ => mret DOIP_RESULT_INVALID_PARAM
  end.

Definition doip_interface_udp_send (interface : ptr) (dest_ip : option string) (dest_port : Z)
    (data : option bytes) (length : Z) : ST W doip_result_t :=
  match interface, dest_ip, data with
  | OBJ, Some ip, Some d =>
      msg ← lift (slice d 0 length);
      sock ← gets (λ w, udp_socket (w_iface w));
      result ← call_net (λ o, udp_sendto o sock msg ip dest_port);
      mret (if 0 <=? result then DOIP_RESULT_OK else DOIP_RESULT_ERROR)
  | _, _, _ => mret DOIP_RESULT_INVALID_PARAM
  end.

Definition doip_interface_tcp_send (interface : ptr) (connection_id : Z) (data : option bytes)
    (length : Z) : ST W doip_result_t :=
  match interface, data with
  | OBJ, Some d =>
      if (connection_id <? 0) || (DOIP_MAX_CONNECTIONS <=? connection_id)
      then mret DOIP_RESULT_INVALID_PARAM else
      c ← get_conn connection_id;
      if socket_fd c <? 0 then mret DOIP_RESULT_NOT_READY else
      msg ← lift (slice d 0 length);
      result ← call_net (λ o, tcp_send o (socket_fd c) msg);
      mret (if 0 <=? result then DOIP_RESULT_OK else DOIP_RESULT_ERROR)
  | _, _ => mret DOIP_RESULT_INVALID_PARAM
  end.

Definition find_free_connection : ST W Z :=
  r ← for_find conn_ids (λ i,
    c ← get_conn i;
    mret (if decide (state c = DOIP_CONN_STATE_CLOSED) then Some i else None));
  mret (match r with Some i => i | None => INVALID_SOCKET end).

(** The callbacks; [user_data] is the user part of the state. *)
Definition doip_udp_rx_callback_t : Type := string → Z → bytes → Z → ST W unit.
Definition doip_tcp_rx_callback_t : Type := Z → bytes → Z → ST W unit.
Definition doip_tcp_connected_callback_t : Type := Z → ST W unit.
Definition doip_tcp_disconnected_callback_t : Type := Z → ST W unit.

(** The message loop of one connection: hand over every complete message at
    the front of the buffer. The loop has no bound in the code, so the model
    gives it [fuel]. *)
Fixpoint process_messages (fuel : nat) (i : Z) (tcp_callback : option doip_tcp_rx_callback_t) :
    ST W unit :=
  match fuel with
  | O => diverge
  | S fuel =>
      c ← get_conn i;
      if negb (8 <=? rx_buffer_used c) then mret tt else
      '(res, header) ← lift (doip_decode_header (Some (rx_buffer c)) (rx_buffer_used c)
                               (Some uninit_header));
      match res, header with
      | DOIP_RESULT_OK, Some header =>
          let total_message_size := u32 (8 + payload_length header) in
          if total_message_size <=? rx_buffer_used c then
            match tcp_callback with
            | Some cb => cb i (rx_buffer c) total_message_size
            | None => mret tt
            end;;
            c ← get_conn i;
            (if total_message_size <? rx_buffer_used c then
               rest ← lift (slice (rx_buffer c) total_message_size
                              (u32 (rx_buffer_used c - total_message_size)));
               b ← lift (memcpy (rx_buffer c) 0 rest);
               upd_conn i (with_rx b)
             else mret tt);;
            upd_conn i (λ c, with_used (u32 (rx_buffer_used c - total_message_size)) c);;
            process_messages fuel i tcp_callback
          else mret tt
      | _, _ => mret tt
      end
  end.

Definition process_udp (udp_callback : option doip_udp_rx_callback_t) : ST W unit :=
  sock ← gets (λ w, udp_socket (w_iface w));
  match udp_callback with
  | Some cb =>
      if 0 <=? sock then
        '(bytes_received, data, src_ip, src_port) ←
           call_net (λ o, udp_recvfrom o sock DOIP_RX_BUFFER_SIZE);
        if 0 <? bytes_received then
          buf ← gets (λ w, udp_rx_buffer (w_iface w));
          buf ← lift (memcpy buf 0 data);
          modify (set_udp_rx buf);;
          cb src_ip src_port buf bytes_received
        else mret tt
      else mret tt
  | None => mret tt
  end.

Definition process_accept (connected_callback : option doip_tcp_connected_callback_t) : ST W unit :=
  lsock ← gets (λ w, tcp_listen_socket (w_iface w));
  if 0 <=? lsock then
    new_socket ← call_net (λ o, tcp_accept o lsock);
    if 0 <=? new_socket then
      conn_id ← find_free_connection;
      if 0 <=? conn_id then
        upd_conn conn_id (with_socket new_socket);;
        upd_conn conn_id (with_state DOIP_CONN_STATE_PENDING_ACTIVATION);;
        upd_conn conn_id (with_used 0);;
        upd_conn conn_id (with_time 0);;
        match connected_callback with Some cb => cb conn_id | None => mret tt end
      else call_net (λ o n, (tt, close_socket o new_socket n))
    else mret tt
  else mret tt.

Definition process_connection (fuel : nat) (tcp_callback : option doip_tcp_rx_callback_t)
    (disconnected_callback : option doip_tcp_disconnected_callback_t) (i : Z) : ST W unit :=
  c ← get_conn i;
  if 0 <=? socket_fd c then
    '(bytes_received, data) ←
       call_net (λ o, tcp_recv o (socket_fd c) (u32 (DOIP_RX_BUFFER_SIZE - rx_buffer_used c)));
    if 0 <? bytes_received then
      b ← lift (memcpy (rx_buffer c) (rx_buffer_used c) data);
      upd_conn i (with_rx b);;
      upd_conn i (λ c, with_used (u32 (rx_buffer_used c + u32 bytes_received)) c);;
      process_messages fuel i tcp_callback
    else if bytes_received =? 0 then
      match disconnected_callback with Some cb => cb i | None => mret tt end;;
      c ← get_conn i;
      call_net (λ o n, (tt, close_socket o (socket_fd c) n));;
      upd_conn i (with_socket INVALID_SOCKET);;
      upd_conn i (with_state DOIP_CONN_STATE_CLOSED);;
      upd_conn i (with_used 0)
    else mret tt
  else mret tt.

Definition doip_interface_process (fuel : nat) (interface : ptr)
    (udp_callback : option doip_udp_rx_callback_t) (tcp_callback : option doip_tcp_rx_callback_t)
    (connected_callback : option doip_tcp_connected_callback_t)
    (disconnected_callback : option doip_tcp_disconnected_callback_t) : ST W doip_result_t :=
  match interface with
  | NULL => mret DOIP_RESULT_INVALID_PARAM
  | OBJ =>
      process_udp udp_callback;;
      process_accept connected_callback;;
      for_each conn_ids (process_connection fuel tcp_callback disconnected_callback);;
      mret DOIP_RESULT_OK
  end.

Definition doip_interface_close_connection (interface : ptr) (connection_id : Z) : ST W unit :=
  match interface with
  | NULL => mret tt
  | OBJ =>
      if (connection_id <? 0) || (DOIP_MAX_CONNECTIONS <=? connection_id) then mret tt else
      c ← get_conn connection_id;
      if 0 <=? socket_fd c then
        call_net (λ o n, (tt, close_socket o (socket_fd c) n));;
        upd_conn connection_id (with_socket INVALID_SOCKET);;
        upd_conn connection_id (with_state DOIP_CONN_STATE_CLOSED);;
        upd_conn connection_id (with_used 0)
      else mret tt
  end.
End interface.

(** ** Well-formed interfaces *)

Definition conn_ok (c : doip_tcp_connection_t) : Prop :=
  len (rx_buffer c) = DOIP_RX_BUFFER_SIZE ∧ bytes_ok (rx_buffer c) ∧
  0 <= rx_buffer_used c <= DOIP_RX_BUFFER_SIZE.

(** The bytes received on a connection and not handed over yet. *)
Definition pending (c : doip_tcp_connection_t) : bytes := take (Z.to_nat (rx_buffer_used c)) (rx_buffer c).

(** Same slot, up to the contents of its receive buffer. *)
Definition same_slot (c c' : doip_tcp_connection_t) : Prop :=
  socket_fd c' = socket_fd c ∧ state c' = state c ∧ source_address c' = source_address c ∧
  last_activity_time c' = last_activity_time c.

Definition iface_ok {N} (f : doip_interface_t N) : Prop :=
  length (connections f) = 2%nat ∧ Forall conn_ok (connections f) ∧
  len (udp_rx_buffer f) = DOIP_RX_BUFFER_SIZE ∧ bytes_ok (udp_rx_buffer f).

(** What the stack relies on from the network below: a receive function never
    returns more than it was asked for, and what it returns are bytes. *)
Class NetLaws {N} (ops : doip_network_ops_t N) : Prop := {
  tcp_recv_law : ∀ s n net r d net',
    tcp_recv ops s n net = (r, d, net') → 0 < r → len d = r ∧ r <= n ∧ bytes_ok d;
  udp_recv_law : ∀ s n net r d ip p net',
    udp_recvfrom ops s n net = (r, d, ip, p, net') → 0 < r → len d = r ∧ r <= n ∧ bytes_ok d ∧ is_u16 p;
}.

Lemma same_slot_refl c : same_slot c c.
Proof. by repeat split. Qed.
Lemma same_slot_trans c1 c2 c3 : same_slot c1 c2 → same_slot c2 c3 → same_slot c1 c3.
Proof. unfold same_slot. intros (?&?&?&?) (?&?&?&?). split_and!; congruence. Qed.
#[export] Hint Resolve same_slot_refl same_slot_trans : core.

Section slots.
Context {N U : Type}.
Implicit Types w : world N U.

Lemma conn_ids_range i : i ∈ conn_ids ↔ 0 <= i < 2.
Proof. unfold conn_ids. rewrite !elem_of_cons, elem_of_nil. lia. Qed.

Lemma conn_at_inv w i c : conn_at w i = Some c → 0 <= i ∧ connections (w_iface w) !! Z.to_nat i = Some c.
Proof. unfold conn_at. destruct (Z.leb_spec 0 i); [done|discriminate]. Qed.

Lemma conn_at_put_eq w i c c' : conn_at w i = Some c → conn_at (put_conn i c' w) i = Some c'.
Proof.
  intros [Hi Hl]%conn_at_inv. unfold conn_at, put_conn. rewrite (proj2 (Z.leb_le _ _)) by lia. simpl.
  apply list_lookup_insert_eq. by eapply lookup_lt_Some.
Qed.
Lemma conn_at_put_ne w i j c' : i ≠ j → 0 <= i → conn_at (put_conn i c' w) j = conn_at w j.
Proof.
  intros Hij Hi. unfold conn_at, put_conn. destruct (Z.leb_spec 0 j); [|done]. simpl.
  apply list_lookup_insert_ne. lia.
Qed.
Lemma put_put w i c c' : put_conn i c (put_conn i c' w) = put_conn i c w.
Proof. unfold put_conn, set_conns, set_iface. simpl. by rewrite list_insert_insert_eq. Qed.
Lemma put_id w i c : conn_at w i = Some c → put_conn i c w = w.
Proof.
  intros [Hi Hl]%conn_at_inv. unfold put_conn, set_conns, set_iface. rewrite list_insert_id by done.
  destruct w as [[]]; done.
Qed.
Lemma conn_at_ok w i c : iface_ok (w_iface w) → conn_at w i = Some c → conn_ok c ∧ (i = 0 ∨ i = 1).
Proof.
  intros (Hl&Hc&_) [Hi Hlk]%conn_at_inv. rewrite Forall_lookup in Hc. split; [eauto|].
  apply lookup_lt_Some in Hlk. lia.
Qed.
Lemma conn_at_some w i : iface_ok (w_iface w) → i ∈ conn_ids → ∃ c, conn_at w i = Some c ∧ conn_ok c.
Proof.
  intros (Hl&Hc&_) Hi. apply conn_ids_range in Hi as Hi2.
  destruct (lookup_lt_is_Some_2 (connections (w_iface w)) (Z.to_nat i)) as [c Hcl]; [lia|].
  exists c. unfold conn_at. rewrite (proj2 (Z.leb_le _ _)) by lia. rewrite Forall_lookup in Hc. eauto.
Qed.
Lemma iface_ok_put w i c : iface_ok (w_iface w) → conn_ok c → iface_ok (w_iface (put_conn i c w)).
Proof.
  intros (Hl&Hc&Hu) Hok. unfold iface_ok, put_conn; simpl. rewrite length_insert.
  split_and!; [done| |apply Hu..]. by apply Forall_insert.
Qed.

Lemma wp_get_conn D w i c (Q : doip_tcp_connection_t → world N U → Prop) :
  conn_at w i = Some c → Q c w → wp D (get_conn i) Q w.
Proof. intros H ?. unfold wp, get_conn. by rewrite H. Qed.
Lemma wp_upd_conn D w i c f (Q : unit → world N U → Prop) :
  conn_at w i = Some c → Q tt (put_conn i (f c) w) → wp D (upd_conn i f) Q w.
Proof. intros H ?. unfold wp, upd_conn. by rewrite H. Qed.
Lemma wp_call_net {A} D w (f : doip_network_ops_t N → N → A * N) (Q : A → world N U → Prop) :
  (∀ a n, f (net_ops (w_iface w)) (w_net w) = (a, n) → Q a (set_net n w)) → wp D (call_net f) Q w.
Proof. intros H. unfold wp, call_net. destruct (f _ _) as [a n] eqn:E. by apply H. Qed.
End slots.

(** ** Framing

    The specification of the reassembly loop: how a byte stream splits into
    messages. The size of a message is computed on 32 bits, as in the code; a
    stream in which some message has size 0 has no framing. *)

Definition frame_total (s : bytes) : Z :=
  match s with
  | _ :: _ :: _ :: _ :: a :: b :: c :: d :: _ => u32 (8 + of_be32 a b c d)
  | _ => 0
  end.

Inductive framed : bytes → list bytes → bytes → Prop :=
  | framed_end s : len s < 8 ∨ len s < frame_total s → framed s [] s
  | framed_msg s ms r :
      8 <= len s → 0 < frame_total s <= len s →
      framed (drop (Z.to_nat (frame_total s)) s) ms r →
      framed s (take (Z.to_nat (frame_total s)) s :: ms) r.

(** The same as a function, with fuel for the number of messages. *)
Fixpoint frames (fuel : nat) (s : bytes) : option (list bytes * bytes) :=
  match fuel with
  | O => None
  | S fuel =>
      if (len s <? 8) || (len s <? frame_total s) then Some ([], s)
      else if frame_total s =? 0 then None
      else match frames fuel (drop (Z.to_nat (frame_total s)) s) with
           | Some (ms, r) => Some (take (Z.to_nat (frame_total s)) s :: ms, r)
           | None => None
           end
  end.

Lemma frame_total_range s : 0 <= frame_total s < 2 ^ 32.
Proof.
  unfold frame_total. do 8 (destruct s as [|? s]; [lia|]). apply u32_range.
Qed.

Lemma frames_framed fuel s ms r : frames fuel s = Some (ms, r) → framed s ms r.
Proof.
  revert s ms r. induction fuel as [|fuel IH]; intros s ms r; simpl; [done|].
  pose proof (frame_total_range s).
  destruct (Z.ltb_spec (len s) 8); simpl; [intros [= <- <-]; by constructor; left|].
  destruct (Z.ltb_spec (len s) (frame_total s)); simpl; [intros [= <- <-]; by constructor; right|].
  destruct (Z.eqb_spec (frame_total s) 0); [done|].
  destruct (frames fuel _) as [[ms' r']|] eqn:E; [|done]. intros [= <- <-].
  constructor; [lia|lia|by apply IH].
Qed.

Lemma frame_total_app s t : 8 <= len s → frame_total (s ++ t) = frame_total s.
Proof. intros H. destruct (split_8 s H) as (?&?&?&?&?&?&?&?&?&->). done. Qed.

(** Framing is incremental: the messages of a longer stream are those of the
    prefix, then those of what was left over with the new bytes. *)
Lemma framed_app s t ms1 r1 ms2 r2 :
  framed s ms1 r1 → framed (r1 ++ t) ms2 r2 → framed (s ++ t) (ms1 ++ ms2) r2.
Proof.
  induction 1 as [s Hs|s ms r H8 Ht Hrest IH]; [done|]. intros Hf.
  pose proof (len_nonneg t). assert (len (s ++ t) = len s + len t) as Hl by apply len_app.
  assert (Z.to_nat (frame_total s) <= length s)%nat as Hle by (unfold len in *; lia).
  simpl. rewrite <- (take_app_le s t) by done.
  rewrite <- (frame_total_app s t) by done. constructor.
  - lia.
  - rewrite frame_total_app by done. lia.
  - rewrite frame_total_app by done. rewrite drop_app_le by done. by apply IH.
Qed.

Lemma framed_rest s ms r : framed s ms r → s = concat ms ++ r.
Proof.
  induction 1 as [|s ms r H8 Ht Hr IH]; [done|].
  simpl. rewrite <- app_assoc, <- IH. by rewrite take_drop.
Qed.

Lemma framed_length s ms r : framed s ms r → Z.of_nat (length ms) <= len s.
Proof.
  induction 1 as [|s ms r H8 Ht Hr IH]; [simpl; apply len_nonneg|].
  rewrite len_drop in IH by lia. simpl. lia.
Qed.

Lemma framed_concat ms : Forall (λ m, 8 <= len m ∧ frame_total m = len m) ms → framed (concat ms) ms [].
Proof.
  induction 1 as [|m ms [H8 Ht] _ IH]; [by constructor; left|]. simpl.
  pose proof (frame_total_app m (concat ms) H8) as Hf. pose proof (len_nonneg (concat ms)).
  assert (Z.to_nat (len m) = length m) as Hl by (unfold len; lia).
  assert (take (Z.to_nat (frame_total (m ++ concat ms))) (m ++ concat ms) = m) as Etake
    by (rewrite Hf, Ht, Hl; apply take_app_length).
  rewrite <- Etake at 2. constructor; [rewrite len_app; lia|rewrite len_app; lia|].
  rewrite Hf, Ht, Hl, drop_app_length. done.
Qed.

(** ** The reception loop *)

Lemma len_pending c : conn_ok c → len (pending c) = rx_buffer_used c.
Proof. intros (Hl&_&Hu). unfold pending. apply len_take. lia. Qed.

Lemma decode_pending c :
  conn_ok c → 8 <= rx_buffer_used c →
  ∃ h, doip_decode_header (Some (rx_buffer c)) (rx_buffer_used c) (Some uninit_header) =
         Done (DOIP_RESULT_OK, Some h) ∧ u32 (8 + payload_length h) = frame_total (pending c).
Proof.
  intros Hok H8. pose proof Hok as (Hl&Hb&Hu). pose proof (len_pending c Hok) as Hp.
  destruct (split_8 (pending c)) as (a&b&d&e&f&g&h&i&rest&E); [lia|].
  assert (rx_buffer c = a :: b :: d :: e :: f :: g :: h :: i :: rest ++
                          drop (Z.to_nat (rx_buffer_used c)) (rx_buffer c)) as Hrx.
  { rewrite <- (take_drop (Z.to_nat (rx_buffer_used c)) (rx_buffer c)) at 1.
    fold (pending c). by rewrite E. }
  assert (bytes_ok [a; b; d; e; f; g; h; i]) as Hbo.
  { assert (bytes_ok (take 8 (rx_buffer c))) as Ht by auto with width. by rewrite Hrx in Ht. }
  rewrite E. eexists. split; [rewrite Hrx; by apply doip_decode_header_cons|done].
Qed.

Lemma slice_pending c n : conn_ok c → 0 <= n <= rx_buffer_used c →
  slice (rx_buffer c) n (u32 (rx_buffer_used c - n)) = Done (drop (Z.to_nat n) (pending c)).
Proof.
  intros (Hl&Hb&Hu) Hn. unfold DOIP_RX_BUFFER_SIZE in *.
  rewrite u32_small by (unfold is_u32; lia). rewrite slice_Done by lia. f_equal.
  unfold pending. rewrite take_drop_commute. do 2 f_equal. lia.
Qed.

Lemma take_pending c n : n <= rx_buffer_used c →
  take (Z.to_nat n) (pending c) = take (Z.to_nat n) (rx_buffer c).
Proof. intros. unfold pending. rewrite take_take. f_equal. lia. Qed.

(** The connection after the message at its front has been removed. *)
Definition consume (n : Z) (c : doip_tcp_connection_t) : doip_tcp_connection_t :=
  with_used (rx_buffer_used c - n)
    (with_rx (if n <? rx_buffer_used c
              then patch (rx_buffer c) 0 (drop (Z.to_nat n) (pending c))
              else rx_buffer c) c).

Lemma consume_ok n c : conn_ok c → 0 <= n <= rx_buffer_used c →
  conn_ok (consume n c) ∧ same_slot c (consume n c) ∧
  pending (consume n c) = drop (Z.to_nat n) (pending c).
Proof.
  intros Hok Hn. pose proof Hok as (Hl&Hb&Hu). pose proof (len_pending c Hok) as Hp.
  assert (len (drop (Z.to_nat n) (pending c)) = rx_buffer_used c - n) as Hd
    by (rewrite len_drop by lia; lia).
  assert (bytes_ok (pending c)) as Hpb by (unfold pending; auto with width).
  split_and!; [| |].
  - unfold conn_ok, consume; simpl. destruct (Z.ltb_spec n (rx_buffer_used c)).
    + split_and!; [rewrite len_patch by lia; lia|auto with width|lia|lia].
    + split_and!; [done..|lia|lia].
  - by repeat split.
  - unfold pending at 1, consume; simpl. destruct (Z.ltb_spec n (rx_buffer_used c)).
    + rewrite <- Hd, <- length_to_nat_len. by rewrite take_patch_0.
    + replace (rx_buffer_used c - n) with 0 by lia. simpl.
      symmetry. apply drop_ge. unfold len in Hp. lia.
Qed.

Section loop.
Context {N U : Type}.
Implicit Types w : world N U.

Definition call_tcp_callback (cb : option (@doip_tcp_rx_callback_t N U)) (i : Z) (b : bytes) (n : Z) :
    ST (world N U) unit :=
  match cb with Some cb => cb i b n | None => mret tt end.

Lemma wp_process_messages_wait D fuel i cb c w (Q : unit → world N U → Prop) :
  conn_at w i = Some c → conn_ok c →
  rx_buffer_used c < 8 ∨ rx_buffer_used c < frame_total (pending c) →
  Q tt w → wp D (process_messages (S fuel) i cb) Q w.
Proof.
  intros Hc Hok Hw HQ. simpl. apply wp_bind. apply (wp_get_conn _ _ _ c); [done|].
  destruct (Z.leb_spec 8 (rx_buffer_used c)) as [H8|]; simpl; [|done].
  destruct (decode_pending c Hok H8) as (h&Hd&Ht).
  apply wp_bind. eapply wp_lift; [exact Hd|]. cbv beta iota. rewrite Ht.
  by rewrite (proj2 (Z.leb_gt _ _)) by lia.
Qed.

Lemma wp_process_messages_deliver D fuel i cb c w (Q : unit → world N U → Prop) :
  let n := frame_total (pending c) in
  conn_at w i = Some c → conn_ok c → 8 <= rx_buffer_used c → n <= rx_buffer_used c →
  wp D (call_tcp_callback cb i (rx_buffer c) n)
    (λ _ w', conn_at w' i = Some c ∧
             wp D (process_messages fuel i cb) Q (put_conn i (consume n c) w')) w →
  wp D (process_messages (S fuel) i cb) Q w.
Proof.
  intros n Hc Hok H8 Hn Hcb. subst n. pose proof (frame_total_range (pending c)) as Hr.
  pose proof (len_pending c Hok) as Hlp. pose proof Hok as (Hl&Hb&Hu). unfold DOIP_RX_BUFFER_SIZE in *.
  simpl. apply wp_bind. apply (wp_get_conn _ _ _ c); [done|].
  rewrite (proj2 (Z.leb_le _ _)) by lia. simpl.
  destruct (decode_pending c Hok H8) as (h&Hd&Ht).
  apply wp_bind. eapply wp_lift; [exact Hd|]. cbv beta iota zeta. rewrite Ht.
  rewrite (proj2 (Z.leb_le _ _)) by lia. apply wp_bind. unfold call_tcp_callback in Hcb.
  eapply wp_mono; [exact Hcb|]. cbv beta. intros _ w' [Hc' Hk].
  apply wp_bind. apply (wp_get_conn _ _ _ c); [done|].
  unfold consume in Hk. destruct (Z.ltb_spec (frame_total (pending c)) (rx_buffer_used c)).
  - repeat apply wp_bind. eapply wp_lift; [apply slice_pending; [done|lia]|].
    apply wp_bind. eapply wp_lift; [apply memcpy_patch; rewrite ?len_drop; lia|].
    apply (wp_upd_conn _ _ _ c); [done|]. cbv beta.
    apply wp_bind. eapply wp_upd_conn; [by eapply conn_at_put_eq|]. rewrite put_put.
    simpl rx_buffer_used. rewrite u32_small by (unfold is_u32; lia). exact Hk.
  - apply wp_bind, wp_ret. apply wp_bind. apply (wp_upd_conn _ _ _ c); [done|].
    rewrite u32_small by (unfold is_u32; lia).
    replace (with_rx (rx_buffer c) c) with c in Hk by (by destruct c). exact Hk.
Qed.
End loop.

(** Splitting a framing at any point of the stream. *)
Lemma framed_split u ms r : framed u ms r → ∀ s t, u = s ++ t →
  ∃ ms1 r1 ms2, framed s ms1 r1 ∧ framed (r1 ++ t) ms2 r ∧ ms = ms1 ++ ms2.
Proof.
  induction 1 as [u Hu|u ms r H8 Ht Hr IH]; intros s t ->.
  - exists [], s, []. split_and!; [|by constructor|done]. constructor.
    pose proof (len_app s t). pose proof (len_nonneg t).
    destruct (decide (len s < 8)) as [|Hs]; [by left|]. right.
    destruct Hu as [|Hu]; [lia|]. rewrite frame_total_app in Hu by lia. lia.
  - pose proof (len_app s t). pose proof (len_nonneg t).
    destruct (decide (8 <= len s ∧ frame_total s <= len s)) as [[Hs Hts]|Hn].
    + rewrite frame_total_app in * by done.
      assert (Z.to_nat (frame_total s) <= length s)%nat as Hle by (unfold len in *; lia).
      destruct (IH (drop (Z.to_nat (frame_total s)) s) t) as (ms1&r1&ms2&H1&H2&->);
        [by rewrite drop_app_le|].
      exists (take (Z.to_nat (frame_total s)) s :: ms1), r1, ms2.
      split_and!; [|done|by rewrite take_app_le].
      constructor; [done|lia|done].
    + exists [], s, (take (Z.to_nat (frame_total (s ++ t))) (s ++ t) :: ms).
      split_and!; [|by constructor|done]. constructor.
      destruct (decide (len s < 8)); [by left|right; lia].
Qed.

(** A client of the reception loop: [inv v w a] says that the world [w]
    represents the abstract state [a] while the network still holds the bytes [v]
    for the connection; [react m a a'] says what the client does with the
    message [m], provided [m] is one of the [good] messages. *)
Section delivery.
Context {N U A : Type} (ops : doip_network_ops_t N) `{!NetLaws ops}.
Context (i : Z) (cb : @doip_tcp_rx_callback_t N U) (inv : bytes → world N U → A → Prop)
        (good : bytes → Prop) (react : bytes → A → A → Prop).

Hypothesis inv_rx : ∀ v w a c c', inv v w a → conn_at w i = Some c → same_slot c c' → conn_ok c' →
  inv v (put_conn i c' w) a.
Hypothesis cb_spec : ∀ v w a c n, inv v w a → conn_at w i = Some c → conn_ok c → 0 <= socket_fd c →
  n = frame_total (pending c) → 8 <= rx_buffer_used c → 0 < n <= rx_buffer_used c →
  good (take (Z.to_nat n) (rx_buffer c)) →
  wp False (cb i (rx_buffer c) n)
    (λ _ w', conn_at w' i = Some c ∧ ∃ a', react (take (Z.to_nat n) (rx_buffer c)) a a' ∧ inv v w' a') w.

(** The client's reactions to a list of messages, in order. *)
Inductive reacts : list bytes → A → A → Prop :=
  | reacts_nil a : reacts [] a a
  | reacts_cons m ms a a' a'' : react m a a' → reacts ms a' a'' → reacts (m :: ms) a a''.

Lemma reacts_app ms1 ms2 a a' a'' : reacts ms1 a a' → reacts ms2 a' a'' → reacts (ms1 ++ ms2) a a''.
Proof. induction 1; simpl; [done|]. intros. econstructor; eauto. Qed.

Lemma process_messages_framed s ms r : framed s ms r → ∀ fuel v w a c,
  (length ms < fuel)%nat → inv v w a → conn_at w i = Some c → conn_ok c → 0 <= socket_fd c →
  pending c = s → Forall good ms →
  wp False (process_messages fuel i (Some cb))
    (λ _ w', ∃ a' c', reacts ms a a' ∧ inv v w' a' ∧ conn_at w' i = Some c' ∧ conn_ok c' ∧
                      same_slot c c' ∧ pending c' = r) w.
Proof.
  induction 1 as [s Hs|s ms r H8 Ht Hr IH]; intros [|fuel] v w a c Hf Hi Hc Hok Hfd Hp Hg;
    [simpl in Hf; lia| |simpl in Hf; lia|].
  - eapply wp_process_messages_wait; [done..| |].
    + rewrite <- Hp, len_pending in Hs by done. done.
    + exists a, c. split_and!; [constructor|done..|apply same_slot_refl|done].
  - subst s. rewrite len_pending in * by done. apply Forall_cons in Hg as [Hg Hgs].
    rewrite take_pending in Hg by lia.
    eapply wp_process_messages_deliver; [done..|lia|].
    simpl call_tcp_callback. eapply wp_mono; [by eapply cb_spec|].
    intros _ w' (Hc'&a'&Hreact&Hi'). split; [done|].
    destruct (consume_ok (frame_total (pending c)) c Hok) as (Hok'&Hslot&Hpend); [lia|].
    eapply wp_mono.
    + apply (IH fuel v _ a' (consume (frame_total (pending c)) c)); [simpl in Hf; lia| |by eapply conn_at_put_eq|done..].
      by eapply inv_rx.
    + intros _ w2 (a2&c2&Hr2&Hi2&Hc2&Hok2&Hs2&Hp2). exists a2, c2. split_and!; try done.
      econstructor; [|done]. rewrite take_pending by lia. exact Hreact.
Qed.

(** One segment [d] of the stream. *)
Lemma process_connection_segment fuel dcb d n' v w a c ms r :
  net_ops (w_iface w) = ops → conn_at w i = Some c → conn_ok c → 0 <= socket_fd c → 0 < len d →
  tcp_recv ops (socket_fd c) (DOIP_RX_BUFFER_SIZE - rx_buffer_used c) (w_net w) = (len d, d, n') →
  inv v (set_net n' w) a → framed (pending c ++ d) ms r → Forall good ms → (4096 < fuel)%nat →
  wp False (process_connection fuel (Some cb) dcb i)
    (λ _ w', ∃ a' c', reacts ms a a' ∧ inv v w' a' ∧ conn_at w' i = Some c' ∧ conn_ok c' ∧
                      same_slot c c' ∧ pending c' = r) w.
Proof.
  intros Hi Hc Hok Hfd Hd Hrecv Hi' Hf Hg Hfuel. pose proof Hok as (Hl&Hb&Hu).
  destruct (tcp_recv_law _ _ _ _ _ _ Hrecv Hd) as (_&Hle&Hdb).
  unfold DOIP_RX_BUFFER_SIZE in *. pose proof (len_pending c Hok) as Hp.
  unfold process_connection. apply wp_bind. apply (wp_get_conn _ _ _ c); [done|].
  rewrite (proj2 (Z.leb_le _ _)) by lia. apply wp_bind, wp_call_net. intros [bytes_received data] n.
  rewrite Hi. unfold DOIP_RX_BUFFER_SIZE. rewrite u32_small by (unfold is_u32; lia).
  rewrite Hrecv. intros [= <- <- <-]. rewrite (proj2 (Z.ltb_lt _ _)) by lia.
  apply wp_bind. eapply wp_lift; [apply memcpy_patch; lia|].
  apply wp_bind. apply (wp_upd_conn _ _ _ c); [done|].
  apply wp_bind. eapply wp_upd_conn; [by eapply conn_at_put_eq|]. rewrite put_put. simpl rx_buffer_used.
  rewrite !u32_small by (unfold is_u32; rewrite ?u32_small by (unfold is_u32; lia); lia).
  set (c1 := with_used _ _).
  assert (conn_ok c1) as Hok1.
  { unfold conn_ok, c1; simpl. split_and!; [rewrite len_patch by lia; done|auto with width|lia|].
    unfold DOIP_RX_BUFFER_SIZE; lia. }
  assert (pending c1 = pending c ++ d) as Hp1.
  { unfold pending, c1; simpl. unfold patch.
    replace (Z.to_nat (rx_buffer_used c + len d)) with (length (pending c ++ d)).
    2: { rewrite length_app. unfold len in *. lia. }
    rewrite app_assoc. fold (pending c). apply take_app_length. }
  eapply wp_mono.
  - apply (process_messages_framed _ _ _ Hf fuel v _ a c1); [| |by eapply conn_at_put_eq|done..].
    + pose proof (framed_length _ _ _ Hf) as Hlm. rewrite len_app in Hlm. lia.
    + eapply inv_rx; [exact Hi'|done|by repeat split|done].
  - intros _ w' (a'&c'&?&?&?&?&?&?). exists a', c'. split_and!; try done.
Qed.

(** Nothing to read: the connection is left alone. *)
Lemma process_connection_idle fuel dcb w c r d n' :
  conn_at w i = Some c → conn_ok c → 0 <= socket_fd c → net_ops (w_iface w) = ops → r < 0 →
  tcp_recv ops (socket_fd c) (DOIP_RX_BUFFER_SIZE - rx_buffer_used c) (w_net w) = (r, d, n') →
  wp False (process_connection fuel (Some cb) dcb i) (λ _ w', w' = set_net n' w) w.
Proof.
  intros Hc (Hl&Hb&Hu) Hfd Hops Hr Hrecv. unfold DOIP_RX_BUFFER_SIZE in *.
  unfold process_connection. apply wp_bind. apply (wp_get_conn _ _ _ c); [done|].
  rewrite (proj2 (Z.leb_le _ _)) by lia. apply wp_bind, wp_call_net. intros [bytes_received data] n.
  rewrite Hops. unfold DOIP_RX_BUFFER_SIZE. rewrite u32_small by (unfold is_u32; lia).
  rewrite Hrecv. intros [= <- <- <-]. rewrite (proj2 (Z.ltb_ge _ _)), (proj2 (Z.eqb_neq _ _)) by lia.
  by apply wp_ret.
Qed.
(** The whole stream, cut by the network as it likes. *)
Context (fd : Z).
Hypothesis inv_ops : ∀ v w a, inv v w a → net_ops (w_iface w) = ops.
Hypothesis recv_data : ∀ v w a n, inv v w a → v ≠ [] → 0 < n →
  ∃ d v' n', v = d ++ v' ∧ 0 < len d ∧ tcp_recv ops fd n (w_net w) = (len d, d, n') ∧ inv v' (set_net n' w) a.
Hypothesis recv_empty : ∀ w a n, inv [] w a → 0 < n →
  ∃ r d n', r < 0 ∧ tcp_recv ops fd n (w_net w) = (r, d, n') ∧ inv [] (set_net n' w) a.

Lemma framed_fits u ms r p v : framed u ms r → Forall (λ m, len m <= DOIP_RX_BUFFER_SIZE) ms →
  len r < DOIP_RX_BUFFER_SIZE → u = p ++ v → framed p [] p → len p < DOIP_RX_BUFFER_SIZE.
Proof.
  unfold DOIP_RX_BUFFER_SIZE. intros Hu Hms Hr -> Hp. pose proof (len_nonneg v).
  destruct (decide (len p < 4096)); [done|]. exfalso.
  assert (len p < frame_total p) as Ht by (inversion Hp; subst; lia).
  inversion Hu as [s Hs|s ms' r' H8 Hn Hrest]; subst; rewrite ?len_app in *; [lia|].
  rewrite frame_total_app in * by lia. apply Forall_inv in Hms.
  rewrite len_take in Hms by (rewrite len_app; lia). lia.
Qed.

(** What is left over contains no complete message. *)
Lemma framed_rest_incomplete u ms r : framed u ms r → framed r [] r.
Proof. induction 1; [by constructor|done]. Qed.

Lemma stream_delivered k : ∀ w a c v ms r fuel dcb,
  inv v w a → conn_at w i = Some c → conn_ok c → socket_fd c = fd → 0 <= fd →
  framed (pending c) [] (pending c) → framed (pending c ++ v) ms r →
  Forall (λ m, len m <= DOIP_RX_BUFFER_SIZE) ms → Forall good ms → len r < DOIP_RX_BUFFER_SIZE →
  len v <= Z.of_nat k → (4096 < fuel)%nat →
  wp False (for_each (replicate k i) (process_connection fuel (Some cb) dcb))
    (λ _ w', ∃ a' c', reacts ms a a' ∧ inv [] w' a' ∧ conn_at w' i = Some c' ∧ same_slot c c' ∧
                      pending c' = r) w.
Proof.
  induction k as [|k IH]; intros w a c v ms r fuel dcb Hw Hc Hok Hfd H0 Hp Hu Hms Hg Hr Hk Hfuel.
  - assert (v = []) as -> by (destruct v; [done|rewrite len_cons in Hk; pose proof (len_nonneg v); lia]).
    rewrite app_nil_r in Hu.
    assert (ms = [] ∧ r = pending c) as [-> ->].
    { inversion Hu; subst; [done|]. inversion Hp; subst; lia. }
    apply wp_ret. exists a, c. split_and!; try done. constructor.
  - simpl. apply wp_bind. pose proof (framed_fits _ _ _ _ _ Hu Hms Hr eq_refl Hp) as Hfit.
    rewrite len_pending in Hfit by done. subst fd. pose proof (inv_ops _ _ _ Hw) as Hops.
    destruct (decide (v = [])) as [->|Hv].
    + destruct (recv_empty w a (DOIP_RX_BUFFER_SIZE - rx_buffer_used c) Hw) as (x&d&n'&Hx&Hrecv&Hn'); [lia|].
      eapply wp_mono; [by apply (process_connection_idle fuel dcb w c x d n')|].
      intros [] w' ->. apply (IH (set_net n' w) a c [] ms r); try done. rewrite len_nil; lia.
    + destruct (recv_data v w a (DOIP_RX_BUFFER_SIZE - rx_buffer_used c) Hw Hv) as (d&v'&n'&->&Hd&Hrecv&Hn'); [lia|].
      destruct (framed_split _ _ _ Hu (pending c ++ d) v') as (ms1&r1&ms2&H1&H2&->); [by rewrite app_assoc|].
      apply Forall_app in Hms as [Hms1 Hms2]. apply Forall_app in Hg as [Hg1 Hg2]. rewrite len_app in Hk.
      eapply wp_mono; [by apply (process_connection_segment fuel dcb d n' v' w a c ms1 r1)|].
      intros [] w' (a'&c'&Hre&Hw'&Hc'&Hok'&Hslot&Hp'). eapply wp_mono.
      * apply (IH w' a' c' v' ms2 r); try done; [by destruct Hslot as [-> _]| | |lia];
          rewrite Hp'; [by eapply framed_rest_incomplete|done].
      * intros _ w2 (a2&c2&?&?&?&?&?). exists a2, c2. split_and!; eauto using reacts_app.
Qed.
End delivery.

(** ** A TCP byte stream

    The network holds the bytes [u] for a connection: a read returns some
    non-empty prefix of them, cut wherever the network likes. *)
Class TcpStream {N} (ops : doip_network_ops_t N) (fd : Z) (holds : N → bytes → Prop) : Prop := {
  stream_data : ∀ net u n, holds net u → u ≠ [] → 0 < n →
    ∃ d u' net', u = d ++ u' ∧ 0 < len d ∧ tcp_recv ops fd n net = (len d, d, net') ∧ holds net' u';
  stream_empty : ∀ net n, holds net [] → 0 < n →
    ∃ r d net', r < 0 ∧ tcp_recv ops fd n net = (r, d, net') ∧ holds net' [];
}.

(** A client that writes down the messages it is given. *)
Definition record_message {N} : @doip_tcp_rx_callback_t N (list bytes) := λ _ b n,
  m ← lift (slice b 0 n);
  modify (λ w, set_user (w_user w ++ [m]) w).

Section stream.
Context {N : Type} (ops : doip_network_ops_t N) `{!NetLaws ops}.
Context (fd : Z) (holds : N → bytes → Prop) `{!TcpStream ops fd holds}.

Definition recorded (w : world N (list bytes)) (log : list bytes) : Prop :=
  net_ops (w_iface w) = ops ∧ w_user w = log.

Lemma record_message_spec i w log c n : recorded w log → conn_at w i = Some c → conn_ok c →
  0 < n <= rx_buffer_used c →
  wp False (record_message i (rx_buffer c) n)
    (λ _ w', w' = set_user (log ++ [take (Z.to_nat n) (rx_buffer c)]) w) w.
Proof.
  intros [_ Hlog] Hc (Hl&_&Hu) Hn. unfold record_message. apply wp_bind.
  eapply wp_lift; [apply slice_Done; lia|]. apply wp_modify. by rewrite Hlog.
Qed.

Lemma reacts_record ms log log' :
  reacts (λ m (a a' : list bytes), a' = a ++ [m]) ms log log' → log' = log ++ ms.
Proof.
  induction 1 as [a|m ms a a1 a2 -> _ ->]; [by rewrite app_nil_r|by rewrite <- app_assoc].
Qed.

(** One round of the loop on one connection. *)
Lemma record_round fuel dcb i w log c d n' ms r :
  recorded w log → conn_at w i = Some c → conn_ok c → 0 <= socket_fd c → 0 < len d →
  tcp_recv ops (socket_fd c) (DOIP_RX_BUFFER_SIZE - rx_buffer_used c) (w_net w) = (len d, d, n') →
  framed (pending c ++ d) ms r → (4096 < fuel)%nat →
  wp False (process_connection fuel (Some record_message) dcb i)
    (λ _ w', ∃ c', recorded w' (log ++ ms) ∧ w_net w' = n' ∧ conn_at w' i = Some c' ∧
                   conn_ok c' ∧ same_slot c c' ∧ pending c' = r) w.
Proof.
  intros Hw Hc Hok Hfd Hd Hrecv Hf Hfuel. eapply wp_mono.
  - apply (process_connection_segment ops i record_message
             (λ _ w a, recorded w a ∧ w_net w = n') (λ _, True) (λ m a a', a' = a ++ [m])) with
        (a := log) (c := c) (d := d) (n' := n') (ms := ms) (r := r) (v := []); try done;
      [|by destruct Hw|by apply Forall_true].
    intros _ w1 a c1 n1 [Hw1 Hnet] Hc1 Hok1 _ -> _ Hn1 _.
    eapply wp_mono; [by apply (record_message_spec i w1 a c1)|].
    intros _ w2 ->. split; [done|]. eexists. split; [done|]. split; [by destruct Hw1|done].
  - intros _ w' (a'&c'&Hr%reacts_record&[Hi ?]&?&?&?&?). subst a'. by exists c'.
Qed.

(** C4 (liveness): TCP reassembly does not depend on how the network cuts the
    stream. A connection whose buffer is empty, and whose peer sends a byte
    stream made of the DoIP messages [ms] of at most 4096 bytes each followed
    by an incomplete rest [r] shorter than the buffer, delivers to the
    callback exactly the messages [ms], whole and in order, after at most as
    many calls of the loop as the stream has bytes; what stays in the
    buffer is [r]. *)
Theorem tcp_stream_reassembled k i w log c u ms r fuel dcb :
  recorded w log → conn_at w i = Some c → conn_ok c → socket_fd c = fd → 0 <= fd →
  rx_buffer_used c = 0 → holds (w_net w) u → framed u ms r →
  Forall (λ m, len m <= DOIP_RX_BUFFER_SIZE) ms → len r < DOIP_RX_BUFFER_SIZE →
  len u <= Z.of_nat k → (4096 < fuel)%nat →
  wp False (for_each (replicate k i) (process_connection fuel (Some record_message) dcb))
    (λ _ w', recorded w' (log ++ ms) ∧ holds (w_net w') [] ∧
             ∃ c', conn_at w' i = Some c' ∧ same_slot c c' ∧ pending c' = r) w.
Proof.
  intros Hw Hc Hok Hfd H0 Hz Hn Hf Hms Hr Hk Hfuel.
  assert (pending c = []) as Hp by (unfold pending; rewrite Hz; done).
  eapply wp_mono.
  - apply (stream_delivered ops i record_message (λ v w a, recorded w a ∧ holds (w_net w) v) (λ _, True)
             (λ m a a', a' = a ++ [m])) with (a := log) (c := c) (v := u) (ms := ms) (r := r) (fd := fd);
      try done; rewrite ?Hp; try done.
    + intros v w1 a c1 n [Hw1 Hv] Hc1 Hok1 _ -> _ Hn1 _.
      eapply wp_mono; [by apply (record_message_spec i w1 a c1)|].
      intros _ w2 ->. split; [done|]. eexists. split; [done|]. split; [by destruct Hw1|done].
    + by intros v w1 a [[??] _].
    + intros v w1 a n [Hw1 Hv] Hne Hn1. destruct (stream_data (w_net w1) v n Hv Hne Hn1) as (d&v'&n'&->&?&?&?).
      exists d, v', n'. by split_and!.
    + intros w1 a n [Hw1 Hv] Hn1. destruct (stream_empty (w_net w1) n Hv Hn1) as (x&d&n'&?&?&?).
      exists x, d, n'. by split_and!.
    + constructor. left. by vm_compute.
    + by apply Forall_true.
  - intros [] w' (a'&c'&Hre%reacts_record&[??]&?&?&?). subst a'. split_and!; try done. by exists c'.
Qed.
End stream.

(** ** Safety of the reception loop

    [J] is the invariant of a client: it holds between the steps of the loop
    and the client's callbacks keep it. *)
Section safety.
Context {N U : Type} (J : world N U → Prop).
Context (udp_cb : option (@doip_udp_rx_callback_t N U)) (tcp_cb : option (@doip_tcp_rx_callback_t N U))
        (conn_cb : option (@doip_tcp_connected_callback_t N U))
        (disc_cb : option (@doip_tcp_disconnected_callback_t N U)).
Implicit Types w : world N U.

(** The slot a new connection is put in, and the slot after a close. *)
Definition accepted (fd : Z) (c : doip_tcp_connection_t) : doip_tcp_connection_t :=
  with_time 0 (with_used 0 (with_state DOIP_CONN_STATE_PENDING_ACTIVATION (with_socket fd c))).
Definition closed (c : doip_tcp_connection_t) : doip_tcp_connection_t :=
  with_used 0 (with_state DOIP_CONN_STATE_CLOSED (with_socket INVALID_SOCKET c)).

Record client_ok : Prop := {
  J_ok : ∀ w, J w → iface_ok (w_iface w);
  J_laws : ∀ w, J w → NetLaws (net_ops (w_iface w));
  J_net : ∀ w n, J w → J (set_net n w);
  J_udp : ∀ w b, J w → len b = DOIP_RX_BUFFER_SIZE → bytes_ok b → J (set_udp_rx b w);
  J_rx : ∀ w i c c', J w → conn_at w i = Some c → same_slot c c' → conn_ok c' → J (put_conn i c' w);
  J_udp_cb : ∀ w cb ip port n, udp_cb = Some cb → J w → is_u16 port → 0 < n <= DOIP_RX_BUFFER_SIZE →
    wp True (cb ip port (udp_rx_buffer (w_iface w)) n) (λ _, J) w;
  J_accept : ∀ w i c fd, J w → conn_at w i = Some c → state c = DOIP_CONN_STATE_CLOSED → 0 <= fd →
    wp True (match conn_cb with Some cb => cb i | None => mret tt end) (λ _, J) (put_conn i (accepted fd c) w);
  J_close : ∀ w i c, J w → conn_at w i = Some c → 0 <= socket_fd c →
    wp True (match disc_cb with Some cb => cb i | None => mret tt end)
      (λ _ w', conn_at w' i = Some c ∧ ∀ n, J (put_conn i (closed c) (set_net n w'))) w;
  J_tcp_cb : ∀ w i c n, J w → conn_at w i = Some c → conn_ok c → 0 <= socket_fd c →
    8 <= rx_buffer_used c → n = frame_total (pending c) → n <= rx_buffer_used c →
    wp True (call_tcp_callback tcp_cb i (rx_buffer c) n) (λ _ w', conn_at w' i = Some c ∧ J w') w;
}.

Context (HJ : client_ok).

Lemma process_messages_safe fuel w i c :
  J w → conn_at w i = Some c → conn_ok c → 0 <= socket_fd c →
  wp True (process_messages fuel i tcp_cb) (λ _, J) w.
Proof.
  revert w c. induction fuel as [|fuel IH]; intros w c Hw Hc Hok Hfd; [done|].
  destruct (decide (rx_buffer_used c < 8 ∨ rx_buffer_used c < frame_total (pending c))) as [Hd|Hd].
  - by eapply wp_process_messages_wait.
  - eapply wp_process_messages_deliver; [done..|lia|lia|].
    eapply wp_mono; [eapply (J_tcp_cb HJ); done || lia|].
    intros _ w' [Hc' Hw']. split; [done|].
    pose proof (frame_total_range (pending c)).
    destruct (consume_ok (frame_total (pending c)) c Hok) as (Hok'&Hslot&_); [lia|].
    eapply IH; [by eapply (J_rx HJ)|by eapply conn_at_put_eq|done|].
    destruct Hslot as (->&_). done.
Qed.

Lemma process_connection_safe fuel w i :
  J w → i ∈ conn_ids → wp True (process_connection fuel tcp_cb disc_cb i) (λ _, J) w.
Proof.
  intros Hw Hi. destruct (conn_at_some w i (J_ok HJ w Hw) Hi) as (c&Hc&Hok).
  pose proof Hok as (Hl&Hb&Hu). unfold DOIP_RX_BUFFER_SIZE in *.
  unfold process_connection. apply wp_bind. apply (wp_get_conn _ _ _ c); [done|].
  destruct (Z.leb_spec 0 (socket_fd c)); [|done].
  apply wp_bind, wp_call_net. intros [br d] n Hrecv. pose proof (J_laws HJ w Hw) as Hlaws.
  unfold DOIP_RX_BUFFER_SIZE in Hrecv. rewrite u32_small in Hrecv by (unfold is_u32; lia).
  assert (J (set_net n w)) as Hwn by by apply (J_net HJ).
  assert (conn_at (set_net n w) i = Some c) as Hcn by done.
  destruct (Z.ltb_spec 0 br) as [Hbr|Hbr].
  - destruct (tcp_recv_law _ _ _ _ _ _ Hrecv Hbr) as (Hd&Hle&Hdb).
    apply wp_bind. eapply wp_lift; [apply memcpy_patch; lia|].
    apply wp_bind. apply (wp_upd_conn _ _ _ c); [done|].
    apply wp_bind. eapply wp_upd_conn; [by eapply conn_at_put_eq|]. rewrite put_put.
    simpl rx_buffer_used. rewrite !u32_small by (unfold is_u32; rewrite ?u32_small by (unfold is_u32; lia); lia).
    assert (conn_ok (with_used (rx_buffer_used c + br) (with_rx (patch (rx_buffer c) (rx_buffer_used c) d) c))).
    { unfold conn_ok, DOIP_RX_BUFFER_SIZE; simpl.
      split_and!; [rewrite len_patch by lia; done|auto with width|lia|lia]. }
    eapply process_messages_safe; [|by eapply conn_at_put_eq|done|done].
    eapply (J_rx HJ); [done|done|by repeat split|done].
  - destruct (Z.eqb_spec br 0); [|done].
    apply wp_bind. eapply wp_mono; [by apply (J_close HJ)|].
    intros _ w' (Hc'&Hput). apply wp_bind. apply (wp_get_conn _ _ _ c); [done|].
    apply wp_bind, wp_call_net. intros [] n' _.
    apply wp_bind. apply (wp_upd_conn _ _ _ c); [done|].
    apply wp_bind. eapply wp_upd_conn; [by eapply conn_at_put_eq|]. rewrite put_put.
    eapply wp_upd_conn; [by eapply conn_at_put_eq|]. rewrite put_put. apply Hput.
Qed.

Lemma process_udp_safe w : J w → wp True (process_udp udp_cb) (λ _, J) w.
Proof.
  intros Hw. unfold process_udp. apply wp_bind, wp_gets. destruct udp_cb as [cb|] eqn:Ecb; [|done].
  destruct (0 <=? _); [|done]. apply wp_bind, wp_call_net. intros [[[br d] ip] port] n Hrecv.
  assert (J (set_net n w)) as Hwn by by apply (J_net HJ).
  destruct (Z.ltb_spec 0 br) as [Hbr|]; [|done].
  destruct (@udp_recv_law _ _ (J_laws HJ w Hw) _ _ _ _ _ _ _ _ Hrecv Hbr) as (Hd&Hle&Hdb&Hp).
  destruct (J_ok HJ w Hw) as (_&_&Hul&Hub). unfold DOIP_RX_BUFFER_SIZE in *.
  apply wp_bind, wp_gets. apply wp_bind. eapply wp_lift; [apply memcpy_patch; simpl; lia|].
  apply wp_bind, wp_modify. set (b := patch _ _ _).
  assert (J (set_udp_rx b (set_net n w))) as Hwu.
  { apply (J_udp HJ); [done| |unfold b; simpl; auto with width].
    unfold b. rewrite len_patch by (simpl; lia). done. }
  exact (J_udp_cb HJ _ cb ip port br Ecb Hwu Hp (conj Hbr Hle)).
Qed.

Lemma wp_find_free w (Q : Z → world N U → Prop) :
  iface_ok (w_iface w) → Q INVALID_SOCKET w →
  (∀ i c, i ∈ conn_ids → conn_at w i = Some c → state c = DOIP_CONN_STATE_CLOSED → Q i w) →
  wp True find_free_connection Q w.
Proof.
  intros Hok Hn Hs.
  destruct (conn_at_some w 0 Hok) as (c0&H0&_); [by left|].
  destruct (conn_at_some w 1 Hok) as (c1&H1&_); [by right; left|].
  unfold find_free_connection, conn_ids. cbn [for_find]. repeat apply wp_bind.
  apply (wp_get_conn _ _ _ c0); [done|]. apply wp_ret.
  destruct (decide (state c0 = DOIP_CONN_STATE_CLOSED)) as [E|];
    [apply wp_ret; apply (Hs 0 c0); [by left|done..]|].
  repeat apply wp_bind. apply (wp_get_conn _ _ _ c1); [done|]. apply wp_ret.
  destruct (decide (state c1 = DOIP_CONN_STATE_CLOSED)) as [E|];
    [apply wp_ret; apply (Hs 1 c1); [by right; left|done..]|].
  apply wp_ret. exact Hn.
Qed.

Lemma process_accept_safe w : J w → wp True (process_accept conn_cb) (λ _, J) w.
Proof.
  intros Hw. unfold process_accept. apply wp_bind, wp_gets. destruct (0 <=? _); [|done].
  apply wp_bind, wp_call_net. intros fd n _. assert (J (set_net n w)) as Hwn by by apply (J_net HJ).
  destruct (Z.leb_spec 0 fd); [|done]. apply wp_bind. apply wp_find_free; [by apply (J_ok HJ)| |].
  - simpl. apply wp_call_net. intros [] n' _. by apply (J_net HJ).
  - intros i c Hi Hc Hst. assert (0 <= i) by (by apply conn_at_inv in Hc as [? _]).
    rewrite (proj2 (Z.leb_le _ _)) by lia.
    apply wp_bind. apply (wp_upd_conn _ _ _ c); [done|].
    do 3 (apply wp_bind; eapply wp_upd_conn; [by eapply conn_at_put_eq|]; rewrite put_put).
    exact (J_accept HJ (set_net n w) i c fd Hwn Hc Hst H).
Qed.
End safety.

Section process_safe.
Context {N U : Type} (J : world N U → Prop).
Context (udp_cb : option (@doip_udp_rx_callback_t N U)) (tcp_cb : option (@doip_tcp_rx_callback_t N U))
        (conn_cb : option (@doip_tcp_connected_callback_t N U))
        (disc_cb : option (@doip_tcp_disconnected_callback_t N U)).
Context (HJ : client_ok J udp_cb tcp_cb conn_cb disc_cb).

(** The whole loop is safe for a client whose callbacks keep its invariant. *)
Lemma wp_interface_process fuel w : J w →
  wp True (doip_interface_process fuel OBJ udp_cb tcp_cb conn_cb disc_cb)
    (λ r w', r = DOIP_RESULT_OK ∧ J w') w.
Proof.
  intros Hw. unfold doip_interface_process. apply wp_bind.
  eapply wp_mono; [by eapply process_udp_safe|]. intros [] w1 Hw1. apply wp_bind.
  eapply wp_mono; [by eapply process_accept_safe|]. intros [] w2 Hw2. apply wp_bind.
  eapply wp_mono; [apply (wp_for_each conn_ids _ J); [done|]|].
  - intros i s Hi Hs. by eapply process_connection_safe.
  - intros [] w3 Hw3. by apply wp_ret.
Qed.
End process_safe.

(** ** A network to run the model on

    A concrete instance of the function table: the bytes the one TCP peer
    still has to send (handed over at most three at a time), the datagrams and
    the connection attempts that wait, and what was sent and closed. *)
Module Script.
Record network := Network {
  stream : bytes;
  datagrams : list bytes;
  attempts : list Z;
  sent : list (Z * bytes);
  closed_fds : list Z;
}.

Definition log (fd : Z) (d : bytes) (n : network) : network :=
  Network (stream n) (datagrams n) (attempts n) (sent n ++ [(fd, d)]) (closed_fds n).

Definition chunk (n : Z) (s : bytes) : bytes := map u8 (take (Z.to_nat (Z.min 3 n)) s).

Definition ops : doip_network_ops_t network := {|
  udp_bind := λ _ n, (100, n);
  udp_sendto := λ s d _ _ n, (len d, log s d n);
  udp_recvfrom := λ _ max n,
    match datagrams n with
    | d :: ds => let d := map u8 (take (Z.to_nat max) d) in
                 (len d, d, "192.168.0.1"%string, 5000,
                  Network (stream n) ds (attempts n) (sent n) (closed_fds n))
    | [] => (-1, [], ""%string, 0, n)
    end;
  tcp_listen := λ _ n, (101, n);
  tcp_accept := λ _ n,
    match attempts n with
    | fd :: l => (fd, Network (stream n) (datagrams n) l (sent n) (closed_fds n))
    | [] => (-1, n)
    end;
  tcp_connect := λ _ _ n, (-1, n);
  tcp_send := λ s d n, (len d, log s d n);
  tcp_recv := λ _ max n,
    match stream n with
    | [] => (-1, [], n)
    | _ => let d := chunk max (stream n) in
           (len d, d, Network (drop (length d) (stream n)) (datagrams n) (attempts n) (sent n) (closed_fds n))
    end;
  close_socket := λ s n, Network (stream n) (datagrams n) (attempts n) (sent n) (closed_fds n ++ [s]);
|}.

Lemma map_u8_ok d : bytes_ok (map u8 d).
Proof. apply Forall_forall. intros x (y&->&_)%list_elem_of_fmap. auto with width. Qed.
Lemma map_u8_id d : bytes_ok d → map u8 d = d.
Proof.
  induction 1 as [|x l Hx Hl IH]; [done|]. simpl. by rewrite IH, u8_small.
Qed.

#[global] Instance laws : NetLaws ops.
Proof.
  split; simpl.
  - intros s n net r d net' H Hr. destruct (stream net) as [|x u] eqn:E; simplify_eq; [lia|].
    split_and!; [done| |apply map_u8_ok].
    unfold chunk, len in *. rewrite length_map, length_take in *. lia.
  - intros s n net r d ip p net' H Hr. destruct (datagrams net) as [|x u] eqn:E; simplify_eq; [lia|].
    split_and!; [done| |apply map_u8_ok|by vm_compute].
    unfold len in *. rewrite length_map, length_take in *. lia.
Qed.

#[global] Instance tcp_stream fd : TcpStream ops fd (λ n u, stream n = u ∧ bytes_ok u).
Proof.
  split; simpl.
  - intros net u n [Hu Hb] Hne Hn. subst u. destruct (stream net) as [|x u] eqn:E; [done|].
    exists (chunk n (x :: u)), (drop (length (chunk n (x :: u))) (x :: u)).
    eexists. split_and!; [| |done|done|auto with width].
    + unfold chunk. rewrite map_u8_id by auto with width. rewrite length_take.
      rewrite <- (take_drop (Z.to_nat (Z.min 3 n)) (x :: u)) at 1. f_equal.
      destruct (decide (Z.to_nat (Z.min 3 n) <= length (x :: u))%nat).
      * f_equal. lia.
      * rewrite !drop_ge by lia. done.
    + unfold chunk, len. rewrite length_map, length_take. simpl length. lia.
  - intros net n [Hu _] Hn. rewrite Hu. exists (-1), [], net. split_and!; [lia|done|done|constructor].
Qed.

(** A slot with an open connection on socket [7], one that is free, and an
    interface that holds them. *)
Definition empty_slot : doip_tcp_connection_t :=
  TcpConnection (-1) DOIP_CONN_STATE_CLOSED 0 0 (replicate 4096 0) 0.
Definition open_slot : doip_tcp_connection_t :=
  TcpConnection 7 DOIP_CONN_STATE_PENDING_ACTIVATION 0 0 (replicate 4096 0) 0.
Definition iface (c0 c1 : doip_tcp_connection_t) : doip_interface_t network :=
  Interface ops 100 101 [c0; c1] (replicate 4096 0).
Definition quiet : network := Network [] [] [] [] [].

Lemma replicate_zero_ok n : bytes_ok (replicate n 0).
Proof. by apply bytes_ok_replicate. Qed.
Lemma empty_slot_ok : conn_ok empty_slot.
Proof. split_and!; [by vm_compute|apply replicate_zero_ok|by vm_compute..]. Qed.
Lemma open_slot_ok : conn_ok open_slot.
Proof. split_and!; [by vm_compute|apply replicate_zero_ok|by vm_compute..]. Qed.
Lemma iface_ok c0 c1 : conn_ok c0 → conn_ok c1 → DoipInterface.iface_ok (iface c0 c1).
Proof.
  intros. split; [done|]. split; [by apply Forall_cons; split; [|apply Forall_singleton]|].
  split; [by vm_compute|apply replicate_zero_ok].
Qed.
End Script.

Lemma tcp_stream_reassembled_witness :
  let alive := [0x03; 0xFC; 0x00; 0x08; 0; 0; 0; 2; 0x0E; 0x80] in
  let u := alive ++ alive ++ [0x03; 0xFC] in
  let w := World (Script.iface Script.open_slot Script.empty_slot)
                 (Script.Network u [] [] [] []) [] in
  wp False (for_each (replicate 22 0) (process_connection 4097 (Some record_message) None))
    (λ _ w', recorded Script.ops w' ([] ++ [alive; alive]) ∧
             (Script.stream (w_net w') = [] ∧ bytes_ok []) ∧
             ∃ c', conn_at w' 0 = Some c' ∧ same_slot Script.open_slot c' ∧ pending c' = [0x03; 0xFC]) w.
Proof.
  intros alive u w.
  apply (tcp_stream_reassembled Script.ops 7 (λ n u, Script.stream n = u ∧ bytes_ok u)
           22 0 w [] Script.open_slot u [alive; alive] [0x03; 0xFC] 4097 None).
  - done.
  - done.
  - apply Script.open_slot_ok.
  - done.
  - done.
  - done.
  - split; [done|]. by_compute.
  - apply (frames_framed 5). by vm_compute.
  - by_compute.
  - done.
  - done.
  - lia.
Defined.

(** ** Frames the loop cannot handle *)

(** A computation with no possible result, that does not fault, runs forever. *)
Lemma wp_never_returns {S A} (m : ST S A) s : wp True m (λ _ _, False) s ↔ m s = Diverge.
Proof. unfold wp. destruct (m s) as [[??]| |]; naive_solver. Qed.

Lemma consume_0 c : conn_ok c → 0 < rx_buffer_used c → consume 0 c = c.
Proof.
  intros (Hl&_&Hu) H. unfold consume. rewrite (proj2 (Z.ltb_lt _ _)) by lia.
  destruct c as [fd st a t b u]; simpl in *. unfold with_used, with_rx; simpl. f_equal; [|lia].
  unfold patch, pending; simpl. rewrite drop_0, length_take. unfold len in *.
  rewrite Nat.min_l by lia. apply take_drop.
Qed.

(** A message whose size is 0 modulo 2^32 is delivered again and again. *)
Lemma process_messages_zero {N U} fuel i cb c (w : world N U) :
  conn_at w i = Some c → conn_ok c → 8 <= rx_buffer_used c → frame_total (pending c) = 0 →
  call_tcp_callback cb i (rx_buffer c) 0 w = Done (tt, w) →
  process_messages fuel i cb w = Diverge.
Proof.
  intros Hc Hok H8 H0 Hcb. apply wp_never_returns. induction fuel as [|fuel IH]; [done|].
  eapply wp_process_messages_deliver; [done..|lia|]. rewrite H0, consume_0 by (done || lia).
  eapply wp_intro; [exact Hcb|]. split; [done|]. by rewrite put_id.
Qed.

(** A connection whose buffer is full: the loop asks the network for 0 bytes,
    calls no callback, and leaves the slot as it is or closes it. *)
Lemma process_connection_full {N U} fuel tcp_cb i c (w : world N U) :
  NetLaws (net_ops (w_iface w)) →
  conn_at w i = Some c → 0 <= socket_fd c → rx_buffer_used c = DOIP_RX_BUFFER_SIZE →
  wp False (process_connection fuel tcp_cb None i)
    (λ _ w', ∃ n', w' = set_net n' w ∨ w' = put_conn i (closed c) (set_net n' w)) w.
Proof.
  intros Hlaws Hc Hfd Hu. unfold process_connection. apply wp_bind.
  apply (wp_get_conn _ _ _ c); [done|]. rewrite (proj2 (Z.leb_le _ _)) by lia.
  apply wp_bind, wp_call_net. intros [r d] n'. rewrite Hu.
  change (u32 (DOIP_RX_BUFFER_SIZE - DOIP_RX_BUFFER_SIZE)) with 0.
  intros Hrecv. destruct (Z.ltb_spec 0 r) as [Hr|Hr].
  { destruct (tcp_recv_law _ _ _ _ _ _ Hrecv Hr). lia. }
  destruct (Z.eqb_spec r 0) as [->|Hn].
  - apply wp_bind, wp_ret. apply wp_bind. apply (wp_get_conn _ _ _ c); [done|].
    apply wp_bind, wp_call_net. intros [] n2 [= <-]. simpl.
    apply wp_bind. apply (wp_upd_conn _ _ _ c); [done|].
    apply wp_bind. eapply wp_upd_conn; [by eapply conn_at_put_eq|]. rewrite put_put.
    eapply wp_upd_conn; [by eapply conn_at_put_eq|]. rewrite put_put. eauto.
  - apply wp_ret. eauto.
Qed.

Lemma process_connection_closed {N U} fuel tcp_cb dcb i c (w : world N U) :
  conn_at w i = Some c → socket_fd c < 0 → process_connection fuel tcp_cb dcb i w = Done (tt, w).
Proof.
  intros Hc Hfd. unfold process_connection. cbv [mbind ST_bind]. unfold get_conn at 1. rewrite Hc.
  by rewrite (proj2 (Z.leb_gt _ _)) by lia.
Qed.

Lemma frame_total_header h rest : header_ok h → doip_validate_header (Some h) = true →
  frame_total (header_bytes h ++ rest) = 8 + payload_length h.
Proof.
  intros (?&?&?&Hl) Hv. unfold header_bytes. simpl. rewrite of_be32_be32 by done. apply u32_small.
  unfold doip_validate_header in Hv. revert Hv.
  destruct (_ && (DOIP_MAX_PAYLOAD_SIZE <? _)) eqn:E; [done|]. intros Hv. rewrite Hv in E. simpl in E.
  apply Z.ltb_ge in E. unfold DOIP_MAX_PAYLOAD_SIZE in E. unfold is_u32 in *. lia.
Qed.

(** Repeating a body [k] times, with an invariant indexed by the round. *)
Lemma wp_rounds {D : Prop} {S I} (P : nat → S → Prop) (i : I) (body : I → ST S unit) k :
  (∀ j s, P j s → wp D (body i) (λ _, P (Datatypes.S j)) s) →
  ∀ j s, P j s → wp D (for_each (replicate k i) body) (λ _, P (j + k)%nat) s.
Proof.
  intros Hb. induction k as [|k IH]; intros j s Hs; simpl.
  - apply wp_ret. by rewrite Nat.add_0_r.
  - apply wp_bind. eapply wp_mono; [by apply Hb|]. intros [] s2 Hs2.
    replace (j + Datatypes.S k)%nat with (Datatypes.S j + k)%nat by lia. by apply IH.
Qed.

Section oversized.
Context {N : Type} (ops : doip_network_ops_t N) `{!NetLaws ops}.
Context (fd : Z) (holds : N → bytes → Prop) `{!TcpStream ops fd holds}.
Context (u : bytes) (Hlen : 4096 < len u) (Htotal : 4096 < frame_total u).

(** The connection never gets past the first 4096 bytes of [u]: it is closed,
    or its buffer is full. *)
Definition stalled (c : doip_tcp_connection_t) : Prop :=
  socket_fd c < 0 ∨
  (0 <= socket_fd c ∧ rx_buffer_used c = DOIP_RX_BUFFER_SIZE ∧ pending c = take 4096 u).

(** After [j] rounds it is stalled, or it has read at least [j] bytes. *)
Definition progress (i : Z) (log : list bytes) (j : nat) (w : world N (list bytes)) : Prop :=
  recorded ops w log ∧ ∃ c, conn_at w i = Some c ∧ conn_ok c ∧
  (stalled c ∨ (socket_fd c = fd ∧ Z.of_nat j <= rx_buffer_used c ∧
                ∃ v, holds (w_net w) v ∧ u = pending c ++ v)).

Lemma prefix_stalled c v : conn_ok c → 0 <= socket_fd c → rx_buffer_used c = DOIP_RX_BUFFER_SIZE →
  u = pending c ++ v → stalled c.
Proof.
  intros Hok Hfd Hu Hp. right. split_and!; [done|done|]. rewrite Hp.
  pose proof (len_pending c Hok) as Hl. unfold DOIP_RX_BUFFER_SIZE, len in *.
  symmetry. apply take_app_length'. lia.
Qed.

Lemma full_round fuel i log j w c :
  recorded ops w log → conn_at w i = Some c → conn_ok c → 0 <= socket_fd c →
  rx_buffer_used c = DOIP_RX_BUFFER_SIZE → stalled c →
  wp False (process_connection fuel (Some record_message) None i) (λ _, progress i log j) w.
Proof.
  intros Hw Hc Hok Hfd Hfull Hst.
  eapply wp_mono; [apply (process_connection_full fuel _ i c); try done; by destruct Hw as [-> _]|].
  intros [] w' [n' [->| ->]].
  - split; [by destruct Hw|]. exists c. split_and!; [done..|by left].
  - split; [by destruct Hw|]. exists (closed c). split_and!; [by eapply conn_at_put_eq| |by left; left].
    destruct Hok as (?&?&?). split_and!; try done; simpl; unfold DOIP_RX_BUFFER_SIZE; lia.
Qed.

Lemma oversized_round fuel i log j w : 0 <= fd → (4096 < fuel)%nat →
  progress i log j w →
  wp False (process_connection fuel (Some record_message) None i) (λ _, progress i log (S j)) w.
Proof.
  intros Hfd0 Hfuel (Hw&c&Hc&Hok&[[Hs|(Hs&Hfull&Hp)]|(Hs&Hj&v&Hv&Hu)]).
  - eapply wp_intro; [by eapply process_connection_closed|]. split; [done|].
    exists c. split_and!; [done..|by left; left].
  - eapply full_round; try done. by right.
  - destruct (decide (rx_buffer_used c = DOIP_RX_BUFFER_SIZE)) as [Hfull|Hfull].
    { eapply full_round; try done; [lia|]. eapply prefix_stalled; try done. lia. }
    pose proof Hok as (Hl&Hb&Hr). pose proof (len_pending c Hok) as Hlp. unfold DOIP_RX_BUFFER_SIZE in *.
    assert (len u = len (pending c) + len v) as Hlu by by rewrite Hu, len_app.
    assert (v ≠ []) as Hv0 by (intros ->; rewrite len_nil in Hlu; lia).
    destruct (stream_data (w_net w) v (DOIP_RX_BUFFER_SIZE - rx_buffer_used c) Hv Hv0)
      as (d&v'&n'&->&Hd&Hrecv&Hn'); [unfold DOIP_RX_BUFFER_SIZE; lia|].
    rewrite <- Hs in Hrecv. destruct (tcp_recv_law _ _ _ _ _ _ Hrecv Hd) as (_&Hle&_).
    unfold DOIP_RX_BUFFER_SIZE in Hle.
    assert (framed (pending c ++ d) [] (pending c ++ d)) as Hf.
    { constructor. rewrite len_app. destruct (decide (len (pending c ++ d) < 8)) as [H8|H8].
      - left. rewrite len_app in H8. lia.
      - right. rewrite app_assoc in Hu. rewrite Hu in Htotal. rewrite frame_total_app in Htotal by lia. lia. }
    eapply wp_mono; [apply (record_round ops fuel None i w log c d n' [] (pending c ++ d)); try done; lia|].
    intros [] w' (c'&Hw'&Hnet&Hc'&Hok'&Hslot&Hp'). rewrite app_nil_r in Hw'.
    split; [done|]. exists c'. split_and!; [done..|]. right. split_and!.
    + by destruct Hslot as [-> _].
    + rewrite <- (len_pending c' Hok'), Hp', len_app. lia.
    + exists v'. rewrite Hnet, Hp', <- app_assoc. done.
Qed.

Lemma oversized_rounds fuel k i w log c : 0 <= fd → (4096 < fuel)%nat →
  recorded ops w log → conn_at w i = Some c → conn_ok c → socket_fd c = fd → rx_buffer_used c = 0 →
  holds (w_net w) u →
  wp False (for_each (replicate k i) (process_connection fuel (Some record_message) None))
    (λ _ w', w_user w' = log ∧ (4096 <= Z.of_nat k → ∃ c', conn_at w' i = Some c' ∧ stalled c')) w.
Proof.
  intros Hfd0 Hfuel Hw Hc Hok Hs H0 Hn. eapply wp_mono.
  - apply (wp_rounds (progress i log)) with (j := 0%nat); [intros; by apply oversized_round|].
    split; [done|]. exists c. split_and!; [done..|]. right. split_and!; [done|lia|].
    exists u. split; [done|]. unfold pending. by rewrite H0.
  - intros [] w' ([_ Hlog]&c'&Hc'&Hok'&Hst). split; [done|]. intros Hk. exists c'. split; [done|].
    destruct Hst as [|(Hs'&Hj&v&_&Hu)]; [done|]. pose proof Hok' as (_&_&?).
    eapply prefix_stalled; try done; unfold DOIP_RX_BUFFER_SIZE in *; lia.
Qed.
End oversized.

(** A message that [doip_validate_header] accepts but whose payload
    is longer than 4088 bytes is never delivered: it does not fit in the 4096
    bytes of the receive buffer with its header. However the network cuts it,
    the callback is not called, and after 4096 rounds the connection is either
    closed or stuck with a full buffer, in which case the loop asks the network for 0
    bytes from then on. *)
Theorem oversized_message_never_delivered {N} ops fd holds `{!NetLaws ops} `{!@TcpStream N ops fd holds}
    k i w log c h body fuel :
  recorded ops w log → conn_at w i = Some c → conn_ok c → socket_fd c = fd → 0 <= fd →
  rx_buffer_used c = 0 → header_ok h → doip_validate_header (Some h) = true →
  4088 < payload_length h → len body = payload_length h → holds (w_net w) (header_bytes h ++ body) →
  (4096 < fuel)%nat →
  wp False (for_each (replicate k i) (process_connection fuel (Some record_message) None))
    (λ _ w', w_user w' = log ∧
       (4096 <= Z.of_nat k → ∃ c', conn_at w' i = Some c' ∧ stalled (header_bytes h ++ body) c')) w.
Proof.
  intros Hw Hc Hok Hs Hfd H0 Hh Hv Hlong Hbody Hn Hfuel.
  eapply (oversized_rounds ops fd holds (header_bytes h ++ body)); try done.
  - rewrite len_app, len_header_bytes. lia.
  - rewrite frame_total_header by done. lia.
Qed.

Lemma oversized_message_never_delivered_witness :
  let h := header_2019 DOIP_PAYLOAD_TYPE_DIAG_MESSAGE 4096 in
  let body := replicate (Z.to_nat 4096) 0 in
  let w := World (Script.iface Script.open_slot Script.empty_slot)
                 (Script.Network (header_bytes h ++ body) [] [] [] []) [] in
  wp False (for_each (replicate (Z.to_nat 5000) 0) (process_connection (Z.to_nat 4097) (Some record_message) None))
    (λ _ w', w_user w' = [] ∧
       (4096 <= Z.of_nat (Z.to_nat 5000) →
        ∃ c', conn_at w' 0 = Some c' ∧ stalled (header_bytes h ++ body) c')) w.
Proof.
  intros h body w.
  apply (oversized_message_never_delivered Script.ops 7 (λ n u, Script.stream n = u ∧ bytes_ok u)
           (Z.to_nat 5000) 0 w [] Script.open_slot h body (Z.to_nat 4097)).
  - done.
  - done.
  - apply Script.open_slot_ok.
  - done.
  - done.
  - done.
  - by_compute.
  - by vm_compute.
  - by vm_compute.
  - by vm_compute.
  - split; [done|]. apply bytes_ok_app; [by_compute|apply Script.replicate_zero_ok].
  - lia.
Defined.

(** ** Accepting and sending *)

(** The first closed slot, in index order. *)
Definition first_free (cs : list doip_tcp_connection_t) : option (nat * doip_tcp_connection_t) :=
  list_find (λ c, state c = DOIP_CONN_STATE_CLOSED) cs.

Lemma find_free_connection_first {N U} (w : world N U) :
  length (connections (w_iface w)) = 2%nat →
  find_free_connection w =
    Done (match first_free (connections (w_iface w)) with Some (i, _) => Z.of_nat i | None => -1 end, w).
Proof.
  intros Hl. destruct w as [[ops us ls cs ub] net usr]; simpl in *.
  destruct cs as [|c0 [|c1 [|]]]; try done.
  unfold find_free_connection, first_free, conn_ids. cbn [list_find].
  cbv [for_find mbind ST_bind mret ST_ret]. unfold get_conn, conn_at; simpl.
  change (Z.to_nat 1) with 1%nat. simpl. repeat (case_decide; simpl); done.
Qed.

(** An incoming connection goes to the first closed slot, in
    the state PENDING_ACTIVATION with an empty receive buffer, and the
    connected callback runs on the resulting state; the other slots are not
    touched. When no slot is closed, the new socket is closed again, no
    callback runs and every slot is unchanged. *)
Theorem accept_takes_first_free {N U} (cb : @doip_tcp_connected_callback_t N U) w fd n :
  length (connections (w_iface w)) = 2%nat → 0 <= tcp_listen_socket (w_iface w) →
  tcp_accept (net_ops (w_iface w)) (tcp_listen_socket (w_iface w)) (w_net w) = (fd, n) → 0 <= fd →
  process_accept (Some cb) w =
    match first_free (connections (w_iface w)) with
    | Some (i, c) => cb (Z.of_nat i) (put_conn (Z.of_nat i) (accepted fd c) (set_net n w))
    | None => Done (tt, set_net (close_socket (net_ops (w_iface w)) fd n) w)
    end.
Proof.
  intros Hl Hls Hacc Hfd. unfold process_accept. cbv [mbind ST_bind gets call_net].
  rewrite (proj2 (Z.leb_le _ _)) by lia. rewrite Hacc. rewrite (proj2 (Z.leb_le _ _)) by lia.
  rewrite (find_free_connection_first (set_net n w)) by done. simpl w_iface.
  destruct (first_free _) as [[i c]|] eqn:E; [|done].
  apply list_find_Some in E as (Hi&_&_). rewrite (proj2 (Z.leb_le _ _)) by lia.
  assert (∀ w' : world N U, conn_at w' (Z.of_nat i) = connections (w_iface w') !! i) as Hat.
  { intros w'. unfold conn_at. rewrite (proj2 (Z.leb_le _ _)) by lia. by rewrite Nat2Z.id. }
  assert (conn_at (set_net n w) (Z.of_nat i) = Some c) as Hc by by rewrite Hat.
  unfold upd_conn at 1. rewrite Hc.
  repeat (unfold upd_conn at 1; erewrite conn_at_put_eq by (try exact Hc; by eapply conn_at_put_eq);
          rewrite put_put).
  done.
Qed.

Lemma accept_takes_first_free_witness :
  let w := World (Script.iface Script.open_slot Script.empty_slot)
                 (Script.Network [] [] [9] [] []) [] in
  process_accept (Some (λ i, modify (λ w, set_user (w_user w ++ [i]) w))) w =
    Done (tt, World (Script.iface Script.open_slot (accepted 9 Script.empty_slot)) Script.quiet [1]).
Proof.
  intros w.
  by rewrite (accept_takes_first_free _ w 9 Script.quiet).
Defined.

(** What [doip_interface_tcp_send] does with a message [d] at the start of the
    caller's buffer. *)
Lemma tcp_send_closed {N U} (w : world N U) i c d n :
  conn_at w i = Some c → i ∈ conn_ids → socket_fd c < 0 →
  doip_interface_tcp_send OBJ i (Some d) n w = Done (DOIP_RESULT_NOT_READY, w).
Proof.
  intros Hc Hi Hfd. unfold doip_interface_tcp_send.
  apply conn_ids_range in Hi.
  change DOIP_MAX_CONNECTIONS with 2.
  rewrite (proj2 (Z.ltb_ge _ _)), (proj2 (Z.leb_gt 2 i)) by lia. cbv [orb mbind ST_bind].
  unfold get_conn. rewrite Hc. by rewrite (proj2 (Z.ltb_lt _ _)) by lia.
Qed.

Lemma tcp_send_open {N U} (w : world N U) i c d rest :
  conn_at w i = Some c → i ∈ conn_ids → 0 <= socket_fd c →
  doip_interface_tcp_send OBJ i (Some (d ++ rest)) (len d) w =
    Done (let '(r, n) := tcp_send (net_ops (w_iface w)) (socket_fd c) d (w_net w) in
          (if 0 <=? r then DOIP_RESULT_OK else DOIP_RESULT_ERROR, set_net n w)).
Proof.
  intros Hc Hi Hfd. unfold doip_interface_tcp_send.
  apply conn_ids_range in Hi.
  change DOIP_MAX_CONNECTIONS with 2.
  rewrite (proj2 (Z.ltb_ge _ _)), (proj2 (Z.leb_gt 2 i)) by lia. cbv [orb mbind ST_bind].
  unfold get_conn. rewrite Hc. rewrite (proj2 (Z.ltb_ge _ _)) by lia. unfold lift.
  rewrite slice_prefix by done. unfold call_net. by destruct (tcp_send _ _ _ _).
Qed.
