(* ===== verification/LwipAdapter.v ===== *)
(** * The lwIP adapter

    [src/doip/doip_lwip_adapter.c]: the network operations of the stack on the
    BSD socket calls of lwIP. The socket calls are a parameter: a record of
    functions on the network state, with the documented behaviour the adapter
    relies on as the class [SocketLaws]. *)

From Stdlib Require Import ZArith Lia.
From Stdlib Require Import Strings.String.
From stdpp Require Import gmap.
From S2P Require Import Prelude DoipProtocol DoipInterface.
Local Open Scope list_scope.
Local Open Scope Z_scope.

Definition AF_INET : Z := 2.
Definition SOCK_STREAM : Z := 1.
Definition SOCK_DGRAM : Z := 2.
Definition INADDR_ANY : Z := 0.
Definition O_NONBLOCK : Z := 1.

Record sockaddr_in := SockaddrIn { sin_family : Z; sin_port : Z; sin_addr : Z }.

(** The socket calls. A call that fills in a buffer or an address returns it. *)
Record socket_api (N : Type) := SocketApi {
  socket : Z → Z → Z → N → Z * N;
  setsockopt_broadcast : Z → Z → N → Z * N;
  fcntl_getfl : Z → N → Z * N;
  fcntl_setfl : Z → Z → N → Z * N;
  bind : Z → sockaddr_in → N → Z * N;
  listen : Z → Z → N → Z * N;
  accept : Z → N → Z * N;
  connect : Z → sockaddr_in → N → Z * N;
  sendto : Z → bytes → sockaddr_in → N → Z * N;
  send : Z → bytes → N → Z * N;
  recvfrom : Z → Z → N → Z * bytes * sockaddr_in * N;
  recv : Z → Z → N → Z * bytes * N;
  close : Z → N → N;
  inet_pton : string → option Z;
  inet_ntop : Z → string;
}.
Arguments socket {N}. Arguments setsockopt_broadcast {N}. Arguments fcntl_getfl {N}.
Arguments fcntl_setfl {N}. Arguments bind {N}. Arguments listen {N}. Arguments accept {N}.
Arguments connect {N}. Arguments sendto {N}. Arguments send {N}. Arguments recvfrom {N}.
Arguments recv {N}. Arguments close {N}. Arguments inet_pton {N}. Arguments inet_ntop {N}.
Arguments SocketApi {N}.

(** The byte order conversions on this little-endian processor. *)
Definition htons (x : Z) : Z := u16 (Z.lor (Z.shiftl (Z.land x 0xFF) 8) (Z.shiftr x 8)).
Definition ntohs : Z → Z := htons.

Section adapter.
Context {N : Type} (api : socket_api N).

Definition lwip_udp_bind (port : Z) (n : N) : Z * N :=
  let '(sock, n) := socket api AF_INET SOCK_DGRAM 0 n in
  if sock <? 0 then (-1, n) else
  let '(_, n) := setsockopt_broadcast api sock 1 n in
  let '(flags, n) := fcntl_getfl api sock n in
  let '(_, n) := fcntl_setfl api sock (Z.lor flags O_NONBLOCK) n in
  let addr := SockaddrIn AF_INET (htons port) INADDR_ANY in
  let '(r, n) := bind api sock addr n in
  if r <? 0 then (-1, close api sock n) else (sock, n).

(** [memset] clears the address; [inet_pton] leaves it so on a bad string. *)
Definition lwip_udp_sendto (sock : Z) (data : bytes) (ip : string) (port : Z) (n : N) : Z * N :=
  let dest_addr := SockaddrIn AF_INET (htons port) (default 0 (inet_pton api ip)) in
  sendto api sock data dest_addr n.

Definition lwip_udp_recvfrom (sock max : Z) (n : N) : Z * bytes * string * Z * N :=
  let '(ret, buf, src_addr, n) := recvfrom api sock max n in
  if 0 <? ret then (ret, buf, inet_ntop api (sin_addr src_addr), ntohs (sin_port src_addr), n)
  else (ret, buf, EmptyString, 0, n).

Definition lwip_tcp_listen (port : Z) (n : N) : Z * N :=
  let '(sock, n) := socket api AF_INET SOCK_STREAM 0 n in
  if sock <? 0 then (-1, n) else
  let '(flags, n) := fcntl_getfl api sock n in
  let '(_, n) := fcntl_setfl api sock (Z.lor flags O_NONBLOCK) n in
  let addr := SockaddrIn AF_INET (htons port) INADDR_ANY in
  let '(r, n) := bind api sock addr n in
  if r <? 0 then (-1, close api sock n) else
  let '(r, n) := listen api sock 5 n in
  if r <? 0 then (-1, close api sock n) else (sock, n).

Definition lwip_tcp_accept (listen_sock : Z) (n : N) : Z * N :=
  let '(client_sock, n) := accept api listen_sock n in
  if 0 <=? client_sock then
    let '(flags, n) := fcntl_getfl api client_sock n in
    let '(_, n) := fcntl_setfl api client_sock (Z.lor flags O_NONBLOCK) n in
    (client_sock, n)
  else (client_sock, n).

Definition lwip_tcp_connect (ip : string) (port : Z) (n : N) : Z * N :=
  let '(sock, n) := socket api AF_INET SOCK_STREAM 0 n in
  if sock <? 0 then (-1, n) else
  let addr := SockaddrIn AF_INET (htons port) (default 0 (inet_pton api ip)) in
  let '(r, n) := connect api sock addr n in
  if r <? 0 then (-1, close api sock n) else (sock, n).

Definition lwip_tcp_send (sock : Z) (data : bytes) (n : N) : Z * N := send api sock data n.
Definition lwip_tcp_recv (sock max : Z) (n : N) : Z * bytes * N := recv api sock max n.
Definition lwip_close_socket (sock : Z) (n : N) : N := close api sock n.

Definition doip_lwip_adapter_init : doip_result_t := DOIP_RESULT_OK.

Definition g_lwip_net_ops : doip_network_ops_t N := {|
  udp_bind := lwip_udp_bind;
  udp_sendto := lwip_udp_sendto;
  udp_recvfrom := lwip_udp_recvfrom;
  tcp_listen := lwip_tcp_listen;
  tcp_accept := lwip_tcp_accept;
  tcp_connect := lwip_tcp_connect;
  tcp_send := lwip_tcp_send;
  tcp_recv := lwip_tcp_recv;
  close_socket := lwip_close_socket;
|}.
End adapter.

(** ** What the adapter relies on *)

(** The receive calls return at most as many bytes as asked for. *)
Class RecvLaws {N} (api : socket_api N) : Prop := {
  recv_law : ∀ s max n r d n', recv api s max n = (r, d, n') → 0 < r → len d = r ∧ r <= max ∧ bytes_ok d;
  recvfrom_law : ∀ s max n r d a n',
    recvfrom api s max n = (r, d, a, n') → 0 < r → len d = r ∧ r <= max ∧ bytes_ok d;
}.

(** Descriptors: [opened n] are those open in the network state [n], and
    [nonblocking n] those in non-blocking mode. [socket] and [accept] return a
    new, blocking descriptor or fail without effect; [close] frees one; the mode
    is set by [fcntl]; no other call changes either set. *)
Class SocketLaws {N} (api : socket_api N) (opened nonblocking : N → gset Z) : Prop := {
  socket_law : ∀ af t p n s n', socket api af t p n = (s, n') →
    if decide (0 <= s)
    then (s ∉ opened n) ∧ opened n' = {[s]} ∪ opened n ∧ nonblocking n' = nonblocking n ∖ {[s]}
    else opened n' = opened n ∧ nonblocking n' = nonblocking n;
  accept_law : ∀ l n s n', accept api l n = (s, n') →
    if decide (0 <= s)
    then (s ∉ opened n) ∧ opened n' = {[s]} ∪ opened n ∧ nonblocking n' = nonblocking n ∖ {[s]}
    else opened n' = opened n ∧ nonblocking n' = nonblocking n;
  close_law : ∀ s n, opened (close api s n) = opened n ∖ {[s]} ∧
                     nonblocking (close api s n) = nonblocking n ∖ {[s]};
  setfl_law : ∀ s f n, let n' := (fcntl_setfl api s f n).2 in
    opened n' = opened n ∧
    nonblocking n' = if Z.testbit f 0 then {[s]} ∪ nonblocking n else nonblocking n ∖ {[s]};
  setsockopt_law : ∀ s v n, let n' := (setsockopt_broadcast api s v n).2 in
    opened n' = opened n ∧ nonblocking n' = nonblocking n;
  getfl_law : ∀ s n, let n' := (fcntl_getfl api s n).2 in
    opened n' = opened n ∧ nonblocking n' = nonblocking n;
  bind_law : ∀ s a n, let n' := (bind api s a n).2 in
    opened n' = opened n ∧ nonblocking n' = nonblocking n;
  listen_law : ∀ s b n, let n' := (listen api s b n).2 in
    opened n' = opened n ∧ nonblocking n' = nonblocking n;
  connect_law : ∀ s a n, let n' := (connect api s a n).2 in
    opened n' = opened n ∧ nonblocking n' = nonblocking n;
}.

Lemma testbit_nonblock f : Z.testbit (Z.lor f O_NONBLOCK) 0 = true.
Proof. rewrite Z.lor_spec. apply orb_true_r. Qed.

Lemma htons_range x : is_u16 (htons x).
Proof. apply u16_range. Qed.

Lemma ntohs_htons x : is_u16 x → ntohs (htons x) = x.
Proof.
  unfold is_u16. intros Hx. assert (∀ y, 0 <= y < 2 ^ 16 → htons y = y mod 256 * 256 + y / 256) as H.
  { intros y Hy. unfold htons. change 0xFF with (Z.ones 8). rewrite Z.land_ones by lia.
    rewrite Z.shiftr_div_pow2 by lia. change (2 ^ 8) with 256.
    rewrite lor_shiftl_low; [|lia|Z.to_euclidean_division_equations; lia].
    apply u16_small. unfold is_u16. change (2 ^ 8) with 256. Z.to_euclidean_division_equations; lia. }
  unfold ntohs. rewrite (H x Hx), H; Z.to_euclidean_division_equations; lia.
Qed.

(** The interface's contract with the network, discharged. *)
#[export] Instance adapter_net_laws {N} (api : socket_api N) `{!RecvLaws api} : NetLaws (g_lwip_net_ops api).
Proof.
  split; simpl.
  - intros s n net r d net' H Hr. by eapply recv_law.
  - intros s n net r d ip p net'. unfold lwip_udp_recvfrom.
    destruct (recvfrom api s n net) as [[[ret buf] a] n1] eqn:E. destruct (Z.ltb_spec 0 ret); intros; simplify_eq.
    + destruct (recvfrom_law _ _ _ _ _ _ _ E) as (?&?&?); [done|]. split_and!; try done. apply htons_range.
    + lia.
Qed.

Section sockets.
Context {N : Type} (api : socket_api N) (opened nonblocking : N → gset Z) (L : SocketLaws api opened nonblocking).

(** The outcome of an operation that creates a socket: [r] is the only new
    descriptor, or nothing was left open. *)
Definition creates (nb : bool) (n : N) (r : Z) (n' : N) : Prop :=
  if decide (0 <= r)
  then (r ∉ opened n) ∧ opened n' = {[r]} ∪ opened n ∧
       nonblocking n' = (if nb then {[r]} ∪ nonblocking n else nonblocking n ∖ {[r]})
  else opened n' = opened n.

(** Same descriptors and same modes. *)
Definition same_fds (n n' : N) : Prop := opened n' = opened n ∧ nonblocking n' = nonblocking n.

Lemma creates_ok (nb : bool) (n n1 n2 : N) (s : Z) : 0 <= s → (s ∉ opened n) → opened n1 = {[s]} ∪ opened n →
  nonblocking n1 = (if nb then {[s]} ∪ nonblocking n else nonblocking n ∖ {[s]}) → same_fds n1 n2 →
  creates nb n s n2.
Proof. intros Hs Hf Ho Hn [E1 E2]. unfold creates. rewrite decide_True by done. rewrite E1, E2. by split_and!. Qed.

Lemma creates_closed (n n1 : N) (s : Z) : (s ∉ opened n) → opened n1 = {[s]} ∪ opened n →
  opened (close api s n1) = opened n.
Proof. intros Hf Ho. destruct (@close_law _ _ _ _ L s n1) as [-> _]. rewrite Ho. set_solver. Qed.

Lemma set_nonblocking (s : Z) (n n' : N) : nonblocking n' = nonblocking n ∖ {[s]} → 
  {[s]} ∪ nonblocking n' = {[s]} ∪ nonblocking n.
Proof. intros ->. apply set_eq. intros x. destruct (decide (x = s)); set_solver. Qed.

Lemma udp_bind_creates port n r n' : lwip_udp_bind api port n = (r, n') → creates true n r n'.
Proof.
  unfold lwip_udp_bind. destruct (socket api _ _ _ n) as [s n1] eqn:E1.
  pose proof (@socket_law _ _ _ _ L _ _ _ _ _ _ E1) as Hs.
  destruct (Z.ltb_spec s 0); [intros; simplify_eq; rewrite decide_False in Hs by lia; by destruct Hs|].
  rewrite decide_True in Hs by lia. destruct Hs as (Hf&Ho1&Hn1).
  pose proof (@setsockopt_law _ _ _ _ L s 1 n1) as H2. destruct (setsockopt_broadcast api s 1 n1) as [x2 n2].
  pose proof (@getfl_law _ _ _ _ L s n2) as H3. destruct (fcntl_getfl api s n2) as [fl n3].
  pose proof (@setfl_law _ _ _ _ L s (Z.lor fl O_NONBLOCK) n3) as H4. rewrite testbit_nonblock in H4.
  destruct (fcntl_setfl api s _ n3) as [x4 n4].
  match goal with |- context [bind api s ?a n4] => pose proof (@bind_law _ _ _ _ L s a n4) as H5; destruct (bind api s a n4) as [r5 n5] end.
  cbn [fst snd] in *. destruct H2, H3, H4, H5.
  assert (opened n5 = {[s]} ∪ opened n) as Ho5 by congruence.
  assert (nonblocking n5 = {[s]} ∪ nonblocking n) as Hn5.
  { rewrite <- (set_nonblocking s n n1 Hn1). congruence. }
  destruct (r5 <? 0); intros [= <- <-].
  - apply (creates_closed n n5 s Hf Ho5).
  - by apply (creates_ok true n n5 n5).
Qed.

Lemma tcp_listen_creates port n r n' : lwip_tcp_listen api port n = (r, n') → creates true n r n'.
Proof.
  unfold lwip_tcp_listen. destruct (socket api _ _ _ n) as [s n1] eqn:E1.
  pose proof (@socket_law _ _ _ _ L _ _ _ _ _ _ E1) as Hs.
  destruct (Z.ltb_spec s 0); [intros; simplify_eq; rewrite decide_False in Hs by lia; by destruct Hs|].
  rewrite decide_True in Hs by lia. destruct Hs as (Hf&Ho1&Hn1).
  pose proof (@getfl_law _ _ _ _ L s n1) as H3. destruct (fcntl_getfl api s n1) as [fl n3].
  pose proof (@setfl_law _ _ _ _ L s (Z.lor fl O_NONBLOCK) n3) as H4. rewrite testbit_nonblock in H4.
  destruct (fcntl_setfl api s _ n3) as [x4 n4].
  match goal with |- context [bind api s ?a n4] => pose proof (@bind_law _ _ _ _ L s a n4) as H5; destruct (bind api s a n4) as [r5 n5] end.
  cbn [fst snd] in *. destruct H3, H4, H5.
  assert (opened n5 = {[s]} ∪ opened n) as Ho5 by congruence.
  assert (nonblocking n5 = {[s]} ∪ nonblocking n) as Hn5.
  { rewrite <- (set_nonblocking s n n1 Hn1). congruence. }
  destruct (r5 <? 0); [intros [= <- <-]; apply (creates_closed n n5 s Hf Ho5)|].
  pose proof (@listen_law _ _ _ _ L s 5 n5) as H6. destruct (listen api s 5 n5) as [r6 n6]. cbn [fst snd] in H6.
  destruct (r6 <? 0); intros [= <- <-].
  - apply (creates_closed n n6 s Hf). destruct H6. congruence.
  - by apply (creates_ok true n n5 n6).
Qed.

Lemma tcp_connect_creates ip port n r n' : lwip_tcp_connect api ip port n = (r, n') → creates false n r n'.
Proof.
  unfold lwip_tcp_connect. destruct (socket api _ _ _ n) as [s n1] eqn:E1.
  pose proof (@socket_law _ _ _ _ L _ _ _ _ _ _ E1) as Hs.
  destruct (Z.ltb_spec s 0); [intros; simplify_eq; rewrite decide_False in Hs by lia; by destruct Hs|].
  rewrite decide_True in Hs by lia. destruct Hs as (Hf&Ho1&Hn1).
  match goal with |- context [connect api s ?a n1] => pose proof (@connect_law _ _ _ _ L s a n1) as H5; destruct (connect api s a n1) as [r5 n5] end.
  cbn [fst snd] in *. destruct (r5 <? 0); intros [= <- <-].
  - apply (creates_closed n n5 s Hf). destruct H5. congruence.
  - by apply (creates_ok false n n1 n5).
Qed.

Lemma tcp_accept_creates l n r n' : lwip_tcp_accept api l n = (r, n') → creates true n r n'.
Proof.
  unfold lwip_tcp_accept. destruct (accept api l n) as [s n1] eqn:E1.
  pose proof (@accept_law _ _ _ _ L _ _ _ _ E1) as Hs. destruct (Z.leb_spec 0 s).
  - rewrite decide_True in Hs by lia. destruct Hs as (Hf&Ho1&Hn1).
    pose proof (@getfl_law _ _ _ _ L s n1) as H3. destruct (fcntl_getfl api s n1) as [fl n3].
    pose proof (@setfl_law _ _ _ _ L s (Z.lor fl O_NONBLOCK) n3) as H4. rewrite testbit_nonblock in H4.
    destruct (fcntl_setfl api s _ n3) as [x4 n4]. cbn [fst snd] in *. destruct H3, H4. intros [= <- <-].
    apply (creates_ok true n n4 n4); [done|done|congruence| |done].
    rewrite <- (set_nonblocking s n n1 Hn1). congruence.
  - rewrite decide_False in Hs by lia. intros; simplify_eq. unfold creates. rewrite decide_False by lia. by destruct Hs.
Qed.
End sockets.

(** C40 (safety): the adapter leaks no socket. Each of the four operations that
    create sockets returns a descriptor that was not open before and is the
    only one opened, or fails with every descriptor it opened closed again.
    The sockets for discovery, listening and accepted connections are in
    non-blocking mode, so that the reception loop never waits; the socket of an
    outgoing connection is left blocking. *)
Theorem adapter_no_leak {N} (api : socket_api N) (opened nonblocking : N → gset Z) n r n' :
  SocketLaws api opened nonblocking →
  ((∃ port, udp_bind (g_lwip_net_ops api) port n = (r, n')) → creates opened nonblocking true n r n') ∧
  ((∃ port, tcp_listen (g_lwip_net_ops api) port n = (r, n')) → creates opened nonblocking true n r n') ∧
  ((∃ l, tcp_accept (g_lwip_net_ops api) l n = (r, n')) → creates opened nonblocking true n r n') ∧
  ((∃ ip port, tcp_connect (g_lwip_net_ops api) ip port n = (r, n')) → creates opened nonblocking false n r n').
Proof.
  intros Hl. split_and!.
  - intros [port E]. by apply (udp_bind_creates api opened nonblocking Hl port).
  - intros [port E]. by apply (tcp_listen_creates api opened nonblocking Hl port).
  - intros [l E]. by apply (tcp_accept_creates api opened nonblocking Hl l).
  - intros (ip&port&E). by apply (tcp_connect_creates api opened nonblocking Hl ip port).
Qed.

(** A socket table to run the adapter on: the next descriptor, the open ones and
    the non-blocking ones; binding fails on port 1. *)
Module Sockets.
Record table := Table { next : Z; fds : gset Z; nb : gset Z }.
Definition new (n : table) : Z * table :=
  let s := fresh (fds n) in
  if 0 <=? s then (s, Table (next n) ({[s]} ∪ fds n) (nb n ∖ {[s]})) else (-1, n).
Definition api : socket_api table := {|
  socket := λ _ _ _ n, new n;
  setsockopt_broadcast := λ _ _ n, (0, n);
  fcntl_getfl := λ s n, (if decide (s ∈ nb n) then 1 else 0, n);
  fcntl_setfl := λ s f n,
    (0, Table (next n) (fds n) (if Z.testbit f 0 then {[s]} ∪ nb n else nb n ∖ {[s]}));
  bind := λ _ a n, (if sin_port a =? htons 1 then -1 else 0, n);
  listen := λ _ _ n, (0, n);
  accept := λ _ n, new n;
  connect := λ _ _ n, (0, n);
  sendto := λ _ d _ n, (len d, n);
  send := λ _ d n, (len d, n);
  recvfrom := λ _ _ n, (-1, [], SockaddrIn 0 0 0, n);
  recv := λ _ _ n, (-1, [], n);
  close := λ s n, Table (next n) (fds n ∖ {[s]}) (nb n ∖ {[s]});
  inet_pton := λ _, None;
  inet_ntop := λ _, EmptyString;
|}.

Lemma new_law n s n' : new n = (s, n') →
  if decide (0 <= s) then (s ∉ fds n) ∧ fds n' = {[s]} ∪ fds n ∧ nb n' = nb n ∖ {[s]}
  else fds n' = fds n ∧ nb n' = nb n.
Proof.
  unfold new. destruct (Z.leb_spec 0 (fresh (fds n))); intros [= <- <-].
  - rewrite decide_True by done. split; [apply is_fresh|done].
  - done.
Qed.

#[global] Instance laws : SocketLaws api fds nb.
Proof.
  split; try done.
  - intros af t p n s n'. apply new_law.
  - intros l n s n'. apply new_law.
Qed.
End Sockets.

Lemma adapter_no_leak_witness :
  let n0 := Sockets.Table 0 ∅ ∅ in
  creates Sockets.fds Sockets.nb true n0 (-1) (udp_bind (g_lwip_net_ops Sockets.api) 1 n0).2.
Proof.
  intros n0.
  destruct (adapter_no_leak Sockets.api Sockets.fds Sockets.nb n0 (-1)
              (udp_bind (g_lwip_net_ops Sockets.api) 1 n0).2 Sockets.laws) as (H&_).
  apply H. exists 1. vm_compute. reflexivity.
Defined.
