(* ===== verification/DoipEntity.v ===== *)
(** * The DoIP entity

    [src/doip/app_doip_entity.c] and [src/doip/app_doip_entity.h]: the vehicle
    side of the DoIP protocol. The entity announces itself, answers vehicle
    identification requests over UDP, activates routing for a tester, passes
    diagnostic messages to the UDS layer and closes connections on inactivity.

    The calls of [debug_print] are left out of the handlers (they touch
    nothing the handlers read; [DebugPrint] models the function), and so is the
    entity's [user_data] member, which nothing reads. *)

From Stdlib Require Import ZArith Lia.
From Stdlib Require Import Strings.String.
From S2P Require Import Prelude DoipProtocol DoipInterface.
Local Open Scope list_scope.
Local Open Scope Z_scope.

Definition DOIP_TESTER_ADDRESS_MIN : Z := 0x0E00.
Definition DOIP_TESTER_ADDRESS_MAX : Z := 0x0FFF.

(** ** Data *)

Record doip_entity_config_t := EntityConfig {
  cfg_vin : bytes;
  cfg_eid : bytes;
  cfg_gid : bytes;
  cfg_logical_address : Z;
  cfg_general_inactivity_time : Z;
  cfg_initial_inactivity_time : Z;
  cfg_alive_check_time : Z;
  cfg_max_tester_connections : Z;
}.

Record doip_entity_connection_t := EntityConnection {
  connection_id : Z;
  ec_source_address : Z;
  is_activated : bool;
  initial_inactivity_timer : Z;
  general_inactivity_timer : Z;
  alive_check_timer : Z;
  alive_check_pending : bool;
}.

(** [F] is the type of UDS callbacks (function pointers). *)
Record doip_entity_t (F : Type) := Entity {
  config : doip_entity_config_t;
  entity_interface : ptr;
  entity_connections : list doip_entity_connection_t;
  announcement_count : Z;
  announcement_timer : Z;
  uds_callback : option F;
}.
Arguments Entity {F}.
Arguments config {F}. Arguments entity_interface {F}. Arguments entity_connections {F}.
Arguments announcement_count {F}. Arguments announcement_timer {F}. Arguments uds_callback {F}.

(** What the interface's callbacks can reach: the entity, and the objects [A]
    of the application above it. *)
Record user (F A : Type) := User { u_entity : doip_entity_t F; u_app : A }.
Arguments User {F A}. Arguments u_entity {F A}. Arguments u_app {F A}.

Definition ec_with_id (v : Z) (c : doip_entity_connection_t) : doip_entity_connection_t :=
  EntityConnection v (ec_source_address c) (is_activated c) (initial_inactivity_timer c)
    (general_inactivity_timer c) (alive_check_timer c) (alive_check_pending c).
Definition ec_with_source (v : Z) (c : doip_entity_connection_t) : doip_entity_connection_t :=
  EntityConnection (connection_id c) v (is_activated c) (initial_inactivity_timer c)
    (general_inactivity_timer c) (alive_check_timer c) (alive_check_pending c).
Definition ec_with_activated (v : bool) (c : doip_entity_connection_t) : doip_entity_connection_t :=
  EntityConnection (connection_id c) (ec_source_address c) v (initial_inactivity_timer c)
    (general_inactivity_timer c) (alive_check_timer c) (alive_check_pending c).
Definition ec_with_initial (v : Z) (c : doip_entity_connection_t) : doip_entity_connection_t :=
  EntityConnection (connection_id c) (ec_source_address c) (is_activated c) v
    (general_inactivity_timer c) (alive_check_timer c) (alive_check_pending c).
Definition ec_with_general (v : Z) (c : doip_entity_connection_t) : doip_entity_connection_t :=
  EntityConnection (connection_id c) (ec_source_address c) (is_activated c)
    (initial_inactivity_timer c) v (alive_check_timer c) (alive_check_pending c).
Definition ec_with_alive (v : Z) (c : doip_entity_connection_t) : doip_entity_connection_t :=
  EntityConnection (connection_id c) (ec_source_address c) (is_activated c)
    (initial_inactivity_timer c) (general_inactivity_timer c) v (alive_check_pending c).
Definition ec_with_pending (v : bool) (c : doip_entity_connection_t) : doip_entity_connection_t :=
  EntityConnection (connection_id c) (ec_source_address c) (is_activated c)
    (initial_inactivity_timer c) (general_inactivity_timer c) (alive_check_timer c) v.

(** The value of an [uint32_t] result parameter. *)
Definition out (el : option Z) : Z := default 0 el.

Section entity.
Context {N A F : Type}.
Local Abbreviation W := (world N (user F A)).

(** Calling a UDS callback: source address, target address, data, length; its
    [user_data] is the entity. *)
Context (run_uds : F → Z → Z → bytes → Z → ST W unit).

Definition entity (w : W) : doip_entity_t F := u_entity (w_user w).
Definition set_entity (e : doip_entity_t F) (w : W) : W := set_user (User e (u_app (w_user w))) w.

Definition set_entity_conns (cs : list doip_entity_connection_t) (w : W) : W :=
  let e := entity w in
  set_entity (Entity (config e) (entity_interface e) cs (announcement_count e)
                (announcement_timer e) (uds_callback e)) w.
Definition set_announcement_count (n : Z) (w : W) : W :=
  let e := entity w in
  set_entity (Entity (config e) (entity_interface e) (entity_connections e) n
                (announcement_timer e) (uds_callback e)) w.
Definition set_announcement_timer (t : Z) (w : W) : W :=
  let e := entity w in
  set_entity (Entity (config e) (entity_interface e) (entity_connections e) (announcement_count e)
                t (uds_callback e)) w.
Definition set_uds_callback (f : option F) (w : W) : W :=
  let e := entity w in
  set_entity (Entity (config e) (entity_interface e) (entity_connections e) (announcement_count e)
                (announcement_timer e) f) w.

(** [entity->connections[i]] *)
Definition econn_at (w : W) (i : Z) : option doip_entity_connection_t :=
  if 0 <=? i then entity_connections (entity w) !! Z.to_nat i else None.
Definition get_econn (i : Z) : ST W doip_entity_connection_t := λ w,
  match econn_at w i with Some c => Done (c, w) | None => Fault end.
Definition put_econn (i : Z) (c : doip_entity_connection_t) (w : W) : W :=
  set_entity_conns (<[Z.to_nat i := c]> (entity_connections (entity w))) w.
Definition upd_econn (i : Z) (f : doip_entity_connection_t → doip_entity_connection_t) : ST W unit :=
  λ w, match econn_at w i with Some c => Done (tt, put_econn i (f c) w) | None => Fault end.

(** ** Start-up *)

Definition doip_entity_init (entity_p : ptr) (cfg : option doip_entity_config_t) (interface : ptr) :
    ST W doip_result_t :=
  match entity_p, cfg, interface with
  | OBJ, Some cfg, OBJ =>
      modify (λ w, let e := entity w in
        set_entity (Entity cfg interface (entity_connections e) 0 0 (uds_callback e)) w);;
      for_each conn_ids (λ i,
        upd_econn i (ec_with_id (-1));;
        upd_econn i (ec_with_source 0);;
        upd_econn i (ec_with_activated false);;
        upd_econn i (ec_with_initial 0);;
        upd_econn i (ec_with_general 0);;
        upd_econn i (ec_with_alive 0);;
        upd_econn i (ec_with_pending false));;
      mret DOIP_RESULT_OK
  | _, _, _ => mret DOIP_RESULT_INVALID_PARAM
  end.

Definition doip_entity_start (entity_p : ptr) : ST W doip_result_t :=
  match entity_p with
  | NULL => mret DOIP_RESULT_INVALID_PARAM
  | OBJ =>
      itf ← gets (λ w, entity_interface (entity w));
      result ← doip_interface_start_udp itf DOIP_UDP_DISCOVERY_PORT;
      if negb (bool_decide (result = DOIP_RESULT_OK)) then mret result else
      result ← doip_interface_start_tcp_server itf DOIP_TCP_DATA_PORT;
      if negb (bool_decide (result = DOIP_RESULT_OK)) then mret result else
      modify (set_announcement_count 0);;
      modify (set_announcement_timer 0);;
      mret DOIP_RESULT_OK
  end.

(** ** Vehicle identification *)

(** The response both senders fill in from the configuration. *)
Definition identification (cfg : doip_entity_config_t) : outcome doip_vehicle_id_response_t :=
  vin ← slice (cfg_vin cfg) 0 DOIP_VIN_LENGTH;
  eid ← slice (cfg_eid cfg) 0 DOIP_EID_LENGTH;
  gid ← slice (cfg_gid cfg) 0 DOIP_GID_LENGTH;
  mret (VehicleIdResponse vin (cfg_logical_address cfg) eid gid 0x00 0x00).

Definition doip_entity_send_vehicle_announcement (entity_p : ptr) : ST W doip_result_t :=
  match entity_p with
  | NULL => mret DOIP_RESULT_INVALID_PARAM
  | OBJ =>
      cfg ← gets (λ w, config (entity w));
      response ← lift (identification cfg);
      '(result, buffer, encoded_length) ←
         lift (doip_encode_vehicle_id_response (Some response) (Some (local_array 64)) 64 (Some 0));
      if negb (bool_decide (result = DOIP_RESULT_OK)) then mret result else
      itf ← gets (λ w, entity_interface (entity w));
      doip_interface_udp_broadcast itf buffer (out encoded_length) DOIP_UDP_DISCOVERY_PORT
  end.

Definition handle_vehicle_id_request (src_ip : string) (src_port payload_type : Z)
    (payload : bytes) (payload_length : Z) : ST W unit :=
  cfg ← gets (λ w, config (entity w));
  should_respond ←
    (if payload_type =? DOIP_PAYLOAD_TYPE_VEHICLE_ID_REQ then mret true
     else if payload_type =? DOIP_PAYLOAD_TYPE_VEHICLE_ID_REQ_VIN then
       if DOIP_VIN_LENGTH <=? payload_length then
         p ← lift (slice payload 0 DOIP_VIN_LENGTH);
         v ← lift (slice (cfg_vin cfg) 0 DOIP_VIN_LENGTH);
         mret (bool_decide (p = v))
       else mret false
     else if payload_type =? DOIP_PAYLOAD_TYPE_VEHICLE_ID_REQ_EID then
       if DOIP_EID_LENGTH <=? payload_length then
         p ← lift (slice payload 0 DOIP_EID_LENGTH);
         v ← lift (slice (cfg_eid cfg) 0 DOIP_EID_LENGTH);
         mret (bool_decide (p = v))
       else mret false
     else mret false);
  if should_respond : bool then
    response ← lift (identification cfg);
    '(result, buffer, encoded_length) ←
       lift (doip_encode_vehicle_id_response (Some response) (Some (local_array 64)) 64 (Some 0));
    if bool_decide (result = DOIP_RESULT_OK) then
      itf ← gets (λ w, entity_interface (entity w));
      doip_interface_udp_send itf (Some src_ip) src_port buffer (out encoded_length);;
      mret tt
    else mret tt
  else mret tt.

(** ** Routing activation *)

Definition handle_routing_activation_request (id : Z) (payload : bytes) (payload_length : Z) :
    ST W unit :=
  '(res, request) ← lift (doip_decode_routing_activation_req (Some payload) payload_length
                            (Some uninit_routing_req));
  let request := default uninit_routing_req request in
  response_code ←
    (if negb (bool_decide (res = DOIP_RESULT_OK)) then mret DOIP_ROUTING_ACT_RES_UNKNOWN_SOURCE
     else if (rreq_source_address request <? DOIP_TESTER_ADDRESS_MIN) ||
             (DOIP_TESTER_ADDRESS_MAX <? rreq_source_address request)
     then mret DOIP_ROUTING_ACT_RES_UNKNOWN_SOURCE
     else
       upd_econn id (ec_with_activated true);;
       upd_econn id (ec_with_source (rreq_source_address request));;
       cfg ← gets (λ w, config (entity w));
       upd_econn id (ec_with_general (cfg_general_inactivity_time cfg));;
       mret DOIP_ROUTING_ACT_RES_SUCCESS);
  cfg ← gets (λ w, config (entity w));
  let response := RoutingActivationRes (rreq_source_address request) (cfg_logical_address cfg)
                                       response_code 0 0 in
  '(result, buffer, encoded_length) ←
     lift (doip_encode_routing_activation_res (Some response) (Some (local_array 32)) 32 (Some 0));
  if bool_decide (result = DOIP_RESULT_OK) then
    itf ← gets (λ w, entity_interface (entity w));
    doip_interface_tcp_send itf id buffer (out encoded_length);;
    mret tt
  else mret tt.

(** ** Diagnostic messages *)

(** Encode an acknowledgement and send it (three times in the code). *)
Definition send_ack (id target_address ack_code : Z) : ST W unit :=
  cfg ← gets (λ w, config (entity w));
  '(_, buffer, ack_length) ←
     lift (doip_encode_diag_message_ack (cfg_logical_address cfg) target_address ack_code
             (Some (local_array 32)) 32 (Some 0));
  itf ← gets (λ w, entity_interface (entity w));
  doip_interface_tcp_send itf id buffer (out ack_length);;
  mret tt.

Definition handle_diagnostic_message (id : Z) (payload : bytes) (payload_length : Z) : ST W unit :=
  c ← get_econn id;
  if negb (is_activated c) then send_ack id 0x0000 DOIP_DIAG_NACK_INVALID_SOURCE else
  '(res, diag_msg) ← lift (doip_decode_diagnostic_message (Some payload) payload_length
                             (Some uninit_diag_message));
  if negb (bool_decide (res = DOIP_RESULT_OK)) then mret tt else
  let diag_msg := default uninit_diag_message diag_msg in
  let ack_target_address := dm_source_address diag_msg in
  cfg ← gets (λ w, config (entity w));
  if negb (dm_target_address diag_msg =? cfg_logical_address cfg)
  then send_ack id (dm_target_address diag_msg) DOIP_DIAG_NACK_UNKNOWN_TARGET else
  send_ack id ack_target_address 0x00;;
  cb ← gets (λ w, uds_callback (entity w));
  match cb with
  | Some f => run_uds f (dm_source_address diag_msg) (dm_target_address diag_msg)
                (default [] (dm_user_data diag_msg)) (dm_user_data_length diag_msg)
  | None => mret tt
  end;;
  cfg ← gets (λ w, config (entity w));
  upd_econn id (ec_with_general (cfg_general_inactivity_time cfg)).

(** ** The callbacks the entity gives the interface *)

Definition entity_udp_rx_callback : @doip_udp_rx_callback_t N (user F A) :=
  λ src_ip src_port data length,
  if length <? 8 then mret tt else
  '(res, header) ← lift (doip_decode_header (Some data) length (Some uninit_header));
  if negb (bool_decide (res = DOIP_RESULT_OK)) then mret tt else
  if negb (doip_validate_header header) then mret tt else
  let header := default uninit_header header in
  let t := payload_type header in
  if (t =? DOIP_PAYLOAD_TYPE_VEHICLE_ID_REQ) || (t =? DOIP_PAYLOAD_TYPE_VEHICLE_ID_REQ_EID) ||
     (t =? DOIP_PAYLOAD_TYPE_VEHICLE_ID_REQ_VIN)
  then handle_vehicle_id_request src_ip src_port t (ptr_add data 8) (payload_length header)
  else mret tt.

Definition entity_tcp_rx_callback : @doip_tcp_rx_callback_t N (user F A) :=
  λ id data length,
  '(res, header) ← lift (doip_decode_header (Some data) length (Some uninit_header));
  if negb (bool_decide (res = DOIP_RESULT_OK)) then mret tt else
  if negb (doip_validate_header header) then mret tt else
  let header := default uninit_header header in
  let t := payload_type header in
  if t =? DOIP_PAYLOAD_TYPE_ROUTING_ACTIVATION_REQ
  then handle_routing_activation_request id (ptr_add data 8) (payload_length header)
  else if t =? DOIP_PAYLOAD_TYPE_DIAG_MESSAGE
  then handle_diagnostic_message id (ptr_add data 8) (payload_length header)
  else if t =? DOIP_PAYLOAD_TYPE_ALIVE_CHECK_RES
  then upd_econn id (ec_with_pending false)
  else mret tt.

Definition entity_tcp_connected_callback : @doip_tcp_connected_callback_t N (user F A) := λ id,
  upd_econn id (ec_with_id id);;
  cfg ← gets (λ w, config (entity w));
  upd_econn id (ec_with_initial (cfg_initial_inactivity_time cfg));;
  upd_econn id (ec_with_activated false);;
  upd_econn id (ec_with_source 0).

Definition entity_tcp_disconnected_callback : @doip_tcp_disconnected_callback_t N (user F A) := λ id,
  upd_econn id (ec_with_id (-1));;
  upd_econn id (ec_with_source 0);;
  upd_econn id (ec_with_activated false);;
  upd_econn id (ec_with_initial 0);;
  upd_econn id (ec_with_general 0);;
  upd_econn id (ec_with_alive 0);;
  upd_econn id (ec_with_pending false).

Definition doip_entity_process (fuel : nat) (entity_p : ptr) (cb : option F) : ST W doip_result_t :=
  match entity_p with
  | NULL => mret DOIP_RESULT_INVALID_PARAM
  | OBJ =>
      modify (set_uds_callback cb);;
      itf ← gets (λ w, entity_interface (entity w));
      doip_interface_process fuel itf (Some entity_udp_rx_callback) (Some entity_tcp_rx_callback)
        (Some entity_tcp_connected_callback) (Some entity_tcp_disconnected_callback)
  end.

(** ** Responses and timers *)

Definition doip_entity_send_diagnostic_response (entity_p : ptr) (target_addr : Z)
    (data : option bytes) (length : Z) : ST W doip_result_t :=
  match entity_p, data with
  | OBJ, Some d =>
      found ← for_find conn_ids (λ i,
        c ← get_econn i;
        mret (if is_activated c && (ec_source_address c =? target_addr)
              then Some (connection_id c) else None));
      let target_connection := default (-1) found in
      if target_connection <? 0 then mret DOIP_RESULT_NOT_READY else
      cfg ← gets (λ w, config (entity w));
      let diag_msg := DiagnosticMessage (cfg_logical_address cfg) target_addr length (Some d) in
      '(res, buffer, encoded_length) ←
         lift (doip_encode_diagnostic_message (Some diag_msg)
                 (Some (local_array (DOIP_MAX_PAYLOAD_SIZE + 8))) (DOIP_MAX_PAYLOAD_SIZE + 8) (Some 0));
      if negb (bool_decide (res = DOIP_RESULT_OK)) then mret DOIP_RESULT_ERROR else
      itf ← gets (λ w, entity_interface (entity w));
      doip_interface_tcp_send itf target_connection buffer (out encoded_length)
  | _, _ => mret DOIP_RESULT_INVALID_PARAM
  end.

Definition update_announcement (elapsed_ms : Z) : ST W unit :=
  e ← gets entity;
  if announcement_count e <? 3 then
    if elapsed_ms <? announcement_timer e
    then modify (set_announcement_timer (u32 (announcement_timer e - elapsed_ms)))
    else
      modify (set_announcement_timer 500);;
      doip_entity_send_vehicle_announcement OBJ;;
      modify (λ w, set_announcement_count (u32 (announcement_count (entity w) + 1)) w)
  else mret tt.

Definition update_connection_timer (elapsed_ms : Z) (i : Z) : ST W unit :=
  c ← get_econn i;
  itf ← gets (λ w, entity_interface (entity w));
  if 0 <=? connection_id c then
    if negb (is_activated c) then
      if elapsed_ms <? initial_inactivity_timer c
      then upd_econn i (ec_with_initial (u32 (initial_inactivity_timer c - elapsed_ms)))
      else doip_interface_close_connection itf (connection_id c)
    else
      if elapsed_ms <? general_inactivity_timer c
      then upd_econn i (ec_with_general (u32 (general_inactivity_timer c - elapsed_ms)))
      else doip_interface_close_connection itf (connection_id c)
  else mret tt.

Definition doip_entity_update_timers (entity_p : ptr) (elapsed_ms : Z) : ST W unit :=
  match entity_p with
  | NULL => mret tt
  | OBJ =>
      update_announcement elapsed_ms;;
      for_each conn_ids (update_connection_timer elapsed_ms)
  end.
End entity.

(** ** Lemmas on the entity's connection table *)

Section econns.
Context {N A F : Type}.
Implicit Types w : world N (user F A).

Lemma econn_at_inv w i c : econn_at w i = Some c →
  0 <= i ∧ entity_connections (entity w) !! Z.to_nat i = Some c.
Proof. unfold econn_at. destruct (Z.leb_spec 0 i); [done|discriminate]. Qed.
Lemma econn_at_put_eq w i c c' : econn_at w i = Some c → econn_at (put_econn i c' w) i = Some c'.
Proof.
  intros [Hi Hl]%econn_at_inv. unfold econn_at, put_econn. rewrite (proj2 (Z.leb_le _ _)) by lia. simpl.
  apply list_lookup_insert_eq. by eapply lookup_lt_Some.
Qed.
Lemma econn_at_put_ne w i j c' : i ≠ j → 0 <= i → econn_at (put_econn i c' w) j = econn_at w j.
Proof.
  intros Hij Hi. unfold econn_at, put_econn. destruct (Z.leb_spec 0 j); [|done]. simpl.
  apply list_lookup_insert_ne. lia.
Qed.
Lemma eput_eput w i c c' : put_econn i c (put_econn i c' w) = put_econn i c w.
Proof. unfold put_econn, set_entity_conns, set_entity, set_user. simpl. by rewrite list_insert_insert_eq. Qed.

Lemma wp_get_econn D w i c (Q : doip_entity_connection_t → world N (user F A) → Prop) :
  econn_at w i = Some c → Q c w → wp D (get_econn i) Q w.
Proof. intros H ?. unfold wp, get_econn. by rewrite H. Qed.
Lemma wp_upd_econn D w i c f (Q : unit → world N (user F A) → Prop) :
  econn_at w i = Some c → Q tt (put_econn i (f c) w) → wp D (upd_econn i f) Q w.
Proof. intros H ?. unfold wp, upd_econn. by rewrite H. Qed.

(** A run of updates of one slot is one update. *)
Lemma upd_econn_eq w i c f : econn_at w i = Some c → upd_econn i f w = Done (tt, put_econn i (f c) w).
Proof. intros H. unfold upd_econn. by rewrite H. Qed.
End econns.

(** [run_updates Hc]: executes a sequence of [upd_econn] on the slot that [Hc]
    looks up. *)
Ltac run_updates Hc :=
  repeat first
    [ apply wp_bind; eapply wp_upd_econn; [first [exact Hc | by eapply econn_at_put_eq]|]; rewrite ?eput_eput
    | eapply wp_upd_econn; [first [exact Hc | by eapply econn_at_put_eq]|]; rewrite ?eput_eput ].

(** ** What a handler sends *)

Section sending.
Context {N A F : Type}.
Implicit Types w : world N (user F A).

(** The world after [m] was passed to the network for connection [i]. *)
Definition tcp_sent (i : Z) (m : bytes) (w : world N (user F A)) : world N (user F A) :=
  match conn_at w i with
  | Some c =>
      if socket_fd c <? 0 then w
      else set_net (tcp_send (net_ops (w_iface w)) (socket_fd c) m (w_net w)).2 w
  | None => w
  end.

(** The world after the datagram [m] was passed to the network. *)
Definition udp_sent (ip : string) (port : Z) (m : bytes) (w : world N (user F A)) : world N (user F A) :=
  set_net (udp_sendto (net_ops (w_iface w)) (udp_socket (w_iface w)) m ip port (w_net w)).2 w.

Lemma patch_0_app b d : len d <= len b → patch b 0 d = d ++ drop (length d) b.
Proof. apply patch_0. Qed.

Lemma wp_tcp_send D w i c d rest (Q : doip_result_t → world N (user F A) → Prop) :
  conn_at w i = Some c → i ∈ conn_ids →
  (∀ r, Q r (tcp_sent i d w)) →
  wp D (doip_interface_tcp_send OBJ i (Some (d ++ rest)) (len d)) Q w.
Proof.
  intros Hc Hi HQ. destruct (Z.ltb_spec (socket_fd c) 0) as [Hfd|Hfd].
  - eapply wp_intro; [by eapply tcp_send_closed|]. specialize (HQ DOIP_RESULT_NOT_READY).
    unfold tcp_sent in HQ. rewrite Hc, (proj2 (Z.ltb_lt _ _)) in HQ by lia. done.
  - unfold wp. erewrite tcp_send_open by done.
    unfold tcp_sent in HQ. rewrite Hc, (proj2 (Z.ltb_ge _ _)) in HQ by lia.
    destruct (tcp_send _ _ _ _) as [r n]. apply HQ.
Qed.

Lemma wp_udp_send D w ip port d rest (Q : doip_result_t → world N (user F A) → Prop) :
  (∀ r, Q r (udp_sent ip port d w)) →
  wp D (doip_interface_udp_send OBJ (Some ip) port (Some (d ++ rest)) (len d)) Q w.
Proof.
  intros HQ. unfold doip_interface_udp_send. apply wp_bind. eapply wp_lift; [by apply slice_prefix|].
  apply wp_bind, wp_gets. apply wp_bind, wp_call_net. intros r n E. apply wp_ret.
  unfold udp_sent in HQ. rewrite E in HQ. apply HQ.
Qed.

Lemma wp_udp_broadcast D w port d rest (Q : doip_result_t → world N (user F A) → Prop) :
  (∀ r, Q r (udp_sent "255.255.255.255" port d w)) →
  wp D (doip_interface_udp_broadcast OBJ (Some (d ++ rest)) (len d) port) Q w.
Proof.
  intros HQ. unfold doip_interface_udp_broadcast. apply wp_bind. eapply wp_lift; [by apply slice_prefix|].
  apply wp_bind, wp_gets. apply wp_bind, wp_call_net. intros r n E. apply wp_ret.
  unfold udp_sent in HQ. rewrite E in HQ. apply HQ.
Qed.

Lemma entity_tcp_sent i m w : entity (tcp_sent i m w) = entity w.
Proof. unfold tcp_sent. destruct (conn_at w i); [|done]. by destruct (_ <? _). Qed.
Lemma iface_tcp_sent i m w : w_iface (tcp_sent i m w) = w_iface w.
Proof. unfold tcp_sent. destruct (conn_at w i); [|done]. by destruct (_ <? _). Qed.
Lemma user_tcp_sent i m w : w_user (tcp_sent i m w) = w_user w.
Proof. unfold tcp_sent. destruct (conn_at w i); [|done]. by destruct (_ <? _). Qed.
Lemma tcp_sent_net i m w : ∃ n, tcp_sent i m w = set_net n w.
Proof.
  unfold tcp_sent. destruct (conn_at w i) as [c|].
  - destruct (_ <? _); eauto. exists (w_net w). by destruct w.
  - exists (w_net w). by destruct w.
Qed.
End sending.

(** ** Well-formed entities *)

Definition config_ok (cfg : doip_entity_config_t) : Prop :=
  len (cfg_vin cfg) = DOIP_VIN_LENGTH ∧ len (cfg_eid cfg) = DOIP_EID_LENGTH ∧
  len (cfg_gid cfg) = DOIP_GID_LENGTH ∧
  is_u16 (cfg_logical_address cfg) ∧ is_u32 (cfg_general_inactivity_time cfg) ∧
  is_u32 (cfg_initial_inactivity_time cfg).

Definition is_tester_address (a : Z) : Prop := DOIP_TESTER_ADDRESS_MIN <= a <= DOIP_TESTER_ADDRESS_MAX.

(** The state of the slot [i]: it belongs to connection [i] or to none; an
    activated one has a tester's address; timers are 32-bit. *)
Definition econn_ok (i : Z) (c : doip_entity_connection_t) : Prop :=
  (connection_id c = i ∨ connection_id c = -1) ∧
  (is_activated c = true → connection_id c = i ∧ is_tester_address (ec_source_address c)) ∧
  is_u16 (ec_source_address c) ∧
  is_u32 (initial_inactivity_timer c) ∧ is_u32 (general_inactivity_timer c).

Definition entity_ok {F} (e : doip_entity_t F) : Prop :=
  config_ok (config e) ∧ entity_interface e = OBJ ∧ length (entity_connections e) = 2%nat ∧
  (∀ i c, entity_connections e !! i = Some c → econn_ok (Z.of_nat i) c) ∧
  0 <= announcement_count e <= 3 ∧ is_u32 (announcement_timer e).

(** ** The handlers, as functions on the world *)

Definition ack_message (logical target code : Z) : bytes :=
  message_2019 (ack_type code) (ack_payload logical target code).

Lemma len_ack_message l t code : len (ack_message l t code) = 13.
Proof. done. Qed.

Definition id_message (cfg : doip_entity_config_t) : bytes :=
  message_2019 DOIP_PAYLOAD_TYPE_VEHICLE_ANNOUNCEMENT
    (vehicle_id_payload (VehicleIdResponse (cfg_vin cfg) (cfg_logical_address cfg)
                           (cfg_eid cfg) (cfg_gid cfg) 0 0)).

Definition routing_message (src logical code : Z) : bytes :=
  message_2019 DOIP_PAYLOAD_TYPE_ROUTING_ACTIVATION_RES
    (routing_res_payload (RoutingActivationRes src logical code 0 0)).

Lemma len_message_2019 t p : len (message_2019 t p) = 8 + len p.
Proof. unfold message_2019. by rewrite len_app, len_header_bytes. Qed.

Lemma len_id_message cfg : config_ok cfg → len (id_message cfg) = 41.
Proof.
  intros (Hv&He&Hg&_). unfold id_message. rewrite len_message_2019.
  unfold vehicle_id_payload. cbn [vir_vin vir_eid vir_gid vir_logical_address vir_further_action_required vir_sync_status].
  rewrite !len_app, Hv, He, Hg. done.
Qed.

Lemma identification_ok cfg : config_ok cfg →
  identification cfg =
    Done (VehicleIdResponse (cfg_vin cfg) (cfg_logical_address cfg) (cfg_eid cfg) (cfg_gid cfg) 0 0).
Proof. intros (?&?&?&_). unfold identification. by rewrite !slice_full by done. Qed.

(** The routing activation of an entity connection. *)
Definition activate (cfg : doip_entity_config_t) (src : Z) (c : doip_entity_connection_t) :
    doip_entity_connection_t :=
  ec_with_general (cfg_general_inactivity_time cfg) (ec_with_source src (ec_with_activated true c)).

#[export] Instance is_tester_address_dec a : Decision (is_tester_address a).
Proof. unfold is_tester_address. apply _. Defined.

Section handlers.
Context {N A F : Type} (run_uds : F → Z → Z → bytes → Z → ST (world N (user F A)) unit).
Implicit Types w : world N (user F A).

(** What a sender needs: the interface is there and the slot exists. *)
Definition can_send (id : Z) (w : world N (user F A)) : Prop :=
  entity_interface (entity w) = OBJ ∧ id ∈ conn_ids ∧ is_Some (conn_at w id).

Lemma send_ack_eq w id target code : can_send id w →
  send_ack id target code w =
    Done (tt, tcp_sent id (ack_message (cfg_logical_address (config (entity w))) target code) w).
Proof.
  intros (Hi&Hid&ic&Hic). apply wp_done_unit. unfold send_ack.
  apply wp_bind, wp_gets. apply wp_bind. eapply wp_lift; [by apply doip_encode_diag_message_ack_ok|].
  cbv beta iota. rewrite patch_0 by done. apply wp_bind, wp_gets. rewrite Hi.
  apply wp_bind. simpl out. fold (ack_message (cfg_logical_address (config (entity w))) target code).
  rewrite <- (len_ack_message (cfg_logical_address (config (entity w))) target code).
  eapply wp_tcp_send; [done..|]. intros r. by apply wp_ret.
Qed.
Lemma can_send_put_econn id j c w : can_send id (put_econn j c w) ↔ can_send id w.
Proof. done. Qed.

(** Routing activation, for a decoded request. *)
Definition routing_reply (id src : Z) (w : world N (user F A)) : world N (user F A) :=
  let cfg := config (entity w) in
  let w' := if bool_decide (is_tester_address src)
            then match econn_at w id with
                 | Some c => put_econn id (activate cfg src c) w
                 | None => w
                 end
            else w in
  tcp_sent id (routing_message src (cfg_logical_address cfg)
                 (if bool_decide (is_tester_address src) then DOIP_ROUTING_ACT_RES_SUCCESS
                  else DOIP_ROUTING_ACT_RES_UNKNOWN_SOURCE)) w'.

Lemma handle_routing_eq w id p n r c :
  can_send id w → econn_at w id = Some c →
  doip_decode_routing_activation_req (Some p) n (Some uninit_routing_req) = Done (DOIP_RESULT_OK, Some r) →
  handle_routing_activation_request id p n w = Done (tt, routing_reply id (rreq_source_address r) w).
Proof.
  intros Hs Hc Hd. apply wp_done_unit. unfold handle_routing_activation_request.
  apply wp_bind. eapply wp_lift; [exact Hd|]. cbv beta iota zeta. simpl default.
  set (src := rreq_source_address r).
  assert (∀ w code, can_send id w →
    wp False (
      cfg ← gets (λ w, config (entity w));
      '(result, buffer, encoded_length) ←
        lift (doip_encode_routing_activation_res
          (Some (RoutingActivationRes src (cfg_logical_address cfg) code 0 0))
          (Some (local_array 32)) 32 (Some 0));
      if bool_decide (result = DOIP_RESULT_OK) then
        itf ← gets (λ w, entity_interface (entity w));
        doip_interface_tcp_send itf id buffer (out encoded_length);; mret tt
      else mret tt)
      (λ _ w', w' = tcp_sent id (routing_message src (cfg_logical_address (config (entity w))) code) w) w) as Hsend.
  { intros w1 code (Hi1&Hid&ic&Hic). apply wp_bind, wp_gets. apply wp_bind.
    eapply wp_lift; [by apply doip_encode_routing_activation_res_ok|]. cbv beta iota.
    rewrite bool_decide_eq_true_2 by done. rewrite patch_0 by done. apply wp_bind, wp_gets. rewrite Hi1.
    apply wp_bind. simpl out. fold (routing_message src (cfg_logical_address (config (entity w1))) code).
    change 21 with (len (routing_message src (cfg_logical_address (config (entity w1))) code)).
    eapply wp_tcp_send; [done..|]. intros _. by apply wp_ret. }
  unfold routing_reply. fold src. rewrite (bool_decide_eq_true_2 (DOIP_RESULT_OK = _)) by done. cbn [negb].
  apply wp_bind. destruct (bool_decide_reflect (is_tester_address src)) as [Ht|Ht].
  - cbv iota. destruct Ht as [Ht1 Ht2].
    rewrite (proj2 (Z.ltb_ge src _)), (proj2 (Z.ltb_ge _ src)) by lia. simpl orb. cbv iota.
    apply wp_bind; eapply wp_upd_econn; [exact Hc|].
    apply wp_bind; eapply wp_upd_econn; [by eapply econn_at_put_eq|]; rewrite eput_eput.
    apply wp_bind, wp_gets.
    apply wp_bind; eapply wp_upd_econn; [by eapply econn_at_put_eq|]; rewrite eput_eput.
    apply wp_ret. rewrite Hc. eapply wp_mono; [by apply Hsend|]. by intros [] w' ->.
  - assert ((src <? DOIP_TESTER_ADDRESS_MIN) || (DOIP_TESTER_ADDRESS_MAX <? src) = true) as ->.
    { unfold is_tester_address in Ht. destruct (Z.ltb_spec src DOIP_TESTER_ADDRESS_MIN); [done|].
      destruct (Z.ltb_spec DOIP_TESTER_ADDRESS_MAX src); [done|lia]. }
    apply wp_ret. eapply wp_mono; [by apply Hsend|]. by intros [] w' ->.
Qed.

(** Diagnostic messages, for a payload that holds the two addresses. *)
Definition diag_reply (id sa ta : Z) (data : bytes) (n : Z) (w : world N (user F A)) :
    outcome (unit * world N (user F A)) :=
  let logical := cfg_logical_address (config (entity w)) in
  match econn_at w id with
  | Some c =>
      if negb (is_activated c)
      then Done (tt, tcp_sent id (ack_message logical 0 DOIP_DIAG_NACK_INVALID_SOURCE) w)
      else if negb (ta =? logical)
      then Done (tt, tcp_sent id (ack_message logical ta DOIP_DIAG_NACK_UNKNOWN_TARGET) w)
      else (match uds_callback (entity w) with
            | Some f => run_uds f sa ta data n
            | None => mret tt
            end;;
            cfg ← gets (λ w, config (entity w));
            upd_econn id (ec_with_general (cfg_general_inactivity_time cfg)))
           (tcp_sent id (ack_message logical sa 0) w)
  | None => Fault
  end.

Lemma ST_bind_eq {S B C} (m : ST S B) (k : B → ST S C) s b s' :
  m s = Done (b, s') → (m ≫= k) s = k b s'.
Proof. unfold mbind, ST_bind. by intros ->. Qed.

Lemma handle_diagnostic_eq w id sa ta d p n m0 c :
  can_send id w → econn_at w id = Some c → 4 <= n →
  doip_decode_diagnostic_message (Some p) n (Some uninit_diag_message) =
    Done (DOIP_RESULT_OK, Some (DiagnosticMessage sa ta m0 (Some d))) →
  handle_diagnostic_message run_uds id p n w = diag_reply id sa ta d m0 w.
Proof.
  intros Hs Hc Hn Hd. unfold handle_diagnostic_message, diag_reply.
  rewrite (ST_bind_eq _ _ w c w) by (unfold get_econn; by rewrite Hc). rewrite Hc.
  destruct (is_activated c); cbn [negb]; [|by apply send_ack_eq].
  rewrite (ST_bind_eq _ _ w _ w) by (unfold lift; by rewrite Hd). cbv beta iota zeta.
  rewrite (bool_decide_eq_true_2 (DOIP_RESULT_OK = _)) by done. cbn [negb]. simpl default.
  rewrite (ST_bind_eq _ _ w (config (entity w)) w) by done.
  cbn [dm_source_address dm_target_address dm_user_data_length dm_user_data default from_option].
  destruct (ta =? _); cbn [negb]; [|by apply send_ack_eq].
  rewrite (ST_bind_eq _ _ w _ _ (send_ack_eq _ _ _ _ Hs)).
  rewrite (ST_bind_eq _ _ _ (uds_callback (entity w)) (tcp_sent id
    (ack_message (cfg_logical_address (config (entity w))) sa 0) w))
    by (unfold gets; by rewrite entity_tcp_sent).
  done.
Qed.

(** A diagnostic message too short to hold them. *)
Lemma handle_diagnostic_short w id p n c :
  can_send id w → econn_at w id = Some c → n < 4 →
  handle_diagnostic_message run_uds id p n w =
    Done (tt, if is_activated c then w
              else tcp_sent id (ack_message (cfg_logical_address (config (entity w))) 0
                                  DOIP_DIAG_NACK_INVALID_SOURCE) w).
Proof.
  intros Hs Hc Hn. unfold handle_diagnostic_message.
  rewrite (ST_bind_eq _ _ w c w) by (unfold get_econn; by rewrite Hc).
  destruct (is_activated c); cbn [negb]; [|by apply send_ack_eq].
  unfold doip_decode_diagnostic_message. by rewrite (proj2 (Z.ltb_lt n 4)) by lia.
Qed.
End handlers.

Section identification.
Context {N A F : Type}.
Implicit Types w : world N (user F A).

(** Which identification requests the entity answers. *)
Definition id_matches (cfg : doip_entity_config_t) (t : Z) (payload : bytes) (n : Z) : bool :=
  if t =? DOIP_PAYLOAD_TYPE_VEHICLE_ID_REQ then true
  else if t =? DOIP_PAYLOAD_TYPE_VEHICLE_ID_REQ_VIN
  then (DOIP_VIN_LENGTH <=? n) && bool_decide (take 17 payload = cfg_vin cfg)
  else if t =? DOIP_PAYLOAD_TYPE_VEHICLE_ID_REQ_EID
  then (DOIP_EID_LENGTH <=? n) && bool_decide (take 6 payload = cfg_eid cfg)
  else false.

Lemma handle_vehicle_id_eq w ip port t p n :
  config_ok (config (entity w)) → entity_interface (entity w) = OBJ → 17 <= len p →
  handle_vehicle_id_request ip port t p n w =
    Done (tt, if id_matches (config (entity w)) t p n
              then udp_sent ip port (id_message (config (entity w))) w else w).
Proof.
  intros Hcfg Hi Hp. apply wp_done_unit. pose proof Hcfg as (Hv&He&Hg&_).
  unfold handle_vehicle_id_request. apply wp_bind, wp_gets. apply wp_bind.
  apply (wp_mono _ (λ b w', b = id_matches (config (entity w)) t p n ∧ w' = w)).
  { unfold id_matches. destruct (t =? DOIP_PAYLOAD_TYPE_VEHICLE_ID_REQ); [by apply wp_ret|].
    destruct (t =? _).
    { destruct (DOIP_VIN_LENGTH <=? n); [|by apply wp_ret]. unfold DOIP_VIN_LENGTH in *.
      apply wp_bind. eapply wp_lift; [apply slice_Done; lia|].
      apply wp_bind. eapply wp_lift; [by apply slice_full|]. by apply wp_ret. }
    destruct (t =? _); [|by apply wp_ret].
    destruct (DOIP_EID_LENGTH <=? n); [|by apply wp_ret]. unfold DOIP_EID_LENGTH in *.
    apply wp_bind. eapply wp_lift; [apply slice_Done; lia|].
    apply wp_bind. eapply wp_lift; [by apply slice_full|]. by apply wp_ret. }
  intros b w' [-> ->]. destruct (id_matches _ _ _ _); [|by apply wp_ret].
  apply wp_bind. eapply wp_lift; [by apply identification_ok|].
  apply wp_bind. eapply wp_lift; [by apply doip_encode_vehicle_id_response_ok|]. cbv beta iota.
  rewrite bool_decide_eq_true_2 by done. apply wp_bind, wp_gets. rewrite Hi. apply wp_bind.
  simpl out. rewrite <- (len_id_message (config (entity w)) Hcfg).
  rewrite patch_0.
  - apply wp_udp_send. intros r. by apply wp_ret.
  - change (len (id_message (config (entity w))) <= len (local_array 64)). by rewrite len_id_message.
Qed.

Lemma wp_send_announcement D w (Q : doip_result_t → world N (user F A) → Prop) :
  config_ok (config (entity w)) → entity_interface (entity w) = OBJ →
  (∀ r, Q r (udp_sent "255.255.255.255" DOIP_UDP_DISCOVERY_PORT (id_message (config (entity w))) w)) →
  wp D (doip_entity_send_vehicle_announcement OBJ) Q w.
Proof.
  intros Hcfg Hi HQ. pose proof Hcfg as (Hv&He&Hg&_). unfold doip_entity_send_vehicle_announcement.
  apply wp_bind, wp_gets.
  apply wp_bind. eapply wp_lift; [by apply identification_ok|].
  apply wp_bind. eapply wp_lift; [by apply doip_encode_vehicle_id_response_ok|]. cbv beta iota.
  rewrite bool_decide_eq_true_2 by done. cbn [negb]. apply wp_bind, wp_gets. rewrite Hi.
  simpl out. rewrite <- (len_id_message (config (entity w)) Hcfg).
  rewrite patch_0.
  - by apply wp_udp_broadcast.
  - change (len (id_message (config (entity w))) <= len (local_array 64)). by rewrite len_id_message.
Qed.
End identification.

(** ** The invariant *)

Section invariant.
Context {N A F : Type} (run_uds : F → Z → Z → bytes → Z → ST (world N (user F A)) unit).
Context (K : A → Prop).
Implicit Types w : world N (user F A).

(** An open slot of the interface is the entity's connection of that number,
    and a slot marked closed holds no socket. *)
Definition coupled w : Prop := ∀ i c, conn_at w i = Some c →
  (0 <= socket_fd c → ∃ e, econn_at w i = Some e ∧ connection_id e = i) ∧
  (state c = DOIP_CONN_STATE_CLOSED → socket_fd c < 0).

Definition entity_inv w : Prop :=
  iface_ok (w_iface w) ∧ NetLaws (net_ops (w_iface w)) ∧ entity_ok (entity w) ∧ coupled w ∧
  K (u_app (w_user w)).

(** What the entity asks of the UDS layer: it may use the network and its own
    objects, and keeps [K]. *)
Definition uds_layer_ok : Prop := ∀ f sa ta d n w,
  entity_inv w → uds_callback (entity w) = Some f → is_u16 sa → is_u16 ta → bytes_ok d →
  len d = 4084 → 0 <= n <= 4084 →
  wp True (run_uds f sa ta d n)
    (λ _ w', ∃ net a, w' = set_user (User (entity w) a) (set_net net w) ∧ K a) w.

Lemma inv_intro w : iface_ok (w_iface w) → NetLaws (net_ops (w_iface w)) → entity_ok (entity w) →
  coupled w → K (u_app (w_user w)) → entity_inv w.
Proof. by unfold entity_inv. Qed.

Lemma inv_econn w i : entity_inv w → i ∈ conn_ids → ∃ e, econn_at w i = Some e ∧ econn_ok i e.
Proof.
  intros (_&_&(_&_&Hl&He&_)&_) Hi%conn_ids_range.
  destruct (lookup_lt_is_Some_2 (entity_connections (entity w)) (Z.to_nat i)) as [e Hle]; [lia|].
  exists e. unfold econn_at. rewrite (proj2 (Z.leb_le _ _)) by lia. split; [done|].
  apply He in Hle. by rewrite Z2Nat.id in Hle by lia.
Qed.

Lemma inv_set_net w n : entity_inv w → entity_inv (set_net n w).
Proof. done. Qed.
Lemma inv_set_net_inv w n : entity_inv (set_net n w) → entity_inv w.
Proof. done. Qed.
Lemma inv_tcp_sent w i m : entity_inv w → entity_inv (tcp_sent i m w).
Proof. intros Hw. destruct (tcp_sent_net i m w) as [n ->]. by apply inv_set_net. Qed.
Lemma inv_udp_sent w ip p m : entity_inv w → entity_inv (udp_sent ip p m w).
Proof. intros Hw. by apply inv_set_net. Qed.
Lemma inv_uds_done w net a : entity_inv w → K a → entity_inv (set_user (User (entity w) a) (set_net net w)).
Proof. intros (?&?&?&?&?) Ha. by apply inv_intro. Qed.

Lemma inv_put_econn_gen w i e e' : entity_inv w → econn_at w i = Some e → econn_ok i e' →
  (∀ c, conn_at w i = Some c → 0 <= socket_fd c → connection_id e' = i) → entity_inv (put_econn i e' w).
Proof.
  intros (Hif&Hn&(Hcfg&Hp&Hl&He&Hcnt)&Hc&HK) Hi Hok Hid. pose proof (econn_at_inv _ _ _ Hi) as [H0 Hli].
  apply inv_intro; [done|done| |intros j c Hj; split|done].
  - split; [done|]. split; [done|]. split; [simpl; by rewrite length_insert|]. split; [|done].
    intros j e2 Hj. apply list_lookup_insert_Some in Hj as [(<-&->&_)|[_ Hj]]; [by rewrite Z2Nat.id|eauto].
  - intros Hfd. destruct (proj1 (Hc j c Hj) Hfd) as (e2&He2&Hid2).
    destruct (decide (j = i)) as [->|].
    + exists e'. split; [by eapply econn_at_put_eq|]. by eapply Hid.
    + exists e2. split; [|done]. by rewrite econn_at_put_ne.
  - apply (Hc j c Hj).
Qed.

Lemma inv_put_econn w i e e' : entity_inv w → econn_at w i = Some e → econn_ok i e' →
  (connection_id e = i → connection_id e' = i) → entity_inv (put_econn i e' w).
Proof.
  intros Hw Hi Hok Hid. eapply inv_put_econn_gen; [done..|]. intros c Hc Hfd. apply Hid.
  destruct Hw as (_&_&_&Hcp&_). destruct (proj1 (Hcp i c Hc) Hfd) as (e2&He2&<-). congruence.
Qed.

Lemma inv_put_conn w i c c' : entity_inv w → conn_at w i = Some c → conn_ok c' →
  (0 <= socket_fd c' → ∃ e, econn_at w i = Some e ∧ connection_id e = i) →
  (state c' = DOIP_CONN_STATE_CLOSED → socket_fd c' < 0) → entity_inv (put_conn i c' w).
Proof.
  intros (Hif&Hn&He&Hc&HK) Hi Hok Hfd Hst. pose proof (conn_at_inv _ _ _ Hi) as [H0 _].
  apply inv_intro; [by apply iface_ok_put|done|done| |done].
  intros j cj Hj. destruct (decide (j = i)) as [->|].
  - erewrite conn_at_put_eq in Hj by done. simplify_eq. done.
  - rewrite conn_at_put_ne in Hj by done. by apply Hc.
Qed.

Lemma inv_can_send w i : entity_inv w → i ∈ conn_ids → can_send i w.
Proof.
  intros (Hif&_&(_&Hp&_)&_) Hi. split_and!; [done|done|].
  destruct (conn_at_some w i Hif Hi) as (c&->&_). eauto.
Qed.

(** The callback once the header [h] at the front of its data is decoded. *)
Definition tcp_dispatch (h : doip_header_t) (id : Z) (p : bytes) : ST (world N (user F A)) unit :=
  let t := payload_type h in
  if t =? DOIP_PAYLOAD_TYPE_ROUTING_ACTIVATION_REQ
  then handle_routing_activation_request id p (payload_length h)
  else if t =? DOIP_PAYLOAD_TYPE_DIAG_MESSAGE
  then handle_diagnostic_message run_uds id p (payload_length h)
  else if t =? DOIP_PAYLOAD_TYPE_ALIVE_CHECK_RES
  then upd_econn id (ec_with_pending false)
  else mret tt.

Lemma tcp_callback_header w id h rest n : header_ok h →
  entity_tcp_rx_callback run_uds id (header_bytes h ++ rest) n w =
    if (n <? 8) || negb (doip_validate_header (Some h)) then Done (tt, w)
    else tcp_dispatch h id rest w.
Proof.
  intros Hh. unfold entity_tcp_rx_callback. destruct (Z.ltb_spec n 8) as [Hn|Hn]; cbn [orb].
  - unfold doip_decode_header. by rewrite (proj2 (Z.ltb_lt n 8)) by lia.
  - rewrite (ST_bind_eq _ _ w (DOIP_RESULT_OK, Some h) w)
      by (unfold lift; by rewrite doip_decode_header_bytes).
    cbv beta iota. rewrite bool_decide_eq_true_2 by done. cbn [negb].
    destruct (doip_validate_header (Some h)); cbn [negb orb]; [|done].
    cbn [default from_option]. unfold ptr_add. change (Z.to_nat 8) with 8%nat.
    by rewrite drop_header_bytes.
Qed.

Lemma routing_reply_inv w id src : entity_inv w → id ∈ conn_ids →
  (∃ ic, conn_at w id = Some ic ∧ 0 <= socket_fd ic) → is_u16 src → entity_inv (routing_reply id src w).
Proof.
  intros Hw Hid (ic&Hic&Hfd) Hsrc. unfold routing_reply. apply inv_tcp_sent.
  destruct (bool_decide_reflect (is_tester_address src)) as [Ht|]; [|done].
  destruct (inv_econn w id Hw Hid) as (e&He&Hok). rewrite He.
  destruct (Hw) as (_&_&((_&_&_&_&Hg&_)&_)&Hc&_). destruct (Hc id ic Hic) as [Hcp _].
  destruct (Hcp Hfd) as (e2&He2&Hid2). rewrite He in He2. simplify_eq He2. intros <-.
  eapply inv_put_econn; [done|done| |done].
  destruct Hok as (H1&H2&H3&H4&H5). unfold econn_ok, activate; simpl. by split_and!.
Qed.

Context (Huds : uds_layer_ok).

Lemma diag_reply_safe w id sa ta d n : entity_inv w → id ∈ conn_ids →
  is_u16 sa → is_u16 ta → bytes_ok d → len d = 4084 → 0 <= n <= 4084 →
  wp True (λ w, diag_reply run_uds id sa ta d n w)
    (λ _ w', entity_inv w' ∧ w_iface w' = w_iface w) w.
Proof.
  intros Hw Hid Hsa Hta Hd Hl Hn. unfold wp, diag_reply.
  destruct (inv_econn w id Hw Hid) as (e&He&Hok). rewrite He.
  destruct (is_activated e); cbn [negb]; [|by split; [by apply inv_tcp_sent|by rewrite iface_tcp_sent]].
  destruct (ta =? _); cbn [negb]; [|by split; [by apply inv_tcp_sent|by rewrite iface_tcp_sent]].
  set (w1 := tcp_sent _ _ _). assert (entity_inv w1) as Hw1 by by apply inv_tcp_sent.
  assert (entity w1 = entity w) as Hew by apply entity_tcp_sent.
  assert (w_iface w1 = w_iface w) as Hiw by apply iface_tcp_sent.
  match goal with |- match ?m w1 with _ => _ end => change (wp True m (λ _ w', entity_inv w' ∧ w_iface w' = w_iface w) w1) end.
  apply wp_bind.
  apply (wp_mono _ (λ _ w', entity_inv w' ∧ entity w' = entity w ∧ w_iface w' = w_iface w)).
  { destruct (uds_callback (entity w)) as [f|] eqn:Ef; [|by apply wp_ret].
    eapply wp_mono; [apply Huds; try done; by rewrite Hew|].
    intros [] w' (net&a&->&Ha). split; [by apply inv_uds_done|]. by rewrite <- Hew, <- Hiw. }
  intros [] w2 (Hw2&He2&Hi2). apply wp_bind, wp_gets.
  assert (econn_at w2 id = Some e) as Hce by (unfold econn_at; rewrite He2; exact He).
  eapply wp_upd_econn; [done|]. split; [|done].
  eapply inv_put_econn; [done|done| |done].
  destruct Hw as (_&_&((_&_&_&_&Hg&_)&_)&_). rewrite He2.
  destruct Hok as (H1&H2&H3&H4&H5). unfold econn_ok; simpl. by split_and!.
Qed.

Lemma udp_callback_safe w ip port n : entity_inv w →
  wp True (entity_udp_rx_callback ip port (udp_rx_buffer (w_iface w)) n) (λ _ w', entity_inv w') w.
Proof.
  intros Hw. pose proof Hw as ((_&_&Hbl&Hbo)&_&(Hcfg&Hp&_)&_&_).
  destruct (header_split (udp_rx_buffer (w_iface w))) as (h&rest&E&Hh);
    [rewrite Hbl; done|done|]. rewrite E. rewrite E, len_app, len_header_bytes in Hbl.
  unfold entity_udp_rx_callback. destruct (Z.ltb_spec n 8); [by apply wp_ret|].
  apply wp_bind. eapply wp_lift; [by apply doip_decode_header_bytes|]. cbv beta iota.
  rewrite bool_decide_eq_true_2 by done. cbn [negb].
  destruct (doip_validate_header (Some h)); cbn [negb]; [|by apply wp_ret].
  destruct (_ || _); [|by apply wp_ret]. eapply wp_intro.
  - apply handle_vehicle_id_eq; [done|done|].
    unfold ptr_add. rewrite drop_header_bytes. unfold DOIP_RX_BUFFER_SIZE in Hbl. lia.
  - destruct (id_matches _ _ _ _); [by apply inv_udp_sent|done].
Qed.

Lemma tcp_callback_safe w i c n : entity_inv w → conn_at w i = Some c → conn_ok c →
  0 <= socket_fd c → 8 <= rx_buffer_used c → n = frame_total (pending c) → n <= rx_buffer_used c →
  wp True (entity_tcp_rx_callback run_uds i (rx_buffer c) n)
    (λ _ w', conn_at w' i = Some c ∧ entity_inv w') w.
Proof.
  intros Hw Hc Hok Hfd H8 Hn Hle. pose proof Hok as (Hl&Hb&Hu). pose proof Hw as (Hif&_).
  destruct (conn_at_ok w i c Hif Hc) as [_ Hi].
  assert (i ∈ conn_ids) as Hid by (apply conn_ids_range; lia).
  assert (∀ w', entity_inv w' → w_iface w' = w_iface w → conn_at w' i = Some c ∧ entity_inv w') as Hdone.
  { intros w' ? E. split; [|done]. unfold conn_at. rewrite E. exact Hc. }
  destruct (header_split (rx_buffer c)) as (h&rest&E&Hh); [rewrite Hl; done|done|].
  assert (bytes_ok rest) as Hrb.
  { rewrite <- (drop_header_bytes h rest), <- E. auto with width. }
  assert (len rest = 4088) as Hrl.
  { rewrite E, len_app, len_header_bytes in Hl. unfold DOIP_RX_BUFFER_SIZE in Hl. lia. }
  unfold wp. rewrite E, tcp_callback_header by done.
  destruct (Z.ltb_spec n 8) as [Hn8|Hn8]; cbn [orb]; [by apply Hdone|].
  destruct (doip_validate_header (Some h)) eqn:Hv; cbn [negb]; [|by apply Hdone].
  assert (payload_length h = n - 8) as Hpl.
  { rewrite Hn. unfold pending. rewrite E.
    rewrite take_app_ge by (change (length (header_bytes h)) with 8%nat; lia).
    rewrite frame_total_header by done. lia. }
  unfold DOIP_RX_BUFFER_SIZE in *. unfold tcp_dispatch.
  destruct (_ =? DOIP_PAYLOAD_TYPE_ROUTING_ACTIVATION_REQ).
  { destruct (doip_decode_routing_total rest (payload_length h) uninit_routing_req) as (r&Hd&Hr&_); [lia|done|].
    destruct (inv_econn w i Hw Hid) as (e&He&_).
    rewrite (handle_routing_eq w i rest (payload_length h) r e) by (done || by apply inv_can_send).
    apply Hdone; [by apply routing_reply_inv; eauto|].
    unfold routing_reply. rewrite iface_tcp_sent. destruct (bool_decide _); [|done]. by rewrite He. }
  destruct (_ =? DOIP_PAYLOAD_TYPE_DIAG_MESSAGE).
  { destruct (inv_econn w i Hw Hid) as (e&He&_).
    destruct (decide (payload_length h < 4)).
    - erewrite handle_diagnostic_short by (done || by apply inv_can_send).
      destruct (is_activated e); apply Hdone; try done; [by apply inv_tcp_sent|by rewrite iface_tcp_sent].
    - destruct (doip_decode_diag_total rest (payload_length h) uninit_diag_message)
        as (sa&ta&Hd&Hsa&Hta); [lia..|done|].
      erewrite handle_diagnostic_eq by first [exact Hd | lia | by apply inv_can_send | exact He].
      eapply (wp_mono (D := True)); [apply diag_reply_safe; try done; [auto with width| |lia]|].
      + unfold len in *. rewrite length_drop. lia.
      + intros [] w' [? ?]. by apply Hdone. }
  destruct (_ =? DOIP_PAYLOAD_TYPE_ALIVE_CHECK_RES); [|by apply Hdone].
  destruct (inv_econn w i Hw Hid) as (e&He&Heok). rewrite (upd_econn_eq _ _ _ _ He).
  apply Hdone; [|done]. eapply inv_put_econn; [done|done| |done].
  destruct Heok as (H1&H2&H3&H4&H5). unfold econn_ok; simpl. by split_and!.
Qed.

Lemma connected_spec w i e : econn_at w i = Some e →
  entity_tcp_connected_callback i w =
    Done (tt, put_econn i (ec_with_source 0 (ec_with_activated false
      (ec_with_initial (cfg_initial_inactivity_time (config (entity w))) (ec_with_id i e)))) w).
Proof.
  intros He. apply wp_done_unit. unfold entity_tcp_connected_callback.
  apply wp_bind; eapply wp_upd_econn; [exact He|].
  apply wp_bind, wp_gets.
  do 2 (apply wp_bind; eapply wp_upd_econn; [by eapply econn_at_put_eq|]; rewrite eput_eput).
  eapply wp_upd_econn; [by eapply econn_at_put_eq|]. by rewrite eput_eput.
Qed.

Lemma disconnected_spec w i e : econn_at w i = Some e →
  entity_tcp_disconnected_callback i w = Done (tt, put_econn i (EntityConnection (-1) 0 false 0 0 0 false) w).
Proof.
  intros He. apply wp_done_unit. unfold entity_tcp_disconnected_callback.
  apply wp_bind; eapply wp_upd_econn; [exact He|].
  do 5 (apply wp_bind; eapply wp_upd_econn; [by eapply econn_at_put_eq|]; rewrite eput_eput).
  eapply wp_upd_econn; [by eapply econn_at_put_eq|]. by rewrite eput_eput.
Qed.
Lemma entity_client_ok :
  client_ok entity_inv (Some entity_udp_rx_callback) (Some (entity_tcp_rx_callback run_uds))
    (Some entity_tcp_connected_callback) (Some entity_tcp_disconnected_callback).
Proof.
  split.
  - by intros w (?&_).
  - by intros w (_&?&_).
  - intros. by apply inv_set_net.
  - intros w b (Hif&Hn&He&Hc&HK) Hl Hb. apply inv_intro; try done.
    destruct Hif as (?&?&_&_). by split_and!.
  - intros w i c c' Hw Hc (Hs&Hst&_) Hok. pose proof Hw as (_&_&_&Hcp&_).
    destruct (Hcp i c Hc) as [H1 H2]. eapply inv_put_conn; [done..| |]; by rewrite ?Hst, Hs.
  - intros w cb ip port n [= <-] Hw _ _. by apply udp_callback_safe.
  - intros w i c fd Hw Hc Hst Hfd. pose proof Hw as (Hif&_&((_&_&_&_&_&Hi)&_)&_).
    destruct (conn_at_ok w i c Hif Hc) as [(Hl&Hb&_) Hi01].
    assert (i ∈ conn_ids) as Hid by (apply conn_ids_range; lia).
    destruct (inv_econn w i Hw Hid) as (e&He&_&_&_&_&Hg).
    eapply wp_intro; [exact (connected_spec (put_conn i (accepted fd c) w) i e He)|].
    match goal with |- entity_inv (put_econn i ?e' _) =>
      change (entity_inv (put_conn i (accepted fd c) (put_econn i e' w))) end.
    eapply inv_put_conn; [|done| | |done].
    + apply (inv_put_econn_gen w i e); [done|done| |done]. unfold econn_ok; simpl.
      split_and!; [by left|done|done|exact Hi|exact Hg].
    + unfold conn_ok, DOIP_RX_BUFFER_SIZE in *; simpl. split_and!; [done|done|lia|lia].
    + intros _. eexists. split; [exact (econn_at_put_eq w i e _ He)|done].
  - intros w i c Hw Hc Hfd. pose proof Hw as (Hif&_).
    destruct (conn_at_ok w i c Hif Hc) as [(Hl&Hb&_) Hi01].
    assert (i ∈ conn_ids) as Hid by (apply conn_ids_range; lia).
    destruct (inv_econn w i Hw Hid) as (e&He&_).
    eapply wp_intro; [exact (disconnected_spec w i e He)|]. split; [done|]. intros n.
    match goal with |- entity_inv (put_conn i (closed c) (set_net n (put_econn i ?e' w))) =>
      change (entity_inv (put_econn i e' (put_conn i (closed c) (set_net n w)))) end.
    apply (inv_put_econn_gen _ i e); [|done| |].
    + eapply inv_put_conn; [by apply inv_set_net|done| |done|done].
      unfold conn_ok, DOIP_RX_BUFFER_SIZE in *; simpl. split_and!; [done|done|lia|lia].
    + unfold econn_ok; simpl. split_and!; [by right|done|done..].
    + intros c' Hc'. erewrite conn_at_put_eq in Hc' by done. by simplify_eq.
  - intros w i c n Hw Hc Hok Hfd H8 Hn Hle. by apply tcp_callback_safe.
Qed.
End invariant.

(** ** Timers *)

Lemma close_connection_eq {N U} (w : world N U) i c : conn_at w i = Some c → i ∈ conn_ids →
  doip_interface_close_connection OBJ i w =
    Done (tt, if 0 <=? socket_fd c
              then put_conn i (closed c) (set_net (close_socket (net_ops (w_iface w)) (socket_fd c) (w_net w)) w)
              else w).
Proof.
  intros Hc Hi%conn_ids_range. apply wp_done_unit. unfold doip_interface_close_connection.
  change DOIP_MAX_CONNECTIONS with 2.
  rewrite (proj2 (Z.ltb_ge _ _)), (proj2 (Z.leb_gt 2 i)) by lia. cbn [orb].
  apply wp_bind. apply (wp_get_conn _ _ _ c); [done|]. destruct (0 <=? socket_fd c); [|by apply wp_ret].
  apply wp_bind, wp_call_net. intros [] n [= <-].
  apply wp_bind. apply (wp_upd_conn _ _ _ c); [done|].
  apply wp_bind. eapply wp_upd_conn; [by eapply conn_at_put_eq|]. rewrite put_put.
  eapply wp_upd_conn; [by eapply conn_at_put_eq|]. by rewrite put_put.
Qed.

Section timers.
Context {N A F : Type} (K : A → Prop).
Implicit Types w : world N (user F A).

(** One tick of the announcement timer. *)
Definition announce (elapsed : Z) (w : world N (user F A)) : world N (user F A) :=
  let e := entity w in
  if announcement_count e <? 3 then
    if elapsed <? announcement_timer e then set_announcement_timer (announcement_timer e - elapsed) w
    else set_announcement_count (announcement_count e + 1)
           (udp_sent "255.255.255.255" DOIP_UDP_DISCOVERY_PORT (id_message (config e))
              (set_announcement_timer 500 w))
  else w.

(** The timer that runs for a connection, and one tick of it. *)
Definition inactivity_timer (e : doip_entity_connection_t) : Z :=
  if is_activated e then general_inactivity_timer e else initial_inactivity_timer e.
Definition with_inactivity_timer (t : Z) (e : doip_entity_connection_t) : doip_entity_connection_t :=
  if is_activated e then ec_with_general t e else ec_with_initial t e.

Definition close_slot (i : Z) (w : world N (user F A)) : world N (user F A) :=
  match conn_at w i with
  | Some c => if 0 <=? socket_fd c
              then put_conn i (closed c) (set_net (close_socket (net_ops (w_iface w)) (socket_fd c) (w_net w)) w)
              else w
  | None => w
  end.

Definition tick (elapsed i : Z) (w : world N (user F A)) : world N (user F A) :=
  match econn_at w i with
  | Some e =>
      if connection_id e =? i then
        if elapsed <? inactivity_timer e
        then put_econn i (with_inactivity_timer (inactivity_timer e - elapsed) e) w
        else close_slot i w
      else w
  | None => w
  end.

Lemma update_announcement_eq elapsed w : entity_ok (entity w) → 0 <= elapsed →
  update_announcement elapsed w = Done (tt, announce elapsed w).
Proof.
  intros (Hcfg&Hp&_&_&Hcnt&Ht) He. unfold is_u32 in Ht. apply wp_done_unit.
  unfold update_announcement, announce. apply wp_bind, wp_gets.
  destruct (Z.ltb_spec (announcement_count (entity w)) 3); [|by apply wp_ret].
  destruct (Z.ltb_spec elapsed (announcement_timer (entity w))).
  - apply wp_modify. by rewrite u32_small by (unfold is_u32; lia).
  - apply wp_bind, wp_modify. apply wp_bind. apply wp_send_announcement; [done|done|].
    intros _. apply wp_modify. cbn. by rewrite u32_small by (unfold is_u32; lia).
Qed.

Lemma update_connection_timer_eq elapsed i w : entity_inv K w → i ∈ conn_ids → 0 <= elapsed →
  update_connection_timer elapsed i w = Done (tt, tick elapsed i w).
Proof.
  intros Hw Hi He. pose proof Hi as Hi'%conn_ids_range. destruct (inv_econn K w i Hw Hi) as (e&Hec&Hok).
  destruct (conn_at_some w i (proj1 Hw) Hi) as (c&Hc&_).
  pose proof Hw as (_&_&(_&Hp&_)&_). destruct Hok as (Hid&_&_&Hini&Hgen). unfold is_u32 in *.
  apply wp_done_unit. unfold update_connection_timer, tick. rewrite Hec.
  apply wp_bind. apply (wp_get_econn _ _ _ e); [done|]. apply wp_bind, wp_gets. rewrite Hp.
  destruct Hid as [Hid|Hid].
  - rewrite Hid, Z.eqb_refl, (proj2 (Z.leb_le 0 i)) by lia.
    assert (close_slot i w = (if 0 <=? socket_fd c
      then put_conn i (closed c) (set_net (close_socket (net_ops (w_iface w)) (socket_fd c) (w_net w)) w)
      else w)) as Hcl by (unfold close_slot; by rewrite Hc).
    unfold inactivity_timer, with_inactivity_timer. destruct (is_activated e); cbn [negb].
    + destruct (Z.ltb_spec elapsed (general_inactivity_timer e)).
      * eapply wp_upd_econn; [done|]. by rewrite u32_small by (unfold is_u32; lia).
      * eapply wp_intro; [by apply close_connection_eq|]. by rewrite Hcl.
    + destruct (Z.ltb_spec elapsed (initial_inactivity_timer e)).
      * eapply wp_upd_econn; [done|]. by rewrite u32_small by (unfold is_u32; lia).
      * eapply wp_intro; [by apply close_connection_eq|]. by rewrite Hcl.
  - rewrite Hid. rewrite (proj2 (Z.eqb_neq (-1) i)) by lia. by apply wp_ret.
Qed.

Lemma announce_inv elapsed w : entity_inv K w → 0 <= elapsed → entity_inv K (announce elapsed w).
Proof.
  intros (Hif&Hn&(Hcfg&Hp&Hl&He&Hcnt&Ht)&Hc&HK) Hel. unfold is_u32 in Ht. unfold announce.
  destruct (Z.ltb_spec (announcement_count (entity w)) 3); [|by apply inv_intro].
  destruct (Z.ltb_spec elapsed (announcement_timer (entity w))).
  - apply inv_intro; try done. do 4 (split; [done|]). split; [done|]. simpl. unfold is_u32. lia.
  - apply inv_intro; try done. do 4 (split; [done|]). simpl. split; [lia|done].
Qed.

Lemma close_slot_inv i w : entity_inv K w → i ∈ conn_ids → entity_inv K (close_slot i w).
Proof.
  intros Hw Hi. unfold close_slot. destruct (conn_at_some w i (proj1 Hw) Hi) as (c&Hc&Hl&Hb&Hu). rewrite Hc.
  destruct (0 <=? socket_fd c); [|done]. eapply inv_put_conn; [by apply inv_set_net|done| |done|done].
  unfold conn_ok; simpl. split_and!; [done..|]. unfold DOIP_RX_BUFFER_SIZE. lia.
Qed.

Lemma tick_inv elapsed i w : entity_inv K w → i ∈ conn_ids → 0 <= elapsed → entity_inv K (tick elapsed i w).
Proof.
  intros Hw Hi Hel. unfold tick. destruct (inv_econn K w i Hw Hi) as (e&He&Hok). rewrite He.
  destruct (connection_id e =? i); [|done].
  destruct (Z.ltb_spec elapsed (inactivity_timer e)); [|by apply close_slot_inv].
  eapply inv_put_econn; [done|done| |].
  - destruct Hok as (H1&H2&H3&H4&H5). unfold is_u32 in H4, H5. unfold inactivity_timer, with_inactivity_timer in *.
    destruct (is_activated e) eqn:Ha; unfold econn_ok; simpl; rewrite ?Ha; split_and!; try done; unfold is_u32; lia.
  - unfold with_inactivity_timer. by destruct (is_activated e).
Qed.

(** One call of [doip_entity_update_timers]. *)
Definition timers (elapsed : Z) (w : world N (user F A)) : world N (user F A) :=
  tick elapsed 1 (tick elapsed 0 (announce elapsed w)).

Lemma update_timers_eq elapsed w : entity_inv K w → 0 <= elapsed →
  doip_entity_update_timers OBJ elapsed w = Done (tt, timers elapsed w) ∧ entity_inv K (timers elapsed w).
Proof.
  intros Hw He. pose proof (announce_inv elapsed w Hw He) as Hw1.
  assert (0 ∈ conn_ids) as H0 by by left. assert (1 ∈ conn_ids) as H1 by by right; left.
  pose proof (tick_inv elapsed 0 _ Hw1 H0 He) as Hw2. pose proof (tick_inv elapsed 1 _ Hw2 H1 He) as Hw3.
  split; [|done]. unfold doip_entity_update_timers.
  rewrite (ST_bind_eq _ _ w _ _ (update_announcement_eq elapsed w ltac:(apply Hw) He)).
  unfold conn_ids. cbn [for_each].
  rewrite (ST_bind_eq _ _ _ _ _ (update_connection_timer_eq elapsed 0 _ Hw1 H0 He)).
  by rewrite (ST_bind_eq _ _ _ _ _ (update_connection_timer_eq elapsed 1 _ Hw2 H1 He)).
Qed.
End timers.

Section timer_runs.
Context {N A F : Type} (K : A → Prop).
Implicit Types w : world N (user F A).

(** [k] calls of [doip_entity_update_timers]. *)
Definition run_timers (k : nat) (elapsed : Z) : ST (world N (user F A)) unit :=
  for_each (replicate k elapsed) (doip_entity_update_timers OBJ).

Lemma run_timers_eq k elapsed w : entity_inv K w → 0 <= elapsed →
  run_timers k elapsed w = Done (tt, Nat.iter k (timers elapsed) w) ∧
  entity_inv K (Nat.iter k (timers elapsed) w).
Proof.
  intros Hw He. revert w Hw. induction k as [|k IH]; intros w Hw; [done|].
  destruct (update_timers_eq K elapsed w Hw He) as [E Hw1]. destruct (IH _ Hw1) as [E2 Hw2].
  rewrite Nat.iter_succ_r. split; [|done]. unfold run_timers. cbn [replicate for_each].
  by rewrite (ST_bind_eq _ _ _ _ _ E).
Qed.

(** The parts of the world that the timers of the slots do not touch. *)
Lemma tick_entity elapsed i w :
  config (entity (tick elapsed i w)) = config (entity w) ∧
  announcement_count (entity (tick elapsed i w)) = announcement_count (entity w) ∧
  announcement_timer (entity (tick elapsed i w)) = announcement_timer (entity w) ∧
  net_ops (w_iface (tick elapsed i w)) = net_ops (w_iface w).
Proof.
  unfold tick, close_slot. destruct (econn_at w i) as [e|]; [|done]. destruct (_ =? i); [|done].
  destruct (elapsed <? _); [done|]. destruct (conn_at w i) as [c|]; [|done]. by destruct (0 <=? _).
Qed.

(** *** Announcements *)

(** How many announcements [k] ticks of 10 ms produce. *)
Definition announcements_after (k : nat) : nat :=
  if decide (k = 0)%nat then 0%nat else Nat.min 3 (1 + (k - 1) / 50)%nat.

Lemma announcements_step k :
  announcements_after (S k) =
    if decide (announcements_after k < 3)%nat
    then if decide (k mod 50 = 0)%nat then S (announcements_after k) else announcements_after k
    else 3%nat.
Proof.
  unfold announcements_after. rewrite (decide_False (P := (S k = 0)%nat)) by lia.
  replace (S k - 1)%nat with k by lia. destruct (decide (k = 0)%nat) as [->|Hk]; [done|].
  destruct (decide (k mod 50 = 0)%nat) as [Hm|Hm].
  - assert ((k - 1) / 50 + 1 = k / 50)%nat as E; [|repeat case_decide; lia].
    apply Nat.Div0.mod_divides in Hm as [q ->]. rewrite (Nat.mul_comm 50), Nat.div_mul by lia.
    replace (q * 50 - 1)%nat with (49 + (q - 1) * 50)%nat by lia. rewrite Nat.div_add by lia. simpl. lia.
  - assert ((k - 1) / 50 = k / 50)%nat as E; [|repeat case_decide; lia].
    pose proof (Nat.div_mod_eq k 50). pose proof (Nat.mod_upper_bound k 50).
    replace (k - 1)%nat with ((k mod 50 - 1) + (k / 50) * 50)%nat by lia.
    rewrite Nat.div_add by lia. rewrite Nat.div_small by lia. lia.
Qed.

(** The timer after [k] ticks, while announcements remain. *)
Definition announcement_timer_after (k : nat) : Z :=
  if decide (k = 0)%nat then 0 else 500 - 10 * Z.of_nat ((k - 1) mod 50).

Lemma announcement_timer_step k : announcement_timer_after (S k) =
  if decide (k mod 50 = 0)%nat then 500 else announcement_timer_after k - 10.
Proof.
  unfold announcement_timer_after. rewrite (decide_False (P := (S k = 0)%nat)) by lia.
  replace (S k - 1)%nat with k by lia. destruct (decide (k mod 50 = 0)%nat) as [Hm|Hm]; [by rewrite Hm|].
  assert (k ≠ 0)%nat by (intros ->; by apply Hm). rewrite decide_False by done.
  pose proof (Nat.div_mod_eq k 50). pose proof (Nat.mod_upper_bound k 50).
  replace (k - 1)%nat with ((k mod 50 - 1) + (k / 50) * 50)%nat by lia.
  rewrite Nat.Div0.mod_add. rewrite (Nat.mod_small (_ - 1)) by lia. lia.
Qed.
Lemma announcement_timer_sign k : (10 <? announcement_timer_after k) = bool_decide (k mod 50 ≠ 0)%nat.
Proof.
  unfold announcement_timer_after. destruct (decide (k = 0)%nat) as [->|Hk]; [done|].
  pose proof (Nat.div_mod_eq k 50). pose proof (Nat.mod_upper_bound k 50).
  pose proof (Nat.div_mod_eq (k - 1) 50). pose proof (Nat.mod_upper_bound (k - 1) 50).
  destruct (bool_decide_reflect (k mod 50 ≠ 0)%nat) as [Hm|Hm].
  - apply Z.ltb_lt.
    replace (k - 1)%nat with ((k mod 50 - 1) + (k / 50) * 50)%nat by lia.
    rewrite Nat.Div0.mod_add. rewrite (Nat.mod_small (_ - 1)) by lia. lia.
  - apply Z.ltb_ge. assert (k mod 50 = 0)%nat as Hz by lia.
    replace (k - 1)%nat with (49 + (k / 50 - 1) * 50)%nat by lia.
    rewrite Nat.Div0.mod_add. rewrite (Nat.mod_small 49) by lia. lia.
Qed.

Definition announced (log : N → list bytes) (l0 : list bytes) (ops : doip_network_ops_t N)
    (cfg : doip_entity_config_t) (k : nat) (w : world N (user F A)) : Prop :=
  net_ops (w_iface w) = ops ∧ config (entity w) = cfg ∧
  announcement_count (entity w) = Z.of_nat (announcements_after k) ∧
  (announcements_after k < 3 → announcement_timer (entity w) = announcement_timer_after k)%nat ∧
  log (w_net w) = l0 ++ replicate (announcements_after k) (id_message cfg).

Lemma announce_announced log l0 ops cfg k w :
  (∀ s m ip p n, log (udp_sendto ops s m ip p n).2 = log n ++ [m]) →
  announced log l0 ops cfg k w → announced log l0 ops cfg (S k) (announce 10 w).
Proof.
  intros Hlog (Hops&Hcfg&Hcnt&Ht&Hl). unfold announced, announce. rewrite announcements_step, announcement_timer_step.
  rewrite Hcnt. assert (announcements_after k <= 3)%nat by (unfold announcements_after; case_decide; lia).
  destruct (decide (announcements_after k < 3)%nat) as [H3|H3].
  - rewrite (proj2 (Z.ltb_lt _ _)) by lia. rewrite (Ht H3), announcement_timer_sign.
    destruct (decide (k mod 50 = 0)%nat) as [Hm|Hm].
    + rewrite bool_decide_eq_false_2 by naive_solver. split_and!; try done; [simpl; lia|].
      cbn. rewrite Hops, Hlog, Hl, Hcfg. rewrite <- app_assoc. f_equal.
      symmetry. apply replicate_cons_app.
    + rewrite bool_decide_eq_true_2 by done. by split_and!.
  - rewrite (proj2 (Z.ltb_ge _ _)) by lia. split_and!; try done; [lia|lia|].
    rewrite Hl. do 2 f_equal. lia.
Qed.

Lemma tick_announced log l0 ops cfg k elapsed i w :
  (∀ s n, log (close_socket ops s n) = log n) →
  announced log l0 ops cfg k w → announced log l0 ops cfg k (tick elapsed i w).
Proof.
  intros Hcl (Hops&Hcfg&Hcnt&Ht&Hl). destruct (tick_entity elapsed i w) as (E1&E2&E3&E4).
  unfold announced. rewrite E1, E2, E3, E4. split_and!; try done. rewrite <- Hl.
  unfold tick, close_slot. destruct (econn_at w i) as [e|]; [|done]. destruct (_ =? i); [|done].
  destruct (elapsed <? _); [done|]. destruct (conn_at w i) as [c|]; [|done].
  destruct (0 <=? _); [|done]. simpl. by rewrite Hops.
Qed.
End timer_runs.

(** Vehicle announcements. In [k] cycles of 10 ms after the
    start, the entity broadcasts its identification exactly
    [announcements_after k] times: in the first cycle, then in the 51st and the
    101st (every 500 ms), and never again. The network only has to record what
    is sent. *)
Theorem announcement_schedule {N A F} (K : A → Prop) (log : N → list bytes) k (w : world N (user F A)) :
  (∀ s m ip p n, log (udp_sendto (net_ops (w_iface w)) s m ip p n).2 = log n ++ [m]) →
  (∀ s n, log (close_socket (net_ops (w_iface w)) s n) = log n) →
  entity_inv K w → announcement_count (entity w) = 0 → announcement_timer (entity w) = 0 →
  ∃ w', run_timers k 10 w = Done (tt, w') ∧
        log (w_net w') = log (w_net w) ++ replicate (announcements_after k) (id_message (config (entity w))).
Proof.
  intros Hudp Hcl Hw Hc0 Ht0. destruct (run_timers_eq K k 10 w Hw) as [E _]; [lia|].
  eexists. split; [exact E|].
  cut (announced log (log (w_net w)) (net_ops (w_iface w)) (config (entity w)) k (Nat.iter k (timers 10) w)).
  { by intros (_&_&_&_&?). }
  clear E. induction k as [|k IH].
  - split_and!; try done. by rewrite app_nil_r.
  - simpl. unfold timers. by do 2 (apply tick_announced; [done|]); apply announce_announced.
Qed.

Section inactivity.
Context {N A F : Type} (K : A → Prop).
Implicit Types w : world N (user F A).

Lemma tick_other elapsed i j w : i ≠ j → 0 <= j →
  conn_at (tick elapsed j w) i = conn_at w i ∧ econn_at (tick elapsed j w) i = econn_at w i.
Proof.
  intros Hij Hj. unfold tick, close_slot. destruct (econn_at w j) as [e|]; [|done]. destruct (_ =? j); [|done].
  destruct (elapsed <? _); [split; [done|by apply econn_at_put_ne]|].
  destruct (conn_at w j) as [c|]; [|done]. destruct (0 <=? _); [|done].
  split; [by rewrite conn_at_put_ne by lia|done].
Qed.
Lemma announce_slots elapsed i w :
  conn_at (announce elapsed w) i = conn_at w i ∧ econn_at (announce elapsed w) i = econn_at w i.
Proof. unfold announce. destruct (_ <? 3); [|done]. by destruct (elapsed <? _). Qed.

(** A call of [doip_entity_update_timers], seen from the slot [i], is one
    tick of this slot. *)
Lemma timers_slot elapsed i w : i ∈ conn_ids → ∃ w1,
  conn_at w1 i = conn_at w i ∧ econn_at w1 i = econn_at w i ∧
  conn_at (timers elapsed w) i = conn_at (tick elapsed i w1) i ∧
  econn_at (timers elapsed w) i = econn_at (tick elapsed i w1) i.
Proof.
  intros Hi%conn_ids_range. destruct (announce_slots elapsed i w) as [Ha1 Ha2]. unfold timers.
  assert (i = 0 ∨ i = 1) as [->| ->] by lia.
  - destruct (tick_other elapsed 0 1 (tick elapsed 0 (announce elapsed w))) as [E1 E2]; [lia..|].
    exists (announce elapsed w). by rewrite E1, E2.
  - destruct (tick_other elapsed 1 0 (announce elapsed w)) as [E1 E2]; [lia..|].
    exists (tick elapsed 0 (announce elapsed w)). by rewrite E1, E2.
Qed.

(** The slot [i] after [k] ticks, [t] being its timer at the start. *)
Definition idle (i elapsed t : Z) (c : doip_tcp_connection_t) (act : bool) (k : nat) w : Prop :=
  ∃ e, econn_at w i = Some e ∧ connection_id e = i ∧ is_activated e = act ∧
  if decide (k = 0%nat ∨ Z.of_nat k * elapsed < t)
  then conn_at w i = Some c ∧ inactivity_timer e = t - Z.of_nat k * elapsed
  else conn_at w i = Some (closed c).

Lemma idle_timers i elapsed t c act k w : i ∈ conn_ids → 0 < elapsed → 0 <= socket_fd c →
  idle i elapsed t c act k w → idle i elapsed t c act (S k) (timers elapsed w).
Proof.
  intros Hi Hel Hfd (e&He&Hid&Hact&Hk). destruct (timers_slot elapsed i w Hi) as (w1&Hc1&He1&Ec&Ee).
  rewrite He in He1. unfold tick in Ec, Ee. rewrite He1, Hid, Z.eqb_refl in Ec, Ee.
  unfold idle. rewrite Ee, Ec. clear Ee Ec.
  destruct (Z.ltb_spec elapsed (inactivity_timer e)) as [Ht|Ht].
  - exists (with_inactivity_timer (inactivity_timer e - elapsed) e).
    split_and!; [by eapply econn_at_put_eq|unfold with_inactivity_timer; by destruct (is_activated e)|
                 unfold with_inactivity_timer; by destruct (is_activated e) eqn:E; simpl; rewrite ?E|].
    change (conn_at (put_econn i ?x w1) i) with (conn_at w1 i). rewrite Hc1.
    destruct (decide (k = 0%nat ∨ Z.of_nat k * elapsed < t)) as [Hd|Hd].
    + destruct Hk as [Hck Htk]. rewrite decide_True by (right; lia). split; [done|].
      unfold inactivity_timer, with_inactivity_timer in *. destruct (is_activated e) eqn:E; simpl; rewrite ?E; lia.
    + rewrite decide_False; [done|]. intros [|]; [lia|]. apply Hd. right. lia.
  - exists e. assert (∀ w2, econn_at (close_slot i w2) i = econn_at w2 i) as Hce.
    { intros w2. unfold close_slot. destruct (conn_at w2 i) as [c2|]; [|done]. by destruct (0 <=? _). }
    rewrite Hce. split_and!; [done..|].
    unfold close_slot. rewrite Hc1. destruct (decide (k = 0%nat ∨ Z.of_nat k * elapsed < t)) as [Hd|Hd].
    + destruct Hk as [Hck Htk]. rewrite Hck, (proj2 (Z.leb_le 0 _)) by lia.
      rewrite decide_False by lia. eapply conn_at_put_eq. cbn. by rewrite <- Hck.
    + rewrite Hk. cbn [socket_fd closed with_used with_state with_socket]. 
      change (0 <=? INVALID_SOCKET) with false. cbv iota. rewrite decide_False; [by rewrite Hc1, Hk|].
      intros [|]; [lia|]. apply Hd. right. lia.
Qed.
End inactivity.

(** Inactivity timeout. Left without messages, an open
    connection stays as it is until the timer that runs for it (the initial
    inactivity time, or the general one once routing is activated) has elapsed, and
    is closed by the first call of [doip_entity_update_timers] at which it
    has: after [k] calls of [elapsed] ms, the slot is unchanged if
    [k * elapsed] is less than the timer, and closed otherwise. *)
Theorem inactivity_closes {N A F} (K : A → Prop) k elapsed i (w : world N (user F A)) c e :
  entity_inv K w → i ∈ conn_ids → conn_at w i = Some c → 0 <= socket_fd c → econn_at w i = Some e →
  0 < elapsed →
  ∃ w', run_timers k elapsed w = Done (tt, w') ∧
        conn_at w' i = Some (if decide (k = 0%nat ∨ Z.of_nat k * elapsed < inactivity_timer e)
                             then c else closed c).
Proof.
  intros Hw Hi Hc Hfd He Hel. destruct (run_timers_eq K k elapsed w Hw) as [E _]; [lia|].
  eexists. split; [exact E|]. clear E.
  assert (idle i elapsed (inactivity_timer e) c (is_activated e) k (Nat.iter k (timers elapsed) w)) as H.
  { induction k as [|k IH]; [|by apply idle_timers]. exists e. change (Nat.iter 0 (timers elapsed) w) with w.
    split; [done|split; [|split]]; [|done|rewrite decide_True by (by left); split; [done|lia]].
    destruct Hw as (_&_&_&Hcp&_). destruct (proj1 (Hcp i c Hc) Hfd) as (e2&He2&<-). congruence. }
  destruct H as (e'&_&_&_&Hk). by destruct (decide _); [destruct Hk|].
Qed.

(** ** Responses *)

Section responses.
Context {N A F : Type} (K : A → Prop).
Implicit Types w : world N (user F A).

(** The connection a response to [ta] goes to: the first slot activated for
    this address. *)
Definition find_tester (ta : Z) w : option Z :=
  match econn_at w 0, econn_at w 1 with
  | Some e0, Some e1 =>
      if is_activated e0 && (ec_source_address e0 =? ta) then Some (connection_id e0)
      else if is_activated e1 && (ec_source_address e1 =? ta) then Some (connection_id e1) else None
  | _, _ => None
  end.

Lemma find_tester_id w ta i : entity_inv K w → find_tester ta w = Some i →
  i ∈ conn_ids ∧ ∃ e, econn_at w i = Some e ∧ is_activated e = true ∧ ec_source_address e = ta.
Proof.
  intros Hw. unfold find_tester.
  destruct (inv_econn K w 0 Hw) as (e0&E0&Hok0); [by left|].
  destruct (inv_econn K w 1 Hw) as (e1&E1&Hok1); [by right; left|]. rewrite E0, E1.
  destruct Hok0 as (_&H0&_), Hok1 as (_&H1&_).
  destruct (is_activated e0) eqn:A0; cbn [andb]; [destruct (Z.eqb_spec (ec_source_address e0) ta)|].
  - destruct H0 as [-> _]; [done|]. intros [= <-]. split; [by left|eauto].
  - destruct (is_activated e1) eqn:A1; cbn [andb]; [|done]. destruct (Z.eqb_spec (ec_source_address e1) ta); [|done].
    destruct H1 as [-> _]; [done|]. intros [= <-]. split; [by right; left|eauto].
  - destruct (is_activated e1) eqn:A1; cbn [andb]; [|done]. destruct (Z.eqb_spec (ec_source_address e1) ta); [|done].
    destruct H1 as [-> _]; [done|]. intros [= <-]. split; [by right; left|eauto].
Qed.

Lemma find_tester_put w i e e' ta : econn_at w i = Some e → i ∈ conn_ids →
  is_activated e' = is_activated e → ec_source_address e' = ec_source_address e →
  connection_id e' = connection_id e → find_tester ta (put_econn i e' w) = find_tester ta w.
Proof.
  intros He Hi%conn_ids_range Ha Hs Hid. unfold find_tester. assert (i = 0 ∨ i = 1) as [->| ->] by lia.
  - rewrite (econn_at_put_eq w 0 e), He, (econn_at_put_ne w 0 1) by done. by rewrite Ha, Hs, Hid.
  - rewrite (econn_at_put_eq w 1 e), He, (econn_at_put_ne w 1 0) by done. by rewrite Ha, Hs, Hid.
Qed.

Definition response_message (w : world N (user F A)) (ta : Z) (d : bytes) : bytes :=
  message_2019 DOIP_PAYLOAD_TYPE_DIAG_MESSAGE (diag_payload (cfg_logical_address (config (entity w))) ta d).

Lemma len_response_message w ta d : len (response_message w ta d) = 12 + len d.
Proof.
  unfold response_message. rewrite len_message_2019. unfold diag_payload.
  rewrite !len_app, !len_be16. lia.
Qed.

Lemma send_response_eq w ta d rest : entity_inv K w → is_u32 (12 + len d) →
  doip_entity_send_diagnostic_response OBJ ta (Some (d ++ rest)) (len d) w =
    match find_tester ta w with
    | None => Done (DOIP_RESULT_NOT_READY, w)
    | Some i =>
        if 4092 <? len d then Done (DOIP_RESULT_ERROR, w)
        else match conn_at w i with
             | None => Fault
             | Some c =>
                 if socket_fd c <? 0 then Done (DOIP_RESULT_NOT_READY, w)
                 else let '(r, n) := tcp_send (net_ops (w_iface w)) (socket_fd c)
                                       (response_message w ta d) (w_net w) in
                      Done (if 0 <=? r then DOIP_RESULT_OK else DOIP_RESULT_ERROR, set_net n w)
             end
    end.
Proof.
  intros Hw Hu. pose proof (len_nonneg d) as Hd0. pose proof Hw as (Hif&_&(_&Hp&_)&_).
  assert (for_find conn_ids (λ i, c ← get_econn i;
            mret (if is_activated c && (ec_source_address c =? ta) then Some (connection_id c) else None)) w
          = Done (find_tester ta w, w)) as Hfind.
  { destruct (inv_econn K w 0 Hw) as (e0&E0&_); [by left|].
    destruct (inv_econn K w 1 Hw) as (e1&E1&_); [by right; left|].
    unfold find_tester. rewrite E0, E1. cbv [for_find conn_ids mbind ST_bind mret ST_ret].
    unfold get_econn. rewrite E0. destruct (_ && _); [done|]. rewrite E1. by destruct (_ && _). }
  unfold doip_entity_send_diagnostic_response. rewrite (ST_bind_eq _ _ _ _ _ Hfind).
  destruct (find_tester ta w) as [i|] eqn:Ef; [|done].
  change (default (-1) (Some i)) with i. cbv beta zeta.
  destruct (find_tester_id w ta i Hw Ef) as (Hi&_). pose proof Hi as Hi'%conn_ids_range.
  rewrite (proj2 (Z.ltb_ge i 0)) by lia.
  rewrite (ST_bind_eq _ _ w (config (entity w)) w) by done.
  destruct (conn_at_some w i Hif Hi) as (c&Hc&_). rewrite Hc.
  destruct (Z.ltb_spec 4092 (len d)) as [Hlong|Hshort].
  - erewrite ST_bind_eq; [|unfold lift, doip_encode_diagnostic_message;
      cbn [dm_user_data dm_user_data_length]; rewrite u32_small by (unfold is_u32 in *; lia);
      rewrite (proj2 (Z.ltb_lt _ _)) by (unfold DOIP_MAX_PAYLOAD_SIZE; lia); reflexivity].
    cbv beta iota. by rewrite bool_decide_eq_false_2.
  - erewrite ST_bind_eq; [|unfold lift; rewrite doip_encode_diagnostic_message_ok;
      [reflexivity|unfold DOIP_MAX_PAYLOAD_SIZE; lia| |done]].
    2: { change (len (local_array (DOIP_MAX_PAYLOAD_SIZE + 8))) with 4104. lia. }
    cbv beta iota. rewrite bool_decide_eq_true_2 by done. cbn [negb].
    rewrite (ST_bind_eq _ _ w OBJ w) by (unfold gets; by rewrite Hp).
    change (out (Some ?x)) with x. fold (response_message w ta d).
    rewrite patch_0.
    2: { rewrite len_response_message. change (len (local_array (DOIP_MAX_PAYLOAD_SIZE + 8))) with 4104. lia. }
    rewrite <- (len_response_message w ta d). destruct (Z.ltb_spec (socket_fd c) 0).
    + by eapply tcp_send_closed.
    + erewrite tcp_send_open by done. by destruct (tcp_send _ _ _ _).
Qed.
End responses.

(** Where a UDS response goes. A response for the tester
    address [ta] is wrapped in a diagnostic message from the entity's address
    and passed to the first connection activated for [ta]; the result is
    NOT_READY when there is none or when its socket is closed, ERROR when
    the data exceed 4092 bytes or the network fails, and nothing but the
    network changes. *)
Theorem send_response_routing {N A F} (K : A → Prop) (w : world N (user F A)) ta d rest :
  entity_inv K w → is_u32 (12 + len d) →
  doip_entity_send_diagnostic_response OBJ ta (Some (d ++ rest)) (len d) w =
    match find_tester ta w with
    | None => Done (DOIP_RESULT_NOT_READY, w)
    | Some i =>
        if 4092 <? len d then Done (DOIP_RESULT_ERROR, w)
        else match conn_at w i with
             | None => Fault
             | Some c =>
                 if socket_fd c <? 0 then Done (DOIP_RESULT_NOT_READY, w)
                 else let '(r, n) := tcp_send (net_ops (w_iface w)) (socket_fd c)
                                       (response_message w ta d) (w_net w) in
                      Done (if 0 <=? r then DOIP_RESULT_OK else DOIP_RESULT_ERROR, set_net n w)
             end
    end.
Proof. apply send_response_eq. Qed.

(** An activation outlives its connection. When the first slot times
    out, [doip_entity_update_timers] closes its socket but leaves the
    entity's record activated, so that every response to that tester's address
    is refused with NOT_READY from then on, whatever connection the
    second slot has for the same tester. *)
Theorem timeout_leaves_stale_activation {N A F} (K : A → Prop) (w : world N (user F A)) elapsed c e :
  entity_inv K w → 0 <= elapsed → conn_at w 0 = Some c → econn_at w 0 = Some e →
  0 <= socket_fd c → is_activated e = true → inactivity_timer e <= elapsed →
  ∃ w', doip_entity_update_timers OBJ elapsed w = Done (tt, w') ∧ entity_inv K w' ∧
        conn_at w' 0 = Some (closed c) ∧ econn_at w' 0 = Some e ∧
        ∀ d rest, len d <= 4092 →
          doip_entity_send_diagnostic_response OBJ (ec_source_address e) (Some (d ++ rest)) (len d) w' =
            Done (DOIP_RESULT_NOT_READY, w').
Proof.
  intros Hw Hel Hc He Hfd Hact Ht. destruct (update_timers_eq K elapsed w Hw Hel) as [E Hw'].
  exists (timers elapsed w). split; [done|]. split; [done|].
  destruct (timers_slot elapsed 0 w) as (w1&Hc1&He1&Ec&Ee); [by left|].
  assert (connection_id e = 0) as Hid.
  { destruct Hw as (_&_&_&Hcp&_). destruct (proj1 (Hcp 0 c Hc) Hfd) as (e2&He2&<-). congruence. }
  rewrite He in He1. rewrite Hc in Hc1. unfold tick in Ec, Ee. rewrite He1, Hid, (proj2 (Z.ltb_ge _ _)) in Ec, Ee by lia.
  change (0 =? 0) with true in Ec, Ee. cbv iota in Ec, Ee. unfold close_slot in Ec, Ee.
  rewrite Hc1, (proj2 (Z.leb_le 0 _)) in Ec, Ee by lia.
  rewrite (conn_at_put_eq _ 0 c) in Ec by done.
  change (econn_at (put_conn 0 (closed c) ?x) 0) with (econn_at w1 0) in Ee. rewrite He1 in Ee.
  split; [done|]. split; [done|]. intros d rest Hd. pose proof (len_nonneg d).
  rewrite (send_response_eq K) by (done || unfold is_u32; lia).
  destruct (inv_econn K _ 1 Hw') as (e1&E1&_); [by right; left|].
  unfold find_tester. rewrite Ee, E1, Hact, Z.eqb_refl, Hid. cbn [andb].
  rewrite (proj2 (Z.ltb_ge 4092 _)) by lia. by rewrite Ec.
Qed.

(** ** A concrete entity to run the model on *)
Module Demo.
Definition cfg : doip_entity_config_t :=
  EntityConfig (replicate 17 0x41) [0; 0x1B; 0x2C; 0x3D; 0x4E; 0x5F] (replicate 6 0xFF) 0x1000 300000 2000 500 2.
Definition off : doip_entity_connection_t := EntityConnection (-1) 0 false 0 0 0 false.
Definition on (i src : Z) (act : bool) : doip_entity_connection_t :=
  EntityConnection i src act 2000 300000 0 false.
Definition fresh : doip_entity_connection_t := on 0 0 false.
Definition active : doip_entity_connection_t := on 0 0x0E80 true.

(** Slot 0 is open; the entity's record of it is [e]. *)
Definition world_of (e : doip_entity_connection_t) (n : Script.network) :
    world Script.network (user unit unit) :=
  World (Script.iface Script.open_slot Script.empty_slot) n (User (Entity cfg OBJ [e; off] 0 0 (Some tt)) tt).

(** A UDS layer that ignores what it is given. *)
Definition silent : unit → Z → Z → bytes → Z → ST (world Script.network (user unit unit)) unit :=
  λ _ _ _ _ _, mret tt.

Lemma off_ok i : econn_ok i off.
Proof. by split_and!; [right|..]. Qed.
Lemma on_ok i src act : is_tester_address src ∨ (src = 0 ∧ act = false) → econn_ok i (on i src act).
Proof.
  unfold is_tester_address, DOIP_TESTER_ADDRESS_MIN, DOIP_TESTER_ADDRESS_MAX.
  intros H. unfold econn_ok, on, is_tester_address, DOIP_TESTER_ADDRESS_MIN, DOIP_TESTER_ADDRESS_MAX; simpl.
  split_and!; [by left| |unfold is_u16; lia|done|done].
  intros ->. by destruct H as [H|[_ H]].
Qed.

Lemma inv e n : econn_ok 0 e → connection_id e = 0 → entity_inv (λ _, True) (world_of e n).
Proof.
  intros He Hid. apply inv_intro.
  - apply Script.iface_ok; [apply Script.open_slot_ok|apply Script.empty_slot_ok].
  - apply _.
  - split; [by_compute|]. split; [done|]. split; [done|]. split; [|by_compute].
    intros [|[|i]] c Hc; simpl in Hc; [by simplify_eq|simplify_eq; apply off_ok|done].
  - intros i c [H0 Hc]%conn_at_inv. destruct (Z.to_nat i) as [|[|k]] eqn:Ei; simpl in Hc; simplify_eq; [|done].
    assert (i = 0) as -> by lia. split; [|done]. intros _. by exists e.
  - done.
Qed.

Lemma silent_ok : uds_layer_ok silent (λ _, True).
Proof. intros f sa ta d n w _ _ _ _ _ _ _. exists (w_net w), (u_app (w_user w)). split; [|done]. by destruct w as [? ? []]. Qed.
End Demo.

(** ** Properties *)

Lemma diagnostic_message_eq {N A F} run_uds (w : world N (user F A)) id e h sa ta data rest n :
  can_send id w → econn_at w id = Some e →
  header_ok h → doip_validate_header (Some h) = true →
  payload_type h = DOIP_PAYLOAD_TYPE_DIAG_MESSAGE → payload_length h = 4 + len data →
  is_u16 sa → is_u16 ta → 8 <= n →
  let logical := cfg_logical_address (config (entity w)) in
  entity_tcp_rx_callback run_uds id (header_bytes h ++ diag_payload sa ta data ++ rest) n w =
    if negb (is_activated e) then Done (tt, tcp_sent id (ack_message logical 0 DOIP_DIAG_NACK_INVALID_SOURCE) w)
    else if negb (ta =? logical) then Done (tt, tcp_sent id (ack_message logical ta DOIP_DIAG_NACK_UNKNOWN_TARGET) w)
    else (match uds_callback (entity w) with
          | Some f => run_uds f sa ta (data ++ rest) (len data)
          | None => mret tt
          end;;
          cfg ← gets (λ w, config (entity w));
          upd_econn id (ec_with_general (cfg_general_inactivity_time cfg)))
         (tcp_sent id (ack_message logical sa 0) w).
Proof.
  intros Hs He Hh Hv Ht Hl Hsa Hta Hn logical. pose proof (len_nonneg data).
  rewrite tcp_callback_header by done. rewrite (proj2 (Z.ltb_ge n 8)), Hv by lia. cbn [negb orb].
  unfold tcp_dispatch. rewrite Ht, Hl.
  change (DOIP_PAYLOAD_TYPE_DIAG_MESSAGE =? DOIP_PAYLOAD_TYPE_ROUTING_ACTIVATION_REQ) with false.
  rewrite Z.eqb_refl. cbv iota.
  destruct Hh as (_&_&_&Hpl). rewrite Hl in Hpl. unfold is_u32 in Hpl.
  erewrite handle_diagnostic_eq; [|done|done|lia|apply doip_decode_diag_payload; done || lia].
  unfold diag_reply. by rewrite He.
Qed.

(** C7 (functional): what a complete diagnostic message on a connection leads
    to. If routing is not activated on the connection it is refused with a
    negative acknowledgement 0x02 and goes no further; if it is not addressed to
    the entity, with 0x03; otherwise it is acknowledged and handed
    to the UDS callback, which gets the two addresses and the user data, and the
    general inactivity timer restarts. So the UDS layer only ever runs for
    an activated connection. *)
Theorem diagnostic_message_gate {N A F} run_uds (w : world N (user F A)) id e h sa ta data rest n :
  can_send id w → econn_at w id = Some e →
  header_ok h → doip_validate_header (Some h) = true →
  payload_type h = DOIP_PAYLOAD_TYPE_DIAG_MESSAGE → payload_length h = 4 + len data →
  is_u16 sa → is_u16 ta → 8 <= n →
  let logical := cfg_logical_address (config (entity w)) in
  entity_tcp_rx_callback run_uds id (header_bytes h ++ diag_payload sa ta data ++ rest) n w =
    if negb (is_activated e) then Done (tt, tcp_sent id (ack_message logical 0 DOIP_DIAG_NACK_INVALID_SOURCE) w)
    else if negb (ta =? logical) then Done (tt, tcp_sent id (ack_message logical ta DOIP_DIAG_NACK_UNKNOWN_TARGET) w)
    else (match uds_callback (entity w) with
          | Some f => run_uds f sa ta (data ++ rest) (len data)
          | None => mret tt
          end;;
          cfg ← gets (λ w, config (entity w));
          upd_econn id (ec_with_general (cfg_general_inactivity_time cfg)))
         (tcp_sent id (ack_message logical sa 0) w).
Proof. apply diagnostic_message_eq. Qed.

Lemma diagnostic_message_gate_witness :
  let h := header_2019 DOIP_PAYLOAD_TYPE_DIAG_MESSAGE 6 in
  let m := header_bytes h ++ diag_payload 0x0E80 0x1000 [0x3E; 0x00] ++ [] in
  entity_tcp_rx_callback Demo.silent 0 m 14 (Demo.world_of Demo.fresh Script.quiet) =
    Done (tt, Demo.world_of Demo.fresh (Script.log 7 (ack_message 0x1000 0 2) Script.quiet)) ∧
  entity_tcp_rx_callback Demo.silent 0 m 14 (Demo.world_of Demo.active Script.quiet) =
    Done (tt, Demo.world_of Demo.active (Script.log 7 (ack_message 0x1000 0x0E80 0) Script.quiet)).
Proof.
  assert (∀ e, can_send 0 (Demo.world_of e Script.quiet)) as Hs.
  { intros e. split_and!; [done|by left|by eexists]. }
  intros h m. split.
  - unfold m. erewrite (diagnostic_message_gate Demo.silent _ 0 Demo.fresh h); [done|apply Hs|..]; try done; by_compute.
  - unfold m. erewrite (diagnostic_message_gate Demo.silent _ 0 Demo.active h); [done|apply Hs|..]; try done; by_compute.
Defined.

Lemma routing_activation_eq {N A F} run_uds (w : world N (user F A)) id e h r rest n :
  can_send id w → econn_at w id = Some e →
  header_ok h → doip_validate_header (Some h) = true →
  payload_type h = DOIP_PAYLOAD_TYPE_ROUTING_ACTIVATION_REQ → payload_length h = 11 →
  routing_req_ok r → 8 <= n →
  let src := rreq_source_address r in
  let cfg := config (entity w) in
  entity_tcp_rx_callback run_uds id (header_bytes h ++ routing_req_payload r ++ rest) n w =
    Done (tt,
      if decide (is_tester_address src)
      then tcp_sent id (routing_message src (cfg_logical_address cfg) 0x10) (put_econn id (activate cfg src e) w)
      else tcp_sent id (routing_message src (cfg_logical_address cfg) 0x00) w).
Proof.
  intros Hs He Hh Hv Ht Hl Hr Hn src cfg.
  rewrite tcp_callback_header by done. rewrite (proj2 (Z.ltb_ge n 8)), Hv by lia. cbn [negb orb].
  unfold tcp_dispatch. rewrite Ht, Z.eqb_refl, Hl.
  erewrite handle_routing_eq; [|done|done|by apply doip_decode_routing_req_payload].
  unfold routing_reply. rewrite He. fold src cfg.
  destruct (decide (is_tester_address src)); [by rewrite bool_decide_eq_true_2|by rewrite bool_decide_eq_false_2].
Qed.

(** C8 (functional): routing activation. A complete routing activation
    request from a tester address (0x0E00 to 0x0FFF) activates the connection
    for this address, starts the general inactivity timer and is answered with
    code 0x10; from any other address it changes nothing and is answered
    with code 0x00. Either way the reply names the tester and the entity. *)
Theorem routing_activation {N A F} run_uds (w : world N (user F A)) id e h r rest n :
  can_send id w → econn_at w id = Some e →
  header_ok h → doip_validate_header (Some h) = true →
  payload_type h = DOIP_PAYLOAD_TYPE_ROUTING_ACTIVATION_REQ → payload_length h = 11 →
  routing_req_ok r → 8 <= n →
  let src := rreq_source_address r in
  let cfg := config (entity w) in
  entity_tcp_rx_callback run_uds id (header_bytes h ++ routing_req_payload r ++ rest) n w =
    Done (tt,
      if decide (is_tester_address src)
      then tcp_sent id (routing_message src (cfg_logical_address cfg) 0x10) (put_econn id (activate cfg src e) w)
      else tcp_sent id (routing_message src (cfg_logical_address cfg) 0x00) w).
Proof. apply routing_activation_eq. Qed.

Lemma routing_activation_witness :
  let h := header_2019 DOIP_PAYLOAD_TYPE_ROUTING_ACTIVATION_REQ 11 in
  let m := header_bytes h ++ routing_req_payload (RoutingActivationReq 0x0E80 0 0 0) ++ [] in
  entity_tcp_rx_callback Demo.silent 0 m 19 (Demo.world_of Demo.fresh Script.quiet) =
    Done (tt, Demo.world_of Demo.active (Script.log 7 (routing_message 0x0E80 0x1000 0x10) Script.quiet)).
Proof.
  intros h m. unfold m.
  assert (can_send 0 (Demo.world_of Demo.fresh Script.quiet)) as Hs.
  { split_and!; [done|by left|by eexists]. }
  erewrite (routing_activation Demo.silent _ 0 Demo.fresh h); [done|exact Hs|..]; try done; by_compute.
Defined.
Lemma udp_callback_eq {N A F} (w : world N (user F A)) ip port h p n :
  config_ok (config (entity w)) → entity_interface (entity w) = OBJ → header_ok h → 17 <= len p →
  entity_udp_rx_callback ip port (header_bytes h ++ p) n w =
    Done (tt, if (8 <=? n) && doip_validate_header (Some h) &&
                 id_matches (config (entity w)) (payload_type h) p (payload_length h)
              then udp_sent ip port (id_message (config (entity w))) w else w).
Proof.
  intros Hcfg Hi Hh Hp. unfold entity_udp_rx_callback.
  destruct (Z.ltb_spec n 8) as [Hn|Hn]; [by rewrite (proj2 (Z.leb_gt 8 n)) by lia|].
  rewrite (proj2 (Z.leb_le 8 n)) by lia. cbn [andb].
  erewrite ST_bind_eq; [|by unfold lift; rewrite doip_decode_header_bytes].
  cbv beta iota. rewrite bool_decide_eq_true_2 by done. cbn [negb].
  destruct (doip_validate_header (Some h)); cbn [negb andb]; [|done].
  change (default uninit_header (Some h)) with h. cbv zeta.
  unfold ptr_add. change (Z.to_nat 8) with 8%nat. rewrite drop_header_bytes.
  destruct (_ || _) eqn:E; [by apply handle_vehicle_id_eq|].
  apply orb_false_iff in E as [[E1 E2]%orb_false_iff E3]. unfold id_matches. by rewrite E1, E2, E3.
Qed.

(** Vehicle identification. A datagram is answered, to its
    sender and with the entity's identification, exactly when it has a header
    that [doip_validate_header] accepts and asks for any vehicle, for
    the entity's VIN (at least 17 payload bytes announced, the first 17 equal
    to it) or for its EID (6 bytes); any other datagram is ignored. *)
Theorem vehicle_id_request {N A F} (w : world N (user F A)) ip port h p n :
  config_ok (config (entity w)) → entity_interface (entity w) = OBJ → header_ok h → 17 <= len p →
  entity_udp_rx_callback ip port (header_bytes h ++ p) n w =
    Done (tt, if (8 <=? n) && doip_validate_header (Some h) &&
                 id_matches (config (entity w)) (payload_type h) p (payload_length h)
              then udp_sent ip port (id_message (config (entity w))) w else w).
Proof. apply udp_callback_eq. Qed.

Lemma vehicle_id_request_witness :
  let h := header_2019 DOIP_PAYLOAD_TYPE_VEHICLE_ID_REQ_VIN 17 in
  entity_udp_rx_callback "10.0.0.1"%string 5000 (header_bytes h ++ replicate 17 0x41) 25
    (Demo.world_of Demo.fresh Script.quiet) =
  Done (tt, Demo.world_of Demo.fresh (Script.log 100 (id_message Demo.cfg) Script.quiet)).
Proof. intros h. rewrite vehicle_id_request; [done|by_compute|done|by_compute|done]. Defined.

(** The payload length is believed, not checked against the
    datagram. A datagram that consists of the header of a VIN request alone is
    answered as if it carried the VIN when the receive buffer still holds the
    VIN from an earlier datagram. *)
Theorem vehicle_id_reads_stale_bytes {N A F} (w : world N (user F A)) h ip port n :
  iface_ok (w_iface w) → config_ok (config (entity w)) → entity_interface (entity w) = OBJ →
  header_ok h → doip_validate_header (Some h) = true →
  payload_type h = DOIP_PAYLOAD_TYPE_VEHICLE_ID_REQ_VIN → 17 <= payload_length h →
  0 <= udp_socket (w_iface w) →
  udp_recvfrom (net_ops (w_iface w)) (udp_socket (w_iface w)) DOIP_RX_BUFFER_SIZE (w_net w) =
    (8, header_bytes h, ip, port, n) →
  take 17 (drop 8 (udp_rx_buffer (w_iface w))) = cfg_vin (config (entity w)) →
  process_udp (Some entity_udp_rx_callback) w =
    Done (tt, udp_sent ip port (id_message (config (entity w)))
                (set_udp_rx (patch (udp_rx_buffer (w_iface w)) 0 (header_bytes h)) (set_net n w))).
Proof.
  intros (_&_&Hbl&Hbo) Hcfg Hi Hh Hv Ht Hl Hs Hrecv Hvin. unfold DOIP_RX_BUFFER_SIZE in Hbl.
  apply wp_done_unit. unfold process_udp. apply wp_bind, wp_gets. rewrite (proj2 (Z.leb_le 0 _)) by lia.
  apply wp_bind, wp_call_net. rewrite Hrecv. intros [[[br d] ip'] port'] n' [= <- <- <- <- <-].
  change (0 <? 8) with true. cbv iota. apply wp_bind, wp_gets. apply wp_bind.
  eapply wp_lift; [apply memcpy_patch; rewrite ?len_header_bytes; simpl; lia|].
  apply wp_bind, wp_modify. eapply wp_intro; [|reflexivity].
  change (udp_rx_buffer (w_iface (set_net n w))) with (udp_rx_buffer (w_iface w)).
  rewrite patch_0 by (rewrite len_header_bytes; lia). change (length (header_bytes h)) with 8%nat.
  set (w1 := set_udp_rx _ _).
  rewrite (udp_callback_eq w1 ip port h _ 8); [|done|done|done|].
  - change (entity w1) with (entity w). rewrite Hv, Ht. unfold id_matches.
    change (DOIP_PAYLOAD_TYPE_VEHICLE_ID_REQ_VIN =? DOIP_PAYLOAD_TYPE_VEHICLE_ID_REQ) with false.
    rewrite Z.eqb_refl, (proj2 (Z.leb_le DOIP_VIN_LENGTH _)) by done.
    by rewrite bool_decide_eq_true_2.
  - rewrite len_drop_nat; lia.
Qed.

Lemma vehicle_id_reads_stale_bytes_witness :
  let h := header_2019 DOIP_PAYLOAD_TYPE_VEHICLE_ID_REQ_VIN 17 in
  let buf := patch (replicate (Z.to_nat 4096) 0) 8 (replicate 17 0x41) in
  let w := World (Interface Script.ops 100 101 [Script.open_slot; Script.empty_slot] buf)
             (Script.Network [] [header_bytes h] [] [] [])
             (User (Entity Demo.cfg OBJ [Demo.fresh; Demo.off] 0 0 (Some tt)) tt) in
  ∃ w', process_udp (Some entity_udp_rx_callback) w = Done (tt, w') ∧
        Script.sent (w_net w') = [(100, id_message Demo.cfg)].
Proof.
  intros h buf w. eexists. split.
  - apply (vehicle_id_reads_stale_bytes w h "192.168.0.1"%string 5000 Script.quiet); try done.
    split; [done|]. split; [|split; [by vm_compute|]].
    + by apply Forall_cons; split; [apply Script.open_slot_ok|apply Forall_singleton, Script.empty_slot_ok].
    + apply bytes_ok_patch; [apply Script.replicate_zero_ok|by_compute].
  - by vm_compute.
Defined.

(** C24 (termination): eight bytes hang the task. The message size is computed
    in 32 bits, so a header that announces a payload of 2^32 - 8 bytes is a
    complete message of size 0: it is handed over and removed without effect,
    forever. With these eight bytes in an empty receive buffer, the loop of
    [doip_interface_process] does not terminate, however much fuel it gets. *)
Theorem zero_size_message_hangs {N A F} run_uds (w : world N (user F A)) fuel i c h n' disc :
  conn_at w i = Some c → conn_ok c → 0 <= socket_fd c → rx_buffer_used c = 0 →
  header_ok h → payload_length h = 2 ^ 32 - 8 →
  tcp_recv (net_ops (w_iface w)) (socket_fd c) DOIP_RX_BUFFER_SIZE (w_net w) = (8, header_bytes h, n') →
  process_connection fuel (Some (entity_tcp_rx_callback run_uds)) disc i w = Diverge.
Proof.
  intros Hc (Hl&Hb&_) Hfd Hu Hh Hpl Hrecv. unfold DOIP_RX_BUFFER_SIZE in *. apply wp_never_returns.
  unfold process_connection. apply wp_bind. apply (wp_get_conn _ _ _ c); [done|].
  rewrite (proj2 (Z.leb_le _ _)) by lia. rewrite Hu.
  apply wp_bind, wp_call_net. change (u32 (DOIP_RX_BUFFER_SIZE - 0)) with 4096. rewrite Hrecv.
  intros [br d] n [= <- <- <-]. change (0 <? 8) with true. cbv iota. apply wp_bind.
  eapply wp_lift; [apply memcpy_patch; rewrite ?len_header_bytes; lia|].
  rewrite patch_0 by (rewrite len_header_bytes; lia). change (length (header_bytes h)) with 8%nat.
  apply wp_bind. apply (wp_upd_conn _ _ _ c); [done|].
  apply wp_bind. eapply wp_upd_conn; [by eapply conn_at_put_eq|]. rewrite put_put.
  cbn [rx_buffer_used with_rx]. rewrite Hu. change (u32 (0 + u32 8)) with 8.
  apply wp_never_returns. eapply process_messages_zero; [by eapply conn_at_put_eq| | | |].
  - unfold conn_ok, DOIP_RX_BUFFER_SIZE. cbn [rx_buffer rx_buffer_used with_used with_rx].
    rewrite len_app, len_header_bytes, len_drop_nat by lia. split_and!; [lia| |lia|lia].
    apply bytes_ok_app; [by apply header_bytes_ok|auto with width].
  - done.
  - unfold pending. cbn [rx_buffer_used rx_buffer with_rx with_used]. change (Z.to_nat 8) with 8%nat.
    rewrite take_app_length' by done. unfold header_bytes. simpl. rewrite of_be32_be32; [by rewrite Hpl|].
    by destruct Hh as (_&_&_&?).
  - cbn [call_tcp_callback rx_buffer with_used with_rx]. by rewrite tcp_callback_header.
Qed.

Lemma zero_size_message_hangs_witness :
  let h := header_2019 DOIP_PAYLOAD_TYPE_DIAG_MESSAGE (2 ^ 32 - 8) in
  let ops := NetOps (N := unit) (λ _ n, (100, n)) (λ _ _ _ _ n, (0, n)) (λ _ _ n, (-1, [], ""%string, 0, n))
               (λ _ n, (101, n)) (λ _ n, (-1, n)) (λ _ _ n, (-1, n)) (λ _ _ n, (0, n))
               (λ _ _ n, (8, header_bytes h, n)) (λ _ n, n) in
  let w := World (Interface ops 100 101 [Script.open_slot; Script.empty_slot] []) tt
             (User (Entity Demo.cfg OBJ [Demo.fresh; Demo.off] 0 0 (Some tt)) tt) in
  process_connection 1000 (Some (entity_tcp_rx_callback (λ _ _ _ _ _, mret tt))) None 0 w = Diverge.
Proof.
  intros h ops w.
  apply (zero_size_message_hangs _ w _ 0 Script.open_slot h tt); try done; apply Script.open_slot_ok.
Defined.

(** C5 (invariant): the entity on the network. From any state that satisfies
    the invariant [entity_inv] (well-formed buffers and tables, every open
    connection of the interface recorded by the entity, every activated one
    with a tester's address), and for any network that keeps the receive contract
    and any UDS layer that keeps its own, [doip_entity_process] accesses no
    memory outside its objects and, if it returns, returns OK in a state
    that satisfies the invariant again, and so does the timer update after it. *)
Theorem entity_cycle_safe {N A F} run_uds (K : A → Prop) fuel cb elapsed (w : world N (user F A)) :
  uds_layer_ok run_uds K → entity_inv K w → 0 <= elapsed →
  wp True (r ← doip_entity_process run_uds fuel OBJ cb;
           doip_entity_update_timers OBJ elapsed;; mret r)
    (λ r w', r = DOIP_RESULT_OK ∧ entity_inv K w') w.
Proof.
  intros Huds Hw He. apply wp_bind. unfold doip_entity_process. apply wp_bind, wp_modify.
  assert (entity_inv K (set_uds_callback cb w)) as Hw1.
  { destruct Hw as (?&?&(?&?&?&?&?&?)&?&?). apply inv_intro; try done. }
  apply wp_bind, wp_gets. assert (entity_interface (entity (set_uds_callback cb w)) = OBJ) as -> by apply Hw1.
  eapply wp_mono; [by apply (wp_interface_process _ _ _ _ _ (entity_client_ok run_uds K Huds))|].
  intros r w2 [-> Hw2]. apply wp_bind. destruct (update_timers_eq K elapsed w2 Hw2 He) as [E Hw3].
  eapply wp_intro; [exact E|]. by apply wp_ret.
Qed.

Lemma entity_cycle_safe_witness :
  wp True (r ← doip_entity_process Demo.silent 10 OBJ (Some tt);
           doip_entity_update_timers OBJ 10;; mret r)
    (λ r w', r = DOIP_RESULT_OK ∧ entity_inv (λ _, True) w') (Demo.world_of Demo.active Script.quiet).
Proof.
  apply entity_cycle_safe; [apply Demo.silent_ok| |done]. apply Demo.inv; [|done].
  apply Demo.on_ok. by left.
Defined.

Lemma announcement_schedule_witness :
  ∃ w', run_timers 120 10 (Demo.world_of Demo.fresh Script.quiet) = Done (tt, w') ∧
        map snd (Script.sent (w_net w')) = [] ++ replicate 3 (id_message Demo.cfg).
Proof.
  apply (announcement_schedule (λ _, True) (λ n, map snd (Script.sent n)) 120); try done.
  - intros s m ip p n. simpl. by rewrite map_app.
  - apply Demo.inv; [|done]. apply Demo.on_ok. by right.
Defined.

Lemma inactivity_closes_witness :
  ∃ w', run_timers 200 10 (Demo.world_of Demo.fresh Script.quiet) = Done (tt, w') ∧
        conn_at w' 0 = Some (if decide (200%nat = 0%nat ∨ Z.of_nat 200 * 10 < 2000)
                             then Script.open_slot else closed Script.open_slot).
Proof.
  apply (inactivity_closes (λ _, True) 200 10 0 _ Script.open_slot Demo.fresh); try done; [|by left].
  apply Demo.inv; [|done]. apply Demo.on_ok. by right.
Defined.

Lemma send_response_routing_witness :
  doip_entity_send_diagnostic_response OBJ 0x0E80 (Some ([0x7E; 0x00] ++ [])) (len [0x7E; 0x00])
    (Demo.world_of Demo.active Script.quiet) =
  Done (DOIP_RESULT_OK,
        Demo.world_of Demo.active
          (Script.log 7 (message_2019 DOIP_PAYLOAD_TYPE_DIAG_MESSAGE (diag_payload 0x1000 0x0E80 [0x7E; 0x00]))
             Script.quiet)).
Proof.
  rewrite (send_response_routing (λ _, True)); [by vm_compute| |by_compute].
  apply Demo.inv; [|done]. apply Demo.on_ok. by left.
Defined.

Lemma timeout_leaves_stale_activation_witness :
  let w := Demo.world_of Demo.active Script.quiet in
  ∃ w', doip_entity_update_timers OBJ 300000 w = Done (tt, w') ∧ entity_inv (λ _, True) w' ∧
        conn_at w' 0 = Some (closed Script.open_slot) ∧ econn_at w' 0 = Some Demo.active ∧
        ∀ d rest, len d <= 4092 →
          doip_entity_send_diagnostic_response OBJ (ec_source_address Demo.active) (Some (d ++ rest)) (len d) w' =
            Done (DOIP_RESULT_NOT_READY, w').
Proof.
  intros w.
  apply (timeout_leaves_stale_activation (λ _, True) w 300000 Script.open_slot Demo.active); try done.
  apply Demo.inv; [|done]. apply Demo.on_ok. by left.
Defined.
