(* ===== verification/DoipTask.v ===== *)
(** * The application

    [src/doip/doip_task_example.c]: the configuration of the
    vehicle, the task that runs the entity, the callback that connects the
    entity to the UDS server, and the start-up sequence.

    The operating system and the network below the stack are parameters: a
    table [os_ops] for the FreeRTOS calls, a table of network operations for
    the adapter, and [netif_add] for the interface set-up of lwIP. Log
    messages are left out ([DoipLog] models the logger). *)

From Stdlib Require Import ZArith Lia.
From Stdlib Require Import Strings.String.
From S2P Require Import Prelude DoipProtocol Uds DoipInterface DoipEntity.
Local Open Scope list_scope.
Local Open Scope Z_scope.

Definition DOIP_ENTITY_CYCLE_TIME_MS : Z := 10.
Definition ETHIF_NUMBER : nat := 1.

(** What the application uses of FreeRTOS, on an operating-system state [O]. *)
Record os_ops (O : Type) := OsOps {
  xSemaphoreCreateMutex : O → ptr * O;
  xSemaphoreTake : Z → O → bool * O;
  xSemaphoreGive : O → O;
  xTaskCreate : O → bool * O;
}.
Arguments OsOps {O}.
Arguments xSemaphoreCreateMutex {O}. Arguments xSemaphoreTake {O}.
Arguments xSemaphoreGive {O}. Arguments xTaskCreate {O}.

(** The application's objects beside the entity and the interface. *)
Record globals (O : Type) := Globals {
  g_uds_context : uds_context_t;
  g_doip_mutex : ptr;
  g_os : O;
}.
Arguments Globals {O}. Arguments g_uds_context {O}. Arguments g_doip_mutex {O}. Arguments g_os {O}.

(** The one UDS callback of the firmware. *)
Inductive uds_fn := doip_entity_uds_rx_handler_fn.

(** The vehicle's configuration, as [doip_entity_task] writes it. *)
Definition entity_config : doip_entity_config_t := {|
  cfg_vin := literal "WVWZZZ1KZ1A234567"%string;
  cfg_eid := [0x00; 0x1B; 0x2C; 0x3D; 0x4E; 0x5F];
  cfg_gid := [0xFF; 0xFF; 0xFF; 0xFF; 0xFF; 0xFF];
  cfg_logical_address := 0x1000;
  cfg_general_inactivity_time := 300000;
  cfg_initial_inactivity_time := 2000;
  cfg_alive_check_time := 500;
  cfg_max_tester_connections := 2;
|}.

Section task.
Context {N O : Type} (os : os_ops O) (net : doip_network_ops_t N).
Local Abbreviation U := (user uds_fn (globals O)).
Local Abbreviation W := (world N U).

Definition globals_of (w : W) : globals O := u_app (w_user w).
Definition set_globals (g : globals O) (w : W) : W := set_user (User (entity w) g) w.
Definition set_uds_context (c : uds_context_t) (w : W) : W :=
  set_globals (Globals c (g_doip_mutex (globals_of w)) (g_os (globals_of w))) w.
Definition set_mutex (m : ptr) (w : W) : W :=
  set_globals (Globals (g_uds_context (globals_of w)) m (g_os (globals_of w))) w.
Definition set_os (o : O) (w : W) : W :=
  set_globals (Globals (g_uds_context (globals_of w)) (g_doip_mutex (globals_of w)) o) w.

Definition call_os {B} (f : O → B * O) : ST W B := λ w,
  let '(b, o) := f (g_os (globals_of w)) in Done (b, set_os o w).

(** ** The UDS callback *)

Definition doip_entity_uds_rx_handler (source_addr target_addr : Z) (data : bytes) (length : Z) :
    ST W unit :=
  sid ← lift (load data 0);
  let request := Request sid (ptr_add data 1) (u32 (length - 1)) in
  let response := Response (local_array 256) 256 0 in
  ctx ← gets (λ w, g_uds_context (globals_of w));
  '(ok, ctx', response) ← lift (uds_process_request (Some ctx) (Some request) (Some response));
  modify (set_uds_context (default ctx ctx'));;
  if ok : bool then
    match response with
    | Some r => doip_entity_send_diagnostic_response OBJ source_addr (Some (resp_buffer r))
                  (resp_actual_length r);; mret tt
    | None => mret tt
    end
  else mret tt.

Definition run_uds (f : uds_fn) : Z → Z → bytes → Z → ST W unit :=
  match f with doip_entity_uds_rx_handler_fn => doip_entity_uds_rx_handler end.

(** ** The lock *)

Definition doip_lock (timeout_ms : Z) : ST W bool :=
  m ← gets (λ w, g_doip_mutex (globals_of w));
  match m with
  | OBJ => call_os (xSemaphoreTake os timeout_ms)
  | NULL => mret false
  end.

Definition doip_unlock : ST W unit :=
  m ← gets (λ w, g_doip_mutex (globals_of w));
  match m with
  | OBJ => call_os (λ o, (tt, xSemaphoreGive os o))
  | NULL => mret tt
  end.

(** ** The task *)

(** The body of the task's infinite loop; [fuel] bounds the message loop of
    [doip_interface_process]. *)
Definition task_cycle (fuel : nat) : ST W unit :=
  locked ← doip_lock 100;
  if locked : bool then
    doip_entity_process run_uds fuel OBJ (Some doip_entity_uds_rx_handler_fn);;
    doip_entity_update_timers OBJ DOIP_ENTITY_CYCLE_TIME_MS;;
    doip_unlock
  else mret tt.

(** The task for its first [cycles] cycles; [false] when the set-up failed and
    the task deleted itself. *)
Definition doip_entity_task (fuel cycles : nat) : ST W bool :=
  r ← doip_interface_init OBJ (Some net);
  if negb (bool_decide (r = DOIP_RESULT_OK)) then mret false else
  r ← doip_entity_init OBJ (Some entity_config) OBJ;
  if negb (bool_decide (r = DOIP_RESULT_OK)) then mret false else
  r ← doip_entity_start OBJ;
  if negb (bool_decide (r = DOIP_RESULT_OK)) then mret false else
  for_each (replicate cycles tt) (λ _, task_cycle fuel);;
  mret true.

(** ** Start-up *)

(** [netif_add], [netif_set_default] and [netif_set_up] of lwIP: address, mask and
    gateway of the interface, in network order. *)
Context (netif_add : bytes → bytes → bytes → N → N).

Definition interface_init : ST W unit :=
  for_each (seq 0 ETHIF_NUMBER) (λ i,
    modify (λ w, set_net (netif_add [10; 42; 0; u8 (200 + Z.of_nat i)] [255; 255; 255; 0]
                            [10; 42; 0; 1] (w_net w)) w)).

(** [tcpip_init] and [netconn_thread_init]. *)
Context (tcpip_init : N → N).

(** [None]: the start-up halts because an OS object cannot be created;
    otherwise the scheduler runs the entity's task. *)
Definition doip_application_init (fuel cycles : nat) : ST W (option bool) :=
  modify (λ w, set_net (tcpip_init (w_net w)) w);;
  interface_init;;
  ctx ← gets (λ w, g_uds_context (globals_of w));
  modify (set_uds_context (default ctx (uds_init (Some ctx))));;
  m ← call_os (xSemaphoreCreateMutex os);
  modify (set_mutex m);;
  match m with
  | NULL => mret None
  | OBJ =>
      created ← call_os (xTaskCreate os);
      if negb created then mret None else
      r ← doip_entity_task fuel cycles;
      mret (Some r)
  end.
End task.

(** ** The UDS callback serves the reference behaviour *)

Definition response_object : uds_response_t := Response (local_array 256) 256 0.

Lemma answer_response_object reply : 0 < len reply <= 20 →
  answer response_object reply = Response (reply ++ drop (length reply) (local_array 256)) 256 (len reply).
Proof.
  intros H. unfold answer. rewrite (proj2 (Z.leb_le _ _)) by (simpl; lia).
  done.
Qed.

Section uds_callback.
Context {N O : Type}.
Implicit Types w : world N (user uds_fn (globals O)).

Definition K (g : globals O) : Prop := uds_context_ok (g_uds_context g).

(** The world after a request was served: the new context, and the reply on its
    way to the tester [sa] if one of the connections is his. *)
Definition served (sa sid : Z) (d : bytes) w : world N (user uds_fn (globals O)) :=
  let '(c', reply) := uds_spec (g_uds_context (globals_of w)) sid d in
  let w' := set_uds_context c' w in
  match find_tester sa w' with
  | Some i => tcp_sent i (response_message w' sa reply) w'
  | None => w'
  end.

Lemma handler_served w sa ta sid data d rest n :
  entity_inv K w → bytes_ok d →
  uds_process_request (Some (g_uds_context (globals_of w))) (Some (Request sid data (u32 (n - 1))))
    (Some response_object) =
  uds_process_request (Some (g_uds_context (globals_of w))) (Some (request_of sid d rest))
    (Some response_object) →
  doip_entity_uds_rx_handler sa ta (sid :: data) n w = Done (tt, served sa sid d w).
Proof.
  intros Hw Hd Hreq. unfold doip_entity_uds_rx_handler, served.
  rewrite (ST_bind_eq _ _ w sid w) by done.
  rewrite (ST_bind_eq _ _ w (g_uds_context (globals_of w)) w) by done.
  unfold ptr_add. change (Z.to_nat 1) with 1%nat. cbn [drop].
  assert (resp_ok response_object) as Hro by by_compute.
  rewrite (process_request_spec _ sid d rest _ Hro Hd) in Hreq.
  pose proof (len_uds_spec (g_uds_context (globals_of w)) sid d) as Hl.
  pose proof (uds_spec_context_ok (g_uds_context (globals_of w)) sid d) as Hcok.
  destruct (uds_spec _ sid d) as [c' reply]. simpl in Hl, Hcok.
  rewrite answer_response_object in Hreq by lia.
  cbv beta zeta. rewrite drop_0. fold response_object.
  erewrite ST_bind_eq; [|unfold lift; rewrite Hreq; reflexivity].
  cbv beta iota. rewrite (ST_bind_eq _ _ w tt (set_uds_context c' w)) by done.
  cbn [resp_actual_length resp_buffer]. rewrite (proj2 (Z.ltb_lt 0 _)) by lia.
  set (w1 := set_uds_context c' w).
  assert (entity_inv K w1) as Hw1.
  { destruct Hw as (?&?&?&?&HK). apply inv_intro; try done. by apply Hcok. }
  assert (is_u32 (12 + len reply)) as Hu by (unfold is_u32; lia).
  unfold mbind, ST_bind. rewrite (send_response_eq K w1 sa reply _ Hw1 Hu).
  rewrite (proj2 (Z.ltb_ge 4092 _)) by lia. destruct (find_tester sa w1) as [i|] eqn:Ef; [|done].
  destruct (find_tester_id K w1 sa i Hw1 Ef) as [Hi _].
  destruct (conn_at_some w1 i (proj1 Hw1) Hi) as (c&Hc&_).
  unfold tcp_sent. rewrite Hc. destruct (socket_fd c <? 0); [done|].
  by destruct (tcp_send _ _ _ _).
Qed.

(** A request with its service id; [rest] is what lies behind it in the
    receive buffer. *)
Lemma handler_request w sa ta sid d rest n : entity_inv K w → bytes_ok d → n = 1 + len d → is_u32 n →
  doip_entity_uds_rx_handler sa ta (sid :: d ++ rest) n w = Done (tt, served sa sid d w).
Proof.
  intros Hw Hd -> Hn. pose proof (len_nonneg d). unfold is_u32 in Hn.
  apply (handler_served _ _ _ _ _ d rest); [done|done|]. unfold request_of.
  replace (u32 (1 + len d - 1)) with (len d); [done|].
  replace (1 + len d - 1) with (len d) by lia. by rewrite u32_small by (unfold is_u32; lia).
Qed.

(** An empty request: the length wraps, and what lies behind the message is
    served. *)
Lemma handler_empty w sa ta sid d : entity_inv K w → bytes_ok d → 5 <= len d →
  doip_entity_uds_rx_handler sa ta (sid :: d) 0 w = Done (tt, served sa sid d w).
Proof.
  intros Hw Hd Hl. apply (handler_served _ _ _ _ _ d []); [done|done|].
  unfold request_of. rewrite app_nil_r. apply process_request_length; [by vm_compute|done].
Qed.

Lemma served_net w sa sid d : entity_inv K w → ∃ net c,
  served sa sid d w =
    set_user (User (entity w) (Globals c (g_doip_mutex (globals_of w)) (g_os (globals_of w)))) (set_net net w) ∧
  uds_context_ok c.
Proof.
  intros Hw. unfold served. pose proof (uds_spec_context_ok (g_uds_context (globals_of w)) sid d) as Hcok.
  destruct (uds_spec _ sid d) as [c' reply]. simpl in Hcok.
  assert (uds_context_ok c') as Hc' by (apply Hcok, Hw).
  set (w1 := set_uds_context c' w).
  assert (∀ net, ∃ net' c, set_net net w1 =
    set_user (User (entity w) (Globals c (g_doip_mutex (globals_of w)) (g_os (globals_of w)))) (set_net net' w) ∧
    uds_context_ok c) as Hdone.
  { intros n. exists n. eexists. split; [reflexivity|]. done. }
  destruct (find_tester sa w1) as [i|].
  - destruct (tcp_sent_net i (response_message w1 sa reply) w1) as [n ->]. apply Hdone.
  - destruct (Hdone (w_net w)) as (n&c&E&Hc). exists n, c. split; [|done]. by rewrite <- E.
Qed.

(** [K] and what is known of the mutex and the operating system. *)
Definition K_os (P : ptr → O → Prop) (g : globals O) : Prop := K g ∧ P (g_doip_mutex g) (g_os g).

Lemma entity_inv_K P w : entity_inv (K_os P) w → entity_inv K w.
Proof. intros (?&?&?&?&[? _]). by apply inv_intro. Qed.

(** The UDS callback keeps any such knowledge: it calls the network only. *)
Lemma uds_layer_os P : uds_layer_ok (N := N) run_uds (K_os P).
Proof.
  intros [] sa ta d n w Hw _ Hsa Hta Hd Hl Hn. simpl run_uds.
  destruct d as [|sid data]; [done|]. rewrite len_cons in Hl. apply Forall_cons in Hd as [Hsid Hd].
  pose proof (entity_inv_K P w Hw) as HwK.
  assert (∃ d, doip_entity_uds_rx_handler sa ta (sid :: data) n w = Done (tt, served sa sid d w)) as [d E].
  { destruct (decide (n = 0)) as [->|Hn0].
    - exists data. apply handler_empty; [done|done|lia].
    - exists (take (Z.to_nat (n - 1)) data).
      rewrite <- (take_drop (Z.to_nat (n - 1)) data) at 1.
      apply handler_request; [done|by apply bytes_ok_take| |unfold is_u32; lia].
      rewrite len_take by lia. lia. }
  eapply wp_intro; [exact E|]. destruct (served_net w sa sid d HwK) as (net&c&->&Hc).
  eexists _, _. split; [reflexivity|]. split; [done|]. apply Hw.
Qed.
End uds_callback.

(** ** Start-up establishes the invariant *)

(** Static memory before start-up: arrays of the right size, any contents. *)
Definition raw_slot (c : doip_tcp_connection_t) : Prop :=
  len (rx_buffer c) = DOIP_RX_BUFFER_SIZE ∧ bytes_ok (rx_buffer c).
Definition raw_memory {N F A} (w : world N (user F A)) : Prop :=
  length (connections (w_iface w)) = 2%nat ∧ Forall raw_slot (connections (w_iface w)) ∧
  len (udp_rx_buffer (w_iface w)) = DOIP_RX_BUFFER_SIZE ∧ bytes_ok (udp_rx_buffer (w_iface w)) ∧
  length (entity_connections (entity w)) = 2%nat.

Definition reset_slot (c : doip_tcp_connection_t) : doip_tcp_connection_t :=
  TcpConnection INVALID_SOCKET DOIP_CONN_STATE_CLOSED 0 0 (rx_buffer c) 0.
Definition reset_econn : doip_entity_connection_t := EntityConnection (-1) 0 false 0 0 0 false.

Lemma list_2 {A} (l : list A) : length l = 2%nat → ∃ x y, l = [x; y].
Proof. destruct l as [|x [|y [|]]]; try done. by exists x, y. Qed.

Lemma interface_init_eq {N U} ops (w : world N U) c0 c1 : connections (w_iface w) = [c0; c1] →
  doip_interface_init OBJ (Some ops) w =
    Done (DOIP_RESULT_OK, set_iface (Interface ops INVALID_SOCKET INVALID_SOCKET
                                       [reset_slot c0; reset_slot c1] (udp_rx_buffer (w_iface w))) w).
Proof. destruct w as [[o us ls cs ub] n u]; simpl. intros ->. reflexivity. Qed.

Lemma entity_init_eq {N F A} cfg (w : world N (user F A)) e0 e1 :
  entity_connections (entity w) = [e0; e1] →
  doip_entity_init OBJ (Some cfg) OBJ w =
    Done (DOIP_RESULT_OK, set_entity (Entity cfg OBJ [reset_econn; reset_econn] 0 0 (uds_callback (entity w))) w).
Proof. destruct w as [f n [[cfg' p cs cnt tm cb] g]]; simpl. intros ->. reflexivity. Qed.

Lemma entity_config_ok : config_ok entity_config.
Proof. by_compute. Qed.

Section startup.
Context {N O : Type} (os : os_ops O) (net : doip_network_ops_t N) `{!NetLaws net}.
Implicit Types w : world N (user uds_fn (globals O)).

(** The state before the first cycle: both tables reset, the sockets open, the
    first announcement due. *)
Definition started w : Prop :=
  entity_inv K w ∧ net_ops (w_iface w) = net ∧ config (entity w) = entity_config ∧
  announcement_count (entity w) = 0 ∧ announcement_timer (entity w) = 0 ∧
  Forall (λ c, state c = DOIP_CONN_STATE_CLOSED) (connections (w_iface w)) ∧
  0 <= udp_socket (w_iface w) ∧ 0 <= tcp_listen_socket (w_iface w).

Definition task_setup : ST (world N (user uds_fn (globals O))) bool :=
  r ← doip_interface_init OBJ (Some net);
  if negb (bool_decide (r = DOIP_RESULT_OK)) then mret false else
  r ← doip_entity_init OBJ (Some entity_config) OBJ;
  if negb (bool_decide (r = DOIP_RESULT_OK)) then mret false else
  r ← doip_entity_start OBJ;
  mret (bool_decide (r = DOIP_RESULT_OK)).

Lemma tables_reset c0 c1 ub cfg (cb : option uds_fn) (n : N) (g : globals O) us ls :
  raw_slot c0 → raw_slot c1 → len ub = DOIP_RX_BUFFER_SIZE → bytes_ok ub → K g → config_ok cfg →
  entity_inv K (World (Interface net us ls [reset_slot c0; reset_slot c1] ub) n
                  (User (Entity cfg OBJ [reset_econn; reset_econn] 0 0 cb) g)).
Proof.
  intros [H0 H0b] [H1 H1b] Hu Hub HK Hcfg. apply inv_intro; try done.
  - split; [done|]. split; [|done].
    repeat constructor; simpl; try done; unfold DOIP_RX_BUFFER_SIZE; lia.
  - split; [done|]. split; [done|]. split; [done|]. split; [|by_compute].
    intros [|[|i]] e He; simplify_eq/=; split_and!; try done; by right.
  - intros i c [Hi Hc]%conn_at_inv. simpl in Hc.
    destruct (Z.to_nat i) as [|[|k]]; simplify_eq/=; done.
Qed.

Lemma task_setup_spec w : raw_memory w → K (globals_of w) →
  wp False task_setup (λ ok w', globals_of w' = globals_of w ∧ (ok = true → started w')) w.
Proof.
  intros (Hl&Hs&Hu&Hub&Hel) HK. apply list_2 in Hl as (c0&c1&Ec). apply list_2 in Hel as (e0&e1&Ee).
  rewrite Ec in Hs. apply Forall_cons in Hs as [Hs0 Hs1]. apply Forall_cons in Hs1 as [Hs1 _].
  unfold task_setup. apply wp_bind. eapply wp_intro; [by apply interface_init_eq|].
  rewrite bool_decide_eq_true_2 by done. cbn [negb].
  apply wp_bind. eapply wp_intro; [by eapply entity_init_eq|].
  rewrite bool_decide_eq_true_2 by done. cbn [negb].
  unfold doip_entity_start. repeat first [apply wp_bind | apply wp_gets].
  cbn [entity u_entity set_entity entity_interface w_user set_user].
  apply wp_call_net. intros us n1 _.
  apply wp_bind, wp_modify. destruct (Z.ltb_spec us 0); [by apply wp_ret, wp_ret|].
  apply wp_ret. rewrite bool_decide_eq_true_2 by done. cbn [negb].
  apply wp_bind. unfold doip_interface_start_tcp_server. apply wp_bind, wp_call_net. intros ls n2 _.
  apply wp_bind, wp_modify. destruct (Z.ltb_spec ls 0); [by apply wp_ret, wp_ret|].
  apply wp_ret. rewrite bool_decide_eq_true_2 by done. cbn [negb].
  repeat first [apply wp_bind | apply wp_modify | apply wp_ret]. split; [by destruct w|]. intros _.
  destruct w as [[o us0 ls0 cs ub] n [[cfg' p es cnt tm cb] g]]. simpl in *.
  split; [|split_and!; try done; by repeat constructor].
  by apply tables_reset; [..|apply entity_config_ok].
Qed.

Lemma task_setup_then (Q : world N (user uds_fn (globals O)) → Prop) w fuel cycles : raw_memory w → K (globals_of w) →
  (∀ w', started w' → globals_of w' = globals_of w →
     wp True (for_each (replicate cycles tt) (λ _, task_cycle os fuel)) (λ _, Q) w') →
  wp True (doip_entity_task os net fuel cycles) (λ r w', r = true → Q w') w.
Proof.
  intros Hraw HK Hloop. pose proof (task_setup_spec w Hraw HK) as Hset.
  unfold doip_entity_task, task_setup, wp in *. unfold mbind, ST_bind in *.
  destruct (doip_interface_init _ _ _) as [[r1 w1]| |]; [|done..].
  destruct (negb _); [done|].
  destruct (doip_entity_init _ _ _ _) as [[r2 w2]| |]; [|done..].
  destruct (negb _); [done|].
  destruct (doip_entity_start _ _) as [[r3 w3]| |]; [|done..]. unfold mret, ST_ret in Hset.
  destruct (bool_decide (r3 = DOIP_RESULT_OK)); cbn [negb]; [|done]. destruct Hset as [Hg Hset].
  specialize (Hloop w3 (Hset eq_refl) Hg).
  by destruct (for_each (replicate cycles tt) _ w3) as [[[] w4]| |]; [intros _|..].
Qed.

(** What the task does while it holds the lock. *)
Definition task_body (fuel : nat) : ST (world N (user uds_fn (globals O))) unit :=
  doip_entity_process run_uds fuel OBJ (Some doip_entity_uds_rx_handler_fn);;
  doip_entity_update_timers OBJ DOIP_ENTITY_CYCLE_TIME_MS.

Lemma task_body_safe P fuel w : entity_inv (K_os P) w → wp True (task_body fuel) (λ _, entity_inv (K_os P)) w.
Proof.
  intros Hw. unfold task_body.
  apply wp_bind. unfold doip_entity_process. apply wp_bind, wp_modify. apply wp_bind, wp_gets.
  set (w1 := set_uds_callback _ _).
  assert (entity_inv (K_os P) w1) as Hw1.
  { destruct Hw as (?&?&(?&?&?&?&?&?)&?&?). apply inv_intro; done. }
  assert (entity_interface (entity w1) = OBJ) as -> by apply Hw1.
  eapply wp_mono; [by apply (wp_interface_process _ _ _ _ _ (entity_client_ok run_uds (K_os P) (uds_layer_os P)))|].
  intros r w2 [_ Hw2].
  destruct (update_timers_eq (K_os P) DOIP_ENTITY_CYCLE_TIME_MS w2 Hw2) as [E Hw3]; [done|].
  by eapply wp_intro; [exact E|].
Qed.

Lemma task_cycle_unfold fuel w : task_cycle os fuel w =
  (locked ← doip_lock os 100; if locked : bool then task_body fuel;; doip_unlock os else mret tt) w.
Proof.
  unfold task_cycle, task_body. unfold mbind, ST_bind.
  destruct (doip_lock os 100 w) as [[[] w1]| |]; try done.
  by destruct (doip_entity_process _ _ _ _ _) as [[? ?]| |].
Qed.

Lemma task_cycle_safe fuel w : entity_inv K w → wp True (task_cycle os fuel) (λ _, entity_inv K) w.
Proof.
  intros Hw. unfold wp. rewrite task_cycle_unfold. fold (wp True (locked ← doip_lock os 100;
    if locked : bool then task_body fuel;; doip_unlock os else mret tt) (λ _, entity_inv K) w).
  unfold doip_lock, doip_unlock.
  assert (∀ w o, entity_inv K w → entity_inv K (set_os o w)) as Hos by done.
  apply wp_bind. apply wp_bind, wp_gets. destruct (g_doip_mutex (globals_of w)).
  { by apply wp_ret, wp_ret. }
  unfold call_os at 1. unfold wp at 1. destruct (xSemaphoreTake os _ _) as [[] o]; [|by apply wp_ret, Hos].
  apply wp_bind. eapply wp_mono; [apply (task_body_safe (λ _ _, True))|].
  { apply (Hos w o) in Hw as (?&?&?&?&?). by apply inv_intro. }
  intros _ w2 Hw2%entity_inv_K. apply wp_bind, wp_gets.
  destruct (g_doip_mutex _); [by apply wp_ret|]. by unfold wp, call_os.
Qed.

Lemma task_cycles_safe fuel cycles w : entity_inv K w →
  wp True (for_each (replicate cycles tt) (λ _, task_cycle os fuel)) (λ _, entity_inv K) w.
Proof.
  intros Hw. apply (wp_for_each _ _ (entity_inv K)); [done|].
  intros [] s _ Hs. by apply task_cycle_safe.
Qed.
End startup.

(** C2 (safety): the firmware. Started from any static memory, on any network
    that keeps the receive contract and any operating system, with any number of
    task cycles, the program never reads or writes outside its objects, whatever
    peers send; and whenever the task is running its state satisfies the
    invariant of the entity and of the UDS server. *)
Theorem firmware_safe {N O} (os : os_ops O) (net : doip_network_ops_t N) netif_add tcpip_init
    fuel cycles (w : world N (user uds_fn (globals O))) :
  NetLaws net → raw_memory w →
  wp True (doip_application_init os net netif_add tcpip_init fuel cycles)
    (λ r w', r = Some true → entity_inv K w') w.
Proof.
  intros Hnet Hraw. unfold doip_application_init. apply wp_bind, wp_modify.
  apply wp_bind. unfold interface_init, ETHIF_NUMBER. cbn [seq for_each]. apply wp_bind, wp_modify, wp_ret.
  apply wp_bind, wp_gets. apply wp_bind, wp_modify. apply wp_bind.
  unfold call_os at 1. unfold wp at 1. destruct (xSemaphoreCreateMutex os _) as [m o].
  apply wp_bind, wp_modify. destruct m; [by apply wp_ret|].
  apply wp_bind. unfold call_os at 1. unfold wp at 1. destruct (xTaskCreate os _) as [[] o2]; cbn [negb]; [|by apply wp_ret].
  apply wp_bind. eapply wp_mono.
  - apply (task_setup_then os net (entity_inv K)); [exact Hraw| |].
    + unfold K, uds_context_ok. simpl. split_and!; by first [left | done].
    + intros w' [Hw' _] _. by apply task_cycles_safe.
  - intros r w' H. apply wp_ret. intros [= ->]. by apply H.
Qed.

(** ** A diagnostic session over TCP *)

(** The network seen from one connection: [holds l n u] says that in the network
    state [n] the messages [l] were sent on [fd] so far and the bytes [u] wait
    to be received. *)
Class TcpDuplex {N} (ops : doip_network_ops_t N) (fd : Z) (holds : list bytes → N → bytes → Prop) : Prop := {
  duplex_recv : ∀ l, TcpStream ops fd (holds l);
  duplex_send : ∀ l net u m, holds l net u → holds (l ++ [m]) (tcp_send ops fd m net).2 u;
}.
#[export] Existing Instance duplex_recv.

(** The message of a request, and what the entity sends for a list of requests. *)
Definition request_message (sa la : Z) (r : Z * bytes) : bytes :=
  message_2019 DOIP_PAYLOAD_TYPE_DIAG_MESSAGE (diag_payload sa la (r.1 :: r.2)).

Definition request_ok (r : Z * bytes) : Prop := is_u8 r.1 ∧ bytes_ok r.2 ∧ len r.2 <= 4083.

Fixpoint session (sa la : Z) (c : uds_context_t) (rs : list (Z * bytes)) : uds_context_t * list bytes :=
  match rs with
  | [] => (c, [])
  | (sid, d) :: rs =>
      let '(c', reply) := uds_spec c sid d in
      let '(c'', out) := session sa la c' rs in
      (c'', ack_message la sa 0 ::
            message_2019 DOIP_PAYLOAD_TYPE_DIAG_MESSAGE (diag_payload la sa reply) :: out)
  end.

Lemma len_request_message sa la r : len (request_message sa la r) = 13 + len r.2.
Proof.
  unfold request_message. rewrite len_message_2019. unfold diag_payload.
  rewrite !len_app, !len_be16, len_cons. lia.
Qed.

Lemma request_header sa la r : request_ok r →
  header_ok (header_2019 DOIP_PAYLOAD_TYPE_DIAG_MESSAGE (5 + len r.2)) ∧
  doip_validate_header (Some (header_2019 DOIP_PAYLOAD_TYPE_DIAG_MESSAGE (5 + len r.2))) = true ∧
  request_message sa la r =
    header_bytes (header_2019 DOIP_PAYLOAD_TYPE_DIAG_MESSAGE (5 + len r.2)) ++ diag_payload sa la (r.1 :: r.2).
Proof.
  intros (_&_&Hl). pose proof (len_nonneg r.2). split; [|split].
  - apply header_2019_ok; [by_compute|unfold is_u32; lia].
  - unfold doip_validate_header, DOIP_MAX_PAYLOAD_SIZE. cbn -[len Z.add Z.mul].
    by rewrite (proj2 (Z.ltb_ge (4 * 1024) _)) by lia.
  - unfold request_message, message_2019. do 3 f_equal. unfold diag_payload.
    rewrite !len_app, !len_be16, len_cons. lia.
Qed.

Lemma request_framed sa la rs : Forall request_ok rs →
  framed (concat (map (request_message sa la) rs)) (map (request_message sa la) rs) [].
Proof.
  intros H. apply framed_concat. apply Forall_map. eapply Forall_impl; [exact H|].
  intros r Hr. cbn beta. rewrite len_request_message. pose proof (len_nonneg r.2). split; [lia|].
  destruct (request_header sa la r Hr) as (Hh&Hv&->). rewrite frame_total_header by done. simpl. lia.
Qed.

Section session.
Context {N O : Type} (net : doip_network_ops_t N) `{!NetLaws net} (fd : Z) (holds : list bytes → N → bytes → Prop)
        `{!TcpDuplex net fd holds}.
Context (i sa la : Z) (Hi : i ∈ conn_ids) (Hsa : is_u16 sa) (Hla : is_u16 la) (Hfd : 0 <= fd).
Implicit Types w : world N (user uds_fn (globals O)).

(** The connection [i] is the one a tester [sa] activated, and the UDS server
    is in the context [a.1] after the messages [a.2] were sent. *)
Definition in_session (v : bytes) w (a : uds_context_t * list bytes) : Prop :=
  entity_inv K w ∧ net_ops (w_iface w) = net ∧ holds a.2 (w_net w) v ∧
  g_uds_context (globals_of w) = a.1 ∧ cfg_logical_address (config (entity w)) = la ∧
  uds_callback (entity w) = Some doip_entity_uds_rx_handler_fn ∧
  find_tester sa w = Some i ∧
  (∃ c, conn_at w i = Some c ∧ socket_fd c = fd) ∧
  (∃ e, econn_at w i = Some e ∧ is_activated e = true).

Definition serves (m : bytes) (a a' : uds_context_t * list bytes) : Prop :=
  ∃ r, request_ok r ∧ m = request_message sa la r ∧
    let '(c', reply) := uds_spec a.1 r.1 r.2 in
    a' = (c', a.2 ++ [ack_message la sa 0;
                      message_2019 DOIP_PAYLOAD_TYPE_DIAG_MESSAGE (diag_payload la sa reply)]).

Lemma in_session_sent v w a m : in_session v w a → in_session v (tcp_sent i m w) (a.1, a.2 ++ [m]).
Proof.
  intros (Hw&Hops&Hh&Hc&Hl&Hcb&Hft&(c&Hci&Hcf)&(e&He&Hact)).
  assert (tcp_sent i m w = set_net (tcp_send net fd m (w_net w)).2 w) as ->.
  { unfold tcp_sent. rewrite Hci, Hcf, (proj2 (Z.ltb_ge fd 0)) by lia. by rewrite Hops. }
  split; [by apply inv_set_net|]. split; [done|]. split; [by apply (duplex_send (holds := holds))|].
  do 4 (split; [done|]). split; [by exists c|by exists e].
Qed.

(** The callback on one request. *)
Lemma serve_request v w a r rest n : in_session v w a → request_ok r → bytes_ok rest → 8 <= n →
  ∃ w' a', entity_tcp_rx_callback run_uds i (request_message sa la r ++ rest) n w = Done (tt, w') ∧
    serves (request_message sa la r) a a' ∧ in_session v w' a' ∧ w_iface w' = w_iface w.
Proof.
  intros Hin Hr Hrest Hn. pose proof Hin as (Hw&Hops&Hh&Hc&Hl&Hcb&Hft&_&(e&He&Hact)).
  pose proof Hr as (Hsid&Hd&Hlen). pose proof (len_nonneg r.2).
  destruct (request_header sa la r Hr) as (Hho&Hv&Em).
  replace (request_message sa la r ++ rest) with
    (header_bytes (header_2019 DOIP_PAYLOAD_TYPE_DIAG_MESSAGE (5 + len r.2)) ++
     diag_payload sa la (r.1 :: r.2) ++ rest) by (rewrite Em, <- app_assoc; done).
  erewrite diagnostic_message_eq;
    [|by apply (inv_can_send K)|done|done|done|done|rewrite len_cons; simpl; lia|done|done|done].
  rewrite Hact, Hl, Z.eqb_refl, Hcb. cbn [negb run_uds].
  set (w1 := tcp_sent i (ack_message la sa 0) w).
  pose proof (in_session_sent v w a (ack_message la sa 0) Hin) as Hin1. fold w1 in Hin1.
  pose proof Hin1 as (Hw1&_&_&Hc1&Hl1&_&Hft1&_&(e1&He1&Hact1)). cbn [fst snd] in Hc1.
  assert (bytes_ok (r.2 ++ rest)) as Hbo by auto with width.
  assert (doip_entity_uds_rx_handler sa la ((r.1 :: r.2) ++ rest) (len (r.1 :: r.2)) w1 =
          Done (tt, served sa r.1 r.2 w1)) as Eserve.
  { apply handler_request; [done|done|by rewrite len_cons|].
    unfold is_u32. rewrite len_cons. lia. }
  rewrite (ST_bind_eq _ _ _ _ _ Eserve).
  unfold served. rewrite Hc1. pose proof (uds_spec_context_ok a.1 r.1 r.2) as Hcok.
  destruct (uds_spec a.1 r.1 r.2) as [c' reply] eqn:Es. simpl in Hcok.
  set (w2 := set_uds_context c' w1).
  assert (in_session v w2 (c', a.2 ++ [ack_message la sa 0])) as Hin2.
  { destruct Hin1 as (Hw1'&Hops1&Hh1&_&_&Hcb1&_&Hcn1&Hen1).
    split; [|by repeat split]. destruct Hw1' as (?&?&?&?&HK). apply inv_intro; try done.
    apply Hcok. rewrite <- Hc1. exact HK. }
  assert (find_tester sa w2 = Some i) as -> by apply Hin2.
  assert (response_message w2 sa reply =
    message_2019 DOIP_PAYLOAD_TYPE_DIAG_MESSAGE (diag_payload la sa reply)) as Erm.
  { unfold response_message. by change (config (entity w2)) with (config (entity w1)); rewrite Hl1. }
  rewrite Erm. set (w3 := tcp_sent i _ w2).
  pose proof (in_session_sent v w2 _ (message_2019 DOIP_PAYLOAD_TYPE_DIAG_MESSAGE (diag_payload la sa reply)) Hin2) as Hin3.
  fold w3 in Hin3. pose proof Hin3 as (Hw3&Hops3&Hh3&Hc3&Hl3&Hcb3&Hft3&Hcn3&(e3&He3&Hact3)).
  rewrite (ST_bind_eq _ _ w3 (config (entity w3)) w3) by done.
  rewrite (upd_econn_eq _ _ _ _ He3). eexists _, _. split; [reflexivity|]. split; [|split].
  - exists r. split; [done|]. split; [done|]. rewrite Es. reflexivity.
  - cbn [fst snd] in Hh3, Hc3. rewrite <- app_assoc in Hh3.
    set (e' := ec_with_general _ e3).
    split.
    { eapply inv_put_econn; [done|done| |done]. destruct (inv_econn K w3 i Hw3 Hi) as (e4&He4&H1&H2&H3&H4&H5).
      rewrite He3 in He4. simplify_eq. unfold econn_ok, e'; simpl. split_and!; try done.
      by destruct Hw3 as (_&_&((_&_&_&_&?&_)&_)&_). }
    split; [done|]. split; [exact Hh3|]. split; [done|]. split; [done|]. split; [done|].
    split; [by rewrite (find_tester_put w3 i e3)|]. split; [done|].
    exists e'. split; [by eapply econn_at_put_eq|done].
  - unfold w3. cbn [put_econn set_entity_conns set_entity set_user w_iface].
    rewrite iface_tcp_sent. unfold w2. cbn. apply iface_tcp_sent.
Qed.

Lemma serves_session rs : ∀ a a', Forall request_ok rs →
  reacts serves (map (request_message sa la) rs) a a' →
  a' = ((session sa la a.1 rs).1, a.2 ++ (session sa la a.1 rs).2).
Proof.
  induction rs as [|r rs IH]; intros a a' Hok Hre; inversion Hre as [|m ms b b' b'' Hs Hrest]; subst.
  - simpl. rewrite app_nil_r. by destruct a'.
  - apply Forall_cons in Hok as [Hr Hok]. destruct Hs as (r2&Hr2&Em&Ha').
    assert (r2 = r) as ->.
    { destruct (request_header sa la r Hr) as (_&_&E1). destruct (request_header sa la r2 Hr2) as (_&_&E2).
      rewrite E1, E2 in Em. apply (f_equal (drop 12)) in Em. unfold diag_payload in Em. simpl in Em.
      destruct r, r2; by simplify_eq/=. }
    destruct r as [sid d]. cbn [session fst snd] in *. destruct (uds_spec a.1 sid d) as [c' reply].
    apply IH in Hrest as ->; [|done]. subst b'. cbn [fst snd].
    destruct (session sa la c' rs) as [c'' out]. cbn [fst snd]. by rewrite <- app_assoc.
Qed.
End session.

(** C1 (refinement): a diagnostic session over TCP implements the reference UDS
    server. On a connection that the tester [sa] has activated, in a network
    that takes every message sent on it ([TcpDuplex]), let the peer
    send the diagnostic messages of any list of UDS requests of a service id and
    at most 4083 parameter bytes each ([request_ok]: the longest diagnostic
    message that fits the 4096-byte receive buffer), cut into segments
    in any way. Then the reception loop, after at most as many
    rounds as the stream has bytes, has served all of them in order: the messages sent on
    the connection are, for each request, the positive acknowledgement followed by
    the reply of [uds_spec] in a diagnostic message back to the tester, and the
    UDS context is the one [uds_spec] gives. *)
Theorem uds_session_over_tcp {N O} (net : doip_network_ops_t N) fd holds i sa la
    (w : world N (user uds_fn (globals O))) c0 log c rs k fuel dcb :
  NetLaws net → TcpDuplex net fd holds → i ∈ conn_ids → is_u16 sa → is_u16 la → 0 <= fd →
  Forall request_ok rs →
  in_session net fd holds i sa la (concat (map (request_message sa la) rs)) w (c0, log) →
  conn_at w i = Some c → rx_buffer_used c = 0 →
  len (concat (map (request_message sa la) rs)) <= Z.of_nat k → (4096 < fuel)%nat →
  wp False (for_each (replicate k i) (process_connection fuel (Some (entity_tcp_rx_callback run_uds)) dcb))
    (λ _ w', g_uds_context (globals_of w') = (session sa la c0 rs).1 ∧
             holds (log ++ (session sa la c0 rs).2) (w_net w') [] ∧ entity_inv K w') w.
Proof.
  intros Hnet Hdup Hi Hsa Hla Hfd Hrs Hin Hc Hu0 Hk Hfuel.
  assert (conn_ok c) as Hok by (destruct Hin as ((Hif&_)&_); by eapply (conn_at_ok w i c Hif)).
  assert (pending c = []) as Hp by (unfold pending; rewrite Hu0; done).
  assert (socket_fd c = fd) as Hcf.
  { destruct Hin as (_&_&_&_&_&_&_&(c'&Hc'&<-)&_). congruence. }
  eapply wp_mono.
  - apply (stream_delivered net i (entity_tcp_rx_callback run_uds) (in_session net fd holds i sa la)
      (λ m, ∃ r, request_ok r ∧ m = request_message sa la r) (serves sa la))
      with (fd := fd) (a := (c0, log)) (c := c) (v := concat (map (request_message sa la) rs))
           (ms := map (request_message sa la) rs) (r := []); try done; rewrite ?Hp; try done.
    + intros v w1 a c1 c2 (Hw&Hops&Hh&Hc1&Hl1&Hcb1&Hft1&(c3&Hc3&Hf3)&He1) Hcc Hslot Hok2.
      assert (c3 = c1) as -> by congruence. destruct Hslot as (Hs&Hst&_).
      split; [|do 6 (split; [done|]); split; [exists c2; split; [by eapply conn_at_put_eq|congruence]|done]].
      pose proof Hw as (_&_&_&Hcp&_). destruct (Hcp i c1 Hcc) as [H1 H2].
      eapply inv_put_conn; [done..| |]; by rewrite ?Hst, Hs.
    + intros v w1 a c1 n Hin1 Hc1 Hok1 _ Hn H8 Hn0 (r&Hr&Em).
      pose proof Hok1 as (_&Hb1&_).
      assert (rx_buffer c1 = request_message sa la r ++ drop (Z.to_nat n) (rx_buffer c1)) as Erx
        by (rewrite <- Em; by rewrite take_drop).
      assert (bytes_ok (drop (Z.to_nat n) (rx_buffer c1))) as Hdb by by apply bytes_ok_drop.
      assert (8 <= n) as Hn8.
      { pose proof (len_request_message sa la r) as Hlm. pose proof (len_nonneg r.2).
        rewrite <- Em in Hlm. rewrite len_take in Hlm; [lia|]. destruct Hok1 as (Hl1&_&Hu1). lia. }
      destruct (serve_request net fd holds i sa la Hi Hsa Hla Hfd v w1 a r _ n Hin1 Hr Hdb Hn8)
        as (w2&a2&Ecb&Hsv&Hin2&Hif2).
      rewrite Erx. eapply wp_intro; [exact Ecb|]. rewrite <- Erx. split.
      { unfold conn_at. rewrite Hif2. exact Hc1. }
      exists a2. split; [by rewrite Em|done].
    + by intros v w1 a (_&?&_).
    + intros v w1 a n Hin1 Hv Hn. pose proof Hin1 as (Hw&Hops&Hh&Hrest).
      destruct (stream_data (TcpStream := duplex_recv a.2) (w_net w1) v n Hh Hv Hn) as (d&v'&n'&->&Hd&Hr&Hh').
      exists d, v', n'. do 3 (split; [done|]). split; [exact Hw|]. split; [exact Hops|]. split; [exact Hh'|exact Hrest].
    + intros w1 a n Hin1 Hn. pose proof Hin1 as (Hw&Hops&Hh&Hrest).
      destruct (stream_empty (TcpStream := duplex_recv a.2) (w_net w1) n Hh Hn) as (x&d&n'&Hx&Hr&Hh').
      exists x, d, n'. do 2 (split; [done|]). split; [exact Hw|]. split; [exact Hops|]. split; [exact Hh'|exact Hrest].
    + constructor. left. by vm_compute.
    + by apply request_framed.
    + apply Forall_map. eapply Forall_impl; [exact Hrs|]. intros r (_&_&Hl).
      cbn beta. rewrite len_request_message. unfold DOIP_RX_BUFFER_SIZE. lia.
    + apply Forall_map. eapply Forall_impl; [exact Hrs|]. intros r Hr. by exists r.
  - intros [] w' (a'&c'&Hre&Hin'&_&_&_).
    apply serves_session in Hre as ->; [|done]. by destruct Hin' as (?&_&?&?&_).
Qed.

(** An empty request is not rejected. When the tester of an
    activated connection sends a diagnostic message without user data, the
    request length wraps to 2^32 - 1 and the UDS server serves, as service id
    and parameters, the bytes [sid] and [d] that happen to lie behind the
    message in the receive buffer. *)
Theorem empty_request_serves_stale_bytes {N O} (w : world N (user uds_fn (globals O))) id e h sa sid d n :
  entity_inv K w → id ∈ conn_ids → econn_at w id = Some e → is_activated e = true →
  uds_callback (entity w) = Some doip_entity_uds_rx_handler_fn →
  header_ok h → doip_validate_header (Some h) = true →
  payload_type h = DOIP_PAYLOAD_TYPE_DIAG_MESSAGE → payload_length h = 4 → 8 <= n →
  is_u16 sa → bytes_ok d → 5 <= len d →
  let logical := cfg_logical_address (config (entity w)) in
  is_u16 logical →
  ∃ w', entity_tcp_rx_callback run_uds id (header_bytes h ++ diag_payload sa logical [] ++ sid :: d) n w =
          Done (tt, w') ∧
        g_uds_context (globals_of w') = (uds_spec (g_uds_context (globals_of w)) sid d).1.
Proof.
  intros Hw Hid He Hact Hcb Hh Hv Ht Hl Hn Hsa Hd Hd5 logical Hla.
  erewrite (diagnostic_message_eq run_uds w id e h sa logical []);
    [|by apply (inv_can_send K)|done|done|done|done|by rewrite Hl|done|done|done].
  rewrite Hact, Z.eqb_refl, Hcb. cbn [negb run_uds app]. fold logical.
  set (w1 := tcp_sent id (ack_message logical sa 0) w).
  assert (entity_inv K w1) as Hw1 by by apply inv_tcp_sent.
  assert (w_user w1 = w_user w) as Hu by apply user_tcp_sent.
  change (len []) with 0. rewrite (ST_bind_eq _ _ _ _ _ (handler_empty w1 sa logical sid d Hw1 Hd Hd5)).
  destruct (served_net w1 sa sid d Hw1) as (net&g&E&_).
  assert (g_uds_context (globals_of (served sa sid d w1)) = (uds_spec (g_uds_context (globals_of w)) sid d).1) as Ec.
  { unfold served. assert (globals_of w1 = globals_of w) as -> by (unfold globals_of; by rewrite Hu).
    destruct (uds_spec _ sid d) as [c' reply]. simpl.
    destruct (find_tester sa _) as [j|]; [|done]. unfold globals_of. by rewrite user_tcp_sent. }
  rewrite (ST_bind_eq _ _ (served sa sid d w1) (config (entity (served sa sid d w1))) (served sa sid d w1)) by done.
  assert (econn_at (served sa sid d w1) id = Some e) as He1.
  { rewrite E. unfold econn_at, entity in *; simpl. by rewrite Hu. }
  rewrite (upd_econn_eq _ _ _ _ He1). eexists. split; [reflexivity|]. exact Ec.
Qed.

(** ** Witnesses *)
Module TaskDemo.
Definition os : os_ops unit :=
  OsOps (λ o, (OBJ, o)) (λ _ o, (true, o)) (λ o, o) (λ o, (true, o)).

(** Static memory, zeroed. *)
Definition cold : world Script.network (user uds_fn (globals unit)) :=
  World (Script.iface Script.open_slot Script.open_slot) Script.quiet
    (User (Entity Demo.cfg NULL [Demo.off; Demo.off] 0 0 None)
       (Globals (Context 0 0 false 0 0 0) NULL tt)).

(** A running entity whose connection 0 is activated for the tester [0x0E80]. *)
Definition running (n : Script.network) : world Script.network (user uds_fn (globals unit)) :=
  World (Script.iface Script.open_slot Script.empty_slot) n
    (User (Entity entity_config OBJ [Demo.active; Demo.off] 0 0 (Some doip_entity_uds_rx_handler_fn))
       (Globals uds_initial OBJ tt)).

Definition sends (l : list bytes) (n : Script.network) (u : bytes) : Prop :=
  map snd (Script.sent n) = l ∧ Script.stream n = u ∧ bytes_ok u.

Lemma cold_raw : raw_memory cold.
Proof.
  split; [done|]. split; [|split; [by vm_compute|split; [apply Script.replicate_zero_ok|done]]].
  assert (raw_slot Script.open_slot) by (split; [by vm_compute|apply Script.replicate_zero_ok]).
  by repeat constructor.
Qed.

Lemma initial_ok : uds_context_ok uds_initial.
Proof. unfold uds_context_ok. simpl. split_and!; by first [left | done]. Qed.

Lemma running_inv n : entity_inv K (running n).
Proof.
  apply inv_intro.
  - apply Script.iface_ok; [apply Script.open_slot_ok|apply Script.empty_slot_ok].
  - apply _.
  - split; [apply entity_config_ok|]. split; [done|]. split; [done|]. split; [|by_compute].
    intros [|[|i]] c Hc; simpl in Hc; simplify_eq; [apply Demo.on_ok; by left|apply Demo.off_ok].
  - intros i c [H0 Hc]%conn_at_inv. destruct (Z.to_nat i) as [|[|k]] eqn:Ei; simpl in Hc; simplify_eq; [|done].
    assert (i = 0) as -> by lia. split; [|done]. intros _. by exists Demo.active.
  - apply initial_ok.
Qed.

#[global] Instance duplex : TcpDuplex Script.ops 7 sends.
Proof.
  split.
  - intros l. split.
    + intros net u n (Hl&Hu&Hb) Hne Hn.
      destruct (stream_data (TcpStream := Script.tcp_stream 7) net u n (conj Hu Hb) Hne Hn) as (d&u'&net'&->&Hd&Hr&Hu'&Hb').
      exists d, u', net'. do 3 (split; [done|]). split; [|done]. rewrite <- Hl. clear -Hr.
      simpl in Hr. by destruct (Script.stream net); injection Hr as ? ? <-.
    + intros net n (Hl&Hu&Hb) Hn. exists (-1), [], net. split; [lia|]. split; [|done]. simpl. by rewrite Hu.
  - intros l net u m (Hl&Hu&Hb). split_and!; try done. simpl. by rewrite map_app, Hl.
Qed.
End TaskDemo.

Lemma firmware_safe_witness :
  wp True (doip_application_init TaskDemo.os Script.ops (λ _ _ _ n, n) (λ n, n) 100 3)
    (λ r w', r = Some true → entity_inv K w') TaskDemo.cold.
Proof. apply firmware_safe; [apply Script.laws|apply TaskDemo.cold_raw]. Defined.

Lemma uds_session_over_tcp_witness :
  let rs := [(0x3E, [0x00]); (0x22, [0xF1; 0x94])] in
  let u := concat (map (request_message 0x0E80 0x1000) rs) in
  wp False (for_each (replicate 31 0)
      (process_connection (Z.to_nat 4097) (Some (entity_tcp_rx_callback run_uds)) None))
    (λ _ w', g_uds_context (globals_of w') = (session 0x0E80 0x1000 uds_initial rs).1 ∧
             TaskDemo.sends ([] ++ (session 0x0E80 0x1000 uds_initial rs).2) (w_net w') [] ∧ entity_inv K w')
    (TaskDemo.running (Script.Network u [] [] [] [])).
Proof.
  intros rs u.
  apply (uds_session_over_tcp Script.ops 7 TaskDemo.sends 0 0x0E80 0x1000 _ uds_initial [] Script.open_slot rs).
  - apply Script.laws.
  - apply TaskDemo.duplex.
  - by left.
  - by_compute.
  - by_compute.
  - done.
  - repeat constructor; by_compute.
  - split; [apply TaskDemo.running_inv|]. split; [done|]. split; [split_and!; [done|done|by_compute]|].
    do 4 (split; [done|]). split; [by eexists|by eexists].
  - done.
  - done.
  - by_compute.
  - lia.
Defined.

Lemma empty_request_serves_stale_bytes_witness :
  let h := header_2019 DOIP_PAYLOAD_TYPE_DIAG_MESSAGE 4 in
  ∃ w', entity_tcp_rx_callback run_uds 0
          (header_bytes h ++ diag_payload 0x0E80 0x1000 [] ++ 0x10 :: [0x02; 0; 0; 0; 0]) 12
          (TaskDemo.running Script.quiet) = Done (tt, w') ∧
        g_uds_context (globals_of w') = (uds_spec uds_initial 0x10 [0x02; 0; 0; 0; 0]).1.
Proof.
  intros h.
  apply (empty_request_serves_stale_bytes (TaskDemo.running Script.quiet) 0 Demo.active h 0x0E80 0x10 [0x02; 0; 0; 0; 0] 12);
    try done; [apply TaskDemo.running_inv|by left|by_compute..].
Defined.
