(* ===== verification/DoipTester.v ===== *)
(** * The DoIP tester

    [src/doip/app_doip_tester.c] and [src/doip/app_doip_tester.h]: the client
    side of the protocol. It discovers an entity by broadcast, connects to it,
    activates routing and sends diagnostic messages; a timer puts it into an
    error state when an answer does not come. *)

From Stdlib Require Import ZArith Lia.
From Stdlib Require Import Strings.String.
From S2P Require Import Prelude DoipProtocol DoipInterface DoipEntity.
Local Open Scope list_scope.
Local Open Scope Z_scope.

Record doip_tester_config_t := TesterConfig {
  tcfg_logical_address : Z;
  tcfg_activation_type : Z;
  tcfg_response_timeout : Z;
  tcfg_max_retry_count : Z;
}.

Inductive doip_tester_state_t :=
  | DOIP_TESTER_STATE_IDLE
  | DOIP_TESTER_STATE_DISCOVERY
  | DOIP_TESTER_STATE_CONNECTING
  | DOIP_TESTER_STATE_ACTIVATING
  | DOIP_TESTER_STATE_READY
  | DOIP_TESTER_STATE_ERROR.
#[export] Instance doip_tester_state_eq_dec : EqDecision doip_tester_state_t.
Proof. solve_decision. Defined.

Record doip_discovered_entity_t := DiscoveredEntity {
  de_ip_address : bytes;
  de_port : Z;
  de_vin : bytes;
  de_logical_address : Z;
  de_eid : bytes;
}.

(** [F]: the type of UDS indication callbacks; [t_user_data] is the one that
    [doip_tester_process] was given. *)
Record doip_tester_t (F : Type) := Tester {
  t_config : doip_tester_config_t;
  t_interface : ptr;
  t_state : doip_tester_state_t;
  t_tcp_connection_id : Z;
  t_entity : doip_discovered_entity_t;
  t_routing_activated : bool;
  t_timeout_timer : Z;
  t_user_data : option F;
}.
Arguments Tester {F}.
Arguments t_config {F}. Arguments t_interface {F}. Arguments t_state {F}.
Arguments t_tcp_connection_id {F}. Arguments t_entity {F}. Arguments t_routing_activated {F}.
Arguments t_timeout_timer {F}. Arguments t_user_data {F}.

Section tester.
Context {N F : Type}.
Local Abbreviation W := (world N (doip_tester_t F)).
Implicit Types t : doip_tester_t F.

Definition t_with_state (s : doip_tester_state_t) t : doip_tester_t F :=
  Tester (t_config t) (t_interface t) s (t_tcp_connection_id t) (t_entity t) (t_routing_activated t)
    (t_timeout_timer t) (t_user_data t).
Definition t_with_connection (i : Z) t : doip_tester_t F :=
  Tester (t_config t) (t_interface t) (t_state t) i (t_entity t) (t_routing_activated t)
    (t_timeout_timer t) (t_user_data t).
Definition t_with_entity (e : doip_discovered_entity_t) t : doip_tester_t F :=
  Tester (t_config t) (t_interface t) (t_state t) (t_tcp_connection_id t) e (t_routing_activated t)
    (t_timeout_timer t) (t_user_data t).
Definition t_with_activated (b : bool) t : doip_tester_t F :=
  Tester (t_config t) (t_interface t) (t_state t) (t_tcp_connection_id t) (t_entity t) b
    (t_timeout_timer t) (t_user_data t).
Definition t_with_timer (v : Z) t : doip_tester_t F :=
  Tester (t_config t) (t_interface t) (t_state t) (t_tcp_connection_id t) (t_entity t)
    (t_routing_activated t) v (t_user_data t).
Definition t_with_user_data (f : option F) t : doip_tester_t F :=
  Tester (t_config t) (t_interface t) (t_state t) (t_tcp_connection_id t) (t_entity t)
    (t_routing_activated t) (t_timeout_timer t) f.

Definition tester (w : W) : doip_tester_t F := w_user w.
Definition upd_tester (f : doip_tester_t F → doip_tester_t F) : ST W unit :=
  modify (λ w, set_user (f (w_user w)) w).

(** ** Operations *)

Definition doip_tester_init (tester_p : ptr) (cfg : option doip_tester_config_t) (interface : ptr) :
    ST W doip_result_t :=
  match tester_p, cfg, interface with
  | OBJ, Some cfg, OBJ =>
      upd_tester (λ t, Tester cfg interface DOIP_TESTER_STATE_IDLE (-1) (t_entity t) false 0 (t_user_data t));;
      mret DOIP_RESULT_OK
  | _, _, _ => mret DOIP_RESULT_INVALID_PARAM
  end.

Definition doip_tester_start_discovery (tester_p : ptr) : ST W doip_result_t :=
  match tester_p with
  | NULL => mret DOIP_RESULT_INVALID_PARAM
  | OBJ =>
      itf ← gets (λ w, t_interface (tester w));
      result ← doip_interface_start_udp itf 0;
      if negb (bool_decide (result = DOIP_RESULT_OK)) then mret result else
      let header := header_2019 DOIP_PAYLOAD_TYPE_VEHICLE_ID_REQ 0 in
      '(result, buffer) ← lift (doip_encode_header (Some header) (Some (local_array 16)) 16);
      if negb (bool_decide (result = DOIP_RESULT_OK)) then mret result else
      let encoded_length := 8 in
      result ← doip_interface_udp_broadcast itf buffer encoded_length DOIP_UDP_DISCOVERY_PORT;
      (if bool_decide (result = DOIP_RESULT_OK) then
         upd_tester (t_with_state DOIP_TESTER_STATE_DISCOVERY);;
         upd_tester (λ t, t_with_timer (tcfg_response_timeout (t_config t)) t)
       else mret tt);;
      mret result
  end.

Definition doip_tester_connect (tester_p : ptr) (entity_ip : option string) (entity_port : Z) :
    ST W doip_result_t :=
  match tester_p, entity_ip with
  | OBJ, Some ip =>
      socket_fd ← call_net (λ o, tcp_connect o ip entity_port);
      if socket_fd <? 0 then mret DOIP_RESULT_ERROR else
      upd_tester (t_with_connection 0);;
      upd_conn 0 (with_socket socket_fd);;
      upd_conn 0 (with_state DOIP_CONN_STATE_PENDING_ACTIVATION);;
      upd_tester (t_with_state DOIP_TESTER_STATE_CONNECTING);;
      e ← gets (λ w, t_entity (tester w));
      addr ← lift (strncpy (de_ip_address e) ip 15);
      upd_tester (t_with_entity (DiscoveredEntity addr entity_port (de_vin e)
                                   (de_logical_address e) (de_eid e)));;
      mret DOIP_RESULT_OK
  | _, _ => mret DOIP_RESULT_INVALID_PARAM
  end.

Definition doip_tester_activate_routing (tester_p : ptr) : ST W doip_result_t :=
  match tester_p with
  | NULL => mret DOIP_RESULT_INVALID_PARAM
  | OBJ =>
      t ← gets tester;
      if t_tcp_connection_id t <? 0 then mret DOIP_RESULT_NOT_READY else
      let request := RoutingActivationReq (tcfg_logical_address (t_config t))
                       (tcfg_activation_type (t_config t)) 0 0 in
      '(result, buffer, encoded_length) ←
         lift (doip_encode_routing_activation_req (Some request) (Some (local_array 32)) 32 (Some 0));
      if negb (bool_decide (result = DOIP_RESULT_OK)) then mret result else
      result ← doip_interface_tcp_send (t_interface t) (t_tcp_connection_id t) buffer (out encoded_length);
      (if bool_decide (result = DOIP_RESULT_OK) then
         upd_tester (t_with_state DOIP_TESTER_STATE_ACTIVATING);;
         upd_tester (λ t, t_with_timer (tcfg_response_timeout (t_config t)) t)
       else mret tt);;
      mret result
  end.

Definition doip_tester_send_diagnostic (tester_p : ptr) (target_addr : Z) (uds_data : option bytes)
    (length : Z) : ST W doip_result_t :=
  match tester_p, uds_data with
  | OBJ, Some d =>
      t ← gets tester;
      if negb (t_routing_activated t) then mret DOIP_RESULT_NOT_READY else
      let diag_msg := DiagnosticMessage (tcfg_logical_address (t_config t)) target_addr length (Some d) in
      '(result, buffer, encoded_length) ←
         lift (doip_encode_diagnostic_message (Some diag_msg)
                 (Some (local_array (DOIP_MAX_PAYLOAD_SIZE + 8))) (DOIP_MAX_PAYLOAD_SIZE + 8) (Some 0));
      if negb (bool_decide (result = DOIP_RESULT_OK)) then mret result else
      doip_interface_tcp_send (t_interface t) (t_tcp_connection_id t) buffer (out encoded_length)
  | _, _ => mret DOIP_RESULT_INVALID_PARAM
  end.

Definition handle_vehicle_announcement (src_ip : string) (src_port : Z) (payload : bytes)
    (payload_length : Z) : ST W unit :=
  t ← gets tester;
  if negb (bool_decide (t_state t = DOIP_TESTER_STATE_DISCOVERY)) then mret tt else
  if payload_length <? 33 then mret tt else
  let e := t_entity t in
  addr ← lift (strncpy (de_ip_address e) src_ip 15);
  vin ← lift (slice payload 0 DOIP_VIN_LENGTH);
  hi ← lift (load payload 17);
  lo ← lift (load payload 18);
  eid ← lift (slice payload 19 DOIP_EID_LENGTH);
  upd_tester (t_with_entity (DiscoveredEntity addr DOIP_TCP_DATA_PORT vin
                               (u16 (Z.lor (u16 (Z.shiftl hi 8)) lo)) eid));;
  upd_tester (t_with_state DOIP_TESTER_STATE_IDLE).

Definition handle_routing_activation_response (payload : bytes) (payload_length : Z) : ST W unit :=
  t ← gets tester;
  if negb (bool_decide (t_state t = DOIP_TESTER_STATE_ACTIVATING)) then mret tt else
  if payload_length <? 13 then mret tt else
  response_code ← lift (load payload 4);
  if (response_code =? DOIP_ROUTING_ACT_RES_SUCCESS) ||
     (response_code =? DOIP_ROUTING_ACT_RES_CONFIRM_REQUIRED) then
    upd_tester (t_with_activated true);;
    upd_tester (t_with_state DOIP_TESTER_STATE_READY)
  else upd_tester (t_with_state DOIP_TESTER_STATE_ERROR).

(** Calling an indication callback: source address, data, length, user data. *)
Context (run_indication : F → Z → bytes → Z → option F → ST W unit).

Definition handle_diagnostic_message (payload : bytes) (payload_length : Z) (uds_indication : option F) :
    ST W unit :=
  '(res, diag_msg) ← lift (doip_decode_diagnostic_message (Some payload) payload_length
                             (Some uninit_diag_message));
  if negb (bool_decide (res = DOIP_RESULT_OK)) then mret tt else
  let diag_msg := default uninit_diag_message diag_msg in
  match uds_indication with
  | Some f =>
      ud ← gets (λ w, t_user_data (tester w));
      run_indication f (dm_source_address diag_msg) (default [] (dm_user_data diag_msg))
        (dm_user_data_length diag_msg) ud
  | None => mret tt
  end.

Definition tester_udp_rx_callback : @doip_udp_rx_callback_t N (doip_tester_t F) :=
  λ src_ip src_port data length,
  if length <? 8 then mret tt else
  '(res, header) ← lift (doip_decode_header (Some data) length (Some uninit_header));
  if negb (bool_decide (res = DOIP_RESULT_OK)) then mret tt else
  let header := default uninit_header header in
  if payload_type header =? DOIP_PAYLOAD_TYPE_VEHICLE_ANNOUNCEMENT
  then handle_vehicle_announcement src_ip src_port (ptr_add data 8) (payload_length header)
  else mret tt.

Definition tester_tcp_rx_callback : @doip_tcp_rx_callback_t N (doip_tester_t F) := λ id data length,
  '(res, header) ← lift (doip_decode_header (Some data) length (Some uninit_header));
  if negb (bool_decide (res = DOIP_RESULT_OK)) then mret tt else
  let header := default uninit_header header in
  let ty := payload_type header in
  if ty =? DOIP_PAYLOAD_TYPE_ROUTING_ACTIVATION_RES
  then handle_routing_activation_response (ptr_add data 8) (payload_length header)
  else if ty =? DOIP_PAYLOAD_TYPE_DIAG_MESSAGE
  then handle_diagnostic_message (ptr_add data 8) (payload_length header) None
  else mret tt.

Definition doip_tester_process (fuel : nat) (tester_p : ptr) (uds_indication : option F) :
    ST W doip_result_t :=
  match tester_p with
  | NULL => mret DOIP_RESULT_INVALID_PARAM
  | OBJ =>
      upd_tester (t_with_user_data uds_indication);;
      itf ← gets (λ w, t_interface (tester w));
      doip_interface_process fuel itf (Some tester_udp_rx_callback) (Some tester_tcp_rx_callback) None None
  end.

Definition doip_tester_update_timers (tester_p : ptr) (elapsed_ms : Z) : ST W unit :=
  match tester_p with
  | NULL => mret tt
  | OBJ =>
      t ← gets tester;
      if 0 <? t_timeout_timer t then
        if elapsed_ms <? t_timeout_timer t
        then upd_tester (t_with_timer (u32 (t_timeout_timer t - elapsed_ms)))
        else
          upd_tester (t_with_timer 0);;
          if bool_decide (t_state t = DOIP_TESTER_STATE_DISCOVERY)
          then upd_tester (t_with_state DOIP_TESTER_STATE_ERROR)
          else if bool_decide (t_state t = DOIP_TESTER_STATE_ACTIVATING)
          then upd_tester (t_with_state DOIP_TESTER_STATE_ERROR)
          else mret tt
      else mret tt
  end.
End tester.

Definition doip_tester_is_ready {F} (t : option (doip_tester_t F)) : bool :=
  match t with
  | None => false
  | Some t => bool_decide (t_state t = DOIP_TESTER_STATE_READY) && t_routing_activated t
  end.

(** ** Lemmas *)

Lemma default_Some {B} (d x : B) : default d (Some x) = x.
Proof. done. Qed.

Section tester_lemmas.
Context {N F : Type} (run_indication : F → Z → bytes → Z → option F → ST (world N (doip_tester_t F)) unit).
Implicit Types w : world N (doip_tester_t F).

Definition activation_request (t : doip_tester_t F) : bytes :=
  message_2019 DOIP_PAYLOAD_TYPE_ROUTING_ACTIVATION_REQ
    (routing_req_payload (RoutingActivationReq (tcfg_logical_address (t_config t))
                            (tcfg_activation_type (t_config t)) 0 0)).

(** The tester once its request is out. *)
Definition activating (t : doip_tester_t F) : doip_tester_t F :=
  t_with_timer (tcfg_response_timeout (t_config t)) (t_with_state DOIP_TESTER_STATE_ACTIVATING t).

Lemma activate_routing_eq w i c r n :
  t_interface (w_user w) = OBJ → t_tcp_connection_id (w_user w) = i → i ∈ conn_ids →
  conn_at w i = Some c → 0 <= socket_fd c → 0 <= r →
  tcp_send (net_ops (w_iface w)) (socket_fd c) (activation_request (w_user w)) (w_net w) = (r, n) →
  doip_tester_activate_routing OBJ w =
    Done (DOIP_RESULT_OK, set_user (activating (w_user w)) (set_net n w)).
Proof.
  intros Hif Hid Hi Hc Hfd Hr Hsend. pose proof Hi as Hi'%conn_ids_range. unfold doip_tester_activate_routing.
  rewrite (ST_bind_eq _ _ w (w_user w) w) by done. rewrite Hid, (proj2 (Z.ltb_ge i 0)) by lia.
  erewrite ST_bind_eq; [|unfold lift; rewrite doip_encode_routing_activation_req_ok by done; reflexivity].
  cbv beta iota. rewrite bool_decide_eq_true_2 by done. cbn [negb]. rewrite patch_0 by done.
  fold (activation_request (w_user w)). change (out (Some 19)) with (len (activation_request (w_user w))).
  rewrite Hif.
  pose proof (tcp_send_open w i c (activation_request (w_user w))
                (drop (length (activation_request (w_user w))) (local_array 32)) Hc Hi Hfd) as E.
  rewrite Hsend, (proj2 (Z.leb_le 0 r)) in E by lia. by rewrite (ST_bind_eq _ _ _ _ _ E).
Qed.

Lemma tester_tcp_header w i h rest n : header_ok h → 8 <= n →
  tester_tcp_rx_callback run_indication i (header_bytes h ++ rest) n w =
    (if payload_type h =? DOIP_PAYLOAD_TYPE_ROUTING_ACTIVATION_RES
     then handle_routing_activation_response rest (payload_length h)
     else if payload_type h =? DOIP_PAYLOAD_TYPE_DIAG_MESSAGE
     then handle_diagnostic_message run_indication rest (payload_length h) None
     else mret tt) w.
Proof.
  intros Hh Hn. unfold tester_tcp_rx_callback.
  erewrite ST_bind_eq; [|unfold lift; rewrite doip_decode_header_bytes by done; reflexivity].
  cbv beta iota. rewrite bool_decide_eq_true_2 by done. cbn [negb]. rewrite default_Some. cbv zeta.
  unfold ptr_add. change (Z.to_nat 8) with 8%nat. by rewrite drop_header_bytes.
Qed.

Lemma tester_routing_response w i src la code rest :
  t_state (w_user w) = DOIP_TESTER_STATE_ACTIVATING →
  tester_tcp_rx_callback run_indication i (routing_message src la code ++ rest) 21 w =
    Done (tt, set_user (if (code =? 0x10) || (code =? 0x11)
                        then t_with_state DOIP_TESTER_STATE_READY (t_with_activated true (w_user w))
                        else t_with_state DOIP_TESTER_STATE_ERROR (w_user w)) w).
Proof.
  intros Hst. unfold routing_message, message_2019. rewrite <- app_assoc.
  rewrite tester_tcp_header by (done || by apply header_2019_ok). cbn [payload_type header_2019].
  rewrite Z.eqb_refl. cbv iota. unfold handle_routing_activation_response.
  rewrite (ST_bind_eq _ _ w (w_user w) w) by done. rewrite Hst, bool_decide_eq_true_2 by done. cbn [negb].
  change (payload_length (header_2019 _ _)) with 13. change (13 <? 13) with false. cbv iota.
  rewrite (ST_bind_eq _ _ w code w) by done.
  unfold DOIP_ROUTING_ACT_RES_SUCCESS, DOIP_ROUTING_ACT_RES_CONFIRM_REQUIRED.
  by destruct ((code =? 0x10) || (code =? 0x11)).
Qed.

(** The tester that has just learnt of an entity. *)
Definition discovered (cfg : doip_entity_config_t) (ip : bytes) (t : doip_tester_t F) : doip_tester_t F :=
  t_with_state DOIP_TESTER_STATE_IDLE
    (t_with_entity (DiscoveredEntity ip DOIP_TCP_DATA_PORT (cfg_vin cfg) (cfg_logical_address cfg) (cfg_eid cfg)) t).

Lemma tester_announcement w ip port cfg rest :
  config_ok cfg → t_state (w_user w) = DOIP_TESTER_STATE_DISCOVERY →
  len (de_ip_address (t_entity (w_user w))) = 16 →
  ∃ addr, strncpy (de_ip_address (t_entity (w_user w))) ip 15 = Done addr ∧
    tester_udp_rx_callback ip port (id_message cfg ++ rest) 41 w =
      Done (tt, set_user (discovered cfg addr (w_user w)) w).
Proof.
  intros Hcfg Hst Hip. pose proof Hcfg as (Hv&He&Hg&Hla&_).
  unfold strncpy at 1. rewrite memcpy_patch; [|lia|].
  2: { rewrite Hip. unfold len. rewrite length_app, length_replicate, length_take. lia. }
  eexists. split; [reflexivity|]. apply wp_done_unit. unfold tester_udp_rx_callback.
  change (41 <? 8) with false. cbv iota. unfold id_message, message_2019. rewrite <- app_assoc.
  apply wp_bind. eapply wp_lift.
  { apply doip_decode_header_bytes; [|done]. apply header_2019_ok; [done|].
    unfold vehicle_id_payload. cbn [vir_vin vir_eid vir_gid vir_logical_address vir_further_action_required vir_sync_status].
    rewrite !len_app, Hv, He, Hg. done. }
  cbv beta iota. rewrite bool_decide_eq_true_2 by done. cbn [negb]. rewrite default_Some. cbv zeta.
  cbn [payload_type header_2019]. rewrite Z.eqb_refl. unfold ptr_add. change (Z.to_nat 8) with 8%nat.
  rewrite drop_header_bytes. unfold handle_vehicle_announcement. apply wp_bind, wp_gets.
  change (tester w) with (w_user w).
  rewrite Hst, bool_decide_eq_true_2 by done. cbn [negb payload_length header_2019].
  unfold vehicle_id_payload. cbn [vir_vin vir_eid vir_gid vir_logical_address vir_further_action_required vir_sync_status].
  rewrite !len_app, Hv, He, Hg, len_be16. change (DOIP_VIN_LENGTH + _ <? 33) with false. cbv iota.
  apply wp_bind. eapply wp_lift.
  { unfold strncpy. rewrite memcpy_patch; [reflexivity|lia|].
    rewrite Hip. unfold len. rewrite length_app, length_replicate, length_take. lia. }
  rewrite <- !app_assoc.
  apply wp_bind. eapply wp_lift; [by apply slice_prefix|].
  assert (length (cfg_vin cfg) = 17%nat) as Hvl by (unfold len, DOIP_VIN_LENGTH in Hv; lia).
  apply wp_bind. eapply wp_lift.
  { unfold load. change (0 <=? 17) with true. cbv iota. rewrite lookup_app_r by lia. rewrite Hvl. reflexivity. }
  apply wp_bind. eapply wp_lift.
  { unfold load. change (0 <=? 18) with true. cbv iota. rewrite lookup_app_r by lia. rewrite Hvl. reflexivity. }
  apply wp_bind. eapply wp_lift.
  { rewrite slice_Done; [|lia|done|].
    2: { rewrite !len_app, Hv, He, Hg, len_be16. pose proof (len_nonneg rest).
         unfold DOIP_VIN_LENGTH, DOIP_EID_LENGTH, DOIP_GID_LENGTH in *. rewrite !len_cons, len_nil. lia. }
    rewrite (app_assoc (cfg_vin cfg)). rewrite drop_app_length' by (rewrite length_app, Hvl; done).
    rewrite take_app_length'; [reflexivity|]. unfold len, DOIP_EID_LENGTH in *. lia. }
  apply wp_bind, wp_modify. apply wp_modify.
  rewrite lor_be16 by (unfold is_u8; apply Z.mod_pos_bound; lia). rewrite of_be16_be16 by done. done.
Qed.
End tester_lemmas.

Section tester_timers.
Context {N F : Type}.
Implicit Types w : world N (doip_tester_t F).

Definition waiting (s : doip_tester_state_t) : bool :=
  bool_decide (s = DOIP_TESTER_STATE_DISCOVERY) || bool_decide (s = DOIP_TESTER_STATE_ACTIVATING).

(** One call of [doip_tester_update_timers]. *)
Definition tester_tick (elapsed : Z) (t : doip_tester_t F) : doip_tester_t F :=
  if 0 <? t_timeout_timer t then
    if elapsed <? t_timeout_timer t then t_with_timer (t_timeout_timer t - elapsed) t
    else let t := t_with_timer 0 t in
         if waiting (t_state t) then t_with_state DOIP_TESTER_STATE_ERROR t else t
  else t.

Lemma tester_update_timers_eq elapsed w : 0 <= elapsed → is_u32 (t_timeout_timer (w_user w)) →
  doip_tester_update_timers OBJ elapsed w = Done (tt, set_user (tester_tick elapsed (w_user w)) w).
Proof.
  intros He Ht. unfold is_u32 in Ht. apply wp_done_unit. unfold doip_tester_update_timers, tester_tick.
  apply wp_bind, wp_gets. change (tester w) with (w_user w).
  destruct (0 <? t_timeout_timer (w_user w)); [|apply wp_ret; by destruct w].
  destruct (Z.ltb_spec elapsed (t_timeout_timer (w_user w))).
  - apply wp_modify. by rewrite u32_small by (unfold is_u32; lia).
  - apply wp_bind, wp_modify. unfold waiting. cbn [t_state t_with_timer].
    destruct (bool_decide (t_state (w_user w) = DOIP_TESTER_STATE_DISCOVERY)); [by apply wp_modify|].
    destruct (bool_decide _); [by apply wp_modify|]. by apply wp_ret.
Qed.

Lemma tester_tick_timer elapsed t : 0 <= elapsed → is_u32 (t_timeout_timer t) →
  is_u32 (t_timeout_timer (tester_tick elapsed t)).
Proof.
  unfold is_u32, tester_tick. intros. destruct (Z.ltb_spec 0 (t_timeout_timer t)); [|lia].
  destruct (Z.ltb_spec elapsed (t_timeout_timer t)); [simpl; lia|].
  cbv zeta. destruct (waiting _); simpl; lia.
Qed.

Lemma tester_timers_run k elapsed w : 0 <= elapsed → is_u32 (t_timeout_timer (w_user w)) →
  for_each (replicate k elapsed) (doip_tester_update_timers OBJ) w =
    Done (tt, set_user (Nat.iter k (tester_tick elapsed) (w_user w)) w).
Proof.
  intros He. revert w. induction k as [|k IH]; intros w Ht; [by destruct w|].
  cbn [replicate for_each]. rewrite (ST_bind_eq _ _ _ _ _ (tester_update_timers_eq elapsed w He Ht)).
  rewrite IH by by apply tester_tick_timer. by rewrite Nat.iter_succ_r.
Qed.

Lemma tester_ticks k elapsed t : 0 < elapsed → waiting (t_state t) = true → 0 < t_timeout_timer t →
  Nat.iter k (tester_tick elapsed) t =
    if Z.of_nat k * elapsed <? t_timeout_timer t then t_with_timer (t_timeout_timer t - Z.of_nat k * elapsed) t
    else t_with_state DOIP_TESTER_STATE_ERROR (t_with_timer 0 t).
Proof.
  intros He Hw Ht. induction k as [|k IH].
  - rewrite (proj2 (Z.ltb_lt _ _)) by lia. simpl. destruct t; unfold t_with_timer; simpl. f_equal. lia.
  - simpl Nat.iter. rewrite IH.
    destruct (Z.ltb_spec (Z.of_nat k * elapsed) (t_timeout_timer t)).
    + unfold tester_tick at 1. cbn [t_timeout_timer t_with_timer].
      rewrite (proj2 (Z.ltb_lt 0 _)) by lia.
      destruct (Z.ltb_spec elapsed (t_timeout_timer t - Z.of_nat k * elapsed)).
      * rewrite (proj2 (Z.ltb_lt (Z.of_nat (S k) * elapsed) _)) by lia. unfold t_with_timer; simpl. f_equal. lia.
      * rewrite (proj2 (Z.ltb_ge (Z.of_nat (S k) * elapsed) _)) by lia. cbv zeta. cbn [t_state t_with_timer].
        by rewrite Hw.
    + rewrite (proj2 (Z.ltb_ge (Z.of_nat (S k) * elapsed) _)) by lia. done.
Qed.
End tester_timers.

(** ** Properties *)

(** C23 (refinement): the activation handshake. A tester that is connected sends,
    with [doip_tester_activate_routing], a request that the entity understands;
    whatever follows it in the receive buffers, the entity answers and the tester,
    given the answer, is ready exactly when its own address is a
    tester address, in which case the entity has activated its connection for
    that address; otherwise the tester is in the error state. *)
Theorem activation_handshake {N1 F1 N2 F2 A} run_indication run_uds
    (wt : world N1 (doip_tester_t F1)) (we : world N2 (user F2 A)) i c r n id e rest1 rest2 :
  let t := w_user wt in
  let src := tcfg_logical_address (t_config t) in
  let la := cfg_logical_address (config (entity we)) in
  t_interface t = OBJ → t_tcp_connection_id t = i → i ∈ conn_ids → conn_at wt i = Some c → 0 <= socket_fd c →
  is_u16 src → is_u8 (tcfg_activation_type (t_config t)) →
  tcp_send (net_ops (w_iface wt)) (socket_fd c) (activation_request t) (w_net wt) = (r, n) → 0 <= r →
  can_send id we → econn_at we id = Some e →
  ∃ wt1 we1 code wt2,
    doip_tester_activate_routing OBJ wt = Done (DOIP_RESULT_OK, wt1) ∧ w_net wt1 = n ∧
    entity_tcp_rx_callback run_uds id (activation_request t ++ rest1) 19 we =
      Done (tt, tcp_sent id (routing_message src la code) we1) ∧
    tester_tcp_rx_callback run_indication i (routing_message src la code ++ rest2) 21 wt1 = Done (tt, wt2) ∧
    (if decide (is_tester_address src)
     then doip_tester_is_ready (Some (w_user wt2)) = true ∧
          econn_at we1 id = Some (activate (config (entity we)) src e)
     else t_state (w_user wt2) = DOIP_TESTER_STATE_ERROR ∧ we1 = we).
Proof.
  intros t src la Hif Hid Hi Hc Hfd Hsrc Hty Hsend Hr Hcs He.
  assert (entity_tcp_rx_callback run_uds id (activation_request t ++ rest1) 19 we =
    Done (tt, if decide (is_tester_address src)
      then tcp_sent id (routing_message src la 0x10) (put_econn id (activate (config (entity we)) src e) we)
      else tcp_sent id (routing_message src la 0x00) we)) as Eent.
  { unfold activation_request, message_2019. rewrite <- app_assoc.
    by apply (routing_activation_eq run_uds we id e). }
  exists (set_user (activating t) (set_net n wt)),
         (if decide (is_tester_address src) then put_econn id (activate (config (entity we)) src e) we else we),
         (if decide (is_tester_address src) then 0x10 else 0x00).
  eexists. split; [by eapply activate_routing_eq|]. split; [done|]. rewrite Eent.
  split; [by destruct (decide _)|]. split; [by apply tester_routing_response|].
  destruct (decide (is_tester_address src)); [|done]. split; [done|]. by eapply econn_at_put_eq.
Qed.

(** Discovery. The answer of an entity to the identification
    request that [doip_tester_start_discovery] broadcasts is understood by a
    tester that waits for one: it stores the VIN, the logical address, the EID
    and the port of exactly that entity and is idle again. *)
Theorem discovery_handshake {N1 F1 N2 F2 A} (wt : world N1 (doip_tester_t F1)) (we : world N2 (user F2 A))
    ip port ip' port' p rest :
  let cfg := config (entity we) in
  config_ok cfg → entity_interface (entity we) = OBJ → 17 <= len p →
  t_state (w_user wt) = DOIP_TESTER_STATE_DISCOVERY → len (de_ip_address (t_entity (w_user wt))) = 16 →
  entity_udp_rx_callback ip port (header_bytes (header_2019 DOIP_PAYLOAD_TYPE_VEHICLE_ID_REQ 0) ++ p) 8 we =
    Done (tt, udp_sent ip port (id_message cfg) we) ∧
  ∃ wt', tester_udp_rx_callback ip' port' (id_message cfg ++ rest) 41 wt = Done (tt, wt') ∧
    t_state (w_user wt') = DOIP_TESTER_STATE_IDLE ∧
    de_vin (t_entity (w_user wt')) = cfg_vin cfg ∧
    de_logical_address (t_entity (w_user wt')) = cfg_logical_address cfg ∧
    de_eid (t_entity (w_user wt')) = cfg_eid cfg ∧
    de_port (t_entity (w_user wt')) = DOIP_TCP_DATA_PORT.
Proof.
  intros cfg Hcfg Hif Hp Hst Hip. split.
  - rewrite udp_callback_eq; [done|done|done|by apply header_2019_ok|done].
  - destruct (tester_announcement wt ip' port' cfg rest Hcfg Hst Hip) as (addr&_&E).
    eexists. split; [exact E|]. done.
Qed.

(** The tester does not wait forever. While it waits for an
    announcement or an activation response and none comes, [k] timer updates of
    [elapsed] ms leave it waiting as long as they add up to less than the response
    timeout it started with, and put it into the error state otherwise. *)
Theorem tester_times_out {N F} k elapsed (w : world N (doip_tester_t F)) :
  0 < elapsed → waiting (t_state (w_user w)) = true → 0 < t_timeout_timer (w_user w) →
  is_u32 (t_timeout_timer (w_user w)) →
  ∃ w', for_each (replicate k elapsed) (doip_tester_update_timers OBJ) w = Done (tt, w') ∧
    t_state (w_user w') =
      if Z.of_nat k * elapsed <? t_timeout_timer (w_user w) then t_state (w_user w)
      else DOIP_TESTER_STATE_ERROR.
Proof.
  intros He Hw Ht Hu. eexists. split; [apply tester_timers_run; [lia|done]|].
  simpl. rewrite tester_ticks by done. by destruct (_ <? _).
Qed.

(** The tester drops every UDS response. [tester_tcp_rx_callback]
    decodes a diagnostic message but passes no indication callback on, so that
    the callback given to [doip_tester_process] never runs: any well-formed
    diagnostic message leaves the tester and everything else unchanged. *)
Theorem tester_drops_responses {N F} run_indication (w : world N (doip_tester_t F)) i sa ta data rest n :
  is_u16 sa → is_u16 ta → is_u32 (4 + len data) → 8 <= n →
  tester_tcp_rx_callback run_indication i
    (message_2019 DOIP_PAYLOAD_TYPE_DIAG_MESSAGE (diag_payload sa ta data) ++ rest) n w = Done (tt, w).
Proof.
  intros Hsa Hta Hl Hn. pose proof (len_nonneg data). unfold is_u32 in Hl.
  assert (len (diag_payload sa ta data) = 4 + len data) as El
    by (unfold diag_payload; rewrite !len_app, !len_be16; lia).
  unfold message_2019. rewrite El, <- app_assoc.
  rewrite tester_tcp_header by (done || (apply header_2019_ok; [done|unfold is_u32; lia])).
  cbn [payload_type payload_length header_2019].
  change (DOIP_PAYLOAD_TYPE_DIAG_MESSAGE =? DOIP_PAYLOAD_TYPE_ROUTING_ACTIVATION_RES) with false.
  rewrite Z.eqb_refl. cbv iota. unfold handle_diagnostic_message.
  erewrite ST_bind_eq; [|unfold lift; rewrite doip_decode_diag_payload by (done || lia); reflexivity].
  cbv beta iota. by rewrite bool_decide_eq_true_2.
Qed.

(** ** Witnesses *)
Module TesterDemo.
Definition world_of (src : Z) (st : doip_tester_state_t) : world Script.network (doip_tester_t unit) :=
  World (Script.iface Script.open_slot Script.empty_slot) Script.quiet
    (Tester (TesterConfig src 0 2000 3) OBJ st 0
       (DiscoveredEntity (replicate 16 0) 0 (replicate 17 0) 0 (replicate 6 0)) false 2000 None).
Definition ignore : unit → Z → bytes → Z → option unit → ST (world Script.network (doip_tester_t unit)) unit :=
  λ _ _ _ _ _, mret tt.
End TesterDemo.

Lemma activation_handshake_witness :
  let wt := TesterDemo.world_of 0x0E80 DOIP_TESTER_STATE_CONNECTING in
  let we := Demo.world_of Demo.fresh Script.quiet in
  ∃ wt1 we1 code wt2,
    doip_tester_activate_routing OBJ wt = Done (DOIP_RESULT_OK, wt1) ∧
    w_net wt1 = Script.log 7 (activation_request (w_user wt)) Script.quiet ∧
    entity_tcp_rx_callback Demo.silent 0 (activation_request (w_user wt) ++ []) 19 we =
      Done (tt, tcp_sent 0 (routing_message 0x0E80 0x1000 code) we1) ∧
    tester_tcp_rx_callback TesterDemo.ignore 0 (routing_message 0x0E80 0x1000 code ++ []) 21 wt1 = Done (tt, wt2) ∧
    (if decide (is_tester_address 0x0E80)
     then doip_tester_is_ready (Some (w_user wt2)) = true ∧
          econn_at we1 0 = Some (activate Demo.cfg 0x0E80 Demo.fresh)
     else t_state (w_user wt2) = DOIP_TESTER_STATE_ERROR ∧ we1 = we).
Proof.
  intros wt we.
  apply (activation_handshake TesterDemo.ignore Demo.silent wt we 0 Script.open_slot 19
           (Script.log 7 (activation_request (w_user wt)) Script.quiet) 0 Demo.fresh); try done; [by left|].
  split_and!; [done|by left|by eexists].
Defined.

Lemma discovery_handshake_witness :
  let wt := TesterDemo.world_of 0x0E80 DOIP_TESTER_STATE_DISCOVERY in
  ∃ wt', tester_udp_rx_callback "10.0.0.7"%string 13400 (id_message Demo.cfg ++ []) 41 wt = Done (tt, wt') ∧
    t_state (w_user wt') = DOIP_TESTER_STATE_IDLE ∧
    de_logical_address (t_entity (w_user wt')) = 0x1000.
Proof.
  intros wt.
  destruct (discovery_handshake wt (Demo.world_of Demo.fresh Script.quiet) "10.0.0.9"%string 5000
    "10.0.0.7"%string 13400 (replicate 17 0) []) as [_ (wt'&E&Hst&_&Hla&_)]; [by_compute|done|by_compute|done|done|].
  exists wt'. split; [exact E|]. split; [exact Hst|exact Hla].
Defined.

Lemma tester_times_out_witness :
  let w := TesterDemo.world_of 0x0E80 DOIP_TESTER_STATE_ACTIVATING in
  ∃ w', for_each (replicate 200 10) (doip_tester_update_timers OBJ) w = Done (tt, w') ∧
        t_state (w_user w') = DOIP_TESTER_STATE_ERROR.
Proof. intros w. apply (tester_times_out 200 10 w); done. Defined.

Lemma tester_drops_responses_witness :
  let w := TesterDemo.world_of 0x0E80 DOIP_TESTER_STATE_READY in
  tester_tcp_rx_callback TesterDemo.ignore 0
    (message_2019 DOIP_PAYLOAD_TYPE_DIAG_MESSAGE (diag_payload 0x1000 0x0E80 [0x7E; 0]) ++ []) 14 w = Done (tt, w).
Proof. intros w. apply tester_drops_responses; by_compute. Defined.
