(* ===== verification/DebugPrint.v ===== *)
(** * The debug output

    [src/debug_print.c]: text on the serial line, through the UART driver of the
    microcontroller. The driver is a parameter: the state of the peripheral,
    [Uart_AsyncSend] and [Uart_GetStatus]. What [vsnprintf] makes of a format
    and its arguments is an argument of [debug_print]. *)

From Stdlib Require Import ZArith Lia.
From Stdlib Require Import Strings.String.
From stdpp Require Import list_numbers.
From S2P Require Import Prelude Text.
Local Open Scope list_scope.
Local Open Scope Z_scope.

(** ** The UART driver *)

Inductive Uart_StatusType :=
  | UART_STATUS_NO_ERROR
  | UART_STATUS_OPERATION_ONGOING
  | UART_STATUS_ERROR.

(** [Uart_AsyncSend] tells whether it accepted the transfer ([E_OK]). *)
Record uart_ops (W : Type) := UartOps {
  Uart_Init : W → W;
  Uart_AsyncSend : W → bytes → bool * W;
  Uart_GetStatus : W → Uart_StatusType * W;
}.
Arguments UartOps {W}.
Arguments Uart_Init {W}.
Arguments Uart_AsyncSend {W}.
Arguments Uart_GetStatus {W}.

(** The static variables, the peripheral, and the transfers the driver was
    given, accepted or not. *)
Record dp_state (W : Type) := DpState {
  debug_print_initialized : bool;
  debug_print_buffer : bytes;
  uart : W;
  transfers : list (bytes * bool);
}.
Arguments DpState {W}.
Arguments debug_print_initialized {W}.
Arguments debug_print_buffer {W}.
Arguments uart {W}.
Arguments transfers {W}.

Definition DEBUG_PRINT_MAX_MESSAGE_LENGTH : Z := 256.
Definition DEBUG_PRINT_BUFFER_SIZE : Z := DEBUG_PRINT_MAX_MESSAGE_LENGTH.

Definition MSG_FORMAT : bytes := literal "DEBUG_PRINT: Format error" ++ [13; 10; 0].
Definition MSG_TIMEOUT : bytes := literal "DEBUG_PRINT: TX timeout" ++ [13; 10; 0].
Definition MSG_FAILED : bytes := literal "DEBUG_PRINT: UART send failed" ++ [13; 10; 0].

Section operations.
Context {W : Type} (ops : uart_ops W).

Definition set_buffer (b : bytes) : ST (dp_state W) unit :=
  modify (λ s, DpState (debug_print_initialized s) b (uart s) (transfers s)).

Definition async_send (data : bytes) : ST (dp_state W) bool :=
  s ← gets id;
  let '(ok, w) := Uart_AsyncSend ops (uart s) data in
  modify (λ s, DpState (debug_print_initialized s) (debug_print_buffer s) w (transfers s ++ [(data, ok)]));;
  mret ok.

Definition get_status : ST (dp_state W) Uart_StatusType :=
  s ← gets id;
  let '(st, w) := Uart_GetStatus ops (uart s) in
  modify (λ s, DpState (debug_print_initialized s) (debug_print_buffer s) w (transfers s));;
  mret st.

Definition debug_print_init : ST (dp_state W) unit :=
  s ← gets id;
  if debug_print_initialized s then mret tt else
  modify (λ s, DpState true (debug_print_buffer s) (Uart_Init ops (uart s)) (transfers s)).

(** The [do ... while (wait_count < max_wait_cycles)] loop. *)
Fixpoint wait_loop (fuel : nat) (max_wait_cycles wait_count : Z) : ST (dp_state W) bool :=
  match fuel with
  | O => diverge
  | S fuel =>
      status ← get_status;
      match status with
      | UART_STATUS_NO_ERROR => mret true
      | UART_STATUS_OPERATION_ONGOING =>
          let wait_count := u32 (wait_count + 1) in
          if wait_count <? max_wait_cycles then wait_loop fuel max_wait_cycles wait_count else mret false
      | UART_STATUS_ERROR => mret false
      end
  end.

Definition debug_print_wait_transmit_complete (timeout_us : Z) : ST (dp_state W) bool :=
  wait_loop (S (Z.to_nat (timeout_us / 10))) (timeout_us / 10) 0.

(** [depth] bounds the recursion: a timeout is reported through
    [debug_print_string] itself. *)
Fixpoint debug_print_string (depth : nat) (str : option bytes) : ST (dp_state W) unit :=
  match depth with
  | O => diverge
  | S depth =>
      s ← gets id;
      if negb (debug_print_initialized s) then mret tt else
      match str with
      | None => mret tt
      | Some str =>
          text ← lift (read_string str);
          ok ← async_send text;
          if ok : bool then
            done ← debug_print_wait_transmit_complete 100000;
            if done : bool then mret tt else debug_print_string depth (Some MSG_TIMEOUT)
          else mret tt
      end
  end.

(** [formatted]: the text of the message, or [None] for an encoding error. *)
Definition debug_print (depth : nat) (formatted : option bytes) : ST (dp_state W) unit :=
  s ← gets id;
  if negb (debug_print_initialized s) then mret tt else
  match formatted with
  | None => debug_print_string depth (Some MSG_FORMAT)
  | Some text =>
      '(buffer, formatted_length) ← lift (snprintf (debug_print_buffer s) 0 DEBUG_PRINT_BUFFER_SIZE text);
      set_buffer buffer;;
      if DEBUG_PRINT_BUFFER_SIZE <=? formatted_length then debug_print_string depth (Some MSG_FORMAT) else
      data ← lift (slice buffer 0 formatted_length);
      ok ← async_send data;
      if ok : bool then
        done ← debug_print_wait_transmit_complete 100000;
        if done : bool then mret tt else debug_print_string depth (Some MSG_TIMEOUT)
      else debug_print_string depth (Some MSG_FAILED)
  end.

(** The loop over the bytes of a dump; [n] counts the rounds left. *)
Fixpoint hex_loop (n : nat) (depth : nat) (buffer : bytes) (length i : Z) (hex_buffer : bytes)
    (buffer_index : Z) : ST (dp_state W) unit :=
  match n with
  | O => mret tt
  | S n =>
      c ← lift (load buffer i);
      '(hex_buffer, chars_written) ← lift (
        snprintf hex_buffer buffer_index (u32 (64 - buffer_index)) (hex2 c ++ [32]));
      let buffer_index := u32 (buffer_index + chars_written) in
      if (58 <=? buffer_index) || (i mod 16 =? 15) || (i =? u32 (length - 1)) then
        hex_buffer ← lift (
          b ← store hex_buffer buffer_index 13;
          b ← store b (buffer_index + 1) 10;
          store b (buffer_index + 2) 0);
        debug_print_string depth (Some hex_buffer);;
        hex_loop n depth buffer length (i + 1) hex_buffer 0
      else hex_loop n depth buffer length (i + 1) hex_buffer buffer_index
  end.

Definition debug_print_hex (depth : nat) (buffer : bytes) (length : Z) (prefix : option bytes) :
    ST (dp_state W) unit :=
  s ← gets id;
  if negb (debug_print_initialized s) then mret tt else
  (match prefix with Some p => debug_print_string depth (Some p) | None => mret tt end);;
  hex_loop (Z.to_nat length) depth buffer length 0 (local_array 64) 0;;
  if (0 <? length) && negb (length mod 16 =? 0) then debug_print_string depth (Some [13; 10; 0]) else mret tt.

Definition debug_print_char (character : Z) : ST (dp_state W) unit :=
  s ← gets id;
  if negb (debug_print_initialized s) then mret tt else
  ok ← async_send [character];
  if ok : bool then
    debug_print_wait_transmit_complete 10000;; mret tt
  else mret tt.

Definition debug_print_newline (depth : nat) : ST (dp_state W) unit :=
  debug_print_string depth (Some [13; 10; 0]).

(** The system call behind the C library's [printf]. *)
Definition _write (file : Z) (ptr : option bytes) (len : Z) : ST (dp_state W) Z :=
  s ← gets id;
  if negb (debug_print_initialized s) then mret (-1) else
  match ptr with
  | None => mret (-1)
  | Some ptr =>
      if len <? 0 then mret (-1) else
      for_each (seqZ 0 len) (λ i, c ← lift (load ptr i); debug_print_char c);;
      mret len
  end.
End operations.

(** ** Waiting for a transfer *)

Section waiting.
Context {W : Type} (ops : uart_ops W).

(** The status the driver reports at poll [k] from [w] on, and the peripheral
    after [k] polls. *)
Definition after_polls (k : nat) (w : W) : W := Nat.iter k (λ w, (Uart_GetStatus ops w).2) w.
Definition status_at (k : nat) (w : W) : Uart_StatusType := (Uart_GetStatus ops (after_polls k w)).1.

Definition with_uart (s : dp_state W) (w : W) : dp_state W :=
  DpState (debug_print_initialized s) (debug_print_buffer s) w (transfers s).

Lemma get_status_eq s :
  get_status ops s = Done (status_at 0 (uart s), with_uart s (after_polls 1 (uart s))).
Proof.
  unfold get_status, status_at, after_polls. rewrite gets_bind. simpl. change (id s) with s.
  by destruct (Uart_GetStatus ops (uart s)).
Qed.

Lemma after_polls_S k w : after_polls k (after_polls 1 w) = after_polls (S k) w.
Proof. unfold after_polls. simpl. induction k as [|k IH]; simpl; congruence. Qed.

Lemma status_at_S k w : status_at k (after_polls 1 w) = status_at (S k) w.
Proof. unfold status_at. by rewrite after_polls_S. Qed.

(** What a wait of at most [n] polls does: it polls while the transfer goes on,
    and reports whether the last status was an end without an error. *)
Definition waited (n : nat) (s s' : dp_state W) (r : bool) : Prop :=
  ∃ k, (k < n)%nat ∧ s' = with_uart s (after_polls (S k) (uart s)) ∧
    (∀ j, (j < k)%nat → status_at j (uart s) = UART_STATUS_OPERATION_ONGOING) ∧
    (r = true ↔ status_at k (uart s) = UART_STATUS_NO_ERROR) ∧
    (status_at k (uart s) = UART_STATUS_OPERATION_ONGOING → S k = n).

Lemma wait_loop_spec fuel maxc wc s :
  0 <= wc → wc = 0 ∨ wc < maxc → maxc < 2 ^ 32 → maxc - wc < Z.of_nat fuel → (0 < fuel)%nat →
  ∃ r s', wait_loop ops fuel maxc wc s = Done (r, s') ∧ waited (Nat.max 1 (Z.to_nat (maxc - wc))) s s' r.
Proof.
  revert wc s. induction fuel as [|fuel IH]; intros wc s Hwc Hlow Hmax Hfuel Hpos; [lia|].
  cbn [wait_loop]. erewrite bind_done by apply get_status_eq. cbv zeta.
  destruct (status_at 0 (uart s)) eqn:E0.
  - exists true. eexists. split; [done|]. exists 0%nat. rewrite E0. repeat split; done || lia.
  - rewrite (u32_small (wc + 1)) by (unfold is_u32; lia).
    case (Z.ltb_spec (wc + 1) maxc); intros Hlt.
    + destruct (IH (wc + 1) (with_uart s (after_polls 1 (uart s)))) as (r & s' & E & k & Hk & -> & Hj & Hr & Hn);
        [lia..|]. exists r. eexists. split; [exact E|].
      exists (S k). cbn [with_uart uart debug_print_initialized debug_print_buffer transfers] in *.
      rewrite !status_at_S, after_polls_S in *. repeat split; try done; [lia| |apply Hr|apply Hr|intros Hon; specialize (Hn Hon); lia].
      intros [|j] Hj'; [done|]. rewrite <- status_at_S. apply Hj. lia.
    + exists false. eexists. split; [done|]. exists 0%nat. rewrite E0. repeat split; try done; lia.
  - exists false. eexists. split; [done|]. exists 0%nat. rewrite E0. repeat split; done || lia.
Qed.

Lemma wait_spec timeout_us s : is_u32 timeout_us →
  ∃ r s', debug_print_wait_transmit_complete ops timeout_us s = Done (r, s') ∧
    waited (Nat.max 1 (Z.to_nat (timeout_us / 10))) s s' r.
Proof.
  unfold is_u32. intros. unfold debug_print_wait_transmit_complete.
  assert (0 <= timeout_us / 10 < 2 ^ 32) by (Z.to_euclidean_division_equations; lia).
  destruct (wait_loop_spec (S (Z.to_nat (timeout_us / 10))) (timeout_us / 10) 0 s) as (r & s' & ? & ?);
    [lia..|]. rewrite Z.sub_0_r in *. eauto.
Qed.
End waiting.

(** ** The text of a dump *)

Definition hex_text (d : bytes) : bytes := d ≫= λ c, hex2 c ++ [32].

(** The data of a dump, cut into pieces of sixteen bytes; [pend] is the piece
    begun. *)
Fixpoint pieces (pend d : bytes) : list bytes :=
  match d with
  | [] => match pend with [] => [] | _ => [pend] end
  | c :: d => if (length pend =? 15)%nat then (pend ++ [c]) :: pieces [] d else pieces (pend ++ [c]) d
  end.

Lemma pieces_end pend c d : length pend = 15%nat ∨ d = [] → pieces pend (c :: d) = (pend ++ [c]) :: pieces [] d.
Proof.
  cbn [pieces]. case (Nat.eqb_spec (length pend) 15); [done|]. intros ? [?| ->]; [done|].
  simpl. by destruct pend.
Qed.

(** The strings [debug_print_hex] prints for [d]: a line for each piece, and an
    empty line when the last one is not full. *)
Definition hex_output (d : bytes) : list bytes :=
  map (λ p, hex_text p ++ [13; 10]) (pieces [] d) ++
  (if len d mod 16 =? 0 then [] else [[13; 10]]).

(** ** A working and a stuck transmitter *)

(** [drains ready n w]: within [n] polls the transfer ends without an error and
    the transmitter is ready again. *)
Section drains.
Context {W : Type} (ops : uart_ops W) (ready : W → Prop).
Fixpoint drains (n : nat) (w : W) : Prop :=
  match n with
  | O => False
  | S n =>
      match (Uart_GetStatus ops w).1 with
      | UART_STATUS_NO_ERROR => ready (Uart_GetStatus ops w).2
      | UART_STATUS_OPERATION_ONGOING => drains n (Uart_GetStatus ops w).2
      | UART_STATUS_ERROR => False
      end
  end.
End drains.

(** A transmitter that, when ready, accepts a transfer and completes it within
    a thousand polls, the shortest wait the code uses. *)
Class WorkingUart {W} (ops : uart_ops W) (ready : W → Prop) := {
  send_accepted w data : ready w →
    ∃ w', Uart_AsyncSend ops w data = (true, w') ∧ drains ops ready (Z.to_nat 1000) w';
}.

(** A transmitter that accepts transfers and completes none. *)
Class StuckUart {W} (ops : uart_ops W) (stuck : W → Prop) := {
  stuck_send w data : stuck w → ∃ w', Uart_AsyncSend ops w data = (true, w') ∧ stuck w';
  stuck_status w : stuck w →
    (Uart_GetStatus ops w).1 ≠ UART_STATUS_NO_ERROR ∧ stuck (Uart_GetStatus ops w).2;
}.

Section working.
Context {W : Type} (ops : uart_ops W) (ready : W → Prop) `{!WorkingUart ops ready}.

(** The state in which output works, and what sending [data] does to it. *)
Definition operational (s : dp_state W) : Prop :=
  debug_print_initialized s = true ∧ len (debug_print_buffer s) = 256 ∧ ready (uart s).

Definition sent (s s' : dp_state W) (l : list bytes) : Prop :=
  operational s' ∧ transfers s' = transfers s ++ map (λ d, (d, true)) l.

Lemma drains_wait n fuel maxc wc s :
  drains ops ready n (uart s) → debug_print_initialized s = true → len (debug_print_buffer s) = 256 →
  0 <= wc → maxc < 2 ^ 32 → wc + Z.of_nat n <= maxc → (n <= fuel)%nat →
  ∃ s', wait_loop ops fuel maxc wc s = Done (true, s') ∧ sent s s' [].
Proof.
  revert fuel wc s. induction n as [|n IH]; intros fuel wc s Hd Hi Hb Hwc Hmax Hn Hf; [done|].
  destruct fuel as [|fuel]; [lia|]. cbn [wait_loop drains] in *.
  erewrite bind_done by apply get_status_eq.
  change (status_at ops 0 (uart s)) with (Uart_GetStatus ops (uart s)).1.
  destruct (Uart_GetStatus ops (uart s)).1; [| |done].
  - eexists. split; [done|]. repeat split; try done. simpl. by rewrite app_nil_r.
  - rewrite u32_small by (unfold is_u32; lia).
    destruct n as [|n]; [done|]. rewrite (proj2 (Z.ltb_lt _ _)) by lia.
    apply (IH fuel (wc + 1) (with_uart s (after_polls ops 1 (uart s)))); done || lia.
Qed.

(** Sending and waiting: the transfer is accepted and completes. *)
Lemma transfer_done {B} data timeout_us (k : bool → ST (dp_state W) B) (e : ST (dp_state W) B) s :
  operational s → is_u32 timeout_us → 10000 <= timeout_us →
  ∃ s', (ok ← async_send ops data;
         if ok : bool then done ← debug_print_wait_transmit_complete ops timeout_us; k done else e) s =
        k true s' ∧ sent s s' [data].
Proof.
  intros (Hi & Hb & Hr) Hu Ht. unfold is_u32 in Hu. destruct (send_accepted (uart s) data Hr) as (w & E & Hd).
  set (s1 := DpState (debug_print_initialized s) (debug_print_buffer s) w (transfers s ++ [(data, true)])).
  assert (async_send ops data s = Done (true, s1)) as E1.
  { unfold async_send. rewrite gets_bind. change (id s) with s. by rewrite E. }
  assert (1000 <= timeout_us / 10 < 2 ^ 32) by (Z.to_euclidean_division_equations; lia).
  destruct (drains_wait (Z.to_nat 1000) (S (Z.to_nat (timeout_us / 10))) (timeout_us / 10) 0 s1)
    as (s' & E2 & Hs' & Htr); [done..|lia|lia|lia|].
  exists s'. split; [|split; [done|]].
  - erewrite bind_done by exact E1. cbv iota. by erewrite bind_done by exact E2.
  - rewrite Htr. simpl. by rewrite app_nil_r.
Qed.

Lemma sent_trans s1 s2 s3 l1 l2 : sent s1 s2 l1 → sent s2 s3 l2 → sent s1 s3 (l1 ++ l2).
Proof. intros [_ E1] [? E2]. split; [done|]. by rewrite E2, E1, map_app, app_assoc. Qed.

Lemma sent_refl s : operational s → sent s s [].
Proof. intros. split; [done|]. simpl. by rewrite app_nil_r. Qed.

Lemma print_string_ok depth b text s :
  operational s → read_string b = Done text →
  ∃ s', debug_print_string ops (S depth) (Some b) s = Done (tt, s') ∧ sent s s' [text].
Proof.
  intros Hop Ht. destruct (transfer_done text 100000
    (λ d : bool, if d then mret tt else debug_print_string ops depth (Some MSG_TIMEOUT)) (mret tt) s)
    as (s' & E & Hs'); [done|by_compute..|]. exists s'. split; [|done].
  cbn [debug_print_string]. rewrite gets_bind. change (id s) with s.
  rewrite (proj1 Hop). cbn [negb]. erewrite lift_bind by exact Ht. exact E.
Qed.

Lemma print_char_ok c s : operational s →
  ∃ s', debug_print_char ops c s = Done (tt, s') ∧ sent s s' [[c]].
Proof.
  intros Hop. destruct (transfer_done [c] 10000 (λ _, mret tt) (mret tt) s)
    as (s' & E & Hs'); [done|by_compute..|]. exists s'. split; [|done].
  unfold debug_print_char. rewrite gets_bind. change (id s) with s. rewrite (proj1 Hop). exact E.
Qed.

Lemma debug_print_ok depth text s : operational s →
  ∃ s', debug_print ops (S depth) (Some text) s = Done (tt, s') ∧
    sent s s' [if len text <? 256 then text else take 27 MSG_FORMAT].
Proof.
  intros Hop. unfold debug_print. rewrite gets_bind. change (id s) with s. rewrite (proj1 Hop). cbn [negb].
  destruct (snprintf_start 256 (debug_print_buffer s) text) as (b & E & Hb); [done|apply Hop|].
  erewrite lift_bind by exact E. cbv beta iota. unfold set_buffer. rewrite modify_bind.
  set (s1 := DpState _ b _ _). change DEBUG_PRINT_BUFFER_SIZE with 256.
  assert (operational s1) as Hop1 by (destruct Hop as (? & ? & ?); split; [|split]; [done|apply Hb|done]).
  case (Z.leb_spec 256 (len text)); intros Hl.
  - rewrite (proj2 (Z.ltb_ge _ _)) by lia.
    destruct (print_string_ok depth MSG_FORMAT (take 27 MSG_FORMAT) s1) as (s' & E1 & Hs'); [done|done|].
    exists s'. split; [exact E1|exact Hs'].
  - rewrite (proj2 (Z.ltb_lt _ _)) by lia. destruct Hb as [Hb1 [rest ->]].
    rewrite take_ge in * by (unfold len in *; lia).
    pose proof (len_nonneg text) as H0.
    erewrite lift_bind.
    2: { apply slice_Done; lia. }
    rewrite drop_0, take_app_length' by (unfold len; lia).
    destruct (transfer_done text 100000
      (λ d : bool, if d then mret tt else debug_print_string ops (S depth) (Some MSG_TIMEOUT))
      (debug_print_string ops (S depth) (Some MSG_FAILED)) s1) as (s' & E1 & Hs'); [done|by_compute..|].
    exists s'. by split.
Qed.

(** ** The hex dump *)

Lemma len_hex_text d : len (hex_text d) = 3 * len d.
Proof.
  induction d as [|c d IH]; [done|]. unfold hex_text in *. rewrite bind_cons, len_app, IH, len_cons.
  change (len (hex2 c ++ [32])) with 3. lia.
Qed.

Lemma hex_text_no_nul d : bytes_ok d → no_nul (hex_text d).
Proof.
  induction 1 as [|c d Hc _ IH]; [constructor|]. unfold hex_text. rewrite bind_cons.
  apply Forall_app_2; [|exact IH]. apply Forall_app_2; [by apply hex2_no_nul|by apply Forall_singleton].
Qed.

(** The end of a line: the newline goes behind the text, within the buffer. *)
Lemma line_end b t : holds 64 b t → len t <= 58 → no_nul t →
  ∃ b', (b ← store b (len t) 13; b ← store b (len t + 1) 10; store b (len t + 2) 0) = Done b' ∧
    len b' = 64 ∧ read_string b' = Done (t ++ [13; 10]).
Proof.
  intros [Hl [rest Hb]] Ht Hn. pose proof (len_nonneg t).
  rewrite take_ge in Hb by (unfold len in *; lia).
  rewrite (store_patch b) by lia. cbn [mbind outcome_bind].
  rewrite (store_patch (patch _ _ _)) by (rewrite len_patch by len_lia; lia). cbn [mbind outcome_bind].
  rewrite patch_patch by len_lia.
  rewrite store_patch by (rewrite len_patch by len_lia; lia).
  rewrite patch_patch by len_lia. eexists. split; [done|].
  split; [rewrite len_patch by len_lia; lia|].
  unfold patch. rewrite Hb, take_app_length' by (unfold len; lia).
  cbn [app].
  match goal with |- read_string (_ ++ _ :: _ :: _ :: ?r) = _ => generalize r end. intros r.
  replace (t ++ 13 :: 10 :: 0 :: r) with ((t ++ [13; 10]) ++ 0 :: r) by (by rewrite <- app_assoc).
  apply read_string_take. apply Forall_app_2; [done|]. by apply no_nulb_spec.
Qed.

Lemma hex_text_snoc p c : hex_text (p ++ [c]) = hex_text p ++ hex2 c ++ [32].
Proof. unfold hex_text. by rewrite bind_app, bind_cons, app_nil_r. Qed.

Lemma mod16_succ i q : i mod 16 = q → (i + 1) mod 16 = if q =? 15 then 0 else q + 1.
Proof. intros. case (Z.eqb_spec q 15); intros; Z.to_euclidean_division_equations; lia. Qed.

(** One round before the line is full: the byte joins the pending text. *)
Lemma hex_byte pend c hb : (length pend < 16)%nat → len hb = 64 → (∃ rest, hb = hex_text pend ++ rest) →
  ∃ hb', snprintf hb (3 * len pend) (u32 (64 - 3 * len pend)) (hex2 c ++ [32]) = Done (hb', 3) ∧
    holds 64 hb' (hex_text (pend ++ [c])).
Proof.
  intros Hp Hl Hr. pose proof (len_hex_text pend) as Ht.
  assert (0 <= len pend <= 15) by (unfold len; lia).
  destruct (snprintf_at 64 hb (hex_text pend) (hex2 c ++ [32])) as (hb' & E & Hh); [done..|lia|].
  exists hb'. rewrite u32_small by (unfold is_u32; lia). rewrite <- Ht, hex_text_snoc. by split.
Qed.

Lemma hex_loop_ok depth d pend buffer length i hb s :
  operational s → bytes_ok pend → bytes_ok d → len hb = 64 → (∃ rest, hb = hex_text pend ++ rest) →
  (Datatypes.length pend < 16)%nat → (d ≠ [] → i mod 16 = len pend) → (d = [] → pend = []) →
  0 <= i → length = i + len d → length < 2 ^ 32 → (∃ post, drop (Z.to_nat i) buffer = d ++ post) →
  ∃ s', hex_loop ops (Datatypes.length d) (S depth) buffer length i hb (3 * len pend) s = Done (tt, s') ∧
    sent s s' (map (λ p, hex_text p ++ [13; 10]) (pieces pend d)).
Proof.
  revert pend i hb s. induction d as [|c d IH]; intros pend i hb s Hop Hpend Hd Hl Hr Hlt Hi Hnil Hi0 Hlen Hmax [post Hpost].
  { rewrite Hnil by done. simpl. exists s. split; [done|by apply sent_refl]. }
  apply Forall_cons in Hd as [Hc Hd]. rewrite len_cons in Hlen. pose proof (len_nonneg d).
  cbn [Datatypes.length hex_loop].
  assert (buffer !! Z.to_nat i = Some c) as Hlook.
  { rewrite <- (Nat.add_0_r (Z.to_nat i)), <- lookup_drop, Hpost. done. }
  erewrite lift_bind by (apply load_lookup; [lia|exact Hlook]).
  destruct (hex_byte pend c hb) as (hb' & E & Hh); [done..|].
  erewrite lift_bind by exact E. cbv beta iota.
  assert (0 <= len pend <= 15) by (unfold len; lia).
  replace (3 * len pend + 3) with (3 * len (pend ++ [c])) by (rewrite len_app; change (len [c]) with 1; lia).
  assert (1 <= len (pend ++ [c]) <= 16) by (rewrite len_app; change (len [c]) with 1; lia).
  rewrite u32_small by (unfold is_u32; lia). rewrite (proj2 (Z.leb_gt _ _)) by lia. cbn [orb].
  assert (∃ post, drop (Z.to_nat (i + 1)) buffer = d ++ post) as Hpost'.
  { exists post. replace (Z.to_nat (i + 1)) with (Z.to_nat i + 1)%nat by lia. rewrite <- drop_drop, Hpost. done. }
  specialize (Hi ltac:(done)). pose proof (mod16_succ i _ Hi) as Hmod.
  rewrite (u32_small (length - 1)) by (unfold is_u32; lia). rewrite Hi.
  destruct ((len pend =? 15) || (i =? length - 1)) eqn:Eend.
  - destruct (line_end hb' (hex_text (pend ++ [c])) Hh) as (hb2 & E2 & Hl2 & Hread);
      [rewrite len_hex_text; lia|apply hex_text_no_nul, Forall_app_2; [done|by apply Forall_singleton]|].
    rewrite len_hex_text in E2. erewrite lift_bind by exact E2.
    destruct (print_string_ok depth hb2 _ s Hop Hread) as (s1 & E3 & Hs1).
    erewrite bind_done by exact E3.
    rewrite pieces_end by (apply orb_true_iff in Eend as [?%Z.eqb_eq|?%Z.eqb_eq];
      [left; unfold len in *; lia|right; apply length_zero_iff_nil; unfold len in *; lia]).
    destruct (IH [] (i + 1) hb2 s1) as (s2 & E4 & Hs2); [apply Hs1|by constructor|done|done|by exists hb2|simpl; lia| |done|lia|lia|done|done|].
    { intros Hd0. rewrite Hmod. apply orb_true_iff in Eend as [->|Hend%Z.eqb_eq]; [done|].
      destruct Hd0. apply length_zero_iff_nil. unfold len in *. lia. }
    exists s2. split; [exact E4|]. exact (sent_trans _ _ _ [_] _ Hs1 Hs2).
  - apply orb_false_iff in Eend as [E15%Z.eqb_neq Elast%Z.eqb_neq].
    assert (pieces pend (c :: d) = pieces (pend ++ [c]) d) as ->.
    { cbn [pieces]. by rewrite (proj2 (Nat.eqb_neq _ _)) by (unfold len in *; lia). }
    apply IH; try done; try lia.
    + by apply Forall_app_2; [|apply Forall_singleton].
    + apply Hh.
    + destruct Hh as [Hl64 [rest ->]]. rewrite take_ge; [by eexists|].
      rewrite length_to_nat_len, len_hex_text. lia.
    + rewrite length_app. simpl. unfold len in *. lia.
    + intros _. rewrite Hmod, (proj2 (Z.eqb_neq _ _) E15), len_app. done.
    + intros ->. change (len (@nil Z)) with 0 in *. lia.
Qed.

(** The text given as the prefix of a dump, as the terminated array it is. *)
Definition terminated (t : bytes) : bytes := t ++ [0].

Lemma print_prefix_ok depth (p : option bytes) s : operational s → from_option no_nul True p →
  ∃ s', match terminated <$> p with
        | Some p => debug_print_string ops (S depth) (Some p)
        | None => mret tt
        end s = Done (tt, s') ∧ sent s s' (option_list p).
Proof.
  intros Hop Hp. destruct p as [t|]; simpl.
  - apply print_string_ok; [done|]. by apply read_string_take.
  - exists s. split; [done|]. by apply sent_refl.
Qed.

Lemma print_hex_ok depth buffer length prefix s : operational s → bytes_ok buffer →
  0 <= length <= len buffer → length < 2 ^ 32 → from_option no_nul True prefix →
  ∃ s', debug_print_hex ops (S depth) buffer length (terminated <$> prefix) s = Done (tt, s') ∧
    sent s s' (option_list prefix ++ hex_output (take (Z.to_nat length) buffer)).
Proof.
  intros Hop Hb Hl Hmax Hp. unfold debug_print_hex. rewrite gets_bind. change (id s) with s.
  rewrite (proj1 Hop). cbn [negb]. set (d := take (Z.to_nat length) buffer).
  assert (len d = length) as Hd by (unfold d; rewrite len_take; lia).
  destruct (print_prefix_ok depth prefix s Hop Hp) as (s0 & E0 & Hs0).
  destruct (hex_loop_ok depth d [] buffer length 0 (local_array 64) s0) as (s1 & E & Hs1);
    [apply Hs0|by constructor|unfold d; auto with width|done|by eexists|simpl; lia|done|done|lia|lia|done| |].
  { exists (drop (Z.to_nat length) buffer). unfold d. by rewrite take_drop. }
  erewrite bind_done by exact E0.
  replace (Z.to_nat length) with (Datatypes.length d) by (unfold len in Hd; lia).
  change (3 * len (@nil Z)) with 0 in E.
  erewrite bind_done by exact E. unfold hex_output. rewrite Hd, app_assoc.
  pose proof (sent_trans _ _ _ _ _ Hs0 Hs1) as Hs01.
  destruct (Z.eqb_spec (length mod 16) 0) as [Hz|Hz]; cbn [negb].
  - rewrite andb_false_r, app_nil_r. by exists s1.
  - rewrite (proj2 (Z.ltb_lt _ _)) by (destruct (Z.eq_dec length 0) as [H0| ]; [by rewrite H0 in Hz|lia]).
    destruct (print_string_ok depth [13; 10; 0] [13; 10] s1) as (s2 & E2 & Hs2); [apply Hs1|done|].
    exists s2. split; [exact E2|]. by eapply sent_trans.
Qed.

(** ** Writing character by character *)

Lemma write_loop_ok d ptr i s : operational s → 0 <= i → (∃ post, drop (Z.to_nat i) ptr = d ++ post) →
  ∃ s', for_each (seqZ i (len d)) (λ i, c ← lift (load ptr i); debug_print_char ops c) s = Done (tt, s') ∧
    sent s s' (map (λ c, [c]) d).
Proof.
  revert i s. induction d as [|c d IH]; intros i s Hop Hi [post Hpost].
  { exists s. split; [done|]. by apply sent_refl. }
  rewrite len_cons, seqZ_cons by (pose proof (len_nonneg d); lia).
  replace (Z.pred (1 + len d)) with (len d) by lia. cbn [for_each].
  assert (load ptr i = Done c) as Hload.
  { apply load_lookup; [lia|]. by rewrite <- (Nat.add_0_r (Z.to_nat i)), <- lookup_drop, Hpost. }
  destruct (print_char_ok c s Hop) as (s1 & E1 & Hs1).
  erewrite bind_done by (erewrite lift_bind by exact Hload; exact E1).
  destruct (IH (Z.succ i) s1) as (s2 & E2 & Hs2); [apply Hs1|lia| |].
  { exists post. replace (Z.to_nat (Z.succ i)) with (Z.to_nat i + 1)%nat by lia.
    by rewrite <- drop_drop, Hpost. }
  exists s2. split; [exact E2|]. exact (sent_trans _ _ _ [_] _ Hs1 Hs2).
Qed.
End working.

Section stuck.
Context {W : Type} (ops : uart_ops W) (stuck : W → Prop) `{!StuckUart ops stuck}.

Lemma stuck_polls k w : stuck w → stuck (after_polls ops k w).
Proof. intros Hw. induction k as [|k IH]; [done|]. simpl. exact (proj2 (stuck_status _ IH)). Qed.

Lemma stuck_wait timeout_us s : is_u32 timeout_us → stuck (uart s) →
  ∃ s', debug_print_wait_transmit_complete ops timeout_us s = Done (false, s') ∧
    stuck (uart s') ∧ debug_print_initialized s' = debug_print_initialized s.
Proof.
  intros Hu Hs. destruct (wait_spec ops timeout_us s Hu) as (r & s' & E & k & _ & -> & _ & Hr & _).
  destruct r.
  - exfalso. apply (stuck_status (after_polls ops k (uart s))); [by apply stuck_polls|]. by apply Hr.
  - eexists. split; [exact E|]. split; [|done]. by apply (stuck_polls (S k)).
Qed.

Lemma print_string_diverges depth b text s :
  debug_print_initialized s = true → stuck (uart s) → read_string b = Done text →
  debug_print_string ops depth (Some b) s = Diverge.
Proof.
  revert b text s. induction depth as [|depth IH]; intros b text s Hi Hs Hb; [done|].
  cbn [debug_print_string]. rewrite gets_bind. change (id s) with s. rewrite Hi. cbn [negb].
  erewrite lift_bind by exact Hb.
  destruct (stuck_send (uart s) text Hs) as (w & E & Hw).
  assert (async_send ops text s =
    Done (true, DpState true (debug_print_buffer s) w (transfers s ++ [(text, true)]))) as E1.
  { unfold async_send. rewrite gets_bind. change (id s) with s. rewrite E, <- Hi. done. }
  erewrite bind_done by exact E1. cbv iota.
  destruct (stuck_wait 100000 (DpState true (debug_print_buffer s) w (transfers s ++ [(text, true)])))
    as (s' & E2 & Hs' & Hi'); [by_compute|done|].
  erewrite bind_done by exact E2. cbv iota. by eapply (IH MSG_TIMEOUT (take 25 MSG_TIMEOUT)).
Qed.
End stuck.

(** ** Properties *)

(** On a working transmitter, a hex dump prints the prefix and
    then the data, sixteen bytes to a line, every line whole and within the
    64-byte line buffer, and ends with an empty line when the last line is not
    full. One level of [debug_print_string] is enough. *)
Theorem hex_dump_printed {W} (ops : uart_ops W) ready `{!WorkingUart ops ready} depth buffer length prefix s :
  operational ready s → bytes_ok buffer → 0 <= length <= len buffer → length < 2 ^ 32 →
  from_option no_nul True prefix →
  ∃ s', debug_print_hex ops (S depth) buffer length (terminated <$> prefix) s = Done (tt, s') ∧
    operational ready s' ∧
    transfers s' = transfers s ++
      map (λ t, (t, true)) (option_list prefix ++ hex_output (take (Z.to_nat length) buffer)).
Proof. apply print_hex_ok. done. Qed.

(** The wait for the end of a transfer returns whatever the
    driver reports. It polls at least once and at most once per ten
    microseconds of the timeout, goes on only while the transfer does, and
    answers [TRUE] exactly when the last status was an end without an error. *)
Theorem wait_bounded {W} (ops : uart_ops W) timeout_us s : is_u32 timeout_us →
  ∃ r s' k, debug_print_wait_transmit_complete ops timeout_us s = Done (r, s') ∧
    (k < Nat.max 1 (Z.to_nat (timeout_us / 10)))%nat ∧
    s' = with_uart s (after_polls ops (S k) (uart s)) ∧
    (∀ j, (j < k)%nat → status_at ops j (uart s) = UART_STATUS_OPERATION_ONGOING) ∧
    (r = true ↔ status_at ops k (uart s) = UART_STATUS_NO_ERROR) ∧
    (status_at ops k (uart s) = UART_STATUS_OPERATION_ONGOING →
     S k = Nat.max 1 (Z.to_nat (timeout_us / 10))).
Proof. intros Hu. destruct (wait_spec ops timeout_us s Hu) as (r & s' & E & k & H). exists r, s', k. by split. Qed.

(** When the driver accepts transfers but none completes, printing a
    string never returns: the timeout is reported by the function that has just
    timed out, and the recursion has no bound. *)
Theorem stuck_transmitter_never_returns {W} (ops : uart_ops W) stuck `{!StuckUart ops stuck} depth text s :
  debug_print_initialized s = true → stuck (uart s) → no_nul text →
  debug_print_string ops depth (Some (terminated text)) s = Diverge.
Proof. intros Hi Hs Ht. eapply print_string_diverges; [done..|]. by apply read_string_take. Qed.

(** On a working transmitter, [_write] hands every character of
    the buffer to the line in order, one transfer each, and returns their
    number; on an uninitialised line, a null pointer or a negative length it
    returns -1 and sends nothing. *)
Theorem write_characters {W} (ops : uart_ops W) ready `{!WorkingUart ops ready} file ptr n s :
  (debug_print_initialized s = true → operational ready s) → from_option (λ p, n <= len p) True ptr →
  if debug_print_initialized s && bool_decide (is_Some ptr) && (0 <=? n) then
    ∃ s', _write ops file ptr n s = Done (n, s') ∧ operational ready s' ∧
      transfers s' = transfers s ++ map (λ c, ([c], true)) (take (Z.to_nat n) (default [] ptr))
  else _write ops file ptr n s = Done (-1, s).
Proof.
  intros Hop Hp. unfold _write. rewrite gets_bind. change (id s) with s.
  destruct (debug_print_initialized s); [|done]. cbn [negb andb].
  destruct ptr as [p|]; [|done]. simpl.
  case (Z.leb_spec 0 n); intros Hn; [|by rewrite (proj2 (Z.ltb_lt _ _)) by lia].
  rewrite (proj2 (Z.ltb_ge _ _)) by lia. simpl in Hp.
  destruct (write_loop_ok ops ready (take (Z.to_nat n) p) p 0 s) as (s' & E & Hs' & Ht);
    [by apply Hop|done|by exists (drop (Z.to_nat n) p); rewrite take_drop|].
  rewrite len_take in E by lia. erewrite bind_done by exact E.
  exists s'. split; [done|]. split; [done|]. by rewrite Ht, map_map.
Qed.

(** ** A transmitter *)

Module DebugDemo.
(** The polls left until the current transfer ends. *)
Definition ops : uart_ops nat :=
  UartOps (λ _, O) (λ _ _, (true, 3%nat))
    (λ w, match w with O => (UART_STATUS_NO_ERROR, O) | S w => (UART_STATUS_OPERATION_ONGOING, w) end).
#[global] Instance working : WorkingUart ops (λ _, True).
Proof. constructor. intros w data _. exists 3%nat. split; [done|]. by vm_compute. Qed.

(** A transmitter without a clock. *)
Definition dead : uart_ops unit :=
  UartOps (λ _, tt) (λ _ _, (true, tt)) (λ _, (UART_STATUS_OPERATION_ONGOING, tt)).
#[global] Instance dead_stuck : StuckUart dead (λ _, True).
Proof. constructor; [intros [] ? _; by exists tt|by intros [] _]. Qed.

Definition start {W} (w : W) : dp_state W := DpState true (local_array 256) w [].
End DebugDemo.

Lemma hex_dump_printed_witness :
  ∃ s', debug_print_hex DebugDemo.ops 1 [1; 171] 2 (terminated <$> Some (literal "RX:"))
      (DebugDemo.start O) = Done (tt, s') ∧
    operational (λ _, True) s' ∧
    transfers s' = [(literal "RX:", true); (literal "01 AB " ++ [13; 10], true); ([13; 10], true)].
Proof.
  apply (hex_dump_printed DebugDemo.ops (λ _, True) 0 [1; 171] 2 (Some (literal "RX:")));
    [done|by apply bytes_okb_spec|by_compute|done|by apply no_nulb_spec].
Defined.

Lemma wait_bounded_witness :
  is_u32 1000 ∧ ∃ r s' k,
    debug_print_wait_transmit_complete DebugDemo.dead 1000 (DebugDemo.start tt) = Done (r, s') ∧
    (k < 100)%nat ∧ s' = with_uart (DebugDemo.start tt) (after_polls DebugDemo.dead (S k) tt).
Proof.
  split; [by_compute|].
  destruct (wait_bounded DebugDemo.dead 1000 (DebugDemo.start tt)) as (r & s' & k & E & Hk & Hs & _);
    [by_compute|]. by exists r, s', k.
Defined.

Lemma stuck_transmitter_never_returns_witness :
  debug_print_string DebugDemo.dead 100 (Some (terminated (literal "System Startup..."))) (DebugDemo.start tt) = Diverge.
Proof.
  apply (stuck_transmitter_never_returns DebugDemo.dead (λ _, True)); [done|done|by apply no_nulb_spec].
Defined.

Lemma write_characters_witness :
  ∃ s', _write DebugDemo.ops 1 (Some (literal "ok")) 2 (DebugDemo.start O) = Done (2, s') ∧
    operational (λ _, True) s' ∧ transfers s' = [(literal "o", true); (literal "k", true)].
Proof.
  apply (write_characters DebugDemo.ops (λ _, True) 1 (Some (literal "ok")) 2 (DebugDemo.start O));
    [done|by_compute].
Defined.
