(* ===== verification/DoipLog.v ===== *)
(** * The logger

    [src/doip/doip_log.c] and [src/doip/doip_log.h]: the formatted log message
    with its 256-byte buffer, and the hex dump. The text that [vsnprintf] makes
    of a format and its arguments is a parameter of the model. The block that
    the macro [USE_FREERTOS] enables is modelled by a tick counter that may be
    absent; the firmware's build does not define the macro. *)

From Stdlib Require Import ZArith Lia.
From Stdlib Require Import Strings.String.
From stdpp Require Import list_numbers.
From S2P Require Import Prelude Text DebugPrint.
Local Open Scope list_scope.
Local Open Scope Z_scope.

(** ** Data *)

Inductive doip_log_level_t :=
  | DOIP_LOG_LEVEL_ERROR
  | DOIP_LOG_LEVEL_WARN
  | DOIP_LOG_LEVEL_INFO
  | DOIP_LOG_LEVEL_DEBUG
  | DOIP_LOG_LEVEL_TRACE.

Definition level_code (l : doip_log_level_t) : Z :=
  match l with
  | DOIP_LOG_LEVEL_ERROR => 0
  | DOIP_LOG_LEVEL_WARN => 1
  | DOIP_LOG_LEVEL_INFO => 2
  | DOIP_LOG_LEVEL_DEBUG => 3
  | DOIP_LOG_LEVEL_TRACE => 4
  end.

(** [output_func]: is a function other than the default installed? *)
Record doip_log_config_t := LogConfig {
  min_level : doip_log_level_t;
  output_func : bool;
  timestamp_enabled : bool;
  color_enabled : bool;
}.

(** The state: the configuration, the strings handed to the output function
    or to the default output, and the tick counter of an RTOS build. *)
Record log_state := LogState {
  g_log_config : doip_log_config_t;
  emitted : list (bool * bytes);
  tick_count : option Z;
}.

Definition g_log_config_initial : doip_log_config_t := LogConfig DOIP_LOG_LEVEL_INFO false true false.

Definition esc (s : string) : bytes := 27 :: literal s.
Definition ANSI_COLOR_RED : bytes := esc "[31m".
Definition ANSI_COLOR_YELLOW : bytes := esc "[33m".
Definition ANSI_COLOR_GREEN : bytes := esc "[32m".
Definition ANSI_COLOR_CYAN : bytes := esc "[36m".
Definition ANSI_COLOR_RESET : bytes := esc "[0m".

Definition level_strings (l : doip_log_level_t) : bytes :=
  match l with
  | DOIP_LOG_LEVEL_ERROR => literal "ERROR"
  | DOIP_LOG_LEVEL_WARN => literal "WARN "
  | DOIP_LOG_LEVEL_INFO => literal "INFO "
  | DOIP_LOG_LEVEL_DEBUG => literal "DEBUG"
  | DOIP_LOG_LEVEL_TRACE => literal "TRACE"
  end.
Definition level_colors (l : doip_log_level_t) : bytes :=
  match l with
  | DOIP_LOG_LEVEL_ERROR => ANSI_COLOR_RED
  | DOIP_LOG_LEVEL_WARN => ANSI_COLOR_YELLOW
  | DOIP_LOG_LEVEL_INFO => ANSI_COLOR_GREEN
  | DOIP_LOG_LEVEL_DEBUG => ANSI_COLOR_CYAN
  | DOIP_LOG_LEVEL_TRACE => ANSI_COLOR_RESET
  end.

(** ** Operations *)

Definition doip_log_init (config : option doip_log_config_t) : ST log_state unit :=
  match config with
  | Some c => modify (λ s, LogState c (emitted s) (tick_count s))
  | None => mret tt
  end.

Definition doip_log_message (level : doip_log_level_t) (tag message : bytes) : ST log_state unit :=
  s ← gets id;
  let cfg := g_log_config s in
  if level_code (min_level cfg) <? level_code level then mret tt else
  bo ← lift (
    let bo := (local_array 256, 0) in
    bo ← (if color_enabled cfg then append 256 bo (level_colors level) else mret bo);
    bo ← (if timestamp_enabled cfg then
            match tick_count s with
            | Some tick => append 256 bo (literal "[" ++ dec tick ++ literal "] ")
            | None => mret bo
            end
          else mret bo);
    bo ← append 256 bo (literal "[" ++ level_strings level ++ literal "] [" ++ tag ++ literal "] ");
    bo ← append 256 bo message;
    bo ← (if color_enabled cfg then append 256 bo ANSI_COLOR_RESET else mret bo);
    append 256 bo [13; 10]);
  modify (λ s, LogState (g_log_config s) (emitted s ++ [(output_func cfg, cstring bo.1)]) (tick_count s)).

(** The output function used when none is configured. *)
Definition default_output {W} (ops : uart_ops W) (depth : nat) (message : bytes) : ST (dp_state W) unit :=
  debug_print ops depth (Some message).

(** One line of the dump: the columns [js] of the line at offset [i]. *)
Fixpoint dump_columns (js : list Z) (i length : Z) (data : bytes) (hex ascii : bytes * Z) :
    outcome ((bytes * Z) * (bytes * Z)) :=
  match js with
  | [] => mret (hex, ascii)
  | j :: js =>
      if u32 (i + j) <? length then
        c ← load data (u32 (i + j));
        hex ← append 128 hex (hex2 c ++ [32]);
        a ← store ascii.1 ascii.2 (if (32 <=? c) && (c <=? 126) then c else 46);
        dump_columns js i length data hex (a, ascii.2 + 1)
      else
        hex ← append 128 hex [32; 32; 32];
        dump_columns js i length data hex ascii
  end.

(** The loop over the lines; the offset [i] is 32 bits wide. *)
Fixpoint dump_lines (fuel : nat) (level : doip_log_level_t) (tag data : bytes) (length i : Z) :
    ST log_state unit :=
  match fuel with
  | O => diverge
  | S fuel =>
      if i <? length then
        '(hex_buffer, ascii_buffer) ← lift (
          '(h, n) ← snprintf (local_array 128) 0 128 (hex_pad 4 i ++ [58; 32]);
          '(hex, ascii) ← dump_columns (seqZ 0 16) i length data (h, n) (local_array 32, 0);
          a ← store ascii.1 ascii.2 0;
          mret (hex.1, a));
        doip_log_message level tag (cstring hex_buffer ++ literal " | " ++ cstring ascii_buffer);;
        dump_lines fuel level tag data length (u32 (i + 16))
      else mret tt
  end.

Definition doip_log_hex_dump (fuel : nat) (level : doip_log_level_t) (tag : bytes) (data : option bytes)
    (length : Z) : ST log_state unit :=
  s ← gets id;
  match data with
  | Some d =>
      if level_code (min_level (g_log_config s)) <? level_code level then mret tt else
      doip_log_message level tag (literal "Hex dump (" ++ dec length ++ literal " bytes):");;
      dump_lines fuel level tag d length 0
  | None => mret tt
  end.

(** ** The log message *)

(** The line before its newline: the pieces in the order they are appended. *)
Definition log_line (s : log_state) (level : doip_log_level_t) (tag message : bytes) : bytes :=
  let cfg := g_log_config s in
  (if color_enabled cfg then level_colors level else []) ++
  (if timestamp_enabled cfg then
     match tick_count s with Some t => literal "[" ++ dec t ++ literal "] " | None => [] end
   else []) ++
  (literal "[" ++ level_strings level ++ literal "] [" ++ tag ++ literal "] ") ++
  message ++
  (if color_enabled cfg then ANSI_COLOR_RESET else []).

Definition log_emit (s : log_state) (t : bytes) : log_state :=
  LogState (g_log_config s) (emitted s ++ [(output_func (g_log_config s), t)]) (tick_count s).

Lemma log_line_no_nul s level tag message :
  no_nul tag → no_nul message → no_nul (log_line s level tag message ++ [13; 10]).
Proof.
  intros. unfold log_line.
  assert (no_nul (level_colors level)) by (destruct level; no_nul_solve).
  assert (no_nul (level_strings level)) by (destruct level; no_nul_solve).
  destruct (color_enabled _), (timestamp_enabled _), (tick_count s) as [t|]; no_nul_solve.
Qed.

Lemma doip_log_message_eq s level tag message :
  no_nul tag → no_nul message → len (log_line s level tag message ++ [13; 10]) < 2 ^ 31 →
  doip_log_message level tag message s =
    if level_code (min_level (g_log_config s)) <? level_code level then Done (tt, s)
    else if 256 <? len (log_line s level tag message) then Fault
    else Done (tt, log_emit s (take 255 (log_line s level tag message ++ [13; 10]))).
Proof.
  intros Htag Hmsg Hlen.
  pose proof (log_line_no_nul s level tag message Htag Hmsg) as Hnul.
  unfold doip_log_message. rewrite gets_bind. change (id s) with s. cbv zeta.
  destruct (_ <? level_code level); [done|].
  match goal with |- (lift ?m ≫= _) _ = _ => assert (printed 256 (log_line s level tag message) [13; 10] m) as Hr end.
  2: { unfold printed in Hr. destruct (256 <? _); [by apply lift_bind_fault|].
       destruct Hr as (b & E & Hb). erewrite lift_bind by exact E.
       cbn [fst]. by erewrite (cstring_holds 256) by done. }
  clear Htag Hmsg Hnul. pose proof (written_nil 256 ltac:(lia)) as Hw. revert Hlen.
  change (log_line s level tag message) with ([] ++ log_line s level tag message). unfold log_line.
  match goal with |- _ → printed _ ?t ?x' ((if ?c then append _ _ ?x else _) ≫= ?k) =>
    change (len (t ++ x') < 2 ^ 31 → printed 256 t x'
      (Done (local_array 256, 0) ≫= λ bo, (if c then append 256 bo x else mret bo) ≫= k)) end.
  intros Hlen. revert Hlen Hw. generalize (Done (local_array 256, 0)).
  assert (∀ x, writes 256 (λ bo, append 256 bo x) x) by (intros; by apply writes_append).
  assert (writes 256 (λ bo, mret bo) []) by apply writes_skip.
  intros r Hlen Hw. eapply printed_step; [by apply writes_if|exact Hlen|exact Hw|].
  clear r Hlen Hw. intros r Hlen Hw. eapply printed_step; [|exact Hlen|exact Hw|].
  { apply writes_if; [by destruct (tick_count s)|done]. }
  clear r Hlen Hw. intros r Hlen Hw. eapply printed_step; [done|exact Hlen|exact Hw|].
  clear r Hlen Hw. intros r Hlen Hw. eapply printed_step; [done|exact Hlen|exact Hw|].
  clear r Hlen Hw. intros r Hlen Hw. eapply printed_last; [done|by apply writes_if|exact Hlen|exact Hw].
Qed.

(** ** The hex dump *)

Definition printable (c : Z) : Z := if (32 <=? c) && (c <=? 126) then c else 46.

(** The [m] columns of a line that shows the bytes [chunk]. *)
Definition hex_columns (m : nat) (chunk : bytes) : bytes :=
  (chunk ≫= λ c, hex2 c ++ [32]) ++ replicate (3 * (m - length chunk)) 32.

(** The line of the dump for the bytes [chunk] at offset [i]. *)
Definition dump_text (i : Z) (chunk : bytes) : bytes :=
  (hex_pad 4 i ++ [58; 32] ++ hex_columns 16 chunk) ++ literal " | " ++ map printable chunk.

(** The lines for the bytes [d], 16 at a time, the first at offset [i]. *)
Fixpoint dump_texts (fuel : nat) (i : Z) (d : bytes) : list bytes :=
  match fuel, d with
  | S fuel, _ :: _ => dump_text i (take 16 d) :: dump_texts fuel (i + 16) (drop 16 d)
  | _, _ => []
  end.

Lemma len_hex_columns m chunk : (length chunk <= m)%nat → len (hex_columns m chunk) = 3 * Z.of_nat m.
Proof.
  intros. unfold hex_columns. rewrite len_app, len_replicate.
  assert (∀ l : bytes, len (l ≫= λ c, hex2 c ++ [32]) = 3 * len l) as ->.
  { induction l as [|c l IH]; [done|]. rewrite bind_cons, len_app, IH, len_cons.
    change (len (hex2 c ++ [32])) with 3. lia. }
  unfold len. lia.
Qed.

Lemma dump_columns_spec m j i length d h t a asc rest :
  0 <= i → 0 <= j → i + j + Z.of_nat m < 2 ^ 32 → length <= len d →
  rest = drop (Z.to_nat (i + j)) (take (Z.to_nat length) d) →
  holds 128 h t → len t + 3 * Z.of_nat m < 128 →
  (∃ r, a = asc ++ r) → len a = 32 → len asc + Z.of_nat m < 32 →
  ∃ h' a', dump_columns (seqZ j (Z.of_nat m)) i length d (h, len t) (a, len asc) =
      Done ((h', len (t ++ hex_columns m (take m rest))),
            (a', len (asc ++ map printable (take m rest)))) ∧
    holds 128 h' (t ++ hex_columns m (take m rest)) ∧
    len a' = 32 ∧ ∃ r, a' = (asc ++ map printable (take m rest)) ++ r.
Proof.
  revert j h t a asc rest. induction m as [|m IH];
    intros j h t a asc rest Hi Hj Hm Hlen Hrest Hh Ht [r ->] Ha Hasc.
  { exists h, (asc ++ r). simpl. unfold hex_columns. simpl. rewrite !app_nil_r. eauto 10. }
  rewrite seqZ_cons by lia. cbn [dump_columns]. unfold u32. rewrite Z.mod_small by lia.
  replace (Z.pred (Z.of_nat (S m))) with (Z.of_nat m) by lia.
  case (Z.ltb_spec (i + j) length); intros Hlt.
  - destruct (load_in_bounds d (i + j)) as (c & Hc & Hlook); [lia|].
    rewrite Hc. cbn [mbind outcome_bind].
    assert (rest = c :: drop (Z.to_nat (i + Z.succ j)) (take (Z.to_nat length) d)) as ->.
    { rewrite Hrest. apply drop_S in Hlook as Hd.
      rewrite (drop_S _ c); [do 2 f_equal; lia|]. rewrite lookup_take_lt by lia. done. }
    destruct (append_fits 128 h t (hex2 c ++ [32])) as (h1 & -> & Hh1); [lia|done|change (len (hex2 c ++ [32])) with 3; lia|].
    cbn [mbind outcome_bind fst snd]. fold (printable c).
    destruct (store_next (asc ++ r) asc (printable c)) as (a1 & -> & Hl1 & Hr1); [eauto|lia|].
    cbn [mbind outcome_bind].
    replace (len asc + 1) with (len (asc ++ [printable c])) by (rewrite len_app; done).
    edestruct (IH (Z.succ j) h1 (t ++ hex2 c ++ [32]) a1 (asc ++ [printable c])) as (h' & a' & -> & Hh' & Ha' & Hr');
      [done|lia|lia|done|reflexivity|done|rewrite len_app; change (len (hex2 c ++ [32])) with 3; lia|done|lia|
       rewrite len_app; change (len [printable c]) with 1; lia|].
    exists h', a'. revert Hh' Hr'. cbn [take map]. unfold hex_columns. rewrite bind_cons. cbn [Datatypes.length Nat.sub].
    rewrite <- !app_assoc. cbn [app]. eauto.
  - assert (rest = []) as ->.
    { rewrite Hrest. apply drop_ge. rewrite length_take. lia. }
    destruct (append_fits 128 h t [32; 32; 32]) as (h1 & -> & Hh1); [lia|done|change (len [32;32;32]) with 3; lia|].
    cbn [mbind outcome_bind].
    edestruct (IH (Z.succ j) h1 (t ++ [32; 32; 32]) (asc ++ r) asc []) as (h' & a' & -> & Hh' & Ha' & Hr');
      [done|lia|lia|done| |done|rewrite len_app; change (len [32;32;32]) with 3; lia|eauto|lia|lia|].
    { symmetry. apply drop_ge. rewrite length_take. lia. }
    exists h', a'. revert Hh' Hr'. rewrite !take_nil. unfold hex_columns. cbn [mbind list_bind app Datatypes.length].
    rewrite !Nat.sub_0_r. rewrite <- !app_assoc. change ([32; 32; 32] ++ replicate (3 * m) 32) with (replicate (3 + 3 * m) 32).
    replace (3 * S m)%nat with (3 + 3 * m)%nat by lia. eauto.
Qed.

Lemma hex_columns_no_nul m chunk : bytes_ok chunk → no_nul (hex_columns m chunk).
Proof.
  intros Hb. apply Forall_app_2; [|apply no_nul_replicate; lia].
  induction Hb as [|c l Hc _ IH]; [constructor|]. rewrite bind_cons.
  apply Forall_app_2; [|exact IH]. apply Forall_app_2; [by apply hex2_no_nul|by apply Forall_singleton].
Qed.

Lemma printable_no_nul chunk : no_nul (map printable chunk).
Proof.
  apply Forall_map. apply Forall_true. intros c. unfold printable. simpl.
  case (Z.leb_spec 32 c); intros; simpl; [|done]. case (c <=? 126); lia.
Qed.

Lemma dump_text_spec i chunk : 0 <= i → bytes_ok chunk → (length chunk <= 16)%nat →
  no_nul (dump_text i chunk) ∧ len (dump_text i chunk) <= 77.
Proof.
  intros Hi Hb Hl. destruct (hex_pad_spec i Hi) as [H1 H2].
  pose proof (hex_columns_no_nul 16 chunk Hb). pose proof (printable_no_nul chunk). split.
  - unfold dump_text. no_nul_solve.
  - unfold dump_text. rewrite !len_app, len_hex_columns by done.
    change (len [58; 32]) with 2. change (len (literal " | ")) with 3.
    unfold len at 2. rewrite length_map. lia.
Qed.

Lemma len_log_line s level tag message :
  len (log_line s level tag message) = len (log_line s level tag []) + len message.
Proof. unfold log_line. rewrite !len_app. change (len (@nil Z)) with 0. lia. Qed.

(** The messages [texts], logged one after the other. *)
Definition log_emits (s : log_state) (level : doip_log_level_t) (tag : bytes) (texts : list bytes) : log_state :=
  LogState (g_log_config s)
    (emitted s ++ map (λ t, (output_func (g_log_config s), log_line s level tag t ++ [13; 10])) texts)
    (tick_count s).

(** The message is printed, and whole. *)
Lemma doip_log_message_fits s level tag message :
  no_nul tag → no_nul message → len (log_line s level tag message) <= 253 →
  level_code level <= level_code (min_level (g_log_config s)) →
  doip_log_message level tag message s = Done (tt, log_emits s level tag [message]).
Proof.
  intros Ht Hm Hl Hlevel. assert (len (log_line s level tag message ++ [13; 10]) <= 255)
    by (rewrite len_app; change (len [13; 10]) with 2; lia).
  rewrite doip_log_message_eq by (done || lia).
  rewrite (proj2 (Z.ltb_ge _ _)), (proj2 (Z.ltb_ge 256 _)) by lia.
  by rewrite take_ge by (unfold len in *; lia).
Qed.

Lemma log_emits_app s level tag t1 t2 :
  log_emits (log_emits s level tag t1) level tag t2 = log_emits s level tag (t1 ++ t2).
Proof. unfold log_emits. simpl. by rewrite map_app, app_assoc. Qed.

Lemma dump_line_buffers i length d : 0 <= i → i + 16 < 2 ^ 32 → length <= len d → bytes_ok d →
  ∃ h a, ('(h, n) ← snprintf (local_array 128) 0 128 (hex_pad 4 i ++ [58; 32]);
          '(hex, ascii) ← dump_columns (seqZ 0 16) i length d (h, n) (local_array 32, 0);
          a ← store ascii.1 ascii.2 0;
          mret (hex.1, a)) = Done (h, a) ∧
    let chunk := take 16 (drop (Z.to_nat i) (take (Z.to_nat length) d)) in
    cstring h ++ literal " | " ++ cstring a = dump_text i chunk.
Proof.
  intros Hi Hm Hl Hd. destruct (hex_pad_spec i Hi) as [Hp1 Hp2].
  destruct (snprintf_holds 128 (local_array 128) [] (hex_pad 4 i ++ [58; 32])) as (h & Hh & Hhold);
    [done|by apply holds_fresh|done|]. change (len (@nil Z)) with 0 in Hh. rewrite Z.sub_0_r in Hh. rewrite Hh.
  cbn [mbind outcome_bind app] in Hhold |- *. set (chunk := take 16 _).
  assert (bytes_ok chunk) as Hc by (unfold chunk; auto with width).
  assert (Datatypes.length chunk <= 16)%nat by (unfold chunk; rewrite length_take; lia).
  edestruct (dump_columns_spec 16 0 i length d h (hex_pad 4 i ++ [58; 32]) (local_array 32) [])
    as (h' & a' & E & Hh' & Ha & Hr); [done|done|lia|done|reflexivity|done| |by eexists|done|done|].
  { rewrite len_app. change (len [58; 32]) with 2. lia. }
  change (Z.of_nat 16) with 16 in E. change (len (@nil Z)) with 0 in E. rewrite E.
  rewrite Z.add_0_r in *. cbn [mbind outcome_bind app fst snd] in *. fold chunk in Hh', Hr |- *.
  destruct Hr as [r Hr].
  assert (len (map printable chunk) <= 16) by (unfold len; rewrite length_map; lia).
  pose proof (len_nonneg (map printable chunk)).
  rewrite store_patch by lia. cbn [mbind outcome_bind]. do 2 eexists. split; [done|].
  pose proof (hex_columns_no_nul 16 chunk Hc) as Hcols.
  assert (no_nul ((hex_pad 4 i ++ [58; 32]) ++ hex_columns 16 chunk)) as Hnn by no_nul_solve.
  rewrite (cstring_holds 128 h' _ Hnn Hh').
  rewrite take_ge.
  2: { rewrite length_to_nat_len, !len_app, len_hex_columns by done. change (len [58; 32]) with 2. lia. }
  unfold dump_text. rewrite <- !app_assoc. do 4 f_equal.
  unfold patch. rewrite Hr, take_app_length' by (unfold len; lia).
  generalize (drop (Z.to_nat (len (map printable chunk)) + Datatypes.length [0]) (map printable chunk ++ r)).
  intros rest. exact (cstring_take _ rest (printable_no_nul chunk)).
Qed.

Lemma dump_lines_emits fuel s level tag d length i rest :
  no_nul tag → bytes_ok d → level_code level <= level_code (min_level (g_log_config s)) →
  len (log_line s level tag []) <= 170 →
  0 <= i → length <= len d → length < 2 ^ 32 - 16 →
  rest = drop (Z.to_nat i) (take (Z.to_nat length) d) → (Datatypes.length rest < fuel)%nat →
  dump_lines fuel level tag d length i s = Done (tt, log_emits s level tag (dump_texts fuel i rest)).
Proof.
  revert s i rest. induction fuel as [|fuel IH];
    intros s i rest Htag Hd Hlevel Hline Hi Hlen Hmax Hrest Hfuel; [lia|].
  cbn [dump_lines]. case (Z.ltb_spec i length); intros Hlt.
  - destruct (dump_line_buffers i length d) as (h & a & E & Htext); [done|lia|done|done|].
    cbv zeta in Htext. rewrite <- Hrest in Htext.
    erewrite lift_bind by exact E. cbv beta iota. rewrite Htext.
    assert (bytes_ok (take 16 rest)) by (rewrite Hrest; auto with width).
    destruct (dump_text_spec i (take 16 rest)) as [H1 H2]; [done|done|rewrite length_take; lia|].
    erewrite bind_done by (apply doip_log_message_fits; [done|done|rewrite len_log_line; lia|done]).
    rewrite u32_small by (unfold is_u32; lia).
    assert (∃ c rest', rest = c :: rest') as (c & rest' & Hc).
    { destruct rest as [|c rest']; [|eauto]. apply (f_equal Datatypes.length) in Hrest. revert Hrest.
      rewrite length_drop, length_take. unfold len in *. simpl. lia. }
    rewrite (IH _ (i + 16) (drop 16 rest)); [|done|done|done|done|lia|done|done| |].
    + rewrite log_emits_app. rewrite Hc. done.
    + rewrite Hrest, drop_drop. f_equal. lia.
    + assert (0 < Datatypes.length rest)%nat by (rewrite Hc; simpl; lia). rewrite length_drop. lia.
  - assert (rest = []) as -> by (rewrite Hrest; apply drop_ge; rewrite length_take; lia).
    simpl. unfold log_emits. simpl. rewrite app_nil_r. by destruct s.
Qed.

(** ** Properties *)

(** A message above the configured level leaves the logger
    untouched. A message at or below it is handed to the output whole, as
    "[LEVEL] [tag] message" between the optional colour codes and after the
    optional tick stamp, with a newline, cut to the 255 characters the buffer
    holds; and when the line without its newline is longer than the 256-byte
    buffer the call writes outside the buffer, because [snprintf] returns the
    length it would have needed and the next piece starts there. *)
Theorem log_message_output s level tag message :
  no_nul tag → no_nul message → len (log_line s level tag message ++ [13; 10]) < 2 ^ 31 →
  doip_log_message level tag message s =
    if level_code (min_level (g_log_config s)) <? level_code level then Done (tt, s)
    else if 256 <? len (log_line s level tag message) then Fault
    else Done (tt, log_emit s (take 255 (log_line s level tag message ++ [13; 10]))).
Proof. apply doip_log_message_eq. Qed.

Definition log_demo : log_state := LogState g_log_config_initial [] (Some 4711).

Lemma log_message_output_witness :
  doip_log_message DOIP_LOG_LEVEL_WARN (literal "DOIP") (literal "closed") log_demo =
    Done (tt, LogState g_log_config_initial
      [(false, literal "[4711] [WARN ] [DOIP] closed" ++ [13; 10])] (Some 4711)) ∧
  doip_log_message DOIP_LOG_LEVEL_DEBUG (literal "DOIP") (literal "closed") log_demo = Done (tt, log_demo) ∧
  doip_log_message DOIP_LOG_LEVEL_INFO (literal "DOIP") (replicate 300 65) log_demo = Fault.
Proof.
  split; [|split].
  - rewrite (log_message_output log_demo); [by vm_compute|by apply no_nulb_spec..|by vm_compute].
  - rewrite (log_message_output log_demo); [by vm_compute|by apply no_nulb_spec..|by vm_compute].
  - rewrite (log_message_output log_demo); [by vm_compute|by apply no_nulb_spec..|by vm_compute].
Defined.

(** The hex dump stays within its two line buffers, ends, and
    logs the heading and then the data sixteen bytes to a line: the offset, the
    bytes in hexadecimal padded to sixteen columns, and their printable
    characters. *)
Theorem hex_dump_lines s level tag d length :
  no_nul tag → bytes_ok d → len (log_line s level tag []) <= 170 →
  0 <= length <= len d → length < 2 ^ 32 - 16 →
  doip_log_hex_dump (S (Z.to_nat length)) level tag (Some d) length s =
    if level_code (min_level (g_log_config s)) <? level_code level then Done (tt, s)
    else Done (tt, log_emits s level tag
      ((literal "Hex dump (" ++ dec length ++ literal " bytes):") ::
       dump_texts (S (Z.to_nat length)) 0 (take (Z.to_nat length) d))).
Proof.
  intros Htag Hd Hline Hlen Hmax. unfold doip_log_hex_dump. rewrite gets_bind. change (id s) with s.
  case (Z.ltb_spec (level_code (min_level (g_log_config s))) (level_code level)); intros Hlevel; [done|].
  destruct (dec_digits_spec 10 length) as [_ Hdec]. fold (dec length) in Hdec.
  erewrite bind_done.
  2: { apply doip_log_message_fits; [done|no_nul_solve| |done].
       rewrite len_log_line, !len_app. change (len (literal "Hex dump (")) with 10.
       change (len (literal " bytes):")) with 8. lia. }
  rewrite (dump_lines_emits _ _ _ _ _ _ _ (take (Z.to_nat length) d)); try done; [|lia|].
  - by rewrite log_emits_app.
  - rewrite length_take. lia.
Qed.

Lemma hex_dump_lines_witness :
  match doip_log_hex_dump (S (Z.to_nat 18)) DOIP_LOG_LEVEL_ERROR (literal "DOIP")
      (Some (literal "ABCDEFGHIJKLMNOP" ++ [0; 255; 66])) 18 log_demo with
  | Done (_, s') => emitted s' = map (λ t, (false, literal "[4711] [ERROR] [DOIP] " ++ literal t ++ [13; 10]))
      ["Hex dump (18 bytes):"%string;
       "0000: 41 42 43 44 45 46 47 48 49 4A 4B 4C 4D 4E 4F 50  | ABCDEFGHIJKLMNOP"%string;
       "0010: 00 FF                                            | .."%string]
  | _ => False
  end.
Proof.
  rewrite (hex_dump_lines log_demo);
    [by vm_compute|by apply no_nulb_spec|by apply bytes_okb_spec|by_compute..].
Defined.

(** Without a configured output function, on a working
    transmitter, the line the logger prints is sent over the serial line as one
    transfer, never replaced by the format error of [debug_print]: the logger's
    buffer and that of the debug output have the same size. *)
Theorem log_line_printed {W} (ops : uart_ops W) ready `{!WorkingUart ops ready} depth s level tag message d :
  no_nul tag → no_nul message → output_func (g_log_config s) = false →
  level_code level <= level_code (min_level (g_log_config s)) →
  len (log_line s level tag message) <= 256 → operational ready d →
  ∃ s' d' t, doip_log_message level tag message s = Done (tt, s') ∧
    emitted s' = emitted s ++ [(false, t)] ∧
    default_output ops (S depth) t d = Done (tt, d') ∧
    transfers d' = transfers d ++ [(take 255 (log_line s level tag message ++ [13; 10]), true)].
Proof.
  intros Htag Hmsg Hout Hlevel Hlen Hop.
  destruct (debug_print_ok ops ready depth (take 255 (log_line s level tag message ++ [13; 10])) d Hop)
    as (d' & E & _ & Ht).
  do 3 eexists. split; [|split; [|split]].
  - rewrite doip_log_message_eq, (proj2 (Z.ltb_ge _ _)), (proj2 (Z.ltb_ge 256 _)); try done; try lia.
    rewrite len_app. change (len [13; 10]) with 2. lia.
  - simpl. by rewrite Hout.
  - exact E.
  - rewrite (proj2 (Z.ltb_lt _ _)) in Ht by (unfold len; rewrite length_take; lia). exact Ht.
Qed.

Lemma log_line_printed_witness :
  ∃ s' d' t, doip_log_message DOIP_LOG_LEVEL_INFO (literal "DOIP") (literal "up") log_demo = Done (tt, s') ∧
    emitted s' = [(false, t)] ∧
    default_output DebugDemo.ops 1 t (DebugDemo.start O) = Done (tt, d') ∧
    transfers d' = [(literal "[4711] [INFO ] [DOIP] up" ++ [13; 10], true)].
Proof.
  apply (log_line_printed DebugDemo.ops (λ _, True) 0 log_demo DOIP_LOG_LEVEL_INFO (literal "DOIP") (literal "up")
    (DebugDemo.start O)); [by apply no_nulb_spec..|done|by_compute|by_compute|done].
Defined.
