(* ===== verification/RtosList.v ===== *)
(** * The kernel's lists

    [FreeRTOS/Source/list.c]: the circular doubly linked lists the scheduler
    keeps its tasks in. The memory is modelled field by field, each field a
    function of the node it belongs to; [None] is an indeterminate or null
    pointer, and following it is a [Fault]. The integrity values and the trace
    macros expand to nothing in the firmware's configuration. *)

From Stdlib Require Import ZArith Lia.
From Stdlib Require Import Sorting.Sorted.
From stdpp Require Import functions list sets.
From S2P Require Import Prelude.
Local Open Scope Z_scope.

(** ** Data *)

(** A pointer to a [ListItem_t]: the end marker inside the list [l], or the
    item [i]. *)
Inductive node := ListEnd (l : Z) | Item (i : Z).
#[export] Instance node_eq_dec : EqDecision node.
Proof. solve_decision. Defined.

(** The fields of all list items and of all lists. *)
Record memory := Memory {
  xItemValue : node → Z;
  pxNext : node → option node;
  pxPrevious : node → option node;
  pxContainer : node → option Z;
  uxNumberOfItems : Z → Z;
  pxIndex : Z → option node;
}.

Definition portMAX_DELAY : Z := 2 ^ 32 - 1.

Definition set_value (n : node) (v : Z) : ST memory unit := modify (λ m,
  Memory (<[n := v]> (xItemValue m)) (pxNext m) (pxPrevious m) (pxContainer m) (uxNumberOfItems m) (pxIndex m)).
Definition set_next (n : node) (p : option node) : ST memory unit := modify (λ m,
  Memory (xItemValue m) (<[n := p]> (pxNext m)) (pxPrevious m) (pxContainer m) (uxNumberOfItems m) (pxIndex m)).
Definition set_previous (n : node) (p : option node) : ST memory unit := modify (λ m,
  Memory (xItemValue m) (pxNext m) (<[n := p]> (pxPrevious m)) (pxContainer m) (uxNumberOfItems m) (pxIndex m)).
Definition set_container (n : node) (c : option Z) : ST memory unit := modify (λ m,
  Memory (xItemValue m) (pxNext m) (pxPrevious m) (<[n := c]> (pxContainer m)) (uxNumberOfItems m) (pxIndex m)).
Definition set_count (l c : Z) : ST memory unit := modify (λ m,
  Memory (xItemValue m) (pxNext m) (pxPrevious m) (pxContainer m) (<[l := c]> (uxNumberOfItems m)) (pxIndex m)).
Definition set_index (l : Z) (p : option node) : ST memory unit := modify (λ m,
  Memory (xItemValue m) (pxNext m) (pxPrevious m) (pxContainer m) (uxNumberOfItems m) (<[l := p]> (pxIndex m))).

(** Following a pointer. *)
Definition deref {A} (p : option A) : ST memory A :=
  match p with Some n => mret n | None => lift Fault end.

(** ** Operations *)

Definition vListInitialise (pxList : Z) : ST memory unit :=
  set_index pxList (Some (ListEnd pxList));;
  set_value (ListEnd pxList) portMAX_DELAY;;
  set_next (ListEnd pxList) (Some (ListEnd pxList));;
  set_previous (ListEnd pxList) (Some (ListEnd pxList));;
  set_count pxList 0.

Definition vListInitialiseItem (pxItem : node) : ST memory unit := set_container pxItem None.

Definition vListInsertEnd (pxList : Z) (pxNewListItem : node) : ST memory unit :=
  m ← gets id;
  index ← deref (pxIndex m pxList);
  set_next pxNewListItem (Some index);;
  m ← gets id;
  set_previous pxNewListItem (pxPrevious m index);;
  m ← gets id;
  previous ← deref (pxPrevious m index);
  set_next previous (Some pxNewListItem);;
  set_previous index (Some pxNewListItem);;
  set_container pxNewListItem (Some pxList);;
  m ← gets id;
  set_count pxList (u32 (uxNumberOfItems m pxList + 1)).

(** [for (pxIterator = ...; pxIterator->pxNext->xItemValue <= xValueOfInsertion;
    pxIterator = pxIterator->pxNext)] *)
Fixpoint find_position (fuel : nat) (pxIterator : node) (xValueOfInsertion : Z) : ST memory node :=
  match fuel with
  | O => diverge
  | S fuel =>
      m ← gets id;
      next ← deref (pxNext m pxIterator);
      if xItemValue m next <=? xValueOfInsertion then find_position fuel next xValueOfInsertion
      else mret pxIterator
  end.

Definition vListInsert (fuel : nat) (pxList : Z) (pxNewListItem : node) : ST memory unit :=
  m ← gets id;
  let xValueOfInsertion := xItemValue m pxNewListItem in
  pxIterator ← (if xValueOfInsertion =? portMAX_DELAY then deref (pxPrevious m (ListEnd pxList))
                else find_position fuel (ListEnd pxList) xValueOfInsertion);
  m ← gets id;
  set_next pxNewListItem (pxNext m pxIterator);;
  m ← gets id;
  next ← deref (pxNext m pxNewListItem);
  set_previous next (Some pxNewListItem);;
  set_previous pxNewListItem (Some pxIterator);;
  set_next pxIterator (Some pxNewListItem);;
  set_container pxNewListItem (Some pxList);;
  m ← gets id;
  set_count pxList (u32 (uxNumberOfItems m pxList + 1)).

Definition uxListRemove (pxItemToRemove : node) : ST memory Z :=
  m ← gets id;
  let container := pxContainer m pxItemToRemove in
  next ← deref (pxNext m pxItemToRemove);
  set_previous next (pxPrevious m pxItemToRemove);;
  m ← gets id;
  previous ← deref (pxPrevious m pxItemToRemove);
  set_next previous (pxNext m pxItemToRemove);;
  pxList ← deref container;
  m ← gets id;
  (if decide (pxIndex m pxList = Some pxItemToRemove) then set_index pxList (pxPrevious m pxItemToRemove)
   else mret tt);;
  set_container pxItemToRemove None;;
  m ← gets id;
  set_count pxList (u32 (uxNumberOfItems m pxList - 1));;
  m ← gets id;
  mret (uxNumberOfItems m pxList).

(** The macro of [list.h] the scheduler chooses the next task with; the result
    is the item whose owner it yields. *)
Definition listGET_OWNER_OF_NEXT_ENTRY (pxList : Z) : ST memory node :=
  m ← gets id;
  index ← deref (pxIndex m pxList);
  next ← deref (pxNext m index);
  set_index pxList (Some next);;
  (if decide (next = ListEnd pxList) then
     m ← gets id;
     first ← deref (pxNext m (ListEnd pxList));
     set_index pxList (Some first)
   else mret tt);;
  m ← gets id;
  deref (pxIndex m pxList).

(** ** Chains

    [chain nx pv a ns b]: from [a] the next pointers lead through the nodes
    [ns] to [b], and the previous pointers lead back. *)

Fixpoint chain (nx pv : node → option node) (a : node) (ns : list node) (b : node) : Prop :=
  match ns with
  | [] => nx a = Some b ∧ pv b = Some a
  | n :: ns => nx a = Some n ∧ pv n = Some a ∧ chain nx pv n ns b
  end.

(** The node before the end of the chain, and the first node of a list that
    ends in [b]. *)
Definition last_node (a : node) (ns : list node) : node := default a (last ns).
Definition first_node (ns : list node) (b : node) : node := default b (head ns).

Lemma last_node_cons a n ns : last_node a (n :: ns) = last_node n ns.
Proof. unfold last_node. rewrite last_cons. by destruct (last ns). Qed.

Lemma last_node_elem a ns : last_node a ns ∈ a :: ns.
Proof.
  unfold last_node. destruct (last ns) as [n|] eqn:E; [|left].
  simpl. right. apply last_Some in E as [l ->]. set_solver.
Qed.

Lemma chain_app nx pv a xs n ys b :
  chain nx pv a (xs ++ n :: ys) b ↔ chain nx pv a xs n ∧ chain nx pv n ys b.
Proof. revert a. induction xs as [|x xs IH]; intros a; simpl; [tauto|]. rewrite IH. tauto. Qed.

Lemma chain_last nx pv a ns b :
  chain nx pv a ns b → nx (last_node a ns) = Some b ∧ pv b = Some (last_node a ns).
Proof.
  revert a. induction ns as [|n ns IH]; intros a; [done|]. rewrite last_node_cons. simpl. intros (_ & _ & H).
  by apply IH.
Qed.

Lemma chain_frame nx pv nx' pv' a ns b :
  chain nx pv a ns b → (∀ n, n ∈ a :: ns → nx' n = nx n) → (∀ n, n ∈ ns ++ [b] → pv' n = pv n) →
  chain nx' pv' a ns b.
Proof.
  revert a. induction ns as [|n ns IH]; simpl; intros a Hc Hn Hp.
  - destruct Hc. rewrite Hn, Hp; [done|set_solver..].
  - destruct Hc as (? & ? & ?). rewrite Hn, Hp by set_solver. split_and!; [done..|].
    apply IH; [done|set_solver..].
Qed.

(** The last link of a chain, led to another node. *)
Lemma chain_retarget nx pv nx' pv' a ns b c :
  chain nx pv a ns b → NoDup (a :: ns) →
  (∀ n, n ∈ a :: ns → n ≠ last_node a ns → nx' n = nx n) → (∀ n, n ∈ ns → pv' n = pv n) →
  nx' (last_node a ns) = Some c → pv' c = Some (last_node a ns) →
  chain nx' pv' a ns c.
Proof.
  revert a. induction ns as [|n ns IH]; intros a; [done|].
  rewrite last_node_cons. intros (H1 & H2 & H3) [Ha Hnd]%NoDup_cons Hn Hp Hl1 Hl2. simpl.
  rewrite Hn, Hp; [|set_solver..|].
  - split_and!; [done..|]. apply IH; try done; set_solver.
  - intros ->. apply Ha. apply last_node_elem.
Qed.

(** ** Lists *)

(** The list [l] holds the items [ns], in this order. *)
Record list_rep (m : memory) (l : Z) (ns : list node) : Prop := {
  rep_chain : chain (pxNext m) (pxPrevious m) (ListEnd l) ns (ListEnd l);
  rep_nodup : NoDup (ListEnd l :: ns);
  rep_container n : n ∈ ns → pxContainer m n = Some l;
  rep_count : uxNumberOfItems m l = len ns;
  rep_end : xItemValue m (ListEnd l) = portMAX_DELAY;
  rep_index : ∃ n, pxIndex m l = Some n ∧ n ∈ ListEnd l :: ns;
}.

(** [m'] is [m] with [n] linked between [p] and [q] and made an item of [l]. *)
Record linked_between (m m' : memory) (l : Z) (p n q : node) : Prop := {
  lb_next k : pxNext m' k = if decide (k = p) then Some n else if decide (k = n) then Some q else pxNext m k;
  lb_previous k : pxPrevious m' k =
    if decide (k = q) then Some n else if decide (k = n) then Some p else pxPrevious m k;
  lb_container : pxContainer m' = <[n := Some l]> (pxContainer m);
  lb_count : uxNumberOfItems m' = <[l := u32 (uxNumberOfItems m l + 1)]> (uxNumberOfItems m);
  lb_value : xItemValue m' = xItemValue m;
  lb_index : pxIndex m' = pxIndex m;
}.

Lemma nodup_middle (a : node) xs ys : NoDup (a :: xs ++ ys) →
  NoDup (a :: xs) ∧ (∀ k, k ∈ a :: xs → k ∉ ys).
Proof. change (a :: xs ++ ys) with ((a :: xs) ++ ys). intros (H1 & H2 & _)%NoDup_app. by split. Qed.

Lemma insert_rep m m' l xs ys n :
  list_rep m l (xs ++ ys) → n ∉ ListEnd l :: xs ++ ys → len (xs ++ ys) < 2 ^ 32 - 1 →
  linked_between m m' l (last_node (ListEnd l) xs) n (first_node ys (ListEnd l)) →
  list_rep m' l (xs ++ n :: ys).
Proof.
  intros [Hc Hnd Hcont Hcount Hend (i & Hi & Hin)] Hn Hlen [Hnx Hpv Ecn Ect Ev Ei].
  pose proof (nodup_middle _ _ _ Hnd) as [Hnd1 Hdis].
  pose proof (last_node_elem (ListEnd l) xs) as Hp.
  assert (n ≠ last_node (ListEnd l) xs) as Hnp by set_solver.
  split.
  - apply chain_app. destruct ys as [|y ys]; [change (first_node [] (ListEnd l)) with (ListEnd l) in *
      |change (first_node (y :: ys) (ListEnd l)) with y in *].
    + rewrite app_nil_r in *. split.
      * eapply chain_retarget; [exact Hc|done|..].
        -- intros k Hk1 Hk2. rewrite Hnx. by rewrite !decide_False by set_solver.
        -- intros k Hk. rewrite Hpv. rewrite !decide_False; [done|set_solver|].
           intros ->. by apply NoDup_cons in Hnd as [? _].
        -- rewrite Hnx. by rewrite decide_True.
        -- rewrite Hpv. rewrite decide_False by set_solver. by rewrite decide_True.
      * simpl. rewrite Hnx, Hpv. rewrite decide_False by done. by rewrite !decide_True.
    + apply chain_app in Hc as [Hc1 Hc2].
      assert (y ∉ ListEnd l :: xs) as Hy by (intros Hy; apply (Hdis y Hy); left).
      assert (NoDup (y :: ys)) as Hndy.
      { apply NoDup_cons in Hnd as [_ Hnd]. by apply NoDup_app in Hnd as (_ & _ & ?). }
      split.
      * eapply chain_retarget; [exact Hc1|done|..].
        -- intros k Hk1 Hk2. rewrite Hnx. by rewrite !decide_False by set_solver.
        -- intros k Hk. rewrite Hpv. by rewrite !decide_False by set_solver.
        -- rewrite Hnx. by rewrite decide_True.
        -- rewrite Hpv. rewrite decide_False by set_solver. by rewrite decide_True.
      * simpl. rewrite Hnx, Hpv. rewrite decide_False by done. rewrite !decide_True by done.
        split_and!; [done..|]. eapply chain_frame; [exact Hc2|..].
        -- intros k Hk. rewrite Hnx. rewrite !decide_False; [done|set_solver|].
           intros ->. by apply (Hdis _ Hp).
        -- intros k Hk. rewrite Hpv. rewrite !decide_False; [done|set_solver|].
           intros ->. apply elem_of_app in Hk as [Hk| ->%list_elem_of_singleton]; [|set_solver].
           by apply NoDup_cons in Hndy as [? _].
  - apply NoDup_cons. apply NoDup_cons in Hnd as [Hnd0 Hnd2]. split; [set_solver|].
    rewrite <- Permutation_middle. apply NoDup_cons. split; [set_solver|done].
  - intros k Hk. rewrite Ecn. destruct (decide (k = n)) as [->|Hkn].
    + by rewrite fn_lookup_insert.
    + rewrite fn_lookup_insert_ne by done. apply Hcont. set_solver.
  - rewrite Ect, fn_lookup_insert, Hcount. rewrite u32_small.
    + rewrite !len_app, len_cons. lia.
    + unfold is_u32. pose proof (len_nonneg (xs ++ ys)). lia.
  - by rewrite Ev.
  - exists i. rewrite Ei. split; [done|]. set_solver.
Qed.

Lemma chain_link nx pv a xs ys b : chain nx pv a (xs ++ ys) b →
  nx (last_node a xs) = Some (first_node ys b) ∧ pv (first_node ys b) = Some (last_node a xs).
Proof.
  destruct ys as [|y ys].
  - rewrite app_nil_r. apply chain_last.
  - intros [H _]%chain_app. by apply chain_last in H.
Qed.

(** [run]: symbolic execution of the field accesses. *)
Ltac run :=
  unfold set_next, set_previous, set_container, set_count, set_index, set_value;
  repeat first
    [ progress cbn [xItemValue pxNext pxPrevious pxContainer uxNumberOfItems pxIndex]
    | rewrite gets_id
    | rewrite ret_bind
    | rewrite modify_bind
    | rewrite fn_lookup_insert
    | rewrite fn_lookup_insert_ne by done ].

Lemma deref_bind {A B} (p : option A) (a : A) (k : A → ST memory B) m :
  p = Some a → (deref p ≫= k) m = k a m.
Proof. by intros ->. Qed.

Lemma list_insert_end m l xs ys n :
  list_rep m l (xs ++ ys) → pxIndex m l = Some (first_node ys (ListEnd l)) →
  n ∉ ListEnd l :: xs ++ ys → len (xs ++ ys) < 2 ^ 32 - 1 →
  ∃ m', vListInsertEnd l n m = Done (tt, m') ∧ list_rep m' l (xs ++ n :: ys) ∧
    xItemValue m' = xItemValue m ∧ pxIndex m' = pxIndex m.
Proof.
  intros Hrep Hidx Hn Hlen. destruct (chain_link _ _ _ _ _ _ (rep_chain _ _ _ Hrep)) as [Hnx Hpv].
  set (q := first_node ys (ListEnd l)) in *. set (p := last_node (ListEnd l) xs) in *.
  assert (n ≠ q) as Hq.
  { unfold q, first_node. destruct ys as [|y ys]; simpl; set_solver. }
  eexists. split; [|split; [|split]].
  - unfold vListInsertEnd. run. erewrite deref_bind by exact Hidx. run.
    erewrite deref_bind by exact Hpv. run. reflexivity.
  - apply (insert_rep m); [done..|]. fold p q. split; simpl; try done; intros k; fn_cases.
  - done.
  - done.
Qed.

Lemma list_initialise m l : ∃ m', vListInitialise l m = Done (tt, m') ∧ list_rep m' l [].
Proof.
  eexists. split; [unfold vListInitialise; run; reflexivity|].
  split; simpl; rewrite ?fn_lookup_insert; try done.
  - apply NoDup_singleton.
  - by intros n ?%not_elem_of_nil.
  - eexists. split; [done|]. left.
Qed.

(** ** Sorted insertion *)

(** The list, cut behind its longest beginning of values up to [v]. *)
Fixpoint split_at {A} (value : A → Z) (v : Z) (ns : list A) : list A * list A :=
  match ns with
  | [] => ([], [])
  | n :: ns' => if value n <=? v then let '(a, b) := split_at value v ns' in (n :: a, b) else ([], ns)
  end.

Lemma split_at_app {A} (value : A → Z) v ns : (split_at value v ns).1 ++ (split_at value v ns).2 = ns.
Proof.
  induction ns as [|n ns IH]; [done|]. simpl. destruct (value n <=? v); [|done].
  destruct (split_at value v ns). simpl in *. by rewrite IH.
Qed.

(** Where an item of value [v] goes. *)
Definition place {A} (value : A → Z) (v : Z) (ns : list A) : list A * list A :=
  if v =? portMAX_DELAY then (ns, []) else split_at value v ns.

Lemma place_app {A} (value : A → Z) v ns : (place value v ns).1 ++ (place value v ns).2 = ns.
Proof. unfold place. destruct (v =? portMAX_DELAY); [apply app_nil_r|apply split_at_app]. Qed.

Lemma place_bounds {A} (value : A → Z) v ns : Forall (λ k, is_u32 (value k)) ns →
  Forall (λ k, value k <= v) (place value v ns).1 ∧
  (∀ y ys, (place value v ns).2 = y :: ys → v < value y).
Proof.
  intros Hv. unfold place. case (Z.eqb_spec v portMAX_DELAY); intros Hmax.
  - split; [|done]. eapply Forall_impl; [exact Hv|]. unfold is_u32, portMAX_DELAY in *. simpl. lia.
  - clear. induction ns as [|n ns [IH1 IH2]]; [by split|]. simpl.
    case (Z.leb_spec (value n) v); intros Hn.
    + destruct (split_at value v ns). simpl in *. split; [by constructor|done].
    + split; [constructor|]. by intros y ys [= <- _].
Qed.

Lemma sorted_middle {A} (value : A → Z) n xs ys :
  Forall (λ k, value k <= value n) xs → (∀ y ys', ys = y :: ys' → value n < value y) →
  StronglySorted (λ a b, value a <= value b) (xs ++ ys) →
  StronglySorted (λ a b, value a <= value b) (xs ++ n :: ys).
Proof.
  intros Hxs Hys. induction xs as [|x xs IH]; simpl; intros Hs.
  - constructor; [done|]. destruct ys as [|y ys]; [constructor|].
    pose proof (Hys y ys eq_refl). apply StronglySorted_inv in Hs as [_ Hs].
    constructor; [lia|]. eapply Forall_impl; [exact Hs|]. simpl. lia.
  - apply StronglySorted_inv in Hs as [Hs Hx]. apply Forall_cons in Hxs as [Hx0 Hxs].
    constructor; [by apply IH|]. apply Forall_app in Hx as [Hx1 Hx2].
    apply Forall_app; split; [done|]. by constructor.
Qed.

Lemma find_position_spec fuel m v a ns b :
  chain (pxNext m) (pxPrevious m) a ns b → v < xItemValue m b → (length ns < fuel)%nat →
  find_position fuel a v m = Done (last_node a (split_at (xItemValue m) v ns).1, m).
Proof.
  revert fuel a. induction ns as [|n ns IH]; intros fuel a Hc Hb Hf; (destruct fuel as [|fuel]; [simpl in Hf; lia|]);
    cbn [find_position chain] in *; rewrite gets_id.
  - destruct Hc as [Hn _]. erewrite deref_bind by exact Hn. by rewrite (proj2 (Z.leb_gt _ _)) by lia.
  - destruct Hc as (Hn & _ & Hc). erewrite deref_bind by exact Hn. simpl.
    destruct (xItemValue m n <=? v); [|done].
    rewrite (IH fuel n Hc Hb) by (simpl in Hf; lia).
    destruct (split_at (xItemValue m) v ns). simpl. by rewrite last_node_cons.
Qed.

Lemma list_insert fuel m l ns n :
  list_rep m l ns → n ∉ ListEnd l :: ns → len ns < 2 ^ 32 - 1 → is_u32 (xItemValue m n) →
  (length ns < fuel)%nat →
  ∃ m', vListInsert fuel l n m = Done (tt, m') ∧
    (let '(xs, ys) := place (xItemValue m) (xItemValue m n) ns in list_rep m' l (xs ++ n :: ys)) ∧
    xItemValue m' = xItemValue m ∧ pxIndex m' = pxIndex m.
Proof.
  intros Hrep Hn Hlen Hv Hf. unfold is_u32 in Hv. pose proof (rep_chain _ _ _ Hrep) as Hc.
  pose proof (place_app (xItemValue m) (xItemValue m n) ns) as Happ.
  destruct (place (xItemValue m) (xItemValue m n) ns) as [xs ys] eqn:Epl. simpl in Happ. subst ns.
  destruct (chain_link _ _ _ _ _ _ Hc) as [Hnx Hpv].
  set (q := first_node ys (ListEnd l)) in *. set (p := last_node (ListEnd l) xs) in *.
  assert (n ≠ q) as Hq by (unfold q, first_node; destruct ys as [|y ys]; simpl; set_solver).
  assert (n ≠ p) as Hp by (pose proof (last_node_elem (ListEnd l) xs); set_solver).
  assert ((if xItemValue m n =? portMAX_DELAY then deref (pxPrevious m (ListEnd l))
           else find_position fuel (ListEnd l) (xItemValue m n)) m = Done (p, m)) as Hfind.
  { unfold place in Epl. destruct (Z.eqb_spec (xItemValue m n) portMAX_DELAY) as [E|E].
    - injection Epl as _ <-. assert (pxPrevious m (ListEnd l) = Some p) as -> by exact Hpv. done.
    - erewrite find_position_spec; [|exact Hc| |done].
      + by rewrite Epl.
      + rewrite (rep_end _ _ _ Hrep). unfold portMAX_DELAY in *. lia. }
  eexists. split; [|split; [|split]].
  - unfold vListInsert. rewrite gets_id. cbv zeta. erewrite bind_done by exact Hfind. run.
    erewrite deref_bind by exact Hnx. run. reflexivity.
  - apply (insert_rep m); [done..|]. fold p q. split; simpl; try done; intros k; fn_cases.
  - done.
  - done.
Qed.

(** ** Removal *)

Lemma unlink_chain nx pv a xs n ys b nx' pv' :
  chain nx pv a (xs ++ n :: ys) b → NoDup (a :: xs ++ n :: ys) → b ∉ xs ++ n :: ys →
  (∀ k, nx' k = if decide (k = last_node a xs) then Some (first_node ys b) else nx k) →
  (∀ k, pv' k = if decide (k = first_node ys b) then Some (last_node a xs) else pv k) →
  chain nx' pv' a (xs ++ ys) b.
Proof.
  intros Hc Hnd Hb Hnx Hpv. pose proof (nodup_middle _ _ _ Hnd) as [Hnd1 Hdis].
  apply chain_app in Hc as [Hc1 Hc2].
  assert (NoDup (n :: ys)) as Hnd2.
  { apply NoDup_cons in Hnd as [_ Hnd]. by apply NoDup_app in Hnd as (_ & _ & ?). }
  assert (chain nx' pv' a xs (first_node ys b)) as Hc1'.
  { eapply chain_retarget; [exact Hc1|done|..].
    - intros k _ Hk. rewrite Hnx. by rewrite decide_False.
    - intros k Hk. rewrite Hpv. rewrite decide_False; [done|]. intros ->.
      unfold first_node in Hk. destruct ys as [|y ys]; simpl in Hk; set_solver.
    - rewrite Hnx. by rewrite decide_True.
    - rewrite Hpv. by rewrite decide_True. }
  destruct ys as [|y ys]; [by rewrite app_nil_r|]. apply chain_app. split; [exact Hc1'|].
  simpl in Hc2. destruct Hc2 as (_ & _ & Hc2). change (first_node (y :: ys) b) with y in *.
  pose proof (last_node_elem a xs) as Hp.
  eapply chain_frame; [exact Hc2|..].
  - intros k Hk. rewrite Hnx, decide_False; [done|]. intros ->. apply (Hdis _ Hp). by right.
  - intros k Hk. rewrite Hpv, decide_False; [done|]. intros ->.
    apply elem_of_app in Hk as [Hk| ->%list_elem_of_singleton]; [|set_solver].
    apply NoDup_cons in Hnd2 as [_ [? _]%NoDup_cons]. done.
Qed.

Lemma remove_rep m m' l xs n ys i :
  list_rep m l (xs ++ n :: ys) → len (xs ++ n :: ys) < 2 ^ 32 →
  (∀ k, pxNext m' k = if decide (k = last_node (ListEnd l) xs) then Some (first_node ys (ListEnd l)) else pxNext m k) →
  (∀ k, pxPrevious m' k =
     if decide (k = first_node ys (ListEnd l)) then Some (last_node (ListEnd l) xs) else pxPrevious m k) →
  pxContainer m' = <[n := None]> (pxContainer m) →
  uxNumberOfItems m' l = u32 (uxNumberOfItems m l - 1) → xItemValue m' = xItemValue m →
  pxIndex m' l = Some i → i ∈ ListEnd l :: xs ++ ys →
  list_rep m' l (xs ++ ys).
Proof.
  intros [Hc Hnd Hcont Hcount Hend _] Hlen Hnx Hpv Ecn Ect Ev Hi Hin.
  apply NoDup_cons in Hnd as Hnd'. destruct Hnd' as [Hend0 Hnd0].
  rewrite <- Permutation_middle in Hnd0. apply NoDup_cons in Hnd0 as [Hn Hnd0].
  split; [by eapply unlink_chain| | | |by rewrite Ev|by exists i].
  - apply NoDup_cons. split; [set_solver|done].
  - intros k Hk. rewrite Ecn, fn_lookup_insert_ne by set_solver. apply Hcont. set_solver.
  - rewrite Ect, Hcount. rewrite len_app, len_cons in *. pose proof (len_nonneg xs). pose proof (len_nonneg ys).
    rewrite u32_small by (unfold is_u32; lia). rewrite len_app. lia.
Qed.

Lemma list_remove m l xs n ys :
  list_rep m l (xs ++ n :: ys) → len (xs ++ n :: ys) < 2 ^ 32 →
  ∃ m', uxListRemove n m = Done (len (xs ++ ys), m') ∧ list_rep m' l (xs ++ ys) ∧
    pxContainer m' n = None ∧ xItemValue m' = xItemValue m ∧
    pxIndex m' l = (if decide (pxIndex m l = Some n) then Some (last_node (ListEnd l) xs) else pxIndex m l).
Proof.
  intros Hrep Hlen. pose proof Hrep as [Hc Hnd Hcont Hcount Hend (i & Hi & Hin)].
  pose proof (proj1 (chain_app _ _ _ _ _ _ _) Hc) as [Hc1 Hc2].
  destruct (chain_last _ _ _ _ _ Hc1) as [_ Hpv].
  destruct (chain_link _ _ n [] ys _ Hc2) as [Hnx _]. change (last_node n []) with n in Hnx.
  apply NoDup_cons in Hnd as Hnd'. destruct Hnd' as [Hend0 Hnd0].
  set (q := first_node ys (ListEnd l)) in *. set (p := last_node (ListEnd l) xs) in *.
  apply NoDup_app in Hnd0 as Hnd1. destruct Hnd1 as (_ & Hdis & [Hny _]%NoDup_cons).
  assert (n ≠ q) as Hq by (unfold q, first_node; destruct ys as [|y ys]; simpl; set_solver).
  assert (p ∈ ListEnd l :: xs) as Hpe by apply last_node_elem.
  assert (n ≠ p) as Hp by set_solver.
  pose proof (Hcont n ltac:(set_solver)) as Hcn.
  assert (u32 (uxNumberOfItems m l - 1) = len (xs ++ ys)) as Hcnt.
  { rewrite Hcount. rewrite len_app, len_cons in *. pose proof (len_nonneg xs). pose proof (len_nonneg ys).
    rewrite u32_small by (unfold is_u32; lia). rewrite len_app. lia. }
  unfold uxListRemove. rewrite gets_id. cbv zeta. erewrite deref_bind by exact Hnx. run.
  erewrite deref_bind by exact Hpv. run. erewrite deref_bind by exact Hcn. run. rewrite Hi.
  assert (∀ k, (<[p:=pxNext m n]> (pxNext m)) k = if decide (k = p) then Some q else pxNext m k) as Hnx'
    by (intros k; rewrite Hnx; fn_cases).
  assert (∀ k, (<[q:=pxPrevious m n]> (pxPrevious m)) k = if decide (k = q) then Some p else pxPrevious m k) as Hpv'
    by (intros k; rewrite Hpv; fn_cases).
  case_decide as Hcase; run; rewrite Hcnt; eexists; (split; [reflexivity|split; [|split; [|split]]]).
  - eapply (remove_rep m); try done; simpl; rewrite ?fn_lookup_insert, ?Hcnt; try done; set_solver.
  - simpl. by rewrite fn_lookup_insert.
  - done.
  - simpl. by rewrite !fn_lookup_insert.
  - eapply (remove_rep m); try done; simpl; rewrite ?fn_lookup_insert, ?Hcnt; try done; set_solver.
  - simpl. by rewrite fn_lookup_insert.
  - done.
  - done.
Qed.

(** ** Walking round the list *)

(** The list with the index at the last of [xs], that is, [ys] still to be
    visited in this round. *)
Definition visited (m : memory) (l : Z) (xs ys : list node) : Prop :=
  list_rep m l (xs ++ ys) ∧ pxIndex m l = Some (last_node (ListEnd l) xs).

Lemma last_node_snoc a xs n : last_node a (xs ++ [n]) = n.
Proof. unfold last_node. by rewrite last_snoc. Qed.

Lemma index_rep m l ns n : list_rep m l ns → n ∈ ListEnd l :: ns →
  list_rep (Memory (xItemValue m) (pxNext m) (pxPrevious m) (pxContainer m) (uxNumberOfItems m)
    (<[l := Some n]> (pxIndex m))) l ns.
Proof.
  intros [] Hn. split; simpl; try done. exists n. by rewrite fn_lookup_insert.
Qed.

Lemma next_entry m l xs y ys : visited m l xs (y :: ys) →
  ∃ m', listGET_OWNER_OF_NEXT_ENTRY l m = Done (y, m') ∧ visited m' l (xs ++ [y]) ys.
Proof.
  intros [Hrep Hidx]. destruct (chain_link _ _ _ _ _ _ (rep_chain _ _ _ Hrep)) as [Hnx _].
  change (first_node (y :: ys) (ListEnd l)) with y in Hnx.
  pose proof (rep_nodup _ _ _ Hrep) as [Hend _]%NoDup_cons.
  eexists. split.
  - unfold listGET_OWNER_OF_NEXT_ENTRY. rewrite gets_id. erewrite deref_bind by exact Hidx.
    erewrite deref_bind by exact Hnx. run. rewrite decide_False by set_solver. run. reflexivity.
  - split; simpl; [|by rewrite fn_lookup_insert, last_node_snoc].
    rewrite <- app_assoc. apply index_rep; [done|set_solver].
Qed.

(** Behind the last item the walk starts over. *)
Lemma next_entry_wrap m l y ys : visited m l (y :: ys) [] →
  ∃ m', listGET_OWNER_OF_NEXT_ENTRY l m = Done (y, m') ∧ visited m' l [y] ys.
Proof.
  intros [Hrep Hidx]. rewrite app_nil_r in Hrep. pose proof (rep_chain _ _ _ Hrep) as Hc.
  destruct (chain_last _ _ _ _ _ Hc) as [Hlast _]. destruct (chain_link _ _ _ [] _ _ Hc) as [Hfirst _].
  change (first_node (y :: ys) (ListEnd l)) with y in Hfirst. change (last_node (ListEnd l) []) with (ListEnd l) in Hfirst.
  eexists. split.
  - unfold listGET_OWNER_OF_NEXT_ENTRY. rewrite gets_id. erewrite deref_bind by exact Hidx.
    erewrite deref_bind by exact Hlast. run. rewrite decide_True by done.
    erewrite bind_done by (run; erewrite deref_bind by exact Hfirst; reflexivity). run. reflexivity.
  - split; simpl; [|by rewrite fn_lookup_insert].
    apply (index_rep (Memory _ _ _ _ _ _)); [|set_solver]. apply index_rep; [done|set_solver].
Qed.

(** The items that the next [n] calls yield. *)
Fixpoint entries (n : nat) (l : Z) : ST memory (list node) :=
  match n with
  | O => mret []
  | S n => x ← listGET_OWNER_OF_NEXT_ENTRY l; xs ← entries n l; mret (x :: xs)
  end.

Lemma entries_rest m l xs ys zs : visited m l xs (ys ++ zs) →
  ∃ m', entries (length ys) l m = Done (ys, m') ∧ visited m' l (xs ++ ys) zs.
Proof.
  revert m xs. induction ys as [|y ys IH]; intros m xs Hv.
  - exists m. by rewrite app_nil_r.
  - destruct (next_entry _ _ _ _ _ Hv) as (m1 & E1 & Hv1).
    destruct (IH _ _ Hv1) as (m2 & E2 & Hv2). exists m2. split.
    + simpl. erewrite bind_done by exact E1. by erewrite bind_done by exact E2.
    + by rewrite <- app_assoc in Hv2.
Qed.

Lemma entries_app n k l m xs m1 ys m2 :
  entries n l m = Done (xs, m1) → entries k l m1 = Done (ys, m2) → entries (n + k) l m = Done (xs ++ ys, m2).
Proof.
  revert m xs. induction n as [|n IH]; intros m xs; simpl.
  - intros [= <- <-]. done.
  - unfold mbind, ST_bind. destruct (listGET_OWNER_OF_NEXT_ENTRY l m) as [[x m0]| |]; [|done..].
    destruct (entries n l m0) as [[xs' m0']| |] eqn:E; [|done..]. simpl. intros [= <- <-] Hk.
    by rewrite (IH _ _ E Hk).
Qed.

Lemma list_round m l xs ys : visited m l xs ys →
  ∃ m', entries (length ys + length xs) l m = Done (ys ++ xs, m') ∧ list_rep m' l (xs ++ ys).
Proof.
  intros Hv. rewrite <- (app_nil_r ys) in Hv.
  destruct (entries_rest _ _ _ _ _ Hv) as (m1 & E1 & Hv1). destruct xs as [|x xs].
  - exists m1. rewrite app_nil_r, Nat.add_0_r. split; [done|].
    destruct Hv1 as [Hrep _]. by rewrite app_nil_r in Hrep.
  - destruct (next_entry_wrap _ _ _ _ Hv1) as (m2 & E2 & Hv2).
    destruct (entries_rest m2 l [x] xs ys Hv2) as (m3 & E3 & Hv3 & _).
    exists m3. split; [|exact Hv3]. eapply entries_app; [exact E1|].
    simpl. erewrite bind_done by exact E2. by erewrite bind_done by exact E3.
Qed.

(** ** Lists as zippers

    What the operations do, on the items alone: those up to the index, and
    those ahead of it. With nothing passed the index is the end marker. *)

Record zipper A := Zipper { passed : list A; ahead : list A }.
Arguments Zipper {A}. Arguments passed {A}. Arguments ahead {A}.

Definition z_items {A} (z : zipper A) : list A := passed z ++ ahead z.
Definition z_empty {A} : zipper A := Zipper [] [].

(** In front of the index, which is the last item passed or the end marker. *)
Definition z_insert_end {A} (x : A) (z : zipper A) : zipper A :=
  match reverse (passed z) with
  | [] => Zipper [] (ahead z ++ [x])
  | c :: xs => Zipper (reverse xs ++ [x; c]) (ahead z)
  end.

(** By value; an item put behind the index is ahead of it. *)
Definition z_insert {A} (value : A → Z) (x : A) (z : zipper A) : zipper A :=
  let '(xs, ys) := place value (value x) (z_items z) in
  let k := if decide (length xs < length (passed z))%nat then S (length (passed z)) else length (passed z) in
  Zipper (take k (xs ++ x :: ys)) (drop k (xs ++ x :: ys)).

Definition z_remove {A} `{EqDecision A} (x : A) (z : zipper A) : zipper A :=
  Zipper (filter (λ y, y ≠ x) (passed z)) (filter (λ y, y ≠ x) (ahead z)).

Definition z_next {A} (z : zipper A) : option (A * zipper A) :=
  match ahead z, passed z with
  | y :: ys, xs => Some (y, Zipper (xs ++ [y]) ys)
  | [], x :: xs => Some (x, Zipper [x] xs)
  | [], [] => None
  end.

(** What the operations of a zipper do to its items. *)
Lemma z_items_insert_end {A} (x : A) z : z_items (z_insert_end x z) ≡ₚ x :: z_items z.
Proof.
  destruct z as [xs ys]. unfold z_insert_end, z_items. simpl. destruct (reverse xs) as [|c rs] eqn:Er.
  - apply (f_equal reverse) in Er. rewrite reverse_involutive in Er. simpl in Er. subst xs. simpl.
    by rewrite Permutation_app_comm.
  - apply (f_equal reverse) in Er. rewrite reverse_involutive, reverse_cons in Er. subst xs. simpl.
    rewrite <- !app_assoc. simpl. by rewrite <- Permutation_middle.
Qed.

Lemma z_items_insert {A} (value : A → Z) x z :
  z_items (z_insert value x z) = (place value (value x) (z_items z)).1 ++ x :: (place value (value x) (z_items z)).2.
Proof. unfold z_insert. destruct (place _ _ _) as [xs ys]. unfold z_items. simpl. by rewrite take_drop. Qed.

Lemma z_items_insert_perm {A} (value : A → Z) x z : z_items (z_insert value x z) ≡ₚ x :: z_items z.
Proof. rewrite z_items_insert, <- Permutation_middle, place_app. done. Qed.

Lemma z_items_remove {A} `{EqDecision A} (x : A) z : z_items (z_remove x z) = filter (λ y, y ≠ x) (z_items z).
Proof. unfold z_items, z_remove. simpl. by rewrite filter_app. Qed.

Lemma z_items_next {A} (z z' : zipper A) x : z_next z = Some (x, z') → x ∈ z_items z ∧ z_items z' = z_items z.
Proof.
  unfold z_next, z_items. destruct z as [[|p ps] [|q qs]]; simpl; intros E; simplify_eq/=; split; try done;
    try set_solver; by rewrite ?app_nil_r, <- ?app_assoc.
Qed.

Lemma z_next_empty {A} (z : zipper A) : z_next z = None → z_items z = [].
Proof. destruct z as [[|p ps] [|q qs]]; by unfold z_next. Qed.

(** ** The zipper is the list *)

Definition represents (m : memory) (l : Z) (z : zipper node) : Prop := visited m l (passed z) (ahead z).

Lemma z_insert_end_spec m l z n :
  represents m l z → n ∉ ListEnd l :: z_items z → len (z_items z) < 2 ^ 32 - 1 →
  ∃ m', vListInsertEnd l n m = Done (tt, m') ∧ represents m' l (z_insert_end n z) ∧ xItemValue m' = xItemValue m.
Proof.
  intros [Hrep Hidx] Hn Hlen. unfold z_items in *. destruct z as [xs ys]. simpl in *. unfold z_insert_end. simpl.
  destruct (reverse xs) as [|c rs] eqn:Er.
  - apply (f_equal reverse) in Er. rewrite reverse_involutive in Er. simpl in Er. subst xs. simpl in *.
    destruct (list_insert_end m l ys [] n) as (m'&E&Hr&Ev&Ei); rewrite ?app_nil_r; try done.
    exists m'. split; [done|]. split; [|done]. split; [done|]. by rewrite Ei.
  - apply (f_equal reverse) in Er. rewrite reverse_involutive, reverse_cons in Er. subst xs.
    rewrite <- app_assoc in *. simpl in *. rewrite last_node_snoc in Hidx.
    destruct (list_insert_end m l (reverse rs) (c :: ys) n) as (m'&E&Hr&Ev&Ei); try done.
    exists m'. split; [done|]. split; [|done]. split; simpl; [by rewrite <- app_assoc|].
    rewrite Ei. change ([n; c]) with ([n] ++ [c]). by rewrite app_assoc, last_node_snoc.
Qed.

Lemma last_node_app a xs y ys : last_node a (xs ++ y :: ys) = last_node y ys.
Proof. revert a. induction xs as [|x xs IH]; intros a; simpl; rewrite last_node_cons; [done|apply IH]. Qed.

Lemma z_insert_spec fuel m l z n :
  represents m l z → n ∉ ListEnd l :: z_items z → len (z_items z) < 2 ^ 32 - 1 → is_u32 (xItemValue m n) →
  (length (z_items z) < fuel)%nat →
  ∃ m', vListInsert fuel l n m = Done (tt, m') ∧ represents m' l (z_insert (xItemValue m) n z) ∧
    xItemValue m' = xItemValue m.
Proof.
  intros [Hrep Hidx] Hn Hlen Hv Hf.
  destruct (list_insert fuel m l (z_items z) n) as (m'&E&Hr&Ev&Ei); try done.
  exists m'. split; [done|]. split; [|done]. unfold z_insert.
  pose proof (place_app (xItemValue m) (xItemValue m n) (z_items z)) as Happ.
  destruct (place _ _ (z_items z)) as [xs ys]. simpl in Happ. unfold represents. cbn [passed ahead].
  split; [by rewrite take_drop|]. rewrite Ei, Hidx. f_equal.
  unfold z_items in Happ. set (p := length (passed z)) in *.
  assert (passed z = take p (xs ++ ys)) as Hp by (unfold p; by rewrite Happ, take_app_length).
  rewrite Hp. destruct (decide (length xs < p)%nat) as [Hlt|Hge].
  - rewrite !take_app, !(take_ge xs) by lia. replace (S p - length xs)%nat with (S (p - length xs)) by lia.
    simpl. destruct (p - length xs)%nat as [|k] eqn:Ek; [lia|]. destruct ys as [|y ys].
    + exfalso. apply (f_equal length) in Happ. rewrite !length_app in Happ. simpl in Happ. fold p in Happ. lia.
    + simpl. rewrite !last_node_app. by rewrite last_node_cons.
  - rewrite !take_app_le by lia. done.
Qed.

Lemma filter_absent {A} `{EqDecision A} (x : A) (xs : list A) : x ∉ xs → filter (λ y, y ≠ x) xs = xs.
Proof.
  induction xs as [|y xs IH]; intros Hx; [done|]. rewrite filter_cons_True by set_solver.
  by rewrite IH by set_solver.
Qed.

Lemma filter_middle {A} `{EqDecision A} (x : A) (xs ys : list A) :
  NoDup (xs ++ x :: ys) → filter (λ y, y ≠ x) (xs ++ x :: ys) = xs ++ ys.
Proof.
  intros (H1&H2&[H3 H4]%NoDup_cons)%NoDup_app. rewrite filter_app, filter_cons_False by auto.
  rewrite !filter_absent; [done|done|]. intros Hx. apply (H2 _ Hx). left.
Qed.

Lemma z_remove_spec m l z n :
  represents m l z → n ∈ z_items z → len (z_items z) < 2 ^ 32 →
  ∃ m', uxListRemove n m = Done (len (z_items (z_remove n z)), m') ∧ represents m' l (z_remove n z) ∧
    pxContainer m' n = None ∧ xItemValue m' = xItemValue m.
Proof.
  intros [Hrep Hidx] Hn Hlen. unfold represents, visited, z_items, z_remove in *. destruct z as [ps qs]. simpl in *.
  pose proof (rep_nodup _ _ _ Hrep) as [Hend Hnd]%NoDup_cons.
  apply elem_of_app in Hn as [Hn|Hn]; apply list_elem_of_split in Hn as (xs&ys&->).
  - rewrite <- app_assoc in *. simpl in *.
    assert (NoDup (xs ++ n :: ys)) as Hnd'.
    { rewrite app_comm_cons, app_assoc in Hnd. by apply NoDup_app in Hnd as (?&_&_). }
    assert (n ∉ qs) as Hq.
    { rewrite app_comm_cons, app_assoc in Hnd. apply NoDup_app in Hnd as (_&H&_). apply H. set_solver. }
    destruct (list_remove m l xs n (ys ++ qs) Hrep Hlen) as (m'&E&Hr&Hc&Ev&Ei).
    exists m'. rewrite filter_middle, (filter_absent n qs), <- !app_assoc by done. split; [done|].
    split; [|by split]. split; [done|].
    rewrite Ei, Hidx, last_node_app. destruct ys as [|y ys].
    + rewrite decide_True by done. by rewrite app_nil_r.
    + rewrite decide_False; [by rewrite last_node_cons, last_node_app|].
      intros [= Heq]. rewrite last_node_cons in Heq. pose proof (last_node_elem y ys) as Hl. rewrite Heq in Hl.
      apply NoDup_app in Hnd' as (_&_&[? _]%NoDup_cons). done.
  - rewrite app_assoc in *.
    assert (NoDup (xs ++ n :: ys)) as Hnd'.
    { rewrite <- app_assoc in Hnd. by apply NoDup_app in Hnd as (_&_&?). }
    assert (n ∉ ps) as Hp.
    { rewrite <- app_assoc in Hnd. apply NoDup_app in Hnd as (_&H&_). intros Hx. apply (H _ Hx). set_solver. }
    destruct (list_remove m l (ps ++ xs) n ys Hrep Hlen) as (m'&E&Hr&Hc&Ev&Ei).
    exists m'. rewrite filter_middle, (filter_absent n ps) by done. rewrite app_assoc. split; [done|].
    split; [|by split]. split; [done|].
    rewrite Ei, Hidx. rewrite decide_False; [done|]. intros [= Heq].
    pose proof (last_node_elem (ListEnd l) ps) as Hl. rewrite Heq in Hl. set_solver.
Qed.

Lemma z_next_spec m l z x z' : represents m l z → z_next z = Some (x, z') →
  ∃ m', listGET_OWNER_OF_NEXT_ENTRY l m = Done (x, m') ∧ represents m' l z'.
Proof.
  unfold represents, z_next. destruct z as [[|p ps] [|q qs]]; simpl; intros Hv E; simplify_eq/=.
  - by apply (next_entry _ _ []).
  - by apply next_entry_wrap.
  - by apply (next_entry _ _ (p :: ps)).
Qed.

(** ** Properties *)

(** Inserting an item ends, whatever the list holds, and puts
    the item behind the items of values up to its own (at the very end when
    its value is the end marker's, for which the code's loop would not stop);
    so a list sorted by value stays sorted, and items of equal value keep the
    order of their insertion. *)
Theorem list_insert_position fuel m l ns n :
  list_rep m l ns → n ∉ ListEnd l :: ns → len ns < 2 ^ 32 - 1 → is_u32 (xItemValue m n) →
  Forall (λ k, is_u32 (xItemValue m k)) ns → (length ns < fuel)%nat →
  ∃ m' xs ys, vListInsert fuel l n m = Done (tt, m') ∧ ns = xs ++ ys ∧ list_rep m' l (xs ++ n :: ys) ∧
    Forall (λ k, xItemValue m k <= xItemValue m n) xs ∧
    (∀ y ys', ys = y :: ys' → xItemValue m n < xItemValue m y) ∧
    (StronglySorted (λ a b, xItemValue m a <= xItemValue m b) ns →
     StronglySorted (λ a b, xItemValue m' a <= xItemValue m' b) (xs ++ n :: ys)).
Proof.
  intros Hrep Hn Hlen Hv Hvs Hf.
  destruct (list_insert fuel m l ns n) as (m' & E & Hrep' & Ev & _); [done..|].
  pose proof (place_app (xItemValue m) (xItemValue m n) ns) as Happ.
  pose proof (place_bounds (xItemValue m) (xItemValue m n) ns Hvs) as [Hxs Hys].
  destruct (place _ _ ns) as [xs ys]. simpl in *. subst ns.
  exists m', xs, ys. split_and!; try done. intros Hs. rewrite Ev. by apply sorted_middle.
Qed.

(** The linked lists implement zippers. Every operation of
    [list.c] returns and does to the memory what its abstract counterpart
    does to the items passed and the items ahead; the length that removal
    returns is that of the remaining list. So the scheduler's lists can be reasoned about without pointers. *)
Theorem list_is_zipper fuel m l z :
  represents m l z → len (z_items z) < 2 ^ 32 - 1 → (length (z_items z) < fuel)%nat →
  (∀ n, n ∉ ListEnd l :: z_items z →
     ∃ m', vListInsertEnd l n m = Done (tt, m') ∧ represents m' l (z_insert_end n z)) ∧
  (∀ n, n ∉ ListEnd l :: z_items z → is_u32 (xItemValue m n) →
     ∃ m', vListInsert fuel l n m = Done (tt, m') ∧ represents m' l (z_insert (xItemValue m) n z)) ∧
  (∀ n, n ∈ z_items z →
     ∃ m', uxListRemove n m = Done (len (z_items (z_remove n z)), m') ∧ represents m' l (z_remove n z) ∧
           pxContainer m' n = None) ∧
  (∀ x z', z_next z = Some (x, z') →
     ∃ m', listGET_OWNER_OF_NEXT_ENTRY l m = Done (x, m') ∧ represents m' l z').
Proof.
  intros Hz Hlen Hf. split_and!.
  - intros n Hn. destruct (z_insert_end_spec m l z n) as (m'&?&?&_); try done. by exists m'.
  - intros n Hn Hv. destruct (z_insert_spec fuel m l z n) as (m'&?&?&_); try done. by exists m'.
  - intros n Hn. destruct (z_remove_spec m l z n) as (m'&?&?&?&_); [done..|lia|]. by exists m'.
  - intros x z'. by apply z_next_spec.
Qed.

(** The walk round a list is fair. From any position, as many
    calls as the list has items yield every item once: those not yet visited in
    this round first, then those visited, in the order of the list. *)
Theorem list_round_robin m l xs ys : visited m l xs ys →
  ∃ m', entries (length ys + length xs) l m = Done (ys ++ xs, m') ∧ list_rep m' l (xs ++ ys).
Proof. apply list_round. Qed.

(** An item put in front of the index by [vListInsertEnd] is the
    last the walk yields, and [uxListRemove] takes it out again: the list, its
    count and its index are as before, and the item is in no list. *)
Theorem list_insert_remove m l xs ys n :
  list_rep m l (xs ++ ys) → pxIndex m l = Some (first_node ys (ListEnd l)) →
  n ∉ ListEnd l :: xs ++ ys → len (xs ++ ys) < 2 ^ 32 - 1 →
  ∃ m1 m2, vListInsertEnd l n m = Done (tt, m1) ∧ list_rep m1 l (xs ++ n :: ys) ∧
    uxListRemove n m1 = Done (len (xs ++ ys), m2) ∧ list_rep m2 l (xs ++ ys) ∧
    pxContainer m2 n = None ∧ pxIndex m2 l = pxIndex m l.
Proof.
  intros Hrep Hidx Hn Hlen. destruct (list_insert_end m l xs ys n) as (m1 & E1 & Hrep1 & _ & Ei1); [done..|].
  destruct (list_remove m1 l xs n ys) as (m2 & E2 & Hrep2 & Hc & _ & Ei2);
    [done|rewrite len_app, len_cons in *; lia|].
  exists m1, m2. split_and!; try done. rewrite Ei2, Ei1, Hidx. apply decide_False.
  intros [= <-]. apply Hn. unfold first_node. destruct ys; simpl; set_solver.
Qed.

(** ** A list *)

Module ListDemo.
(** Items whose values are their numbers, and a list with the items 3 and 5. *)
Definition blank : memory :=
  Memory (λ n, match n with Item i => i | ListEnd _ => 0 end) (λ _, None) (λ _, None) (λ _, None) (λ _, 7) (λ _, None).
Definition two : memory :=
  match (vListInitialise 0;; vListInsert 9 0 (Item 5);; vListInsert 9 0 (Item 3)) blank with
  | Done (_, m) => m
  | _ => blank
  end.
Lemma two_rep : list_rep two 0 [Item 3; Item 5].
Proof.
  split; [by vm_compute| | |by vm_compute|by vm_compute|].
  - apply NoDup_cons; split; [set_solver|]. apply NoDup_cons; split; [set_solver|]. apply NoDup_singleton.
  - intros n [->|[->|[]%not_elem_of_nil]%elem_of_cons]%elem_of_cons; by vm_compute.
  - exists (ListEnd 0). split; [by vm_compute|left].
Qed.
End ListDemo.

Lemma list_insert_position_witness :
  ∃ m' xs ys, vListInsert 3 0 (Item 4) ListDemo.two = Done (tt, m') ∧ [Item 3; Item 5] = xs ++ ys ∧
    list_rep m' 0 (xs ++ Item 4 :: ys).
Proof.
  destruct (list_insert_position 3 ListDemo.two 0 [Item 3; Item 5] (Item 4)) as (m' & xs & ys & E & Hns & Hrep & _);
    [apply ListDemo.two_rep|set_solver|by_compute|by_compute| |simpl; lia|by exists m', xs, ys].
  apply Forall_cons; split; [by_compute|]. apply Forall_cons; split; [by_compute|]. constructor.
Defined.

Lemma list_round_robin_witness :
  ∃ m', entries 2 0 ListDemo.two = Done ([Item 3; Item 5], m') ∧ list_rep m' 0 [Item 3; Item 5].
Proof.
  apply (list_round_robin ListDemo.two 0 [] [Item 3; Item 5]). split; [apply ListDemo.two_rep|by vm_compute].
Defined.

Lemma list_insert_remove_witness :
  ∃ m1 m2, vListInsertEnd 0 (Item 9) ListDemo.two = Done (tt, m1) ∧ list_rep m1 0 [Item 3; Item 5; Item 9] ∧
    uxListRemove (Item 9) m1 = Done (2, m2) ∧ list_rep m2 0 [Item 3; Item 5] ∧
    pxContainer m2 (Item 9) = None ∧ pxIndex m2 0 = pxIndex ListDemo.two 0.
Proof.
  apply (list_insert_remove ListDemo.two 0 [Item 3; Item 5] [] (Item 9));
    [apply ListDemo.two_rep|by vm_compute|set_solver|by_compute].
Defined.

Lemma list_is_zipper_witness :
  (∃ m', vListInsert 3 0 (Item 4) ListDemo.two = Done (tt, m') ∧
     represents m' 0 (Zipper [] [Item 3; Item 4; Item 5])) ∧
  (∃ m', listGET_OWNER_OF_NEXT_ENTRY 0 ListDemo.two = Done (Item 3, m') ∧
     represents m' 0 (Zipper [Item 3] [Item 5])).
Proof.
  destruct (list_is_zipper 3 ListDemo.two 0 (Zipper [] [Item 3; Item 5])) as (_&Hi&_&Hn).
  - split; [apply ListDemo.two_rep|by vm_compute].
  - by_compute.
  - simpl. lia.
  - split; [|by apply Hn].
    destruct (Hi (Item 4)) as (m'&E&Hr); [set_solver|by_compute|]. exists m'. split; [done|].
    replace (Zipper [] [Item 3; Item 4; Item 5]) with
      (z_insert (xItemValue ListDemo.two) (Item 4) (Zipper [] [Item 3; Item 5])); [done|by vm_compute].
Defined.
