(* ===== verification/Heap4.v ===== *)
(** * The kernel's heap

    [FreeRTOS/Source/portable/MemMang/heap_4.c]: the allocator behind tasks,
    queues and the TCP/IP stack, first fit with coalescing. The place and size
    of the array [ucHeap] are parameters, as is whether [configASSERT] stops
    the program (a [Fault] of the model) or is compiled out. Pointers are 32-bit
    addresses, 0 is [NULL]; the fields of the block headers are functions of the
    header's address, and the bytes of the application's data are kept apart.
    The suspension of the scheduler around each operation makes it atomic; the
    optional heap protector and the clearing on free are off, as in the
    firmware's configuration. *)

From Stdlib Require Import ZArith Lia.
From stdpp Require Import functions list sets.
From S2P Require Import Prelude.
Local Open Scope Z_scope.

(** ** Data *)

Definition portBYTE_ALIGNMENT : Z := 8.
Definition portBYTE_ALIGNMENT_MASK : Z := 7.
Definition heapSIZE_MAX : Z := 2 ^ 32 - 1.
Definition xHeapStructSize : Z := 8.
Definition heapMINIMUM_BLOCK_SIZE : Z := 16.
Definition heapBLOCK_ALLOCATED_BITMASK : Z := 2 ^ 31.

Definition heapMULTIPLY_WILL_OVERFLOW (a b : Z) : bool := (0 <? a) && (heapSIZE_MAX / a <? b).
Definition heapADD_WILL_OVERFLOW (a b : Z) : bool := heapSIZE_MAX - b <? a.
Definition heapSUBTRACT_WILL_UNDERFLOW (a b : Z) : bool := a <? b.
Definition heapBLOCK_SIZE_IS_VALID (size : Z) : bool := Z.land size heapBLOCK_ALLOCATED_BITMASK =? 0.

(** A pointer to a header: the marker [xStart] or the block at an address. *)
Inductive ref := xStart | Block (a : Z).
#[export] Instance ref_eq_dec : EqDecision ref.
Proof. solve_decision. Defined.

Record heap := Heap {
  pxNextFreeBlock : ref → Z;
  xBlockSize : ref → Z;
  pxEnd : Z;
  xFreeBytesRemaining : Z;
  xMinimumEverFreeBytesRemaining : Z;
  xNumberOfSuccessfulAllocations : Z;
  xNumberOfSuccessfulFrees : Z;
  contents : Z → Z;
}.

Definition set_next (r : ref) (a : Z) : ST heap unit := modify (λ h,
  Heap (<[r := a]> (pxNextFreeBlock h)) (xBlockSize h) (pxEnd h) (xFreeBytesRemaining h)
    (xMinimumEverFreeBytesRemaining h) (xNumberOfSuccessfulAllocations h) (xNumberOfSuccessfulFrees h) (contents h)).
Definition set_size (r : ref) (n : Z) : ST heap unit := modify (λ h,
  Heap (pxNextFreeBlock h) (<[r := n]> (xBlockSize h)) (pxEnd h) (xFreeBytesRemaining h)
    (xMinimumEverFreeBytesRemaining h) (xNumberOfSuccessfulAllocations h) (xNumberOfSuccessfulFrees h) (contents h)).
Definition set_end (a : Z) : ST heap unit := modify (λ h,
  Heap (pxNextFreeBlock h) (xBlockSize h) a (xFreeBytesRemaining h)
    (xMinimumEverFreeBytesRemaining h) (xNumberOfSuccessfulAllocations h) (xNumberOfSuccessfulFrees h) (contents h)).
Definition set_free (free min : Z) : ST heap unit := modify (λ h,
  Heap (pxNextFreeBlock h) (xBlockSize h) (pxEnd h) free
    min (xNumberOfSuccessfulAllocations h) (xNumberOfSuccessfulFrees h) (contents h)).
Definition set_counts (allocations frees : Z) : ST heap unit := modify (λ h,
  Heap (pxNextFreeBlock h) (xBlockSize h) (pxEnd h) (xFreeBytesRemaining h)
    (xMinimumEverFreeBytesRemaining h) allocations frees (contents h)).
(** [memset (pv, 0, n)] *)
Definition clear (pv n : Z) : ST heap unit := modify (λ h,
  Heap (pxNextFreeBlock h) (xBlockSize h) (pxEnd h) (xFreeBytesRemaining h)
    (xMinimumEverFreeBytesRemaining h) (xNumberOfSuccessfulAllocations h) (xNumberOfSuccessfulFrees h)
    (λ a, if (pv <=? a) && (a <? pv + n) then 0 else contents h a)).

Record HeapStats_t := HeapStats {
  xAvailableHeapSpaceInBytes : Z;
  xSizeOfLargestFreeBlockInBytes : Z;
  xSizeOfSmallestFreeBlockInBytes : Z;
  xNumberOfFreeBlocks : Z;
  stat_xMinimumEverFreeBytesRemaining : Z;
  stat_xNumberOfSuccessfulAllocations : Z;
  stat_xNumberOfSuccessfulFrees : Z;
}.

(** The size of the block for a request: header and alignment included, 0 when
    it does not fit in 32 bits. *)
Definition block_size (xWantedSize : Z) : Z :=
  if 0 <? xWantedSize then
    if negb (heapADD_WILL_OVERFLOW xWantedSize xHeapStructSize) then
      let xWantedSize := xWantedSize + xHeapStructSize in
      if negb (Z.land xWantedSize portBYTE_ALIGNMENT_MASK =? 0) then
        let xAdditionalRequiredSize := portBYTE_ALIGNMENT - Z.land xWantedSize portBYTE_ALIGNMENT_MASK in
        if negb (heapADD_WILL_OVERFLOW xWantedSize xAdditionalRequiredSize) then
          xWantedSize + xAdditionalRequiredSize
        else 0
      else xWantedSize
    else 0
  else xWantedSize.

(** ** Operations *)

Section operations.
Context (ucHeap configTOTAL_HEAP_SIZE : Z) (asserts : bool).

Definition configASSERT (b : bool) : ST heap unit :=
  if asserts && negb b then lift Fault else mret tt.

Definition heapVALIDATE_BLOCK_POINTER (a : Z) : ST heap unit :=
  configASSERT ((ucHeap <=? a) && (a <=? ucHeap + configTOTAL_HEAP_SIZE - 1)).

(** Addresses rounded up and down to the alignment. *)
Definition align_down (a : Z) : Z := Z.land a (2 ^ 32 - 1 - portBYTE_ALIGNMENT_MASK).

Definition prvHeapInit : ST heap unit :=
  let '(uxStartAddress, xTotalHeapSize) :=
    if negb (Z.land ucHeap portBYTE_ALIGNMENT_MASK =? 0) then
      let a := align_down (u32 (ucHeap + (portBYTE_ALIGNMENT - 1))) in
      (a, u32 (configTOTAL_HEAP_SIZE - u32 (a - ucHeap)))
    else (ucHeap, configTOTAL_HEAP_SIZE) in
  set_next xStart uxStartAddress;;
  set_size xStart 0;;
  let uxEndAddress := align_down (u32 (u32 (uxStartAddress + xTotalHeapSize) - xHeapStructSize)) in
  set_end uxEndAddress;;
  set_size (Block uxEndAddress) 0;;
  set_next (Block uxEndAddress) 0;;
  set_size (Block uxStartAddress) (u32 (uxEndAddress - uxStartAddress));;
  set_next (Block uxStartAddress) uxEndAddress;;
  h ← gets id;
  set_free (xBlockSize h (Block uxStartAddress)) (xBlockSize h (Block uxStartAddress)).

(** The search for a free block that is large enough. *)
Fixpoint find_block (fuel : nat) (pxPreviousBlock : ref) (pxBlock xWantedSize : Z) : ST heap (ref * Z) :=
  match fuel with
  | O => diverge
  | S fuel =>
      h ← gets id;
      if (xBlockSize h (Block pxBlock) <? xWantedSize) && negb (pxNextFreeBlock h (Block pxBlock) =? 0) then
        let next := pxNextFreeBlock h (Block pxBlock) in
        heapVALIDATE_BLOCK_POINTER next;;
        find_block fuel (Block pxBlock) next xWantedSize
      else mret (pxPreviousBlock, pxBlock)
  end.

(** The block at [pxBlock], behind [pxPreviousBlock] in the free list, is taken
    out of it; what it has too much becomes a free block in its place. *)
Definition take_block (pxPreviousBlock : ref) (pxBlock xWantedSize : Z) : ST heap Z :=
  h ← gets id;
  let pvReturn := u32 (pxNextFreeBlock h pxPreviousBlock + xHeapStructSize) in
  heapVALIDATE_BLOCK_POINTER pvReturn;;
  set_next pxPreviousBlock (pxNextFreeBlock h (Block pxBlock));;
  configASSERT (negb (heapSUBTRACT_WILL_UNDERFLOW (xBlockSize h (Block pxBlock)) xWantedSize));;
  (if heapMINIMUM_BLOCK_SIZE <? u32 (xBlockSize h (Block pxBlock) - xWantedSize) then
     let pxNewBlockLink := u32 (pxBlock + xWantedSize) in
     configASSERT (Z.land pxNewBlockLink portBYTE_ALIGNMENT_MASK =? 0);;
     set_size (Block pxNewBlockLink) (u32 (xBlockSize h (Block pxBlock) - xWantedSize));;
     set_size (Block pxBlock) xWantedSize;;
     h ← gets id;
     set_next (Block pxNewBlockLink) (pxNextFreeBlock h pxPreviousBlock);;
     set_next pxPreviousBlock pxNewBlockLink
   else mret tt);;
  h ← gets id;
  let free := u32 (xFreeBytesRemaining h - xBlockSize h (Block pxBlock)) in
  set_free free (if free <? xMinimumEverFreeBytesRemaining h then free else xMinimumEverFreeBytesRemaining h);;
  set_size (Block pxBlock) (Z.lor (xBlockSize h (Block pxBlock)) heapBLOCK_ALLOCATED_BITMASK);;
  set_next (Block pxBlock) 0;;
  set_counts (u32 (xNumberOfSuccessfulAllocations h + 1)) (xNumberOfSuccessfulFrees h);;
  mret pvReturn.

Definition pvPortMalloc (fuel : nat) (xWantedSize : Z) : ST heap Z :=
  let xWantedSize := block_size xWantedSize in
  h ← gets id;
  (if pxEnd h =? 0 then prvHeapInit else mret tt);;
  h ← gets id;
  pvReturn ← (
    if heapBLOCK_SIZE_IS_VALID xWantedSize then
      if (0 <? xWantedSize) && (xWantedSize <=? xFreeBytesRemaining h) then
        let first := pxNextFreeBlock h xStart in
        heapVALIDATE_BLOCK_POINTER first;;
        '(pxPreviousBlock, pxBlock) ← find_block fuel xStart first xWantedSize;
        if negb (pxBlock =? pxEnd h) then take_block pxPreviousBlock pxBlock xWantedSize
        else mret 0
      else mret 0
    else mret 0);
  configASSERT (Z.land pvReturn portBYTE_ALIGNMENT_MASK =? 0);;
  mret pvReturn.

(** The place of a block in the free list: the last free block before it. *)
Fixpoint find_place (fuel : nat) (pxIterator : ref) (pxBlockToInsert : Z) : ST heap ref :=
  match fuel with
  | O => diverge
  | S fuel =>
      h ← gets id;
      if pxNextFreeBlock h pxIterator <? pxBlockToInsert then
        find_place fuel (Block (pxNextFreeBlock h pxIterator)) pxBlockToInsert
      else mret pxIterator
  end.

(** [puc + xBlockSize == pxBlock]: does the block at [r] end where [a] begins?
    The marker is an object of its own, outside the heap. *)
Definition ends_at (h : heap) (r : ref) (a : Z) : bool :=
  match r with
  | xStart => false
  | Block b => u32 (b + xBlockSize h (Block b)) =? a
  end.

Definition prvInsertBlockIntoFreeList (fuel : nat) (pxBlockToInsert : Z) : ST heap unit :=
  pxIterator ← find_place fuel xStart pxBlockToInsert;
  (match pxIterator with
   | xStart => mret tt
   | Block a => heapVALIDATE_BLOCK_POINTER a
   end);;
  h ← gets id;
  pxBlock ← (
    if ends_at h pxIterator pxBlockToInsert then
      set_size pxIterator (u32 (xBlockSize h pxIterator + xBlockSize h (Block pxBlockToInsert)));;
      mret pxIterator
    else mret (Block pxBlockToInsert));
  h ← gets id;
  let next := pxNextFreeBlock h pxIterator in
  (if ends_at h pxBlock next then
     if negb (next =? pxEnd h) then
       set_size pxBlock (u32 (xBlockSize h pxBlock + xBlockSize h (Block next)));;
       set_next pxBlock (pxNextFreeBlock h (Block next))
     else set_next pxBlock (pxEnd h)
   else set_next pxBlock next);;
  if decide (pxIterator = pxBlock) then mret tt
  else match pxBlock with Block a => set_next pxIterator a | xStart => mret tt end.

Definition vPortFree (fuel : nat) (pv : Z) : ST heap unit :=
  if pv =? 0 then mret tt else
  let puc := u32 (pv - xHeapStructSize) in
  heapVALIDATE_BLOCK_POINTER puc;;
  h ← gets id;
  let allocated := negb (Z.land (xBlockSize h (Block puc)) heapBLOCK_ALLOCATED_BITMASK =? 0) in
  let unlinked := pxNextFreeBlock h (Block puc) =? 0 in
  configASSERT allocated;;
  configASSERT unlinked;;
  if allocated then
    if unlinked then
      set_size (Block puc) (Z.land (xBlockSize h (Block puc)) (2 ^ 32 - 1 - heapBLOCK_ALLOCATED_BITMASK));;
      h ← gets id;
      set_free (u32 (xFreeBytesRemaining h + xBlockSize h (Block puc))) (xMinimumEverFreeBytesRemaining h);;
      prvInsertBlockIntoFreeList fuel puc;;
      h ← gets id;
      set_counts (xNumberOfSuccessfulAllocations h) (u32 (xNumberOfSuccessfulFrees h + 1))
    else mret tt
  else mret tt.

Definition xPortGetFreeHeapSize : ST heap Z := gets xFreeBytesRemaining.
Definition xPortGetMinimumEverFreeHeapSize : ST heap Z := gets xMinimumEverFreeBytesRemaining.
Definition vPortInitialiseBlocks : ST heap unit := mret tt.

Definition pvPortCalloc (fuel : nat) (xNum xSize : Z) : ST heap Z :=
  if negb (heapMULTIPLY_WILL_OVERFLOW xNum xSize) then
    pv ← pvPortMalloc fuel (xNum * xSize);
    (if negb (pv =? 0) then clear pv (xNum * xSize) else mret tt);;
    mret pv
  else mret 0.

(** The walk over the free blocks: their number, the largest and the smallest. *)
Fixpoint stats_loop (fuel : nat) (h : heap) (pxBlock xBlocks xMaxSize xMinSize : Z) : outcome (Z * Z * Z) :=
  match fuel with
  | O => Diverge
  | S fuel =>
      if negb (pxBlock =? pxEnd h) then
        let size := xBlockSize h (Block pxBlock) in
        stats_loop fuel h (pxNextFreeBlock h (Block pxBlock)) (u32 (xBlocks + 1))
          (if xMaxSize <? size then size else xMaxSize) (if size <? xMinSize then size else xMinSize)
      else Done (xBlocks, xMaxSize, xMinSize)
  end.

Definition vPortGetHeapStats (fuel : nat) : ST heap HeapStats_t :=
  h ← gets id;
  '(xBlocks, xMaxSize, xMinSize) ← lift (
    if negb (pxNextFreeBlock h xStart =? 0)
    then stats_loop fuel h (pxNextFreeBlock h xStart) 0 0 (2 ^ 32 - 1)
    else mret (0, 0, 2 ^ 32 - 1));
  mret (HeapStats (xFreeBytesRemaining h) xMaxSize xMinSize xBlocks (xMinimumEverFreeBytesRemaining h)
    (xNumberOfSuccessfulAllocations h) (xNumberOfSuccessfulFrees h)).

Definition vPortHeapResetState : ST heap unit :=
  set_end 0;; set_free 0 0;; set_counts 0 0.
End operations.

(** ** The heap as a sequence of blocks

    A block is its size, header included, and whether it is free; the blocks
    tile the heap from its start to the end marker. *)

Abbreviation block := (Z * bool)%type.

Fixpoint total (bs : list block) : Z :=
  match bs with [] => 0 | (s, _) :: bs => s + total bs end.
Fixpoint free_total (bs : list block) : Z :=
  match bs with [] => 0 | (s, f) :: bs => (if f : bool then s else 0) + free_total bs end.
(** The addresses of the free blocks when the first block is at [a]. *)
Fixpoint frees (a : Z) (bs : list block) : list Z :=
  match bs with [] => [] | (s, f) :: bs => (if f : bool then [a] else []) ++ frees (a + s) bs end.

Definition good_size (s : Z) : Prop := 16 <= s ∧ s mod 8 = 0.
Definition good_sizes (bs : list block) : Prop := Forall (λ b, good_size b.1) bs.

(** No two free blocks in a row. *)
Fixpoint coalesced (bs : list block) : Prop :=
  match bs with
  | (_, f) :: bs' => match bs' with (_, f') :: _ => f && f' = false | [] => True end ∧ coalesced bs'
  | [] => True
  end.

(** The headers of the blocks from address [a] on. *)
Fixpoint headers (nx sz : ref → Z) (a : Z) (bs : list block) : Prop :=
  match bs with
  | [] => True
  | (s, f) :: bs =>
      (if f : bool then sz (Block a) = s else sz (Block a) = s + 2 ^ 31 ∧ nx (Block a) = 0) ∧
      headers nx sz (a + s) bs
  end.

(** The free list: from [r] through the blocks at [fs] to [e]. *)
Fixpoint links (nx : ref → Z) (r : ref) (fs : list Z) (e : Z) : Prop :=
  match fs with
  | [] => nx r = e
  | a :: fs => nx r = a ∧ links nx (Block a) fs e
  end.

Definition last_ref (r : ref) (fs : list Z) : ref := match last fs with Some a => Block a | None => r end.

Lemma last_ref_cons r a fs : last_ref r (a :: fs) = last_ref (Block a) fs.
Proof. unfold last_ref. rewrite last_cons. by destruct (last fs). Qed.

Lemma links_app nx r fs1 a fs2 e :
  links nx r (fs1 ++ a :: fs2) e ↔ links nx r fs1 a ∧ links nx (Block a) fs2 e.
Proof. revert r. induction fs1 as [|b fs1 IH]; intros r; simpl; [done|]. rewrite IH. tauto. Qed.

Lemma links_last nx r fs e : links nx r fs e → nx (last_ref r fs) = e.
Proof. revert r. induction fs as [|a fs IH]; intros r; [done|]. rewrite last_ref_cons. simpl. intros [_ H]. by apply IH. Qed.

Lemma links_head nx r fs e : links nx r fs e → nx r = default e (head fs).
Proof. destruct fs; simpl; [done|by intros [? _]]. Qed.

Lemma links_frame nx nx' r fs e : links nx r fs e → (∀ k, k ∈ r :: map Block fs → nx' k = nx k) → links nx' r fs e.
Proof.
  revert r. induction fs as [|a fs IH]; simpl; intros r Hl Hk.
  - by rewrite Hk by left.
  - destruct Hl. rewrite Hk by left. split; [done|]. apply IH; [done|]. intros. apply Hk. by right.
Qed.

Lemma last_ref_elem r fs : last_ref r fs ∈ r :: map Block fs.
Proof.
  unfold last_ref. destruct (last fs) as [a|] eqn:E; [|left]. right.
  apply last_Some in E as [l ->]. rewrite map_app. set_solver.
Qed.

Lemma links_retarget nx nx' r fs e e' :
  links nx r fs e → NoDup (r :: map Block fs) →
  (∀ k, k ∈ r :: map Block fs → k ≠ last_ref r fs → nx' k = nx k) → nx' (last_ref r fs) = e' →
  links nx' r fs e'.
Proof.
  revert r. induction fs as [|a fs IH]; intros r Hl Hnd Hk He; [done|].
  rewrite last_ref_cons in *. simpl in *. destruct Hl as [H1 H2]. apply NoDup_cons in Hnd as [Hr Hnd]. split.
  - rewrite Hk; [done|left|]. intros ->. apply Hr. apply (last_ref_elem (Block a) fs).
  - apply IH; [done|done| |done]. intros k Hin Hne. apply Hk; [by right|done].
Qed.

(** ** Addresses of blocks *)

Lemma total_app bs1 bs2 : total (bs1 ++ bs2) = total bs1 + total bs2.
Proof. induction bs1 as [|[s f] bs1 IH]; simpl; lia. Qed.
Lemma free_total_app bs1 bs2 : free_total (bs1 ++ bs2) = free_total bs1 + free_total bs2.
Proof. induction bs1 as [|[s f] bs1 IH]; simpl; lia. Qed.
Lemma frees_app a bs1 bs2 : frees a (bs1 ++ bs2) = frees a bs1 ++ frees (a + total bs1) bs2.
Proof.
  revert a. induction bs1 as [|[s f] bs1 IH]; intros a; simpl; [by rewrite Z.add_0_r|].
  rewrite IH, app_assoc. do 2 f_equal. lia.
Qed.
Lemma headers_app nx sz a bs1 bs2 :
  headers nx sz a (bs1 ++ bs2) ↔ headers nx sz a bs1 ∧ headers nx sz (a + total bs1) bs2.
Proof.
  revert a. induction bs1 as [|[s f] bs1 IH]; intros a; simpl; [rewrite Z.add_0_r; tauto|].
  rewrite IH. replace (a + s + total bs1) with (a + (s + total bs1)) by lia. tauto.
Qed.

Lemma good_sizes_app bs1 bs2 : good_sizes (bs1 ++ bs2) ↔ good_sizes bs1 ∧ good_sizes bs2.
Proof. apply Forall_app. Qed.
Lemma good_sizes_cons s f bs : good_sizes ((s, f) :: bs) ↔ good_size s ∧ good_sizes bs.
Proof. unfold good_sizes. by rewrite Forall_cons. Qed.

Lemma total_bounds bs : good_sizes bs → 0 <= free_total bs <= total bs ∧ total bs mod 8 = 0.
Proof.
  induction bs as [|[s f] bs IH]; [done|]. intros [[H1 H2] H3]%good_sizes_cons. specialize (IH H3).
  simpl. destruct f; split; try lia; Z.to_euclidean_division_equations; lia.
Qed.

Lemma frees_bounds a bs x : good_sizes bs → x ∈ frees a bs → a <= x <= a + total bs - 16 ∧ (x - a) mod 8 = 0.
Proof.
  revert a. induction bs as [|[s f] bs IH]; simpl; intros a Hg Hx; [by apply not_elem_of_nil in Hx|].
  apply good_sizes_cons in Hg as [[H1 H2] Hg]. pose proof (total_bounds bs Hg).
  apply elem_of_app in Hx as [Hx|Hx].
  - destruct f; [apply list_elem_of_singleton in Hx as ->|by apply not_elem_of_nil in Hx].
    rewrite Z.sub_diag. split; [lia|done].
  - specialize (IH _ Hg Hx). split; [lia|]. Z.to_euclidean_division_equations; lia.
Qed.

Lemma frees_nodup a bs : good_sizes bs → NoDup (frees a bs).
Proof.
  revert a. induction bs as [|[s f] bs IH]; intros a Hg; simpl; [constructor|].
  apply good_sizes_cons in Hg as [[H1 _] Hg]. destruct f; [|by apply IH].
  apply NoDup_cons. split; [|by apply IH]. intros Hx. apply frees_bounds in Hx; [lia|done].
Qed.

(** The headers depend on the sizes in the range of the blocks, and on the next
    pointers of the allocated ones. *)
Lemma headers_frame nx sz nx' sz' a bs :
  headers nx sz a bs → good_sizes bs →
  (∀ x, a <= x < a + total bs → sz' (Block x) = sz (Block x)) →
  (∀ x, a <= x < a + total bs → x ∉ frees a bs → nx' (Block x) = nx (Block x)) →
  headers nx' sz' a bs.
Proof.
  revert a. induction bs as [|[s f] bs IH]; simpl; intros a Hh Hg Hsz Hnx; [done|].
  apply good_sizes_cons in Hg as [[H1 _] Hg]. pose proof (total_bounds bs Hg).
  destruct Hh as [Hh1 Hh2]. split.
  - rewrite Hsz by lia. destruct f; [done|]. simpl in Hnx. rewrite Hnx; [done|lia|].
    intros Hx. apply frees_bounds in Hx; [lia|done].
  - apply IH; [done|done| |]; intros x Hx.
    + apply Hsz. lia.
    + intros Hx2. apply Hnx; [lia|]. intros [Hx3|Hx3]%elem_of_app; [|done].
      destruct f; [apply list_elem_of_singleton in Hx3; lia|by apply not_elem_of_nil in Hx3].
Qed.

(** ** First fit *)

(** The first free block of at least [w] bytes: the blocks before it, its size,
    the blocks behind it. *)
Fixpoint first_fit (w : Z) (bs : list block) : option (list block * Z * list block) :=
  match bs with
  | [] => None
  | (s, f) :: bs =>
      if (f : bool) && (w <=? s) then Some ([], s, bs)
      else '(pre, s', post) ← first_fit w bs; Some ((s, f) :: pre, s', post)
  end.

(** What an allocation of [w] bytes does to the blocks: the offset of the block
    given out, and the blocks afterwards. *)
Definition allocate (w : Z) (bs : list block) : option (Z * list block) :=
  '(pre, s, post) ← first_fit w bs;
  Some (total pre, pre ++ (if 16 <? s - w then [(w, false); (s - w, true)] else [(s, false)]) ++ post).

Lemma first_fit_Some w bs pre s post : first_fit w bs = Some (pre, s, post) →
  bs = pre ++ (s, true) :: post ∧ w <= s ∧ Forall (λ b, b.2 = true → b.1 < w) pre.
Proof.
  revert pre. induction bs as [|[s0 f] bs IH]; intros pre; [done|]. simpl.
  destruct (f && (w <=? s0)) eqn:E.
  - intros [= <- <- <-]. apply andb_true_iff in E as [-> ?%Z.leb_le]. split_and!; done || constructor.
  - destruct (first_fit w bs) as [[[pre' s'] post']|] eqn:Eb; [|done]. simpl. intros [= <- <- <-].
    destruct (IH _ eq_refl) as (-> & ? & ?). split_and!; [done..|]. constructor; [|done]. simpl. intros ->.
    by apply Z.leb_gt in E.
Qed.

Lemma first_fit_None w bs : first_fit w bs = None → Forall (λ b, b.2 = true → b.1 < w) bs.
Proof.
  induction bs as [|[s0 f] bs IH]; [constructor|]. simpl. destruct (f && (w <=? s0)) eqn:E; [done|].
  destruct (first_fit w bs) as [[[pre' s'] post']|]; [done|]. intros _. constructor; [|by apply IH].
  simpl. intros ->. by apply Z.leb_gt in E.
Qed.

Lemma frees_size nx sz a bs x : headers nx sz a bs → x ∈ frees a bs → ∃ s, (s, true) ∈ bs ∧ sz (Block x) = s.
Proof.
  revert a. induction bs as [|[s f] bs IH]; simpl; intros a Hh Hx; [by apply not_elem_of_nil in Hx|].
  destruct Hh as [Hs Hh]. apply elem_of_app in Hx as [Hx|Hx].
  - destruct f; [|by apply not_elem_of_nil in Hx]. apply list_elem_of_singleton in Hx as ->.
    exists s. split; [left|done].
  - destruct (IH _ Hh Hx) as (s' & ? & ?). exists s'. split; [by right|done].
Qed.

Lemma frees_small nx sz a bs w : headers nx sz a bs → Forall (λ b, b.2 = true → b.1 < w) bs →
  ∀ x, x ∈ frees a bs → sz (Block x) < w.
Proof.
  intros Hh Hf x Hx. destruct (frees_size _ _ _ _ _ Hh Hx) as (s & Hs & ->).
  rewrite Forall_forall in Hf. by apply (Hf _ Hs).
Qed.

(** Neighbouring free blocks joined: what releasing a block aims at. *)
Fixpoint merge (bs : list block) : list block :=
  match bs with
  | [] => []
  | (s, f) :: bs =>
      match f, merge bs with
      | true, (s', true) :: bs' => (s + s', true) :: bs'
      | _, bs' => (s, f) :: bs'
      end
  end.

(** ** Bit operations *)

Lemma land_7 a : Z.land a 7 = a mod 8.
Proof. apply (Z.land_ones a 3). lia. Qed.

Lemma align_down_eq a : 0 <= a < 2 ^ 32 → align_down a = a / 8 * 8.
Proof.
  intros Ha. unfold align_down. change (2 ^ 32 - 1 - portBYTE_ALIGNMENT_MASK) with (Z.shiftl (Z.ones 29) 3).
  change 8 with (2 ^ 3). rewrite <- Z.shiftr_div_pow2, <- Z.shiftl_mul_pow2 by lia.
  rewrite <- (Z.mod_small (Z.shiftr a 3) (2 ^ 29)).
  2: { rewrite Z.shiftr_div_pow2 by lia. Z.to_euclidean_division_equations; lia. }
  rewrite <- Z.land_ones by lia. apply Z.bits_inj'. intros i Hi. rewrite Z.land_spec.
  destruct (decide (i < 3)).
  - rewrite !Z.shiftl_spec_low by lia. apply andb_false_r.
  - rewrite !Z.shiftl_spec, Z.land_spec, Z.shiftr_spec by lia. by replace (i - 3 + 3) with i by lia.
Qed.

Lemma allocated_lor s : 0 <= s < 2 ^ 31 → Z.lor s heapBLOCK_ALLOCATED_BITMASK = s + 2 ^ 31.
Proof.
  intros. unfold heapBLOCK_ALLOCATED_BITMASK. rewrite Z.lor_comm. change (2 ^ 31) with (Z.shiftl 1 31) at 1.
  rewrite lor_shiftl_low by lia. lia.
Qed.

Lemma valid_small s : 0 <= s < 2 ^ 31 → heapBLOCK_SIZE_IS_VALID s = true.
Proof.
  intros. unfold heapBLOCK_SIZE_IS_VALID, heapBLOCK_ALLOCATED_BITMASK. apply Z.eqb_eq.
  rewrite Z.land_comm. change (2 ^ 31) with (Z.shiftl 1 31). apply land_shiftl_low; lia.
Qed.

Lemma allocated_land s : 0 <= s < 2 ^ 31 → Z.land (s + 2 ^ 31) heapBLOCK_ALLOCATED_BITMASK = 2 ^ 31.
Proof.
  intros. rewrite <- allocated_lor by done. rewrite Z.land_lor_distr_l, Z.land_diag.
  pose proof (valid_small s H) as Hv. apply Z.eqb_eq in Hv. by rewrite Hv.
Qed.

Lemma valid_large s : 2 ^ 31 <= s < 2 ^ 32 → heapBLOCK_SIZE_IS_VALID s = false.
Proof.
  intros. unfold heapBLOCK_SIZE_IS_VALID. replace s with (s - 2 ^ 31 + 2 ^ 31) by lia.
  by rewrite allocated_land by lia.
Qed.

Lemma freed_land s : 0 <= s < 2 ^ 31 → Z.land (s + 2 ^ 31) (2 ^ 32 - 1 - heapBLOCK_ALLOCATED_BITMASK) = s.
Proof.
  intros. change (2 ^ 32 - 1 - heapBLOCK_ALLOCATED_BITMASK) with (Z.ones 31).
  rewrite Z.land_ones by lia. Z.to_euclidean_division_equations; lia.
Qed.

(** The size of the block for a request of [n] bytes. *)
Lemma block_size_spec n : is_u32 n →
  (block_size n = 0 ∨ (16 <= block_size n < 2 ^ 32 ∧ n + 8 <= block_size n <= n + 15)) ∧
  block_size n mod 8 = 0 ∧ (0 < n → n < 2 ^ 32 - 16 → block_size n = (n + 15) / 8 * 8).
Proof.
  unfold is_u32. intros Hn. unfold block_size, heapADD_WILL_OVERFLOW, heapSIZE_MAX, xHeapStructSize,
    portBYTE_ALIGNMENT_MASK, portBYTE_ALIGNMENT. rewrite land_7.
  case (Z.ltb_spec 0 n); intros H0; [|replace n with 0 by lia; split; [by left|split; [done|lia]]].
  case (Z.ltb_spec (2 ^ 32 - 1 - 8) n); intros H1; cbn [negb]; [split; [by left|split; [done|lia]]|].
  case (Z.eqb_spec ((n + 8) mod 8) 0); intros H2; cbn [negb].
  { split; [right|split]; Z.to_euclidean_division_equations; lia. }
  case (Z.ltb_spec (2 ^ 32 - 1 - (8 - (n + 8) mod 8)) (n + 8)); intros H3; cbn [negb].
  - split; [by left|split; [done|]]. Z.to_euclidean_division_equations; lia.
  - split; [right|split]; Z.to_euclidean_division_equations; lia.
Qed.

(** ** The representation *)

Section representation.
Context (ucHeap configTOTAL_HEAP_SIZE : Z) (asserts : bool).

(** Where the array lies: not at address 0, within the 32-bit address space,
    large enough for one block and smaller than half of that space. *)
Definition heap_config : Prop :=
  0 < ucHeap ∧ ucHeap + configTOTAL_HEAP_SIZE < 2 ^ 32 ∧ 64 <= configTOTAL_HEAP_SIZE < 2 ^ 31.

Definition heap_start : Z := (ucHeap + 7) / 8 * 8.
Definition heap_end : Z := (ucHeap + configTOTAL_HEAP_SIZE - 8) / 8 * 8.

Record heap_rep (h : heap) (bs : list block) : Prop := {
  rep_end : pxEnd h = heap_end;
  rep_total : heap_start + total bs = heap_end;
  rep_headers : headers (pxNextFreeBlock h) (xBlockSize h) heap_start bs;
  rep_links : links (pxNextFreeBlock h) xStart (frees heap_start bs) heap_end;
  rep_end_next : pxNextFreeBlock h (Block heap_end) = 0;
  rep_end_size : xBlockSize h (Block heap_end) = 0;
  rep_sizes : good_sizes bs;
  rep_coalesced : coalesced bs;
  rep_free : xFreeBytesRemaining h = free_total bs;
  rep_minimum : 0 <= xMinimumEverFreeBytesRemaining h <= xFreeBytesRemaining h;
}.

Lemma config_bounds : heap_config →
  0 < heap_start ∧ ucHeap <= heap_start ∧ heap_start + 16 <= heap_end ∧
  heap_end + 8 <= ucHeap + configTOTAL_HEAP_SIZE ∧ heap_start mod 8 = 0 ∧ heap_end mod 8 = 0 ∧
  heap_end - heap_start < 2 ^ 31 ∧ heap_end < 2 ^ 32 - 8.
Proof.
  intros (H1 & H2 & H3). unfold heap_start, heap_end. Z.to_euclidean_division_equations; lia.
Qed.

Lemma assert_true b : b = true → configASSERT asserts b = mret tt.
Proof. intros ->. unfold configASSERT. by rewrite andb_false_r. Qed.

Lemma validate_ok a : ucHeap <= a < ucHeap + configTOTAL_HEAP_SIZE →
  heapVALIDATE_BLOCK_POINTER ucHeap configTOTAL_HEAP_SIZE asserts a = mret tt.
Proof.
  intros. apply assert_true. rewrite (proj2 (Z.leb_le _ _)) by lia. apply Z.leb_le. lia.
Qed.

Context (Hcfg : heap_config).

Lemma frees_valid bs x : good_sizes bs → heap_start + total bs = heap_end → x ∈ frees heap_start bs →
  ucHeap <= x < ucHeap + configTOTAL_HEAP_SIZE ∧ 0 < x.
Proof. intros Hg Ht Hx. apply frees_bounds in Hx as [Hx _]; [|done]. pose proof (config_bounds Hcfg). lia. Qed.

(** The search passes over the free blocks that are too small. *)
Lemma find_block_skip fs1 fs2 fuel r w h :
  links (pxNextFreeBlock h) r (fs1 ++ fs2) heap_end →
  (∀ x, x ∈ fs1 → xBlockSize h (Block x) < w) →
  (∀ x, x ∈ fs1 ++ fs2 → ucHeap <= x < ucHeap + configTOTAL_HEAP_SIZE ∧ 0 < x) →
  find_block ucHeap configTOTAL_HEAP_SIZE asserts (length fs1 + fuel) r (pxNextFreeBlock h r) w h =
  find_block ucHeap configTOTAL_HEAP_SIZE asserts fuel (last_ref r fs1)
    (pxNextFreeBlock h (last_ref r fs1)) w h.
Proof.
  revert r. induction fs1 as [|a fs1 IH]; intros r Hl Hs Hv; [done|].
  rewrite last_ref_cons. simpl in Hl. destruct Hl as [Hr Hl].
  cbn [length Nat.add find_block]. rewrite gets_id, Hr.
  rewrite (proj2 (Z.ltb_lt _ _)) by (apply Hs; left). cbn [andb].
  assert (ucHeap <= pxNextFreeBlock h (Block a) < ucHeap + configTOTAL_HEAP_SIZE ∧
          0 < pxNextFreeBlock h (Block a)) as [Hb Hp].
  { rewrite (links_head _ _ _ _ Hl). destruct (fs1 ++ fs2) as [|b fs] eqn:E; simpl.
    - pose proof (config_bounds Hcfg). lia.
    - apply Hv. rewrite <- app_comm_cons, E. right. left. }
  rewrite (proj2 (Z.eqb_neq _ _)) by lia. cbn [negb]. rewrite validate_ok by done. rewrite ret_bind.
  apply IH; [done|..]; intros x Hx; [apply Hs|apply Hv]; by right.
Qed.

(** The search finds the first free block that is large enough, or the end. *)
Lemma find_block_spec fs1 fs2 fuel r w h :
  links (pxNextFreeBlock h) r (fs1 ++ fs2) heap_end → 0 < w →
  (∀ x, x ∈ fs1 → xBlockSize h (Block x) < w) →
  (∀ x, x ∈ fs1 ++ fs2 → ucHeap <= x < ucHeap + configTOTAL_HEAP_SIZE ∧ 0 < x) →
  (match fs2 with
   | [] => xBlockSize h (Block heap_end) = 0 ∧ pxNextFreeBlock h (Block heap_end) = 0
   | x :: _ => w <= xBlockSize h (Block x)
   end) → (length fs1 < fuel)%nat →
  find_block ucHeap configTOTAL_HEAP_SIZE asserts fuel r (pxNextFreeBlock h r) w h =
  Done ((last_ref r fs1, default heap_end (head fs2)), h).
Proof.
  intros Hl Hw Hs Hv H2 Hf. replace fuel with (length fs1 + S (fuel - length fs1 - 1))%nat by lia.
  rewrite (find_block_skip fs1 fs2) by done.
  assert (pxNextFreeBlock h (last_ref r fs1) = default heap_end (head fs2)) as ->.
  { destruct fs2 as [|x fs2]; [rewrite app_nil_r in Hl|apply links_app in Hl as [Hl _]]; by apply links_last in Hl. }
  cbn [find_block]. rewrite gets_id. destruct fs2 as [|x fs2]; simpl.
  - destruct H2 as [-> ->]. rewrite Z.eqb_refl, andb_false_r. done.
  - rewrite (proj2 (Z.ltb_ge _ _)) by done. done.
Qed.

Lemma links_cat nx r f1 f2 e :
  links nx r (f1 ++ f2) e ↔ links nx r f1 (default e (head f2)) ∧ links nx (last_ref r f1) f2 e.
Proof.
  destruct f2 as [|x f2]; simpl.
  - rewrite app_nil_r. split; [intros H; split; [done|by apply links_last in H]|by intros [? _]].
  - rewrite links_app. split; [intros [H1 H2]|intros [H1 [_ H2]]]; split; try done.
    split; [by apply links_last in H1|done].
Qed.

Definition head_free (bs : list block) : bool := match bs with (_, f) :: _ => f | [] => false end.
Definition last_free (bs : list block) : bool := match last bs with Some (_, f) => f | None => false end.

Lemma coalesced_app bs1 bs2 :
  coalesced (bs1 ++ bs2) ↔ coalesced bs1 ∧ coalesced bs2 ∧ last_free bs1 && head_free bs2 = false.
Proof.
  induction bs1 as [|[s f] bs1 IH]; [simpl; unfold last_free; simpl; tauto|].
  cbn [app coalesced]. rewrite IH. destruct bs1 as [|[s1 f1] bs1]; simpl.
  - unfold last_free. simpl. destruct bs2 as [|[s2 f2] bs2]; simpl; [rewrite andb_false_r|]; tauto.
  - unfold last_free. rewrite last_cons_cons. tauto.
Qed.

(** Replacing the blocks [mid] by [mid'] on the same addresses: what is left to
    show is local. *)
Lemma replace_rep h h' pre mid mid' post :
  heap_rep h (pre ++ mid ++ post) →
  let a := heap_start + total pre in
  let p := last_ref xStart (frees heap_start pre) in
  let e := default heap_end (head (frees (a + total mid) post)) in
  total mid' = total mid → good_sizes mid' → coalesced (pre ++ mid' ++ post) →
  pxEnd h' = heap_end →
  (∀ x, ¬ (a <= x < a + total mid) → xBlockSize h' (Block x) = xBlockSize h (Block x)) →
  (∀ k, k ≠ p → (∀ x, a <= x < a + total mid → k ≠ Block x) → pxNextFreeBlock h' k = pxNextFreeBlock h k) →
  headers (pxNextFreeBlock h') (xBlockSize h') a mid' →
  links (pxNextFreeBlock h') p (frees a mid') e →
  xFreeBytesRemaining h' = xFreeBytesRemaining h - free_total mid + free_total mid' →
  0 <= xMinimumEverFreeBytesRemaining h' <= xFreeBytesRemaining h' →
  heap_rep h' (pre ++ mid' ++ post).
Proof.
  intros [Hend Htot Hh Hl Hen Hes Hg Hc Hf Hm] a p e Ht' Hg' Hc' Hend' Hsz Hnx Hh' Hl' Hf' Hm'.
  rewrite !total_app in Htot. apply good_sizes_app in Hg as [Hg1 [Hg2 Hg3]%good_sizes_app].
  apply headers_app in Hh as [Hh1 [Hh2 Hh3]%headers_app].
  rewrite !frees_app in Hl. apply links_cat in Hl as [Hl1 [Hl2 Hl3]%links_cat]. fold a in Hh1, Hh2, Hh3, Hl1, Hl2, Hl3.
  pose proof (total_bounds pre Hg1). pose proof (total_bounds mid Hg2). pose proof (total_bounds post Hg3).
  assert (∀ x, x ∈ frees heap_start pre → heap_start <= x < a) as Hpre
    by (intros x Hx; apply frees_bounds in Hx; [lia|done]).
  assert (∀ x, x ∈ frees (a + total mid) post → a + total mid <= x < heap_end) as Hpost
    by (intros x Hx; apply frees_bounds in Hx; [lia|done]).
  assert (p = xStart ∨ ∃ x, p = Block x ∧ x ∈ frees heap_start pre) as Hp.
  { pose proof (last_ref_elem xStart (frees heap_start pre)) as [E|E]%elem_of_cons; [by left|right].
    apply list_elem_of_fmap in E as (x & E & Hx). by exists x. }
  assert (∀ x, x ∉ frees heap_start pre → Block x ≠ p) as Hnp.
  { intros x Hx Heq. destruct Hp as [Hp|(y & Hp & Hy)]; rewrite Hp in Heq; [done|]. by injection Heq as ->. }
  split; try done.
  - rewrite !total_app. lia.
  - rewrite !headers_app. fold a. rewrite Ht'. split_and!; [|done|].
    + eapply headers_frame; [exact Hh1|done|..].
      * intros x Hx. apply Hsz. lia.
      * intros x Hx Hnf. apply Hnx; [by apply Hnp|]. intros y Hy [= ->]. lia.
    + eapply headers_frame; [exact Hh3|done|..].
      * intros x Hx. apply Hsz. lia.
      * intros x Hx Hnf. apply Hnx; [apply Hnp; intros Hx'; specialize (Hpre _ Hx'); lia|].
        intros y Hy [= ->]. lia.
  - rewrite !frees_app. fold a. rewrite Ht'. apply links_cat. split; [|apply links_cat; split; [exact Hl'|]].
    + eapply links_retarget; [exact Hl1|apply NoDup_cons; split|..].
      * intros (x & Hx & _)%list_elem_of_fmap. done.
      * apply NoDup_fmap_2; [by intros ? ? [= ->]|by apply frees_nodup].
      * intros k Hk Hkp. apply Hnx; [done|]. intros x Hx ->.
        apply elem_of_cons in Hk as [Hk|(y & [= ->] & Hy)%list_elem_of_fmap]; [done|].
        specialize (Hpre _ Hy). lia.
      * fold p. apply links_head in Hl'. rewrite Hl'. unfold e. by destruct (frees a mid').
    + assert (links (pxNextFreeBlock h) (last_ref p (frees a mid)) (frees (a + total mid) post) heap_end) as Hl3' by exact Hl3.
      clear Hl3. destruct (frees (a + total mid) post) as [|x fs] eqn:Ef; simpl in Hl3' |- *.
      * apply links_last in Hl'. exact Hl'.
      * destruct Hl3' as [_ Hl3']. split; [by apply links_last in Hl'|].
        eapply links_frame; [exact Hl3'|]. intros k Hk.
        assert (∃ y, k = Block y ∧ a + total mid <= y < heap_end) as (y & -> & Hy).
        { change (Block x :: map Block fs) with (map Block (x :: fs)) in Hk.
          apply list_elem_of_fmap in Hk as (y & -> & Hy). eauto. }
        apply Hnx; [apply Hnp; intros Hy'; specialize (Hpre _ Hy'); lia|]. intros z Hz [= ->]. lia.
  - rewrite Hnx; [done|apply Hnp; intros Hx; specialize (Hpre _ Hx); lia|]. intros x Hx [= Hxe]. lia.
  - rewrite Hsz; [done|lia].
  - by rewrite !good_sizes_app.
  - rewrite Hf', Hf, !free_total_app. lia.
Qed.

(** ** Allocation *)

Lemma u32_in x : 0 <= x < 2 ^ 32 → u32 x = x.
Proof. apply u32_small. Qed.

(** The facts on a block of the heap that the operations use. *)
Lemma block_facts h pre s f post : heap_rep h (pre ++ (s, f) :: post) →
  let a := heap_start + total pre in
  0 < a ∧ ucHeap <= a ∧ a + s <= heap_end ∧ a mod 8 = 0 ∧ 16 <= s < 2 ^ 31 ∧ s mod 8 = 0 ∧
  heap_end < 2 ^ 32 - 8 ∧ heap_end + 8 <= ucHeap + configTOTAL_HEAP_SIZE ∧
  good_sizes pre ∧ good_sizes post ∧ 0 <= total post ∧
  links (pxNextFreeBlock h) xStart (frees heap_start pre ++ (if f then [a] else []) ++ frees (a + s) post) heap_end ∧
  (if f then xBlockSize h (Block a) = s
   else xBlockSize h (Block a) = s + 2 ^ 31 ∧ pxNextFreeBlock h (Block a) = 0) ∧
  (f = true → s <= free_total (pre ++ (s, f) :: post) < 2 ^ 31).
Proof.
  intros [Hend Htot Hh Hl Hen Hes Hg Hc Hf Hm] a. pose proof (config_bounds Hcfg).
  rewrite total_app in Htot. simpl in Htot.
  apply good_sizes_app in Hg as [Hg1 [[Hs1 Hs2] Hg3]%good_sizes_cons].
  pose proof (total_bounds pre Hg1). pose proof (total_bounds post Hg3).
  apply headers_app in Hh as [_ [Hha _]]. fold a in Hha.
  rewrite frees_app in Hl. fold a in Hl. simpl in Hl.
  split_and!; try done; try lia.
  - unfold a. Z.to_euclidean_division_equations; lia.
  - intros ->. rewrite free_total_app. simpl. lia.
Qed.

(** The blocks from [a] on are not those before. *)
Lemma last_ref_ne pre x : good_sizes pre → heap_start + total pre <= x →
  last_ref xStart (frees heap_start pre) ≠ Block x.
Proof.
  intros Hg Hx Hp. pose proof (last_ref_elem xStart (frees heap_start pre)) as He. rewrite Hp in He.
  apply elem_of_cons in He as [?|(y & [= <-] & Hy)%list_elem_of_fmap]; [done|].
  apply frees_bounds in Hy; [lia|done].
Qed.

(** A free block may become an allocated one, or an allocated one and a free one. *)
Lemma coalesced_whole pre s post : coalesced (pre ++ (s, true) :: post) → coalesced (pre ++ (s, false) :: post).
Proof.
  rewrite !coalesced_app. cbn [coalesced head_free]. intros (H1 & (H2 & H3) & H4).
  split_and!; [done| |done|by rewrite andb_false_r]. by destruct post as [|[??]].
Qed.
Lemma coalesced_split pre s w post : coalesced (pre ++ (s, true) :: post) →
  coalesced (pre ++ (w, false) :: (s - w, true) :: post).
Proof.
  rewrite !coalesced_app. cbn [coalesced head_free]. intros (H1 & H2 & H3).
  split_and!; try done; try apply H2. by rewrite andb_false_r.
Qed.

Ltac run :=
  unfold set_next, set_size, set_end, set_free, set_counts, clear;
  repeat first
    [ progress cbn [pxNextFreeBlock xBlockSize pxEnd xFreeBytesRemaining xMinimumEverFreeBytesRemaining
                    xNumberOfSuccessfulAllocations xNumberOfSuccessfulFrees contents]
    | rewrite gets_id
    | rewrite ret_bind
    | rewrite modify_bind
    | rewrite fn_lookup_insert
    | rewrite fn_lookup_insert_ne by first [assumption | apply not_eq_sym; assumption] ].

Lemma take_block_whole h pre s post w : heap_rep h (pre ++ (s, true) :: post) → 0 < w <= s → s - w <= 16 →
  let a := heap_start + total pre in
  ∃ h', take_block ucHeap configTOTAL_HEAP_SIZE asserts (last_ref xStart (frees heap_start pre)) a w h =
    Done (a + 8, h') ∧ heap_rep h' (pre ++ (s, false) :: post).
Proof.
  intros Hrep Hw Hsw a. pose proof (block_facts _ _ _ _ _ Hrep) as Hb. cbv zeta in Hb. fold a in Hb.
  destruct Hb as (Ha & Hlo & Hhi & Ha8 & Hs & Hs8 & Hend & Htop & Hg1 & Hg3 & Htp & Hl & Hsz & Hft).
  specialize (Hft eq_refl). apply links_cat in Hl as [Hl1 Hl2]. simpl in Hl1, Hl2. destruct Hl2 as [Hpa Hl2].
  assert (last_ref xStart (frees heap_start pre) ≠ Block a) as Hpne by (apply last_ref_ne; [done|lia]).
  remember (last_ref xStart (frees heap_start pre)) as p eqn:Hp.
  eexists. split.
  - unfold take_block. rewrite gets_id. cbv zeta. rewrite Hpa, Hsz.
    rewrite (u32_in (a + xHeapStructSize)) by (unfold xHeapStructSize; lia).
    rewrite validate_ok by (unfold xHeapStructSize; lia). rewrite ret_bind.
    rewrite (u32_in (s - w)) by lia. rewrite (proj2 (Z.ltb_ge _ _)) by (unfold heapMINIMUM_BLOCK_SIZE; lia).
    unfold heapSUBTRACT_WILL_UNDERFLOW. rewrite (proj2 (Z.ltb_ge s w)), (assert_true (negb false)) by (done || lia).
    run. rewrite Hsz, allocated_lor by lia.
    pose proof (rep_free _ _ Hrep) as Hf. rewrite Hf. rewrite (u32_in (free_total _ - s)) by lia. reflexivity.
  - pose proof Hrep as [Hend' _ _ _ _ _ _ Hc Hf Hm].
    apply (replace_rep h _ pre [(s, true)] [(s, false)] post); simpl; fold a; rewrite <- ?Hp, ?Z.add_0_r; try done.
    + apply good_sizes_cons. split; [split; [lia|done]|constructor].
    + by apply coalesced_whole.
    + intros x Hx. rewrite fn_lookup_insert_ne; [done|]. intros [= ->]. lia.
    + intros k Hk Hx. rewrite !fn_lookup_insert_ne; [done|done|]. intros <-. by apply (Hx a); [lia|].
    + rewrite !fn_lookup_insert. done.
    + rewrite fn_lookup_insert_ne by done. rewrite fn_lookup_insert. by apply links_head in Hl2.
    + lia.
    + case (Z.ltb_spec (free_total (pre ++ (s, true) :: post) - s) (xMinimumEverFreeBytesRemaining h)); lia.
Qed.

Lemma take_block_split h pre s post w : heap_rep h (pre ++ (s, true) :: post) → good_size w → 16 < s - w →
  let a := heap_start + total pre in
  ∃ h', take_block ucHeap configTOTAL_HEAP_SIZE asserts (last_ref xStart (frees heap_start pre)) a w h =
    Done (a + 8, h') ∧ heap_rep h' (pre ++ (w, false) :: (s - w, true) :: post).
Proof.
  intros Hrep [Hw Hw8] Hsw a. pose proof (block_facts _ _ _ _ _ Hrep) as Hb. cbv zeta in Hb. fold a in Hb.
  destruct Hb as (Ha & Hlo & Hhi & Ha8 & Hs & Hs8 & Hend & Htop & Hg1 & Hg3 & Htp & Hl & Hsz & Hft).
  specialize (Hft eq_refl). apply links_cat in Hl as [Hl1 Hl2]. simpl in Hl1, Hl2. destruct Hl2 as [Hpa Hl2].
  assert (last_ref xStart (frees heap_start pre) ≠ Block a) as Hpa' by (apply last_ref_ne; [done|lia]).
  assert (last_ref xStart (frees heap_start pre) ≠ Block (a + w)) as Hpn by (apply last_ref_ne; [done|lia]).
  remember (last_ref xStart (frees heap_start pre)) as p eqn:Hp.
  assert (Block a ≠ Block (a + w)) as Han by (intros [= ?]; lia).
  assert ((a + w) mod 8 = 0) as Haw8 by (Z.to_euclidean_division_equations; lia).
  eexists. split.
  - unfold take_block. rewrite gets_id. cbv zeta. rewrite Hpa, Hsz.
    rewrite (u32_in (a + xHeapStructSize)) by (unfold xHeapStructSize; lia).
    rewrite validate_ok by (unfold xHeapStructSize; lia). rewrite ret_bind.
    rewrite (u32_in (s - w)) by lia. rewrite (proj2 (Z.ltb_lt _ (s - w))) by (unfold heapMINIMUM_BLOCK_SIZE; lia).
    unfold heapSUBTRACT_WILL_UNDERFLOW. rewrite (proj2 (Z.ltb_ge s w)), (assert_true (negb false)) by (done || lia).
    rewrite (u32_in (a + w)) by lia. unfold portBYTE_ALIGNMENT_MASK. rewrite land_7, Haw8, (assert_true (0 =? 0)) by done.
    run. erewrite bind_done by (run; reflexivity). run. rewrite allocated_lor by lia.
    pose proof (rep_free _ _ Hrep) as Hf. rewrite Hf. rewrite (u32_in (free_total _ - w)) by lia. reflexivity.
  - pose proof Hrep as [Hend' _ _ _ _ _ _ Hc Hf Hm].
    apply (replace_rep h _ pre [(s, true)] [(w, false); (s - w, true)] post); simpl; fold a;
      rewrite <- ?Hp, ?Z.add_0_r; try done.
    + lia.
    + apply good_sizes_cons. split; [by split|]. apply good_sizes_cons. split; [|constructor].
      split; [lia|]. Z.to_euclidean_division_equations; lia.
    + by apply coalesced_split.
    + intros x Hx. rewrite !fn_lookup_insert_ne; [done|..]; intros [= E]; lia.
    + intros k Hk Hx. assert (Block a ≠ k) by (intros <-; by apply (Hx a); [lia|]).
      assert (Block (a + w) ≠ k) by (intros <-; by apply (Hx (a + w)); [lia|]).
      by rewrite !fn_lookup_insert_ne by congruence.
    + run. done.
    + run. split; [done|]. by apply links_head in Hl2.
    + lia.
    + case (Z.ltb_spec (free_total (pre ++ (s, true) :: post) - w) (xMinimumEverFreeBytesRemaining h)); lia.
Qed.

Lemma length_frees a bs : (length (frees a bs) <= length bs)%nat.
Proof.
  revert a. induction bs as [|[s f] bs IH]; intros a; simpl; [done|].
  specialize (IH (a + s)). rewrite length_app. destruct f; simpl; lia.
Qed.

(** The search and what follows it, on an initialised heap. *)
Lemma malloc_search fuel w h bs : heap_rep h bs → good_size w → (length bs < fuel)%nat →
  ∃ r h', ('(pxPreviousBlock, pxBlock) ← find_block ucHeap configTOTAL_HEAP_SIZE asserts fuel xStart
             (pxNextFreeBlock h xStart) w;
           if negb (pxBlock =? pxEnd h) then
             take_block ucHeap configTOTAL_HEAP_SIZE asserts pxPreviousBlock pxBlock w
           else mret 0) h = Done (r, h') ∧
    match allocate w bs with
    | Some (off, bs') => r = heap_start + off + 8 ∧ heap_rep h' bs'
    | None => r = 0 ∧ h' = h
    end.
Proof.
  intros Hrep [Hw Hw8] Hfuel. pose proof Hrep as [Hend Htot Hh Hl Hen Hes Hg Hc Hf Hm].
  pose proof (λ x, frees_valid bs x Hg Htot) as Hvalid. unfold allocate.
  destruct (first_fit w bs) as [[[pre s] post]|] eqn:Eff; simpl.
  - apply first_fit_Some in Eff as (-> & Hws & Hpre).
    pose proof (block_facts _ _ _ _ _ Hrep) as (Ha & Hlo & Hhi & _ & _ & _ & _ & _ & _ & _ & _ & Hl' & Hsz & _).
    apply headers_app in Hh as [Hh1 _].
    set (a := heap_start + total pre) in *.
    rewrite frees_app in Hvalid. fold a in Hvalid. simpl in Hvalid.
    pose proof (length_frees heap_start pre) as Hlen. rewrite length_app in Hfuel.
    erewrite bind_done.
    2: { apply (find_block_spec (frees heap_start pre) (a :: frees (a + s) post)); [exact Hl'|lia| |done|lia|lia].
         by eapply frees_small. }
    simpl. rewrite Hend, (proj2 (Z.eqb_neq _ _)) by lia. cbn [negb].
    case (Z.ltb_spec 16 (s - w)); intros Hsplit.
    + destruct (take_block_split h pre s post w Hrep) as (h' & E & Hrep'); [by split|done|].
      exists (a + 8), h'. split; [exact E|]. split; [unfold a; lia|done].
    + destruct (take_block_whole h pre s post w Hrep) as (h' & E & Hrep'); [lia|lia|].
      exists (a + 8), h'. split; [exact E|]. split; [unfold a; lia|done].
  - apply first_fit_None in Eff. pose proof (length_frees heap_start bs) as Hlen.
    erewrite bind_done.
    2: { apply (find_block_spec (frees heap_start bs) []);
           [by rewrite app_nil_r|lia|by eapply frees_small|by rewrite app_nil_r|done|lia]. }
    simpl. rewrite Hend, Z.eqb_refl. by exists 0, h.
Qed.

(** ** Initialisation *)

Definition fresh_blocks : list block := [(heap_end - heap_start, true)].

Lemma heap_init h : ∃ h', prvHeapInit ucHeap configTOTAL_HEAP_SIZE h = Done (tt, h') ∧
  heap_rep h' fresh_blocks ∧ xNumberOfSuccessfulAllocations h' = xNumberOfSuccessfulAllocations h ∧
  xNumberOfSuccessfulFrees h' = xNumberOfSuccessfulFrees h.
Proof.
  pose proof (config_bounds Hcfg) as (H1 & H2 & H3 & H4 & H5 & H6 & H7 & H8).
  destruct Hcfg as (C1 & C2 & C3).
  assert ((if negb (Z.land ucHeap portBYTE_ALIGNMENT_MASK =? 0)
           then (align_down (u32 (ucHeap + (portBYTE_ALIGNMENT - 1))),
                 u32 (configTOTAL_HEAP_SIZE - u32 (align_down (u32 (ucHeap + (portBYTE_ALIGNMENT - 1))) - ucHeap)))
           else (ucHeap, configTOTAL_HEAP_SIZE)) =
          (heap_start, ucHeap + configTOTAL_HEAP_SIZE - heap_start)) as E.
  { unfold portBYTE_ALIGNMENT_MASK, portBYTE_ALIGNMENT. rewrite land_7.
    case (Z.eqb_spec (ucHeap mod 8) 0); intros Hm; cbn [negb].
    - f_equal; unfold heap_start; Z.to_euclidean_division_equations; lia.
    - rewrite (u32_in (ucHeap + (8 - 1))) by lia. rewrite align_down_eq by lia.
      change ((ucHeap + (8 - 1)) / 8 * 8) with heap_start.
      assert (heap_start <= ucHeap + 7) by (unfold heap_start; Z.to_euclidean_division_equations; lia).
      rewrite (u32_in (heap_start - ucHeap)) by lia. rewrite u32_in by lia. f_equal. lia. }
  unfold prvHeapInit. cbv zeta. rewrite E. cbv zeta.
  replace (heap_start + (ucHeap + configTOTAL_HEAP_SIZE - heap_start)) with (ucHeap + configTOTAL_HEAP_SIZE) by lia.
  rewrite (u32_in (ucHeap + configTOTAL_HEAP_SIZE)) by lia. unfold xHeapStructSize. rewrite u32_in by lia.
  rewrite align_down_eq by lia. fold heap_end.
  assert (Block heap_start ≠ Block heap_end) by (intros [= ?]; lia).
  rewrite (u32_in (heap_end - heap_start)) by lia.
  clear E. eexists. split; [run; reflexivity|]. split; [|split; reflexivity].
  split; simpl; run; try done; try lia.
  - apply good_sizes_cons. split; [|constructor]. split; [lia|]. Z.to_euclidean_division_equations; lia.
Qed.

(** ** The allocator *)

(** The heap holds the blocks [bs]; before the first allocation it is one free
    block. *)
Definition heap_state (h : heap) (bs : list block) : Prop :=
  heap_rep h bs ∨ (pxEnd h = 0 ∧ bs = fresh_blocks).

Lemma heap_ready h bs : heap_state h bs →
  ∃ h', (if pxEnd h =? 0 then prvHeapInit ucHeap configTOTAL_HEAP_SIZE else mret tt) h = Done (tt, h') ∧
    heap_rep h' bs.
Proof.
  pose proof (config_bounds Hcfg). intros [Hrep|[-> ->]].
  - rewrite (rep_end _ _ Hrep), (proj2 (Z.eqb_neq _ _)) by lia. by exists h.
  - destruct (heap_init h) as (h' & E & Hrep & _). exists h'. by split.
Qed.

(** The block for a request of [n] bytes: [None] for a size of which nothing
    can be given out, an empty one or one that does not fit in 31 bits. *)
Definition request (n : Z) (bs : list block) : option (Z * list block) :=
  if (0 <? block_size n) && (block_size n <? 2 ^ 31) then allocate (block_size n) bs else None.

Lemma allocate_fits h bs w off bs' : heap_rep h bs → allocate w bs = Some (off, bs') →
  w <= free_total bs ∧ 0 <= off ∧ off mod 8 = 0 ∧ heap_start + off + 16 <= heap_end.
Proof.
  intros Hrep. unfold allocate. destruct (first_fit w bs) as [[[pre s] post]|] eqn:E; [|done]. simpl.
  intros [= <- <-]. apply first_fit_Some in E as (-> & Hw & _).
  pose proof (block_facts _ _ _ _ _ Hrep) as (_ & _ & Hhi & _ & Hs & _ & _ & _ & Hg & _ & _ & _ & _ & Hft).
  specialize (Hft eq_refl). pose proof (total_bounds pre Hg). lia.
Qed.

Lemma malloc_eq fuel n h bs : heap_state h bs → is_u32 n → (length bs < fuel)%nat →
  ∃ r h', pvPortMalloc ucHeap configTOTAL_HEAP_SIZE asserts fuel n h = Done (r, h') ∧
    match request n bs with
    | Some (off, bs') => r = heap_start + off + 8 ∧ heap_rep h' bs'
    | None => r = 0 ∧ heap_rep h' bs
    end.
Proof.
  intros Hst Hn Hfuel. destruct (heap_ready _ _ Hst) as (h1 & E1 & Hrep).
  destruct (block_size_spec n Hn) as (Hsz & Hsz8 & _). set (w := block_size n) in *.
  pose proof (config_bounds Hcfg) as (C1 & C2 & C3 & C4 & C5 & C6 & C7 & C8).
  pose proof (rep_free _ _ Hrep) as Hfree.
  unfold pvPortMalloc. fold w. cbv zeta. rewrite gets_id. erewrite bind_done by exact E1. rewrite gets_id.
  match goal with |- context [(?m ≫= _) h1] =>
    assert (∃ r h', m h1 = Done (r, h') ∧ match request n bs with
      | Some (off, bs') => r = heap_start + off + 8 ∧ heap_rep h' bs'
      | None => r = 0 ∧ heap_rep h' bs end) as (r & h' & E & Hres) end.
  - unfold request. fold w.
    case (Z.ltb_spec 0 w); intros H0; cbn [andb].
    2: { rewrite valid_small by lia. by exists 0, h1. }
    case (Z.ltb_spec w (2 ^ 31)); intros H31.
    2: { rewrite valid_large by lia. by exists 0, h1. }
    rewrite valid_small by lia. case (Z.leb_spec w (xFreeBytesRemaining h1)); intros Hw.
    + rewrite (links_head _ _ _ _ (rep_links _ _ Hrep)).
      rewrite validate_ok.
      2: { destruct (frees heap_start bs) as [|x fs] eqn:Ef; simpl; [lia|].
           apply frees_valid with bs; [apply (rep_sizes _ _ Hrep)|apply (rep_total _ _ Hrep)|]. rewrite Ef. left. }
      rewrite ret_bind, <- (links_head _ _ _ _ (rep_links _ _ Hrep)).
      destruct (malloc_search fuel w h1 bs Hrep) as (r & h' & E & Hres); [split; [lia|done]|done|].
      exists r, h'. split; [exact E|]. destruct (allocate w bs) as [[off bs']|]; [done|].
      destruct Hres as [-> ->]. done.
    + exists 0, h1. split; [done|]. destruct (allocate w bs) as [[off bs']|] eqn:Ea; [|done].
      destruct (allocate_fits _ _ _ _ _ Hrep Ea). lia.
  - exists r, h'. split; [|done]. erewrite bind_done by exact E.
    rewrite assert_true; [done|]. apply Z.eqb_eq. unfold portBYTE_ALIGNMENT_MASK. rewrite land_7.
    unfold request in Hres. destruct ((0 <? block_size n) && (block_size n <? 2 ^ 31)) in Hres; [|by destruct Hres as [-> _]].
    fold w in Hres. destruct (allocate w bs) as [[off bs']|] eqn:Ea; [|by destruct Hres as [-> _]].
    destruct Hres as [-> _]. destruct (allocate_fits _ _ _ _ _ Hrep Ea) as (_ & _ & ? & _).
    Z.to_euclidean_division_equations; lia.
Qed.

(** ** Release *)

(** What a free block of [n] bytes in front of the blocks [post] becomes. *)
Definition absorb (n : Z) (post : list block) : Z * list block :=
  match post with
  | (s, true) :: post => (n + s, post)
  | _ => (n, post)
  end.

Lemma merge_coalesced bs : coalesced bs → merge bs = bs.
Proof.
  induction bs as [|[s f] bs IH]; [done|]. cbn [coalesced merge]. intros [H Hc]. rewrite (IH Hc).
  destruct bs as [|[s1 f1] bs], f; try done. by destruct f1.
Qed.

Lemma merge_app pre bs : coalesced pre → last_free pre && head_free (merge bs) = false →
  merge (pre ++ bs) = pre ++ merge bs.
Proof.
  induction pre as [|[s f] pre IH]; [done|]. cbn [coalesced app merge]. intros [H Hc] Hb.
  assert (last_free pre && head_free (merge bs) = false) as Hb'.
  { unfold last_free in *. destruct pre as [|b pre]; [done|]. by rewrite last_cons_cons in Hb. }
  rewrite (IH Hc Hb'). destruct pre as [|[s1 f1] pre]; simpl.
  - unfold last_free in Hb. simpl in Hb. destruct f, (merge bs) as [|[s2 []] bs']; done.
  - destruct f; [|done]. simpl in H. by rewrite H.
Qed.

Lemma merge_free s post : coalesced post →
  merge ((s, true) :: post) = ((absorb s post).1, true) :: (absorb s post).2.
Proof. intros Hc. cbn [merge]. rewrite (merge_coalesced _ Hc). by destruct post as [|[s1 []] post]. Qed.

Lemma absorb_add n s post : absorb (n + s) post = (n + (absorb s post).1, (absorb s post).2).
Proof. destruct post as [|[s1 []] post]; simpl; f_equal; lia. Qed.

(** The address behind a block and its free neighbour, and the blocks there. *)
Lemma absorb_spec n post : good_sizes post → coalesced post →
  let '(n', post') := absorb n post in
  ∃ mid, post = mid ++ post' ∧ total mid = n' - n ∧ free_total mid = n' - n ∧ 0 <= n' - n ∧
    (n' - n) mod 8 = 0 ∧ good_sizes post' ∧ coalesced post' ∧ head_free post' = false.
Proof.
  intros Hg Hc. destruct post as [|[s1 []] post]; simpl in *.
  - exists []. rewrite Z.sub_diag. done.
  - apply good_sizes_cons in Hg as [[? ?] ?]. replace (n + s1 - n) with s1 by lia.
    exists [(s1, true)]. simpl. rewrite Z.add_0_r. split_and!; try done; try lia; [apply Hc|].
    destruct Hc as [Hc _]. by destruct post as [|[? []] ?].
  - exists []. rewrite Z.sub_diag. done.
Qed.

(** A free block of [n] bytes at [b] takes in its free neighbour: its next
    pointer and its size afterwards. *)
Definition absorb_step (pxBlock : ref) (next : Z) : ST heap unit :=
  h ← gets id;
  if ends_at h pxBlock next then
    if negb (next =? pxEnd h) then
      set_size pxBlock (u32 (xBlockSize h pxBlock + xBlockSize h (Block next)));;
      set_next pxBlock (pxNextFreeBlock h (Block next))
    else set_next pxBlock (pxEnd h)
  else set_next pxBlock next.

Lemma absorb_run h b n post : pxEnd h = heap_end → b + n + total post = heap_end → 0 <= b → 0 <= n →
  good_sizes post → coalesced post → xBlockSize h (Block b) = n →
  headers (pxNextFreeBlock h) (xBlockSize h) (b + n) post →
  (∀ x f, post = (x, true) :: f →
     pxNextFreeBlock h (Block (b + n)) = default heap_end (head (frees (b + n + x) f))) →
  ∃ h', absorb_step (Block b) (default heap_end (head (frees (b + n) post))) h = Done (tt, h') ∧
    pxNextFreeBlock h' = <[Block b :=
      default heap_end (head (frees (b + (absorb n post).1) (absorb n post).2))]> (pxNextFreeBlock h) ∧
    (∀ k, xBlockSize h' k = if decide (k = Block b) then (absorb n post).1 else xBlockSize h k) ∧
    pxEnd h' = pxEnd h ∧ xFreeBytesRemaining h' = xFreeBytesRemaining h ∧
    xMinimumEverFreeBytesRemaining h' = xMinimumEverFreeBytesRemaining h.
Proof.
  intros Hend Htot Hb Hn Hg Hc Hsz Hh Hnx. pose proof (config_bounds Hcfg) as (_ & _ & _ & _ & _ & _ & _ & C8).
  unfold absorb_step. rewrite gets_id. unfold ends_at. rewrite Hsz.
  destruct post as [|[s1 f1] post]; simpl in *.
  - rewrite (u32_in (b + n)), (proj2 (Z.eqb_eq _ _)), Hend, Z.eqb_refl by lia. cbn [negb].
    eexists. split; [run; reflexivity|]. cbn. split_and!; try done. intros k. by case_decide; subst.
  - apply good_sizes_cons in Hg as [[Hs1 _] Hg]. pose proof (total_bounds post Hg). rewrite (u32_in (b + n)) by lia.
    destruct Hh as [Hh1 _]. destruct f1; simpl.
    + rewrite Z.eqb_refl, Hend, (proj2 (Z.eqb_neq _ _)) by lia. cbn [negb].
      rewrite Hh1, (Hnx s1 post eq_refl), (u32_in (n + s1)) by lia.
      eexists. split; [run; reflexivity|]. cbn. rewrite (Z.add_assoc b n s1). split_and!; try done.
      intros k. fn_cases.
    + rewrite (proj2 (Z.eqb_neq _ _)).
      2: { destruct (frees (b + n + s1) post) as [|x fs] eqn:E; simpl; [lia|].
           assert (x ∈ frees (b + n + s1) post) as Hx by (rewrite E; left).
           apply frees_bounds in Hx; [lia|done]. }
      eexists. split; [run; reflexivity|]. cbn. split_and!; try done. intros k. by case_decide; subst.
Qed.

Lemma find_place_spec fs1 fs2 fuel r b h :
  links (pxNextFreeBlock h) r (fs1 ++ fs2) heap_end → (∀ x, x ∈ fs1 → x < b) →
  b <= default heap_end (head fs2) → (length fs1 < fuel)%nat →
  find_place fuel r b h = Done (last_ref r fs1, h).
Proof.
  revert r fuel. induction fs1 as [|x fs1 IH]; intros r fuel Hl Hx Hb Hf; (destruct fuel as [|fuel]; [simpl in Hf; lia|]);
    cbn [find_place]; rewrite gets_id.
  - rewrite (links_head _ _ _ _ Hl), (proj2 (Z.ltb_ge _ _)) by done. done.
  - simpl in Hl. destruct Hl as [-> Hl]. rewrite (proj2 (Z.ltb_lt _ _)) by (apply Hx; left).
    rewrite last_ref_cons. apply IH; [done| |done|simpl in Hf; lia]. intros y Hy. apply Hx. by right.
Qed.

(** A free block ends before the last block, or is it. *)
Lemma frees_end nx sz a bs x : headers nx sz a bs → good_sizes bs → last_free bs = false → x ∈ frees a bs →
  x + sz (Block x) < a + total bs.
Proof.
  revert a. induction bs as [|[s f] bs IH]; simpl; intros a Hh Hg Hlast Hx; [by apply not_elem_of_nil in Hx|].
  apply good_sizes_cons in Hg as [[H1 _] Hg]. destruct Hh as [Hs Hh]. pose proof (total_bounds bs Hg).
  destruct bs as [|b bs].
  - unfold last_free in Hlast. simpl in Hlast. subst f. simpl in Hx. by apply not_elem_of_nil in Hx.
  - assert (last_free (b :: bs) = false) as Hlast' by (unfold last_free in *; by rewrite last_cons_cons in Hlast).
    apply elem_of_app in Hx as [Hx|Hx].
    + destruct f; [|by apply not_elem_of_nil in Hx]. apply list_elem_of_singleton in Hx as ->. rewrite Hs.
      destruct b as [s' f']. apply good_sizes_cons in Hg as [[? _] Hg]. pose proof (total_bounds bs Hg).
      simpl in *. lia.
    + specialize (IH _ Hh Hg Hlast' Hx). lia.
Qed.

(** The heap while the block [s] at [a] is being released: its header is that
    of a free block, and it is not in the free list yet. *)
Definition freeing (h h1 : heap) (a s : Z) : Prop :=
  pxNextFreeBlock h1 = pxNextFreeBlock h ∧ xBlockSize h1 = <[Block a := s]> (xBlockSize h) ∧
  pxEnd h1 = pxEnd h ∧ xFreeBytesRemaining h1 = xFreeBytesRemaining h + s ∧
  xMinimumEverFreeBytesRemaining h1 = xMinimumEverFreeBytesRemaining h.

(** The free list behind the blocks before [a], and the neighbour behind it. *)
Lemma freeing_post h h1 pre s post :
  heap_rep h (pre ++ (s, false) :: post) → let a := heap_start + total pre in freeing h h1 a s →
  ∀ b n (h2 : heap), b + n = a + s → 0 <= b → 0 <= n → pxEnd h2 = pxEnd h →
    pxNextFreeBlock h2 = pxNextFreeBlock h1 →
    (∀ x, a + s <= x → xBlockSize h2 (Block x) = xBlockSize h1 (Block x)) → xBlockSize h2 (Block b) = n →
    ∃ h', absorb_step (Block b) (default heap_end (head (frees (a + s) post))) h2 = Done (tt, h') ∧
      pxNextFreeBlock h' = <[Block b :=
        default heap_end (head (frees (b + (absorb n post).1) (absorb n post).2))]> (pxNextFreeBlock h2) ∧
      (∀ k, xBlockSize h' k = if decide (k = Block b) then (absorb n post).1 else xBlockSize h2 k) ∧
      pxEnd h' = pxEnd h2 ∧ xFreeBytesRemaining h' = xFreeBytesRemaining h2 ∧
      xMinimumEverFreeBytesRemaining h' = xMinimumEverFreeBytesRemaining h2.
Proof.
  intros Hrep a (Hnx1 & Hsz1 & _) b n h2 Hbn Hb Hn Hend Hnx2 Hsz2 Hszb.
  pose proof (block_facts _ _ _ _ _ Hrep) as (Ha & _ & _ & _ & Hs & _ & _ & _ & Hg1 & Hg3 & _ & Hl & _).
  fold a in Hl, Ha. destruct Hrep as [Hend' Htot Hh _ _ _ _ Hc _ _].
  rewrite total_app in Htot. simpl in Htot.
  apply headers_app in Hh as [_ [_ Hh]]. fold a in Hh.
  apply coalesced_app in Hc as (_ & Hc & _). cbn [coalesced] in Hc. destruct Hc as [_ Hc].
  rewrite <- Hbn. apply absorb_run; try done.
  - by rewrite Hend.
  - unfold a in Hbn. lia.
  - rewrite Hbn, Hnx2, Hnx1. eapply headers_frame; [exact Hh|done| |done].
    intros x Hx. rewrite Hsz2, Hsz1 by lia. rewrite fn_lookup_insert_ne; [done|]. intros [= ->]. lia.
  - intros x f ->. rewrite Hnx2, Hnx1, Hbn. simpl in Hl. rewrite links_cat in Hl. simpl in Hl.
    destruct Hl as (_ & _ & Hl). by apply links_head in Hl.
Qed.

(** The front block of the freed stretch becomes the free block for all of it. *)
Lemma freed_rep h h' pre0 front post mid n post' :
  heap_rep h (pre0 ++ (front ++ mid) ++ post') → post = mid ++ post' →
  let b := heap_start + total pre0 in
  let p := last_ref xStart (frees heap_start pre0) in
  total (front ++ mid) = n → good_size n → last_free pre0 = false → head_free post' = false →
  coalesced pre0 → coalesced post' →
  pxEnd h' = heap_end →
  (∀ x, ¬ (b <= x < b + n) → xBlockSize h' (Block x) = xBlockSize h (Block x)) →
  (∀ k, k ≠ p → (∀ x, b <= x < b + n → k ≠ Block x) → pxNextFreeBlock h' k = pxNextFreeBlock h k) →
  xBlockSize h' (Block b) = n → pxNextFreeBlock h' p = b →
  pxNextFreeBlock h' (Block b) = default heap_end (head (frees (b + n) post')) →
  xFreeBytesRemaining h' = xFreeBytesRemaining h - free_total (front ++ mid) + n →
  0 <= xMinimumEverFreeBytesRemaining h' <= xFreeBytesRemaining h' →
  heap_rep h' (pre0 ++ (n, true) :: post').
Proof.
  intros Hrep _ b p Hn Hgn Hlf Hhf Hc1 Hc2 Hend Hsz Hnx Hb1 Hb2 Hb3 Hfree Hmin.
  change ((n, true) :: post') with ([(n, true)] ++ post').
  apply (replace_rep h h' pre0 (front ++ mid) [(n, true)] post'); try done; fold b p; rewrite ?Hn; try done.
  - simpl. lia.
  - apply good_sizes_cons. split; [done|constructor].
  - apply coalesced_app. split_and!; [done| |by rewrite Hlf]. simpl. by destruct post' as [|[? []] ?].
  - simpl. rewrite Hfree. lia.
Qed.

Lemma insert_used h h1 pre s post fuel :
  heap_rep h (pre ++ (s, false) :: post) → last_free pre = false → (length pre < fuel)%nat →
  let a := heap_start + total pre in
  freeing h h1 a s →
  ∃ h', prvInsertBlockIntoFreeList ucHeap configTOTAL_HEAP_SIZE asserts fuel a h1 = Done (tt, h') ∧
    heap_rep h' (pre ++ ((absorb s post).1, true) :: (absorb s post).2).
Proof.
  intros Hrep Hlf Hfuel a Hfr. pose proof (block_facts _ _ _ _ _ Hrep) as Hb. cbv zeta in Hb. fold a in Hb.
  destruct Hb as (Ha & Hlo & Hhi & Ha8 & Hs & Hs8 & Hend & Htop & Hg1 & Hg3 & Htp & Hl & _ & _). simpl in Hl.
  pose proof (freeing_post _ _ _ _ _ Hrep Hfr a s h1) as Hpost. fold a in Hpost.
  destruct Hfr as (Hnx1 & Hsz1 & Hend1 & Hfree1 & Hmin1).
  pose proof Hrep as [Hend' Htot Hh _ _ _ Hg Hc Hf Hm].
  apply coalesced_app in Hc as (Hc1 & Hc2 & _). cbn [coalesced] in Hc2. destruct Hc2 as [_ Hc2].
  apply headers_app in Hh as [Hh1 _].
  assert (∀ x, x ∈ frees heap_start pre → heap_start <= x <= a - 16) as Hpre
    by (intros x Hx; apply frees_bounds in Hx; [unfold a; lia|done]).
  assert (last_ref xStart (frees heap_start pre) ≠ Block a) as Hpa by (apply last_ref_ne; [done|unfold a; lia]).
  destruct Hpost as (h2 & E2 & Hnx2 & Hsz2 & Hend2 & Hfree2 & Hmin2); try done; try lia.
  { by rewrite Hsz1, fn_lookup_insert. }
  pose proof (absorb_spec s post Hg3 Hc2) as Habs. destruct (absorb s post) as [n' post'] eqn:Eabs. simpl in *.
  destruct Habs as (mid & Hpm & Htm & Hfm & Hge & Hmod & Hgp & Hcp & Hhp).
  assert (pxNextFreeBlock h1 (last_ref xStart (frees heap_start pre)) =
    default heap_end (head (frees (a + s) post))) as Hnext.
  { rewrite Hnx1. apply links_cat in Hl as [Hl _]. by apply links_last in Hl. }
  pose proof (length_frees heap_start pre) as Hlenf.
  assert (find_place fuel xStart a h1 = Done (last_ref xStart (frees heap_start pre), h1)) as Hplace.
  { apply (find_place_spec _ (frees (a + s) post)); [by rewrite Hnx1|..]; [|clear -Hg3 Hhi Hs|lia].
    - intros x Hx. specialize (Hpre _ Hx). lia.
    - destruct (frees (a + s) post) as [|x fs] eqn:E; simpl; [lia|].
      assert (x ∈ frees (a + s) post) as Hx by (rewrite E; left). apply frees_bounds in Hx; [lia|done]. }
  remember (last_ref xStart (frees heap_start pre)) as p eqn:Hp.
  assert (ends_at h1 p a = false ∧ (∀ x, p = Block x → ucHeap <= x < ucHeap + configTOTAL_HEAP_SIZE)) as [Hends Hvalid].
  { pose proof (last_ref_elem xStart (frees heap_start pre)) as He. rewrite <- Hp in He.
    apply elem_of_cons in He as [->|(x & -> & Hx)%list_elem_of_fmap]; [done|].
    pose proof (frees_end _ _ _ _ _ Hh1 Hg1 Hlf Hx) as Hxe. specialize (Hpre _ Hx). pose proof (config_bounds Hcfg).
    destruct (frees_size _ _ _ _ _ Hh1 Hx) as (sx & Hsx & Esx).
    assert (16 <= sx) by (unfold good_sizes in Hg1; rewrite Forall_forall in Hg1; apply (Hg1 _ Hsx)).
    split; [|intros y [= <-]; lia]. simpl. rewrite Hsz1, fn_lookup_insert_ne by congruence.
    rewrite u32_in by lia. apply Z.eqb_neq. fold a in Hxe. lia. }
  eexists. split.
  - unfold prvInsertBlockIntoFreeList. erewrite bind_done by exact Hplace.
    erewrite bind_done.
    2: { destruct p; [reflexivity|]. rewrite validate_ok by (by apply Hvalid). reflexivity. }
    rewrite gets_id, Hends, ret_bind, gets_id, Hnext. erewrite bind_done by exact E2.
    rewrite decide_False by done. unfold set_next. reflexivity.
  - eapply (freed_rep h _ pre [(s, false)] post mid n' post'); simpl; fold a; rewrite <- ?Hp; try done.
    + by rewrite Hpm in Hrep.
    + lia.
    + split; [lia|]. Z.to_euclidean_division_equations; lia.
    + by rewrite Hend2, Hend1.
    + intros x Hx. assert (Block x ≠ Block a) as Hxa by (intros [= ->]; lia).
      rewrite Hsz2, decide_False by done. by rewrite Hsz1, fn_lookup_insert_ne by done.
    + intros k Hk Hx. assert (k ≠ Block a) as Hka by (apply Hx; lia).
      rewrite fn_lookup_insert_ne by done. by rewrite Hnx2, fn_lookup_insert_ne, Hnx1 by done.
    + by rewrite Hsz2, decide_True.
    + by rewrite fn_lookup_insert.
    + rewrite fn_lookup_insert_ne by done. by rewrite Hnx2, fn_lookup_insert.
    + lia.
    + lia.
Qed.

Lemma insert_free h h1 pre s0 s post fuel :
  heap_rep h ((pre ++ [(s0, true)]) ++ (s, false) :: post) → (S (length pre) < fuel)%nat →
  let a := heap_start + total (pre ++ [(s0, true)]) in
  freeing h h1 a s →
  ∃ h', prvInsertBlockIntoFreeList ucHeap configTOTAL_HEAP_SIZE asserts fuel a h1 = Done (tt, h') ∧
    heap_rep h' (pre ++ ((absorb (s0 + s) post).1, true) :: (absorb (s0 + s) post).2).
Proof.
  intros Hrep Hfuel a Hfr. pose proof (block_facts _ _ _ _ _ Hrep) as Hb. cbv zeta in Hb. fold a in Hb.
  destruct Hb as (Ha & Hlo & Hhi & Ha8 & Hs & Hs8 & Hend & Htop & Hg1 & Hg3 & Htp & Hl & _ & _). simpl in Hl.
  pose proof (freeing_post _ _ _ _ _ Hrep Hfr) as Hpost. fold a in Hpost.
  destruct Hfr as (Hnx1 & Hsz1 & Hend1 & Hfree1 & Hmin1).
  rewrite <- app_assoc in Hrep. cbn [app] in Hrep.
  pose proof (block_facts _ _ _ _ _ Hrep) as Hb0. cbv zeta in Hb0.
  set (b := heap_start + total pre) in *.
  assert (a = b + s0) as Hab by (unfold a, b; rewrite total_app; simpl; lia).
  destruct Hb0 as (Hb & Hblo & Hbhi & Hb8 & Hs0 & Hs08 & _ & _ & Hgp1 & _ & _ & _ & Hszb & _).
  pose proof Hrep as [Hend' Htot _ _ _ _ Hg Hc Hf Hm].
  apply coalesced_app in Hc as (Hc1 & Hc2 & Hc3). cbn [coalesced head_free] in Hc2, Hc3.
  destruct Hc2 as [_ [_ Hc2]]. rewrite andb_true_r in Hc3.
  rewrite frees_app in Hl. fold b in Hl. simpl in Hl.
  assert (pxNextFreeBlock h (Block b) = default heap_end (head (frees (a + s) post)) ∧
          pxNextFreeBlock h (last_ref xStart (frees heap_start pre)) = b) as [Hnext Hprev].
  { rewrite <- app_assoc in Hl. apply links_app in Hl as [Hl1 Hl2].
    split; [by apply links_head in Hl2|by apply links_last in Hl1]. }
  assert (Block b ≠ Block a) as Hba by (intros [= ?]; lia).
  assert (xBlockSize h1 (Block a) = s) as Ha1 by (by rewrite Hsz1, fn_lookup_insert).
  assert (xBlockSize h1 (Block b) = s0) as Hb1 by (by rewrite Hsz1, fn_lookup_insert_ne).
  pose proof (length_frees heap_start pre) as Hlenf.
  assert (find_place fuel xStart a h1 = Done (Block b, h1)) as Hplace.
  { rewrite (find_place_spec (frees heap_start pre ++ [b]) (frees (a + s) post)); [|by rewrite Hnx1|..].
    - unfold last_ref. by rewrite last_snoc.
    - intros x [Hx|Hx]%elem_of_app; [apply frees_bounds in Hx; [lia|done]|].
      apply list_elem_of_singleton in Hx. lia.
    - clear -Hg3 Hhi Hs. destruct (frees (a + s) post) as [|x fs] eqn:E; simpl; [lia|].
      assert (x ∈ frees (a + s) post) as Hx by (rewrite E; left). apply frees_bounds in Hx; [lia|done].
    - rewrite length_app. simpl. lia. }
  set (h2 := Heap (pxNextFreeBlock h1) (<[Block b := s0 + s]> (xBlockSize h1)) (pxEnd h1) (xFreeBytesRemaining h1)
    (xMinimumEverFreeBytesRemaining h1) (xNumberOfSuccessfulAllocations h1) (xNumberOfSuccessfulFrees h1) (contents h1)).
  destruct (Hpost b (s0 + s) h2) as (h3 & E3 & Hnx3 & Hsz3 & Hend3 & Hfree3 & Hmin3); try done; try lia.
  { intros x Hx. simpl. rewrite fn_lookup_insert_ne; [done|]. intros [= ->]. lia. }
  { simpl. by rewrite fn_lookup_insert. }
  pose proof (absorb_spec (s0 + s) post Hg3 Hc2) as Habs.
  destruct (absorb (s0 + s) post) as [n' post'] eqn:Eabs. simpl in *.
  destruct Habs as (mid & Hpm & Htm & Hfm & Hge & Hmod & Hgp & Hcp & Hhp).
  assert (last_ref xStart (frees heap_start pre) ≠ Block b) as Hpb by (apply last_ref_ne; [done|unfold b; lia]).
  remember (last_ref xStart (frees heap_start pre)) as p eqn:Hp.
  exists h3. split.
  - unfold prvInsertBlockIntoFreeList. erewrite bind_done by exact Hplace.
    cbv beta iota. rewrite validate_ok, ret_bind, gets_id by lia. cbn [ends_at].
    rewrite Hb1, Ha1, (u32_in (b + s0)), (proj2 (Z.eqb_eq _ _)) by lia.
    erewrite bind_done.
    2: { unfold set_size. rewrite modify_bind, (u32_in (s0 + s)) by lia. reflexivity. }
    fold h2. rewrite gets_id.
    assert (pxNextFreeBlock h2 (Block b) = default heap_end (head (frees (a + s) post))) as ->
      by (simpl; by rewrite Hnx1).
    erewrite bind_done by exact E3.
    by rewrite decide_True.
  - eapply (freed_rep h _ pre [(s0, true); (s, false)] post mid n' post'); simpl; fold b; rewrite <- ?Hp; try done.
    + by rewrite Hpm in Hrep.
    + lia.
    + split; [lia|]. Z.to_euclidean_division_equations; lia.
    + by rewrite Hend3, Hend1.
    + intros x Hx. assert (Block x ≠ Block b) as Hxb by (intros [= ->]; lia).
      assert (Block x ≠ Block a) as Hxa by (intros [= ->]; lia).
      rewrite Hsz3, decide_False by done. rewrite fn_lookup_insert_ne by done.
      by rewrite Hsz1, fn_lookup_insert_ne by done.
    + intros k Hk Hx. assert (k ≠ Block b) as Hkb by (apply Hx; lia).
      by rewrite Hnx3, fn_lookup_insert_ne, Hnx1 by done.
    + by rewrite Hsz3, decide_True.
    + by rewrite Hnx3, fn_lookup_insert_ne, Hnx1 by done.
    + by rewrite Hnx3, fn_lookup_insert.
    + lia.
    + lia.
Qed.

Lemma merge_release pre s post : coalesced (pre ++ (s, false) :: post) → last_free pre = false →
  merge (pre ++ (s, true) :: post) = pre ++ ((absorb s post).1, true) :: (absorb s post).2.
Proof.
  intros (Hc1 & Hc2 & _)%coalesced_app Hlf. rewrite merge_app; [|done|by rewrite Hlf].
  rewrite merge_free; [done|apply Hc2].
Qed.

Lemma merge_release_free pre s0 s post : coalesced ((pre ++ [(s0, true)]) ++ (s, false) :: post) →
  merge ((pre ++ [(s0, true)]) ++ (s, true) :: post) =
  pre ++ ((absorb (s0 + s) post).1, true) :: (absorb (s0 + s) post).2.
Proof.
  rewrite <- !app_assoc. cbn [app]. intros (Hc1 & Hc2 & Hc3)%coalesced_app.
  cbn [coalesced head_free] in Hc2, Hc3. destruct Hc2 as (_ & _ & Hc2).
  assert (merge ((s0, true) :: (s, true) :: post) = ((absorb (s0 + s) post).1, true) :: (absorb (s0 + s) post).2) as E.
  { cbn [merge]. pose proof (merge_free s post Hc2) as Hm. cbn [merge] in Hm. rewrite Hm, absorb_add. done. }
  rewrite merge_app; [by rewrite E|done|]. rewrite E. exact Hc3.
Qed.

Lemma insert_eq h h1 pre s post fuel :
  heap_rep h (pre ++ (s, false) :: post) → (S (length pre) < fuel)%nat →
  let a := heap_start + total pre in
  freeing h h1 a s →
  ∃ h', prvInsertBlockIntoFreeList ucHeap configTOTAL_HEAP_SIZE asserts fuel a h1 = Done (tt, h') ∧
    heap_rep h' (merge (pre ++ (s, true) :: post)).
Proof.
  intros Hrep Hfuel a Hfr. pose proof (rep_coalesced _ _ Hrep) as Hc. destruct (last_free pre) eqn:Hlf.
  - destruct pre as [|[s0 f] pre _] using rev_ind; [done|].
    unfold last_free in Hlf. rewrite last_snoc in Hlf. subst f. rewrite length_app in Hfuel. simpl in Hfuel.
    rewrite (merge_release_free _ _ _ _ Hc). apply (insert_free h); [done|lia|done].
  - rewrite (merge_release _ _ _ Hc Hlf). apply (insert_used h); [done|done|lia|done].
Qed.

Lemma free_eq fuel h pre s post : heap_rep h (pre ++ (s, false) :: post) → (S (length pre) < fuel)%nat →
  ∃ h', vPortFree ucHeap configTOTAL_HEAP_SIZE asserts fuel (heap_start + total pre + 8) h = Done (tt, h') ∧
    heap_rep h' (merge (pre ++ (s, true) :: post)).
Proof.
  intros Hrep Hfuel. pose proof (block_facts _ _ _ _ _ Hrep) as Hb. cbv zeta in Hb.
  set (a := heap_start + total pre) in *.
  destruct Hb as (Ha & Hlo & Hhi & _ & Hs & _ & Hend & Htop & _ & Hg3 & Htp & _ & [Hsz Hnx] & _).
  unfold vPortFree. rewrite (proj2 (Z.eqb_neq _ _)) by lia. cbv zeta. unfold xHeapStructSize.
  replace (a + 8 - 8) with a by lia. rewrite (u32_in a), validate_ok, ret_bind, gets_id by lia.
  rewrite Hsz, Hnx, allocated_land by lia. change (negb (2 ^ 31 =? 0)) with true. change (0 =? 0) with true.
  rewrite !assert_true, !ret_bind, freed_land by (done || lia).
  assert (free_total (pre ++ (s, false) :: post) + s < 2 ^ 32 ∧ 0 <= free_total (pre ++ (s, false) :: post)) as Hft.
  { pose proof (rep_sizes _ _ Hrep) as Hg. pose proof (rep_total _ _ Hrep) as Ht.
    pose proof (total_bounds _ Hg). pose proof (config_bounds Hcfg). rewrite free_total_app, total_app in *. simpl in *.
    apply good_sizes_app in Hg as [Hg1 _]. pose proof (total_bounds pre Hg1). pose proof (total_bounds post Hg3). lia. }
  rewrite <- (rep_free _ _ Hrep) in Hft. run.
  rewrite (u32_in (xFreeBytesRemaining h + s)) by lia.
  match goal with |- context [(prvInsertBlockIntoFreeList _ _ _ _ _ ≫= _) ?h1] =>
    destruct (insert_eq h h1 pre s post fuel Hrep Hfuel) as (h2 & E & Hrep2) end; [done|].
  erewrite bind_done by exact E. run. eexists. split; [reflexivity|].
  destruct Hrep2. by split.
Qed.

Lemma allocate_blocks w bs off bs' : allocate w bs = Some (off, bs') → coalesced bs → 0 < w →
  ∃ pre size rest, bs' = pre ++ (size, false) :: rest ∧ off = total pre ∧ w <= size ∧
    merge (pre ++ (size, true) :: rest) = bs ∧ (length pre < length bs)%nat.
Proof.
  unfold allocate. destruct (first_fit w bs) as [[[pre s] post]|] eqn:E; [|done]. simpl.
  apply first_fit_Some in E as (-> & Hws & _). intros [= <- <-] Hc Hw.
  pose proof Hc as (Hc1 & Hc2 & Hc3)%coalesced_app. cbn [coalesced] in Hc2.
  exists pre. rewrite length_app. case (Z.ltb_spec 16 (s - w)); intros Hsw; simpl.
  - exists w, ((s - w, true) :: post). split_and!; try done; [|lia].
    assert (merge ((w, true) :: (s - w, true) :: post) = (s, true) :: post) as Hm.
    { cbn [merge]. pose proof (merge_free (s - w) post (proj2 Hc2)) as Hm. cbn [merge] in Hm.
      rewrite (merge_coalesced post (proj2 Hc2)).
      destruct post as [|[s1 []] post]; [..|]; simpl in *; try (by destruct Hc2); do 2 f_equal; lia. }
    rewrite merge_app; [by rewrite Hm|done|]. by rewrite Hm.
  - exists s, post. split_and!; try done; [|lia]. by apply merge_coalesced.
Qed.

(** ** Zeroed allocation and statistics *)

Lemma calloc_eq fuel xNum xSize h bs : heap_state h bs → is_u32 xNum → is_u32 xSize → (length bs < fuel)%nat →
  ∃ r h', pvPortCalloc ucHeap configTOTAL_HEAP_SIZE asserts fuel xNum xSize h = Done (r, h') ∧
    match (if xNum * xSize <? 2 ^ 32 then request (xNum * xSize) bs else None) with
    | Some (off, bs') => r = heap_start + off + 8 ∧ heap_rep h' bs' ∧
        (∀ x, r <= x < r + xNum * xSize → contents h' x = 0)
    | None => r = 0 ∧ heap_state h' bs
    end.
Proof.
  intros Hst Hn Hm Hfuel. unfold is_u32 in *. unfold pvPortCalloc.
  assert (heapMULTIPLY_WILL_OVERFLOW xNum xSize = negb (xNum * xSize <? 2 ^ 32)) as ->.
  { unfold heapMULTIPLY_WILL_OVERFLOW, heapSIZE_MAX. case (Z.ltb_spec 0 xNum); intros H0; cbn [andb].
    - case (Z.ltb_spec ((2 ^ 32 - 1) / xNum) xSize); intros H1; case (Z.ltb_spec (xNum * xSize) (2 ^ 32)); intros H2;
        try done; exfalso; Z.to_euclidean_division_equations; nia.
    - rewrite (proj2 (Z.ltb_lt _ _)); [done|]. nia. }
  rewrite negb_involutive. case (Z.ltb_spec (xNum * xSize) (2 ^ 32)); intros Hmul; [|by exists 0, h].
  destruct (malloc_eq fuel (xNum * xSize) h bs Hst) as (r & h1 & E & Hres); [unfold is_u32; nia|done|].
  erewrite bind_done by exact E. destruct (request (xNum * xSize) bs) as [[off bs']|] eqn:Er.
  - destruct Hres as [-> Hrep]. pose proof (config_bounds Hcfg).
    unfold request in Er. destruct (_ && _) in Er; [|done].
    assert (0 <= off) as Hoff.
    { unfold allocate in Er. destruct (first_fit _ bs) as [[[pre s] post]|] eqn:Ef; [|done]. simpl in Er.
      injection Er as <- <-. pose proof (rep_sizes _ _ Hrep) as Hg. apply good_sizes_app in Hg as [Hg _].
      pose proof (total_bounds pre Hg). lia. }
    rewrite (proj2 (Z.eqb_neq _ _)) by lia. cbn [negb]. unfold clear. run.
    eexists _, _. split; [reflexivity|]. split; [done|]. split; [by destruct Hrep; split|].
    simpl. intros x Hx. by rewrite (proj2 (Z.leb_le _ _)), (proj2 (Z.ltb_lt _ _)) by lia.
  - destruct Hres as [-> Hrep]. exists 0, h1. split; [done|]. split; [done|]. by left.
Qed.

(** The sizes of the free blocks. *)
Fixpoint free_sizes (bs : list block) : list Z :=
  match bs with [] => [] | (s, f) :: bs => (if f : bool then [s] else []) ++ free_sizes bs end.

Lemma stats_loop_spec h r a bs fuel n mx mn :
  links (pxNextFreeBlock h) r (frees a bs) heap_end → headers (pxNextFreeBlock h) (xBlockSize h) a bs →
  good_sizes bs → a + total bs <= heap_end → pxEnd h = heap_end → (length bs < fuel)%nat →
  0 <= n → n + len bs < 2 ^ 32 →
  stats_loop fuel h (pxNextFreeBlock h r) n mx mn =
  Done (n + len (free_sizes bs), foldl Z.max mx (free_sizes bs), foldl Z.min mn (free_sizes bs)).
Proof.
  revert r a fuel n mx mn. induction bs as [|[s f] bs IH]; intros r a fuel n mx mn Hl Hh Hg Ha Hend Hf Hn Hn2;
    (destruct fuel as [|fuel]; [simpl in Hf; lia|]).
  - simpl in Hl. cbn [stats_loop]. rewrite Hl, Hend, Z.eqb_refl. simpl. by rewrite Z.add_0_r.
  - apply good_sizes_cons in Hg as [[Hs _] Hg]. pose proof (total_bounds bs Hg). rewrite len_cons in Hn2.
    pose proof (len_nonneg bs). simpl in Hl, Hh, Ha, Hf. destruct Hh as [Hh1 Hh2]. destruct f; simpl in Hl |- *.
    + destruct Hl as [-> Hl]. rewrite Hend, (proj2 (Z.eqb_neq _ _)) by lia. cbn [negb].
      rewrite u32_in by lia. rewrite (IH (Block a) (a + s)) by (done || lia). rewrite Hh1, len_cons.
      assert ((if mx <? s then s else mx) = Z.max mx s) as -> by (case (Z.ltb_spec mx s); lia).
      assert ((if s <? mn then s else mn) = Z.min mn s) as -> by (case (Z.ltb_spec s mn); lia).
      do 3 f_equal. lia.
    + apply (IH r (a + s) (S fuel)); done || lia.
Qed.

Lemma stats_eq fuel h bs : heap_rep h bs → (length bs < fuel)%nat → len bs < 2 ^ 32 →
  vPortGetHeapStats fuel h = Done (HeapStats (free_total bs) (foldl Z.max 0 (free_sizes bs))
    (foldl Z.min (2 ^ 32 - 1) (free_sizes bs)) (len (free_sizes bs)) (xMinimumEverFreeBytesRemaining h)
    (xNumberOfSuccessfulAllocations h) (xNumberOfSuccessfulFrees h), h).
Proof.
  intros Hrep Hf Hn. pose proof Hrep as [Hend Htot Hh Hl _ _ Hg _ Hfree _]. pose proof (config_bounds Hcfg).
  assert (pxNextFreeBlock h xStart ≠ 0).
  { rewrite (links_head _ _ _ _ Hl). destruct (frees heap_start bs) as [|x fs] eqn:E; simpl; [lia|].
    assert (x ∈ frees heap_start bs) as Hx by (rewrite E; left). apply frees_bounds in Hx; [lia|done]. }
  unfold vPortGetHeapStats. rewrite gets_id, (proj2 (Z.eqb_neq _ _)) by done. cbn [negb].
  erewrite lift_bind by (apply (stats_loop_spec h xStart heap_start bs); done || lia).
  by rewrite Hfree.
Qed.
End representation.

(** ** Properties *)

(** C20 (refinement): [pvPortMalloc] is first fit. A request of [n] bytes takes
    the first free block that is large enough for it with its header, rounded up
    to the alignment; what is left over becomes a free block when it is more
    than 16 bytes. The pointer is not null, is aligned, and lies behind the
    header of a block with room for [n] bytes; nothing else changes hands. When
    the request is empty or too large, or no free block is large enough, the
    result is [NULL] and the blocks are as before. The first call sets the heap
    up; the search ends; no access is out of bounds and no assertion fails. *)
Theorem malloc_first_fit ucHeap size asserts fuel n h bs :
  heap_config ucHeap size → heap_state ucHeap size h bs → is_u32 n → (length bs < fuel)%nat →
  ∃ r h', pvPortMalloc ucHeap size asserts fuel n h = Done (r, h') ∧
    match request n bs with
    | Some (off, bs') =>
        r = heap_start ucHeap + off + 8 ∧ r ≠ 0 ∧ r mod 8 = 0 ∧ heap_rep ucHeap size h' bs' ∧
        ∃ pre block_size rest, bs' = pre ++ (block_size, false) :: rest ∧ off = total pre ∧ n + 8 <= block_size
    | None => r = 0 ∧ heap_rep ucHeap size h' bs
    end.
Proof.
  intros Hcfg Hst Hn Hfuel. destruct (malloc_eq ucHeap size asserts Hcfg fuel n h bs Hst Hn Hfuel) as (r & h' & E & Hres).
  exists r, h'. split; [done|]. destruct (heap_ready _ _ Hcfg _ _ Hst) as (h1 & _ & Hrep).
  destruct (block_size_spec n Hn) as (Hsz & _ & _). unfold request in *.
  destruct (_ && _) eqn:Ev; [|done]. apply andb_true_iff in Ev as [Hpos%Z.ltb_lt _].
  destruct (allocate (block_size n) bs) as [[off bs']|] eqn:Ea; [|done]. destruct Hres as [-> Hrep'].
  destruct (allocate_fits _ _ Hcfg _ _ _ _ _ Hrep Ea) as (_ & Hoff & Hoff8 & _).
  destruct (allocate_blocks _ _ _ _ Ea (rep_coalesced _ _ _ _ Hrep) Hpos) as (pre & sz & rest & -> & -> & Hle & _).
  pose proof (config_bounds _ _ Hcfg). split_and!; try done; try lia.
  - Z.to_euclidean_division_equations; lia.
  - exists pre, sz, rest. split_and!; [done..|lia].
Qed.

(** [vPortFree] releases a block: it becomes free and is joined
    with the free blocks next to it on either side, so that no two free blocks
    are ever adjacent; every other block keeps its place, size and owner. *)
Theorem free_joins ucHeap size asserts fuel h pre s post :
  heap_config ucHeap size → heap_rep ucHeap size h (pre ++ (s, false) :: post) → (S (length pre) < fuel)%nat →
  ∃ h', vPortFree ucHeap size asserts fuel (heap_start ucHeap + total pre + 8) h = Done (tt, h') ∧
    heap_rep ucHeap size h' (merge (pre ++ (s, true) :: post)).
Proof. intros Hcfg. by apply free_eq. Qed.

(** To allocate and to free again restores the heap: the same
    blocks, the same number of free bytes; the allocator does not fragment by
    itself. *)
Theorem malloc_free ucHeap size asserts fuel n h bs r h1 :
  heap_config ucHeap size → heap_state ucHeap size h bs → is_u32 n → (S (length bs) < fuel)%nat →
  pvPortMalloc ucHeap size asserts fuel n h = Done (r, h1) → r ≠ 0 →
  ∃ h2, vPortFree ucHeap size asserts fuel r h1 = Done (tt, h2) ∧ heap_rep ucHeap size h2 bs ∧
    xFreeBytesRemaining h2 = free_total bs.
Proof.
  intros Hcfg Hst Hn Hfuel E Hr.
  destruct (malloc_eq ucHeap size asserts Hcfg fuel n h bs Hst Hn) as (r' & h' & E' & Hres); [lia|].
  rewrite E in E'. injection E' as <- <-. destruct (heap_ready _ _ Hcfg _ _ Hst) as (h0 & _ & Hrep0).
  unfold request in Hres. destruct (_ && _) eqn:Ev in Hres; [|by destruct Hres].
  apply andb_true_iff in Ev as [Hpos%Z.ltb_lt _].
  destruct (allocate (block_size n) bs) as [[off bs']|] eqn:Ea; [|by destruct Hres]. destruct Hres as [-> Hrep].
  destruct (allocate_blocks _ _ _ _ Ea (rep_coalesced _ _ _ _ Hrep0) Hpos) as (pre & sz & rest & -> & -> & _ & Hm & Hlen).
  destruct (free_eq ucHeap size asserts Hcfg fuel h1 pre sz rest Hrep) as (h2 & E2 & Hrep2); [lia|].
  rewrite Hm in Hrep2. exists h2. split; [done|]. split; [done|]. apply (rep_free _ _ _ _ Hrep2).
Qed.

(** ** A heap *)

Module HeapDemo.
(** A heap array of the configured size at an address that is not aligned. *)
Definition ucHeap : Z := 541065220.
Definition size : Z := 65535.
Definition before : heap := Heap (λ _, 0) (λ _, 0) 0 0 0 0 0 (λ _, 0).
Lemma config : heap_config ucHeap size.
Proof. by_compute. Qed.
Lemma state : heap_state ucHeap size before (fresh_blocks ucHeap size).
Proof. by right. Qed.

(** The heap after the first allocation, of 100 bytes. *)
Definition one : heap :=
  match pvPortMalloc ucHeap size true 9 100 before with Done (_, h) => h | _ => before end.
Lemma one_rep : heap_rep ucHeap size one ([] ++ (112, false) :: [(65408, true)]).
Proof.
  split; by_compute.
Qed.
End HeapDemo.

Lemma malloc_first_fit_witness :
  ∃ r h', pvPortMalloc HeapDemo.ucHeap HeapDemo.size true 9 100 HeapDemo.before = Done (r, h') ∧
    r = heap_start HeapDemo.ucHeap + 0 + 8 ∧ r ≠ 0 ∧ r mod 8 = 0 ∧
    heap_rep HeapDemo.ucHeap HeapDemo.size h' [(112, false); (65408, true)] ∧
    ∃ pre block_size rest, [(112, false); (65408, true)] = pre ++ (block_size, false) :: rest ∧ 0 = total pre ∧
      100 + 8 <= block_size.
Proof.
  apply (malloc_first_fit HeapDemo.ucHeap HeapDemo.size true 9 100 HeapDemo.before
    (fresh_blocks HeapDemo.ucHeap HeapDemo.size)); [apply HeapDemo.config|apply HeapDemo.state|by_compute|simpl; lia].
Defined.

Lemma free_joins_witness :
  ∃ h', vPortFree HeapDemo.ucHeap HeapDemo.size true 9 (heap_start HeapDemo.ucHeap + total [] + 8) HeapDemo.one =
      Done (tt, h') ∧
    heap_rep HeapDemo.ucHeap HeapDemo.size h' [(65520, true)].
Proof.
  apply (free_joins HeapDemo.ucHeap HeapDemo.size true 9 HeapDemo.one [] 112 [(65408, true)]);
    [apply HeapDemo.config|apply HeapDemo.one_rep|simpl; lia].
Defined.

Lemma malloc_free_witness :
  ∃ h2, vPortFree HeapDemo.ucHeap HeapDemo.size true 9 541065232 HeapDemo.one = Done (tt, h2) ∧
    heap_rep HeapDemo.ucHeap HeapDemo.size h2 (fresh_blocks HeapDemo.ucHeap HeapDemo.size) ∧
    xFreeBytesRemaining h2 = free_total (fresh_blocks HeapDemo.ucHeap HeapDemo.size).
Proof.
  apply (malloc_free HeapDemo.ucHeap HeapDemo.size true 9 100 HeapDemo.before _ 541065232 HeapDemo.one);
    [apply HeapDemo.config|apply HeapDemo.state|by_compute|simpl; lia|by vm_compute|done].
Defined.
