(* ===== verification/RtosQueue.v ===== *)
(** * The kernel's queues

    [FreeRTOS/Source/queue.c]: queues of fixed-size items in a ring of bytes, and
    the semaphores and mutexes built on them. The state is one queue and the rest
    of the kernel. The rest is a parameter: the table [task_ops] for what
    [queue.c] calls in [tasks.c] and the heap, and two functions for what happens
    while the caller does not run: [others], the other tasks and interrupts, and
    [interrupts], the interrupts alone while the queue is locked.

    The options of the kernel are those of [lwip_FreeRTOS_s32k344.mex]: mutexes and
    dynamic allocation on, queue sets off. The number and type of a queue for
    tracing and the registry, which only a debugger reads, are left out. Pointers are
    32-bit addresses, 0 is [NULL]. A critical section is one piece of a function
    between two occurrences of [others]. *)

From stdpp Require Import relations.
From S2P Require Import Prelude.
From S2P Require RtosList.
Local Open Scope Z_scope.

(** ** Data *)

Definition pdPASS : Z := 1.
Definition pdFAIL : Z := 0.
Definition errQUEUE_EMPTY : Z := 0.
Definition errQUEUE_FULL : Z := 0.
Definition queueUNLOCKED : Z := -1.
Definition queueLOCKED_UNMODIFIED : Z := 0.
Definition queueINT8_MAX : Z := 127.
Definition queueQUEUE_IS_MUTEX : Z := 0.
Definition queueSEND_TO_BACK : Z := 0.
Definition queueSEND_TO_FRONT : Z := 1.
Definition queueOVERWRITE : Z := 2.
Definition queueSEMAPHORE_QUEUE_ITEM_LENGTH : Z := 0.
Definition queueMUTEX_GIVE_BLOCK_TIME : Z := 0.
Definition SIZE_MAX : Z := 2 ^ 32 - 1.
Definition sizeof_Queue_t : Z := 80.
Definition tskIDLE_PRIORITY : Z := 0.
Abbreviation portMAX_DELAY := RtosList.portMAX_DELAY.

(** An event list: the waiting tasks with the values they are sorted by. *)
Abbreviation event := (Z * Z)%type.

(** [address] is where the structure lies; its storage area, the bytes
    [storage], follows it. The two words of the union [u] are [u_first] and
    [u_second]. *)
Record Queue_t := Queue {
  pcHead : Z;
  pcWriteTo : Z;
  u_first : Z;
  u_second : Z;
  xTasksWaitingToSend : list event;
  xTasksWaitingToReceive : list event;
  uxMessagesWaiting : Z;
  uxLength : Z;
  uxItemSize : Z;
  cRxLock : Z;
  cTxLock : Z;
  address : Z;
  storage : bytes;
}.

(** [u.xQueue] and [u.xSemaphore]. *)
Definition pcTail : Queue_t → Z := u_first.
Definition pcReadFrom : Queue_t → Z := u_second.
Definition xMutexHolder : Queue_t → Z := u_first.
Definition uxRecursiveCallCount : Queue_t → Z := u_second.

Definition with_head x (q : Queue_t) : Queue_t := let '(Queue _ w a b s r n l i c d m y) := q in Queue x w a b s r n l i c d m y.
Definition with_write x (q : Queue_t) : Queue_t := let '(Queue h _ a b s r n l i c d m y) := q in Queue h x a b s r n l i c d m y.
Definition with_first x (q : Queue_t) : Queue_t := let '(Queue h w _ b s r n l i c d m y) := q in Queue h w x b s r n l i c d m y.
Definition with_second x (q : Queue_t) : Queue_t := let '(Queue h w a _ s r n l i c d m y) := q in Queue h w a x s r n l i c d m y.
Definition with_send x (q : Queue_t) : Queue_t := let '(Queue h w a b _ r n l i c d m y) := q in Queue h w a b x r n l i c d m y.
Definition with_receive x (q : Queue_t) : Queue_t := let '(Queue h w a b s _ n l i c d m y) := q in Queue h w a b s x n l i c d m y.
Definition with_messages x (q : Queue_t) : Queue_t := let '(Queue h w a b s r _ l i c d m y) := q in Queue h w a b s r x l i c d m y.
Definition with_rx_lock x (q : Queue_t) : Queue_t := let '(Queue h w a b s r n l i _ d m y) := q in Queue h w a b s r n l i x d m y.
Definition with_tx_lock x (q : Queue_t) : Queue_t := let '(Queue h w a b s r n l i c _ m y) := q in Queue h w a b s r n l i c x m y.
Definition with_storage x (q : Queue_t) : Queue_t := let '(Queue h w a b s r n l i c d m _) := q in Queue h w a b s r n l i c d m x.

(** The two event lists. *)
Inductive event_list := Sending | Receiving.
Definition waiting (l : event_list) : Queue_t → list event :=
  match l with Sending => xTasksWaitingToSend | Receiving => xTasksWaitingToReceive end.
Definition with_waiting (l : event_list) (x : list event) : Queue_t → Queue_t :=
  match l with Sending => with_send x | Receiving => with_receive x end.

(** [vListInsert] on an event list: behind the entries of values up to its own
    (see [RtosList.list_insert_position]). *)
Fixpoint place (e : event) (l : list event) : list event :=
  match l with
  | [] => [e]
  | x :: l' => if x.1 <=? e.1 then x :: place e l' else e :: l
  end.

(** What [queue.c] uses of the rest of the kernel. [heap_bytes] is the contents
    of a memory area; [readied] and [delayed] are what
    [xTaskRemoveFromEventList] and [vTaskPlaceOnEventList] do beside the event
    list; [current_event] is the caller's event list item. *)
Record task_ops (T K : Type) := TaskOps {
  pvPortMalloc : Z → K → Z * K;
  heap_bytes : Z → Z → K → bytes;
  vPortFree : Z → K → K;
  readied : Z → K → bool * K;
  current_event : K → event;
  delayed : Z → K → K;
  pvTaskIncrementMutexHeldCount : K → Z * K;
  xTaskPriorityDisinherit : Z → K → bool * K;
  xTaskPriorityInherit : Z → K → bool * K;
  vTaskPriorityDisinheritAfterTimeout : Z → Z → K → K;
  vTaskInternalSetTimeOutState : K → T;
  xTaskCheckForTimeOut : T → Z → K → bool * T * Z * K;
  xTaskGetCurrentTaskHandle : K → Z;
  uxTaskGetNumberOfTasks : K → Z;
  scheduler_suspended : K → bool;
  xTaskResumeAll : K → bool * K;
  vTaskMissedYield : K → K;
  configMAX_PRIORITIES : Z;
}.
Arguments TaskOps {T K}. Arguments pvPortMalloc {T K}. Arguments heap_bytes {T K}. Arguments vPortFree {T K}.
Arguments readied {T K}. Arguments current_event {T K}. Arguments delayed {T K}.
Arguments pvTaskIncrementMutexHeldCount {T K}. Arguments xTaskPriorityDisinherit {T K}.
Arguments xTaskPriorityInherit {T K}. Arguments vTaskPriorityDisinheritAfterTimeout {T K}.
Arguments vTaskInternalSetTimeOutState {T K}. Arguments xTaskCheckForTimeOut {T K}.
Arguments xTaskGetCurrentTaskHandle {T K}. Arguments uxTaskGetNumberOfTasks {T K}.
Arguments scheduler_suspended {T K}. Arguments xTaskResumeAll {T K}. Arguments vTaskMissedYield {T K}.
Arguments configMAX_PRIORITIES {T K}.

Record kernel (K : Type) := Kernel { queue : Queue_t; tasks : K }.
Arguments Kernel {K}. Arguments queue {K}. Arguments tasks {K}.

(** ** Operations *)

Section operations.
Context {T K : Type} (os : task_ops T K) (asserts : bool) (others interrupts : kernel K → kernel K).
Local Abbreviation W := (kernel K).

Definition upd (f : Queue_t → Queue_t) : ST W unit := modify (λ w, Kernel (f (queue w)) (tasks w)).
Definition call {A} (f : K → A * K) : ST W A := λ w, let '(a, k) := f (tasks w) in Done (a, Kernel (queue w) k).
Definition configASSERT (b : bool) : ST W unit := if asserts && negb b then lift Fault else mret tt.
(** A null handle is dereferenced, or stopped by [configASSERT] before that. *)
Definition handle (xQueue : ptr) : ST W Queue_t := match xQueue with OBJ => gets queue | NULL => lift Fault end.
(** [queueYIELD_IF_USING_PREEMPTION] and [taskYIELD_WITHIN_API] *)
Definition yield : ST W unit := modify others.

Definition xTaskRemoveFromEventList (l : event_list) : ST W bool :=
  q ← gets queue;
  match waiting l q with
  | [] => lift Fault
  | (_, task) :: rest => upd (with_waiting l rest);; call (readied os task)
  end.
Definition vTaskPlaceOnEventList (l : event_list) (xTicksToWait : Z) : ST W unit :=
  q ← gets queue;
  e ← gets (λ w, current_event os (tasks w));
  upd (with_waiting l (place e (waiting l q)));;
  call (λ k, (tt, delayed os xTicksToWait k)).

(** Wake the first task of an event list, if any, and [switch] if it has a
    higher priority than the caller. *)
Definition wake (l : event_list) (switch : ST W unit) : ST W unit :=
  q ← gets queue;
  match waiting l q with
  | [] => mret tt
  | _ :: _ => higher ← xTaskRemoveFromEventList l; if higher : bool then switch else mret tt
  end.

(** *** Locking *)

Definition prvLockQueue : ST W unit :=
  upd (λ q, if cRxLock q =? queueUNLOCKED then with_rx_lock queueLOCKED_UNMODIFIED q else q);;
  upd (λ q, if cTxLock q =? queueUNLOCKED then with_tx_lock queueLOCKED_UNMODIFIED q else q).

Definition prvIncrementQueueTxLock (lock : Z) : ST W unit :=
  uxNumberOfTasks ← gets (λ w, uxTaskGetNumberOfTasks os (tasks w));
  if u32 lock <? uxNumberOfTasks then
    configASSERT (negb (lock =? queueINT8_MAX));;
    upd (with_tx_lock ((lock + 1 + 128) mod 256 - 128))
  else mret tt.
Definition prvIncrementQueueRxLock (lock : Z) : ST W unit :=
  uxNumberOfTasks ← gets (λ w, uxTaskGetNumberOfTasks os (tasks w));
  if u32 lock <? uxNumberOfTasks then
    configASSERT (negb (lock =? queueINT8_MAX));;
    upd (with_rx_lock ((lock + 1 + 128) mod 256 - 128))
  else mret tt.

(** The loop of [prvUnlockQueue] for one event list: [n] is the lock count. *)
Fixpoint wake_waiting (l : event_list) (n : nat) : ST W unit :=
  match n with
  | O => mret tt
  | S n =>
      q ← gets queue;
      match waiting l q with
      | [] => mret tt
      | _ :: _ =>
          higher ← xTaskRemoveFromEventList l;
          (if higher : bool then call (λ k, (tt, vTaskMissedYield os k)) else mret tt);;
          wake_waiting l n
      end
  end.

Definition prvUnlockQueue : ST W unit :=
  q ← gets queue;
  wake_waiting Receiving (Z.to_nat (cTxLock q));;
  upd (with_tx_lock queueUNLOCKED);;
  q ← gets queue;
  wake_waiting Sending (Z.to_nat (cRxLock q));;
  upd (with_rx_lock queueUNLOCKED).

Definition prvIsQueueEmpty (q : Queue_t) : bool := uxMessagesWaiting q =? 0.
Definition prvIsQueueFull (q : Queue_t) : bool := uxMessagesWaiting q =? uxLength q.

(** *** Copying items *)

(** [memcpy] to and from the storage area, at an address. *)
Definition write_storage (a : Z) (d : bytes) : ST W unit :=
  q ← gets queue;
  m ← lift (memcpy (storage q) (a - (address q + sizeof_Queue_t)) d);
  upd (with_storage m).

Definition prvCopyDataToQueue (pvItemToQueue : option bytes) (xPosition : Z) : ST W bool :=
  q ← gets queue;
  let uxMessagesWaiting := uxMessagesWaiting q in
  '(xReturn, uxMessagesWaiting) ← (
    if uxItemSize q =? 0 then
      if pcHead q =? queueQUEUE_IS_MUTEX then
        xReturn ← call (xTaskPriorityDisinherit os (xMutexHolder q));
        upd (with_first 0);;
        mret (xReturn, uxMessagesWaiting)
      else mret (false, uxMessagesWaiting)
    else
      item ← lift (match pvItemToQueue with Some d => slice d 0 (uxItemSize q) | None => Fault end);
      if xPosition =? queueSEND_TO_BACK then
        write_storage (pcWriteTo q) item;;
        upd (λ q, with_write (u32 (pcWriteTo q + uxItemSize q)) q);;
        upd (λ q, if pcTail q <=? pcWriteTo q then with_write (pcHead q) q else q);;
        mret (false, uxMessagesWaiting)
      else
        write_storage (pcReadFrom q) item;;
        upd (λ q, with_second (u32 (pcReadFrom q - uxItemSize q)) q);;
        upd (λ q, if pcReadFrom q <? pcHead q then with_second (u32 (pcTail q - uxItemSize q)) q else q);;
        mret (false, if (xPosition =? queueOVERWRITE) && (0 <? uxMessagesWaiting)
                     then u32 (uxMessagesWaiting - 1) else uxMessagesWaiting));
  upd (with_messages (u32 (uxMessagesWaiting + 1)));;
  mret xReturn.

(** The buffer with the item copied to its start. *)
Definition prvCopyDataFromQueue (pvBuffer : option bytes) : ST W (option bytes) :=
  q ← gets queue;
  if negb (uxItemSize q =? 0) then
    upd (λ q, with_second (u32 (pcReadFrom q + uxItemSize q)) q);;
    upd (λ q, if pcTail q <=? pcReadFrom q then with_second (pcHead q) q else q);;
    q ← gets queue;
    lift (item ← slice (storage q) (pcReadFrom q - (address q + sizeof_Queue_t)) (uxItemSize q);
          match pvBuffer with Some b => b ← memcpy b 0 item; mret (Some b) | None => Fault end)
  else mret pvBuffer.

(** *** Creation *)

Definition xQueueGenericReset (xQueue : ptr) (xNewQueue : bool) : ST W Z :=
  configASSERT (bool_decide (xQueue = OBJ));;
  q ← gets queue;
  xReturn ← (
    if bool_decide (xQueue = OBJ) && (1 <=? uxLength q) && (uxItemSize q <=? SIZE_MAX / uxLength q) then
      upd (λ q, with_first (u32 (pcHead q + u32 (uxLength q * uxItemSize q))) q);;
      upd (with_messages 0);;
      upd (λ q, with_write (pcHead q) q);;
      upd (λ q, with_second (u32 (pcHead q + u32 (u32 (uxLength q - 1) * uxItemSize q))) q);;
      upd (with_rx_lock queueUNLOCKED);;
      upd (with_tx_lock queueUNLOCKED);;
      (if negb xNewQueue then wake Sending yield
       else upd (with_send []);; upd (with_receive []));;
      mret pdPASS
    else mret pdFAIL);
  configASSERT (negb (xReturn =? pdFAIL));;
  mret xReturn.

(** The structure's members and storage at their addresses; the first word of
    the storage area is only used when there is one. *)
Definition prvInitialiseNewQueue (uxQueueLength uxItemSize pucQueueStorage pxNewQueue : Z) : ST W unit :=
  upd (with_head (if uxItemSize =? 0 then pxNewQueue else pucQueueStorage));;
  upd (λ q, let '(Queue h w a b s r n _ _ c d m y) := q in Queue h w a b s r n uxQueueLength uxItemSize c d m y);;
  xQueueGenericReset OBJ true;;
  mret tt.

Definition xQueueGenericCreate (uxQueueLength uxItemSize : Z) : ST W ptr :=
  if (0 <? uxQueueLength) && (uxItemSize <=? SIZE_MAX / uxQueueLength) &&
     (u32 (uxQueueLength * uxItemSize) <=? SIZE_MAX - sizeof_Queue_t) then
    let xQueueSizeInBytes := u32 (uxQueueLength * uxItemSize) in
    pxNewQueue ← call (pvPortMalloc os (sizeof_Queue_t + xQueueSizeInBytes));
    if negb (pxNewQueue =? 0) then
      memory ← gets (λ w, heap_bytes os (pxNewQueue + sizeof_Queue_t) xQueueSizeInBytes (tasks w));
      upd (λ q, let '(Queue h w a b s r n l i c d _ _) := q in Queue h w a b s r n l i c d pxNewQueue memory);;
      prvInitialiseNewQueue uxQueueLength uxItemSize (u32 (pxNewQueue + sizeof_Queue_t)) pxNewQueue;;
      mret OBJ
    else mret NULL
  else configASSERT false;; mret NULL.

(** *** Waiting

    The part that the blocking operations share, from the end of their critical
    section to the end of the loop's body: unless the time is over, the caller
    joins the event list when the queue is [still] as it was, does [before] as it
    does, and lets others run. The result says whether the time is over. *)

Definition resume : ST W bool :=
  r ← call (xTaskResumeAll os);
  yield;;
  mret r.

Definition wait_for {A} (l : event_list) (still : Queue_t → bool) (a : A) (before : ST W A)
    (xTimeOut : T) (xTicksToWait : Z) : ST W (bool * A * T * Z) :=
  yield;;
  prvLockQueue;;
  modify interrupts;;
  '(expired, xTimeOut, xTicksToWait) ← call (xTaskCheckForTimeOut os xTimeOut xTicksToWait);
  q ← gets queue;
  if negb expired then
    if still q then
      a ← before;
      vTaskPlaceOnEventList l xTicksToWait;;
      prvUnlockQueue;;
      resumed ← resume;
      (if negb resumed then yield else mret tt);;
      mret (false, a, xTimeOut, xTicksToWait)
    else
      prvUnlockQueue;;
      resume;;
      mret (false, a, xTimeOut, xTicksToWait)
  else
    prvUnlockQueue;;
    resume;;
    mret (true, a, xTimeOut, xTicksToWait).

(** [vTaskInternalSetTimeOutState] in the first round. *)
Definition entry_time (xEntryTime : option T) : ST W T :=
  match xEntryTime with
  | Some t => mret t
  | None => gets (λ w, vTaskInternalSetTimeOutState os (tasks w))
  end.

(** *** Sending *)

(** The event list after an item has been added: wake a receiver, or switch when
    returning a mutex has lowered the caller's priority. *)
Definition wake_receiver (xYieldRequired : bool) : ST W unit :=
  q ← gets queue;
  match xTasksWaitingToReceive q with
  | [] => if xYieldRequired then yield else mret tt
  | _ :: _ => wake Receiving yield
  end.

Fixpoint send_loop (fuel : nat) (pvItemToQueue : option bytes) (xTicksToWait : Z) (xCopyPosition : Z)
    (xEntryTime : option T) : ST W Z :=
  match fuel with
  | O => diverge
  | S fuel =>
      q ← gets queue;
      if (uxMessagesWaiting q <? uxLength q) || (xCopyPosition =? queueOVERWRITE) then
        xYieldRequired ← prvCopyDataToQueue pvItemToQueue xCopyPosition;
        wake_receiver xYieldRequired;;
        mret pdPASS
      else if xTicksToWait =? 0 then mret errQUEUE_FULL
      else
        xTimeOut ← entry_time xEntryTime;
        '(expired, _, xTimeOut, xTicksToWait) ←
           wait_for Sending prvIsQueueFull tt (mret tt) xTimeOut xTicksToWait;
        if expired : bool then mret errQUEUE_FULL
        else send_loop fuel pvItemToQueue xTicksToWait xCopyPosition (Some xTimeOut)
  end.

Definition may_block (xTicksToWait : Z) : ST W unit :=
  suspended ← gets (λ w, scheduler_suspended os (tasks w));
  configASSERT (negb (suspended && negb (xTicksToWait =? 0))).

Definition xQueueGenericSend (fuel : nat) (xQueue : ptr) (pvItemToQueue : option bytes)
    (xTicksToWait xCopyPosition : Z) : ST W Z :=
  q ← handle xQueue;
  configASSERT (negb (bool_decide (pvItemToQueue = None) && negb (uxItemSize q =? 0)));;
  configASSERT (negb ((xCopyPosition =? queueOVERWRITE) && negb (uxLength q =? 1)));;
  may_block xTicksToWait;;
  send_loop fuel pvItemToQueue xTicksToWait xCopyPosition None.

(** The event list after an interrupt has added an item: [pxHigherPriorityTaskWoken]
    is set when the woken task has a higher priority. *)
Definition wake_from_isr (l : event_list) (pxHigherPriorityTaskWoken : option bool) : ST W (option bool) :=
  q ← gets queue;
  match waiting l q with
  | [] => mret pxHigherPriorityTaskWoken
  | _ :: _ =>
      higher ← xTaskRemoveFromEventList l;
      mret (if higher : bool then (λ _, true) <$> pxHigherPriorityTaskWoken else pxHigherPriorityTaskWoken)
  end.

Definition xQueueGenericSendFromISR (xQueue : ptr) (pvItemToQueue : option bytes)
    (pxHigherPriorityTaskWoken : option bool) (xCopyPosition : Z) : ST W (Z * option bool) :=
  q ← handle xQueue;
  configASSERT (negb (bool_decide (pvItemToQueue = None) && negb (uxItemSize q =? 0)));;
  configASSERT (negb ((xCopyPosition =? queueOVERWRITE) && negb (uxLength q =? 1)));;
  if (uxMessagesWaiting q <? uxLength q) || (xCopyPosition =? queueOVERWRITE) then
    prvCopyDataToQueue pvItemToQueue xCopyPosition;;
    woken ← (if cTxLock q =? queueUNLOCKED then wake_from_isr Receiving pxHigherPriorityTaskWoken
             else prvIncrementQueueTxLock (cTxLock q);; mret pxHigherPriorityTaskWoken);
    mret (pdPASS, woken)
  else mret (errQUEUE_FULL, pxHigherPriorityTaskWoken).

Definition xQueueGiveFromISR (xQueue : ptr) (pxHigherPriorityTaskWoken : option bool) :
    ST W (Z * option bool) :=
  q ← handle xQueue;
  configASSERT (uxItemSize q =? 0);;
  configASSERT (negb ((pcHead q =? queueQUEUE_IS_MUTEX) && negb (xMutexHolder q =? 0)));;
  if uxMessagesWaiting q <? uxLength q then
    upd (with_messages (u32 (uxMessagesWaiting q + 1)));;
    woken ← (if cTxLock q =? queueUNLOCKED then wake_from_isr Receiving pxHigherPriorityTaskWoken
             else prvIncrementQueueTxLock (cTxLock q);; mret pxHigherPriorityTaskWoken);
    mret (pdPASS, woken)
  else mret (errQUEUE_FULL, pxHigherPriorityTaskWoken).

(** *** Receiving *)

Fixpoint receive_loop (fuel : nat) (pvBuffer : option bytes) (xTicksToWait : Z) (xEntryTime : option T) :
    ST W (Z * option bytes) :=
  match fuel with
  | O => diverge
  | S fuel =>
      q ← gets queue;
      if 0 <? uxMessagesWaiting q then
        pvBuffer ← prvCopyDataFromQueue pvBuffer;
        upd (with_messages (u32 (uxMessagesWaiting q - 1)));;
        wake Sending yield;;
        mret (pdPASS, pvBuffer)
      else if xTicksToWait =? 0 then mret (errQUEUE_EMPTY, pvBuffer)
      else
        xTimeOut ← entry_time xEntryTime;
        '(expired, _, xTimeOut, xTicksToWait) ←
           wait_for Receiving prvIsQueueEmpty tt (mret tt) xTimeOut xTicksToWait;
        q ← gets queue;
        if (expired : bool) && prvIsQueueEmpty q then mret (errQUEUE_EMPTY, pvBuffer)
        else receive_loop fuel pvBuffer xTicksToWait (Some xTimeOut)
  end.

Definition xQueueReceive (fuel : nat) (xQueue : ptr) (pvBuffer : option bytes) (xTicksToWait : Z) :
    ST W (Z * option bytes) :=
  q ← handle xQueue;
  configASSERT (negb (bool_decide (pvBuffer = None) && negb (uxItemSize q =? 0)));;
  may_block xTicksToWait;;
  receive_loop fuel pvBuffer xTicksToWait None.

(** An item is read and left in the queue: the read position is put back. *)
Definition peek_item (pvBuffer : option bytes) : ST W (option bytes) :=
  q ← gets queue;
  let pcOriginalReadPosition := pcReadFrom q in
  pvBuffer ← prvCopyDataFromQueue pvBuffer;
  upd (with_second pcOriginalReadPosition);;
  mret pvBuffer.

Fixpoint peek_loop (fuel : nat) (pvBuffer : option bytes) (xTicksToWait : Z) (xEntryTime : option T) :
    ST W (Z * option bytes) :=
  match fuel with
  | O => diverge
  | S fuel =>
      q ← gets queue;
      if 0 <? uxMessagesWaiting q then
        pvBuffer ← peek_item pvBuffer;
        wake Receiving yield;;
        mret (pdPASS, pvBuffer)
      else if xTicksToWait =? 0 then mret (errQUEUE_EMPTY, pvBuffer)
      else
        xTimeOut ← entry_time xEntryTime;
        '(expired, _, xTimeOut, xTicksToWait) ←
           wait_for Receiving prvIsQueueEmpty tt (mret tt) xTimeOut xTicksToWait;
        q ← gets queue;
        if (expired : bool) && prvIsQueueEmpty q then mret (errQUEUE_EMPTY, pvBuffer)
        else peek_loop fuel pvBuffer xTicksToWait (Some xTimeOut)
  end.

Definition xQueuePeek (fuel : nat) (xQueue : ptr) (pvBuffer : option bytes) (xTicksToWait : Z) :
    ST W (Z * option bytes) :=
  q ← handle xQueue;
  configASSERT (negb (bool_decide (pvBuffer = None) && negb (uxItemSize q =? 0)));;
  may_block xTicksToWait;;
  peek_loop fuel pvBuffer xTicksToWait None.

Definition xQueueReceiveFromISR (xQueue : ptr) (pvBuffer : option bytes)
    (pxHigherPriorityTaskWoken : option bool) : ST W (Z * option bytes * option bool) :=
  q ← handle xQueue;
  configASSERT (negb (bool_decide (pvBuffer = None) && negb (uxItemSize q =? 0)));;
  if 0 <? uxMessagesWaiting q then
    pvBuffer ← prvCopyDataFromQueue pvBuffer;
    upd (with_messages (u32 (uxMessagesWaiting q - 1)));;
    woken ← (if cRxLock q =? queueUNLOCKED then wake_from_isr Sending pxHigherPriorityTaskWoken
             else prvIncrementQueueRxLock (cRxLock q);; mret pxHigherPriorityTaskWoken);
    mret (pdPASS, pvBuffer, woken)
  else mret (pdFAIL, pvBuffer, pxHigherPriorityTaskWoken).

Definition xQueuePeekFromISR (xQueue : ptr) (pvBuffer : option bytes) : ST W (Z * option bytes) :=
  q ← handle xQueue;
  configASSERT (negb (bool_decide (pvBuffer = None) && negb (uxItemSize q =? 0)));;
  configASSERT (negb (uxItemSize q =? 0));;
  if 0 <? uxMessagesWaiting q then
    pvBuffer ← peek_item pvBuffer;
    mret (pdPASS, pvBuffer)
  else mret (pdFAIL, pvBuffer).

(** *** Semaphores and mutexes *)

Definition prvGetDisinheritPriorityAfterTimeout (q : Queue_t) : Z :=
  match xTasksWaitingToReceive q with
  | e :: _ => u32 (configMAX_PRIORITIES os - e.1)
  | [] => tskIDLE_PRIORITY
  end.

(** The holder of a mutex inherits the priority of the caller that waits for it. *)
Definition inherit (xInheritanceOccurred : bool) : ST W bool :=
  q ← gets queue;
  if pcHead q =? queueQUEUE_IS_MUTEX then call (xTaskPriorityInherit os (xMutexHolder q))
  else mret xInheritanceOccurred.

Definition disinherit : ST W unit :=
  q ← gets queue;
  call (λ k, (tt, vTaskPriorityDisinheritAfterTimeout os (xMutexHolder q)
                    (prvGetDisinheritPriorityAfterTimeout q) k)).

Fixpoint take_loop (fuel : nat) (xTicksToWait : Z) (xEntryTime : option T) (xInheritanceOccurred : bool) :
    ST W Z :=
  match fuel with
  | O => diverge
  | S fuel =>
      q ← gets queue;
      if 0 <? uxMessagesWaiting q then
        upd (with_messages (u32 (uxMessagesWaiting q - 1)));;
        (if pcHead q =? queueQUEUE_IS_MUTEX then
           holder ← call (pvTaskIncrementMutexHeldCount os);
           upd (with_first holder)
         else mret tt);;
        wake Sending yield;;
        mret pdPASS
      else if xTicksToWait =? 0 then mret errQUEUE_EMPTY
      else
        xTimeOut ← entry_time xEntryTime;
        '(expired, xInheritanceOccurred, xTimeOut, xTicksToWait) ←
           wait_for Receiving prvIsQueueEmpty xInheritanceOccurred (inherit xInheritanceOccurred)
             xTimeOut xTicksToWait;
        q ← gets queue;
        if (expired : bool) && prvIsQueueEmpty q then
          (if xInheritanceOccurred : bool then disinherit else mret tt);;
          mret errQUEUE_EMPTY
        else take_loop fuel xTicksToWait (Some xTimeOut) xInheritanceOccurred
  end.

Definition xQueueSemaphoreTake (fuel : nat) (xQueue : ptr) (xTicksToWait : Z) : ST W Z :=
  q ← handle xQueue;
  configASSERT (uxItemSize q =? 0);;
  may_block xTicksToWait;;
  take_loop fuel xTicksToWait None false.

Definition prvInitialiseMutex (fuel : nat) (pxNewQueue : ptr) : ST W unit :=
  match pxNewQueue with
  | OBJ =>
      upd (with_first 0);;
      upd (with_head queueQUEUE_IS_MUTEX);;
      upd (with_second 0);;
      xQueueGenericSend fuel OBJ None 0 queueSEND_TO_BACK;;
      mret tt
  | NULL => mret tt
  end.

Definition xQueueCreateMutex (fuel : nat) : ST W ptr :=
  xNewQueue ← xQueueGenericCreate 1 0;
  prvInitialiseMutex fuel xNewQueue;;
  mret xNewQueue.

Definition xQueueCreateCountingSemaphore (uxMaxCount uxInitialCount : Z) : ST W ptr :=
  if negb (uxMaxCount =? 0) && (uxInitialCount <=? uxMaxCount) then
    xHandle ← xQueueGenericCreate uxMaxCount queueSEMAPHORE_QUEUE_ITEM_LENGTH;
    match xHandle with
    | OBJ => upd (with_messages uxInitialCount);; mret OBJ
    | NULL => mret NULL
    end
  else configASSERT false;; mret NULL.

(** The task that holds the mutex; 0 for a queue that is no mutex. *)
Definition xQueueGetMutexHolder (xSemaphore : ptr) : ST W Z :=
  q ← handle xSemaphore;
  mret (if pcHead q =? queueQUEUE_IS_MUTEX then xMutexHolder q else 0).

Definition xQueueGiveMutexRecursive (fuel : nat) (xMutex : ptr) : ST W Z :=
  q ← handle xMutex;
  current ← gets (λ w, xTaskGetCurrentTaskHandle os (tasks w));
  if xMutexHolder q =? current then
    upd (λ q, with_second (u32 (uxRecursiveCallCount q - 1)) q);;
    q ← gets queue;
    (if uxRecursiveCallCount q =? 0
     then xQueueGenericSend fuel xMutex None queueMUTEX_GIVE_BLOCK_TIME queueSEND_TO_BACK;; mret tt
     else mret tt);;
    mret pdPASS
  else mret pdFAIL.

Definition xQueueTakeMutexRecursive (fuel : nat) (xMutex : ptr) (xTicksToWait : Z) : ST W Z :=
  q ← handle xMutex;
  current ← gets (λ w, xTaskGetCurrentTaskHandle os (tasks w));
  if xMutexHolder q =? current then
    upd (λ q, with_second (u32 (uxRecursiveCallCount q + 1)) q);;
    mret pdPASS
  else
    xReturn ← xQueueSemaphoreTake fuel xMutex xTicksToWait;
    (if negb (xReturn =? pdFAIL)
     then upd (λ q, with_second (u32 (uxRecursiveCallCount q + 1)) q) else mret tt);;
    mret xReturn.

(** *** Queries and deletion *)

Definition uxQueueMessagesWaiting (xQueue : ptr) : ST W Z := q ← handle xQueue; mret (uxMessagesWaiting q).
Definition uxQueueSpacesAvailable (xQueue : ptr) : ST W Z :=
  q ← handle xQueue; mret (u32 (uxLength q - uxMessagesWaiting q)).
Definition uxQueueMessagesWaitingFromISR (xQueue : ptr) : ST W Z := q ← handle xQueue; mret (uxMessagesWaiting q).
Definition xQueueIsQueueEmptyFromISR (xQueue : ptr) : ST W bool :=
  q ← handle xQueue; mret (uxMessagesWaiting q =? 0).
Definition xQueueIsQueueFullFromISR (xQueue : ptr) : ST W bool :=
  q ← handle xQueue; mret (uxMessagesWaiting q =? uxLength q).
Definition uxQueueGetQueueItemSize (xQueue : ptr) : ST W Z := q ← handle xQueue; mret (uxItemSize q).
Definition uxQueueGetQueueLength (xQueue : ptr) : ST W Z := q ← handle xQueue; mret (uxLength q).

(** The structure and its storage go back to the heap. *)
Definition vQueueDelete (xQueue : ptr) : ST W unit :=
  q ← handle xQueue;
  call (λ k, (tt, vPortFree os (address q) k)).
End operations.

(** ** The ring of items

    [fifo q items]: the queue holds [items], first in first out. When items have
    bytes, they lie in the slots behind the read position, round the ring. *)

Definition slot (q : Queue_t) (k : Z) : bytes :=
  take (Z.to_nat (uxItemSize q)) (drop (Z.to_nat (k * uxItemSize q)) (storage q)).

Record ring (q : Queue_t) (items : list bytes) (r : Z) : Prop := {
  ring_size : len (storage q) = uxLength q * uxItemSize q;
  ring_head : pcHead q = address q + sizeof_Queue_t;
  ring_room : uxItemSize q <= pcHead q;
  ring_tail : pcTail q = pcHead q + uxLength q * uxItemSize q;
  ring_end : pcTail q < 2 ^ 32;
  ring_index : 0 <= r < uxLength q;
  ring_read : pcReadFrom q = pcHead q + r * uxItemSize q;
  ring_write : pcWriteTo q = pcHead q + ((r + 1 + len items) mod uxLength q) * uxItemSize q;
  ring_items i x : items !! i = Some x → slot q ((r + 1 + Z.of_nat i) mod uxLength q) = x;
}.

Record fifo (q : Queue_t) (items : list bytes) : Prop := {
  fifo_count : uxMessagesWaiting q = len items;
  fifo_room : len items <= uxLength q;
  fifo_length : 1 <= uxLength q < 2 ^ 32;
  fifo_size : 0 <= uxItemSize q;
  fifo_items : Forall (λ x, len x = uxItemSize q) items;
  fifo_ring : 0 < uxItemSize q → ∃ r, ring q items r;
}.

(** All but the event lists and the lock counts. *)
Definition contents (q : Queue_t) :=
  (pcHead q, pcWriteTo q, u_first q, u_second q, uxMessagesWaiting q, uxLength q, uxItemSize q, address q, storage q).

Lemma fifo_contents q q' items : contents q' = contents q → fifo q items → fifo q' items.
Proof.
  unfold contents. intros [= H1 H2 H3 H4 H5 H6 H7 H8 H9] [F1 F2 F3 F4 F5 F6].
  constructor; rewrite ?H5, ?H6, ?H7; try done.
  intros HS. destruct (F6 HS) as [r [R1 R2 R3 R4 R5 R6 R7 R8 R9]]. exists r.
  unfold pcTail, pcReadFrom, slot in *.
  constructor; unfold pcTail, pcReadFrom, slot; rewrite ?H1, ?H2, ?H3, ?H4, ?H6, ?H7, ?H8, ?H9; done.
Qed.

(** The bytes that a write leaves alone, and those it puts in place. *)
Lemma patch_same b off d : 0 <= off → off + len d <= len b →
  take (length d) (drop (Z.to_nat off) (patch b off d)) = d.
Proof.
  intros H0 H1. unfold patch, len in *.
  rewrite drop_app_ge by (rewrite length_take; lia). rewrite length_take.
  replace (Z.to_nat off - Z.to_nat off `min` length b)%nat with 0%nat by lia.
  rewrite drop_0. by rewrite take_app_length.
Qed.
Lemma patch_before b off d a n : 0 <= off → off + len d <= len b → (a + n <= Z.to_nat off)%nat →
  take n (drop a (patch b off d)) = take n (drop a b).
Proof.
  intros H0 H1 H2. unfold patch, len in *.
  rewrite !take_drop_commute. f_equal.
  rewrite take_app_le by (rewrite length_take; lia).
  rewrite take_take. f_equal. lia.
Qed.
Lemma patch_after b off d a n : 0 <= off → off + len d <= len b → (Z.to_nat off + length d <= a)%nat →
  take n (drop a (patch b off d)) = take n (drop a b).
Proof.
  intros H0 H1 H2. unfold patch, len in *.
  rewrite drop_app_ge by (rewrite length_take; lia). rewrite length_take.
  replace (Z.to_nat off `min` length b)%nat with (Z.to_nat off) by lia.
  rewrite drop_app_ge by lia. rewrite drop_drop. do 2 f_equal. lia.
Qed.

(** *** Slots *)

Lemma slot_in_bounds k L S : 0 <= k < L → 0 <= S → 0 <= k * S ∧ k * S + S <= L * S.
Proof. nia. Qed.

Lemma slot_written q k d : len (storage q) = uxLength q * uxItemSize q → 0 <= k < uxLength q →
  len d = uxItemSize q → slot (with_storage (patch (storage q) (k * uxItemSize q) d) q) k = d.
Proof.
  intros Hs Hk Hd. unfold slot. destruct q as [h w a b s r n l S c t m y]. simpl in *.
  pose proof (slot_in_bounds k l S Hk) as Hb. pose proof (len_nonneg d).
  rewrite <- (patch_same y (k * S) d) at 2 by lia. do 2 f_equal. unfold len in *. lia.
Qed.

Lemma slot_other q k j d : len (storage q) = uxLength q * uxItemSize q → 0 <= k < uxLength q →
  0 <= j < uxLength q → j ≠ k → len d = uxItemSize q →
  slot (with_storage (patch (storage q) (k * uxItemSize q) d) q) j = slot q j.
Proof.
  intros Hs Hk Hj Hjk Hd. unfold slot. destruct q as [h w a b s r n l S c t m y]. simpl in *.
  pose proof (len_nonneg d). pose proof (slot_in_bounds k l S Hk) as Hb. pose proof (slot_in_bounds j l S Hj) as Hb'.
  unfold len in *. destruct (Z.lt_total j k) as [Hlt|[->|Hlt]]; [|done|].
  - apply patch_before; unfold len; nia.
  - apply patch_after; unfold len; nia.
Qed.

(** Positions round the ring. *)
Lemma mod_succ a L : 0 < L → 0 <= a → (a + 1) mod L = if L <=? a mod L + 1 then 0 else a mod L + 1.
Proof.
  intros HL Ha. pose proof (Z.mod_pos_bound a L HL).
  rewrite (Z.div_mod a L) at 1 by lia.
  replace (L * (a / L) + a mod L + 1) with (a mod L + 1 + a / L * L) by lia.
  rewrite Z.mod_add by lia.
  case (Z.leb_spec L (a mod L + 1)); intros.
  - replace (a mod L + 1) with L by lia. by rewrite Z.mod_same by lia.
  - rewrite Z.mod_small; lia.
Qed.

Lemma mod_neq a b L : 0 < L → 0 < b - a < L → a mod L ≠ b mod L.
Proof.
  intros HL Hab He.
  assert ((b - a) mod L = 0) as H0.
  { rewrite Zminus_mod, <- He, Z.sub_diag. by rewrite Z.mod_0_l by lia. }
  rewrite Z.mod_small in H0 by lia. lia.
Qed.

(** *** The steps of the copies on the ring *)

Definition advance_write (q : Queue_t) : Queue_t :=
  let q := with_write (u32 (pcWriteTo q + uxItemSize q)) q in
  if pcTail q <=? pcWriteTo q then with_write (pcHead q) q else q.
Definition retreat_read (q : Queue_t) : Queue_t :=
  let q := with_second (u32 (pcReadFrom q - uxItemSize q)) q in
  if pcReadFrom q <? pcHead q then with_second (u32 (pcTail q - uxItemSize q)) q else q.
Definition advance_read (q : Queue_t) : Queue_t :=
  let q := with_second (u32 (pcReadFrom q + uxItemSize q)) q in
  if pcTail q <=? pcReadFrom q then with_second (pcHead q) q else q.
Definition with_slot (k : Z) (x : bytes) (q : Queue_t) : Queue_t :=
  with_storage (patch (storage q) (k * uxItemSize q) x) q.
Definition write_slot (q : Queue_t) (items : list bytes) (r : Z) : Z := (r + 1 + len items) mod uxLength q.

Lemma slot_storage q q' k : storage q' = storage q → uxItemSize q' = uxItemSize q → slot q' k = slot q k.
Proof. unfold slot. by intros -> ->. Qed.

(** What a change of the positions or of an item leaves as it is. *)
Record same_shape (q q' : Queue_t) : Prop := {
  shape_length : uxLength q' = uxLength q;
  shape_size : uxItemSize q' = uxItemSize q;
  shape_head : pcHead q' = pcHead q;
  shape_tail : pcTail q' = pcTail q;
  shape_address : address q' = address q;
  shape_len : len (storage q') = len (storage q);
}.

Lemma ring_intro q q' items items' r r' : ring q items r → same_shape q q' → 0 <= r' < uxLength q →
  pcReadFrom q' = pcHead q + r' * uxItemSize q →
  pcWriteTo q' = pcHead q + (r' + 1 + len items') mod uxLength q * uxItemSize q →
  (∀ i x, items' !! i = Some x → slot q' ((r' + 1 + Z.of_nat i) mod uxLength q) = x) → ring q' items' r'.
Proof.
  intros [R1 R2 R3 R4 R5 R6 R7 R8 R9] [E1 E2 E3 E4 E5 E6]. intros.
  constructor; rewrite ?E1, ?E2, ?E3, ?E4, ?E5, ?E6; done.
Qed.

Lemma advance_write_eq q : pcWriteTo q + uxItemSize q < 2 ^ 32 → 0 <= pcWriteTo q + uxItemSize q →
  same_shape q (advance_write q) ∧ storage (advance_write q) = storage q ∧
  pcReadFrom (advance_write q) = pcReadFrom q ∧
  pcWriteTo (advance_write q) =
    if pcTail q <=? pcWriteTo q + uxItemSize q then pcHead q else pcWriteTo q + uxItemSize q.
Proof.
  intros H H0. unfold advance_write, pcTail, pcReadFrom. destruct q; simpl in *.
  unfold u32. rewrite Z.mod_small by lia. by case (Z.leb_spec).
Qed.

Lemma with_slot_shape k x q : 0 <= k < uxLength q → len (storage q) = uxLength q * uxItemSize q →
  len x = uxItemSize q → same_shape q (with_slot k x q).
Proof.
  intros Hk Hs Hx. unfold with_slot. pose proof (len_nonneg x) as Hx0.
  destruct q; simpl in *. constructor; try done. simpl.
  pose proof (slot_in_bounds _ _ uxItemSize0 Hk). rewrite len_patch; unfold len in *; lia.
Qed.

Lemma ring_push_back q items r x : 0 < uxItemSize q → ring q items r → len items < uxLength q →
  len x = uxItemSize q → ring (advance_write (with_slot (write_slot q items r) x q)) (items ++ [x]) r.
Proof.
  intros HS HR Hn Hx. destruct (HR) as [R1 R2 R3 R4 R5 R6 R7 R8 R9].
  pose proof (len_nonneg items) as Hl0.
  set (k := write_slot q items r) in *. fold (write_slot q items r) in R8. fold k in R8.
  assert (0 <= k < uxLength q) as Hk by (apply Z.mod_pos_bound; lia).
  pose proof (slot_in_bounds k (uxLength q) (uxItemSize q) Hk).
  pose proof (with_slot_shape k x q Hk R1 Hx) as Hsh. set (q1 := with_slot k x q) in *.
  assert (pcWriteTo q1 = pcWriteTo q ∧ pcReadFrom q1 = pcReadFrom q) as [Hw Hr]
    by (subst q1; by destruct q).
  destruct Hsh as [E1 E2 E3 E4 E5 E6]. destruct (advance_write_eq q1) as ([F1 F2 F3 F4 F5 F6]&Fst&Fr&Fw);
    [rewrite Hw, E2, R8; lia..|].
  rewrite Hw, E2, E3, E4, R8, R4 in Fw.
  apply (ring_intro q _ items _ r); auto; [constructor; congruence|congruence| |].
  - rewrite Fw, len_app. change (len [x]) with 1.
    replace (r + 1 + (len items + 1)) with (r + 1 + len items + 1) by lia.
    rewrite mod_succ by lia. fold (write_slot q items r). fold k.
    case (Z.leb_spec); case (Z.leb_spec); intros; nia.
  - intros i y. rewrite (slot_storage q1) by done. rewrite lookup_app_Some. intros [Hi|[Hi Hy]].
    + apply lookup_lt_Some in Hi as Hlt. subst q1. unfold with_slot. rewrite slot_other; eauto.
      * apply Z.mod_pos_bound; lia.
      * apply mod_neq; unfold len in *; lia.
    + destruct (i - length items)%nat as [|j] eqn:E; [|by destruct j]. injection Hy as <-.
      replace ((r + 1 + Z.of_nat i) mod uxLength q) with k
        by (unfold k, write_slot, len in *; do 2 f_equal; lia).
      subst q1. by apply slot_written.
Qed.

Definition before (r L : Z) : Z := if r =? 0 then L - 1 else r - 1.
Definition after (r L : Z) : Z := if L <=? r + 1 then 0 else r + 1.

Lemma before_mod r L a : 0 <= r < L → (before r L + 1 + a) mod L = (r + a) mod L.
Proof.
  intros. unfold before. case (Z.eqb_spec r 0); intros.
  - replace (L - 1 + 1 + a) with (a + 1 * L) by lia. rewrite Z.mod_add by lia. by subst.
  - f_equal. lia.
Qed.
Lemma after_mod r L a : 0 <= r < L → (after r L + a) mod L = (r + 1 + a) mod L.
Proof.
  intros. unfold after. case (Z.leb_spec L (r + 1)); intros; [|done].
  replace (r + 1 + a) with (0 + a + 1 * L) by lia. by rewrite Z.mod_add by lia.
Qed.

Lemma retreat_read_eq q : 0 <= pcReadFrom q - uxItemSize q → pcReadFrom q - uxItemSize q < 2 ^ 32 →
  0 <= pcTail q - uxItemSize q < 2 ^ 32 →
  same_shape q (retreat_read q) ∧ storage (retreat_read q) = storage q ∧
  pcWriteTo (retreat_read q) = pcWriteTo q ∧
  pcReadFrom (retreat_read q) =
    if pcReadFrom q - uxItemSize q <? pcHead q then pcTail q - uxItemSize q else pcReadFrom q - uxItemSize q.
Proof.
  unfold retreat_read, pcTail, pcReadFrom. destruct q; simpl in *. intros H H0 H1.
  unfold u32. rewrite !Z.mod_small by lia. by case (Z.ltb_spec).
Qed.

Lemma advance_read_eq q : 0 <= pcReadFrom q + uxItemSize q < 2 ^ 32 →
  same_shape q (advance_read q) ∧ storage (advance_read q) = storage q ∧
  pcWriteTo (advance_read q) = pcWriteTo q ∧
  pcReadFrom (advance_read q) =
    if pcTail q <=? pcReadFrom q + uxItemSize q then pcHead q else pcReadFrom q + uxItemSize q.
Proof.
  unfold advance_read, pcTail, pcReadFrom. destruct q; simpl in *. intros H.
  unfold u32. rewrite !Z.mod_small by lia. by case (Z.leb_spec).
Qed.

Lemma ring_push_front q items r x : 0 < uxItemSize q → ring q items r → len items < uxLength q →
  len x = uxItemSize q → ring (retreat_read (with_slot r x q)) (x :: items) (before r (uxLength q)).
Proof.
  intros HS HR Hn Hx. destruct (HR) as [R1 R2 R3 R4 R5 R6 R7 R8 R9].
  pose proof (len_nonneg items) as Hl0.
  pose proof (slot_in_bounds r (uxLength q) (uxItemSize q) R6).
  pose proof (with_slot_shape r x q R6 R1 Hx) as Hsh. set (q1 := with_slot r x q) in *.
  assert (pcWriteTo q1 = pcWriteTo q ∧ pcReadFrom q1 = pcReadFrom q) as [Hw Hr] by (subst q1; by destruct q).
  destruct Hsh as [E1 E2 E3 E4 E5 E6].
  destruct (retreat_read_eq q1) as ([F1 F2 F3 F4 F5 F6]&Fst&Fw&Fr); [rewrite ?Hr, ?E4, E2, ?R7, ?R4; nia..|].
  rewrite Hr, E2, E3, E4, R7, R4 in Fr.
  apply (ring_intro q _ items _ r); auto.
  - constructor; congruence.
  - unfold before. case (Z.eqb_spec r 0); lia.
  - rewrite Fr. unfold before. case (Z.eqb_spec r 0); intros; case (Z.ltb_spec); intros; nia.
  - rewrite Fw, Hw, R8, before_mod by lia. rewrite len_cons. do 3 f_equal. lia.
  - intros [|i] y Hi; rewrite (slot_storage q1) by done; rewrite before_mod by lia.
    + injection Hi as <-. rewrite Z.add_0_r, Z.mod_small by lia. subst q1. by apply slot_written.
    + simpl in Hi. apply lookup_lt_Some in Hi as Hlt. subst q1. unfold with_slot. rewrite slot_other; auto.
      * replace (r + Z.of_nat (S i)) with (r + 1 + Z.of_nat i) by lia. eauto.
      * apply Z.mod_pos_bound; lia.
      * rewrite <- (Z.mod_small r (uxLength q)) at 2 by lia.
        apply not_eq_sym, mod_neq; unfold len in *; lia.
Qed.

(** The only slot of a queue of length 1. *)
Lemma ring_overwrite q items r x : 0 < uxItemSize q → ring q items r → uxLength q = 1 →
  len x = uxItemSize q → ring (retreat_read (with_slot r x q)) [x] 0.
Proof.
  intros HS HR HL Hx. assert (r = 0) as -> by (destruct HR; lia).
  replace 0 with (before 0 (uxLength q)) at 2 by (unfold before; simpl; lia).
  apply ring_push_front; auto; [|simpl; unfold len; simpl; lia].
  destruct HR as [R1 R2 R3 R4 R5 R6 R7 R8 R9]. constructor; auto; [|done].
  by rewrite R8, HL, !Z.mod_1_r.
Qed.

Lemma ring_pop q items r x : 0 < uxItemSize q → ring q (x :: items) r → len (x :: items) <= uxLength q →
  ring (advance_read q) items (after r (uxLength q)) ∧ slot q (after r (uxLength q)) = x ∧
  pcReadFrom (advance_read q) = pcHead q + after r (uxLength q) * uxItemSize q ∧
  storage (advance_read q) = storage q.
Proof.
  intros HS HR Hn. destruct (HR) as [R1 R2 R3 R4 R5 R6 R7 R8 R9].
  pose proof (len_nonneg items) as Hl0.
  pose proof (slot_in_bounds r (uxLength q) (uxItemSize q) R6).
  destruct (advance_read_eq q) as ([F1 F2 F3 F4 F5 F6]&Fst&Fw&Fr); [nia|].
  assert (0 <= after r (uxLength q) < uxLength q) as Ha by (unfold after; case (Z.leb_spec); lia).
  assert (pcReadFrom (advance_read q) = pcHead q + after r (uxLength q) * uxItemSize q) as Hread.
  { rewrite Fr, R7, R4. unfold after. case (Z.leb_spec); case (Z.leb_spec); intros; nia. }
  split; [|split; [|done]].
  - apply (ring_intro q _ (x :: items) _ r); auto; [by constructor| |].
    + by rewrite Fw, R8, <- (Z.add_assoc (after _ _)), after_mod, len_cons by lia.
    + intros i y Hi. rewrite (slot_storage q), <- (Z.add_assoc (after _ _)), after_mod by (done || lia).
      rewrite <- (R9 (S i) y Hi). do 2 f_equal. lia.
  - rewrite <- (R9 0%nat x) by done. f_equal. rewrite <- after_mod by lia.
    rewrite Z.add_0_r. by rewrite Z.mod_small.
Qed.

(** ** Copying items

    [put]: the items after one has been sent; [can_put]: when it may be. An item
    of a semaphore has no bytes, and its queue no ring. *)

Definition put (xPosition : Z) (x : bytes) (items : list bytes) : list bytes :=
  if xPosition =? queueSEND_TO_BACK then items ++ [x]
  else if xPosition =? queueOVERWRITE then [x] else x :: items.
Definition can_put (q : Queue_t) (items : list bytes) (xPosition : Z) : Prop :=
  (xPosition = queueSEND_TO_BACK ∨ xPosition = queueSEND_TO_FRONT) ∧ len items < uxLength q ∨
  xPosition = queueOVERWRITE ∧ uxLength q = 1 ∧ 0 < uxItemSize q.
Definition points_to (q : Queue_t) (p : option bytes) (x : bytes) : Prop :=
  len x = uxItemSize q ∧ (0 < uxItemSize q → ∃ rest, p = Some (x ++ rest)).

(** What the copies leave as it is. *)
Record same_side (q q' : Queue_t) : Prop := {
  side_length : uxLength q' = uxLength q;
  side_size : uxItemSize q' = uxItemSize q;
  side_send : xTasksWaitingToSend q' = xTasksWaitingToSend q;
  side_receive : xTasksWaitingToReceive q' = xTasksWaitingToReceive q;
  side_rx : cRxLock q' = cRxLock q;
  side_tx : cTxLock q' = cTxLock q;
}.

Lemma put_back x items : put queueSEND_TO_BACK x items = items ++ [x].
Proof. done. Qed.
Lemma put_front x items : put queueSEND_TO_FRONT x items = x :: items.
Proof. done. Qed.
Lemma put_overwrite x items : put queueOVERWRITE x items = [x].
Proof. done. Qed.
Lemma len_put q items x xPosition : can_put q items xPosition →
  len (put xPosition x items) = if xPosition =? queueOVERWRITE then 1 else len items + 1.
Proof.
  intros [[[->| ->] H]|[-> H]]; rewrite ?put_back, ?put_front, ?put_overwrite, ?len_app, ?len_cons; simpl;
    [done|lia|done].
Qed.

Lemma fifo_put q q1 items x xPosition : fifo q items → can_put q items xPosition → len x = uxItemSize q →
  same_side q q1 → (0 < uxItemSize q → ∃ r, ring q1 (put xPosition x items) r) →
  fifo (with_messages (len (put xPosition x items)) q1) (put xPosition x items).
Proof.
  intros [F1 F2 F3 F4 F5 F6] Hc Hx [E1 E2 _ _ _ _] Hr.
  assert (len (put xPosition x items) <= uxLength q) as Hn.
  { rewrite (len_put q) by done. case (Z.eqb_spec xPosition queueOVERWRITE); [lia|].
    destruct Hc as [[_ H]|[? _]]; [lia|done]. }
  assert (Forall (λ y, len y = uxItemSize q) (put xPosition x items)) as HF.
  { destruct Hc as [[[->| ->] H]|[-> H]]; rewrite ?put_back, ?put_front, ?put_overwrite, ?Forall_app, ?Forall_cons;
      auto. }
  destruct q1 as [h w a b s r n l S c t m y] eqn:Eq1; simpl in *. subst l S.
  constructor; simpl; try done.
  intros HS. destruct (Hr HS) as [r0 [R1 R2 R3 R4 R5 R6 R7 R8 R9]]. exists r0. by constructor.
Qed.

Lemma slice_item x rest n : len x = n → slice (x ++ rest) 0 n = Done x.
Proof.
  intros <-. pose proof (len_nonneg x). rewrite slice_Done.
  - unfold len. rewrite Nat2Z.id. change (Z.to_nat 0) with 0%nat. by rewrite drop_0, take_app_length.
  - done.
  - done.
  - rewrite len_app. pose proof (len_nonneg rest). lia.
Qed.

(** A buffer for an item, and the buffer with an item at its start. *)
Definition room_for (q : Queue_t) (p : option bytes) : Prop :=
  0 < uxItemSize q → ∃ b, p = Some b ∧ uxItemSize q <= len b.
Definition read_into (p : option bytes) (x : bytes) : option bytes := (λ b, x ++ drop (length x) b) <$> p.
Definition next_read (q : Queue_t) : Queue_t := if uxItemSize q =? 0 then q else advance_read q.

Lemma fifo_pop q x items : fifo q (x :: items) →
  fifo (with_messages (len items) (next_read q)) items.
Proof.
  intros [F1 F2 F3 F4 F5 F6]. apply Forall_cons in F5 as [Hx F5]. rewrite len_cons in *.
  unfold next_read. case (Z.eqb_spec (uxItemSize q) 0); intros HS.
  - destruct q; simpl in *. constructor; simpl; try done; lia.
  - assert (0 < uxItemSize q) as HS' by lia. destruct (F6 HS') as [r HR].
    destruct (ring_pop q items r x HS' HR) as (HR'&_); [rewrite len_cons; lia|].
    assert (uxLength (advance_read q) = uxLength q ∧ uxItemSize (advance_read q) = uxItemSize q) as [E1 E2].
    { unfold advance_read. destruct q; simpl. by case_match. }
    destruct (advance_read q); simpl in *; subst. constructor; simpl; try done; [lia|].
    intros _. exists (after r (uxLength q)). destruct HR'. by constructor.
Qed.

Lemma next_read_back q : contents (with_second (pcReadFrom q) (next_read q)) = contents q.
Proof.
  unfold next_read, advance_read, pcReadFrom, contents. destruct q; simpl.
  case_match; [done|]; simpl. by case_match.
Qed.
Lemma next_read_side q : same_side q (next_read q).
Proof. unfold next_read, advance_read. destruct q; simpl. case_match; [by constructor|]. case_match; by constructor. Qed.

Lemma configASSERT_true {K A} asserts b (m : unit → ST (kernel K) A) w : b = true →
  (configASSERT asserts b ≫= m) w = m tt w.
Proof. unfold configASSERT. intros ->. by rewrite andb_false_r. Qed.
Lemma wp_call {K A} D (f : K → A * K) (Q : A → kernel K → Prop) w :
  Q (f (tasks w)).1 (Kernel (queue w) (f (tasks w)).2) → wp D (call f) Q w.
Proof. unfold call, wp. by destruct (f (tasks w)). Qed.

Section copies.
Context {T K : Type} (os : task_ops T K).

Lemma write_storage_eq k x (w : kernel K) items r : ring (queue w) items r →
  0 <= k < uxLength (queue w) → len x = uxItemSize (queue w) →
  write_storage (pcHead (queue w) + k * uxItemSize (queue w)) x w =
    Done (tt, Kernel (with_slot k x (queue w)) (tasks w)).
Proof.
  intros [R1 R2 R3 R4 R5 R6 R7 R8 R9] Hk Hx. pose proof (len_nonneg x) as Hx0.
  pose proof (slot_in_bounds k _ (uxItemSize (queue w)) Hk) as Hb.
  unfold write_storage. rewrite gets_bind.
  replace (pcHead (queue w) + k * uxItemSize (queue w) - (address (queue w) + sizeof_Queue_t))
    with (k * uxItemSize (queue w)) by lia.
  rewrite (lift_bind _ (patch (storage (queue w)) (k * uxItemSize (queue w)) x)); [done|].
  apply memcpy_patch; lia.
Qed.

Lemma copy_to_spec D p x xPosition (w : kernel K) items : fifo (queue w) items →
  can_put (queue w) items xPosition → points_to (queue w) p x →
  wp D (prvCopyDataToQueue os p xPosition)
    (λ _ w', fifo (queue w') (put xPosition x items) ∧ same_side (queue w) (queue w') ∧
       (pcHead (queue w) ≠ queueQUEUE_IS_MUTEX → tasks w' = tasks w)) w.
Proof.
  intros HF Hc [Hx Hp]. destruct (HF) as [F1 F2 F3 F4 F5 F6].
  pose proof (len_nonneg items) as Hl0.
  unfold prvCopyDataToQueue.
  assert (∀ (w1 : kernel K) n (a : bool), same_side (queue w) (queue w1) →
    (0 < uxItemSize (queue w) → ∃ r, ring (queue w1) (put xPosition x items) r) →
    n + 1 = len (put xPosition x items) →
    (pcHead (queue w) ≠ queueQUEUE_IS_MUTEX → tasks w1 = tasks w) →
    wp D (upd (with_messages (u32 (n + 1)));; mret a)
      (λ _ w', fifo (queue w') (put xPosition x items) ∧ same_side (queue w) (queue w') ∧
         (pcHead (queue w) ≠ queueQUEUE_IS_MUTEX → tasks w' = tasks w)) w1) as Hend.
  { intros w1 n a Hs Hr Hn Ht. apply wp_bind, wp_modify, wp_ret. simpl.
    pose proof (fifo_put _ (queue w1) _ _ _ HF Hc Hx Hs Hr) as HF'.
    unfold u32. rewrite Hn, Z.mod_small.
    - split; [done|]. split; [|done]. destruct Hs. destruct (queue w1); simpl in *. by constructor.
    - pose proof (len_nonneg (put xPosition x items)). destruct HF' as [_ G2 _ _ _ _].
      destruct Hs as [E1 _ _ _ _ _]. destruct (queue w1); simpl in *. lia. }
  apply wp_bind, wp_gets. cbv beta zeta. rewrite F1. apply wp_bind.
  case (Z.eqb_spec (uxItemSize (queue w)) 0); intros HS.
  { assert (len items + 1 = len (put xPosition x items)) as Hn.
    { rewrite (len_put (queue w)) by done. case (Z.eqb_spec xPosition queueOVERWRITE); [|done].
      intros ->. destruct Hc as [[[?|?] _]|[_ [_ ?]]]; [done..|lia]. }
    case (Z.eqb_spec (pcHead (queue w)) queueQUEUE_IS_MUTEX); intros Hmutex.
    - apply wp_bind. unfold call, wp. destruct (xTaskPriorityDisinherit os _ _) as [a k] eqn:E.
      apply (Hend (Kernel (with_first 0 (queue w)) k) (len items) a); [|intros; lia|done|done].
      simpl. destruct (queue w). by constructor.
    - apply wp_ret. apply Hend; [by constructor|intros; lia|done|done]. }
  assert (0 < uxItemSize (queue w)) as HS' by lia.
  destruct (Hp HS') as [rest ->]. destruct (F6 HS') as [r HR]. destruct (HR) as [R1 R2 R3 R4 R5 R6 R7 R8 R9].
  apply wp_bind. eapply wp_lift; [by apply slice_item|].
  case (Z.eqb_spec xPosition queueSEND_TO_BACK); intros Hpos.
  - assert (len items < uxLength (queue w)) as Hroom.
    { destruct Hc as [[_ H]|[-> _]]; [done|by subst]. }
    apply wp_bind. eapply wp_intro; [rewrite R8; eapply write_storage_eq; [done| |done]; apply Z.mod_pos_bound; lia|].
    apply wp_bind, wp_modify, wp_bind, wp_modify, wp_ret. simpl.
    apply (Hend (Kernel _ (tasks w))).
    + simpl. unfold with_slot. destruct (queue w); simpl. case_match; by constructor.
    + intros _. exists r. subst. by apply (ring_push_back (queue w)).
    + subst. rewrite put_back, len_app. done.
    + done.
  - apply wp_bind. eapply wp_intro; [rewrite R7; by eapply write_storage_eq|].
    apply wp_bind, wp_modify, wp_bind, wp_modify, wp_ret. simpl.
    apply (Hend (Kernel _ (tasks w))).
    + simpl. unfold with_slot. destruct (queue w); simpl. case_match; by constructor.
    + intros _. destruct Hc as [[[->| ->] H]|[-> [H ?]]]; [done| |].
      * exists (before r (uxLength (queue w))). by apply ring_push_front.
      * exists 0. by eapply ring_overwrite.
    + destruct Hc as [[[->| ->] H]|[-> [H ?]]]; [done| |]; rewrite ?put_front, ?put_overwrite, ?len_cons; simpl; [lia|].
      assert (len items = 0 ∨ len items = 1) as [-> | ->] by lia; done.
    + done.
Qed.

Lemma copy_from_eq p x items (w : kernel K) : fifo (queue w) (x :: items) → room_for (queue w) p →
  prvCopyDataFromQueue p w = Done (read_into p x, Kernel (next_read (queue w)) (tasks w)).
Proof.
  intros [F1 F2 F3 F4 F5 F6] Hp. apply Forall_cons in F5 as [Hx F5].
  unfold prvCopyDataFromQueue, next_read. rewrite gets_bind.
  case (Z.eqb_spec (uxItemSize (queue w)) 0); intros HS; simpl.
  - assert (x = []) as -> by (apply nil_length_inv; unfold len in *; lia).
    destruct w. unfold read_into. by destruct p.
  - assert (0 < uxItemSize (queue w)) as HS' by lia. destruct (F6 HS') as [r HR].
    destruct (Hp HS') as [b [-> Hb]].
    destruct (ring_pop _ items r x HS' HR) as (HR'&Hslot&Hread&Hst); [lia|].
    destruct (HR) as [R1 R2 R3 R4 R5 R6 R7 R8 R9].
    assert (0 <= after r (uxLength (queue w)) < uxLength (queue w)) as Ha
      by (unfold after; case (Z.leb_spec); lia).
    pose proof (slot_in_bounds _ _ (uxItemSize (queue w)) Ha) as Hin.
    fold (advance_read (queue w)). unfold upd. rewrite !modify_bind, gets_bind. simpl.
    change (if pcTail (with_second _ _) <=? _ then _ else _) with (advance_read (queue w)).
    assert (address (advance_read (queue w)) = address (queue w) ∧
            uxItemSize (advance_read (queue w)) = uxItemSize (queue w)) as [E1 E2].
    { unfold advance_read. destruct (queue w); simpl. by case_match. }
    rewrite Hread, Hst, E1, E2. rewrite slice_Done by lia.
    replace (pcHead (queue w) + after r (uxLength (queue w)) * uxItemSize (queue w) -
             (address (queue w) + sizeof_Queue_t))
      with (after r (uxLength (queue w)) * uxItemSize (queue w)) by lia.
    fold (slot (queue w) (after r (uxLength (queue w)))). rewrite Hslot. simpl.
    rewrite memcpy_patch by lia. by rewrite patch_0 by lia.
Qed.
End copies.

(** ** The rest of the system

    [others] and [interrupts] may do to the queue what its operations do: it
    stays a queue, of the same length and item size ([Environment]).

    [Deadline] says that time passes. [left] is a measure of the waiting time that
    remains of [n] ticks since [t]; nothing that happens while the caller waits makes
    it longer, and each time the caller has waited and looks at the clock, its time
    is over or less of it remains. A wait of [portMAX_DELAY] ticks has no end; it is
    never given up as long as the caller is [patient], i.e. no one aborts its delay.

    [env] is what happens while an operation waits: the other tasks, interrupts, and
    changes of the caller itself that leave the contents of the queue alone. *)

Section environment.
Context {T K : Type} (os : task_ops T K) (others interrupts : kernel K → kernel K).
Local Abbreviation W := (kernel K).

Definition stays (f : W → W) : Prop := ∀ w items, fifo (queue w) items →
  (∃ items', fifo (queue (f w)) items') ∧ uxLength (queue (f w)) = uxLength (queue w) ∧
  uxItemSize (queue (f w)) = uxItemSize (queue w).
Class Environment : Prop := { env_others : stays others; env_interrupts : stays interrupts }.

Definition later (left : T → Z → K → nat) (patient : K → Prop) (k k' : K) : Prop :=
  (∀ t n, n ≠ portMAX_DELAY → (left t n k' <= left t n k)%nat) ∧ (patient k → patient k').
Class Deadline (left : T → Z → K → nat) (patient : K → Prop) : Prop := {
  left_check w t n k b t' n' k' : n ≠ portMAX_DELAY → (left t n k <= left t n (tasks (others w)))%nat →
    xTaskCheckForTimeOut os t n k = (b, t', n', k') →
    n' ≠ portMAX_DELAY ∧ (n' = 0 ∨ (left t' n' k' < left t n (tasks w))%nat);
  patient_check t k b t' n' k' : xTaskCheckForTimeOut os t portMAX_DELAY k = (b, t', n', k') →
    n' = portMAX_DELAY ∧ (patient k → b = false ∧ patient k');
  left_others w : later left patient (tasks w) (tasks (others w));
  left_interrupts w : later left patient (tasks w) (tasks (interrupts w));
  left_readied task k : later left patient k (readied os task k).2;
  left_delayed n k : later left patient k (delayed os n k);
  left_missed k : later left patient k (vTaskMissedYield os k);
  left_resume k : later left patient k (xTaskResumeAll os k).2;
  left_inherit holder k : later left patient k (xTaskPriorityInherit os holder k).2;
}.

Definition idle_step (w w' : W) : Prop :=
  w' = others w ∨ w' = interrupts w ∨ contents (queue w') = contents (queue w).
Definition env : W → W → Prop := rtc idle_step.

#[local] Instance env_preorder : PreOrder env.
Proof. apply rtc_po. Qed.
Lemma env_contents w w' : contents (queue w') = contents (queue w) → env w w'.
Proof. intros. apply rtc_once. by right; right. Qed.

Definition well (w : W) : Prop := ∃ items, fifo (queue w) items.
Lemma env_well `{!Environment} w w' : env w w' → well w →
  well w' ∧ uxLength (queue w') = uxLength (queue w) ∧ uxItemSize (queue w') = uxItemSize (queue w).
Proof.
  induction 1 as [|w w1 w' Hs _ IH]; [done|]. intros [items HF].
  assert (well w1 ∧ uxLength (queue w1) = uxLength (queue w) ∧ uxItemSize (queue w1) = uxItemSize (queue w))
    as (Hw1&E1&E2).
  { destruct Hs as [->|[->|Hc]]; [by eapply env_others|by eapply env_interrupts|].
    split; [eexists; by eapply fifo_contents|]. unfold contents in Hc. by simplify_eq. }
  destruct (IH Hw1) as (?&?&?). split; [done|]. split; congruence.
Qed.

(** ** Waiting *)

Section waits.
Context (left : T → Z → K → nat) (patient : K → Prop) `{!Deadline left patient}.

Definition quiet (w w' : W) : Prop := env w w' ∧ later left patient (tasks w) (tasks w').
#[local] Instance quiet_preorder : PreOrder quiet.
Proof.
  split.
  - intros w. split; [reflexivity|]. by split.
  - intros w1 w2 w3 [H1 [H2 P2]] [H3 [H4 P4]]. split; [by etrans|]. split; [|auto].
    intros t n Hn. specialize (H2 t n Hn). specialize (H4 t n Hn). lia.
Qed.

Ltac quiet_trans := cbv beta in *; repeat (etrans; [eassumption|]); reflexivity.

Lemma quiet_bind {D : Prop} {A B} (m : ST W A) (k : A → ST W B) Q w : wp D m (λ _, quiet w) w →
  (∀ a w', quiet w w' → wp D (k a) Q w') → wp D (m ≫= k) Q w.
Proof. intros Hm Hk. apply wp_bind. eapply wp_mono; [done|]. eauto. Qed.

Lemma quiet_yield {D : Prop} w : wp D (yield others) (λ _, quiet w) w.
Proof. apply wp_modify. split; [apply rtc_once; by left|apply left_others]. Qed.

Lemma quiet_upd {D : Prop} f w : contents (f (queue w)) = contents (queue w) → wp D (upd f) (λ _, quiet w) w.
Proof. intros. apply wp_modify. split; [by apply env_contents|]. by split. Qed.

Lemma quiet_call {D : Prop} {A} (f : K → A * K) w : later left patient (tasks w) (f (tasks w)).2 →
  wp D (call f) (λ _, quiet w) w.
Proof.
  intros H. unfold call, wp. destruct (f (tasks w)) as [a k] eqn:E. simpl in H.
  split; [by apply env_contents|done].
Qed.

Lemma contents_waiting l x q : contents (with_waiting l x q) = contents q.
Proof. destruct l; by destruct q. Qed.

Lemma quiet_remove {D : Prop} l w : waiting l (queue w) ≠ [] → wp D (xTaskRemoveFromEventList os l) (λ _, quiet w) w.
Proof.
  intros Hl. unfold xTaskRemoveFromEventList. apply wp_bind, wp_gets.
  destruct (waiting l (queue w)) as [|[v task] rest]; [done|].
  eapply quiet_bind; [apply quiet_upd, contents_waiting|]. intros ? w1 Hq.
  eapply wp_mono; [apply quiet_call, left_readied|]. intros ? w2 ?. quiet_trans.
Qed.

Lemma quiet_wake {D : Prop} l w : wp D (wake os l (yield others)) (λ _, quiet w) w.
Proof.
  unfold wake. apply wp_bind, wp_gets. destruct (waiting l (queue w)) eqn:E; [by apply wp_ret|].
  eapply quiet_bind; [apply quiet_remove; by rewrite E|]. intros [] w1 Hq; [|by apply wp_ret].
  eapply wp_mono; [apply quiet_yield|]. intros ? w2 ?. quiet_trans.
Qed.

Lemma quiet_lock {D : Prop} w : wp D prvLockQueue (λ _, quiet w) w.
Proof.
  unfold prvLockQueue. eapply quiet_bind.
  { apply quiet_upd. destruct (queue w); simpl. by case_match. }
  intros ? w1 Hq. eapply wp_mono; [apply quiet_upd; destruct (queue w1); simpl; by case_match|].
  intros ? w2 ?. quiet_trans.
Qed.

Lemma quiet_wake_waiting {D : Prop} l n w : wp D (wake_waiting os l n) (λ _, quiet w) w.
Proof.
  revert w. induction n as [|n IH]; intros w; [by apply wp_ret|]. simpl. apply wp_bind, wp_gets.
  destruct (waiting l (queue w)) eqn:E; [by apply wp_ret|].
  eapply quiet_bind; [apply quiet_remove; by rewrite E|]. intros higher w1 Hq1.
  apply wp_bind. eapply (wp_mono _ (λ _, quiet w1)).
  { destruct higher; [apply quiet_call; apply left_missed|apply wp_ret; reflexivity]. }
  intros ? w2 Hq2. eapply wp_mono; [apply IH|]. intros ? w3 Hq3. quiet_trans.
Qed.

Lemma quiet_unlock {D : Prop} w : wp D (prvUnlockQueue os) (λ _, quiet w) w.
Proof.
  unfold prvUnlockQueue. apply wp_bind, wp_gets.
  eapply quiet_bind; [apply quiet_wake_waiting|]. intros ? w1 Hq1.
  apply wp_bind. eapply wp_mono; [apply quiet_upd; by destruct (queue w1)|]. intros ? w2 Hq2.
  apply wp_bind, wp_gets, wp_bind. eapply wp_mono; [apply quiet_wake_waiting|]. intros ? w3 Hq3.
  eapply wp_mono; [apply quiet_upd; by destruct (queue w3)|]. intros ? w4 Hq4.
  quiet_trans.
Qed.

(** A caller that gives up the processor runs again after the others. *)
Definition lets_run (w w' : W) : Prop := quiet w w' ∧ ∃ w0, quiet w w0 ∧ w' = others w0.
Lemma lets_run_quiet w w1 w2 : quiet w w1 → lets_run w1 w2 → lets_run w w2.
Proof.
  intros H1 [H2 (w0&H3&->)]. split; [by etrans|]. exists w0. split; [by etrans|done].
Qed.
Lemma yield_lets_run {D : Prop} w : wp D (yield others) (λ _, lets_run w) w.
Proof.
  apply wp_modify. split; [split; [apply rtc_once; by left|apply left_others]|].
  exists w. by split; [reflexivity|].
Qed.
Lemma resume_lets_run {D : Prop} w : wp D (resume os others) (λ _, lets_run w) w.
Proof.
  unfold resume. eapply quiet_bind; [apply quiet_call, left_resume|]. intros b w1 Hq1.
  apply wp_bind. eapply wp_mono; [apply yield_lets_run|]. intros ? w2 Hq2. apply wp_ret. by eapply lets_run_quiet.
Qed.

Lemma quiet_place {D : Prop} l n w : wp D (vTaskPlaceOnEventList os l n) (λ _, quiet w) w.
Proof.
  unfold vTaskPlaceOnEventList. apply wp_bind, wp_gets, wp_bind, wp_gets.
  eapply quiet_bind; [apply quiet_upd, contents_waiting|]. intros ? w1 Hq.
  eapply wp_mono; [by apply quiet_call, left_delayed|]. intros ? w2 ?. quiet_trans.
Qed.

(** One round of waiting: the time left gets shorter, or it is over; a patient
    task that waits forever goes on waiting. *)
Definition passes (n : Z) (w w' : W) : Prop :=
  env w w' ∧ (n = portMAX_DELAY → patient (tasks w) → patient (tasks w')).
Definition gives_up (n : Z) (w : W) : Prop := ¬ (n = portMAX_DELAY ∧ patient (tasks w)).

Definition waited (t : T) (n : Z) (w : W) (expired : bool) (t' : T) (n' : Z) (k : K) : Prop :=
  (n ≠ portMAX_DELAY → n' ≠ portMAX_DELAY ∧ (n' = 0 ∨ (left t' n' k < left t n (tasks w))%nat)) ∧
  (n = portMAX_DELAY → n' = portMAX_DELAY) ∧ (expired = true → gives_up n w).

Lemma checked t n w w1 w2 b t' n' k' : w1 = others w → quiet w1 w2 → quiet w w1 →
  xTaskCheckForTimeOut os t n (tasks w2) = (b, t', n', k') →
  waited t n w b t' n' k' ∧ (n = portMAX_DELAY → patient (tasks w) → patient k').
Proof.
  intros -> [_ [Hl Hp]] [_ [_ Hp1]] E. case (decide (n = portMAX_DELAY)).
  - intros ->. destruct (patient_check _ _ _ _ _ _ E) as [-> Hpc].
    split; [|by intros _ [_ ?]%Hp1%Hp%Hpc].
    split; [done|]. split; [done|]. by intros -> [_ [? _]%Hp1%Hp%Hpc].
  - intros Hn. pose proof (left_check _ _ _ _ _ _ _ _ Hn (Hl t n Hn) E) as H.
    split; [|done]. split; [done|]. split; [done|]. by intros _ [? _].
Qed.

Lemma waited_quiet t n w b t' n' w1 w2 : waited t n w b t' n' (tasks w1) → quiet w1 w2 →
  waited t n w b t' n' (tasks w2).
Proof.
  intros (Hf&Hm&He) [_ [Hl _]]. split; [|done]. intros Hn. destruct (Hf Hn) as [Hn' [?|Hlt]]; [by split; [|left]|].
  split; [done|]. right. specialize (Hl t' n' Hn'). lia.
Qed.

Lemma wait_for_spec {D : Prop} {A} l still (a : A) before t n w :
  (∀ w1, wp D before (λ _, quiet w1) w1) →
  wp D (wait_for os others interrupts l still a before t n)
    (λ '(expired, _, t', n') w', passes n w w' ∧ waited t n w expired t' n' (tasks w') ∧
       ∃ w0, env w w0 ∧ w' = others w0) w.
Proof.
  intros Hb. unfold wait_for.
  apply wp_bind, wp_modify. assert (quiet w (others w)) as Hq1 by (split; [apply rtc_once; by left|apply left_others]).
  apply wp_bind. eapply wp_mono; [apply quiet_lock|]. intros ? w2 Hq2.
  apply wp_bind, wp_modify.
  assert (quiet (others w) (interrupts w2)) as Hq3.
  { cbv beta in *. etrans; [eassumption|]. split; [apply rtc_once; by right; left|apply left_interrupts]. }
  clear Hq2. generalize dependent (interrupts w2). intros w3 Hq3. clear w2.
  apply wp_bind. unfold call at 1. unfold wp at 1.
  destruct (xTaskCheckForTimeOut os t n (tasks w3)) as [[[expired t'] n'] k'] eqn:E.
  destruct (checked t n w _ w3 expired t' n' k' eq_refl Hq3 Hq1 E) as [Hwait Hpat].
  set (w4 := Kernel (queue w3) k').
  assert (env w w4) as He4 by (destruct Hq3, Hq1; etrans; [done|]; etrans; [done|]; by apply env_contents).
  assert (∀ w5, lets_run w4 w5 → passes n w w5 ∧ waited t n w expired t' n' (tasks w5) ∧
    ∃ w0, env w w0 ∧ w5 = others w0) as Hend.
  { intros w5 [Hq (w0&[He0 _]&->)]. split; [|split; [by apply (waited_quiet _ _ _ _ _ _ w4)|]].
    - destruct Hq as [He5 [_ Hp5]]. split; [by etrans|]. intros Hn Hp. by apply Hp5, Hpat.
    - exists w0. split; [by etrans|done]. }
  clear Hwait Hpat Hq3 Hq1 He4 E. clearbody w4. apply wp_bind, wp_gets.
  destruct expired; simpl; [|destruct (still (queue w4))].
  - eapply quiet_bind; [apply quiet_unlock|]. intros ? w5 Hq5. apply wp_bind.
    eapply wp_mono; [apply resume_lets_run|]. intros ? w6 Hq6. apply wp_ret, Hend. by eapply lets_run_quiet.
  - eapply quiet_bind; [apply Hb|]. intros a' w5 Hq5. apply wp_bind.
    eapply wp_mono; [apply quiet_place|]. intros ? w6 Hq6. apply wp_bind.
    eapply wp_mono; [apply quiet_unlock|]. intros ? w7 Hq7. apply wp_bind.
    assert (quiet w4 w7) as Hq by quiet_trans.
    eapply wp_mono; [apply resume_lets_run|]. intros b w8 Hq8. apply wp_bind.
    destruct b; [apply wp_ret, wp_ret, Hend; by eapply lets_run_quiet|].
    eapply wp_mono; [apply yield_lets_run|]. intros ? w9 Hq9. apply wp_ret, Hend.
    destruct Hq8 as [Hq8 _]. eapply lets_run_quiet; [|exact Hq9]. quiet_trans.
  - eapply quiet_bind; [apply quiet_unlock|]. intros ? w5 Hq5. apply wp_bind.
    eapply wp_mono; [apply resume_lets_run|]. intros ? w6 Hq6. apply wp_ret, Hend. by eapply lets_run_quiet.
Qed.

(** ** The operations under interference

    [sent] and [received]: an operation has taken effect once, at one moment
    between [env w w1] and [env w2 w'], when the contents were the [items] of [w1];
    [refused]: it has not, and at one moment [P] held; it was not to wait forever
    ([gives_up]). *)

Definition sent (xPosition : Z) (x : bytes) (w w' : W) : Prop := ∃ w1 w2 items,
  env w w1 ∧ fifo (queue w1) items ∧ can_put (queue w1) items xPosition ∧
  fifo (queue w2) (put xPosition x items) ∧ env w2 w'.
Definition received (keep : bool) (x : bytes) (w w' : W) : Prop := ∃ w1 w2 items,
  env w w1 ∧ fifo (queue w1) (x :: items) ∧ fifo (queue w2) (if keep then x :: items else items) ∧ env w2 w'.
Definition refused (P : Queue_t → list bytes → Prop) (n : Z) (w w' : W) : Prop := gives_up n w ∧ ∃ w1 items,
  env w w1 ∧ fifo (queue w1) items ∧ P (queue w1) items ∧ env w1 w'.

Lemma sent_env xPosition x w w1 w' : env w w1 → sent xPosition x w1 w' → sent xPosition x w w'.
Proof. intros He (w2&w3&items&?&?&?&?&?). exists w2, w3, items. split; [by etrans|done]. Qed.
Lemma received_env keep x w w1 w' : env w w1 → received keep x w1 w' → received keep x w w'.
Proof. intros He (w2&w3&items&?&?&?&?). exists w2, w3, items. split; [by etrans|done]. Qed.
Definition next_ticks (n n' : Z) : Prop := n = portMAX_DELAY → n' = portMAX_DELAY.
Lemma gives_up_passes n n' w w1 : passes n w w1 → next_ticks n n' → gives_up n' w1 → gives_up n w.
Proof. intros [_ Hp] Hn Hg [E H]. apply Hg. split; [by apply Hn|by apply Hp]. Qed.
Lemma refused_passes P n n' w w1 w' : passes n w w1 → next_ticks n n' → refused P n' w1 w' → refused P n w w'.
Proof.
  intros Hp Hn [Hg (w2&items&?&?&?&?)]. split; [by eapply gives_up_passes|].
  destruct Hp. exists w2, items. split; [by etrans|done].
Qed.
Lemma gives_up_none w : gives_up 0 w.
Proof. by intros [? _]. Qed.

Definition full (q : Queue_t) (items : list bytes) : Prop := len items = uxLength q.
Definition no_items (q : Queue_t) (items : list bytes) : Prop := items = [].

(** The rounds that are enough when [n] ticks are left of the time since [t]. *)
Definition rounds (fuel : nat) (t : T) (n : Z) (k : K) : Prop :=
  n ≠ portMAX_DELAY → (0 < fuel)%nat ∧ (n ≠ 0 → (S (left t n k) < fuel)%nat).
Definition entry (e : option T) (w : W) : T := default (vTaskInternalSetTimeOutState os (tasks w)) e.

Lemma rounds_next fuel t n w expired t' n' k' : n ≠ 0 → rounds (S fuel) t n (tasks w) →
  waited t n w expired t' n' k' → rounds fuel t' n' k'.
Proof.
  intros Hn H (Hf&Hm&_) Hn'. destruct (decide (n = portMAX_DELAY)) as [E|E]; [by rewrite Hm in Hn'|].
  destruct (H E) as [_ H1]. specialize (H1 Hn). destruct (Hf E) as [_ [->|Hlt]]; split; lia.
Qed.
(** A wait that may go on forever, and those that start later. *)
Lemma wp_forever {A} n n' (m : ST W A) Q w : (n ≠ portMAX_DELAY → n' ≠ portMAX_DELAY) →
  wp (n' = portMAX_DELAY) m Q w → wp (n = portMAX_DELAY) m Q w.
Proof. intros Hn. unfold wp. destruct (m w) as [[??]| |]; [done..|]. intros H. apply dec_stable. tauto. Qed.

Lemma entry_time_eq e w : entry_time os e w = Done (entry e w, w).
Proof. by destruct e. Qed.

Lemma quiet_wake_receiver {D : Prop} b w : wp D (wake_receiver os others b) (λ _, quiet w) w.
Proof.
  unfold wake_receiver. apply wp_bind, wp_gets. destruct (xTasksWaitingToReceive (queue w)).
  - destruct b; [apply quiet_yield|apply wp_ret; reflexivity].
  - apply quiet_wake.
Qed.

Lemma quiet_inherit {D : Prop} b w : wp D (inherit os b) (λ _, quiet w) w.
Proof.
  unfold inherit. apply wp_bind, wp_gets. case_match; [apply quiet_call, left_inherit|apply wp_ret; reflexivity].
Qed.

(** Where a refused sender has been: the queue was full when it came, and when it
    goes on the others have just run. *)
Definition found_full (n : Z) (w w' : W) : Prop :=
  uxLength (queue w) <= uxMessagesWaiting (queue w) ∧ (n = 0 ∧ w' = w ∨ ∃ w0, env w w0 ∧ w' = others w0).

Lemma send_loop_spec `{!Environment} p x xPosition fuel n e w : well w → points_to (queue w) p x →
  (xPosition = queueSEND_TO_BACK ∨ xPosition = queueSEND_TO_FRONT ∨
   xPosition = queueOVERWRITE ∧ uxLength (queue w) = 1 ∧ 0 < uxItemSize (queue w)) →
  rounds fuel (entry e w) n (tasks w) →
  wp (n = portMAX_DELAY) (send_loop os others interrupts fuel p n xPosition e)
    (λ r w', r = pdPASS ∧ sent xPosition x w w' ∨
             r = errQUEUE_FULL ∧ refused full n w w' ∧ found_full n w w') w.
Proof.
  revert n e w. induction fuel as [|fuel IH]; intros n e w [items HF] Hp Hpos Hr.
  { simpl. unfold diverge, wp. apply dec_stable. intros [? _]%Hr. lia. }
  simpl. apply wp_bind, wp_gets. destruct (HF) as [F1 F2 F3 F4 F5 F6]. rewrite F1.
  destruct ((len items <? uxLength (queue w)) || (xPosition =? queueOVERWRITE)) eqn:Eroom.
  - assert (can_put (queue w) items xPosition) as Hc.
    { apply orb_true_iff in Eroom as [?%Z.ltb_lt| ->%Z.eqb_eq].
      - destruct Hpos as [->|[->|[-> ?]]]; [left; eauto..|by right].
      - destruct Hpos as [?|[?|[_ ?]]]; [done..|by right]. }
    apply wp_bind. eapply wp_mono; [by eapply wp_total_partial, copy_to_spec|]. intros b w2 (HF2&Hside&_).
    apply wp_bind. eapply wp_mono; [apply quiet_wake_receiver|]. intros ? w3 [He _].
    apply wp_ret. left. split; [done|]. exists w, w2, items. split; [reflexivity|done].
  - apply orb_false_iff in Eroom as [Hfull%Z.ltb_ge _].
    assert (len items = uxLength (queue w)) as Hfull' by lia.
    case (Z.eqb_spec n 0); intros Hn.
    { apply wp_ret. right. split; [done|]. subst. split; [|split; [lia|by left]]. split; [apply gives_up_none|].
      exists w, items. split; [reflexivity|]. by split; [|split]. }
    apply wp_bind. eapply wp_intro; [apply entry_time_eq|].
    apply wp_bind. eapply wp_mono; [apply wait_for_spec; intros w1; apply wp_ret; reflexivity|].
    intros [[[expired a] t'] n'] w1 (Hpass&Hwait&Hlast). destruct (Hpass) as [He _]. destruct expired.
    + apply wp_ret. right. split; [done|]. split; [|split; [lia|by right]].
      destruct Hwait as (_&_&Hg). split; [by apply Hg|].
      exists w, items. by split; [reflexivity|].
    + destruct (env_well w w1 He) as (Hw1&E1&E2); [by eexists|].
      destruct (Hwait) as (Hf&Hm&_).
      eapply wp_forever; [intros ?; by apply Hf|].
      eapply wp_mono; [apply IH; [done| | |by eapply rounds_next]|].
      * unfold points_to in *. by rewrite E2.
      * by rewrite E1, E2.
      * intros r w2 [[-> HT]|(->&HT&Hl)]; [left|right]; (split; [done|]); [by eapply sent_env|].
        split; [by eapply refused_passes|]. split; [lia|]. right. destruct Hl as [_ Hl].
        destruct Hl as [[_ ->]|(w0&He0&->)]; [done|]. exists w0. by split; [etrans|].
Qed.

Lemma well_empty w : well w → prvIsQueueEmpty (queue w) = true → fifo (queue w) [].
Proof.
  intros [items HF] He%Z.eqb_eq. destruct (HF) as [F1 _ _ _ _ _].
  destruct items; [done|]. rewrite len_cons in F1. pose proof (len_nonneg items). lia.
Qed.

(** The rounds of the receiving operations in which the queue was empty. *)
Lemma empty_round `{!Environment} {D : Prop} {A R} (a : A) before (fail : A → ST W R)
    (again : T → Z → A → ST W R) (Q : R → W → Prop) fuel n e w :
  well w → n ≠ 0 → rounds (S fuel) (entry e w) n (tasks w) → (∀ w1, wp D before (λ _, quiet w1) w1) →
  (∀ a w1, env w w1 → fifo (queue w1) [] → gives_up n w → wp D (fail a) Q w1) →
  (∀ t' n' a w1, passes n w w1 → next_ticks n n' → (n ≠ portMAX_DELAY → n' ≠ portMAX_DELAY) →
     well w1 → uxItemSize (queue w1) = uxItemSize (queue w) →
     rounds fuel t' n' (tasks w1) → wp D (again t' n' a) Q w1) →
  wp D (t ← entry_time os e;
        '(expired, a, t, n) ← wait_for os others interrupts Receiving prvIsQueueEmpty a before t n;
        q ← gets queue;
        if (expired : bool) && prvIsQueueEmpty q then fail a else again t n a) Q w.
Proof.
  intros Hw Hn Hr Hb Hfail Hagain.
  apply wp_bind. eapply wp_intro; [apply entry_time_eq|].
  apply wp_bind. eapply wp_mono; [by apply wait_for_spec|].
  intros [[[expired a'] t'] n'] w1 (Hpass&Hwait&_). destruct (Hpass) as [He _]. destruct (Hwait) as (Hf&Hm&Hg).
  destruct (env_well w w1 He Hw) as (Hw1&E1&E2).
  apply wp_bind, wp_gets. destruct (expired && prvIsQueueEmpty (queue w1)) eqn:E.
  - apply andb_true_iff in E as [-> E]. apply Hfail; [done| |by apply Hg]. by apply well_empty.
  - apply Hagain; [done|exact Hm|intros ?; by apply Hf|done..|]. by eapply rounds_next.
Qed.

Lemma fifo_nonempty q items : fifo q items → 0 < uxMessagesWaiting q → ∃ x rest, items = x :: rest.
Proof. intros [F1 _ _ _ _ _]. rewrite F1. destruct items; [done|eauto]. Qed.

Lemma count_pop q x items : fifo q (x :: items) → u32 (uxMessagesWaiting q - 1) = len items.
Proof.
  intros [F1 F2 F3 _ _ _]. rewrite F1, len_cons in *. unfold u32. pose proof (len_nonneg items).
  rewrite Z.mod_small; lia.
Qed.

(** The three receiving operations are one loop: [succeed] when there is an item,
    [refuse] when there is none and no time, [fail] when the time is over. *)
Section receiving_loop.
Context `{!Environment} {A R : Type} (loop : nat → Z → option T → A → ST W R).
Context (succeed : Queue_t → ST W R) (refuse fail : A → ST W R) (before : A → ST W A) (size : Z) (Q : Z → W → R → W → Prop).
Hypothesis loop_O : ∀ n e a, loop O n e a = diverge.
Hypothesis loop_S : ∀ fuel n e a, loop (S fuel) n e a =
  (q ← gets queue;
   if 0 <? uxMessagesWaiting q then succeed q
   else if n =? 0 then refuse a
   else t ← entry_time os e;
        '(expired, a, t, n) ← wait_for os others interrupts Receiving prvIsQueueEmpty a (before a) t n;
        q ← gets queue;
        if (expired : bool) && prvIsQueueEmpty q then fail a else loop fuel n (Some t) a).
Hypothesis before_quiet : ∀ D a w, wp D (before a) (λ _, quiet w) w.
Hypothesis succeed_spec : ∀ n w x items, fifo (queue w) (x :: items) → uxItemSize (queue w) = size →
  wp False (succeed (queue w)) (Q n w) w.
Hypothesis give_up_spec : ∀ n a w, fifo (queue w) [] → gives_up n w → wp False (refuse a) (Q n w) w.
Hypothesis fail_spec : ∀ n w a w1, fifo (queue w1) [] → env w w1 → gives_up n w → wp False (fail a) (Q n w) w1.
Hypothesis Q_passes : ∀ n n' w w1 r w', passes n w w1 → next_ticks n n' → Q n' w1 r w' → Q n w r w'.

Lemma receiving_loop fuel n e a w : well w → uxItemSize (queue w) = size → rounds fuel (entry e w) n (tasks w) →
  wp (n = portMAX_DELAY) (loop fuel n e a) (Q n w) w.
Proof.
  revert n e a w. induction fuel as [|fuel IH]; intros n e a w Hw Hs Hr.
  { rewrite loop_O. unfold diverge, wp. apply dec_stable. intros [? _]%Hr. lia. }
  rewrite loop_S. apply wp_bind, wp_gets. case (Z.ltb_spec 0 (uxMessagesWaiting (queue w))); intros Hm.
  - destruct Hw as [items HF]. destruct (fifo_nonempty _ _ HF Hm) as (x&rest&->).
    by eapply wp_total_partial, succeed_spec.
  - assert (fifo (queue w) []) as HF.
    { apply well_empty; [done|]. destruct Hw as [items [F1 _ _ _ _ _]]. apply Z.eqb_eq.
      pose proof (len_nonneg items). lia. }
    case (Z.eqb_spec n 0); intros Hn.
    { apply wp_total_partial, give_up_spec; [done|]. subst. apply gives_up_none. }
    apply (empty_round a (before a) fail (λ t n a, loop fuel n (Some t) a) _ fuel); auto.
    + intros a1 w1 He HF1 Hg. by apply wp_total_partial, fail_spec.
    + intros t' n' a1 w1 Hp Hn' Hn2 Hw1 E2 Hr1. eapply wp_forever; [exact Hn2|].
      eapply wp_mono; [apply IH; [done|congruence|done]|].
      intros r w2 HQ. by eapply Q_passes.
Qed.
End receiving_loop.

(** The result of an operation that reads an item into a buffer. *)
Definition read_result (keep : bool) (p : option bytes) (n : Z) (w : W) (r : Z * option bytes) (w' : W) : Prop :=
  (∃ x, r = (pdPASS, read_into p x) ∧ received keep x w w') ∨ (r = (errQUEUE_EMPTY, p) ∧ refused no_items n w w').

Lemma read_result_passes keep p n n' w w1 r w' : passes n w w1 → next_ticks n n' →
  read_result keep p n' w1 r w' → read_result keep p n w r w'.
Proof.
  intros Hp Hn [(x&->&HT)|(->&HT)]; [left; exists x|right]; (split; [done|]);
    [destruct Hp; by eapply received_env|by eapply refused_passes].
Qed.
Lemma read_result_empty keep p n w w1 : fifo (queue w1) [] → env w w1 → gives_up n w →
  wp False (mret (errQUEUE_EMPTY, p)) (read_result keep p n w) w1.
Proof.
  intros. apply wp_ret. right. split; [done|]. split; [done|].
  exists w1, []. by repeat (split; [reflexivity || done|]).
Qed.

Lemma receive_loop_spec `{!Environment} p fuel n e w : well w → room_for (queue w) p →
  rounds fuel (entry e w) n (tasks w) →
  wp (n = portMAX_DELAY) (receive_loop os others interrupts fuel p n e) (read_result false p n w) w.
Proof.
  intros Hw Hp Hr.
  apply (receiving_loop (λ fuel n e (_ : unit), receive_loop os others interrupts fuel p n e)
           (λ q, pvBuffer ← prvCopyDataFromQueue p; upd (with_messages (u32 (uxMessagesWaiting q - 1)));;
                 wake os Sending (yield others);; mret (pdPASS, pvBuffer))
           (λ _, mret (errQUEUE_EMPTY, p)) (λ _, mret (errQUEUE_EMPTY, p)) (λ _, mret tt)
           (uxItemSize (queue w)) (read_result false p)) with (a := tt);
    eauto using read_result_passes.
  - by intros ? ? ? [].
  - intros D a w1. apply wp_ret. reflexivity.
  - intros n1 w1 x rest HF Hs.
    apply wp_bind. eapply wp_intro; [eapply copy_from_eq; [done|]; unfold room_for in *; by rewrite Hs|].
    apply wp_bind, wp_modify. simpl. rewrite (count_pop _ x rest) by done.
    apply wp_bind. eapply wp_mono; [apply quiet_wake|]. intros ? w3 [He _].
    apply wp_ret. left. exists x. split; [done|].
    eexists w1, _, rest. split; [reflexivity|]. split; [done|]. split; [|exact He]. by apply (fifo_pop _ x).
  - intros n1 a w1 HF Hg. apply read_result_empty; [done|reflexivity|done].
  - intros n1 w1 a w2 HF He Hg. by apply read_result_empty.
Qed.

Lemma peek_item_eq p x items (w : W) : fifo (queue w) (x :: items) → room_for (queue w) p →
  ∃ w', peek_item p w = Done (read_into p x, w') ∧ contents (queue w') = contents (queue w) ∧ tasks w' = tasks w.
Proof.
  intros HF Hp. unfold peek_item. rewrite gets_bind.
  rewrite (bind_done _ _ _ _ _ (copy_from_eq p x items w HF Hp)). unfold upd. rewrite modify_bind.
  eexists. split; [done|]. simpl. split; [|done]. apply next_read_back.
Qed.

Lemma peek_loop_spec `{!Environment} p fuel n e w : well w → room_for (queue w) p →
  rounds fuel (entry e w) n (tasks w) →
  wp (n = portMAX_DELAY) (peek_loop os others interrupts fuel p n e) (read_result true p n w) w.
Proof.
  intros Hw Hp Hr.
  apply (receiving_loop (λ fuel n e (_ : unit), peek_loop os others interrupts fuel p n e)
           (λ q, pvBuffer ← peek_item p; wake os Receiving (yield others);; mret (pdPASS, pvBuffer))
           (λ _, mret (errQUEUE_EMPTY, p)) (λ _, mret (errQUEUE_EMPTY, p)) (λ _, mret tt)
           (uxItemSize (queue w)) (read_result true p)) with (a := tt);
    eauto using read_result_passes.
  - by intros ? ? ? [].
  - intros D a w1. apply wp_ret. reflexivity.
  - intros n1 w1 x rest HF Hs. destruct (peek_item_eq p x rest w1 HF) as (w2&Hpk&Hc&_);
      [unfold room_for in *; by rewrite Hs|].
    apply wp_bind. eapply wp_intro; [done|].
    apply wp_bind. eapply wp_mono; [apply quiet_wake|]. intros ? w3 [He _].
    apply wp_ret. left. exists x. split; [done|].
    eexists w1, w2, rest. split; [reflexivity|]. split; [done|]. split; [|exact He]. by eapply fifo_contents.
  - intros n1 a w1 HF Hg. apply read_result_empty; [done|reflexivity|done].
  - intros n1 w1 a w2 HF He Hg. by apply read_result_empty.
Qed.

(** A semaphore is a queue of items without bytes; the mutex among them records
    its holder. *)
Definition take_result (n : Z) (w : W) (r : Z) (w' : W) : Prop :=
  r = pdPASS ∧ received false [] w w' ∨ r = errQUEUE_EMPTY ∧ refused no_items n w w'.

Lemma take_result_passes n n' w w1 r w' : passes n w w1 → next_ticks n n' →
  take_result n' w1 r w' → take_result n w r w'.
Proof.
  intros Hp Hn [[-> HT]|[-> HT]]; [left|right]; (split; [done|]);
    [destruct Hp; by eapply received_env|by eapply refused_passes].
Qed.

Lemma take_loop_spec `{!Environment} fuel n e b w : well w → uxItemSize (queue w) = 0 →
  rounds fuel (entry e w) n (tasks w) →
  wp (n = portMAX_DELAY) (take_loop os others interrupts fuel n e b) (take_result n w) w.
Proof.
  intros Hw Hs Hr.
  apply (receiving_loop (λ fuel n e b, take_loop os others interrupts fuel n e b)
           (λ q, upd (with_messages (u32 (uxMessagesWaiting q - 1)));;
                 (if pcHead q =? queueQUEUE_IS_MUTEX then
                    holder ← call (pvTaskIncrementMutexHeldCount os); upd (with_first holder)
                  else mret tt);;
                 wake os Sending (yield others);; mret pdPASS)
           (λ _, mret errQUEUE_EMPTY)
           (λ b, (if b : bool then disinherit os else mret tt);; mret errQUEUE_EMPTY) (inherit os)
           0 take_result);
    try (intros; reflexivity); eauto using take_result_passes.
  - intros D a w1. apply quiet_inherit.
  - intros n1 w1 x rest HF Hs1. apply wp_bind, wp_modify. rewrite (count_pop _ x rest) by done.
    assert (∀ h k, fifo (with_messages (len rest) (with_first h (queue w1))) rest →
      wp False (wake os Sending (yield others);; mret pdPASS) (take_result n1 w1)
        (Kernel (with_messages (len rest) (with_first h (queue w1))) k)) as Hend.
    { intros h k HF1. apply wp_bind. eapply wp_mono; [apply quiet_wake|]. intros ? w3 [He _].
      apply wp_ret. left. split; [done|]. eexists w1, _, rest. split; [reflexivity|].
      split; [|by split; [|exact He]].
      destruct (HF) as [_ _ _ _ F5 _]. apply Forall_cons in F5 as [Hx _].
      assert (x = []) as -> by (apply nil_length_inv; unfold len in *; lia). done. }
    assert (∀ h, fifo (with_messages (len rest) (with_first h (queue w1))) rest) as HF1.
    { intros h. apply fifo_pop in HF. unfold next_read in HF. rewrite Hs1 in HF. simpl in HF.
      destruct HF as [F1 F2 F3 F4 F5 F6]. destruct (queue w1); simpl in *. subst.
      constructor; simpl; try done. }
    apply wp_bind. case_match.
    + apply wp_bind, wp_call, wp_modify. simpl.
      assert (∀ h, with_first h (with_messages (len rest) (queue w1)) =
                   with_messages (len rest) (with_first h (queue w1))) as -> by (by destruct (queue w1)).
      apply Hend, HF1.
    + apply wp_ret.
      replace (with_messages (len rest) (queue w1))
        with (with_messages (len rest) (with_first (u_first (queue w1)) (queue w1))) by (by destruct (queue w1)).
      apply Hend, HF1.
  - intros n1 a w1 HF1 Hg. apply wp_ret. right. split; [done|]. split; [done|].
    exists w1, []. by repeat (split; [reflexivity || done|]).
  - intros n1 w1 a w2 HF1 He1 Hg. apply wp_bind. eapply (wp_mono _ (λ _, env w2)).
    + destruct a; [|apply wp_ret; reflexivity]. unfold disinherit. apply wp_bind, wp_gets.
      unfold call, wp. by apply env_contents.
    + intros ? w3 He. apply wp_ret. right. split; [done|]. split; [done|]. exists w2, [].
      by repeat (split; [reflexivity || done|]).
Qed.

End waits.
End environment.

(** ** Unlocking *)

(** The assertions at the start of the operations. *)
Lemma may_block_eq {T K} (os : task_ops T K) asserts n w :
  (scheduler_suspended os (tasks w) = true → n = 0) → may_block os asserts n w = Done (tt, w).
Proof.
  intros Hs. unfold may_block. rewrite gets_bind. unfold configASSERT.
  destruct (scheduler_suspended os (tasks w)); [rewrite Hs by done|]; simpl; by rewrite andb_false_r.
Qed.
Lemma item_assert q items p x : fifo q items → points_to q p x →
  negb (bool_decide (p = None) && negb (uxItemSize q =? 0)) = true.
Proof.
  intros [_ _ _ F4 _ _] [_ Hp]. case_bool_decide as Hn; [|done]. subst. simpl.
  assert (uxItemSize q = 0 ∨ 0 < uxItemSize q) as [->|HS] by lia; [done|]. by destruct (Hp HS).
Qed.
Lemma overwrite_assert q items xPosition : can_put q items xPosition →
  negb ((xPosition =? queueOVERWRITE) && negb (uxLength q =? 1)) = true.
Proof. intros [[[->| ->] _]|(->&->&_)]; done. Qed.
Lemma can_put_room q items xPosition : fifo q items → can_put q items xPosition →
  (uxMessagesWaiting q <? uxLength q) || (xPosition =? queueOVERWRITE) = true.
Proof.
  intros [F1 _ _ _ _ _] [[_ H]|[-> _]]; [|by rewrite orb_true_r]. rewrite F1. apply orb_true_iff. left.
  by apply Z.ltb_lt.
Qed.

(** The calls of a task, whatever the others do meanwhile. *)
Section calls.
Context {T K : Type} (os : task_ops T K) (asserts : bool) (others interrupts : kernel K → kernel K).
Context (left : T → Z → K → nat) (patient : K → Prop).
Context `{!Environment others interrupts} `{!Deadline os others interrupts left patient}.

Lemma generic_send_spec fuel p x n xPosition w : well w → points_to (queue w) p x →
  (xPosition = queueSEND_TO_BACK ∨ xPosition = queueSEND_TO_FRONT ∨
   xPosition = queueOVERWRITE ∧ uxLength (queue w) = 1 ∧ 0 < uxItemSize (queue w)) →
  (scheduler_suspended os (tasks w) = true → n = 0) →
  rounds left fuel (vTaskInternalSetTimeOutState os (tasks w)) n (tasks w) →
  wp (n = portMAX_DELAY) (xQueueGenericSend os asserts others interrupts fuel OBJ p n xPosition)
    (λ r w', r = pdPASS ∧ sent others interrupts xPosition x w w' ∨
             r = errQUEUE_FULL ∧ refused others interrupts patient full n w w' ∧
               found_full others interrupts n w w') w.
Proof.
  intros Hw Hp Hpos Hs Hr. unfold xQueueGenericSend, handle, wp.
  destruct (Hw) as [items HF]. rewrite gets_bind, !configASSERT_true.
  - rewrite (bind_done _ _ _ _ _ (may_block_eq os asserts n w Hs)).
    by apply (send_loop_spec os others interrupts left patient p x xPosition fuel n None w).
  - destruct Hpos as [->|[->|(->&->&_)]]; done.
  - by eapply item_assert.
Qed.

Lemma generic_receive_spec fuel p n w : well w → room_for (queue w) p →
  (p = None → uxItemSize (queue w) = 0) → (scheduler_suspended os (tasks w) = true → n = 0) →
  rounds left fuel (vTaskInternalSetTimeOutState os (tasks w)) n (tasks w) →
  wp (n = portMAX_DELAY) (xQueueReceive os asserts others interrupts fuel OBJ p n)
    (read_result others interrupts patient false p n w) w ∧
  wp (n = portMAX_DELAY) (xQueuePeek os asserts others interrupts fuel OBJ p n)
    (read_result others interrupts patient true p n w) w ∧
  (uxItemSize (queue w) = 0 →
   wp (n = portMAX_DELAY) (xQueueSemaphoreTake os asserts others interrupts fuel OBJ n)
     (take_result others interrupts patient n w) w).
Proof.
  intros Hw Hp Hnone Hs Hr.
  assert (negb (bool_decide (p = None) && negb (uxItemSize (queue w) =? 0)) = true) as Ha
    by (case_bool_decide; [by rewrite Hnone|done]).
  split_and!; [| |intros HS]; unfold xQueueReceive, xQueuePeek, xQueueSemaphoreTake, handle, wp;
    rewrite gets_bind, configASSERT_true by (done || by rewrite HS);
    rewrite (bind_done _ _ _ _ _ (may_block_eq os asserts n w Hs)).
  - by apply (receive_loop_spec os others interrupts left patient p fuel n None w).
  - by apply (peek_loop_spec os others interrupts left patient p fuel n None w).
  - by apply (take_loop_spec os others interrupts left patient fuel n None false w).
Qed.
End calls.

Section unlocking.
Context {T K : Type} (os : task_ops T K) (asserts : bool).
Local Abbreviation W := (kernel K).

#[local] Arguments with_waiting : simpl never.
#[local] Arguments waiting : simpl never.

(** The kernel after the tasks of an event list have been made ready in turn. *)
Fixpoint ready_tasks (l : list event) (k : K) : K :=
  match l with
  | [] => k
  | e :: l => let '(higher, k) := readied os e.2 k in ready_tasks l (if higher : bool then vTaskMissedYield os k else k)
  end.

Lemma ready_tasks_app l1 l2 k : ready_tasks (l1 ++ l2) k = ready_tasks l2 (ready_tasks l1 k).
Proof. revert k. induction l1 as [|e l1 IH]; intros k; [done|]. simpl. by destruct (readied os e.2 k). Qed.

Lemma waiting_with l x q : waiting l (with_waiting l x q) = x.
Proof. destruct l; by destruct q. Qed.
Lemma with_waiting_twice l x y q : with_waiting l x (with_waiting l y q) = with_waiting l x q.
Proof. destruct l; by destruct q. Qed.
Lemma with_waiting_id l q : with_waiting l (waiting l q) q = q.
Proof. destruct l; by destruct q. Qed.

Lemma wake_waiting_eq l n (w : W) : wake_waiting os l n w =
  Done (tt, Kernel (with_waiting l (drop n (waiting l (queue w))) (queue w))
              (ready_tasks (take n (waiting l (queue w))) (tasks w))).
Proof.
  revert w. induction n as [|n IH]; intros w; cbn [wake_waiting].
  { rewrite drop_0, with_waiting_id. by destruct w. }
  rewrite gets_bind. destruct (waiting l (queue w)) as [|[v task] rest] eqn:E.
  { rewrite drop_nil, take_nil. rewrite <- E at 1. rewrite with_waiting_id. by destruct w. }
  unfold xTaskRemoveFromEventList. unfold mbind at 1, ST_bind at 1. rewrite gets_bind, E.
  unfold upd at 1, call at 1. rewrite modify_bind. simpl. destruct (readied os task (tasks w)) as [higher k].
  assert (∀ k', wake_waiting os l n (Kernel (with_waiting l rest (queue w)) k') =
    Done (tt, Kernel (with_waiting l (drop n rest) (queue w)) (ready_tasks (take n rest) k'))) as Hn.
  { intros k'. rewrite IH. simpl. by rewrite waiting_with, with_waiting_twice. }
  destruct higher; [apply Hn|]. apply Hn.
Qed.

Lemma prvUnlockQueue_eq (w : W) : prvUnlockQueue os w =
  let q := queue w in let n := Z.to_nat (cTxLock q) in let m := Z.to_nat (cRxLock q) in
  Done (tt, Kernel (with_rx_lock queueUNLOCKED (with_tx_lock queueUNLOCKED
                     (with_send (drop m (xTasksWaitingToSend q))
                       (with_receive (drop n (xTasksWaitingToReceive q)) q))))
              (ready_tasks (take n (xTasksWaitingToReceive q) ++ take m (xTasksWaitingToSend q)) (tasks w))).
Proof.
  unfold prvUnlockQueue. rewrite gets_bind.
  rewrite (bind_done _ _ _ _ _ (wake_waiting_eq Receiving _ w)). unfold upd. rewrite modify_bind, gets_bind.
  rewrite (bind_done _ _ _ _ _ (wake_waiting_eq Sending _ _)). simpl.
  rewrite ready_tasks_app. by destruct (queue w).
Qed.

(** Sending from an interrupt while the queue is locked. *)
Lemma send_from_isr_locked p x xPosition (w : W) items woken : fifo (queue w) items →
  can_put (queue w) items xPosition → points_to (queue w) p x →
  pcHead (queue w) ≠ queueQUEUE_IS_MUTEX →
  0 <= cTxLock (queue w) < 127 → cTxLock (queue w) < uxTaskGetNumberOfTasks os (tasks w) →
  ∃ w1, xQueueGenericSendFromISR os asserts OBJ p woken xPosition w = Done (pdPASS, woken, w1) ∧
    tasks w1 = tasks w ∧ fifo (queue w1) (put xPosition x items) ∧
    xTasksWaitingToReceive (queue w1) = xTasksWaitingToReceive (queue w) ∧
    xTasksWaitingToSend (queue w1) = xTasksWaitingToSend (queue w) ∧
    cTxLock (queue w1) = cTxLock (queue w) + 1 ∧ cRxLock (queue w1) = cRxLock (queue w).
Proof.
  intros HF Hc Hp Hm [Hl0 Hl] Ht. unfold xQueueGenericSendFromISR, handle. rewrite gets_bind.
  rewrite configASSERT_true by (by eapply item_assert). rewrite configASSERT_true by (by eapply overwrite_assert).
  rewrite (can_put_room (queue w) items) by done.
  destruct (wp_inv _ _ _ (copy_to_spec os False p x xPosition w items HF Hc Hp)) as (b&w1&Hw1&HF1&[E1 E2 E3 E4 E5 E6]&Hk).
  rewrite (bind_done _ _ _ _ _ Hw1). specialize (Hk Hm).
  rewrite (proj2 (Z.eqb_neq _ _)) by (unfold queueUNLOCKED; lia).
  unfold prvIncrementQueueTxLock. unfold mbind at 1, ST_bind at 1. unfold mbind at 1, ST_bind at 1.
  rewrite gets_bind, Hk. unfold u32. rewrite Z.mod_small by lia. rewrite (proj2 (Z.ltb_lt _ _)) by lia.
  rewrite configASSERT_true by (apply negb_true_iff, Z.eqb_neq; unfold queueINT8_MAX; lia).
  unfold upd, modify. rewrite Z.mod_small by lia. simpl. eexists. split; [done|]. simpl.
  split; [done|]. split; [eapply fifo_contents; [|done]; by destruct (queue w1)|].
  destruct (queue w1); simpl in *. subst. repeat split; lia.
Qed.
End unlocking.

(** ** Creation, and a mutex with one user

    [mutex_state free q]: the queue is a mutex, free or taken. *)

Record mutex_state (free : bool) (q : Queue_t) : Prop := {
  mutex_size : uxItemSize q = 0;
  mutex_length : uxLength q = 1;
  mutex_type : pcHead q = queueQUEUE_IS_MUTEX;
  mutex_count : uxMessagesWaiting q = if free then 1 else 0;
}.

Lemma mutex_contents free q q' : contents q' = contents q → mutex_state free q → mutex_state free q'.
Proof. unfold contents. intros [= H1 H2 H3 H4 H5 H6 H7 H8 H9] [F1 F2 F3 F4]. constructor; congruence. Qed.

Lemma mutex_fifo free q : mutex_state free q → fifo q (if free then [[]] else []).
Proof.
  intros [F1 F2 F3 F4]. constructor; rewrite ?F1, ?F2, ?F4; destruct free; try done; by repeat constructor.
Qed.

Section creation.
Context {T K : Type} (os : task_ops T K) (asserts : bool) (others interrupts : kernel K → kernel K).
Local Abbreviation W := (kernel K).

(** A new queue: no items, nobody waiting, not locked. *)
Definition new_queue (q : Queue_t) : Prop :=
  fifo q [] ∧ xTasksWaitingToSend q = [] ∧ xTasksWaitingToReceive q = [] ∧
  cRxLock q = queueUNLOCKED ∧ cTxLock q = queueUNLOCKED.

Definition fits (uxQueueLength uxItemSize : Z) : Prop :=
  0 < uxQueueLength ∧ uxItemSize <= SIZE_MAX / uxQueueLength ∧
  uxQueueLength * uxItemSize <= SIZE_MAX - sizeof_Queue_t.

Lemma fits_product l s : 0 < l → 0 <= s → s <= SIZE_MAX / l → 0 <= l * s <= SIZE_MAX.
Proof. intros. pose proof (Z.mul_div_le SIZE_MAX l). nia. Qed.

Lemma fits_dec l s : 0 <= l → 0 <= s →
  (0 <? l) && (s <=? SIZE_MAX / l) && (u32 (l * s) <=? SIZE_MAX - sizeof_Queue_t) = true ↔ fits l s.
Proof.
  intros Hl Hs. unfold fits. rewrite !andb_true_iff, Z.ltb_lt, !Z.leb_le.
  split; (intros H; split_and!; [tauto..|]).
  - destruct H as [[? ?] H]. pose proof (fits_product l s). unfold u32 in H. unfold SIZE_MAX in *.
    rewrite Z.mod_small in H by lia. done.
  - destruct H as (?&?&H). pose proof (fits_product l s). unfold u32, SIZE_MAX in *.
    rewrite Z.mod_small by lia. done.
Qed.

(** The queue that [prvInitialiseNewQueue] makes of a piece of memory. *)
Definition initial_queue (l s head a : Z) (memory : bytes) : Queue_t :=
  Queue head head (u32 (head + u32 (l * s))) (u32 (head + u32 (u32 (l - 1) * s))) [] [] 0 l s
    queueUNLOCKED queueUNLOCKED a memory.

Lemma initialise_eq l s storage_at a (w : W) : 1 <= l → s <= SIZE_MAX / l →
  prvInitialiseNewQueue os asserts others l s storage_at a w =
    Done (tt, Kernel (initial_queue l s (if s =? 0 then a else storage_at) (address (queue w)) (storage (queue w)))
                (tasks w)).
Proof.
  intros Hl Hs. destruct w as [[h wr f g sd rc n l0 i c d ad y] k].
  unfold prvInitialiseNewQueue, xQueueGenericReset, configASSERT, upd, mbind, ST_bind, modify, gets, mret, ST_ret.
  simpl. rewrite andb_false_r. simpl. rewrite (proj2 (Z.leb_le 1 l)), (proj2 (Z.leb_le s _)) by done. simpl.
  by rewrite andb_false_r.
Qed.

Lemma initial_queue_new l s a memory : fits l s → l < 2 ^ 32 → 0 <= s → 0 < a → s <= a →
  a + sizeof_Queue_t + l * s < 2 ^ 32 → len memory = l * s →
  new_queue (initial_queue l s (if s =? 0 then a else a + sizeof_Queue_t) a memory).
Proof.
  intros (Hf1&Hf2&Hf3) Hl Hs Ha Hsa Hend Hm. pose proof (fits_product l s Hf1 Hs Hf2) as Hp.
  split; [|done]. constructor; simpl; try done; try (unfold len; simpl; lia).
  intros HS. rewrite (proj2 (Z.eqb_neq s 0)) by lia. unfold initial_queue, SIZE_MAX, sizeof_Queue_t in *.
  assert (0 <= (l - 1) * s <= l * s) by nia.
  assert (u32 (l * s) = l * s) as E1 by (unfold u32; rewrite Z.mod_small; lia).
  assert (u32 (l - 1) = l - 1) as E2 by (unfold u32; rewrite Z.mod_small; lia).
  assert (u32 ((l - 1) * s) = (l - 1) * s) as E3 by (unfold u32; rewrite Z.mod_small; lia).
  exists (l - 1). constructor; unfold pcTail, pcReadFrom; simpl; rewrite ?E2, ?E3, ?E1; unfold u32;
    rewrite ?Z.mod_small by lia; try lia; try done.
  replace (l - 1 + 1 + len []) with l by (unfold len; simpl; lia). rewrite Z.mod_same by lia. lia.
Qed.

Lemma create_spec D l s w : 0 <= l < 2 ^ 32 → 0 <= s →
  let '(a, k) := pvPortMalloc os (sizeof_Queue_t + l * s) (tasks w) in
  (a ≠ 0 → 0 < a ∧ a + sizeof_Queue_t + l * s < 2 ^ 32 ∧ s <= a) →
  len (heap_bytes os (a + sizeof_Queue_t) (l * s) k) = l * s → (asserts = true → fits l s) →
  wp D (xQueueGenericCreate os asserts others l s)
    (λ r w', match r with
             | OBJ => fits l s ∧ a ≠ 0 ∧ tasks w' = k ∧ new_queue (queue w') ∧ uxLength (queue w') = l ∧
                      uxItemSize (queue w') = s ∧ address (queue w') = a
             | NULL => ¬ fits l s ∨ a = 0
             end) w.
Proof.
  intros Hl Hs. destruct (pvPortMalloc os _ _) as [a k] eqn:Em. intros Ha Hb Has.
  unfold xQueueGenericCreate.
  destruct ((0 <? l) && _ && _) eqn:E; pose proof (fits_dec l s ltac:(lia) Hs) as Hf; rewrite E in Hf.
  2:{ assert (¬ fits l s) as Hn by (intros ?%Hf; done). unfold configASSERT.
      destruct asserts; [destruct Hn; by apply Has|]. apply wp_bind, wp_ret, wp_ret. by left. }
  assert (fits l s) as Hfits by by apply Hf. destruct (Hfits) as (Hf1&Hf2&Hf3).
  pose proof (fits_product l s Hf1 Hs Hf2) as Hp.
  assert (u32 (l * s) = l * s) as -> by (unfold u32; rewrite Z.mod_small; unfold SIZE_MAX in *; lia).
  apply wp_bind, wp_call. rewrite Em. simpl. case (Z.eqb_spec a 0); intros Ha0; simpl.
  { apply wp_ret. by right. }
  destruct (Ha Ha0) as (Ha1&Ha2&Ha3).
  assert (u32 (a + sizeof_Queue_t) = a + sizeof_Queue_t) as ->
    by (unfold u32, sizeof_Queue_t in *; rewrite Z.mod_small; lia).
  apply wp_bind, wp_gets, wp_bind, wp_modify. simpl.
  apply wp_bind. eapply wp_intro; [apply initialise_eq; [lia|done]|]. apply wp_ret. simpl.
  replace (address (let '(Queue _ _ _ _ _ _ _ _ _ _ _ _ _) := queue w in _)) with a by (by destruct (queue w)).
  replace (storage (let '(Queue _ _ _ _ _ _ _ _ _ _ _ _ _) := queue w in _))
    with (heap_bytes os (a + sizeof_Queue_t) (l * s) k) by (by destruct (queue w)).
  split_and!; try done. apply initial_queue_new; try done; lia.
Qed.
End creation.

(** The heap gives aligned space below the end of memory, or [NULL]. *)
Class HeapLaws {T K} (os : task_ops T K) : Prop := {
  malloc_range n k : let a := (pvPortMalloc os n k).1 in a ≠ 0 → 8 <= a ∧ a + n < 2 ^ 32;
  heap_bytes_len a n k : 0 <= n → len (heap_bytes os a n k) = n;
}.

Section one_user.
Context {T K : Type} (os : task_ops T K) (asserts : bool) (others interrupts : kernel K → kernel K).
Local Abbreviation W := (kernel K).
(** No other task and no interrupt uses the queue. *)
Hypothesis others_idle : ∀ w, contents (queue (others w)) = contents (queue w).

Definition unchanged (w w' : W) : Prop := contents (queue w') = contents (queue w).

(** The holder of the mutex and the number of its recursive takes. *)
Definition holds (holder count : Z) (w : W) : Prop :=
  xMutexHolder (queue w) = holder ∧ uxRecursiveCallCount (queue w) = count.
Lemma holds_contents holder count w w' : contents (queue w') = contents (queue w) →
  holds holder count w → holds holder count w'.
Proof. unfold contents, holds, xMutexHolder, uxRecursiveCallCount. intros [=] [<- <-]. by split. Qed.

Lemma yield_idle w : wp False (yield others) (λ _, unchanged w) w.
Proof. apply wp_modify. apply others_idle. Qed.

Lemma remove_idle l w : waiting l (queue w) ≠ [] → wp False (xTaskRemoveFromEventList os l) (λ _, unchanged w) w.
Proof.
  intros Hl. unfold xTaskRemoveFromEventList. apply wp_bind, wp_gets.
  destruct (waiting l (queue w)) as [|[v task] rest]; [done|].
  apply wp_bind, wp_modify, wp_call. apply contents_waiting.
Qed.

Lemma wake_idle l w : wp False (wake os l (yield others)) (λ _, unchanged w) w.
Proof.
  unfold wake. apply wp_bind, wp_gets. destruct (waiting l (queue w)) eqn:E; [by apply wp_ret|].
  apply wp_bind. eapply wp_mono; [apply remove_idle; by rewrite E|]. intros [] w1 Hq; [|by apply wp_ret].
  eapply wp_mono; [apply yield_idle|]. unfold unchanged in *. intros ? w2 Hq2. congruence.
Qed.

Lemma wake_receiver_idle b w : wp False (wake_receiver os others b) (λ _, unchanged w) w.
Proof.
  unfold wake_receiver. apply wp_bind, wp_gets. destruct (xTasksWaitingToReceive (queue w)); [|apply wake_idle].
  destruct b; [apply yield_idle|by apply wp_ret].
Qed.

Lemma give_loop fuel w : mutex_state false (queue w) →
  wp False (send_loop os others interrupts (S fuel) None 0 queueSEND_TO_BACK None)
    (λ r w', r = pdPASS ∧ mutex_state true (queue w') ∧ holds 0 (u_second (queue w)) w') w.
Proof.
  intros [M1 M2 M3 M4]. simpl. apply wp_bind, wp_gets. rewrite M2, M4. simpl.
  apply wp_bind. unfold prvCopyDataToQueue. apply wp_bind, wp_gets. rewrite M1, M3, M4. simpl.
  apply wp_bind, wp_bind, wp_call, wp_bind, wp_modify, wp_ret, wp_bind, wp_modify, wp_ret. simpl.
  apply wp_bind. eapply wp_mono; [apply wake_receiver_idle|]. intros ? w1 Hq. apply wp_ret.
  split; [done|]. split; [|eapply holds_contents; [exact Hq|]; by destruct (queue w)].
  eapply mutex_contents; [exact Hq|]. simpl. destruct (queue w); simpl in *. by constructor.
Qed.

Lemma give_taken fuel w : mutex_state false (queue w) →
  ∃ w', xQueueGenericSend os asserts others interrupts (S fuel) OBJ None 0 queueSEND_TO_BACK w = Done (pdPASS, w') ∧
        mutex_state true (queue w') ∧ holds 0 (u_second (queue w)) w'.
Proof.
  intros Hm. unfold xQueueGenericSend, handle. rewrite gets_bind.
  rewrite configASSERT_true by (by rewrite (mutex_size _ _ Hm)).
  rewrite configASSERT_true by done. rewrite (bind_done _ _ _ _ _ (may_block_eq os asserts 0 w ltac:(done))).
  destruct (wp_inv _ _ _ (give_loop fuel w Hm)) as (r&w'&E&->&Hm'&Hh). exists w'. by split.
Qed.

Lemma take_loop_free fuel ticks w : mutex_state true (queue w) →
  wp False (take_loop os others interrupts (S fuel) ticks None false)
    (λ r w', r = pdPASS ∧ mutex_state false (queue w') ∧
       holds (pvTaskIncrementMutexHeldCount os (tasks w)).1 (u_second (queue w)) w') w.
Proof.
  intros [M1 M2 M3 M4]. simpl. apply wp_bind, wp_gets. rewrite M4, M3. simpl.
  apply wp_bind, wp_modify, wp_bind, wp_bind, wp_call, wp_modify. simpl.
  apply wp_bind. eapply wp_mono; [apply wake_idle|]. intros ? w1 Hq. apply wp_ret. split; [done|].
  split; [|eapply holds_contents; [exact Hq|]; by destruct (queue w)].
  eapply mutex_contents; [exact Hq|]. simpl. destruct (queue w); simpl in *. by constructor.
Qed.

Lemma take_free fuel ticks w : mutex_state true (queue w) →
  (scheduler_suspended os (tasks w) = true → ticks = 0) →
  ∃ w', xQueueSemaphoreTake os asserts others interrupts (S fuel) OBJ ticks w = Done (pdPASS, w') ∧
        mutex_state false (queue w') ∧ holds (pvTaskIncrementMutexHeldCount os (tasks w)).1 (u_second (queue w)) w'.
Proof.
  intros Hm Hs. unfold xQueueSemaphoreTake, handle. rewrite gets_bind.
  rewrite configASSERT_true by (by rewrite (mutex_size _ _ Hm)).
  rewrite (bind_done _ _ _ _ _ (may_block_eq os asserts ticks w Hs)).
  destruct (wp_inv _ _ _ (take_loop_free fuel ticks w Hm)) as (r&w'&E&->&Hm'&Hh). exists w'. by split.
Qed.

(** Sending to the back when there is room, and receiving when there is an item. *)
Lemma send_room fuel p x n w items : fifo (queue w) items → len items < uxLength (queue w) →
  points_to (queue w) p x → (scheduler_suspended os (tasks w) = true → n = 0) →
  ∃ w', xQueueGenericSend os asserts others interrupts (S fuel) OBJ p n queueSEND_TO_BACK w = Done (pdPASS, w') ∧
    fifo (queue w') (items ++ [x]) ∧ uxLength (queue w') = uxLength (queue w) ∧
    uxItemSize (queue w') = uxItemSize (queue w).
Proof.
  intros HF Hroom Hp Hs. unfold xQueueGenericSend, handle. rewrite gets_bind.
  rewrite configASSERT_true by (by eapply item_assert). rewrite configASSERT_true by done.
  rewrite (bind_done _ _ _ _ _ (may_block_eq os asserts n w Hs)). simpl. rewrite gets_bind.
  destruct (HF) as [F1 _ _ _ _ _]. rewrite F1, (proj2 (Z.ltb_lt _ _)) by done. simpl.
  destruct (wp_inv _ _ _ (copy_to_spec os False p x queueSEND_TO_BACK w items HF ltac:(left; auto) Hp))
    as (b&w1&E&HF1&Hside&_).
  rewrite (bind_done _ _ _ _ _ E). destruct (wp_inv _ _ _ (wake_receiver_idle b w1)) as (u&w2&E2&Hq).
  rewrite (bind_done _ _ _ _ _ E2). exists w2. split; [done|]. split; [by eapply fifo_contents|].
  unfold unchanged, contents in Hq. destruct Hside. injection Hq. intros. split; congruence.
Qed.

Lemma receive_head fuel b x n w items : fifo (queue w) (x :: items) → uxItemSize (queue w) <= len b →
  (scheduler_suspended os (tasks w) = true → n = 0) →
  ∃ w', xQueueReceive os asserts others interrupts (S fuel) OBJ (Some b) n w = Done ((pdPASS, read_into (Some b) x), w') ∧
    fifo (queue w') items ∧ uxLength (queue w') = uxLength (queue w) ∧ uxItemSize (queue w') = uxItemSize (queue w).
Proof.
  intros HF Hb Hs. unfold xQueueReceive, handle. rewrite gets_bind, configASSERT_true by done.
  rewrite (bind_done _ _ _ _ _ (may_block_eq os asserts n w Hs)). simpl. rewrite gets_bind.
  destruct (HF) as [F1 _ _ _ _ _]. rewrite F1, len_cons. pose proof (len_nonneg items).
  rewrite (proj2 (Z.ltb_lt _ _)) by lia.
  rewrite (bind_done _ _ _ _ _ (copy_from_eq (Some b) x items w HF ltac:(by intros ?; exists b))).
  pose proof (count_pop _ x items HF) as Hn. rewrite F1, len_cons in Hn. rewrite Hn. unfold upd. rewrite modify_bind.
  match goal with |- context [wake _ _ _ ≫= _] => idtac end.
  destruct (wp_inv _ _ _ (wake_idle Sending (Kernel (with_messages (len items) (next_read (queue w))) (tasks w))))
    as (u&w2&E2&Hq). simpl. rewrite (bind_done _ _ _ _ _ E2). exists w2. split; [done|].
  split; [eapply fifo_contents; [exact Hq|]; by apply (fifo_pop _ x)|].
  unfold unchanged, contents in Hq. simpl in Hq. destruct (next_read_side (queue w)).
  injection Hq. intros. destruct (next_read (queue w)); simpl in *. split; congruence.
Qed.

(** A mutex that could be created is free. *)
Lemma create_mutex_free fuel w :
  let '(a, k) := pvPortMalloc os sizeof_Queue_t (tasks w) in
  (a ≠ 0 → 0 < a ∧ a + sizeof_Queue_t < 2 ^ 32) → len (heap_bytes os (a + sizeof_Queue_t) 0 k) = 0 →
  wp False (xQueueCreateMutex os asserts others interrupts (S fuel))
    (λ r w', r = OBJ → mutex_state true (queue w')) w.
Proof.
  pose proof (create_spec os asserts others False 1 0 w) as Hc. change (1 * 0) with 0 in Hc.
  rewrite (Z.add_0_r sizeof_Queue_t) in Hc.
  destruct (pvPortMalloc os sizeof_Queue_t (tasks w)) as [a k]. intros Ha Hb.
  unfold xQueueCreateMutex. apply wp_bind. eapply wp_mono.
  { apply Hc; try lia; try done. }
  intros r w1 Hr. destruct r; [by apply wp_bind, wp_ret, wp_ret|].
  destruct Hr as (_&_&_&[HF _]&HL&HS&_). destruct HF as [F1 _ _ _ _ _].
  assert (mutex_state false (with_second 0 (with_head queueQUEUE_IS_MUTEX (with_first 0 (queue w1))))) as Hm.
  { destruct (queue w1); simpl in *. by constructor. }
  apply wp_bind. unfold prvInitialiseMutex. do 3 apply wp_bind, wp_modify. simpl.
  destruct (give_taken fuel (Kernel _ (tasks w1)) Hm) as (w2&E&Hm2&_).
  apply wp_bind. eapply wp_intro; [exact E|]. by apply wp_ret, wp_ret.
Qed.
End one_user.

(** Receiving from an interrupt. *)
Lemma receive_from_isr_spec {T K} (os : task_ops T K) p woken (w : kernel K) items : fifo (queue w) items →
  room_for (queue w) p →
  wp False (xQueueReceiveFromISR os false OBJ p woken)
    (λ '(r, p', _) w', match items with
                       | [] => r = pdFAIL ∧ p' = p ∧ w' = w
                       | x :: rest => r = pdPASS ∧ p' = read_into p x ∧ fifo (queue w') rest ∧
                           uxLength (queue w') = uxLength (queue w) ∧ uxItemSize (queue w') = uxItemSize (queue w)
                       end) w.
Proof.
  intros HF Hp. unfold xQueueReceiveFromISR, handle. apply wp_bind, wp_gets, wp_bind, wp_ret.
  destruct (HF) as [F1 _ _ _ _ _]. rewrite F1. destruct items as [|x rest].
  { by apply wp_ret. }
  rewrite len_cons. pose proof (len_nonneg rest). rewrite (proj2 (Z.ltb_lt _ _)) by lia.
  apply wp_bind. eapply wp_intro; [by apply copy_from_eq with (1 := HF)|].
  apply wp_bind, wp_modify. simpl.
  pose proof (count_pop _ x rest HF) as Hn. rewrite F1, len_cons in Hn. rewrite Hn.
  pose proof (fifo_pop _ _ _ HF) as HF1. pose proof (next_read_side (queue w)) as [E1 E2 _ _ _ _].
  set (w1 := Kernel (with_messages (len rest) (next_read (queue w))) (tasks w)).
  assert (∀ w2 : kernel K, contents (queue w2) = contents (queue w1) →
    fifo (queue w2) rest ∧ uxLength (queue w2) = uxLength (queue w) ∧ uxItemSize (queue w2) = uxItemSize (queue w)) as Hend.
  { intros w2 Hc. split; [by eapply fifo_contents|]. unfold contents in Hc. injection Hc as ? ? ? ? ? EL ES ? ?.
    rewrite EL, ES, <- E1, <- E2. subst w1. simpl. by destruct (next_read (queue w)). }
  apply wp_bind. eapply (wp_mono _ (λ _ w2, contents (queue w2) = contents (queue w1))).
  2:{ intros r w2 Hc. apply wp_ret. split; [done|]. split; [done|]. by apply Hend. }
  destruct (cRxLock (queue w) =? queueUNLOCKED).
  - unfold wake_from_isr. apply wp_bind, wp_gets. destruct (waiting Sending (queue w1)) as [|[v task] l] eqn:E; [by apply wp_ret|].
    apply wp_bind. unfold xTaskRemoveFromEventList. apply wp_bind, wp_gets. rewrite E.
    apply wp_bind, wp_modify, wp_call, wp_ret. simpl. by destruct (next_read (queue w)).
  - apply wp_bind. unfold prvIncrementQueueRxLock. apply wp_bind, wp_gets. case_match; [|by apply wp_ret, wp_ret].
    apply wp_bind, wp_ret, wp_modify, wp_ret. simpl. by destruct (next_read (queue w)).
Qed.

(** ** Properties *)

(** C12 (refinement): sending is one atomic step on a queue of items. Whatever
    other tasks and interrupts do to the queue meanwhile, the call returns, unless it
    is to wait forever; with pdPASS, its item has been added once, at one moment at
    which there was room: at the back, at the front, or in place of the only one, as
    asked; otherwise nothing has been added, the queue was full, and the call was not
    to wait forever or its delay was aborted. *)
Theorem queue_send_atomic {T K} (os : task_ops T K) asserts others interrupts left patient fuel p x n xPosition w :
  Environment others interrupts → Deadline os others interrupts left patient →
  well w → points_to (queue w) p x →
  (xPosition = queueSEND_TO_BACK ∨ xPosition = queueSEND_TO_FRONT ∨
   xPosition = queueOVERWRITE ∧ uxLength (queue w) = 1 ∧ 0 < uxItemSize (queue w)) →
  (scheduler_suspended os (tasks w) = true → n = 0) →
  rounds left fuel (vTaskInternalSetTimeOutState os (tasks w)) n (tasks w) →
  wp (n = portMAX_DELAY) (xQueueGenericSend os asserts others interrupts fuel OBJ p n xPosition)
    (λ r w', r = pdPASS ∧ sent others interrupts xPosition x w w' ∨
             r = errQUEUE_FULL ∧ refused others interrupts patient full n w w') w.
Proof.
  intros He Hd Hw Hp Hpos Hs Hr. eapply wp_mono; [by apply (generic_send_spec os asserts others interrupts left)|].
  intros r w' [?|(?&?&_)]; auto.
Qed.

(** C13 (refinement): receiving is one atomic step. Whatever happens to the queue
    meanwhile, [xQueueReceive], [xQueuePeek] and [xQueueSemaphoreTake] return, unless
    they are to wait forever; with pdPASS, they have read the item that was first in
    the queue at one moment, and taken it out, or, peeking, left it there; otherwise
    nothing was taken, the queue was empty at one moment, and they were not to wait
    forever or their delay was aborted. *)
Theorem queue_receive_atomic {T K} (os : task_ops T K) asserts others interrupts left patient fuel p n w :
  Environment others interrupts → Deadline os others interrupts left patient →
  well w → room_for (queue w) p →
  (p = None → uxItemSize (queue w) = 0) → (scheduler_suspended os (tasks w) = true → n = 0) →
  rounds left fuel (vTaskInternalSetTimeOutState os (tasks w)) n (tasks w) →
  wp (n = portMAX_DELAY) (xQueueReceive os asserts others interrupts fuel OBJ p n)
    (read_result others interrupts patient false p n w) w ∧
  wp (n = portMAX_DELAY) (xQueuePeek os asserts others interrupts fuel OBJ p n)
    (read_result others interrupts patient true p n w) w ∧
  (uxItemSize (queue w) = 0 →
   wp (n = portMAX_DELAY) (xQueueSemaphoreTake os asserts others interrupts fuel OBJ n)
     (take_result others interrupts patient n w) w).
Proof.
  intros. by apply (generic_receive_spec os asserts others interrupts left).
Qed.

(** No wake-up is lost while a queue is locked. An interrupt that
    sends to a locked queue leaves the event lists alone and counts; the unlock
    makes as many waiting receivers ready as items were counted, and as many
    waiting senders as items were received, in the order of their priorities. *)
Theorem unlock_wakes_waiting {T K} (os : task_ops T K) asserts p x xPosition (w : kernel K) items woken :
  fifo (queue w) items → can_put (queue w) items xPosition → points_to (queue w) p x →
  pcHead (queue w) ≠ queueQUEUE_IS_MUTEX → 0 <= cTxLock (queue w) < 127 → 0 <= cRxLock (queue w) →
  cTxLock (queue w) < uxTaskGetNumberOfTasks os (tasks w) →
  let receivers := Z.to_nat (cTxLock (queue w) + 1) in
  let senders := Z.to_nat (cRxLock (queue w)) in
  ∃ w1 w2, xQueueGenericSendFromISR os asserts OBJ p woken xPosition w = Done (pdPASS, woken, w1) ∧
    fifo (queue w1) (put xPosition x items) ∧
    xTasksWaitingToReceive (queue w1) = xTasksWaitingToReceive (queue w) ∧
    prvUnlockQueue os w1 = Done (tt, w2) ∧ fifo (queue w2) (put xPosition x items) ∧
    tasks w2 = ready_tasks os (take receivers (xTasksWaitingToReceive (queue w)) ++
                               take senders (xTasksWaitingToSend (queue w))) (tasks w) ∧
    xTasksWaitingToReceive (queue w2) = drop receivers (xTasksWaitingToReceive (queue w)) ∧
    xTasksWaitingToSend (queue w2) = drop senders (xTasksWaitingToSend (queue w)) ∧
    cTxLock (queue w2) = queueUNLOCKED ∧ cRxLock (queue w2) = queueUNLOCKED.
Proof.
  intros HF Hc Hp Hm Hl0 Hl1 Ht receivers senders.
  destruct (send_from_isr_locked os asserts p x xPosition w items woken HF Hc Hp Hm Hl0 Ht)
    as (w1&E&Hk&HF1&ER&ES&ET&EX).
  exists w1. eexists. split; [exact E|]. split; [done|]. split; [done|]. split; [apply prvUnlockQueue_eq|].
  simpl. rewrite ER, ES, ET, EX, Hk. fold receivers senders.
  split; [eapply fifo_contents; [|exact HF1]; by destruct (queue w1)|]. by destruct (queue w1).
Qed.

(** ** A queue *)

Module QueueDemo.
(** The kernel: the ticks since the start, and whether a delay of the caller has
    been aborted. A time-out is the tick at which it was taken; what the scheduler
    makes of it is shown in [RtosTime.timeout_exact]. *)
Record clock := Clock { now : Z; aborted : bool }.
Definition left (t n : Z) (k : clock) : nat :=
  Z.to_nat (2 * (n - (now k - t))) + (if aborted k then 1 else 0).
Definition patient (k : clock) : Prop := aborted k = false.
Definition CheckForTimeOut (t n : Z) (k : clock) : bool * Z * Z * clock :=
  if aborted k then (true, t, n, Clock (now k) false)
  else if n =? portMAX_DELAY then (false, t, n, k)
  else if (n <? portMAX_DELAY) && (now k - t <? n) then (false, now k, n - Z.max 0 (now k - t), k)
  else (true, t, 0, k).
Definition os : task_ops Z clock := {|
  pvPortMalloc n k := (if n <=? 0x10000 then 0x20000000 else 0, k);
  heap_bytes a n k := replicate (Z.to_nat n) 0;
  vPortFree a k := k;
  readied task k := (true, k);
  current_event k := (3, 7);
  delayed n k := k;
  pvTaskIncrementMutexHeldCount k := (7, k);
  xTaskPriorityDisinherit t k := (false, k);
  xTaskPriorityInherit t k := (false, k);
  vTaskPriorityDisinheritAfterTimeout t p k := k;
  vTaskInternalSetTimeOutState k := now k;
  xTaskCheckForTimeOut := CheckForTimeOut;
  xTaskGetCurrentTaskHandle k := 7;
  uxTaskGetNumberOfTasks k := 4;
  scheduler_suspended k := false;
  xTaskResumeAll k := (true, k);
  vTaskMissedYield k := k;
  configMAX_PRIORITIES := 8;
|}.

(** Another task takes one item out whenever it runs, until the next tick. *)
Definition drain (w : kernel clock) : kernel clock :=
  let k := Clock (now (tasks w) + 1) (aborted (tasks w)) in
  match xQueueReceiveFromISR os false OBJ (Some (local_array (uxItemSize (queue w)))) None w with
  | Done (_, w') => Kernel (queue w') k
  | _ => Kernel (queue w) k
  end.

#[export] Instance environment : Environment drain id.
Proof.
  split; [|intros w items HF; split; [by exists items|done]]. intros w items HF. unfold drain.
  assert (room_for (queue w) (Some (local_array (uxItemSize (queue w))))) as Hp.
  { intros HS. eexists. split; [done|]. unfold local_array, len. rewrite length_replicate. lia. }
  destruct (wp_inv _ _ _ (receive_from_isr_spec os _ None w items HF Hp)) as ([[r p'] b]&w'&->&H).
  simpl. destruct items as [|x rest]; [destruct H as (_&_&->); eauto|]. destruct H as (_&_&?&?&?). eauto.
Qed.
#[export] Instance deadline : Deadline os drain id left patient.
Proof.
  assert (∀ w, tasks (drain w) = Clock (now (tasks w) + 1) (aborted (tasks w))) as Hd
    by (intros; unfold drain; by destruct xQueueReceiveFromISR as [[]| |]).
  split; try (intros; split; [by intros|done]).
  - intros w t n k b t' n' k' Hn Hl. rewrite Hd in Hl. simpl. unfold CheckForTimeOut, left in *. simpl in Hl.
    destruct (aborted k) eqn:Ea; [intros [= <- <- <- <-]; simpl|].
    { split; [done|]. right. destruct (aborted (tasks w)); lia. }
    rewrite (proj2 (Z.eqb_neq _ _) Hn). case (Z.ltb_spec n portMAX_DELAY); intros Hmax;
      [case (Z.ltb_spec (now k - t) n); intros Ht|]; intros [= <- <- <- <-].
    + split; [lia|]. right. rewrite Ea. destruct (aborted (tasks w)); lia.
    + split; [done|by left].
    + split; [done|by left].
  - intros t k b t' n' k'. simpl. unfold CheckForTimeOut, patient.
    destruct (aborted k) eqn:Ea; rewrite ?Z.eqb_refl; intros [= <- <- <- <-]; by split.
  - intros w. split; [|by rewrite Hd]. intros t n _. rewrite Hd. unfold left. simpl. lia.
Qed.

(** A queue of two items of two bytes, full. *)
Definition memory : kernel clock := Kernel (Queue 0 0 0 0 [] [] 0 0 0 0 0 0 []) (Clock 0 false).
Definition full_queue : kernel clock :=
  match (r ← xQueueGenericCreate os false id 2 2;
         xQueueGenericSend os false id id 1 r (Some [1; 2]) 0 queueSEND_TO_BACK;;
         xQueueGenericSend os false id id 1 r (Some [3; 4]) 0 queueSEND_TO_BACK) memory with
  | Done (_, w) => w
  | _ => memory
  end.

Lemma full_queue_holds : fifo (queue full_queue) [[1; 2]; [3; 4]].
Proof.
  constructor; [by vm_compute..|by repeat constructor|]. intros _. exists 1.
  constructor; try by vm_compute. intros [|[|[|i]]] x; by intros [= <-].
Qed.
End QueueDemo.

Lemma queue_send_atomic_witness :
  wp (10 = portMAX_DELAY)
    (xQueueGenericSend QueueDemo.os true QueueDemo.drain id 23 OBJ (Some [5; 6]) 10 queueSEND_TO_BACK)
    (λ r w', r = pdPASS ∧ sent QueueDemo.drain id queueSEND_TO_BACK [5; 6] QueueDemo.full_queue w' ∨
             r = errQUEUE_FULL ∧ refused QueueDemo.drain id QueueDemo.patient full 10 QueueDemo.full_queue w')
    QueueDemo.full_queue.
Proof.
  apply (queue_send_atomic QueueDemo.os true QueueDemo.drain id QueueDemo.left QueueDemo.patient).
  - apply QueueDemo.environment.
  - apply QueueDemo.deadline.
  - eexists. apply QueueDemo.full_queue_holds.
  - split; [by vm_compute|]. intros _. by exists [].
  - by left.
  - done.
  - intros _. split; [lia|intros _]. vm_compute. lia.
Defined.

Lemma queue_receive_atomic_witness :
  wp (10 = portMAX_DELAY)
    (xQueueReceive QueueDemo.os true QueueDemo.drain id 23 OBJ (Some [0; 0; 0]) 10)
    (read_result QueueDemo.drain id QueueDemo.patient false (Some [0; 0; 0]) 10 QueueDemo.full_queue)
    QueueDemo.full_queue.
Proof.
  refine (proj1 (queue_receive_atomic QueueDemo.os true QueueDemo.drain id QueueDemo.left QueueDemo.patient 23
                   (Some [0; 0; 0]) 10 QueueDemo.full_queue _ _ _ _ _ _ _)).
  - apply QueueDemo.environment.
  - apply QueueDemo.deadline.
  - eexists. apply QueueDemo.full_queue_holds.
  - intros _. exists [0; 0; 0]. by vm_compute.
  - done.
  - done.
  - intros _. split; [lia|intros _]. vm_compute. lia.
Defined.

(** The queue locked by its one waiting receiver, with an item counted. *)
Lemma unlock_wakes_waiting_witness :
  let w := Kernel (with_receive [(3, 7); (5, 9)] (with_tx_lock 0 (with_rx_lock 0
             (next_read (next_read (with_messages 0 (queue QueueDemo.full_queue))))))) (QueueDemo.Clock 0 false) in
  ∃ w1 w2, xQueueGenericSendFromISR QueueDemo.os true OBJ (Some [5; 6]) None queueSEND_TO_BACK w =
             Done (pdPASS, None, w1) ∧
           prvUnlockQueue QueueDemo.os w1 = Done (tt, w2) ∧ xTasksWaitingToReceive (queue w2) = [(5, 9)].
Proof.
  intros w. edestruct (unlock_wakes_waiting QueueDemo.os true (Some [5; 6]) [5; 6] queueSEND_TO_BACK w [] None)
    as (w1&w2&E1&_&_&E2&_&_&E3&_).
  - constructor; [by vm_compute..|by repeat constructor|]. intros _. exists 1. constructor; by vm_compute.
  - left. split; [by left|by vm_compute].
  - split; [by vm_compute|]. intros _. by exists [].
  - by vm_compute.
  - by vm_compute.
  - by vm_compute.
  - by vm_compute.
  - exists w1, w2. split; [exact E1|]. split; [exact E2|]. by rewrite E3.
Defined.
