(* ===== verification/SysArch.v ===== *)
(** * The operating system layer of lwIP

    [stacks/tcpip/code/ports/OS/FreeRTOS/sys_arch.c]: the mailboxes, semaphores and
    mutexes that the threads of lwIP use, on the kernel's queues of [RtosQueue]. A
    [sys_mbox_t], [sys_sem_t] or [sys_mutex_t] is a structure with one field, the
    handle of a queue; the state holds one of them and the queue it points to, and
    the variables of the file.

    The configuration is that of [lwip_FreeRTOS_s32k344.mex]: a tick rate of 1000 Hz,
    core locking with its checks, no statistics. [LWIP_ASSERT] loops forever when it
    fails, as [arch/cc.h] defines it. Parameters are the interrupt register that tells
    whether the caller is an interrupt, the request of a switch from an interrupt,
    the tick count, the delay and the creation of a task. The semaphore per thread,
    in thread-local storage, is left out. *)

From stdpp Require Import relations.
From S2P Require Import Prelude RtosQueue.
Local Open Scope Z_scope.

(** ** Data *)

Definition ERR_OK : Z := 0.
Definition ERR_MEM : Z := -1.
Definition ERR_NEED_SCHED : Z := 123.
Definition SYS_ARCH_TIMEOUT : Z := 0xffffffff.
Definition SYS_MBOX_EMPTY : Z := SYS_ARCH_TIMEOUT.
Definition configTICK_RATE_HZ : Z := 1000.
Definition MS_FACTOR : Z := 1000.
Definition portTICK_PERIOD_MS : Z := 1.
Definition portVECTACTIVE_MASK : Z := 0xFF.
Definition sizeof_pointer : Z := 4.
Definition sizeof_StackType_t : Z := 4.

(** [field] is the handle in the structure, [kern] the queue and the kernel. *)
Record arch (K : Type) := Arch {
  field : ptr;
  kern : kernel K;
  lwip_core_lock_count : Z;
  lwip_core_lock_holder_thread : Z;
  lwip_tcpip_thread : Z;
}.
Arguments Arch {K}. Arguments field {K}. Arguments kern {K}. Arguments lwip_core_lock_count {K}.
Arguments lwip_core_lock_holder_thread {K}. Arguments lwip_tcpip_thread {K}.

Section operations.
Context {T K : Type} (os : task_ops T K) (asserts : bool) (others interrupts : kernel K → kernel K).
Context (portNVIC_INT_CTRL_REG : K → Z) (portYIELD : K → K) (xTaskGetTickCount : K → Z).
Context (vTaskDelay : Z → kernel K → kernel K) (xTaskCreate : Z → Z → K → option Z * K).
Local Abbreviation S := (arch K).

Definition set_field x (s : S) : S :=
  Arch x (kern s) (lwip_core_lock_count s) (lwip_core_lock_holder_thread s) (lwip_tcpip_thread s).
Definition set_kern x (s : S) : S :=
  Arch (field s) x (lwip_core_lock_count s) (lwip_core_lock_holder_thread s) (lwip_tcpip_thread s).
Definition set_count x (s : S) : S :=
  Arch (field s) (kern s) x (lwip_core_lock_holder_thread s) (lwip_tcpip_thread s).
Definition set_holder x (s : S) : S := Arch (field s) (kern s) (lwip_core_lock_count s) x (lwip_tcpip_thread s).
Definition set_thread x (s : S) : S :=
  Arch (field s) (kern s) (lwip_core_lock_count s) (lwip_core_lock_holder_thread s) x.

(** A call of the kernel on the object. *)
Definition on {A} (m : ST (kernel K) A) : ST S A := λ s,
  match m (kern s) with Done (a, w) => Done (a, set_kern w s) | Fault => Fault | Diverge => Diverge end.
Definition tasks_of (s : S) : K := tasks (kern s).
Definition LWIP_ASSERT (b : bool) : ST S unit := if b then mret tt else diverge.
Definition given (p : ptr) : ST S unit := LWIP_ASSERT (bool_decide (p = OBJ)).

(** ** Time *)

Definition sys_now : ST S Z := gets (λ s, u32 (xTaskGetTickCount (tasks_of s) * portTICK_PERIOD_MS)).
Definition sys_jiffies : ST S Z := gets (λ s, xTaskGetTickCount (tasks_of s)).
(** Milliseconds to ticks; the product has 32 bits. *)
Definition ms_to_ticks (ms : Z) : Z := u32 (ms * configTICK_RATE_HZ) / MS_FACTOR.
Definition sys_arch_msleep (delay_ms : Z) : ST S unit := on (modify (vTaskDelay (ms_to_ticks delay_ms))).

(** ** Mutexes *)

Definition sys_mutex_new (fuel : nat) (mutex : ptr) : ST S Z :=
  given mutex;;
  mut ← on (xQueueCreateMutex os asserts others interrupts fuel);
  modify (set_field mut);;
  mret (match mut with NULL => ERR_MEM | OBJ => ERR_OK end).

Definition sys_mutex_lock (fuel : nat) (mutex : ptr) : ST S unit :=
  given mutex;;
  mut ← gets field;
  given mut;;
  ret ← on (xQueueTakeMutexRecursive os asserts others interrupts fuel mut portMAX_DELAY);
  LWIP_ASSERT (ret =? pdPASS).

Definition sys_mutex_unlock (fuel : nat) (mutex : ptr) : ST S unit :=
  given mutex;;
  mut ← gets field;
  given mut;;
  ret ← on (xQueueGiveMutexRecursive os asserts others interrupts fuel mut);
  LWIP_ASSERT (ret =? pdPASS).

Definition sys_mutex_free (mutex : ptr) : ST S unit :=
  given mutex;;
  mut ← gets field;
  given mut;;
  on (vQueueDelete os mut);;
  modify (set_field NULL).

(** ** Semaphores *)

Definition xSemaphoreGive (fuel : nat) (sem : ptr) : ST S Z :=
  on (xQueueGenericSend os asserts others interrupts fuel sem None 0 queueSEND_TO_BACK).

Definition sys_sem_new (fuel : nat) (sem : ptr) (initial_count : Z) : ST S Z :=
  given sem;;
  LWIP_ASSERT ((initial_count =? 0) || (initial_count =? 1));;
  handle ← on (xQueueGenericCreate os asserts others 1 queueSEMAPHORE_QUEUE_ITEM_LENGTH);
  modify (set_field handle);;
  match handle with
  | NULL => mret ERR_MEM
  | OBJ =>
      (if initial_count =? 1 then ret ← xSemaphoreGive fuel handle; LWIP_ASSERT (ret =? pdPASS) else mret tt);;
      mret ERR_OK
  end.

Definition sys_sem_signal (fuel : nat) (sem : ptr) : ST S unit :=
  given sem;;
  handle ← gets field;
  given handle;;
  ret ← xSemaphoreGive fuel handle;
  LWIP_ASSERT ((ret =? pdPASS) || (ret =? errQUEUE_FULL)).

Definition sys_arch_sem_wait (fuel : nat) (sem : ptr) (timeout_ms : Z) : ST S Z :=
  given sem;;
  handle ← gets field;
  given handle;;
  if timeout_ms =? 0 then
    ret ← on (xQueueSemaphoreTake os asserts others interrupts fuel handle portMAX_DELAY);
    LWIP_ASSERT (ret =? pdPASS);;
    mret 1
  else
    ret ← on (xQueueSemaphoreTake os asserts others interrupts fuel handle (ms_to_ticks timeout_ms));
    if ret =? errQUEUE_EMPTY then mret SYS_ARCH_TIMEOUT
    else LWIP_ASSERT (ret =? pdPASS);; mret 1.

Definition sys_sem_free (sem : ptr) : ST S unit :=
  given sem;;
  handle ← gets field;
  given handle;;
  on (vQueueDelete os handle);;
  modify (set_field NULL).

(** ** Mailboxes *)

Definition sys_mbox_new (mbox : ptr) (size : Z) : ST S Z :=
  given mbox;;
  LWIP_ASSERT (0 <? size);;
  mbx ← on (xQueueGenericCreate os asserts others size sizeof_pointer);
  modify (set_field mbx);;
  mret (match mbx with NULL => ERR_MEM | OBJ => ERR_OK end).

Definition in_interrupt (s : S) : bool :=
  negb (Z.land (portNVIC_INT_CTRL_REG (tasks_of s)) portVECTACTIVE_MASK =? 0).

(** The loop that repeats until the message has been posted. *)
Fixpoint post_loop (attempts fuel : nat) (mbx : ptr) (msg position : Z) : ST S unit :=
  match attempts with
  | O => diverge
  | Datatypes.S attempts =>
      ret ← on (xQueueGenericSend os asserts others interrupts fuel mbx (Some (le32 msg)) 10000 position);
      if ret =? pdPASS then mret tt else post_loop attempts fuel mbx msg position
  end.

(** From an interrupt: [woken] is the value that the local variable
    [xHigherPriorityTaskWoken], which is not initialised, happens to have. *)
Definition post_from_isr (woken : bool) (mbx : ptr) (msg position : Z) : ST S bool :=
  '(ret, woken) ← on (xQueueGenericSendFromISR os asserts mbx (Some (le32 msg)) (Some woken) position);
  LWIP_ASSERT (ret =? pdPASS);;
  mret (default false woken).

Definition sys_mbox_post (attempts fuel : nat) (woken : bool) (mbox : ptr) (msg : Z) : ST S unit :=
  given mbox;;
  s ← gets id;
  if negb (in_interrupt s) then post_loop attempts fuel (field s) msg queueSEND_TO_BACK
  else
    woken ← post_from_isr woken (field s) msg queueSEND_TO_BACK;
    if woken : bool then on (modify (λ w, Kernel (queue w) (portYIELD (tasks w)))) else mret tt.

Definition sys_mbox_trypost (fuel : nat) (woken : bool) (mbox : ptr) (msg : Z) : ST S Z :=
  given mbox;;
  s ← gets id;
  if negb (in_interrupt s) then
    ret ← on (xQueueGenericSend os asserts others interrupts fuel (field s) (Some (le32 msg)) 10000 queueSEND_TO_BACK);
    mret (if negb (ret =? pdPASS) then ERR_MEM else ERR_OK)
  else
    post_from_isr woken (field s) msg queueSEND_TO_BACK;;
    mret ERR_OK.

Definition sys_mbox_trypost_fromisr (mbox : ptr) (msg : Z) : ST S Z :=
  given mbox;;
  mbx ← gets field;
  given mbx;;
  '(ret, woken) ← on (xQueueGenericSendFromISR os asserts mbx (Some (le32 msg)) (Some false) queueSEND_TO_BACK);
  if ret =? pdPASS then mret (if default false woken then ERR_NEED_SCHED else ERR_OK)
  else LWIP_ASSERT (ret =? errQUEUE_FULL);; mret ERR_MEM.

Definition sys_mbox_post_to_front (attempts fuel : nat) (woken : bool) (mbox : ptr) (msg : Z) : ST S unit :=
  given mbox;;
  s ← gets id;
  if negb (in_interrupt s) then post_loop attempts fuel (field s) msg queueSEND_TO_FRONT
  else post_from_isr woken (field s) msg queueSEND_TO_FRONT;; mret tt.

(** [msg] is what the caller's variable holds, [None] for a null pointer; a local
    variable takes its place then. The result is the return value and the variable. *)
Definition receive (fuel : nat) (mbx : ptr) (msg : option Z) (ticks : Z) : ST S (Z * Z) :=
  '(ret, b) ← on (xQueueReceive os asserts others interrupts fuel mbx (Some (le32 (default 0 msg))) ticks);
  mret (ret, of_le32 (default [] b)).

Definition sys_arch_mbox_fetch (fuel : nat) (mbox : ptr) (msg : option Z) (timeout_ms : Z) : ST S (Z * option Z) :=
  given mbox;;
  mbx ← gets field;
  given mbx;;
  let store x := (λ _, x) <$> msg in
  if timeout_ms =? 0 then
    '(ret, x) ← receive fuel mbx msg portMAX_DELAY;
    LWIP_ASSERT (ret =? pdPASS);;
    mret (1, store x)
  else
    '(ret, x) ← receive fuel mbx msg (ms_to_ticks timeout_ms);
    if ret =? errQUEUE_EMPTY then mret (SYS_ARCH_TIMEOUT, store 0)
    else LWIP_ASSERT (ret =? pdPASS);; mret (1, store x).

Definition sys_arch_mbox_tryfetch (fuel : nat) (mbox : ptr) (msg : option Z) : ST S (Z * option Z) :=
  given mbox;;
  mbx ← gets field;
  given mbx;;
  let store x := (λ _, x) <$> msg in
  '(ret, x) ← receive fuel mbx msg 0;
  if ret =? errQUEUE_EMPTY then mret (SYS_MBOX_EMPTY, store 0)
  else LWIP_ASSERT (ret =? pdPASS);; mret (0, store x).

Definition sys_mbox_free (mbox : ptr) : ST S unit :=
  given mbox;;
  mbx ← gets field;
  given mbx;;
  on (vQueueDelete os mbx).

(** ** Threads and the core lock *)

Definition sys_thread_new (stacksize prio : Z) : ST S Z :=
  LWIP_ASSERT (0 <? stacksize);;
  r ← on (call (xTaskCreate (stacksize / sizeof_StackType_t) prio));
  match r with Some task => mret task | None => diverge end.

Definition sys_lock_tcpip_core (fuel : nat) : ST S unit :=
  sys_mutex_lock fuel OBJ;;
  s ← gets id;
  (if lwip_core_lock_count s =? 0 then modify (set_holder (xTaskGetCurrentTaskHandle os (tasks_of s))) else mret tt);;
  modify (set_count (u8 (lwip_core_lock_count s + 1))).

Definition sys_unlock_tcpip_core (fuel : nat) : ST S unit :=
  modify (λ s, set_count (u8 (lwip_core_lock_count s - 1)) s);;
  s ← gets id;
  (if lwip_core_lock_count s =? 0 then modify (set_holder 0) else mret tt);;
  sys_mutex_unlock fuel OBJ.

Definition sys_mark_tcpip_thread : ST S unit :=
  modify (λ s, set_thread (xTaskGetCurrentTaskHandle os (tasks_of s)) s).

Definition sys_check_core_locking : ST S unit :=
  s ← gets id;
  if negb (lwip_tcpip_thread s =? 0) then
    let current_thread := xTaskGetCurrentTaskHandle os (tasks_of s) in
    LWIP_ASSERT ((current_thread =? lwip_core_lock_holder_thread s) && (0 <? lwip_core_lock_count s))
  else mret tt.
End operations.

(** ** Calls of the kernel *)

Section calls.
Context {K : Type}.
Lemma wp_on {D : Prop} {A} (m : ST (kernel K) A) (Q : A → arch K → Prop) s :
  wp D m (λ a w, Q a (set_kern w s)) (kern s) → wp D (on m) Q s.
Proof. unfold wp, on. by destruct (m (kern s)) as [[??]| |]. Qed.
Lemma on_done {A} (m : ST (kernel K) A) s a w : m (kern s) = Done (a, w) → on m s = Done (a, set_kern w s).
Proof. unfold on. by intros ->. Qed.
Lemma assert_bind {A} (b : bool) (m : unit → ST (arch K) A) s : b = true → (LWIP_ASSERT b ≫= m) s = m tt s.
Proof. by intros ->. Qed.
Lemma given_bind {A} (m : unit → ST (arch K) A) s : (given OBJ ≫= m) s = m tt s.
Proof. done. Qed.
Lemma wp_given {D : Prop} (Q : unit → arch K → Prop) s : Q tt s → wp D (given OBJ) Q s.
Proof. done. Qed.
End calls.

Lemma ms_to_ticks_range ms : 0 <= ms → 0 <= ms_to_ticks ms <= 4294967.
Proof.
  intros. unfold ms_to_ticks, MS_FACTOR. pose proof (u32_range (ms * configTICK_RATE_HZ)) as H0.
  unfold is_u32 in H0. split; [apply Z.div_pos; lia|].
  apply Z.lt_succ_r, Z.div_lt_upper_bound; lia.
Qed.

(** ** Mailboxes under interference *)

Section mailbox.
Context {T K : Type} (os : task_ops T K) (asserts : bool) (others interrupts : kernel K → kernel K).
Context (left : T → Z → K → nat) (patient : K → Prop).
Context `{!Environment others interrupts} `{!Deadline os others interrupts left patient}.
Hypothesis scheduler_runs : ∀ k, scheduler_suspended os k = false.
Local Abbreviation S := (arch K).

(** The other tasks take at least one message out of a mailbox when they run. *)
Definition makes_room : Prop := ∀ w items, fifo (queue w) items →
  ∃ items', fifo (queue (others w)) items' ∧ len items' < uxLength (queue (others w)).

Lemma points_to_le32 q msg : uxItemSize q = 4 → points_to q (Some (le32 msg)) (le32 msg).
Proof. intros Hs. split; [by rewrite len_le32|]. intros _. by exists []. Qed.

Lemma post_loop_spec attempts fuel msg position s : well (kern s) → uxItemSize (queue (kern s)) = 4 →
  position = queueSEND_TO_BACK ∨ position = queueSEND_TO_FRONT →
  (∀ k, (2 + left (vTaskInternalSetTimeOutState os k) 10000%Z k <= fuel)%nat) →
  wp (¬ (makes_room ∧ ((2 <= attempts)%nat ∨ (1 <= attempts)%nat ∧
           uxMessagesWaiting (queue (kern s)) < uxLength (queue (kern s)))))
    (post_loop os asserts others interrupts attempts fuel OBJ msg position)
    (λ _ s', sent others interrupts position (le32 msg) (kern s) (kern s')) s.
Proof.
  intros Hw Hs Hpos Hfuel. revert s Hw Hs. induction attempts as [|attempts IH]; intros s Hw Hs.
  { simpl. unfold wp, diverge. lia. }
  simpl. apply wp_bind, wp_on. eapply (wp_weaken (D := 10000 = portMAX_DELAY)); [done|]. eapply wp_mono.
  { apply (generic_send_spec os asserts others interrupts left patient fuel (Some (le32 msg)) (le32 msg) 10000);
      [done|by apply points_to_le32|by destruct Hpos; auto|by rewrite scheduler_runs|].
    intros _. specialize (Hfuel (tasks (kern s))). lia. }
  intros r w' [[-> HT]|(->&HT&Hfull&Hlast)]; [by apply wp_ret|].
  destruct Hlast as [[? _]|(w0&He&->)]; [done|]. change (errQUEUE_FULL =? pdPASS) with false. cbv iota.
  destruct (env_well others interrupts w0 (others w0)) as (Hw'&E1&E2).
  { apply rtc_once. by left. }
  { by eapply env_well. }
  destruct (env_well others interrupts (kern s) w0 He Hw) as (Hw0&E3&E4).
  eapply wp_weaken; [|eapply wp_mono; [apply IH|]]; [|exact Hw'|simpl; congruence|].
  - intros HD [Hmr Ha]. apply HD. split; [done|]. destruct Ha as [Ha|[_ Ha]]; [|lia].
    destruct Hw0 as [items0 HF0]. destruct (Hmr w0 items0 HF0) as (items'&[F1 _ _ _ _ _]&Hlt).
    simpl. rewrite F1. right. split; [lia|done].
  - intros u s' HT'. eapply sent_env; [|exact HT'].
    eapply rtc_r; [exact He|]. by left.
Qed.

(** A fetched message, or none in the time. *)
Definition fetched (ticks : Z) (none : Z) (s : S) (r : Z * option Z) (s' : S) : Prop :=
  (∃ x, r.1 ≠ none ∧ r.2 = Some (of_le32 x) ∧ received others interrupts false x (kern s) (kern s')) ∨
  (r = (none, Some 0) ∧ refused others interrupts patient no_items ticks (kern s) (kern s')).

Lemma receive_spec fuel msg ticks s : well (kern s) → uxItemSize (queue (kern s)) = 4 →
  rounds left fuel (vTaskInternalSetTimeOutState os (tasks (kern s))) ticks (tasks (kern s)) →
  wp (ticks = portMAX_DELAY) (receive os asserts others interrupts fuel OBJ msg ticks)
    (λ r s', (∃ x, r = (pdPASS, of_le32 x) ∧ received others interrupts false x (kern s) (kern s')) ∨
             (r.1 = errQUEUE_EMPTY ∧ refused others interrupts patient no_items ticks (kern s) (kern s'))) s.
Proof.
  intros Hw Hs Hr. unfold receive. apply wp_bind, wp_on.
  eapply wp_mono.
  { apply (proj1 (generic_receive_spec os asserts others interrupts left patient fuel
                    (Some (le32 (default 0 msg))) ticks (kern s) Hw
                    ltac:(intros _; eexists; split; [done|by rewrite Hs, len_le32])
                    ltac:(done) ltac:(by rewrite scheduler_runs) Hr)). }
  intros [ret b] w' [(x&[= -> ->]&HT)|([= -> ->]&HT)]; apply wp_ret; [left|by right].
  exists x. split; [|done]. f_equal. simpl. unfold of_le32.
  destruct HT as (w1&w2&items&He&[_ _ _ _ F5 _]&_). apply Forall_cons in F5 as [Hx _].
  destruct (env_well _ _ _ _ He Hw) as (_&_&E). rewrite E, Hs in Hx.
  destruct x as [|a [|b [|c [|d [|e x]]]]]; try done; unfold len in Hx; simpl in Hx; lia.
Qed.

Lemma fetch_spec fuel msg timeout_ms s : field s = OBJ → well (kern s) → uxItemSize (queue (kern s)) = 4 →
  0 <= timeout_ms →
  let ticks := if timeout_ms =? 0 then portMAX_DELAY else ms_to_ticks timeout_ms in
  rounds left fuel (vTaskInternalSetTimeOutState os (tasks (kern s))) ticks (tasks (kern s)) →
  wp (timeout_ms = 0) (sys_arch_mbox_fetch os asserts others interrupts fuel OBJ (Some msg) timeout_ms)
    (λ r s', fetched ticks SYS_ARCH_TIMEOUT s r s' ∧ (timeout_ms = 0 → r.1 ≠ SYS_ARCH_TIMEOUT)) s.
Proof.
  intros Hf Hw Hs Ht ticks Hr. unfold sys_arch_mbox_fetch.
  apply wp_bind, wp_given, wp_bind, wp_gets. rewrite Hf. apply wp_bind, wp_given.
  cbv zeta. subst ticks. case (Z.eqb_spec timeout_ms 0) as [->|Hn].
  - apply wp_bind. eapply (wp_weaken (D := portMAX_DELAY = portMAX_DELAY)); [done|].
    eapply wp_mono; [by apply receive_spec|].
    intros [ret x] s' [(y&[= -> ->]&HT)|[E HT]]; simpl in *.
    + apply wp_bind, wp_ret, wp_ret. split; [|done]. left. by exists y.
    + subst ret. by apply wp_bind.
  - pose proof (ms_to_ticks_range timeout_ms Ht) as Hrange.
    apply wp_bind. eapply (wp_weaken (D := ms_to_ticks timeout_ms = portMAX_DELAY)).
    { intros E. rewrite E in Hrange. by destruct Hrange. }
    eapply wp_mono; [by apply receive_spec|].
    intros [ret x] s' [(y&[= -> ->]&HT)|[E HT]]; simpl in *.
    + apply wp_bind, wp_ret, wp_ret. split; [|done]. left. by exists y.
    + subst ret. apply wp_ret. split; [|done]. by right.
Qed.

Lemma tryfetch_spec fuel msg s : field s = OBJ → well (kern s) → uxItemSize (queue (kern s)) = 4 → (0 < fuel)%nat →
  wp False (sys_arch_mbox_tryfetch os asserts others interrupts fuel OBJ (Some msg)) (fetched 0 SYS_MBOX_EMPTY s) s.
Proof.
  intros Hf Hw Hs Hfuel. unfold sys_arch_mbox_tryfetch.
  apply wp_bind, wp_given, wp_bind, wp_gets. rewrite Hf. apply wp_bind, wp_given. cbv zeta.
  apply wp_bind. eapply (wp_weaken (D := 0 = portMAX_DELAY)); [done|].
  eapply wp_mono; [by apply receive_spec|].
  intros [ret x] s' [(y&[= -> ->]&HT)|[E HT]]; simpl in *.
  - apply wp_bind, wp_ret, wp_ret. left. by exists y.
  - subst ret. apply wp_ret. by right.
Qed.
End mailbox.

(** ** A mailbox with one user *)

(** The messages in a mailbox, as pointers. *)
Definition mailbox (q : Queue_t) (msgs : list Z) : Prop := fifo q (map le32 msgs) ∧ uxItemSize q = 4.

(** What a thread does with a mailbox, and the messages it fetches; [None] when
    it would have to wait. *)
Inductive command := Post (msg : Z) | Fetch.
Fixpoint mailbox_spec (size : Z) (msgs : list Z) (cs : list command) : option (list Z * list Z) :=
  match cs with
  | [] => Some ([], msgs)
  | Post msg :: cs => if len msgs <? size then mailbox_spec size (msgs ++ [msg]) cs else None
  | Fetch :: cs =>
      match msgs with
      | [] => None
      | msg :: msgs => '(out, rest) ← mailbox_spec size msgs cs; Some (msg :: out, rest)
      end
  end.

Section alone.
Context {T K : Type} (os : task_ops T K) (asserts : bool) (others interrupts : kernel K → kernel K).
Context (portNVIC_INT_CTRL_REG : K → Z) (portYIELD : K → K).
Hypothesis others_idle : ∀ w, contents (queue (others w)) = contents (queue w).
Hypothesis scheduler_runs : ∀ k, scheduler_suspended os k = false.
Hypothesis in_thread : ∀ k, Z.land (portNVIC_INT_CTRL_REG k) portVECTACTIVE_MASK = 0.
Local Abbreviation S := (arch K).

Definition command_call (fuel : nat) (c : command) : ST S (list Z) :=
  match c with
  | Post msg => sys_mbox_post os asserts others interrupts portNVIC_INT_CTRL_REG portYIELD fuel fuel false OBJ msg;; mret []
  | Fetch =>
      '(_, msg) ← sys_arch_mbox_fetch os asserts others interrupts fuel OBJ (Some 0) 0;
      mret (match msg with Some msg => [msg] | None => [] end)
  end.
Fixpoint run (fuel : nat) (cs : list command) : ST S (list Z) :=
  match cs with
  | [] => mret []
  | c :: cs => out1 ← command_call fuel c; out2 ← run fuel cs; mret (out1 ++ out2)
  end.

Lemma post_room fuel msg s msgs size : field s = OBJ → mailbox (queue (kern s)) msgs → uxLength (queue (kern s)) = size →
  len msgs < size → ∃ w', command_call (Datatypes.S fuel) (Post msg) s = Done ([], set_kern w' s) ∧
    mailbox (queue w') (msgs ++ [msg]) ∧ uxLength (queue w') = size.
Proof.
  intros Hf [HF Hs] Hsize Hroom.
  destruct (send_room os asserts others interrupts others_idle fuel (Some (le32 msg)) (le32 msg) 10000 (kern s) (map le32 msgs))
    as (w'&E&HF'&E1&E2); [done|by unfold len in *; rewrite length_map; lia|by apply points_to_le32|by rewrite scheduler_runs|].
  exists w'. split; [|split; [split; [by rewrite map_app|congruence]|congruence]].
  unfold command_call, sys_mbox_post, in_interrupt. unfold mbind at 1, ST_bind at 1. rewrite given_bind, gets_id.
  rewrite in_thread, Hf. simpl. unfold mbind at 1, ST_bind at 1.
  match goal with |- context [on ?m s] => rewrite (on_done m s _ _ E) end. done.
Qed.

Lemma fetch_head fuel msg s msgs size : field s = OBJ → mailbox (queue (kern s)) (msg :: msgs) →
  uxLength (queue (kern s)) = size → is_u32 msg →
  ∃ w', command_call (Datatypes.S fuel) Fetch s = Done ([msg], set_kern w' s) ∧
    mailbox (queue w') msgs ∧ uxLength (queue w') = size.
Proof.
  intros Hf [HF Hs] Hsize Hmsg.
  destruct (receive_head os asserts others interrupts others_idle fuel (le32 0) (le32 msg) portMAX_DELAY (kern s) (map le32 msgs))
    as (w'&E&HF'&E1&E2); [done|by rewrite Hs, len_le32|by rewrite scheduler_runs|].
  exists w'. split; [|split; [split; [done|congruence]|congruence]].
  unfold command_call, sys_arch_mbox_fetch, receive. unfold mbind at 1, ST_bind at 1.
  rewrite given_bind, gets_bind, Hf, given_bind. simpl. unfold mbind at 1, ST_bind at 1. unfold mbind at 1, ST_bind at 1.
  match goal with |- context [on ?m s] => rewrite (on_done m s _ _ E) end. simpl.
  pose proof (of_le32_le32 msg [] Hmsg) as Hle. rewrite app_nil_r in Hle.
  unfold of_le32, le32 in *. simpl in *. by rewrite Hle.
Qed.

Lemma run_refines fuel cs s msgs size out rest : field s = OBJ → mailbox (queue (kern s)) msgs →
  uxLength (queue (kern s)) = size → Forall is_u32 msgs → (∀ msg, Post msg ∈ cs → is_u32 msg) →
  mailbox_spec size msgs cs = Some (out, rest) →
  ∃ w', run (Datatypes.S fuel) cs s = Done (out, set_kern w' s) ∧ mailbox (queue w') rest.
Proof.
  revert s msgs out. induction cs as [|c cs IH]; intros s msgs out Hf Hm Hsize Hmsgs Hcs Hspec.
  { injection Hspec as <- <-. exists (kern s). split; [by destruct s|done]. }
  cbn [run]. destruct c as [msg|]; simpl in Hspec.
  - case (Z.ltb_spec (len msgs) size) in Hspec; [|done].
    destruct (post_room fuel msg s msgs size Hf Hm Hsize) as (w1&E1&Hm1&Hs1); [done|].
    destruct (IH (set_kern w1 s) (msgs ++ [msg]) out) as (w2&E2&Hm2); try done.
    + apply Forall_app_2; [done|]. constructor; [|done]. apply Hcs. by left.
    + intros ??. apply Hcs. by right.
    + exists w2. split; [|done]. rewrite (bind_done _ _ _ _ _ E1), (bind_done _ _ _ _ _ E2). done.
  - destruct msgs as [|msg msgs]; [done|]. apply Forall_cons in Hmsgs as [Hmsg Hmsgs].
    destruct (mailbox_spec size msgs cs) as [[out' rest']|] eqn:Ec; [|done]. injection Hspec as <- <-.
    destruct (fetch_head fuel msg s msgs size Hf Hm Hsize Hmsg) as (w1&E1&Hm1&Hs1).
    destruct (IH (set_kern w1 s) msgs out') as (w2&E2&Hm2); try done.
    + intros ??. apply Hcs. by right.
    + exists w2. split; [|done]. rewrite (bind_done _ _ _ _ _ E1), (bind_done _ _ _ _ _ E2). done.
Qed.

(** *** The core lock *)

Context (me : Z).
Hypothesis me_valid : me ≠ 0.
Hypothesis it_is_me : ∀ k, xTaskGetCurrentTaskHandle os k = me.
Hypothesis I_hold : ∀ k, (pvTaskIncrementMutexHeldCount os k).1 = me.

(** The lock is taken [n] times by this thread, or free. *)
Definition core_locked (n : Z) (s : S) : Prop :=
  field s = OBJ ∧ mutex_state (n =? 0) (queue (kern s)) ∧
  holds (if n =? 0 then 0 else me) n (kern s) ∧
  lwip_core_lock_count s = n ∧ lwip_core_lock_holder_thread s = (if n =? 0 then 0 else me).

Local Abbreviation lock := (sys_lock_tcpip_core os asserts others interrupts).
Local Abbreviation unlock := (sys_unlock_tcpip_core os asserts others interrupts).

Lemma take_recursive fuel n w : mutex_state (n =? 0) (queue w) → holds (if n =? 0 then 0 else me) n w → 0 <= n < 255 →
  ∃ w', xQueueTakeMutexRecursive os asserts others interrupts (Datatypes.S fuel) OBJ portMAX_DELAY w = Done (pdPASS, w') ∧
    mutex_state false (queue w') ∧ holds me (n + 1) w'.
Proof.
  intros Hm [Hh Hc] Hn. unfold xQueueTakeMutexRecursive, handle. rewrite !gets_bind, Hh, it_is_me.
  assert (∀ w1 : kernel K, mutex_state false (queue w1) → holds me n w1 →
    let w2 := Kernel (with_second (u32 (uxRecursiveCallCount (queue w1) + 1)) (queue w1)) (tasks w1) in
    mutex_state false (queue w2) ∧ holds me (n + 1) w2) as Hend.
  { intros w1 [M1 M2 M3 M4] [H1 H2]. unfold holds, xMutexHolder, uxRecursiveCallCount in *.
    destruct w1 as [[] k]; simpl in *. subst. rewrite u32_small by (unfold is_u32; lia). by split; [constructor|]. }
  destruct (Z.eqb_spec n 0) as [->|Hn0].
  - rewrite (proj2 (Z.eqb_neq _ _)) by done.
    destruct (take_free os asserts others interrupts others_idle fuel portMAX_DELAY w Hm) as (w1&E&Hm1&Hh1).
    { by rewrite scheduler_runs. }
    rewrite (bind_done _ _ _ _ _ E). simpl. unfold upd. rewrite modify_bind. eexists. split; [done|].
    rewrite I_hold in Hh1. unfold uxRecursiveCallCount in Hc. rewrite Hc in Hh1. by apply Hend.
  - rewrite Z.eqb_refl. unfold upd. rewrite modify_bind. eexists. split; [done|]. by apply Hend.
Qed.

Lemma give_recursive fuel n w : mutex_state false (queue w) → holds me (n + 1) w → 0 <= n < 255 →
  ∃ w', xQueueGiveMutexRecursive os asserts others interrupts (Datatypes.S fuel) OBJ w = Done (pdPASS, w') ∧
    mutex_state (n =? 0) (queue w') ∧ holds (if n =? 0 then 0 else me) n w'.
Proof.
  intros [M1 M2 M3 M4] [Hh Hc] Hn. unfold xQueueGiveMutexRecursive, handle. rewrite !gets_bind, Hh, it_is_me, Z.eqb_refl.
  unfold upd. rewrite modify_bind, gets_bind.
  set (w1 := Kernel (with_second (u32 (uxRecursiveCallCount (queue w) - 1)) (queue w)) (tasks w)).
  assert (mutex_state false (queue w1) ∧ holds me n w1) as [Hm1 [Hh1 Hc1]].
  { unfold holds, xMutexHolder, uxRecursiveCallCount in *. subst w1.
    destruct w as [[] k]; simpl in *. subst. rewrite u32_small by (unfold is_u32; lia).
    replace (n + 1 - 1) with n by lia. by split; [constructor|]. }
  rewrite Hc1. destruct (Z.eqb_spec n 0) as [->|Hn0].
  - destruct (give_taken os asserts others interrupts others_idle fuel w1 Hm1) as (w2&E&Hm2&Hh2).
    unfold mbind at 1, ST_bind at 1. rewrite (bind_done _ _ _ _ _ E). exists w2. split; [done|].
    split; [done|]. unfold uxRecursiveCallCount in Hc1. by rewrite Hc1 in Hh2.
  - rewrite ret_bind. exists w1. by split.
Qed.

Lemma lock_once fuel n s : core_locked n s → 0 <= n < 255 →
  ∃ s', lock (Datatypes.S fuel) s = Done (tt, s') ∧ core_locked (n + 1) s' ∧ lwip_tcpip_thread s' = lwip_tcpip_thread s.
Proof.
  intros (Hf&Hm&Hh&Hc&Hd) Hn. destruct (take_recursive fuel n (kern s) Hm Hh Hn) as (w1&E&Hm1&Hh1).
  unfold sys_lock_tcpip_core, sys_mutex_lock. unfold mbind at 1, ST_bind at 1.
  rewrite given_bind, gets_bind, Hf, given_bind. rewrite (bind_done _ _ _ _ _ (on_done _ s _ _ E)). simpl.
  rewrite gets_id. simpl. rewrite Hc, u8_small by (unfold is_u8; lia).
  assert (n + 1 =? 0 = false) as En by (apply Z.eqb_neq; lia).
  assert (∀ s1, field s1 = OBJ → kern s1 = w1 → lwip_core_lock_holder_thread s1 = me →
    lwip_tcpip_thread s1 = lwip_tcpip_thread s →
    core_locked (n + 1) (set_count (n + 1) s1) ∧ lwip_tcpip_thread (set_count (n + 1) s1) = lwip_tcpip_thread s) as Hend.
  { intros s1 H1 H2 H3 H4. split; [|done]. unfold core_locked. simpl. rewrite En, H2, H3. by split_and!. }
  destruct (n =? 0) eqn:E0.
  - unfold mbind at 1, ST_bind at 1. unfold modify at 1. eexists. split; [done|].
    apply Hend; try done. apply it_is_me.
  - rewrite ret_bind. eexists. split; [done|]. by apply Hend.
Qed.

Lemma unlock_once fuel n s : core_locked (n + 1) s → 0 <= n < 255 →
  ∃ s', unlock (Datatypes.S fuel) s = Done (tt, s') ∧ core_locked n s' ∧ lwip_tcpip_thread s' = lwip_tcpip_thread s.
Proof.
  intros (Hf&Hm&Hh&Hc&Hd) Hn. assert (n + 1 =? 0 = false) as En by (apply Z.eqb_neq; lia). rewrite En in *.
  destruct (give_recursive fuel n (kern s) Hm Hh Hn) as (w1&E&Hm1&Hh1).
  unfold sys_unlock_tcpip_core. rewrite modify_bind, gets_id. simpl. rewrite Hc.
  replace (n + 1 - 1) with n by lia. rewrite u8_small by (unfold is_u8; lia).
  assert (∀ s1, field s1 = OBJ → kern s1 = kern s → lwip_core_lock_count s1 = n →
    sys_mutex_unlock os asserts others interrupts (Datatypes.S fuel) OBJ s1 = Done (tt, set_kern w1 s1)) as Hu.
  { intros s1 H1 H2 H3. unfold sys_mutex_unlock. rewrite given_bind, gets_bind, H1, given_bind.
    rewrite <- H2 in E. by rewrite (bind_done _ _ _ _ _ (on_done _ s1 _ _ E)). }
  destruct (n =? 0) eqn:E0.
  - rewrite modify_bind. rewrite Hu by done. eexists. split; [done|].
    split; [|done]. unfold core_locked. rewrite E0. by split_and!.
  - rewrite ret_bind. rewrite Hu by done. eexists. split; [done|].
    split; [|done]. unfold core_locked. rewrite E0. by split_and!.
Qed.

Lemma check_locked n s : core_locked n s → 0 <= n → lwip_tcpip_thread s ≠ 0 →
  sys_check_core_locking os s = if n =? 0 then Diverge else Done (tt, s).
Proof.
  intros (_&_&_&Hc&Hd) Hn Ht. unfold sys_check_core_locking. rewrite gets_id.
  rewrite (proj2 (Z.eqb_neq _ _) Ht). simpl. rewrite it_is_me, Hc, Hd.
  destruct (Z.eqb_spec n 0) as [->|Hn0]; [by rewrite andb_false_r|].
  rewrite Z.eqb_refl. by rewrite (proj2 (Z.ltb_lt 0 n)) by lia.
Qed.

Lemma locks fuel n m s : core_locked m s → 0 <= m → m + Z.of_nat n <= 255 →
  ∃ s', for_each (replicate n tt) (λ _, lock (Datatypes.S fuel)) s = Done (tt, s') ∧
    core_locked (m + Z.of_nat n) s' ∧ lwip_tcpip_thread s' = lwip_tcpip_thread s.
Proof.
  revert m s. induction n as [|n IH]; intros m s Hs Hm Hn.
  { exists s. split; [done|]. split; [|done]. by rewrite Z.add_0_r. }
  destruct (lock_once fuel m s Hs) as (s1&E1&Hs1&Ht1); [lia|].
  destruct (IH (m + 1) s1 Hs1) as (s2&E2&Hs2&Ht2); [lia..|].
  exists s2. simpl. rewrite (bind_done _ _ _ _ _ E1), E2. split; [done|].
  split; [|congruence]. by replace (m + Z.of_nat (Datatypes.S n)) with (m + 1 + Z.of_nat n) by lia.
Qed.

Lemma unlocks fuel n m s : core_locked (m + Z.of_nat n) s → 0 <= m → m + Z.of_nat n <= 255 →
  ∃ s', for_each (replicate n tt) (λ _, unlock (Datatypes.S fuel)) s = Done (tt, s') ∧
    core_locked m s' ∧ lwip_tcpip_thread s' = lwip_tcpip_thread s.
Proof.
  revert s. induction n as [|n IH]; intros s Hs Hm Hn.
  { exists s. split; [done|]. split; [|done]. by rewrite Z.add_0_r in Hs. }
  destruct (unlock_once fuel (m + Z.of_nat n) s) as (s1&E1&Hs1&Ht1).
  { by replace (m + Z.of_nat n + 1) with (m + Z.of_nat (Datatypes.S n)) by lia. }
  { lia. }
  destruct (IH s1 Hs1) as (s2&E2&Hs2&Ht2); [lia..|].
  exists s2. simpl. rewrite (bind_done _ _ _ _ _ E1), E2. by split; [|split; [|congruence]].
Qed.
End alone.

(** ** Properties *)

(** C14 (liveness): posting delivers. Whatever other tasks and interrupts do to the
    mailbox meanwhile, when [sys_mbox_post] of a thread returns, its message has been
    added once, at the back, at one moment at which there was room; and it returns
    if the receivers take a message out of the mailbox whenever they run, by its
    second attempt at the latest. *)
Theorem mbox_post_delivers {T K} (os : task_ops T K) asserts others interrupts icsr yield left patient
    attempts fuel woken msg s :
  Environment others interrupts → Deadline os others interrupts left patient →
  (∀ k, scheduler_suspended os k = false) →
  (∀ k, (2 + left (vTaskInternalSetTimeOutState os k) 10000%Z k <= fuel)%nat) →
  in_interrupt icsr s = false → field s = OBJ → well (kern s) → uxItemSize (queue (kern s)) = 4 →
  wp (¬ (makes_room others ∧ (2 <= attempts)%nat))
    (sys_mbox_post os asserts others interrupts icsr yield attempts fuel woken OBJ msg)
    (λ _ s', sent others interrupts queueSEND_TO_BACK (le32 msg) (kern s) (kern s')) s.
Proof.
  intros He Hd Hruns Hfuel Hi Hf Hw Hs. unfold sys_mbox_post. apply wp_bind, wp_given, wp_bind, wp_gets.
  simpl. rewrite Hi, Hf. simpl. eapply wp_weaken; [|by apply (post_loop_spec os asserts others interrupts left patient); auto].
  intros HD [Hm Ha]. apply HD. auto.
Qed.

(** C15 (refinement): fetching takes the message that is first. Whatever others do to
    the mailbox meanwhile, [sys_arch_mbox_fetch] with a time-out returns; either it
    has taken out the message that was first at one moment and stores it, or it
    stores [NULL] and returns [SYS_ARCH_TIMEOUT], and the mailbox was empty at one
    moment. Without a time-out it returns only with a message.
    [sys_arch_mbox_tryfetch] always returns, with the same results. *)
Theorem mbox_fetch_takes_first {T K} (os : task_ops T K) asserts others interrupts left patient
    fuel msg timeout_ms s :
  Environment others interrupts → Deadline os others interrupts left patient →
  (∀ k, scheduler_suspended os k = false) → 0 <= timeout_ms →
  field s = OBJ → well (kern s) → uxItemSize (queue (kern s)) = 4 → (0 < fuel)%nat →
  let ticks := if timeout_ms =? 0 then portMAX_DELAY else ms_to_ticks timeout_ms in
  rounds left fuel (vTaskInternalSetTimeOutState os (tasks (kern s))) ticks (tasks (kern s)) →
  wp (timeout_ms = 0) (sys_arch_mbox_fetch os asserts others interrupts fuel OBJ (Some msg) timeout_ms)
    (λ r s', fetched others interrupts patient ticks SYS_ARCH_TIMEOUT s r s' ∧
             (timeout_ms = 0 → r.1 ≠ SYS_ARCH_TIMEOUT)) s ∧
  wp False (sys_arch_mbox_tryfetch os asserts others interrupts fuel OBJ (Some msg))
    (fetched others interrupts patient 0 SYS_MBOX_EMPTY s) s.
Proof.
  intros He Hd Hruns Ht Hf Hw Hs Hfuel ticks Hr. split.
  - by apply (fetch_spec os asserts others interrupts left patient).
  - by apply (tryfetch_spec os asserts others interrupts left patient).
Qed.

(** A mailbox is a queue of pointers. A thread that creates a
    mailbox of [size] messages and then posts and fetches, never more than fits and
    never from an empty mailbox, fetches the pointers it has posted in the order in
    which it has posted them, and those not fetched remain. *)
Theorem mailbox_is_fifo {T K} (os : task_ops T K) asserts others interrupts icsr yield fuel size cs out rest s :
  HeapLaws os → (∀ w, contents (queue (others w)) = contents (queue w)) →
  (∀ k, scheduler_suspended os k = false) → (∀ k, Z.land (icsr k) portVECTACTIVE_MASK = 0) →
  0 < size < 2 ^ 29 → (∀ msg, Post msg ∈ cs → is_u32 msg) → mailbox_spec size [] cs = Some (out, rest) →
  ∃ r s1, sys_mbox_new os asserts others OBJ size s = Done (r, s1) ∧
    (r = ERR_MEM ∧ field s1 = NULL ∨
     r = ERR_OK ∧ ∃ w', run os asserts others interrupts icsr yield (Datatypes.S fuel) cs s1 = Done (out, set_kern w' s1) ∧
       mailbox (queue w') rest).
Proof.
  intros Hheap Hidle Hruns Hthread Hsize Hcs Hspec. unfold sys_mbox_new.
  rewrite given_bind, assert_bind by (apply Z.ltb_lt; lia).
  pose proof (create_spec os asserts others False size 4 (kern s) ltac:(lia) ltac:(lia)) as Hc.
  pose proof (malloc_range (os := os) (sizeof_Queue_t + size * 4) (tasks (kern s))) as Hm.
  destruct (pvPortMalloc os (sizeof_Queue_t + size * 4) (tasks (kern s))) as [a k]. cbn [fst] in Hm. cbv zeta in Hm.
  assert (asserts = true → fits size 4) as Hfits.
  { intros _. split_and!; [lia| |unfold SIZE_MAX, sizeof_Queue_t; lia].
    apply Z.div_le_lower_bound; unfold SIZE_MAX; lia. }
  assert (a ≠ 0 → 0 < a ∧ a + sizeof_Queue_t + size * 4 < 2 ^ 32 ∧ 4 <= a) as Ha by (intros [? ?]%Hm; lia).
  destruct (wp_inv _ _ _ (Hc Ha (heap_bytes_len (a + sizeof_Queue_t) (size * 4) k ltac:(lia)) Hfits)) as (r&w1&E&Hr).
  rewrite (bind_done _ _ _ _ _ (on_done _ s _ _ E)), modify_bind. destruct r.
  - eexists _, _. split; [done|]. by left.
  - destruct Hr as (_&_&_&[HF _]&HL&HS&_). eexists _, _. split; [done|]. right. split; [done|].
    by apply (run_refines os asserts others interrupts icsr yield Hidle Hruns Hthread fuel cs _ [] size).
Qed.

(** Milliseconds are converted in 32 bits. A time-out is the number of
    ticks it names up to 4294967 ms, and never above: 4294968 ms (71.6 minutes) are
    no time at all, so that a fetch from an empty mailbox and a wait for a semaphore
    with this time-out return at once as timed out. *)
Theorem long_timeouts_wrap {T K} (os : task_ops T K) asserts others interrupts fuel msg s :
  field s = OBJ → fifo (queue (kern s)) [] → (∀ k, scheduler_suspended os k = false) →
  (∀ ms, 0 <= ms < 2 ^ 32 → ms_to_ticks ms = ms ↔ ms <= 4294967) ∧
  (uxItemSize (queue (kern s)) = 4 →
   sys_arch_mbox_fetch os asserts others interrupts (Datatypes.S fuel) OBJ msg 4294968 s =
     Done ((SYS_ARCH_TIMEOUT, (λ _, 0) <$> msg), s)) ∧
  (uxItemSize (queue (kern s)) = 0 →
   sys_arch_sem_wait os asserts others interrupts (Datatypes.S fuel) OBJ 4294968 s = Done (SYS_ARCH_TIMEOUT, s)).
Proof.
  intros Hf [F1 _ _ _ _ _] Hruns. split_and!.
  - intros ms Hms. split.
    + intros E. pose proof (ms_to_ticks_range ms). lia.
    + intros Hle. unfold ms_to_ticks, configTICK_RATE_HZ, MS_FACTOR.
      rewrite u32_small by (unfold is_u32; lia). by apply Z.div_mul.
  - intros Hs. unfold sys_arch_mbox_fetch, receive. rewrite given_bind, gets_bind, Hf, given_bind.
    cbv zeta. change (4294968 =? 0) with false. cbv iota. change (ms_to_ticks 4294968) with 0.
    assert (xQueueReceive os asserts others interrupts (Datatypes.S fuel) OBJ (Some (le32 (default 0 msg))) 0 (kern s) =
            Done (errQUEUE_EMPTY, Some (le32 (default 0 msg)), kern s)) as E.
    { unfold xQueueReceive, handle. rewrite gets_bind, configASSERT_true by done.
      rewrite (bind_done _ _ _ _ _ (may_block_eq os asserts 0 (kern s) ltac:(done))). simpl.
      by rewrite gets_bind, F1. }
    unfold mbind at 1, ST_bind at 1. rewrite (bind_done _ _ _ _ _ (on_done _ s _ _ E)). simpl. by destruct s.
  - intros Hs. unfold sys_arch_sem_wait. rewrite given_bind, gets_bind, Hf, given_bind.
    change (4294968 =? 0) with false. cbv iota. change (ms_to_ticks 4294968) with 0.
    assert (xQueueSemaphoreTake os asserts others interrupts (Datatypes.S fuel) OBJ 0 (kern s) =
            Done (errQUEUE_EMPTY, kern s)) as E.
    { unfold xQueueSemaphoreTake, handle. rewrite gets_bind, configASSERT_true by (by rewrite Hs).
      rewrite (bind_done _ _ _ _ _ (may_block_eq os asserts 0 (kern s) ltac:(done))). simpl.
      by rewrite gets_bind, F1. }
    rewrite (bind_done _ _ _ _ _ (on_done _ s _ _ E)). simpl. by destruct s.
Qed.

(** A full mailbox stops the system in an interrupt. There
    [sys_mbox_post], [sys_mbox_post_to_front] and even [sys_mbox_trypost], which
    promises [ERR_MEM], never return when the mailbox is full;
    [sys_mbox_trypost_fromisr] returns [ERR_MEM] and changes nothing. *)
Theorem full_mailbox_stops_interrupt {T K} (os : task_ops T K) asserts others interrupts icsr yield
    attempts fuel woken msg s items :
  in_interrupt icsr s = true → field s = OBJ → fifo (queue (kern s)) items →
  uxItemSize (queue (kern s)) = 4 → len items = uxLength (queue (kern s)) →
  sys_mbox_post os asserts others interrupts icsr yield attempts fuel woken OBJ msg s = Diverge ∧
  sys_mbox_post_to_front os asserts others interrupts icsr attempts fuel woken OBJ msg s = Diverge ∧
  sys_mbox_trypost os asserts others interrupts icsr fuel woken OBJ msg s = Diverge ∧
  sys_mbox_trypost_fromisr os asserts OBJ msg s = Done (ERR_MEM, s).
Proof.
  intros Hi Hf HF Hs Hfull.
  assert (∀ b position, position = queueSEND_TO_BACK ∨ position = queueSEND_TO_FRONT →
    on (xQueueGenericSendFromISR os asserts OBJ (Some (le32 msg)) b position) s = Done ((errQUEUE_FULL, b), s)) as E.
  { intros b position Hpos. rewrite (on_done _ s (errQUEUE_FULL, b) (kern s)); [by destruct s|].
    unfold xQueueGenericSendFromISR, handle. rewrite gets_bind.
    rewrite configASSERT_true by (by eapply item_assert, points_to_le32).
    rewrite configASSERT_true by (by destruct Hpos as [->| ->]).
    destruct HF as [F1 _ _ _ _ _]. rewrite F1, Hfull, Z.ltb_irrefl. by destruct Hpos as [->| ->]. }
  unfold sys_mbox_post, sys_mbox_post_to_front, sys_mbox_trypost, sys_mbox_trypost_fromisr, post_from_isr.
  rewrite !given_bind, !gets_id, !gets_bind, Hi, Hf. simpl. rewrite given_bind.
  unfold mbind, ST_bind. by rewrite !E by auto.
Qed.

(** The core lock nests. A thread that takes the core lock [n] times,
    up to 255, and returns it [n] times has it in between and only then: the check
    of core locking passes after [n] takes and stops the thread after as many
    returns, when the mutex is free again. *)
Theorem core_lock_nests {T K} (os : task_ops T K) asserts others interrupts me n fuel s :
  (∀ w, contents (queue (others w)) = contents (queue w)) → (∀ k, scheduler_suspended os k = false) →
  me ≠ 0 → (∀ k, xTaskGetCurrentTaskHandle os k = me) → (∀ k, (pvTaskIncrementMutexHeldCount os k).1 = me) →
  core_locked me 0 s → lwip_tcpip_thread s ≠ 0 → 0 < Z.of_nat n <= 255 →
  ∃ s1 s2, for_each (replicate n tt) (λ _, sys_lock_tcpip_core os asserts others interrupts (Datatypes.S fuel)) s = Done (tt, s1) ∧
    core_locked me (Z.of_nat n) s1 ∧ sys_check_core_locking os s1 = Done (tt, s1) ∧
    for_each (replicate n tt) (λ _, sys_unlock_tcpip_core os asserts others interrupts (Datatypes.S fuel)) s1 = Done (tt, s2) ∧
    core_locked me 0 s2 ∧ sys_check_core_locking os s2 = Diverge.
Proof.
  intros Hidle Hruns Hme His Hhold Hs Ht Hn.
  destruct (locks os asserts others interrupts Hidle Hruns me Hme His Hhold fuel n 0 s Hs) as (s1&E1&Hs1&Ht1); [lia..|].
  destruct (unlocks os asserts others interrupts Hidle me His fuel n 0 s1 Hs1) as (s2&E2&Hs2&Ht2); [lia..|].
  exists s1, s2. rewrite Z.add_0_l in Hs1.
  rewrite (check_locked os me His (Z.of_nat n) s1 Hs1) by (lia || congruence).
  rewrite (check_locked os me His 0 s2 Hs2) by (lia || congruence).
  rewrite (proj2 (Z.eqb_neq _ _)) by lia. done.
Qed.

(** ** Witnesses *)

Module ArchDemo.
Import QueueDemo.
Definition in_thread (k : clock) : Z := 0.
Definition in_systick (k : clock) : Z := 15.
Definition no_switch (k : clock) : clock := k.

#[export] Instance heap_laws : HeapLaws os.
Proof.
  split.
  - intros n k. simpl. destruct (Z.leb_spec n 0x10000); simpl; lia.
  - intros a n k Hn. unfold len. simpl. rewrite length_replicate. lia.
Qed.

Definition start : arch clock := Arch NULL memory 0 0 9.
(** A mailbox for two messages, empty and full; the mutex of the core lock. *)
Definition state_of (m : ST (arch clock) unit) : arch clock :=
  match m start with Done (_, s) => s | _ => start end.
Definition post (msg : Z) : ST (arch clock) unit := sys_mbox_post os true id id in_thread no_switch 1 1 false OBJ msg.
Definition empty_mailbox : arch clock := state_of (sys_mbox_new os true id OBJ 2;; mret tt).
Definition full_mailbox : arch clock := state_of (sys_mbox_new os true id OBJ 2;; post 0x20001000;; post 0x20002000).
Definition core_lock : arch clock := state_of (sys_mutex_new os true id id 1 OBJ;; mret tt).

Lemma empty_mailbox_fifo : fifo (queue (kern empty_mailbox)) [].
Proof. constructor; [by vm_compute..|by constructor|]. intros _. exists 1. constructor; by vm_compute. Qed.
Lemma full_mailbox_fifo : fifo (queue (kern full_mailbox)) [le32 0x20001000; le32 0x20002000].
Proof.
  constructor; [by vm_compute..|by repeat constructor|]. intros _. exists 1.
  constructor; try by vm_compute. intros [|[|[|i]]] x; by intros [= <-].
Qed.

Lemma drain_makes_room : makes_room drain.
Proof.
  intros w items HF. unfold drain.
  assert (room_for (queue w) (Some (local_array (uxItemSize (queue w))))) as Hp.
  { intros HS. eexists. split; [done|]. unfold local_array, len. rewrite length_replicate. lia. }
  destruct (wp_inv _ _ _ (receive_from_isr_spec os _ None w items HF Hp)) as ([[r p'] b]&w'&->&H).
  simpl. destruct (HF) as [_ F2 F3 _ _ _]. destruct items as [|x rest].
  - destruct H as (_&_&->). exists []. split; [done|]. unfold len. simpl. lia.
  - destruct H as (_&_&HF'&->&_). exists rest. split; [done|]. rewrite len_cons in F2. lia.
Qed.

Lemma fresh_left n k : 0 <= n → left (vTaskInternalSetTimeOutState os k) n k = (2 * Z.to_nat n + if aborted k then 1 else 0)%nat.
Proof. intros. unfold left. simpl. lia. Qed.
End ArchDemo.

Lemma mbox_post_delivers_witness :
  wp (¬ (makes_room QueueDemo.drain ∧ (2 <= 5)%nat))
    (sys_mbox_post QueueDemo.os true QueueDemo.drain id ArchDemo.in_thread ArchDemo.no_switch 5 (Z.to_nat 20003) false OBJ 0x20003000)
    (λ _ s', sent QueueDemo.drain id queueSEND_TO_BACK (le32 0x20003000) (kern ArchDemo.full_mailbox) (kern s'))
    ArchDemo.full_mailbox ∧ makes_room QueueDemo.drain.
Proof.
  split; [|apply ArchDemo.drain_makes_room].
  apply (mbox_post_delivers QueueDemo.os true QueueDemo.drain id ArchDemo.in_thread ArchDemo.no_switch
           QueueDemo.left QueueDemo.patient).
  - apply QueueDemo.environment.
  - apply QueueDemo.deadline.
  - done.
  - intros k. rewrite ArchDemo.fresh_left by lia. destruct (QueueDemo.aborted k); lia.
  - by vm_compute.
  - by vm_compute.
  - eexists. apply ArchDemo.full_mailbox_fifo.
  - by vm_compute.
Defined.

Lemma mbox_fetch_takes_first_witness :
  wp (10 = 0) (sys_arch_mbox_fetch QueueDemo.os true QueueDemo.drain id 23 OBJ (Some 0) 10)
    (λ r s', fetched QueueDemo.drain id QueueDemo.patient 10 SYS_ARCH_TIMEOUT ArchDemo.full_mailbox r s' ∧
             (10 = 0 → r.1 ≠ SYS_ARCH_TIMEOUT)) ArchDemo.full_mailbox.
Proof.
  refine (proj1 (mbox_fetch_takes_first QueueDemo.os true QueueDemo.drain id QueueDemo.left QueueDemo.patient
                   23 0 10 ArchDemo.full_mailbox _ _ _ _ _ _ _ _ _)).
  - apply QueueDemo.environment.
  - apply QueueDemo.deadline.
  - done.
  - lia.
  - by vm_compute.
  - eexists. apply ArchDemo.full_mailbox_fifo.
  - by vm_compute.
  - lia.
  - intros _. split; [lia|intros _]. vm_compute. lia.
Defined.

Lemma mailbox_is_fifo_witness : ∃ r s1, sys_mbox_new QueueDemo.os true id OBJ 2 ArchDemo.start = Done (r, s1) ∧
  (r = ERR_MEM ∧ field s1 = NULL ∨
   r = ERR_OK ∧ ∃ w', run QueueDemo.os true id id ArchDemo.in_thread ArchDemo.no_switch 3
                        [Post 1000; Post 2000; Fetch; Post 3000; Fetch] s1 = Done ([1000; 2000], set_kern w' s1) ∧
     mailbox (queue w') [3000]).
Proof.
  apply (mailbox_is_fifo QueueDemo.os true id id ArchDemo.in_thread ArchDemo.no_switch 2 2).
  - apply ArchDemo.heap_laws.
  - done.
  - done.
  - done.
  - lia.
  - intros msg. rewrite !elem_of_cons, elem_of_nil. unfold is_u32. naive_solver lia.
  - done.
Defined.

Lemma long_timeouts_wrap_witness :
  sys_arch_mbox_fetch QueueDemo.os true QueueDemo.drain id 1 OBJ (Some 5) 4294968 ArchDemo.empty_mailbox =
    Done ((SYS_ARCH_TIMEOUT, Some 0), ArchDemo.empty_mailbox).
Proof.
  refine (proj1 (proj2 (long_timeouts_wrap QueueDemo.os true QueueDemo.drain id 0 (Some 5) ArchDemo.empty_mailbox _ _ _)) _).
  - by vm_compute.
  - apply ArchDemo.empty_mailbox_fifo.
  - done.
  - by vm_compute.
Defined.

Lemma full_mailbox_stops_interrupt_witness :
  sys_mbox_trypost QueueDemo.os true id id ArchDemo.in_systick 9 false OBJ 0x20003000 ArchDemo.full_mailbox = Diverge.
Proof.
  refine (proj1 (proj2 (proj2 (full_mailbox_stops_interrupt QueueDemo.os true id id ArchDemo.in_systick ArchDemo.no_switch
                   9 9 false 0x20003000 ArchDemo.full_mailbox _ _ _ ArchDemo.full_mailbox_fifo _ _)))); by vm_compute.
Defined.

Lemma core_lock_nests_witness : ∃ s1 s2,
  for_each (replicate 3 tt) (λ _, sys_lock_tcpip_core QueueDemo.os true id id 1) ArchDemo.core_lock = Done (tt, s1) ∧
  core_locked 7 3 s1 ∧ sys_check_core_locking QueueDemo.os s1 = Done (tt, s1) ∧
  for_each (replicate 3 tt) (λ _, sys_unlock_tcpip_core QueueDemo.os true id id 1) s1 = Done (tt, s2) ∧
  core_locked 7 0 s2 ∧ sys_check_core_locking QueueDemo.os s2 = Diverge.
Proof.
  apply (core_lock_nests QueueDemo.os true id id 7 3 0 ArchDemo.core_lock); done.
Defined.
