(* ===== verification/RtosStream.v ===== *)
(** * Stream buffers and message buffers of the kernel

    [FreeRTOS/Source/stream_buffer.c]: a ring of bytes between one writer and one
    reader, that needs no lock: the writer alone moves [xHead], the reader alone
    [xTail]. A message buffer puts the length of each message in front of it.

    The state is one buffer and the rest of the kernel, whose notifications, heap and
    clock are a table of operations. [others] is what other tasks and interrupts do
    where a task may be interrupted between two accesses to the shared buffer; a
    function called from an interrupt is not interrupted by the other side. Static
    allocation and the callbacks are configured out. *)

From stdpp Require Import relations.
From S2P Require Import Prelude.
From S2P Require RtosList.
Local Open Scope Z_scope.

(** ** Data *)

Definition pdPASS : Z := 1.
Definition pdFAIL : Z := 0.
Definition sbFLAGS_IS_MESSAGE_BUFFER : Z := 1.
Definition sbFLAGS_IS_STATICALLY_ALLOCATED : Z := 2.
Definition sbFLAGS_IS_BATCHING_BUFFER : Z := 4.
Definition sbBYTES_TO_STORE_MESSAGE_LENGTH : Z := 4.
Definition STREAM_BUFFER_BUFFER_WRITE_VALUE : Z := 0x55.
Abbreviation portMAX_DELAY := RtosList.portMAX_DELAY.

(** [address] is where the structure lies; [pucBuffer] are the bytes of the storage
    area behind it. A task handle is 0 when no one waits. *)
Record StreamBuffer_t := StreamBuffer {
  xTail : Z;
  xHead : Z;
  xLength : Z;
  xTriggerLevelBytes : Z;
  xTaskWaitingToReceive : Z;
  xTaskWaitingToSend : Z;
  pucBuffer : bytes;
  ucFlags : Z;
  uxStreamBufferNumber : Z;
  uxNotificationIndex : Z;
  address : Z;
}.

Definition with_tail x b := StreamBuffer x (xHead b) (xLength b) (xTriggerLevelBytes b) (xTaskWaitingToReceive b)
  (xTaskWaitingToSend b) (pucBuffer b) (ucFlags b) (uxStreamBufferNumber b) (uxNotificationIndex b) (address b).
Definition with_head x b := StreamBuffer (xTail b) x (xLength b) (xTriggerLevelBytes b) (xTaskWaitingToReceive b)
  (xTaskWaitingToSend b) (pucBuffer b) (ucFlags b) (uxStreamBufferNumber b) (uxNotificationIndex b) (address b).
Definition with_receiver x b := StreamBuffer (xTail b) (xHead b) (xLength b) (xTriggerLevelBytes b) x
  (xTaskWaitingToSend b) (pucBuffer b) (ucFlags b) (uxStreamBufferNumber b) (uxNotificationIndex b) (address b).
Definition with_sender x b := StreamBuffer (xTail b) (xHead b) (xLength b) (xTriggerLevelBytes b)
  (xTaskWaitingToReceive b) x (pucBuffer b) (ucFlags b) (uxStreamBufferNumber b) (uxNotificationIndex b) (address b).
Definition with_bytes x b := StreamBuffer (xTail b) (xHead b) (xLength b) (xTriggerLevelBytes b)
  (xTaskWaitingToReceive b) (xTaskWaitingToSend b) x (ucFlags b) (uxStreamBufferNumber b) (uxNotificationIndex b)
  (address b).
Definition with_number x b := StreamBuffer (xTail b) (xHead b) (xLength b) (xTriggerLevelBytes b)
  (xTaskWaitingToReceive b) (xTaskWaitingToSend b) (pucBuffer b) (ucFlags b) x (uxNotificationIndex b) (address b).
Definition with_index x b := StreamBuffer (xTail b) (xHead b) (xLength b) (xTriggerLevelBytes b)
  (xTaskWaitingToReceive b) (xTaskWaitingToSend b) (pucBuffer b) (ucFlags b) (uxStreamBufferNumber b) x (address b).

Definition is_message_buffer (b : StreamBuffer_t) : bool :=
  negb (Z.land (ucFlags b) sbFLAGS_IS_MESSAGE_BUFFER =? 0).
Definition is_batching_buffer (b : StreamBuffer_t) : bool :=
  negb (Z.land (ucFlags b) sbFLAGS_IS_BATCHING_BUFFER =? 0).

(** What the file uses of the rest of the kernel. *)
Record kernel_ops (T K : Type) := KernelOps {
  pvPortMalloc : Z → K → Z * K;
  heap_bytes : Z → Z → K → bytes;
  vPortFree : Z → K → K;
  xTaskNotifyStateClear : K → K;
  xTaskNotify : Z → K → K;
  xTaskNotifyFromISR : Z → option bool → K → option bool * K;
  xTaskNotifyWait : Z → K → K;
  xTaskGetCurrentTaskHandle : K → Z;
  vTaskSetTimeOutState : K → T;
  xTaskCheckForTimeOut : T → Z → K → bool * T * Z * K;
  vTaskSuspendAll : K → K;
  xTaskResumeAll : K → K;
}.
Arguments pvPortMalloc {T K}. Arguments heap_bytes {T K}. Arguments vPortFree {T K}.
Arguments xTaskNotifyStateClear {T K}. Arguments xTaskNotify {T K}. Arguments xTaskNotifyFromISR {T K}.
Arguments xTaskNotifyWait {T K}. Arguments xTaskGetCurrentTaskHandle {T K}. Arguments vTaskSetTimeOutState {T K}.
Arguments xTaskCheckForTimeOut {T K}. Arguments vTaskSuspendAll {T K}. Arguments xTaskResumeAll {T K}.

Record world (K : Type) := World { buffer : StreamBuffer_t; tasks : K }.
Arguments World {K}. Arguments buffer {K}. Arguments tasks {K}.

(** ** Operations *)

Section operations.
Context {T K : Type} (os : kernel_ops T K) (asserts : bool).
Local Abbreviation W := (world K).

Definition upd (f : StreamBuffer_t → StreamBuffer_t) : ST W unit := modify (λ w, World (f (buffer w)) (tasks w)).
Definition call {A} (f : K → A * K) : ST W A := λ w, let '(a, k) := f (tasks w) in Done (a, World (buffer w) k).
Definition run (f : K → K) : ST W unit := modify (λ w, World (buffer w) (f (tasks w))).
Definition configASSERT (b : bool) : ST W unit := if asserts && negb b then lift Fault else mret tt.
Definition handle (xStreamBuffer : ptr) : ST W StreamBuffer_t :=
  match xStreamBuffer with OBJ => gets buffer | NULL => lift Fault end.

(** *** The ring *)

Definition prvBytesInBuffer : ST W Z :=
  b ← gets buffer;
  let xCount := u32 (u32 (xLength b + xHead b) - xTail b) in
  mret (if xLength b <=? xCount then u32 (xCount - xLength b) else xCount).

(** The result is the new head; [xHead] is left as it is. *)
Definition prvWriteBytesToBuffer (pucData : bytes) (xCount xHead : Z) : ST W Z :=
  configASSERT (0 <? xCount);;
  b ← gets buffer;
  let xFirstLength := Z.min (u32 (xLength b - xHead)) xCount in
  configASSERT (u32 (xHead + xFirstLength) <=? xLength b);;
  d ← lift (slice pucData 0 xFirstLength);
  m ← lift (memcpy (pucBuffer b) xHead d);
  upd (with_bytes m);;
  (if xFirstLength <? xCount then
     configASSERT (u32 (xCount - xFirstLength) <=? xLength b);;
     d ← lift (slice pucData xFirstLength (u32 (xCount - xFirstLength)));
     m ← lift (memcpy m 0 d);
     upd (with_bytes m)
   else mret tt);;
  let xHead := u32 (xHead + xCount) in
  mret (if xLength b <=? xHead then u32 (xHead - xLength b) else xHead).

(** The result is the caller's memory and the new tail; [xTail] is left as it is. *)
Definition prvReadBytesFromBuffer (pucData : bytes) (xCount xTail : Z) : ST W (bytes * Z) :=
  configASSERT (negb (xCount =? 0));;
  b ← gets buffer;
  let xFirstLength := Z.min (u32 (xLength b - xTail)) xCount in
  configASSERT (xFirstLength <=? xCount);;
  configASSERT (u32 (xTail + xFirstLength) <=? xLength b);;
  d ← lift (slice (pucBuffer b) xTail xFirstLength);
  pucData ← lift (memcpy pucData 0 d);
  pucData ← (
    if xFirstLength <? xCount then
      d ← lift (slice (pucBuffer b) 0 (u32 (xCount - xFirstLength)));
      lift (memcpy pucData xFirstLength d)
    else mret pucData);
  let xTail := u32 (xTail + xCount) in
  mret (pucData, if xLength b <=? xTail then u32 (xTail - xLength b) else xTail).

(** *** Creation *)

Definition prvInitialiseNewStreamBuffer (pucBuffer : bytes) (xBufferSizeBytes xTriggerLevelBytes ucFlags address : Z) :
    ST W unit :=
  let pucBuffer := if asserts then replicate (Z.to_nat xBufferSizeBytes) STREAM_BUFFER_BUFFER_WRITE_VALUE
                   else pucBuffer in
  upd (λ _, StreamBuffer 0 0 xBufferSizeBytes xTriggerLevelBytes 0 0 pucBuffer ucFlags 0 0 address).


Definition vStreamBufferDelete (xStreamBuffer : ptr) : ST W unit :=
  b ← handle xStreamBuffer;
  if Z.land (ucFlags b) sbFLAGS_IS_STATICALLY_ALLOCATED =? 0 then run (vPortFree os (address b))
  else upd (λ _, StreamBuffer 0 0 0 0 0 0 [] 0 0 0 (address b)).

(** For a task in a critical section, and for an interrupt. *)
Definition xStreamBufferReset (xStreamBuffer : ptr) : ST W Z :=
  b ← handle xStreamBuffer;
  if (xTaskWaitingToReceive b =? 0) && (xTaskWaitingToSend b =? 0) then
    prvInitialiseNewStreamBuffer (pucBuffer b) (xLength b) (xTriggerLevelBytes b) (ucFlags b) (address b);;
    upd (with_number (uxStreamBufferNumber b));;
    mret pdPASS
  else mret pdFAIL.
Definition xStreamBufferResetFromISR (xStreamBuffer : ptr) : ST W Z := xStreamBufferReset xStreamBuffer.


(** *** Queries *)

(** [step]: what happens between two accesses to the shared indices. *)
Fixpoint spaces_loop (step : ST W unit) (fuel : nat) : ST W Z :=
  match fuel with
  | O => diverge
  | S fuel =>
      xOriginalTail ← gets (λ w, xTail (buffer w));
      step;;
      xSpace ← gets (λ w, u32 (xLength (buffer w) + xTail (buffer w)));
      step;;
      xSpace ← gets (λ w, u32 (xSpace - xHead (buffer w)));
      step;;
      tail ← gets (λ w, xTail (buffer w));
      if xOriginalTail =? tail then mret xSpace else spaces_loop step fuel
  end.

Definition xStreamBufferSpacesAvailable (step : ST W unit) (fuel : nat) (xStreamBuffer : ptr) : ST W Z :=
  handle xStreamBuffer;;
  xSpace ← spaces_loop step fuel;
  b ← gets buffer;
  let xSpace := u32 (xSpace - 1) in
  mret (if xLength b <=? xSpace then u32 (xSpace - xLength b) else xSpace).

Definition xStreamBufferBytesAvailable (xStreamBuffer : ptr) : ST W Z :=
  handle xStreamBuffer;; prvBytesInBuffer.

Definition xStreamBufferIsEmpty (xStreamBuffer : ptr) : ST W bool :=
  b ← handle xStreamBuffer; mret (xHead b =? xTail b).

Definition xStreamBufferIsFull (step : ST W unit) (fuel : nat) (xStreamBuffer : ptr) : ST W bool :=
  b ← handle xStreamBuffer;
  let xBytesToStoreMessageLength := if is_message_buffer b then sbBYTES_TO_STORE_MESSAGE_LENGTH else 0 in
  xSpace ← xStreamBufferSpacesAvailable step fuel xStreamBuffer;
  mret (xSpace <=? xBytesToStoreMessageLength).

Definition xStreamBufferNextMessageLengthBytes (xStreamBuffer : ptr) : ST W Z :=
  b ← handle xStreamBuffer;
  if is_message_buffer b then
    xBytesAvailable ← prvBytesInBuffer;
    if sbBYTES_TO_STORE_MESSAGE_LENGTH <? xBytesAvailable then
      '(xTempReturn, _) ← prvReadBytesFromBuffer (local_array 4) sbBYTES_TO_STORE_MESSAGE_LENGTH (xTail b);
      mret (of_le32 xTempReturn)
    else configASSERT (xBytesAvailable =? 0);; mret 0
  else mret 0.

Definition uxStreamBufferGetStreamBufferNotificationIndex (xStreamBuffer : ptr) : ST W Z :=
  b ← handle xStreamBuffer; mret (uxNotificationIndex b).
Definition vStreamBufferSetStreamBufferNotificationIndex (xStreamBuffer : ptr) (index : Z) : ST W unit :=
  b ← handle xStreamBuffer;
  configASSERT (xTaskWaitingToReceive b =? 0);;
  configASSERT (xTaskWaitingToSend b =? 0);;
  configASSERT (index <? 1);;
  upd (with_index index).
Definition uxStreamBufferGetStreamBufferNumber (xStreamBuffer : ptr) : ST W Z :=
  b ← handle xStreamBuffer; mret (uxStreamBufferNumber b).
Definition vStreamBufferSetStreamBufferNumber (xStreamBuffer : ptr) (n : Z) : ST W unit :=
  handle xStreamBuffer;; upd (with_number n).
Definition ucStreamBufferGetStreamBufferType (xStreamBuffer : ptr) : ST W Z :=
  b ← handle xStreamBuffer; mret (Z.land (ucFlags b) sbFLAGS_IS_MESSAGE_BUFFER).

(** *** Waking the other side *)

(** [sbSEND_COMPLETED] and [sbRECEIVE_COMPLETED], and their versions for interrupts,
    which are also functions of their own. *)
Definition prvSEND_COMPLETED : ST W unit :=
  run (vTaskSuspendAll os);;
  b ← gets buffer;
  (if negb (xTaskWaitingToReceive b =? 0) then
     run (xTaskNotify os (xTaskWaitingToReceive b));; upd (with_receiver 0)
   else mret tt);;
  run (xTaskResumeAll os).
Definition prvRECEIVE_COMPLETED : ST W unit :=
  run (vTaskSuspendAll os);;
  b ← gets buffer;
  (if negb (xTaskWaitingToSend b =? 0) then
     run (xTaskNotify os (xTaskWaitingToSend b));; upd (with_sender 0)
   else mret tt);;
  run (xTaskResumeAll os).

Definition xStreamBufferSendCompletedFromISR (xStreamBuffer : ptr) (pxHigherPriorityTaskWoken : option bool) :
    ST W (bool * option bool) :=
  b ← handle xStreamBuffer;
  if negb (xTaskWaitingToReceive b =? 0) then
    woken ← call (xTaskNotifyFromISR os (xTaskWaitingToReceive b) pxHigherPriorityTaskWoken);
    upd (with_receiver 0);;
    mret (true, woken)
  else mret (false, pxHigherPriorityTaskWoken).
Definition xStreamBufferReceiveCompletedFromISR (xStreamBuffer : ptr) (pxHigherPriorityTaskWoken : option bool) :
    ST W (bool * option bool) :=
  b ← handle xStreamBuffer;
  if negb (xTaskWaitingToSend b =? 0) then
    woken ← call (xTaskNotifyFromISR os (xTaskWaitingToSend b) pxHigherPriorityTaskWoken);
    upd (with_sender 0);;
    mret (true, woken)
  else mret (false, pxHigherPriorityTaskWoken).

(** *** Sending *)

Definition prvWriteMessageToBuffer (step : ST W unit) (pvTxData : bytes)
    (xDataLengthBytes xSpace xRequiredSpace : Z) : ST W Z :=
  b ← gets buffer;
  '(xDataLengthBytes, xNextHead) ← (
    if is_message_buffer b then
      if xRequiredSpace <=? xSpace then
        xNextHead ← prvWriteBytesToBuffer (le32 xDataLengthBytes) sbBYTES_TO_STORE_MESSAGE_LENGTH (xHead b);
        mret (xDataLengthBytes, xNextHead)
      else mret (0, xHead b)
    else mret (Z.min xDataLengthBytes xSpace, xHead b));
  step;;
  (if negb (xDataLengthBytes =? 0) then
     xNextHead ← prvWriteBytesToBuffer pvTxData xDataLengthBytes xNextHead;
     step;;
     upd (with_head xNextHead)
   else mret tt);;
  mret xDataLengthBytes.

Section tasks.
Context (others : W → W).
Definition preempted : ST W unit := modify others.

(** The loop of the sender: the space it has seen last. *)
Fixpoint wait_for_space (fuel : nat) (xRequiredSpace : Z) (xTimeOut : T) (xTicksToWait : Z) : ST W Z :=
  match fuel with
  | O => diverge
  | S fuel =>
      xSpace ← xStreamBufferSpacesAvailable (mret tt) 1 OBJ;
      if xSpace <? xRequiredSpace then
        run (xTaskNotifyStateClear os);;
        b ← gets buffer;
        configASSERT (xTaskWaitingToSend b =? 0);;
        me ← gets (λ w, xTaskGetCurrentTaskHandle os (tasks w));
        upd (with_sender me);;
        run (xTaskNotifyWait os xTicksToWait);;
        preempted;;
        upd (with_sender 0);;
        '(expired, xTimeOut, xTicksToWait) ← call (xTaskCheckForTimeOut os xTimeOut xTicksToWait);
        if expired : bool then mret xSpace else wait_for_space fuel xRequiredSpace xTimeOut xTicksToWait
      else mret xSpace
  end.

Definition xStreamBufferSend (fuel : nat) (xStreamBuffer : ptr) (pvTxData : bytes)
    (xDataLengthBytes xTicksToWait : Z) : ST W Z :=
  b ← handle xStreamBuffer;
  let xMaxReportedSpace := u32 (xLength b - 1) in
  '(xRequiredSpace, xTicksToWait) ← (
    if is_message_buffer b then
      let xRequiredSpace := u32 (xDataLengthBytes + sbBYTES_TO_STORE_MESSAGE_LENGTH) in
      configASSERT (xDataLengthBytes <? xRequiredSpace);;
      mret (xRequiredSpace, if xMaxReportedSpace <? xRequiredSpace then 0 else xTicksToWait)
    else mret (Z.min xDataLengthBytes xMaxReportedSpace, xTicksToWait));
  preempted;;
  xSpace ← (
    if negb (xTicksToWait =? 0) then
      xTimeOut ← gets (λ w, vTaskSetTimeOutState os (tasks w));
      wait_for_space fuel xRequiredSpace xTimeOut xTicksToWait
    else mret 0);
  preempted;;
  xSpace ← (if xSpace =? 0 then xStreamBufferSpacesAvailable preempted fuel xStreamBuffer else mret xSpace);
  preempted;;
  xReturn ← prvWriteMessageToBuffer preempted pvTxData xDataLengthBytes xSpace xRequiredSpace;
  preempted;;
  (if 0 <? xReturn then
     n ← prvBytesInBuffer;
     b ← gets buffer;
     if xTriggerLevelBytes b <=? n then prvSEND_COMPLETED;; preempted else mret tt
   else mret tt);;
  mret xReturn.

(** *** Receiving *)

Definition prvReadMessageFromBuffer (step : ST W unit) (pvRxData : bytes) (xBufferLengthBytes xBytesAvailable : Z) :
    ST W (Z * bytes) :=
  b ← gets buffer;
  '(xNextMessageLength, xBytesAvailable, xNextTail) ← (
    if is_message_buffer b then
      '(xTempNextMessageLength, xNextTail) ←
         prvReadBytesFromBuffer (local_array 4) sbBYTES_TO_STORE_MESSAGE_LENGTH (xTail b);
      let xNextMessageLength := of_le32 xTempNextMessageLength in
      let xBytesAvailable := u32 (xBytesAvailable - sbBYTES_TO_STORE_MESSAGE_LENGTH) in
      mret (if xBufferLengthBytes <? xNextMessageLength then 0 else xNextMessageLength, xBytesAvailable, xNextTail)
    else mret (xBufferLengthBytes, xBytesAvailable, xTail b));
  step;;
  let xCount := Z.min xNextMessageLength xBytesAvailable in
  if negb (xCount =? 0) then
    '(pvRxData, xNextTail) ← prvReadBytesFromBuffer pvRxData xCount xNextTail;
    step;;
    upd (with_tail xNextTail);;
    mret (xCount, pvRxData)
  else mret (xCount, pvRxData).

(** The bytes that must be exceeded for the receiver to take something. *)
Definition bytes_to_exceed (b : StreamBuffer_t) : Z :=
  if is_message_buffer b then sbBYTES_TO_STORE_MESSAGE_LENGTH
  else if is_batching_buffer b then xTriggerLevelBytes b else 0.

Definition xStreamBufferReceive (xStreamBuffer : ptr) (pvRxData : bytes) (xBufferLengthBytes xTicksToWait : Z) :
    ST W (Z * bytes) :=
  b ← handle xStreamBuffer;
  let xBytesToStoreMessageLength := bytes_to_exceed b in
  preempted;;
  xBytesAvailable ← (
    if negb (xTicksToWait =? 0) then
      xBytesAvailable ← prvBytesInBuffer;
      if xBytesAvailable <=? xBytesToStoreMessageLength then
        run (xTaskNotifyStateClear os);;
        b ← gets buffer;
        configASSERT (xTaskWaitingToReceive b =? 0);;
        me ← gets (λ w, xTaskGetCurrentTaskHandle os (tasks w));
        upd (with_receiver me);;
        run (xTaskNotifyWait os xTicksToWait);;
        preempted;;
        upd (with_receiver 0);;
        prvBytesInBuffer
      else mret xBytesAvailable
    else prvBytesInBuffer);
  preempted;;
  if xBytesToStoreMessageLength <? xBytesAvailable then
    '(xReceivedLength, pvRxData) ← prvReadMessageFromBuffer preempted pvRxData xBufferLengthBytes xBytesAvailable;
    preempted;;
    (if negb (xReceivedLength =? 0) then prvRECEIVE_COMPLETED;; preempted else mret tt);;
    mret (xReceivedLength, pvRxData)
  else mret (0, pvRxData).
End tasks.

(** *** From an interrupt *)

Definition xStreamBufferSendFromISR (xStreamBuffer : ptr) (pvTxData : bytes) (xDataLengthBytes : Z)
    (pxHigherPriorityTaskWoken : option bool) : ST W (Z * option bool) :=
  b ← handle xStreamBuffer;
  let xRequiredSpace :=
    if is_message_buffer b then u32 (xDataLengthBytes + sbBYTES_TO_STORE_MESSAGE_LENGTH) else xDataLengthBytes in
  xSpace ← xStreamBufferSpacesAvailable (mret tt) 1 xStreamBuffer;
  xReturn ← prvWriteMessageToBuffer (mret tt) pvTxData xDataLengthBytes xSpace xRequiredSpace;
  woken ← (
    if 0 <? xReturn then
      n ← prvBytesInBuffer;
      b ← gets buffer;
      if xTriggerLevelBytes b <=? n then
        '(_, woken) ← xStreamBufferSendCompletedFromISR xStreamBuffer pxHigherPriorityTaskWoken; mret woken
      else mret pxHigherPriorityTaskWoken
    else mret pxHigherPriorityTaskWoken);
  mret (xReturn, woken).

Definition xStreamBufferReceiveFromISR (xStreamBuffer : ptr) (pvRxData : bytes) (xBufferLengthBytes : Z)
    (pxHigherPriorityTaskWoken : option bool) : ST W (Z * bytes * option bool) :=
  b ← handle xStreamBuffer;
  let xBytesToStoreMessageLength := if is_message_buffer b then sbBYTES_TO_STORE_MESSAGE_LENGTH else 0 in
  xBytesAvailable ← prvBytesInBuffer;
  if xBytesToStoreMessageLength <? xBytesAvailable then
    '(xReceivedLength, pvRxData) ← prvReadMessageFromBuffer (mret tt) pvRxData xBufferLengthBytes xBytesAvailable;
    woken ← (
      if negb (xReceivedLength =? 0) then
        '(_, woken) ← xStreamBufferReceiveCompletedFromISR xStreamBuffer pxHigherPriorityTaskWoken; mret woken
      else mret pxHigherPriorityTaskWoken);
    mret (xReceivedLength, pvRxData, woken)
  else mret (0, pvRxData, pxHigherPriorityTaskWoken).
End operations.

(** ** The ring of bytes *)

(** [m] has [len m] bytes and starts again at its beginning. *)
Definition wrap (L x : Z) : Z := if x <? L then x else x - L.
Definition ring_bytes (m : bytes) (pos : Z) (n : nat) : bytes :=
  (λ i, m !!! Z.to_nat (wrap (len m) (pos + Z.of_nat i))) <$> seq 0 n.
Definition ring_write (m : bytes) (pos : Z) (d : bytes) : bytes :=
  imap (λ j x, default x (d !! Z.to_nat (wrap (len m) (Z.of_nat j + len m - pos)))) m.

Ltac wraps :=
  unfold wrap, len in *;
  repeat match goal with
  | |- context [?a <? ?b] =>
      lazymatch a with context [_ <? _] => fail | _ =>
      lazymatch b with context [_ <? _] => fail |  _ => destruct (Z.ltb_spec a b); try lia end end
  end; try lia.
Lemma wrap_range L x : 0 <= x < 2 * L → 0 <= wrap L x < L.
Proof. unfold wrap. case_match; lia. Qed.
Lemma length_ring_bytes m pos n : length (ring_bytes m pos n) = n.
Proof. unfold ring_bytes. by rewrite length_fmap, length_seq. Qed.
Lemma len_ring_write m pos d : len (ring_write m pos d) = len m.
Proof. unfold ring_write, len. by rewrite length_imap. Qed.
Lemma lookup_ring_bytes m pos n i : (i < n)%nat →
  ring_bytes m pos n !! i = Some (m !!! Z.to_nat (wrap (len m) (pos + Z.of_nat i))).
Proof. intros. unfold ring_bytes. rewrite list_lookup_fmap, lookup_seq_lt by done. done. Qed.

Lemma ring_bytes_ext m m' pos n : len m = len m' →
  (∀ i, (i < n)%nat → m !!! Z.to_nat (wrap (len m) (pos + Z.of_nat i)) = m' !!! Z.to_nat (wrap (len m) (pos + Z.of_nat i))) →
  ring_bytes m pos n = ring_bytes m' pos n.
Proof.
  intros HL H. unfold ring_bytes. rewrite <- HL. apply list_fmap_ext. intros i x Hx.
  apply lookup_seq in Hx as [-> Hi]. by apply H.
Qed.

Lemma ring_bytes_app m pos n1 n2 : 0 <= pos < len m → Z.of_nat (n1 + n2) <= len m →
  ring_bytes m pos (n1 + n2) = ring_bytes m pos n1 ++ ring_bytes m (wrap (len m) (pos + Z.of_nat n1)) n2.
Proof.
  intros Hp Hn. unfold ring_bytes. rewrite seq_app, fmap_app. f_equal. rewrite Nat.add_0_l.
  rewrite <- (Nat.add_0_r n1) at 1. rewrite <- fmap_add_seq, <- list_fmap_compose. apply list_fmap_ext.
  intros i x Hx. apply lookup_seq in Hx as [-> Hi]. unfold compose. do 2 f_equal. wraps.
Qed.

Lemma lookup_ring_write m pos d j : (j < length m)%nat →
  ring_write m pos d !!! j = default (m !!! j) (d !! Z.to_nat (wrap (len m) (Z.of_nat j + len m - pos))).
Proof.
  intros Hj. apply list_lookup_total_correct. unfold ring_write. rewrite list_lookup_imap.
  destruct (lookup_lt_is_Some_2 m j Hj) as [x Hx]. rewrite Hx. simpl. by rewrite (list_lookup_total_correct _ _ _ Hx).
Qed.

Lemma ring_bytes_written m pos d : 0 <= pos < len m → len d <= len m →
  ring_bytes (ring_write m pos d) pos (length d) = d.
Proof.
  intros Hp Hd. apply list_eq. intros i. destruct (decide (i < length d)%nat) as [Hi|Hi].
  - rewrite lookup_ring_bytes, len_ring_write by done. unfold len in *.
    rewrite lookup_ring_write by wraps.
    replace (Z.to_nat (wrap _ (Z.of_nat (Z.to_nat _) + _ - _))) with i.
    + destruct (lookup_lt_is_Some_2 d i Hi) as [x ->]. done.
    + wraps.
  - rewrite (proj2 (lookup_ge_None _ _)) by (rewrite length_ring_bytes; lia).
    by rewrite (proj2 (lookup_ge_None _ _)) by lia.
Qed.

Lemma ring_bytes_kept m pos n d : 0 <= pos < len m → Z.of_nat n + len d <= len m →
  ring_bytes (ring_write m (wrap (len m) (pos + Z.of_nat n)) d) pos n = ring_bytes m pos n.
Proof.
  intros Hp Hd. apply ring_bytes_ext; [by rewrite len_ring_write|]. rewrite len_ring_write. intros i Hi. unfold len in *.
  rewrite lookup_ring_write by wraps.
  rewrite (proj2 (lookup_ge_None d _)); [done|]. wraps.
Qed.

(** The two pieces in which the code copies. *)
Lemma lookup_patch (b d : bytes) off j : 0 <= off → off + len d <= len b → (j < length b)%nat →
  patch b off d !!! j = if decide (off <= Z.of_nat j < off + len d) then d !!! (j - Z.to_nat off)%nat else b !!! j.
Proof.
  intros H0 H1 Hj. unfold patch, len in *. rewrite !list_lookup_total_alt. case_decide as Hd.
  - rewrite lookup_app_r by (rewrite length_take; lia). rewrite length_take.
    replace (j - Z.to_nat off `min` length b)%nat with (j - Z.to_nat off)%nat by lia.
    by rewrite lookup_app_l by lia.
  - destruct (decide (Z.of_nat j < off)).
    + rewrite lookup_app_l by (rewrite length_take; lia). by rewrite lookup_take_lt by lia.
    + rewrite lookup_app_r by (rewrite length_take; lia). rewrite length_take.
      rewrite lookup_app_r by lia. rewrite lookup_drop. do 2 f_equal. lia.
Qed.

Lemma lists_eq (l k : bytes) : length l = length k → (∀ j, (j < length l)%nat → l !!! j = k !!! j) → l = k.
Proof.
  intros Hl H. apply list_eq_same_length with (length l); [done..|]. intros i x y Hi Hx Hy.
  specialize (H i Hi). by rewrite (list_lookup_total_correct _ _ _ Hx), (list_lookup_total_correct _ _ _ Hy) in H.
Qed.

Lemma default_in (d : bytes) x y i k : i = k → (k < length d)%nat → default x (d !! i) = default y (d !! k).
Proof. intros -> H. by destruct (lookup_lt_is_Some_2 d k H) as [z ->]. Qed.

Lemma two_writes m pos d : 0 <= pos < len m → len d <= len m →
  let first := Z.min (len m - pos) (len d) in
  let m1 := patch m pos (take (Z.to_nat first) d) in
  (if first <? len d then patch m1 0 (drop (Z.to_nat first) d) else m1) = ring_write m pos d.
Proof.
  intros Hp Hd first m1. assert (first = Z.min (len m - pos) (len d)) as Hfirst by done.
  clearbody first. pose proof (len_nonneg d) as Hd0.
  assert (len (take (Z.to_nat first) d) = first) as Ht by (apply len_take; lia).
  assert (len m1 = len m) as Hm1 by (subst m1; apply len_patch; lia).
  assert (∀ j, (j < length m)%nat →
    ring_write m pos d !!! j =
      if decide (pos <= Z.of_nat j < pos + first) then d !!! (j - Z.to_nat pos)%nat
      else if decide (Z.of_nat j < len d - first) then d !!! (j + Z.to_nat first)%nat else m !!! j) as Hr.
  { intros j Hj. rewrite lookup_ring_write by done. rewrite !list_lookup_total_alt. unfold wrap, len in *.
    repeat case_decide; wraps.
    - apply default_in; lia.
    - apply default_in; lia.
    - by rewrite (proj2 (lookup_ge_None d _)) by lia.
    - by rewrite (proj2 (lookup_ge_None d _)) by lia. }
  assert (∀ j, (j < length m)%nat → m1 !!! j =
    if decide (pos <= Z.of_nat j < pos + first) then d !!! (j - Z.to_nat pos)%nat else m !!! j) as H1.
  { intros j Hj. subst m1. rewrite lookup_patch by lia. rewrite Ht. case_decide; [|done].
    rewrite !list_lookup_total_alt, lookup_take_lt by lia. done. }
  case (Z.ltb_spec first (len d)); intros Hf.
  - assert (len (drop (Z.to_nat first) d) = len d - first) as Hdr by (apply len_drop; lia).
    assert (len (patch m1 0 (drop (Z.to_nat first) d)) = len m) as Hm2 by (rewrite len_patch; lia).
    apply lists_eq; [rewrite ?(length_to_nat_len (ring_write _ _ _)), len_ring_write; unfold len in *; lia|].
    intros j Hj. assert (j < length m)%nat as Hj' by (unfold len in *; lia).
    rewrite lookup_patch by (unfold len in *; lia). rewrite Hr, H1, Hdr by done.
    repeat case_decide; try lia; [|done..].
    rewrite !list_lookup_total_alt, lookup_drop. do 2 f_equal. lia.
  - apply lists_eq; [rewrite ?(length_to_nat_len (ring_write _ _ _)), len_ring_write; unfold len in *; lia|].
    intros j Hj. assert (j < length m)%nat as Hj' by (unfold len in *; lia).
    rewrite Hr, H1 by done. repeat case_decide; try lia; done.
Qed.

Lemma two_reads m pos n : 0 <= pos < len m → Z.of_nat n <= len m →
  let first := Z.min (len m - pos) (Z.of_nat n) in
  take (Z.to_nat first) (drop (Z.to_nat pos) m) ++ take (n - Z.to_nat first) m = ring_bytes m pos n.
Proof.
  intros Hp Hn first. assert (first = Z.min (len m - pos) (Z.of_nat n)) as Hfirst by done. clearbody first.
  unfold len in *.
  apply lists_eq; [rewrite length_ring_bytes, length_app, !length_take, length_drop; lia|].
  intros j Hj. rewrite length_app, !length_take, length_drop in Hj.
  symmetry. apply list_lookup_total_correct. rewrite lookup_ring_bytes by lia.
  f_equal. rewrite !list_lookup_total_alt. f_equal. unfold wrap, len.
  destruct (decide (j < Z.to_nat first)%nat) as [Hlt|Hge].
  - rewrite lookup_app_l by (rewrite length_take, length_drop; lia).
    rewrite lookup_take_lt by lia. rewrite lookup_drop. f_equal; wraps.
  - rewrite lookup_app_r by (rewrite length_take, length_drop; lia). rewrite length_take, length_drop.
    rewrite lookup_take_lt by lia. f_equal; wraps.
Qed.

(** Two writes that follow each other are one. *)
Lemma ring_bytes_split m pos d1 d2 : 0 <= pos < len m → len d1 + len d2 <= len m →
  ring_bytes m pos (length d1) = d1 → ring_bytes m (wrap (len m) (pos + len d1)) (length d2) = d2 →
  ring_bytes m pos (length (d1 ++ d2)) = d1 ++ d2.
Proof. intros Hp Hl H1 H2. rewrite length_app, ring_bytes_app by (unfold len in *; lia). fold (len d1). by rewrite H1, H2. Qed.

Lemma ring_bytes_app_inv m pos d1 d2 : 0 <= pos < len m → len d1 + len d2 <= len m →
  ring_bytes m pos (length (d1 ++ d2)) = d1 ++ d2 →
  ring_bytes m pos (length d1) = d1 ∧ ring_bytes m (wrap (len m) (pos + len d1)) (length d2) = d2.
Proof.
  intros Hp Hl H. rewrite length_app, ring_bytes_app in H by (unfold len in *; lia).
  by apply app_inj_1 in H; [|rewrite length_ring_bytes].
Qed.

(** ** What a stream buffer holds

    [ring b data more]: [data] is what the writer has published and the reader has
    not yet taken; [more] lies behind it, written but not yet published. *)
Record ring (b : StreamBuffer_t) (data more : bytes) : Prop := {
  rg_length : 2 <= xLength b <= 2 ^ 31;
  rg_memory : len (pucBuffer b) = xLength b;
  rg_tail : 0 <= xTail b < xLength b;
  rg_head : xHead b = wrap (xLength b) (xTail b + len data);
  rg_room : len data + len more < xLength b;
  rg_bytes : ring_bytes (pucBuffer b) (xTail b) (length (data ++ more)) = data ++ more;
}.
Definition stream (b : StreamBuffer_t) (data : bytes) : Prop := ring b data [].

Lemma ring_length_nat b data more : ring b data more → 0 <= len data ∧ 0 <= len more.
Proof. unfold len. lia. Qed.

Lemma ring_same b b' data more : ring b data more → xLength b' = xLength b → xTail b' = xTail b →
  xHead b' = xHead b → pucBuffer b' = pucBuffer b → ring b' data more.
Proof. intros [] HL HT HH HM. split; by rewrite ?HL, ?HT, ?HH, ?HM. Qed.

(** The writer writes behind what it has written, and publishes it. *)
Lemma ring_write_more b data more d : ring b data more → len data + len more + len d < xLength b →
  ring (with_bytes (ring_write (pucBuffer b) (wrap (xLength b) (xHead b + len more)) d) b) data (more ++ d).
Proof.
  intros [HL HM HT HH HR HB] Hd. pose proof (len_nonneg data). pose proof (len_nonneg more). pose proof (len_nonneg d).
  assert (wrap (xLength b) (xHead b + len more) = wrap (xLength b) (xTail b + len (data ++ more))) as Hw.
  { rewrite HH, len_app. wraps. }
  split; simpl; try done; [by rewrite len_ring_write|rewrite len_app; lia|].
  rewrite app_assoc. apply ring_bytes_split; rewrite ?len_ring_write, ?HM, ?len_app; try lia.
  - rewrite Hw, <- HM. change (len (data ++ more)) with (Z.of_nat (length (data ++ more))).
    rewrite ring_bytes_kept; [done|lia|]. rewrite HM. unfold len in *. rewrite length_app. lia.
  - rewrite Hw, len_app. apply ring_bytes_written; [|lia]. rewrite HM. apply wrap_range. lia.
Qed.

Lemma ring_publish b data more : ring b data more →
  stream (with_head (wrap (xLength b) (xHead b + len more)) b) (data ++ more).
Proof.
  intros [HL HM HT HH HR HB]. pose proof (len_nonneg data). pose proof (len_nonneg more).
  split; simpl; try done; rewrite ?len_app, ?len_nil; try lia; [|by rewrite app_nil_r].
  rewrite HH. wraps.
Qed.
Lemma ring_stream b data more : ring b data more → stream b data.
Proof.
  intros [HL HM HT HH HR HB]. pose proof (len_nonneg data). pose proof (len_nonneg more).
  split; try done; rewrite ?len_nil; try lia. rewrite app_nil_r.
  eapply (ring_bytes_app_inv _ _ data more); rewrite ?HM; [lia..|done].
Qed.

(** The reader takes [n] bytes. *)
Lemma stream_take b data n : stream b data → 0 <= n <= len data →
  stream (with_tail (wrap (xLength b) (xTail b + n)) b) (drop (Z.to_nat n) data).
Proof.
  intros [HL HM HT HH HR HB] Hn. rewrite len_nil in HR. rewrite app_nil_r in HB.
  assert (len (drop (Z.to_nat n) data) = len data - n) as Hd by by apply len_drop.
  split; simpl; rewrite ?Hd, ?len_nil, ?app_nil_r; try done; try lia.
  - apply wrap_range. lia.
  - rewrite HH. wraps.
  - rewrite <- (take_drop (Z.to_nat n) data) in HB.
    apply ring_bytes_app_inv in HB as [_ HB]; rewrite ?len_take, ?HM in *; [done|lia..].
Qed.
Lemma stream_prefix b data n : stream b data → (n <= length data)%nat →
  ring_bytes (pucBuffer b) (xTail b) n = take n data.
Proof.
  intros [HL HM HT HH HR HB] Hn. rewrite len_nil in HR. rewrite app_nil_r in HB.
  rewrite <- (take_drop n data) in HB.
  assert (len (take n data) + len (drop n data) = len data) as Hs by (unfold len; rewrite length_take, length_drop; lia).
  apply ring_bytes_app_inv in HB as [HB _]; [|lia..]. by rewrite length_take, Nat.min_l in HB by lia.
Qed.
Lemma stream_middle b data n k : stream b data → 0 <= n → n + Z.of_nat k <= len data →
  ring_bytes (pucBuffer b) (wrap (xLength b) (xTail b + n)) k = take k (drop (Z.to_nat n) data).
Proof.
  intros H Hn Hk. apply (stream_take _ _ n) in H; [|lia]. apply (stream_prefix _ _ k) in H; [done|].
  rewrite length_drop. unfold len in *. lia.
Qed.

(** ** What the two sides promise each other

    The reader leaves the writer's index and the bytes alone and takes from the front;
    the writer leaves the reader's index alone and publishes at the end, in a message
    buffer whole messages. Each side wakes the other but never puts it to sleep. *)
Record reader_step (b b' : StreamBuffer_t) : Prop := {
  rs_length : xLength b' = xLength b;
  rs_head : xHead b' = xHead b;
  rs_memory : pucBuffer b' = pucBuffer b;
  rs_flags : ucFlags b' = ucFlags b;
  rs_waiting : xTaskWaitingToSend b = 0 → xTaskWaitingToSend b' = 0;
  rs_data data : stream b data → ∃ k, (k <= length data)%nat ∧ stream b' (drop k data);
}.

Definition frame (m : bytes) : bytes := le32 (len m) ++ m.
Definition messages (data : bytes) : Prop := ∃ ms, data = concat (frame <$> ms) ∧ Forall (λ m, 0 < len m) ms.

Record writer_step (b b' : StreamBuffer_t) : Prop := {
  ws_length : xLength b' = xLength b;
  ws_tail : xTail b' = xTail b;
  ws_flags : ucFlags b' = ucFlags b;
  ws_trigger : xTriggerLevelBytes b' = xTriggerLevelBytes b;
  ws_waiting : xTaskWaitingToReceive b = 0 → xTaskWaitingToReceive b' = 0;
  ws_data data : stream b data →
    ∃ more, stream b' (data ++ more) ∧ (is_message_buffer b = true → messages more);
}.

(** What the reader takes and what the writer publishes is on record: [taken] and
    [published] are the bytes that went through the buffer so far, as the other tasks know
    them; the services of the kernel leave the record alone. *)
Class Reader {K} (others : world K → world K) (taken : K → bytes) : Prop := {
  reader_steps w : reader_step (buffer w) (buffer (others w));
  reader_takes w data k : stream (buffer w) data → (k <= length data)%nat →
    stream (buffer (others w)) (drop k data) → taken (tasks (others w)) = taken (tasks w) ++ take k data;
}.
Class Writer {K} (others : world K → world K) (published : K → bytes) : Prop := {
  writer_steps w : writer_step (buffer w) (buffer (others w));
  writer_publishes w data more : stream (buffer w) data → stream (buffer (others w)) (data ++ more) →
    published (tasks (others w)) = published (tasks w) ++ more;
}.
Class Unrecorded {T K A} (os : kernel_ops T K) (f : K → A) : Prop := {
  unrecorded_clear k : f (xTaskNotifyStateClear os k) = f k;
  unrecorded_notify t k : f (xTaskNotify os t k) = f k;
  unrecorded_wait n k : f (xTaskNotifyWait os n k) = f k;
  unrecorded_time_out t n k : f (xTaskCheckForTimeOut os t n k).2 = f k;
  unrecorded_suspend k : f (vTaskSuspendAll os k) = f k;
  unrecorded_resume k : f (xTaskResumeAll os k) = f k;
}.
Lemma unrecorded_compose {T K A B} (os : kernel_ops T K) (f : K → A) (g : A → B) :
  Unrecorded os f → Unrecorded os (λ k, g (f k)).
Proof. intros [H1 H2 H3 H4 H5 H6]. split; intros; by rewrite ?H1, ?H2, ?H3, ?H4, ?H5, ?H6. Qed.

Lemma ring_reader b b' data more : reader_step b b' → ring b data more →
  ∃ k, (k <= length data)%nat ∧ ring b' (drop k data) more ∧
    xTail b' = wrap (xLength b) (xTail b + Z.of_nat k).
Proof.
  intros [HL' HH' HM' _ _ Hd] HR. destruct (Hd data (ring_stream _ _ _ HR)) as (k & Hk & Hs).
  exists k. split; [done|]. destruct HR as [HL HM HT HH HR HB], Hs as [_ _ HT2 HH2 HR2 _].
  assert (len (drop k data) = len data - Z.of_nat k) as Hl by (apply len_drop_nat; unfold len; lia).
  pose proof (len_nonneg data). pose proof (len_nonneg more).
  assert (xTail b' = wrap (xLength b) (xTail b + Z.of_nat k)) as Ht.
  { rewrite HH', HH, HL', Hl in HH2. rewrite HL' in *. rewrite len_nil in *.
    assert (Z.of_nat k <= len data) by (unfold len; lia). clear -HH2 HT HT2 HR H H0 H1. revert HH2. unfold wrap.
    repeat case_match; lia. }
  split; [|done]. split; rewrite ?HL', ?HM'; try done; [congruence..|lia|].
  rewrite Ht. rewrite <- (take_drop k data), <- app_assoc in HB.
  apply ring_bytes_app_inv in HB as [_ HB]; rewrite ?len_app in *; rewrite ?HM in *; [|lia|].
  - rewrite <- HB at 2. f_equal. unfold len. rewrite length_take. f_equal. f_equal. lia.
  - rewrite Hl. unfold len in *. rewrite length_take. lia.
Qed.

(** ** The operations on the ring *)

Section correctness.
Context {T K : Type} (os : kernel_ops T K) (asserts : bool).
Local Abbreviation W := (world K).
Implicit Types (w : W) (b : StreamBuffer_t) (D : Prop).

Lemma wp_check D (c : bool) (Q : unit → W → Prop) w : c = true → Q tt w → wp D (configASSERT asserts c) Q w.
Proof. intros -> HQ. unfold configASSERT. by rewrite andb_false_r. Qed.
Lemma wp_valid D (Q : StreamBuffer_t → W → Prop) w : Q (buffer w) w → wp D (handle OBJ) Q w.
Proof. done. Qed.
Lemma wp_upd D f (Q : unit → W → Prop) w : Q tt (World (f (buffer w)) (tasks w)) → wp D (upd f) Q w.
Proof. done. Qed.
Lemma wp_run D f (Q : unit → W → Prop) w : Q tt (World (buffer w) (f (tasks w))) → wp D (run f) Q w.
Proof. done. Qed.
Lemma wp_kernel_call D {A} (f : K → A * K) (Q : A → W → Prop) w :
  Q (f (tasks w)).1 (World (buffer w) (f (tasks w)).2) → wp D (call f) Q w.
Proof. unfold wp, call. by destruct (f (tasks w)). Qed.
Local Ltac step :=
  lazymatch goal with
  | |- wp _ (upd _) _ _ => apply wp_upd; cbv beta
  | |- wp _ (run _) _ _ => apply wp_run; cbv beta
  | |- wp _ (call _) _ _ => apply wp_kernel_call; cbv beta
  | |- wp _ (handle OBJ) _ _ => apply wp_valid; cbv beta
  | |- _ => wp_step
  end.
Local Ltac steps := repeat step.

Lemma write_bytes D pvData n pos w (Q : Z → W → Prop) :
  let b := buffer w in
  2 <= xLength b <= 2 ^ 31 → len (pucBuffer b) = xLength b → 0 <= pos < xLength b →
  0 < n <= xLength b → n <= len pvData →
  Q (wrap (xLength b) (pos + n))
    (World (with_bytes (ring_write (pucBuffer b) pos (take (Z.to_nat n) pvData)) b) (tasks w)) →
  wp D (prvWriteBytesToBuffer asserts pvData n pos) Q w.
Proof.
  intros b HL HM Hp Hn Hd HQ. unfold prvWriteBytesToBuffer.
  pose proof (two_writes (pucBuffer b) pos (take (Z.to_nat n) pvData)) as Hw. cbv zeta in Hw.
  assert (len (take (Z.to_nat n) pvData) = n) as Ht by (apply len_take; lia).
  rewrite Ht, HM in Hw. specialize (Hw Hp (proj2 Hn)).
  step. apply wp_check; [lia|]. steps. fold b.
  rewrite (u32_small (xLength b - pos)) by (unfold is_u32; lia).
  set (first := Z.min (xLength b - pos) n) in *. assert (first = Z.min (xLength b - pos) n) as Hf by done.
  clearbody first. rewrite (u32_small (pos + first)), (u32_small (pos + n)) by (unfold is_u32; lia).
  apply wp_check; [lia|]. step.
  eapply wp_lift; [apply slice_Done; lia|]. step. rewrite drop_0.
  assert (len (take (Z.to_nat first) pvData) = first) as Ht1 by (apply len_take; lia).
  eapply wp_lift; [apply memcpy_patch; lia|]. steps. rewrite take_take in Hw.
  replace (Z.to_nat first `min` Z.to_nat n)%nat with (Z.to_nat first) in Hw by lia.
  assert ((if xLength b <=? pos + n then u32 (pos + n - xLength b) else pos + n) = wrap (xLength b) (pos + n)) as Hend.
  { unfold wrap. destruct (Z.leb_spec (xLength b) (pos + n)), (Z.ltb_spec (pos + n) (xLength b)); try lia.
    by rewrite u32_small by (unfold is_u32; lia). }
  destruct (Z.ltb_spec first n) as [Hlt|Hge].
  - rewrite u32_small by (unfold is_u32; lia). step. apply wp_check; [lia|]. step.
    eapply wp_lift; [apply slice_Done; lia|]. step.
    assert (len (take (Z.to_nat (n - first)) (drop (Z.to_nat first) pvData)) = n - first) as Ht2.
    { rewrite len_take; [done|]. rewrite len_drop by lia. lia. }
    eapply wp_lift; [apply memcpy_patch; rewrite ?len_patch; lia|]. steps. rewrite Hend.
    rewrite take_drop_commute in Ht2 |- *.
    replace (Z.to_nat first + Z.to_nat (n - first))%nat with (Z.to_nat n) by lia. rewrite Hw. done.
  - steps. rewrite Hend, Hw. done.
Qed.

Lemma read_bytes D out n pos w (Q : bytes * Z → W → Prop) :
  let b := buffer w in
  2 <= xLength b <= 2 ^ 31 → len (pucBuffer b) = xLength b → 0 <= pos < xLength b →
  0 < n <= xLength b → n <= len out →
  Q (patch out 0 (ring_bytes (pucBuffer b) pos (Z.to_nat n)), wrap (xLength b) (pos + n)) w →
  wp D (prvReadBytesFromBuffer asserts out n pos) Q w.
Proof.
  intros b HL HM Hp Hn Hd HQ. unfold prvReadBytesFromBuffer.
  pose proof (two_reads (pucBuffer b) pos (Z.to_nat n)) as Hr. cbv zeta in Hr.
  rewrite HM, Z2Nat.id in Hr by lia. specialize (Hr Hp (proj2 Hn)).
  step. apply wp_check; [lia|]. steps. fold b.
  rewrite (u32_small (xLength b - pos)) by (unfold is_u32; lia).
  set (first := Z.min (xLength b - pos) n) in *. assert (first = Z.min (xLength b - pos) n) as Hf by done.
  clearbody first. rewrite (u32_small (pos + first)), (u32_small (pos + n)) by (unfold is_u32; lia).
  apply wp_check; [lia|]. step. apply wp_check; [lia|]. step.
  eapply wp_lift; [apply slice_Done; lia|]. step.
  assert (len (take (Z.to_nat first) (drop (Z.to_nat pos) (pucBuffer b))) = first) as Ht1.
  { rewrite len_take; [done|]. rewrite len_drop by lia. lia. }
  eapply wp_lift; [apply memcpy_patch; lia|]. steps.
  assert ((if xLength b <=? pos + n then u32 (pos + n - xLength b) else pos + n) = wrap (xLength b) (pos + n)) as Hend.
  { unfold wrap. destruct (Z.leb_spec (xLength b) (pos + n)), (Z.ltb_spec (pos + n) (xLength b)); try lia.
    by rewrite u32_small by (unfold is_u32; lia). }
  destruct (Z.ltb_spec first n) as [Hlt|Hge].
  - rewrite u32_small by (unfold is_u32; lia). steps.
    eapply wp_lift; [apply slice_Done; lia|]. rewrite drop_0.
    assert (len (take (Z.to_nat (n - first)) (pucBuffer b)) = n - first) as Ht2 by (apply len_take; lia).
    steps. eapply wp_lift; [apply memcpy_patch; rewrite ?len_patch; lia|]. steps. rewrite Hend.
    rewrite patch_patch by lia. replace (Z.to_nat (n - first)) with (Z.to_nat n - Z.to_nat first)%nat by lia.
    by rewrite Hr.
  - steps. rewrite Hend. replace (Z.to_nat n - Z.to_nat first)%nat with 0%nat in Hr by lia.
    rewrite take_0, app_nil_r in Hr. by rewrite Hr.
Qed.

Lemma bytes_available D w data (Q : Z → W → Prop) : stream (buffer w) data →
  Q (len data) w → wp D prvBytesInBuffer Q w.
Proof.
  intros [HL HM HT HH HR _] HQ. unfold prvBytesInBuffer. steps. rewrite HH. pose proof (len_nonneg data).
  rewrite len_nil in HR.
  assert (0 <= wrap (xLength (buffer w)) (xTail (buffer w) + len data) < xLength (buffer w)) as Hwr
    by (apply wrap_range; lia).
  rewrite (u32_small (_ + wrap _ _)), u32_small by (unfold is_u32; revert Hwr; wraps).
  revert HQ. unfold wrap in *. destruct (Z.ltb_spec (xTail (buffer w) + len data) (xLength (buffer w))).
  - intros HQ. rewrite (proj2 (Z.leb_le _ _)) by lia. rewrite u32_small by (unfold is_u32; lia).
    by replace (xLength (buffer w) + _ - _ - _) with (len data) by lia.
  - intros HQ. rewrite (proj2 (Z.leb_gt _ _)) by lia. by replace (xLength (buffer w) + _ - _) with (len data) by lia.
Qed.


(** *** The writer *)

Section writer.
Context (others : W → W) (taken : K → bytes) `{!Reader others taken, !Unrecorded os taken} (t0 : bytes).
#[local] Abbreviation Hreader := (reader_steps (others := others) (taken := taken)).

(** [b0] held [data] and the reader had taken [t0]; since then it may have taken some of
    [data], the writer has put [more] behind it, and has seen at least [s] bytes free. *)
Definition sending (b0 : StreamBuffer_t) (data more : bytes) (s : Z) (w : W) : Prop :=
  ∃ k, (k <= length data)%nat ∧ ring (buffer w) (drop k data) more ∧
    xLength (buffer w) = xLength b0 ∧ ucFlags (buffer w) = ucFlags b0 ∧
    xLength b0 - 1 - len data <= s <= xLength b0 - 1 - len data + Z.of_nat k ∧
    taken (tasks w) = t0 ++ take k data.

(** A step of the reader while the writer holds unpublished bytes. *)
Lemma ring_others data more w : ring (buffer w) data more →
  ∃ k, (k <= length data)%nat ∧ ring (buffer (others w)) (drop k data) more ∧
    xTail (buffer (others w)) = wrap (xLength (buffer w)) (xTail (buffer w) + Z.of_nat k) ∧
    taken (tasks (others w)) = taken (tasks w) ++ take k data.
Proof.
  intros HR. destruct (ring_reader _ _ _ _ (Hreader w) HR) as (k & Hk & HR' & Ht).
  exists k. do 3 (split; [done|]). apply reader_takes; [by eapply ring_stream|done|by eapply ring_stream].
Qed.
Lemma taken_twice data k k' w w' : taken (tasks w) = t0 ++ take k data →
  taken (tasks w') = taken (tasks w) ++ take k' (drop k data) → taken (tasks w') = t0 ++ take (k + k') data.
Proof. intros H ->. by rewrite H, <- app_assoc, take_take_drop. Qed.

Lemma sending_others b0 data more s w : sending b0 data more s w → sending b0 data more s (others w).
Proof.
  intros (k & Hk & HR & HL & HF & Hs & Ht). pose proof (Hreader w) as Hr.
  destruct (ring_others _ _ _ HR) as (k' & Hk' & HR' & _ & Ht'). rewrite length_drop in Hk'.
  exists (k + k')%nat. rewrite <- drop_drop. destruct Hr as [HL' _ _ HF' _ _].
  split; [lia|]. split; [done|]. rewrite HL', HF'. split; [done|]. split; [done|]. split; [lia|].
  by eapply taken_twice.
Qed.

Lemma wp_preempted D Q w : Q tt (others w) → wp D (preempted others) Q w.
Proof. done. Qed.

(** The space computed from one look at the indices. *)
Lemma space_seen b data : stream b data →
  (let xSpace := u32 (u32 (u32 (xLength b + xTail b) - xHead b) - 1) in
   if xLength b <=? xSpace then u32 (xSpace - xLength b) else xSpace) = xLength b - 1 - len data.
Proof.
  intros [HL HM HT HH HR _]. rewrite HH. pose proof (len_nonneg data). rewrite len_nil in HR. cbv zeta.
  assert (0 <= wrap (xLength b) (xTail b + len data) < xLength b) as Hwr by (apply wrap_range; lia).
  rewrite (u32_small (xLength b + xTail b)) by (unfold is_u32; lia).
  revert Hwr. unfold wrap. destruct (Z.ltb_spec (xTail b + len data) (xLength b)); intros Hwr.
  - rewrite !(u32_small (_ - 1)) by (unfold is_u32; rewrite u32_small by (unfold is_u32; lia); lia).
    rewrite u32_small by (unfold is_u32; lia). rewrite (proj2 (Z.leb_gt _ _)) by lia. lia.
  - rewrite !(u32_small (_ - 1)) by (unfold is_u32; rewrite u32_small by (unfold is_u32; lia); lia).
    rewrite (u32_small (_ - (_ - _))) by (unfold is_u32; lia). rewrite (proj2 (Z.leb_le _ _)) by lia.
    rewrite u32_small by (unfold is_u32; lia). lia.
Qed.

Lemma tail_moves L n (t t1 t2 t3 : Z) (k1 k2 k3 : nat) :
  0 <= t < L → Z.of_nat n < L → (k1 <= n)%nat → (k2 <= n - k1)%nat → (k3 <= n - k1 - k2)%nat →
  t1 = wrap L (t + Z.of_nat k1) → t2 = wrap L (t1 + Z.of_nat k2) → t3 = wrap L (t2 + Z.of_nat k3) →
  t = t3 ↔ (k1 + k2 + k3 = 0)%nat.
Proof. intros ?????. unfold wrap. repeat case_match; lia. Qed.

Lemma space_available D fuel b0 data s0 w : (length data < fuel)%nat → sending b0 data [] s0 w →
  wp D (xStreamBufferSpacesAvailable (preempted others) fuel OBJ) (λ s w', sending b0 data [] s w') w.
Proof.
  intros Hf Hw. unfold xStreamBufferSpacesAvailable. step. step. step.
  apply (wp_mono _ (λ xSpace w', ∃ k, (k <= length data)%nat ∧ stream (buffer w') (drop k data) ∧
    xLength (buffer w') = xLength b0 ∧ ucFlags (buffer w') = ucFlags b0 ∧
    xSpace = u32 (u32 (xLength (buffer w') + xTail (buffer w')) - xHead (buffer w')) ∧
    taken (tasks w') = t0 ++ take k data)).
  - destruct Hw as (k & Hk & HR & HL & HF & _ & Htk). assert (length data - k < fuel)%nat as Hf' by lia. clear Hf.
    revert w k Hk HR HL HF Htk Hf'. induction fuel as [|fuel IH]; intros w k Hk HR HL HF Htk Hf; [lia|]. simpl.
    repeat (step || apply wp_preempted).
    set (w1 := others w). set (w2 := others w1). set (w3 := others w2).
    destruct (ring_others _ _ _ HR) as (k1 & Hk1 & HR1 & Ht1 & T1). fold w1 in HR1, Ht1, T1.
    destruct (ring_others _ _ _ HR1) as (k2 & Hk2 & HR2 & Ht2 & T2). fold w2 in HR2, Ht2, T2.
    destruct (ring_others _ _ _ HR2) as (k3 & Hk3 & HR3 & Ht3 & T3). fold w3 in HR3, Ht3, T3.
    rewrite !drop_drop in *. rewrite !length_drop in *.
    rewrite (Nat.add_assoc k k1 k2) in T3.
    pose proof (taken_twice _ _ _ _ _ (taken_twice _ _ _ _ _ (taken_twice _ _ _ _ _ Htk T1) T2) T3) as Hall. clear T1 T2 T3.
    destruct (Hreader w) as [L1 H1 _ F1 _ _], (Hreader w1) as [L2 H2 _ F2 _ _], (Hreader w2) as [L3 H3 _ F3 _ _].
    fold w1 in L1, H1, F1. fold w2 in L2, H2, F2. fold w3 in L3, H3, F3.
    rewrite L2, L1, HL in Ht3. rewrite L1, HL in Ht2. rewrite HL in Ht1.
    pose proof (rg_tail _ _ _ HR) as Htail. rewrite HL in Htail.
    pose proof (rg_room _ _ _ HR) as Hroom. rewrite HL in Hroom. unfold len in Hroom. rewrite length_drop in Hroom.
    assert (xTail (buffer w) = xTail (buffer w3) ↔ (k1 + k2 + k3 = 0)%nat) as Hmoves
      by (apply (tail_moves (xLength b0) (length data - k) _ (xTail (buffer w1)) (xTail (buffer w2))); first [done|lia]).
    destruct (Z.eqb_spec (xTail (buffer w)) (xTail (buffer w3))) as [Heq|Hne].
    + step. assert (k1 = 0 ∧ k2 = 0 ∧ k3 = 0)%nat as (-> & -> & ->) by (apply Hmoves in Heq; lia).
      exists k. rewrite !Nat.add_0_r in *. split; [done|]. split; [done|].
      split; [congruence|]. split; [congruence|]. split; [|done]. rewrite H3, H2. f_equal. f_equal. f_equal. f_equal; [congruence|].
      rewrite <- Heq, Ht1, Z.add_0_r. unfold wrap. case_match; lia.
    + apply (IH w3 (k + (k1 + (k2 + k3)))%nat); [lia|done|congruence..|by rewrite !Nat.add_assoc|].
      destruct (decide (k1 + k2 + k3 = 0)%nat) as [H0|]; [|lia]. destruct Hne. by apply Hmoves.
  - intros s w' (k & Hk & HS & HL & HF & -> & Htk). steps. rewrite (space_seen _ (drop k data)) by done.
    assert (len (drop k data) = len data - Z.of_nat k) as Hl by (apply len_drop_nat; unfold len; lia).
    exists k. rewrite Hl, HL. split; [done|]. split; [done|]. split; [done|]. split; [done|]. split; [|done]. unfold len. lia.
Qed.

Lemma space_available_alone D b0 data s0 w (Q : Z → W → Prop) : sending b0 data [] s0 w →
  (∀ s, sending b0 data [] s w → Q s w) → wp D (xStreamBufferSpacesAvailable (mret tt) 1 OBJ) Q w.
Proof.
  intros (k & Hk & HR & HL & HF & _ & Htk) HQ. unfold xStreamBufferSpacesAvailable. simpl. steps. rewrite Z.eqb_refl. steps.
  rewrite (space_seen _ (drop k data)) by done.
  assert (len (drop k data) = len data - Z.of_nat k) as Hl by (apply len_drop_nat; unfold len; lia).
  apply HQ. exists k. rewrite Hl, HL. split; [done|]. split; [done|]. split; [done|]. split; [done|]. split; [|done]. unfold len. lia.
Qed.

(** What a call that returned [r] has put into the buffer. *)
Definition accepted (b : StreamBuffer_t) (d : bytes) (r : Z) : bytes :=
  if r =? 0 then [] else if is_message_buffer b then frame d else take (Z.to_nat r) d.

(** The buffer held [data] and [d] was put behind it: what is missing at the front is what
    the reader took since, and nothing else. *)
Definition sent (b0 : StreamBuffer_t) (data d : bytes) (w : W) : Prop :=
  ∃ k, (k <= length (data ++ d))%nat ∧ stream (buffer w) (drop k (data ++ d)) ∧
    taken (tasks w) = t0 ++ take k (data ++ d) ∧
    xLength (buffer w) = xLength b0 ∧ ucFlags (buffer w) = ucFlags b0.

Lemma sent_others b0 data d w : sent b0 data d w → sent b0 data d (others w).
Proof.
  intros (k & Hk & HS & Ht & HL & HF). destruct (Hreader w) as [L' _ _ F' _ _].
  destruct (ring_others _ _ _ HS) as (k' & Hk' & HS' & _ & Ht'). rewrite length_drop in Hk'.
  exists (k + k')%nat. rewrite <- drop_drop. split; [lia|]. split; [done|].
  split; [by eapply taken_twice|]. split; congruence.
Qed.

Lemma sending_len b0 data more s w : sending b0 data more s w → 2 <= xLength b0 <= 2 ^ 31 ∧
  len (pucBuffer (buffer w)) = xLength b0 ∧ 0 <= xTail (buffer w) < xLength b0 ∧ 0 <= xHead (buffer w) < xLength b0.
Proof.
  intros (k & Hk & [HL' HM HT HH HR _] & HL & _). rewrite HL in *. split; [done|]. split; [done|]. split; [done|].
  rewrite HH. apply wrap_range. pose proof (len_nonneg (drop k data)). pose proof (len_nonneg more). lia.
Qed.

Lemma write_behind D b0 data more s d n w (Q : unit → W → Prop) :
  sending b0 data more s w → 0 < n <= len d → len more + n <= s →
  (∀ w', sent b0 data (more ++ take (Z.to_nat n) d) w' → Q tt w') →
  wp D (xNextHead ← prvWriteBytesToBuffer asserts d n (wrap (xLength b0) (xHead (buffer w) + len more));
        preempted others;; upd (with_head xNextHead)) Q w.
Proof.
  intros Hs Hn Hroom HQ. destruct (sending_len _ _ _ _ _ Hs) as (HL & HM & HT & HH).
  destruct Hs as (k & Hk & HR & HLw & HF & Hsr & Htk). pose proof (len_nonneg more).
  assert (len (drop k data) = len data - Z.of_nat k) as Hl by (apply len_drop_nat; unfold len; lia).
  assert (len (take (Z.to_nat n) d) = n) as Ht by (apply len_take; lia).
  pose proof (len_nonneg (drop k data)).
  step. apply write_bytes; rewrite ?HLw; try done; [apply wrap_range; lia|lia..|].
  rewrite <- HLw. apply (ring_write_more _ _ _ (take (Z.to_nat n) d)) in HR; [|lia].
  step. apply wp_preempted. step. apply HQ.
  set (w1 := World (with_bytes (ring_write _ _ _) _) _) in *.
  destruct (ring_others _ _ _ (HR : ring (buffer w1) _ _)) as (k' & Hk' & HR' & _ & Htk').
  rewrite length_drop in Hk'. pose proof (taken_twice _ _ _ w _ Htk Htk') as Hall. destruct (Hreader w1) as [L1 H1 _ F1 _ _]. apply ring_publish in HR'.
  exists (k + k')%nat. split; [rewrite length_app; lia|]. simpl. rewrite drop_app_le by lia.
  split; [|simpl in *; split; [by rewrite take_app_le by lia|split; congruence]]. rewrite <- drop_drop. revert HR'.
  rewrite L1, H1, len_app, Ht. subst w1. simpl. rewrite HLw.
  replace (wrap (xLength b0) (wrap (xLength b0) (xHead (buffer w) + len more) + n))
    with (wrap (xLength b0) (xHead (buffer w) + (len more + n))); [done|].
  clear -HH Hsr Hroom Hl H0 Hn H HL. wraps.
Qed.

Lemma sending_sent b0 data more s w : sending b0 data more s w → sent b0 data [] w.
Proof.
  intros (k & Hk & HR & HL & HF & _ & Ht). exists k. rewrite app_nil_r. split; [lia|].
  split; [by eapply ring_stream|done].
Qed.

(** What the caller learns from the result. *)
Definition fair_result (b0 : StreamBuffer_t) (data d : bytes) (r : Z) : Prop :=
  if is_message_buffer b0 then r = len d ∨ (r = 0 ∧ xLength b0 - 1 - len data < len (frame d))
  else Z.min (len d) (xLength b0 - 1 - len data) <= r <= len d.

Lemma write_message D b0 data d s req w : stream b0 data → len d + 4 < 2 ^ 32 →
  (is_message_buffer b0 = true → req = len d + 4) → sending b0 data [] s w →
  wp D (prvWriteMessageToBuffer asserts (preempted others) d (len d) s req)
    (λ r w', sent b0 data (accepted b0 d r) w' ∧ fair_result b0 data d r) w.
Proof.
  intros H0 Hd Hreq Hs. pose proof (rg_room _ _ _ H0) as Hroom. rewrite len_nil in Hroom. pose proof (len_nonneg d).
  pose proof (len_nonneg data). unfold prvWriteMessageToBuffer. step. step.
  destruct (sending_len _ _ _ _ _ Hs) as (HL & HM & HT & HH).
  assert (is_message_buffer (buffer w) = is_message_buffer b0) as ->.
  { destruct Hs as (? & _ & _ & _ & HF & _). unfold is_message_buffer. by rewrite HF. }
  unfold fair_result. assert (len (frame d) = 4 + len d) as Hfr by (unfold frame; by rewrite len_app, len_le32).
  destruct (is_message_buffer b0) eqn:Hmsg.
  - specialize (Hreq eq_refl). subst req. destruct (Z.leb_spec (len d + 4) s) as [Hfit|Hfull].
    + destruct Hs as (k & Hk & HR & HLw & HF & Hsr & Htk). pose proof (len_nonneg (drop k data)).
      assert (len (drop k data) = len data - Z.of_nat k) as Hl by (apply len_drop_nat; unfold len; lia).
      assert (∀ x, 0 <= x < xLength b0 → wrap (xLength b0) (x + len (@nil Z)) = x) as Hw0 by (intros; rewrite len_nil; wraps).
      unfold sbBYTES_TO_STORE_MESSAGE_LENGTH. step. step.
      apply write_bytes; rewrite ?HLw, ?len_le32; try done; [lia..|].
      apply (ring_write_more _ _ _ (le32 (len d))) in HR; [|rewrite len_le32, len_nil; lia].
      rewrite HLw, Hw0 in HR by done. simpl in HR.
      step. step. apply wp_preempted.
      set (w1 := World (with_bytes (ring_write _ _ _) _) _).
      assert (sending b0 data (le32 (len d)) s w1) as Hw1 by (exists k; done).
      pose proof (sending_others _ _ _ _ _ Hw1) as Hw2. pose proof (rs_head _ _ (Hreader w1)) as Hhead.
      simpl in Hhead. destruct (Z.eqb_spec (len d) 0) as [Hz|Hnz]; simpl.
      * steps. split; [|by left]. unfold accepted. rewrite Hz. simpl. by eapply sending_sent.
      * step. change 4 with (len (le32 (len d))). rewrite <- Hhead.
        eapply write_behind; [done|lia|rewrite len_le32; lia|].
        intros w' Hw'. steps. split; [|by left]. unfold accepted. rewrite (proj2 (Z.eqb_neq _ _)), Hmsg by done.
        rewrite take_ge in Hw' by (unfold len; lia). done.
    + steps. apply wp_preempted. simpl. steps. split.
      * unfold accepted. simpl. eapply sending_sent. by apply sending_others.
      * right. split; [done|]. destruct Hs as (k & _ & _ & _ & _ & Hsr & _). lia.
  - steps. apply wp_preempted. pose proof (sending_others _ _ _ _ _ Hs) as Hs1.
    assert (xLength b0 - 1 - len data <= s) as Hsr by (destruct Hs as (k & _ & _ & _ & _ & Hsr & _); lia).
    destruct (Z.eqb_spec (Z.min (len d) s) 0) as [Hz|Hnz]; simpl.
    + rewrite Hz. steps. split; [|lia]. unfold accepted. simpl. by eapply sending_sent.
    + step. pose proof (rs_head _ _ (Hreader w)) as Hhead.
      replace (xHead (buffer w)) with (wrap (xLength b0) (xHead (buffer (others w)) + len (@nil Z)))
        by (rewrite Hhead, len_nil; wraps).
      eapply write_behind; [done|lia|rewrite len_nil; lia|]. intros w' Hw'. simpl in Hw'. steps.
      split; [|lia]. unfold accepted. by rewrite (proj2 (Z.eqb_neq _ _)), Hmsg by done.
Qed.

(** The clock: each round of the wait either ends it or leaves fewer rounds. *)
Definition slept (n : Z) (w : W) : K :=
  tasks (others (World (with_sender (xTaskGetCurrentTaskHandle os (xTaskNotifyStateClear os (tasks w))) (buffer w))
    (xTaskNotifyWait os n (xTaskNotifyStateClear os (tasks w))))).
Class Clock (left : T → Z → K → nat) : Prop := {
  clock_ticks t n w e t' n' k' : n ≠ portMAX_DELAY →
    xTaskCheckForTimeOut os t n (slept n w) = (e, t', n', k') →
    e = true ∨ (n' ≠ portMAX_DELAY ∧ (left t' n' k' < left t n (tasks w))%nat);
}.

Lemma sending_with_sender b0 data more s x k w : sending b0 data more s w → taken k = taken (tasks w) →
  sending b0 data more s (World (with_sender x (buffer w)) k).
Proof.
  intros (i & Hi & HR & HL & HF & Hs & Ht) Hk. exists i. split; [done|]. split; [by eapply ring_same|].
  do 3 (split; [done|]). simpl. by rewrite Hk.
Qed.

Lemma wait_for_space_spec left `{!Clock left} (D : Prop) fuel b0 data req t n s w :
  sending b0 data [] s w → xTaskWaitingToSend (buffer w) = 0 →
  D ∨ (n ≠ portMAX_DELAY ∧ (left t n (tasks w) < fuel)%nat) →
  wp D (wait_for_space os asserts others fuel req t n) (λ s' w', sending b0 data [] s' w') w.
Proof.
  revert t n s w. induction fuel as [|fuel IH]; intros t n s w Hs Hz Hf; simpl.
  { destruct Hf as [HD|[_ Hf]]; [exact HD|lia]. }
  step. eapply space_available_alone; [done|]. clear s Hs. intros s Hs.
  destruct (Z.ltb_spec s req); [|by steps].
  step. step. step. step. step. apply wp_check; [simpl; by rewrite Hz|]. steps. apply wp_preempted. steps.
  match goal with |- context [xTaskCheckForTimeOut os t n (tasks (World ?b ?k))] =>
    change (xTaskCheckForTimeOut os t n (tasks (World b k))) with (xTaskCheckForTimeOut os t n (slept n w)) end.
  simpl. destruct (xTaskCheckForTimeOut os t n (slept n w)) as [[[b t'] n'] k'] eqn:E. simpl.
  set (w1 := others _) in *.
  assert (sending b0 data [] s (World (with_sender 0 (buffer w1)) k')) as Hs'.
  { apply sending_with_sender; [apply sending_others, (sending_with_sender _ _ _ _ _ _ _ Hs)|].
    - by rewrite unrecorded_wait, unrecorded_clear.
    - pose proof (unrecorded_time_out t n (slept n w)) as Hr. by rewrite E in Hr. }
  destruct b; steps; [done|]. eapply IH; [done|done|].
  destruct Hf as [HD|[Hn Hf]]; [by left|right]. destruct (clock_ticks t n w _ _ _ _ Hn E) as [?|[??]]; [done|].
  split; [done|]. simpl. lia.
Qed.

Lemma sent_waking b0 data d w b k : sent b0 data d w → taken k = taken (tasks w) →
  xLength b = xLength (buffer w) → ucFlags b = ucFlags (buffer w) → xTail b = xTail (buffer w) →
  xHead b = xHead (buffer w) → pucBuffer b = pucBuffer (buffer w) → sent b0 data d (World b k).
Proof.
  intros (i & Hi & HS & Ht & HL' & HF') Hk HL HF HT HH HM. exists i. split; [done|]. simpl.
  split; [by eapply ring_same|]. split; [congruence|]. split; congruence.
Qed.

Lemma send_completed D b0 data d w (Q : unit → W → Prop) : sent b0 data d w →
  (∀ w', sent b0 data d w' → Q tt w') → wp D (prvSEND_COMPLETED os) Q w.
Proof.
  intros Hs HQ. unfold prvSEND_COMPLETED. step. step. step. step. step. case_match; steps; apply HQ.
  all: eapply sent_waking; [done|simpl|done..]; by rewrite ?unrecorded_resume, ?unrecorded_notify, ?unrecorded_suspend.
Qed.

Lemma stream_sending b0 w data : buffer w = b0 → stream b0 data → taken (tasks w) = t0 →
  sending b0 data [] (xLength b0 - 1 - len data) w.
Proof.
  intros <- H Ht. exists 0%nat. rewrite drop_0, take_0, app_nil_r. split; [lia|].
  split; [done|]. split; [done|]. split; [done|]. split; [lia|done].
Qed.

Lemma send_spec left `{!Clock left} fuel data d n w :
  stream (buffer w) data → xTaskWaitingToSend (buffer w) = 0 → len d + 4 < 2 ^ 32 → (length data < fuel)%nat →
  (n ≠ portMAX_DELAY → ∀ k, (left (vTaskSetTimeOutState os k) n k < fuel)%nat) → taken (tasks w) = t0 →
  wp (n = portMAX_DELAY) (xStreamBufferSend os asserts others fuel OBJ d (len d) n)
    (λ r w', sent (buffer w) data (accepted (buffer w) d r) w' ∧ fair_result (buffer w) data d r) w.
Proof.
  intros H0 Hz Hd Hfuel Hleft Ht0. set (D := n = portMAX_DELAY). set (b0 := buffer w) in *.
  pose proof (len_nonneg d) as Hd0. unfold xStreamBufferSend. step. step. fold b0.
  assert (∃ req n', (is_message_buffer b0 = true → req = len d + 4) ∧ (n' = n ∨ n' = 0) ∧
    ∀ Q, Q (req, n') w → wp D (if is_message_buffer b0 then
         configASSERT asserts (len d <? u32 (len d + sbBYTES_TO_STORE_MESSAGE_LENGTH));;
         mret (u32 (len d + sbBYTES_TO_STORE_MESSAGE_LENGTH),
           if u32 (xLength b0 - 1) <? u32 (len d + sbBYTES_TO_STORE_MESSAGE_LENGTH) then 0 else n)
       else mret (Z.min (len d) (u32 (xLength b0 - 1)), n)) Q w) as (req & n' & Hreq & Hn' & Hstart).
  { unfold sbBYTES_TO_STORE_MESSAGE_LENGTH. rewrite (u32_small (len d + 4)) by (unfold is_u32; lia).
    destruct (is_message_buffer b0).
    - eexists _, _. split; [intros _; reflexivity|]. split; [|intros Q HQ; step; apply wp_check; [lia|]; steps; exact HQ].
      case_match; auto.
    - eexists _, _. split; [discriminate|]. split; [by left|]. intros Q HQ. steps. exact HQ. }
  step. apply Hstart. clear Hstart. step. apply wp_preempted. step.
  pose proof (sending_others _ _ _ _ _ (stream_sending b0 w data eq_refl H0 Ht0)) as Hs.
  assert (xTaskWaitingToSend (buffer (others w)) = 0) as Hz' by (by apply (rs_waiting _ _ (Hreader w))).
  apply (wp_mono _ (λ s' w', s' = 0 ∧ (∃ s, sending b0 data [] s w') ∨ sending b0 data [] s' w')).
  - destruct (Z.eqb_spec n' 0) as [->|Hne]; simpl.
    + steps. left. eauto.
    + destruct Hn' as [->|?]; [|lia]. step. step. eapply wp_mono.
      * eapply (wait_for_space_spec left); [exact Hs|done|]. destruct (decide (n = portMAX_DELAY)) as [HD|Hn]; [by left|].
        right. split; [done|]. by apply Hleft.
      * intros s' w' Hs'. by right.
  - intros s w1 Hs1. step. apply wp_preempted. step.
    apply (wp_mono _ (λ s' w', sending b0 data [] s' w')).
    + destruct (Z.eqb_spec s 0) as [->|Hne].
      * destruct Hs1 as [[_ [s Hs1]]|Hs1]; eapply space_available; eauto using sending_others.
      * destruct Hs1 as [[? _]|Hs1]; [done|]. steps. by apply sending_others.
    + intros s' w2 Hs2. step. apply wp_preempted. step. eapply wp_mono.
      * eapply write_message; [exact H0|done|exact Hreq|by apply sending_others].
      * intros r w3 [Hsent Hr]. step. apply wp_preempted. step. apply sent_others in Hsent.
        set (w4 := others w3) in *. destruct (Z.ltb_spec 0 r); [|steps; done].
        step. destruct Hsent as (k & Hk & HS & HLF). eapply bytes_available; [done|].
        step. step. assert (sent b0 data (accepted b0 d r) w4) as Hsent by (exists k; done).
        destruct (_ <=? _); [|steps; done]. step. eapply send_completed; [done|]. intros w5 Hw5.
        apply wp_preempted. steps. split; [by apply sent_others|done].
Qed.
End writer.

(** *** The reader *)

Lemma messages_nil : messages [].
Proof. by exists []. Qed.
Lemma messages_app d1 d2 : messages d1 → messages d2 → messages (d1 ++ d2).
Proof.
  intros (m1 & -> & H1) (m2 & -> & H2). exists (m1 ++ m2). by rewrite fmap_app, concat_app, Forall_app.
Qed.
Lemma messages_frame m : 0 < len m → messages (frame m).
Proof. intros. exists [m]. simpl. rewrite app_nil_r. auto. Qed.
Lemma messages_cons d : messages d → d = [] ∨ ∃ m rest, d = frame m ++ rest ∧ 0 < len m ∧ messages rest.
Proof.
  intros ([|m ms] & -> & Hms); [by left|right]. apply Forall_cons in Hms as [Hm Hms].
  exists m, (concat (frame <$> ms)). split; [done|]. split; [done|by exists ms].
Qed.
Lemma len_frame m : len (frame m) = 4 + len m.
Proof. unfold frame. by rewrite len_app, len_le32. Qed.

Section reader.
Context (others : W → W) (Hwriter : ∀ w, writer_step (buffer w) (buffer (others w))).

(** What is known of the bytes published since the call began: [seen h k]. *)
Context (seen : bytes → K → Prop) (Hquiet : ∀ h, Unrecorded os (seen h))
  (Hseen : ∀ w h data more, seen h (tasks w) → stream (buffer w) data → stream (buffer (others w)) (data ++ more) →
    seen (h ++ more) (tasks (others w))).

(** [b0]'s settings, and [data] followed by what the writer has published since. *)
Definition holding (b0 : StreamBuffer_t) (data : bytes) (w : W) : Prop :=
  ∃ more, stream (buffer w) (data ++ more) ∧ (is_message_buffer b0 = true → messages more) ∧
    xLength (buffer w) = xLength b0 ∧ ucFlags (buffer w) = ucFlags b0.

(** The same, when the writer had published [h] before that. *)
Definition held (h : bytes) (b0 : StreamBuffer_t) (data : bytes) (w : W) : Prop :=
  ∃ more, stream (buffer w) (data ++ more) ∧ (is_message_buffer b0 = true → messages more) ∧
    xLength (buffer w) = xLength b0 ∧ ucFlags (buffer w) = ucFlags b0 ∧ seen (h ++ more) (tasks w).
Lemma held_holding h b0 data w : held h b0 data w → holding b0 data w.
Proof. intros (more & ? & ? & ? & ? & _). by exists more. Qed.

Lemma held_others h b0 data w : held h b0 data w → held h b0 data (others w).
Proof.
  intros (more & HS & Hm & HL & HF & Hh). destruct (Hwriter w) as [L' _ F' _ _ Hd].
  destruct (Hd _ HS) as (more' & HS' & Hm'). pose proof (Hseen _ _ _ _ Hh HS HS') as Hh'.
  exists (more ++ more'). rewrite !app_assoc in *. split; [done|].
  split; [|split; [congruence|split; [congruence|done]]]. intros Hb. apply messages_app; [auto|]. apply Hm'. revert Hb.
  unfold is_message_buffer. by rewrite HF.
Qed.
Lemma held_same h b0 data w b k : held h b0 data w → (∀ h', seen h' k = seen h' (tasks w)) →
  xLength b = xLength (buffer w) → ucFlags b = ucFlags (buffer w) → xTail b = xTail (buffer w) →
  xHead b = xHead (buffer w) → pucBuffer b = pucBuffer (buffer w) → held h b0 data (World b k).
Proof.
  intros (more & HS & Hm & HL' & HF' & Hh) Hk HL HF HT HH HM. exists more. simpl. rewrite Hk.
  split; [by eapply ring_same|]. split; [done|]. split; [congruence|]. split; [congruence|done].
Qed.
Lemma receive_completed D h b0 data w (Q : unit → W → Prop) : held h b0 data w →
  (∀ w', held h b0 data w' → Q tt w') → wp D (prvRECEIVE_COMPLETED os) Q w.
Proof.
  intros Hs HQ. unfold prvRECEIVE_COMPLETED. step. step. step. step. step. case_match; steps; apply HQ.
  all: eapply held_same; [done|intros h'; simpl|done..]; by rewrite ?unrecorded_resume, ?unrecorded_notify, ?unrecorded_suspend.
Qed.

(** Reading leaves the buffer as it is; taking moves the tail. *)
Lemma read_held D h b0 data w out n from (Q : bytes * Z → W → Prop) :
  held h b0 data w → 0 <= from → 0 < n → from + n <= len data → n <= len out →
  Q (patch out 0 (take (Z.to_nat n) (drop (Z.to_nat from) data)),
     wrap (xLength b0) (wrap (xLength b0) (xTail (buffer w) + from) + n)) w →
  wp D (prvReadBytesFromBuffer asserts out n (wrap (xLength b0) (xTail (buffer w) + from))) Q w.
Proof.
  intros (more & HS & _ & HL & _ & _) H0 Hn Hd Ho HQ. pose proof HS as [HL' HM HT _ HR _].
  rewrite len_nil, len_app in HR. pose proof (len_nonneg more).
  rewrite HL in *. apply read_bytes; rewrite ?HL; try done; [apply wrap_range; lia|lia|].
  rewrite <- HL. rewrite (stream_middle _ _ _ _ HS) by (rewrite ?len_app; lia).
  rewrite drop_app_le by (unfold len in *; lia). rewrite take_app_le; [by rewrite HL|].
  rewrite length_drop. unfold len in *. lia.
Qed.

Lemma take_held D h b0 data w n x (Q : unit → W → Prop) : held h b0 data w → 0 <= n <= len data →
  x = wrap (xLength b0) (xTail (buffer w) + n) →
  (∀ w', held h b0 (drop (Z.to_nat n) data) w' → Q tt w') →
  wp D (preempted others;; upd (with_tail x)) Q w.
Proof.
  intros Hh Hn -> HQ. step. apply wp_preempted. step. apply HQ.
  pose proof (held_others _ _ _ _ Hh) as (more & HS & Hm & HL & HF & Hse).
  exists more. pose proof (stream_take _ _ n HS) as Ht. rewrite len_app in Ht. pose proof (len_nonneg more).
  specialize (Ht ltac:(lia)). rewrite drop_app_le in Ht by (unfold len in *; lia).
  rewrite (ws_tail _ _ (Hwriter w)), HL in Ht. done.
Qed.

(** What a call has taken from a buffer that held [data] and to which the writer added
    [more] in the meantime: the bytes of the front, ... *)
Definition took_bytes (b0 : StreamBuffer_t) (data out : bytes) (n : Z) (r : Z * bytes) (w : W) : Prop :=
  ∃ more, seen more (tasks w) ∧ 0 <= r.1 <= Z.min n (len (data ++ more)) ∧
    r.2 = patch out 0 (take (Z.to_nat r.1) (data ++ more)) ∧
    stream (buffer w) (drop (Z.to_nat r.1) (data ++ more)) ∧
    xLength (buffer w) = xLength b0 ∧ ucFlags (buffer w) = ucFlags b0 ∧
    (bytes_to_exceed b0 < len data → Z.min n (len data) <= r.1).
(** ... or the first message, if there is one and it fits. *)
Definition took_message (b0 : StreamBuffer_t) (data out : bytes) (n : Z) (r : Z * bytes) (w : W) : Prop :=
  ∃ more, messages more ∧
    ((∃ m rest, data ++ more = frame m ++ rest ∧ r = (len m, patch out 0 m) ∧ 0 < len m <= n ∧ holding b0 rest w) ∨
     r = (0, out) ∧ holding b0 (data ++ more) w ∧
       (data ++ more = [] ∨ ∃ m rest, data ++ more = frame m ++ rest ∧ n < len m)).

Lemma held_tail h b0 data w : held h b0 data w →
  2 <= xLength b0 <= 2 ^ 31 ∧ 0 <= xTail (buffer w) < xLength b0 ∧ len data < xLength b0.
Proof.
  intros (more & [HL' _ HT _ HR _] & _ & HL & _ & _). rewrite HL in *. rewrite len_app, len_nil in HR.
  pose proof (len_nonneg more). lia.
Qed.
Lemma patch_nil (out : bytes) : patch out 0 [] = out.
Proof. done. Qed.

Lemma read_stream D h b0 data out n w : is_message_buffer b0 = false → held h b0 data w → 0 <= n <= len out →
  wp D (prvReadMessageFromBuffer asserts (preempted others) out n (len data))
    (λ r w', let x := Z.min n (len data) in
       r = (x, patch out 0 (take (Z.to_nat x) data)) ∧ held h b0 (drop (Z.to_nat x) data) w') w.
Proof.
  intros Hmsg Hw Hn. cbv zeta. pose proof (len_nonneg data). unfold prvReadMessageFromBuffer. step. step.
  assert (is_message_buffer (buffer w) = false) as ->.
  { rewrite <- Hmsg. destruct Hw as (? & _ & _ & _ & HF & _). unfold is_message_buffer. by rewrite HF. }
  steps. apply wp_preempted. apply held_others in Hw. rewrite <- (ws_tail _ _ (Hwriter w)).
  set (w1 := others w) in *. clearbody w1. destruct (held_tail _ _ _ _ Hw) as (HL & HT & Hl).
  destruct (Z.eqb_spec (Z.min n (len data)) 0) as [->|Hne]; simpl; [by steps|].
  assert (xTail (buffer w1) = wrap (xLength b0) (xTail (buffer w1) + 0)) as Ht by wraps.
  step. rewrite Ht at 1. eapply read_held; [done|lia..|]. rewrite <- Ht, drop_0. step.
  change (wp D ((preempted others;; upd (with_tail (wrap (xLength b0) (xTail (buffer w1) + Z.min n (len data)))));;
    mret (Z.min n (len data), patch out 0 (take (Z.to_nat (Z.min n (len data))) data)))
    (λ r w', r = (Z.min n (len data), patch out 0 (take (Z.to_nat (Z.min n (len data))) data)) ∧
      held h b0 (drop (Z.to_nat (Z.min n (len data))) data) w') w1).
  step. eapply (take_held _ _ _ _ _ (Z.min n (len data))); [done|lia|done|]. intros w2 H2. by steps.
Qed.

Lemma read_message D h b0 m rest out n w : is_message_buffer b0 = true → held h b0 (frame m ++ rest) w →
  0 < len m → 0 <= n <= len out →
  wp D (prvReadMessageFromBuffer asserts (preempted others) out n (len (frame m ++ rest)))
    (λ r w', (r = (len m, patch out 0 m) ∧ len m <= n ∧ held h b0 rest w') ∨
      (r = (0, out) ∧ n < len m ∧ held h b0 (frame m ++ rest) w')) w.
Proof.
  intros Hmsg Hw Hm Hn. pose proof (len_nonneg rest). unfold prvReadMessageFromBuffer. step. step.
  assert (is_message_buffer (buffer w) = true) as ->.
  { rewrite <- Hmsg. destruct Hw as (? & _ & _ & _ & HF & _). unfold is_message_buffer. by rewrite HF. }
  destruct (held_tail _ _ _ _ Hw) as (HL & HT & Hl). rewrite len_app, len_frame in *.
  assert (xTail (buffer w) = wrap (xLength b0) (xTail (buffer w) + 0)) as Ht by wraps.
  unfold sbBYTES_TO_STORE_MESSAGE_LENGTH. step. step. rewrite Ht at 1.
  eapply read_held; [done|lia|lia|rewrite len_app, len_frame; lia|done|]. rewrite <- Ht.
  replace (patch (local_array 4) 0 _) with (le32 (len m) ++ []) by done.
  steps. apply wp_preempted. apply held_others in Hw. rewrite <- (ws_tail _ _ (Hwriter w)).
  set (w1 := others w) in *. clearbody w1. clear HT Ht. destruct (held_tail _ _ _ _ Hw) as (_ & HT & _).
  rewrite of_le32_le32 by (unfold is_u32; lia). rewrite u32_small by (unfold is_u32; lia).
  destruct (Z.ltb_spec n (len m)) as [Hbig|Hfit].
  - rewrite Z.min_l by lia. simpl. steps. by right.
  - rewrite Z.min_l by lia. rewrite (proj2 (Z.eqb_neq _ _)) by lia. simpl. step.
    eapply read_held; [done|lia|lia|rewrite len_app, len_frame; lia|lia|].
    replace (take (Z.to_nat (len m)) (drop (Z.to_nat 4) (frame m ++ rest))) with m.
    2: { change (m = take (Z.to_nat (len m)) (m ++ rest)). by rewrite <- length_to_nat_len, take_app_length. }
    step.
    change (wp D ((preempted others;;
        upd (with_tail (wrap (xLength b0) (wrap (xLength b0) (xTail (buffer w1) + 4) + len m))));;
        mret (len m, patch out 0 m))
      (λ r w', (r = (len m, patch out 0 m) ∧ len m <= n ∧ held h b0 rest w') ∨
        (r = (0, out) ∧ n < len m ∧ held h b0 (frame m ++ rest) w')) w1).
    step. eapply (take_held _ _ _ _ _ (4 + len m)); [done|rewrite len_app, len_frame; lia|clear -HT Hl Hm H; wraps|].
    intros w2 H2. steps. left. split; [done|]. split; [done|].
    rewrite drop_app_ge in H2 by (pose proof (len_frame m); unfold len in *; lia).
    replace (Z.to_nat (4 + len m) - length (frame m))%nat with 0%nat in H2
      by (pose proof (len_frame m); unfold len in *; lia). done.
Qed.

Lemma stream_held h b0 data w : stream (buffer w) data → xLength (buffer w) = xLength b0 →
  ucFlags (buffer w) = ucFlags b0 → seen h (tasks w) → held h b0 data w.
Proof. exists []. rewrite !app_nil_r. split; [done|]. split; [intros _; apply messages_nil|done]. Qed.

(** The call around the reading: [P more r] is what is known of the buffer when [r] has
    been read and [more] was published before that; it only has to say what the buffer holds. *)
Lemma receive_shell D data out n ticks w (P : bytes → Z * bytes → bytes → Prop) :
  stream (buffer w) data → xTaskWaitingToReceive (buffer w) = 0 → seen [] (tasks w) →
  let b0 := buffer w in
  (∀ more w', (is_message_buffer b0 = true → messages more) → held more b0 (data ++ more) w' →
    if bytes_to_exceed b0 <? len (data ++ more) then
      wp D (prvReadMessageFromBuffer asserts (preempted others) out n (len (data ++ more)))
        (λ r w'', ∃ left, P more r left ∧ held more b0 left w'') w'
    else P more (0, out) (data ++ more)) →
  wp D (xStreamBufferReceive os asserts others OBJ out n ticks)
    (λ r w', ∃ more left, P more r left ∧ held more b0 left w') w.
Proof.
  intros HS Hz Hs0 b0 HP. unfold xStreamBufferReceive. step. step. step. apply wp_preempted.
  assert (held [] b0 data w) as Hh by by apply stream_held.
  apply held_others in Hh. pose proof (ws_waiting _ _ (Hwriter w) Hz) as Hz1. set (w1 := others w) in *.
  fold b0. step.
  apply (wp_mono _ (λ avail w', ∃ more, (is_message_buffer b0 = true → messages more) ∧ avail = len (data ++ more) ∧
    held more b0 (data ++ more) w')).
  - assert (∀ w2 (Q : Z → W → Prop), held [] b0 data w2 → (∀ more, (is_message_buffer b0 = true → messages more) →
      held more b0 (data ++ more) w2 → Q (len (data ++ more)) w2) → wp D prvBytesInBuffer Q w2) as Hlook.
    { intros w2 Q (more & HS2 & Hm & HL & HF & Hse) HQ. eapply bytes_available; [done|]. apply HQ; [done|].
      by apply stream_held. }
    destruct (negb (ticks =? 0)); [|apply Hlook; [done|by eauto]].
    step. apply Hlook; [done|]. intros more Hm Hh2. fold b0.
    destruct (len (data ++ more) <=? bytes_to_exceed b0); [|steps; by eauto].
    step. step. step. step. step. apply wp_check; [simpl; by rewrite Hz1|]. steps. apply wp_preempted. steps.
    apply Hlook; [|by eauto]. eapply held_same; [|reflexivity..].
    apply held_others. eapply held_same; [done|intros h'; simpl; by rewrite unrecorded_wait, unrecorded_clear|done..].
  - intros avail w2 (more & Hm & -> & Hh2). step. apply wp_preempted. apply held_others in Hh2.
    specialize (HP more _ Hm Hh2). fold b0. destruct (_ <? _).
    + step. eapply wp_mono; [exact HP|]. intros [r out'] w3 (left & HPl & Hh3). cbv beta iota.
      step. apply wp_preempted. step. apply held_others in Hh3. destruct (negb (r =? 0)); [|steps; by eauto].
      step. eapply receive_completed; [done|]. intros w4 Hh4. apply wp_preempted. steps. exists more, left.
      split; [done|]. by apply held_others.
    + steps. eauto.
Qed.

Lemma receive_bytes_spec data out n ticks w :
  stream (buffer w) data → xTaskWaitingToReceive (buffer w) = 0 → 0 <= n <= len out →
  is_message_buffer (buffer w) = false → seen [] (tasks w) →
  wp False (xStreamBufferReceive os asserts others OBJ out n ticks)
    (λ r w', took_bytes (buffer w) data out n r w') w.
Proof.
  intros HS Hz Hn Hmsg Hs0. set (b0 := buffer w) in *.
  set (P := λ more (r : Z * bytes) left, left = drop (Z.to_nat r.1) (data ++ more) ∧
    r.2 = patch out 0 (take (Z.to_nat r.1) (data ++ more)) ∧ 0 <= r.1 <= Z.min n (len (data ++ more)) ∧
    (bytes_to_exceed b0 < len data → Z.min n (len data) <= r.1)).
  apply (wp_mono _ (λ r w', ∃ more left, P more r left ∧ held more b0 left w')).
  - apply (receive_shell _ data); [done..|].
    fold b0. intros more w' Hm Hh. pose proof (len_nonneg (data ++ more)). pose proof (len_nonneg more).
    destruct (Z.ltb_spec (bytes_to_exceed b0) (len (data ++ more))).
    + eapply wp_mono; [by apply (read_stream _ more b0)|]. intros r w2 [-> Hh2]. eexists. split; [|exact Hh2].
      split; [done|]. simpl. split; [done|]. rewrite len_app in *. lia.
    + split; [done|]. split; [done|]. simpl. split; [lia|]. rewrite len_app in *. lia.
  - intros r w' (more & left & (-> & Hout & Hr & Hlow) & (more' & HS' & _ & HL & HF & Hse)).
    pose proof (len_nonneg more'). exists (more ++ more'). rewrite app_assoc, (len_app (data ++ more)).
    split; [done|]. split; [lia|]. rewrite take_app_le, drop_app_le by (unfold len in *; lia). done.
Qed.

Lemma receive_message_spec data out n ticks w :
  stream (buffer w) data → messages data → xTaskWaitingToReceive (buffer w) = 0 → 0 <= n <= len out →
  is_message_buffer (buffer w) = true → seen [] (tasks w) →
  wp False (xStreamBufferReceive os asserts others OBJ out n ticks)
    (λ r w', took_message (buffer w) data out n r w') w.
Proof.
  intros HS Hdata Hz Hn Hmsg Hs0. set (b0 := buffer w) in *.
  set (P := λ more (r : Z * bytes) left, messages more ∧
    ((∃ m, data ++ more = frame m ++ left ∧ r = (len m, patch out 0 m) ∧ 0 < len m <= n) ∨
     r = (0, out) ∧ left = data ++ more ∧
       (data ++ more = [] ∨ ∃ m rest, data ++ more = frame m ++ rest ∧ n < len m))).
  apply (wp_mono _ (λ r w', ∃ more left, P more r left ∧ held more b0 left w')).
  - apply (receive_shell _ data); [done..|]. fold b0. intros more w' Hm Hh. specialize (Hm Hmsg).
    assert (bytes_to_exceed b0 = 4) as -> by (unfold bytes_to_exceed; by rewrite Hmsg).
    destruct (messages_cons _ (messages_app _ _ Hdata Hm)) as [Hnil|(m & rest & Heq & Hlen & _)].
    + rewrite Hnil in *. simpl. split; [done|]. right. rewrite Hnil. auto.
    + rewrite Heq in *. rewrite (proj2 (Z.ltb_lt _ _)) by (rewrite len_app, len_frame; pose proof (len_nonneg rest); lia).
      eapply wp_mono; [by apply (read_message _ more b0)|].
      intros r w2 [(-> & Hfit & Hh2)|(-> & Hbig & Hh2)].
      * exists rest. split; [|done]. split; [done|]. left. exists m. split; [done|]. split; [done|lia].
      * exists (frame m ++ rest). split; [|done]. split; [done|]. right. split; [done|].
        split; [done|]. right. eauto.
  - intros r w' (more & left & (Hm & HP) & Hh%held_holding). exists more. split; [done|].
    destruct HP as [(m & Heq & Hr & Hl)|(Hr & -> & Hwhy)]; [left|right]; [|done]. exists m, left. done.
Qed.

(** A reader that must see more bytes than the buffer has room for sees none. *)
Lemma receive_nothing data out n ticks w :
  stream (buffer w) data → xTaskWaitingToReceive (buffer w) = 0 →
  xLength (buffer w) - 1 <= bytes_to_exceed (buffer w) → seen [] (tasks w) →
  wp False (xStreamBufferReceive os asserts others OBJ out n ticks) (λ r w', r = (0, out) ∧ holding (buffer w) data w') w.
Proof.
  intros HS Hz Hfull Hs0. set (b0 := buffer w) in *.
  apply (wp_mono _ (λ r w', ∃ more left, (r = (0, out) ∧ (is_message_buffer b0 = true → messages more) ∧
    left = data ++ more) ∧ held more b0 left w')).
  - apply (receive_shell _ data _ _ _ _ (λ more r left, r = (0, out) ∧
      (is_message_buffer b0 = true → messages more) ∧ left = data ++ more)); [done..|].
    fold b0. intros more w' Hm Hh. destruct (held_tail _ _ _ _ Hh) as (_ & _ & Hl).
    rewrite (proj2 (Z.ltb_ge _ _)) by lia. eauto.
  - intros r w' (more & left & (-> & Hm & ->) & (more' & HS' & Hm' & HL & HF & _)). split; [done|].
    exists (more ++ more'). rewrite app_assoc. split; [done|]. split; [|done]. auto using messages_app.
Qed.
End reader.

End correctness.

(** ** Creation *)



Section creation.
Context {T K : Type} (os : kernel_ops T K) (asserts : bool) `{!StreamHeap os}.
Local Abbreviation W := (world K).







End creation.

(** ** Interrupts *)

Section interrupts.
Context {T K : Type} (os : kernel_ops T K) (asserts : bool).
Local Abbreviation W := (world K).

(** Two calls end alike and leave the same buffer. *)
Definition agree {A B} (f : B → A) (x : outcome (A * W)) (y : outcome (B * W)) : Prop :=
  match x, y with
  | Done (a, w1), Done (b, w2) => a = f b ∧ buffer w1 = buffer w2
  | Fault, Fault => True
  | Diverge, Diverge => True
  | _, _ => False
  end.

Lemma agree_bind {A B C} (f : B → A) (m m' : ST W C) (k1 : C → ST W A) (k2 : C → ST W B) w :
  m w = m' w → (∀ c w', agree f (k1 c w') (k2 c w')) → agree f ((m ≫= k1) w) ((m' ≫= k2) w).
Proof. intros Hm H. unfold mbind, ST_bind. rewrite <- Hm. destruct (m w) as [[c w']| |]; [apply H|done..]. Qed.

Lemma write_message_req d n s req req' (w : W) : (is_message_buffer (buffer w) = true → req = req') →
  prvWriteMessageToBuffer asserts (mret tt) d n s req w = prvWriteMessageToBuffer asserts (preempted id) d n s req' w.
Proof.
  intros H. unfold prvWriteMessageToBuffer. rewrite !gets_bind. destruct (is_message_buffer (buffer w)); [|done].
  by rewrite H.
Qed.

Lemma preempted_bind {A} (others : W → W) (k : unit → ST W A) w : (preempted others ≫= k) w = k tt (others w).
Proof. done. Qed.

Lemma space_undisturbed fuel (w : W) :
  xStreamBufferSpacesAvailable (preempted id) (S fuel) OBJ w = xStreamBufferSpacesAvailable (mret tt) 1 OBJ w.
Proof.
  unfold xStreamBufferSpacesAvailable, mbind, ST_bind. simpl. unfold mbind, ST_bind, gets, preempted, modify. simpl.
  by rewrite Z.eqb_refl.
Qed.

Lemma space_alone (w : W) : ∃ s, xStreamBufferSpacesAvailable (mret tt) 1 OBJ w = Done (s, w).
Proof.
  rewrite <- (space_undisturbed 0). unfold xStreamBufferSpacesAvailable, mbind, ST_bind. simpl.
  unfold mbind, ST_bind, gets, preempted, modify. simpl. rewrite Z.eqb_refl. by eexists.
Qed.
Lemma bytes_alone (w : W) : ∃ n, prvBytesInBuffer w = Done (n, w).
Proof. eexists. unfold prvBytesInBuffer. rewrite gets_bind. reflexivity. Qed.

Lemma send_agrees fuel d n woken (w : W) : 0 <= n → n + 4 < 2 ^ 32 →
  agree fst (xStreamBufferSend os asserts id (S fuel) OBJ d n 0 w) (xStreamBufferSendFromISR os asserts OBJ d n woken w).
Proof.
  intros Hn H32. unfold xStreamBufferSend, xStreamBufferSendFromISR, handle. rewrite !gets_bind.
  assert (u32 (n + sbBYTES_TO_STORE_MESSAGE_LENGTH) = n + 4) as ->
    by (apply u32_small; unfold is_u32; lia).
  assert (∃ req, (is_message_buffer (buffer w) = true → req = n + 4) ∧
    (if is_message_buffer (buffer w) then
       configASSERT asserts (n <? n + 4);;
       mret (n + 4, if u32 (xLength (buffer w) - 1) <? n + 4 then 0 else 0)
     else mret (Z.min n (u32 (xLength (buffer w) - 1)), 0)) w = Done ((req, 0), w)) as (req & Hreq & Hstart).
  { destruct (is_message_buffer (buffer w)).
    - exists (n + 4). split; [done|]. unfold configASSERT. rewrite (proj2 (Z.ltb_lt n (n + 4))) by lia.
      rewrite andb_false_r. by destruct (_ <? _).
    - eexists. split; [discriminate|]. done. }
  rewrite (bind_done _ _ _ _ _ Hstart). clear Hstart. cbn beta iota. rewrite preempted_bind. unfold id at 1.
  change (negb (0 =? 0)) with false. cbv iota. rewrite ret_bind, preempted_bind. unfold id at 1.
  change (0 =? 0) with true. cbv iota. change (id (id w)) with w.
  destruct (space_alone w) as [s Hs]. rewrite (bind_done _ _ _ _ _ (eq_trans (space_undisturbed fuel w) Hs)).
  rewrite (bind_done _ _ _ _ _ Hs), preempted_bind. change (id w) with w.
  apply agree_bind; [symmetry; apply write_message_req; intros Hm; rewrite Hm; by rewrite Hreq|].
  intros r w1. rewrite preempted_bind.
  destruct (0 <? r); [|done]. destruct (bytes_alone w1) as [m Hm].
  unfold agree, mbind, ST_bind. rewrite Hm. unfold gets. destruct (_ <=? m); [|done].
  unfold prvSEND_COMPLETED, xStreamBufferSendCompletedFromISR, handle, run, upd, modify, gets, call, mbind, ST_bind.
  simpl. destruct (xTaskWaitingToReceive (buffer w1) =? 0); simpl; [done|].
  by destruct (xTaskNotifyFromISR os _ _ _).
Qed.

Lemma receive_agrees out n woken (w : W) : is_batching_buffer (buffer w) = false →
  agree fst (xStreamBufferReceive os asserts id OBJ out n 0 w)
    (xStreamBufferReceiveFromISR os asserts OBJ out n woken w).
Proof.
  intros Hb. unfold xStreamBufferReceive, xStreamBufferReceiveFromISR, handle, bytes_to_exceed. rewrite !gets_bind, Hb.
  rewrite preempted_bind. change (negb (0 =? 0)) with false. cbv iota. change (id w) with w.
  destruct (bytes_alone w) as [m Hm]. rewrite !(bind_done _ _ _ _ _ Hm), preempted_bind. change (id w) with w.
  destruct (_ <? m); [|done].
  change (prvReadMessageFromBuffer asserts (mret ()) out n m)
    with (prvReadMessageFromBuffer asserts (@preempted K id) out n m).
  apply agree_bind; [done|]. intros [r out'] w1. rewrite preempted_bind.
  destruct (negb (r =? 0)); [|done].
  unfold prvRECEIVE_COMPLETED, xStreamBufferReceiveCompletedFromISR, handle, run, upd, modify, gets, call, mbind, ST_bind.
  unfold agree. simpl. destruct (xTaskWaitingToSend (buffer w1) =? 0); simpl; [done|].
  by destruct (xTaskNotifyFromISR os _ _ _).
Qed.
End interrupts.

(** ** Properties *)


(** C16 (refinement): whatever the reader takes between any two accesses of the writer, a
    task's send appends to what the buffer holds: of the data a prefix as long as the
    call returns, and in a message buffer the length and the whole message, or nothing. No
    byte is lost, repeated or overwritten: with [taken] the record of what the reader got, the
    buffer ends with what it held followed by what was appended, less exactly the bytes
    the reader took during the call. It
    puts at least what there was room for at the start. With a finite block time the
    call returns. *)
Theorem stream_send_appends {T K} (os : kernel_ops T K) asserts (others : world K → world K) (taken : K → bytes)
    (left : T → Z → K → nat) (fuel : nat) data d n (w : world K) :
  Reader others taken → Unrecorded os taken → Clock os others left →
  stream (buffer w) data → xTaskWaitingToSend (buffer w) = 0 → len d + 4 < 2 ^ 32 → (length data < fuel)%nat →
  (n ≠ portMAX_DELAY → ∀ k, (left (vTaskSetTimeOutState os k) n k < fuel)%nat) →
  wp (n = portMAX_DELAY) (xStreamBufferSend os asserts others fuel OBJ d (len d) n)
    (λ r w', sent taken (taken (tasks w)) (buffer w) data (accepted (buffer w) d r) w' ∧
             fair_result (buffer w) data d r) w.
Proof. intros. by apply (send_spec _ _ _ _ _ left). Qed.

(** Nothing to know of the bytes published. *)
Lemma unrecorded_nothing {T K} (os : kernel_ops T K) (h : bytes) : Unrecorded os (λ _ : K, True).
Proof. by split. Qed.

(** C17 (refinement): whatever the writer publishes between any two accesses of the
    reader, a task's receive from a stream buffer returns a prefix of what the buffer
    holds and of what the writer published behind it, in order, and leaves exactly the rest: with
    [published] the record of what the writer put into the buffer, the bytes returned and
    the bytes left are what the buffer held followed by what was published during the call, so
    no byte is lost, repeated or made up. It takes at least what was there, up to the size
    of the caller's memory, when that was more than the level the reader waits for. *)
Theorem stream_receive_takes {T K} (os : kernel_ops T K) asserts (others : world K → world K) (published : K → bytes)
    data out n ticks (w : world K) :
  Writer others published → Unrecorded os published →
  stream (buffer w) data → xTaskWaitingToReceive (buffer w) = 0 → 0 <= n <= len out →
  is_message_buffer (buffer w) = false →
  wp False (xStreamBufferReceive os asserts others OBJ out n ticks)
    (λ r w', took_bytes (λ more k, published k = published (tasks w) ++ more) (buffer w) data out n r w') w.
Proof.
  intros HW HU. intros. apply receive_bytes_spec; try done; [apply writer_steps| | |by rewrite app_nil_r].
  - intros h. apply (unrecorded_compose os published (λ p, p = published (tasks w) ++ h) HU).
  - intros w' h data' more Hh HS HS'. by rewrite (writer_publishes w' data' more), Hh, app_assoc.
Qed.

(** C18 (roundtrip): a receive from a message buffer, whatever messages the writer adds
    meanwhile, returns exactly the bytes of the first message that was sent and takes it
    out, or nothing: when there is none, or when it is longer than the caller's memory, and
    then it stays. *)
Theorem messages_arrive_whole {T K} (os : kernel_ops T K) asserts (others : world K → world K) data out n ticks
    (w : world K) :
  (∀ w, writer_step (buffer w) (buffer (others w))) →
  stream (buffer w) data → messages data → xTaskWaitingToReceive (buffer w) = 0 → 0 <= n <= len out →
  is_message_buffer (buffer w) = true →
  wp False (xStreamBufferReceive os asserts others OBJ out n ticks)
    (λ r w', took_message (buffer w) data out n r w') w.
Proof. intros. by apply (receive_message_spec _ _ _ H (λ _ _, True) (unrecorded_nothing os)). Qed.

(** An interrupt's send gives the same result and leaves the same
    buffer as a task's send that may not wait and is not disturbed, and so does its receive,
    except that a batching buffer makes only the task's receive wait for the trigger level. *)
Theorem interrupt_calls_agree {T K} (os : kernel_ops T K) asserts fuel d n out m woken (w : world K) :
  0 <= n → n + 4 < 2 ^ 32 → is_batching_buffer (buffer w) = false →
  agree fst (xStreamBufferSend os asserts id (S fuel) OBJ d n 0 w)
    (xStreamBufferSendFromISR os asserts OBJ d n woken w) ∧
  agree fst (xStreamBufferReceive os asserts id OBJ out m 0 w)
    (xStreamBufferReceiveFromISR os asserts OBJ out m woken w).
Proof. intros. split; [by apply send_agrees|by apply receive_agrees]. Qed.

(** Creation accepts a batching buffer whose trigger level is its size; from
    such a buffer a task never receives a byte, however full it is and however long the task
    waits. *)
Theorem full_batch_never_received {T K} (os : kernel_ops T K) asserts (others : world K → world K) data out n ticks
    (w : world K) :
  (∀ w, writer_step (buffer w) (buffer (others w))) →
  stream (buffer w) data → xTaskWaitingToReceive (buffer w) = 0 →
  is_batching_buffer (buffer w) = true → is_message_buffer (buffer w) = false →
  xTriggerLevelBytes (buffer w) = xLength (buffer w) - 1 →
  wp False (xStreamBufferReceive os asserts others OBJ out n ticks)
    (λ r w', r = (0, out) ∧ holding (buffer w) data w') w.
Proof.
  intros Hw HS Hz Hb Hm Ht. apply (receive_nothing _ _ _ Hw (λ _ _, True) (unrecorded_nothing os)); [done..| |done]. unfold bytes_to_exceed. rewrite Hm, Hb. lia.
Qed.

(** ** A concrete buffer *)

Module StreamDemo.
(** The clock counts the waits, and the other side keeps a record; the heap gives every block
    at 1000. *)
Definition os : kernel_ops Z (Z * bytes) := {|
  pvPortMalloc n k := (1000, k);
  heap_bytes a n k := replicate (Z.to_nat n) 0;
  vPortFree a k := k;
  xTaskNotifyStateClear k := k;
  xTaskNotify t k := k;
  xTaskNotifyFromISR t woken k := (Some true, k);
  xTaskNotifyWait n k := (k.1 + 1, k.2);
  xTaskGetCurrentTaskHandle k := 7;
  vTaskSetTimeOutState k := k.1;
  xTaskCheckForTimeOut t n k :=
    if n =? portMAX_DELAY then (false, t, n, k)
    else if (t <? k.1) && (k.1 - t <? n) && (n <? portMAX_DELAY) then (false, k.1, n - (k.1 - t), k) else (true, k.1, 0, k);
  vTaskSuspendAll k := k;
  xTaskResumeAll k := k;
|}.
Definition rounds (t n : Z) (k : Z * bytes) : nat := Z.to_nat (t + n - k.1).


#[export] Instance unrecorded : Unrecorded os snd.
Proof. split; try done. intros t n k. simpl. by repeat case_match. Qed.

(** A reader that takes a byte whenever there is one, and a writer that adds one whenever
    there is room; each writes it down. *)
Definition reads (w : world (Z * bytes)) : world (Z * bytes) :=
  let b := buffer w in
  if (xHead b =? xTail b) || negb ((0 <=? xTail b) && (xTail b <? xLength b)) then w
  else World (with_sender 0 (with_tail (wrap (xLength b) (xTail b + 1)) b))
         ((tasks w).1, (tasks w).2 ++ ring_bytes (pucBuffer b) (xTail b) 1).
Definition writes (w : world (Z * bytes)) : world (Z * bytes) :=
  let b := buffer w in
  if is_message_buffer b || (wrap (xLength b) (xHead b + 1) =? xTail b) then w
  else World (with_head (wrap (xLength b) (xHead b + 1)) (with_bytes (ring_write (pucBuffer b) (xHead b) [65]) b))
         ((tasks w).1, (tasks w).2 ++ [65]).

(** What a buffer holds is determined by it. *)
Lemma stream_unique b data data' : stream b data → stream b data' → data = data'.
Proof.
  intros H H'. pose proof (rg_head _ _ _ H) as E. rewrite (rg_head _ _ _ H') in E.
  destruct H as [HL HM HT _ HR HB], H' as [_ _ _ _ HR' HB']. rewrite len_nil, app_nil_r in *.
  pose proof (len_nonneg data). pose proof (len_nonneg data').
  assert (length data' = length data) as El by (unfold len in *; revert E; unfold wrap; repeat case_match; lia).
  rewrite <- HB, <- HB'. by rewrite El.
Qed.

Lemma reads_step w : reader_step (buffer w) (buffer (reads w)).
Proof.
  unfold reads. destruct (_ || _) eqn:E; [|split; try done].
  - split; try done. intros data H. exists 0%nat. split; [lia|]. by rewrite drop_0.
  - intros data H. apply orb_false_iff in E as [E%Z.eqb_neq _]. exists 1%nat.
    assert (1 <= length data)%nat.
    { destruct data; [|simpl; lia]. destruct E. rewrite (rg_head _ _ _ H). destruct (rg_tail _ _ _ H). rewrite len_nil.
      wraps. }
    split; [done|]. apply (stream_take _ _ 1) in H; [|unfold len; lia]. by eapply ring_same.
Qed.
#[export] Instance reader : Reader reads snd.
Proof.
  split; [exact reads_step|]. intros w data k H Hk H'.
  assert (∀ n, stream (buffer (reads w)) (drop n data) → (n <= length data)%nat → k = n) as Huniq.
  { intros n Hn Hln. pose proof (stream_unique _ _ _ H' Hn) as E. apply (f_equal length) in E.
    rewrite !length_drop in E. lia. }
  revert H' Huniq. unfold reads. destruct (_ || _) eqn:E; intros H' Huniq.
  { rewrite (Huniq 0%nat); [by rewrite app_nil_r|by rewrite drop_0|lia]. }
  apply orb_false_iff in E as [E%Z.eqb_neq _].
  destruct data as [|x data].
  { destruct E. rewrite (rg_head _ _ _ H). pose proof (rg_tail _ _ _ H). rewrite len_nil. wraps. }
  assert (1 <= len (x :: data)) by (rewrite len_cons; pose proof (len_nonneg data); lia).
  pose proof (stream_take _ _ 1 H ltac:(lia)) as H1.
  rewrite (Huniq 1%nat); [|by eapply ring_same|simpl; lia]. cbn [tasks snd]. f_equal.
  apply (stream_prefix _ _ 1 H). simpl. lia.
Qed.

Lemma writes_step w : writer_step (buffer w) (buffer (writes w)) ∧
  ∀ data, stream (buffer w) data → stream (buffer (writes w)) (data ++ drop (length (tasks w).2) (tasks (writes w)).2).
Proof.
  unfold writes. destruct (_ || _) eqn:E.
  - split; [|intros data H; by rewrite drop_all, app_nil_r].
    split; try done. intros data H. exists []. rewrite app_nil_r. split; [done|]. intros _. apply messages_nil.
  - apply orb_false_iff in E as [Hm E%Z.eqb_neq].
    assert (∀ data, stream (buffer w) data → stream (with_head (wrap (xLength (buffer w)) (xHead (buffer w) + 1))
      (with_bytes (ring_write (pucBuffer (buffer w)) (xHead (buffer w)) [65]) (buffer w))) (data ++ [65])) as Hadd.
    { intros data H. pose proof H as [HL HM HT HH HR _]. rewrite len_nil in HR. pose proof (len_nonneg data).
      apply (ring_write_more _ _ _ [65]) in H; [|rewrite len_nil; change (len [65]) with 1].
      + apply ring_publish in H. simpl in H. rewrite len_nil in H.
        replace (wrap (xLength (buffer w)) (xHead (buffer w) + 0)) with (xHead (buffer w)) in H; [done|].
        rewrite HH. wraps.
      + destruct (decide (len data + 1 = xLength (buffer w))); [|lia]. destruct E. rewrite HH. wraps. }
    split; [|intros data H; cbn [tasks snd]; rewrite drop_app_length; by apply Hadd].
    split; try done. intros data H. exists [65]. split; [by apply Hadd|by rewrite Hm].
Qed.
#[export] Instance writer : Writer writes snd.
Proof.
  split; [intros w; apply writes_step|]. intros w data more H H'.
  pose proof (stream_unique _ _ _ H' (proj2 (writes_step w) data H)) as E%app_inv_head. subst more.
  unfold writes. destruct (_ || _); cbn [tasks snd]; [by rewrite drop_all, app_nil_r|by rewrite drop_app_length].
Qed.

#[export] Instance clock : Clock os reads rounds.
Proof.
  split. intros t n w e t' n' k' Hn. unfold slept, rounds, reads. simpl.
  rewrite (proj2 (Z.eqb_neq _ _)) by done.
  destruct (_ && _ && _) eqn:E; intros ?; simplify_eq; [|by left]. right.
  apply andb_true_iff in E as [[E1%Z.ltb_lt E2%Z.ltb_lt]%andb_true_iff E3%Z.ltb_lt].
  revert E1 E2. case_match; simpl; intros; split; lia.
Qed.

(** Eight bytes of storage, four of them in use, over the end of the ring. *)
Definition bytes4 : bytes := [1; 2; 3; 4].
Definition full (flags trigger : Z) : world (Z * bytes) :=
  World (StreamBuffer 6 2 8 trigger 0 0 [3; 4; 0; 0; 0; 0; 1; 2] flags 0 0 1000) (0, []).
Lemma full_stream flags trigger : stream (buffer (full flags trigger)) bytes4.
Proof. split; by_compute. Qed.
(** Thirty-two bytes with one message. *)
Definition mail : world (Z * bytes) :=
  World (StreamBuffer 0 6 32 1 0 0 ([2; 0; 0; 0; 11; 22] ++ replicate 26 0) sbFLAGS_IS_MESSAGE_BUFFER 0 0 1000) (0, []).
Lemma mail_stream : stream (buffer mail) (frame [11; 22]).
Proof. split; by_compute. Qed.
End StreamDemo.


Lemma stream_send_appends_witness :
  wp (20 = portMAX_DELAY) (xStreamBufferSend StreamDemo.os true StreamDemo.reads 21 OBJ [5; 6; 7; 8; 9] 5 20)
    (λ r w', sent snd [] (buffer (StreamDemo.full 0 2)) StreamDemo.bytes4 (take (Z.to_nat r) [5; 6; 7; 8; 9]) w' ∧ 3 <= r <= 5)
    (StreamDemo.full 0 2) ∧
  ∃ w', xStreamBufferSend StreamDemo.os true StreamDemo.reads 21 OBJ [5; 6; 7; 8; 9] 5 20 (StreamDemo.full 0 2) =
    Done (5, w') ∧ tasks w' = (1, [1; 2; 3; 4; 5; 6]).
Proof.
  split; [|eexists; split; vm_compute; reflexivity].
  eapply wp_mono; [apply (stream_send_appends StreamDemo.os true StreamDemo.reads snd StreamDemo.rounds 21 StreamDemo.bytes4)|].
  - apply StreamDemo.reader.
  - apply StreamDemo.unrecorded.
  - apply StreamDemo.clock.
  - apply StreamDemo.full_stream.
  - done.
  - done.
  - simpl. lia.
  - intros _ k. unfold StreamDemo.rounds. simpl. lia.
  - intros r w' [Hs Hr]. split; [|exact Hr]. revert Hs. unfold accepted. simpl.
    destruct (Z.eqb_spec r 0) as [->|]; done.
Defined.

Lemma stream_receive_takes_witness :
  wp False (xStreamBufferReceive StreamDemo.os true StreamDemo.writes OBJ (local_array 3) 3 5)
    (λ r w', took_bytes (λ more k, k.2 = more) (buffer (StreamDemo.full 0 2)) StreamDemo.bytes4 (local_array 3) 3 r w')
    (StreamDemo.full 0 2).
Proof.
  apply (stream_receive_takes StreamDemo.os true StreamDemo.writes snd);
    [apply StreamDemo.writer|apply StreamDemo.unrecorded|apply StreamDemo.full_stream|done|done|done].
Defined.

Lemma messages_arrive_whole_witness :
  wp False (xStreamBufferReceive StreamDemo.os true StreamDemo.writes OBJ (local_array 8) 8 5)
    (λ r w', took_message (buffer StreamDemo.mail) (frame [11; 22]) (local_array 8) 8 r w') StreamDemo.mail ∧
  (fst <$> match xStreamBufferReceive StreamDemo.os true StreamDemo.writes OBJ (local_array 8) 8 5 StreamDemo.mail with
           | Done a => Some a | _ => None end) = Some (2, [11; 22; 0; 0; 0; 0; 0; 0]).
Proof.
  split; [|reflexivity].
  apply messages_arrive_whole; [intros w; apply StreamDemo.writes_step|apply StreamDemo.mail_stream| |done|done|done].
  by apply messages_frame.
Defined.

Lemma interrupt_calls_agree_witness :
  agree fst (xStreamBufferSend StreamDemo.os true id 1 OBJ [5; 6] 2 0 (StreamDemo.full 0 2))
    (xStreamBufferSendFromISR StreamDemo.os true OBJ [5; 6] 2 None (StreamDemo.full 0 2)) ∧
  agree fst (xStreamBufferReceive StreamDemo.os true id OBJ (local_array 8) 8 0 (StreamDemo.full 0 2))
    (xStreamBufferReceiveFromISR StreamDemo.os true OBJ (local_array 8) 8 None (StreamDemo.full 0 2)).
Proof. by apply interrupt_calls_agree. Defined.

Lemma full_batch_never_received_witness :
  wp False (xStreamBufferReceive StreamDemo.os true StreamDemo.writes OBJ (local_array 8) 8 100)
    (λ r w', r = (0, local_array 8) ∧
      holding (buffer (StreamDemo.full sbFLAGS_IS_BATCHING_BUFFER 7)) StreamDemo.bytes4 w')
    (StreamDemo.full sbFLAGS_IS_BATCHING_BUFFER 7).
Proof.
  apply full_batch_never_received; [intros w; apply StreamDemo.writes_step|apply StreamDemo.full_stream|done..].
Defined.
