(* ===== verification/DoipMutex.v ===== *)
(** * The mutex of the DoIP task

    [src/doip/doip_task_example.c] on [FreeRTOS/Source/queue.c]: the operating
    system that [DoipTask] takes as a parameter, with its mutex the one of
    [RtosQueue]. [doip_lock] and [doip_unlock] are the only users of the mutex, so
    the task always gets it. *)

From S2P Require Import Prelude DoipProtocol Uds DoipInterface DoipEntity DoipTask RtosQueue.
Local Open Scope list_scope.
Local Open Scope Z_scope.

Section mutex.
Context {T K : Type} (os : task_ops T K) (asserts : bool) (others interrupts : kernel K → kernel K).
Context (create_task : K → bool * K).

(** The semaphore macros of [semphr.h] on the queue. A call that does not return
    counts as one that failed; with one user there is none ([take_free],
    [give_taken]). *)
Definition mutex_os : os_ops (kernel K) := {|
  xSemaphoreCreateMutex o :=
    match xQueueCreateMutex os asserts others interrupts 1 o with Done (p, o') => (p, o') | _ => (NULL, o) end;
  xSemaphoreTake ticks o :=
    match xQueueSemaphoreTake os asserts others interrupts 1 OBJ ticks o with
    | Done (r, o') => (r =? pdPASS, o')
    | _ => (false, o)
    end;
  xSemaphoreGive o :=
    match xQueueGenericSend os asserts others interrupts 1 OBJ None 0 queueSEND_TO_BACK o with
    | Done (_, o') => o'
    | _ => o
    end;
  xTaskCreate o := let '(b, k) := create_task (tasks o) in (b, Kernel (queue o) k);
|}.

Hypothesis others_idle : ∀ o, contents (queue (others o)) = contents (queue o).
Hypothesis scheduler_runs : ∀ k, scheduler_suspended os k = false.

(** The mutex exists and is free, or taken. *)
Definition mutex_is (free : bool) (m : ptr) (o : kernel K) : Prop := m = OBJ ∧ mutex_state free (queue o).

Lemma take_gets_it ticks o : mutex_state true (queue o) →
  ∃ o', xSemaphoreTake mutex_os ticks o = (true, o') ∧ mutex_state false (queue o').
Proof.
  intros Hm. destruct (take_free os asserts others interrupts others_idle 0 ticks o Hm) as (o'&E&Hm'&_).
  { by rewrite scheduler_runs. }
  exists o'. split; [|done]. simpl. by rewrite E.
Qed.

Lemma give_frees_it o : mutex_state false (queue o) → mutex_state true (queue (xSemaphoreGive mutex_os o)).
Proof.
  intros Hm. destruct (give_taken os asserts others interrupts others_idle 0 o Hm) as (o'&E&Hm'&_).
  simpl. by rewrite E.
Qed.

Lemma create_gives_free `{!HeapLaws os} o : (xSemaphoreCreateMutex mutex_os o).1 = OBJ →
  mutex_state true (queue (xSemaphoreCreateMutex mutex_os o).2).
Proof.
  pose proof (create_mutex_free os asserts others interrupts others_idle 0 o) as Hc.
  pose proof (malloc_range (os := os) sizeof_Queue_t (tasks o)) as Hm.
  destruct (pvPortMalloc os sizeof_Queue_t (tasks o)) as [a k]. simpl in *.
  specialize (Hc ltac:(lia) (heap_bytes_len _ _ _ ltac:(done))). unfold wp in Hc.
  destruct (xQueueCreateMutex os asserts others interrupts 1 o) as [[p o']| |]; [|done..]. exact Hc.
Qed.

(** ** The task *)

Section task.
Context {N : Type}.
Implicit Types w : world N (user uds_fn (globals (kernel K))).

Lemma lock_gets_it w : entity_inv (K_os (mutex_is true)) w →
  ∃ w', doip_lock mutex_os 100 w = Done (true, w') ∧ entity_inv (K_os (mutex_is false)) w'.
Proof.
  intros Hw. destruct (Hw) as (H1&H2&H3&H4&[HK [Hm Ho]]).
  destruct (take_gets_it 100 _ Ho) as (o'&E&Ho').
  exists (set_os o' w). split.
  - unfold doip_lock. rewrite gets_bind. change (u_app (w_user w)) with (globals_of w) in *. rewrite Hm.
    unfold call_os. by rewrite E.
  - apply inv_intro; try done.
Qed.

Lemma unlock_frees_it w : entity_inv (K_os (mutex_is false)) w →
  ∃ w', doip_unlock mutex_os w = Done (tt, w') ∧ entity_inv (K_os (mutex_is true)) w'.
Proof.
  intros (H1&H2&H3&H4&[HK [Hm Ho]]).
  exists (set_os (xSemaphoreGive mutex_os (g_os (globals_of w))) w). split.
  - unfold doip_unlock. rewrite gets_bind. change (u_app (w_user w)) with (globals_of w) in *. by rewrite Hm.
  - apply inv_intro; try done. split; [done|]. split; [done|]. by apply give_frees_it.
Qed.

(** A cycle is the body of the task, with the lock: it is never skipped. *)
Lemma cycle_runs_body fuel w : entity_inv (K_os (mutex_is true)) w →
  ∃ w1, doip_lock mutex_os 100 w = Done (true, w1) ∧
    task_cycle mutex_os fuel w = (task_body fuel;; doip_unlock mutex_os) w1 ∧
    wp True (task_cycle mutex_os fuel) (λ _, entity_inv (K_os (mutex_is true))) w.
Proof.
  intros Hw. destruct (lock_gets_it w Hw) as (w1&E&Hw1). exists w1. split; [done|].
  assert (task_cycle mutex_os fuel w = (task_body fuel;; doip_unlock mutex_os) w1) as Ec.
  { rewrite task_cycle_unfold. by rewrite (bind_done _ _ _ _ _ E). }
  split; [done|]. unfold wp. rewrite Ec.
  fold (wp True (task_body fuel;; doip_unlock mutex_os) (λ _, entity_inv (K_os (mutex_is true))) w1).
  apply wp_bind. eapply wp_mono; [by apply task_body_safe|].
  intros ? w2 Hw2. destruct (unlock_frees_it w2 Hw2) as (w3&E3&Hw3). by eapply wp_intro.
Qed.

Lemma cycles_keep_mutex fuel cycles w : entity_inv (K_os (mutex_is true)) w →
  wp True (for_each (replicate cycles tt) (λ _, task_cycle mutex_os fuel)) (λ _, entity_inv (K_os (mutex_is true))) w.
Proof.
  intros Hw. apply (wp_for_each _ _ (entity_inv (K_os (mutex_is true)))); [done|].
  intros [] s _ Hs. by destruct (cycle_runs_body fuel s Hs) as (_&_&_&?).
Qed.
End task.
End mutex.

(** ** Properties *)

(** C19 (liveness): the task is never locked out. When no one else uses the
    mutex and the scheduler runs, then after the start-up and any number of cycles
    the task gets the lock at once, so that the next cycle processes the messages
    and timers instead of being skipped, and returns it at the end. *)
Theorem lock_always_free {T K N} (os : task_ops T K) asserts others interrupts create_task
    (net : doip_network_ops_t N) netif_add tcpip_init fuel cycles
    (w : world N (user uds_fn (globals (kernel K)))) :
  NetLaws net → HeapLaws os → raw_memory w →
  (∀ o, contents (queue (others o)) = contents (queue o)) → (∀ k, scheduler_suspended os k = false) →
  let mos := mutex_os os asserts others interrupts create_task in
  wp True (doip_application_init mos net netif_add tcpip_init fuel cycles)
    (λ r w', r = Some true → ∃ w1, doip_lock mos 100 w' = Done (true, w1) ∧
       task_cycle mos fuel w' = (task_body fuel;; doip_unlock mos) w1 ∧
       wp True (task_cycle mos fuel) (λ _ w2, mutex_state true (queue (g_os (globals_of w2)))) w') w.
Proof.
  intros Hnet Hheap Hraw Hidle Hruns mos. unfold doip_application_init. apply wp_bind, wp_modify.
  apply wp_bind. unfold interface_init, ETHIF_NUMBER. cbn [seq for_each]. apply wp_bind, wp_modify, wp_ret.
  apply wp_bind, wp_gets. apply wp_bind, wp_modify. apply wp_bind.
  unfold call_os at 1. unfold wp at 1.
  pose proof (create_gives_free os asserts others interrupts create_task Hidle) as Hcr.
  match goal with |- context [xSemaphoreCreateMutex mos ?o0] => specialize (Hcr o0) end.
  fold mos in Hcr. destruct (xSemaphoreCreateMutex mos _) as [m o].
  apply wp_bind, wp_modify. destruct m; [by apply wp_ret|]. specialize (Hcr eq_refl). simpl in Hcr.
  apply wp_bind. unfold call_os at 1. unfold wp at 1.
  destruct (xTaskCreate mos _) as [[] o2] eqn:Et; cbn [negb]; [|by apply wp_ret].
  assert (mutex_state true (queue o2)) as Ho2.
  { simpl in Et. destruct (create_task _) as [b k]. by simplify_eq/=. }
  apply wp_bind. eapply wp_mono.
  - apply (task_setup_then mos net (entity_inv (K_os (mutex_is true)))); [exact Hraw| |].
    + unfold DoipTask.K, uds_context_ok. simpl. split_and!; by first [left | done].
    + intros w' [Hw' _] Hg. apply cycles_keep_mutex; try done.
      destruct Hw' as (?&?&?&?&HK). apply inv_intro; try done. split; [done|].
      change (u_app (w_user w')) with (globals_of w'). rewrite Hg. by split.
  - intros r w' H. apply wp_ret. intros [= ->].
    destruct (cycle_runs_body os asserts others interrupts create_task Hidle Hruns fuel w' (H eq_refl)) as (w1&E1&E2&E3).
    exists w1. split; [done|]. split; [done|]. eapply wp_mono; [exact E3|]. by intros _ w2 (_&_&_&_&_&_&?).
Qed.

(** ** Witness *)

Module MutexDemo.
Definition create_task (k : QueueDemo.clock) : bool * QueueDemo.clock := (true, k).

#[export] Instance heap_laws : HeapLaws QueueDemo.os.
Proof.
  split.
  - intros n k. simpl. destruct (Z.leb_spec n 0x10000); simpl; lia.
  - intros a n k Hn. unfold len. simpl. rewrite length_replicate. lia.
Qed.

(** Static memory, zeroed, with the memory of the queue not allocated yet. *)
Definition cold : world Script.network (user uds_fn (globals (kernel QueueDemo.clock))) :=
  World (Script.iface Script.open_slot Script.open_slot) Script.quiet
    (User (Entity Demo.cfg NULL [Demo.off; Demo.off] 0 0 None)
       (Globals (Context 0 0 false 0 0 0) NULL QueueDemo.memory)).

Lemma cold_memory_raw : raw_memory cold.
Proof. exact TaskDemo.cold_raw. Qed.
End MutexDemo.

Lemma lock_always_free_witness :
  let mos := mutex_os QueueDemo.os true id id MutexDemo.create_task in
  wp True (doip_application_init mos Script.ops (λ _ _ _ n, n) (λ n, n) 100 3)
    (λ r w', r = Some true → ∃ w1, doip_lock mos 100 w' = Done (true, w1) ∧
       task_cycle mos 100 w' = (task_body 100;; doip_unlock mos) w1 ∧
       wp True (task_cycle mos 100) (λ _ w2, mutex_state true (queue (g_os (globals_of w2)))) w') MutexDemo.cold.
Proof.
  apply (lock_always_free QueueDemo.os true id id MutexDemo.create_task).
  - apply Script.laws.
  - apply MutexDemo.heap_laws.
  - apply MutexDemo.cold_memory_raw.
  - done.
  - done.
Defined.
