(* ===== verification/RtosTasks.v ===== *)
(** * The kernel's scheduler

    [FreeRTOS/Source/tasks.c], configured as [lwip_FreeRTOS_s32k344.mex] says:
    one core, preemption with time slicing, ten priorities, the generic choice
    of the next task, mutexes, notifications, suspension, deletion and aborted
    delays; no tickless idle, no hooks. The state is the one of the file: the
    control blocks by address, the lists of their items, and the variables.

    The lists are the zippers of [RtosList] on the addresses of the tasks.
    [pendsv] is the interrupt that a yield requests and the port serves with
    [vTaskSwitchContext]. Two functions stand for what happens meanwhile:
    [interrupts] where a task runs with the scheduler suspended, and [others]
    where it may be switched out in the middle of a function. The name, the
    stack and the trace numbers of a task are left out: nothing here reads
    them. *)

From Stdlib Require Import ZArith Lia.
From stdpp Require Import functions gmap list.
From S2P Require Import Prelude RtosList.
Local Open Scope Z_scope.

(** ** Data *)

Definition configMAX_PRIORITIES : Z := 10.
Definition taskNOT_WAITING_NOTIFICATION : Z := 0.
Definition taskWAITING_NOTIFICATION : Z := 1.
Definition taskNOTIFICATION_RECEIVED : Z := 2.
Definition taskEVENT_LIST_ITEM_VALUE_IN_USE : Z := 0x80000000.
Definition taskSCHEDULER_SUSPENDED : Z := 0.
Definition taskSCHEDULER_NOT_STARTED : Z := 1.
Definition taskSCHEDULER_RUNNING : Z := 2.

(** The lists: one for each priority, the two delayed lists, and those of the
    other states; [EventList] is a list of a queue, at an address. *)
Inductive list_id :=
  | pxReadyTasksLists (uxPriority : Z) | xDelayedTaskList1 | xDelayedTaskList2 | xPendingReadyList
  | xTasksWaitingTermination | xSuspendedTaskList | EventList (a : Z).
#[export] Instance list_id_eq_dec : EqDecision list_id.
Proof. solve_decision. Defined.

(** A task has two list items; which one a list holds depends on the list. *)
Inductive item_kind := StateItem | EventItem.
#[export] Instance item_kind_eq_dec : EqDecision item_kind.
Proof. solve_decision. Defined.
Definition kind_of (l : list_id) : item_kind :=
  match l with xPendingReadyList | EventList _ => EventItem | _ => StateItem end.

Record list_item := ListItem { item_value : Z; item_container : option list_id }.

Record TCB_t := TCB {
  xStateListItem : list_item;
  xEventListItem : list_item;
  uxPriority : Z;
  uxBasePriority : Z;
  uxMutexesHeld : Z;
  ulNotifiedValue : Z;
  ucNotifyState : Z;
  ucDelayAborted : bool;
}.

Definition with_state_item (x : list_item) (c : TCB_t) : TCB_t :=
  TCB x (xEventListItem c) (uxPriority c) (uxBasePriority c) (uxMutexesHeld c) (ulNotifiedValue c) (ucNotifyState c) (ucDelayAborted c).
Definition with_event_item (x : list_item) (c : TCB_t) : TCB_t :=
  TCB (xStateListItem c) x (uxPriority c) (uxBasePriority c) (uxMutexesHeld c) (ulNotifiedValue c) (ucNotifyState c) (ucDelayAborted c).
Definition with_priority (x : Z) (c : TCB_t) : TCB_t :=
  TCB (xStateListItem c) (xEventListItem c) x (uxBasePriority c) (uxMutexesHeld c) (ulNotifiedValue c) (ucNotifyState c) (ucDelayAborted c).
Definition with_base_priority (x : Z) (c : TCB_t) : TCB_t :=
  TCB (xStateListItem c) (xEventListItem c) (uxPriority c) x (uxMutexesHeld c) (ulNotifiedValue c) (ucNotifyState c) (ucDelayAborted c).
Definition with_mutexes_held (x : Z) (c : TCB_t) : TCB_t :=
  TCB (xStateListItem c) (xEventListItem c) (uxPriority c) (uxBasePriority c) x (ulNotifiedValue c) (ucNotifyState c) (ucDelayAborted c).
Definition with_notified_value (x : Z) (c : TCB_t) : TCB_t :=
  TCB (xStateListItem c) (xEventListItem c) (uxPriority c) (uxBasePriority c) (uxMutexesHeld c) x (ucNotifyState c) (ucDelayAborted c).
Definition with_notify_state (x : Z) (c : TCB_t) : TCB_t :=
  TCB (xStateListItem c) (xEventListItem c) (uxPriority c) (uxBasePriority c) (uxMutexesHeld c) (ulNotifiedValue c) x (ucDelayAborted c).
Definition with_delay_aborted (x : bool) (c : TCB_t) : TCB_t :=
  TCB (xStateListItem c) (xEventListItem c) (uxPriority c) (uxBasePriority c) (uxMutexesHeld c) (ulNotifiedValue c) (ucNotifyState c) x.

Definition list_item_of (k : item_kind) (c : TCB_t) : list_item :=
  match k with StateItem => xStateListItem c | EventItem => xEventListItem c end.
Definition with_item (k : item_kind) (x : list_item) (c : TCB_t) : TCB_t :=
  match k with StateItem => with_state_item x c | EventItem => with_event_item x c end.
Definition with_container (k : item_kind) (l : option list_id) (c : TCB_t) : TCB_t :=
  with_item k (ListItem (item_value (list_item_of k c)) l) c.
Definition with_value (k : item_kind) (v : Z) (c : TCB_t) : TCB_t :=
  with_item k (ListItem v (item_container (list_item_of k c))) c.

Inductive eTaskState := eRunning | eReady | eBlocked | eSuspended | eDeleted | eInvalid.
Inductive eNotifyAction :=
  | eNoAction | eSetBits | eIncrement | eSetValueWithOverwrite | eSetValueWithoutOverwrite.
Record TimeOut_t := TimeOut { xOverflowCount : Z; xTimeOnEntering : Z }.

Record scheduler := Scheduler {
  tcbs : gmap Z TCB_t;
  lists : list_id → zipper Z;
  pxCurrentTCB : Z;
  pxDelayedTaskList : list_id;
  pxOverflowDelayedTaskList : list_id;
  uxDeletedTasksWaitingCleanUp : Z;
  uxCurrentNumberOfTasks : Z;
  xTickCount : Z;
  uxTopReadyPriority : Z;
  xSchedulerRunning : bool;
  xPendedTicks : Z;
  xYieldPending : bool;
  xNumOfOverflows : Z;
  uxTaskNumber : Z;
  xNextTaskUnblockTime : Z;
  uxSchedulerSuspended : Z;
  pendsv : bool;
}.

Definition set_tcbs (x : gmap Z TCB_t) (s : scheduler) : scheduler :=
  Scheduler x (lists s) (pxCurrentTCB s) (pxDelayedTaskList s) (pxOverflowDelayedTaskList s)
    (uxDeletedTasksWaitingCleanUp s) (uxCurrentNumberOfTasks s) (xTickCount s) (uxTopReadyPriority s)
    (xSchedulerRunning s) (xPendedTicks s) (xYieldPending s) (xNumOfOverflows s) (uxTaskNumber s)
    (xNextTaskUnblockTime s) (uxSchedulerSuspended s) (pendsv s).
Definition set_lists (x : list_id → zipper Z) (s : scheduler) : scheduler :=
  Scheduler (tcbs s) x (pxCurrentTCB s) (pxDelayedTaskList s) (pxOverflowDelayedTaskList s)
    (uxDeletedTasksWaitingCleanUp s) (uxCurrentNumberOfTasks s) (xTickCount s) (uxTopReadyPriority s)
    (xSchedulerRunning s) (xPendedTicks s) (xYieldPending s) (xNumOfOverflows s) (uxTaskNumber s)
    (xNextTaskUnblockTime s) (uxSchedulerSuspended s) (pendsv s).
Definition set_current (x : Z) (s : scheduler) : scheduler :=
  Scheduler (tcbs s) (lists s) x (pxDelayedTaskList s) (pxOverflowDelayedTaskList s)
    (uxDeletedTasksWaitingCleanUp s) (uxCurrentNumberOfTasks s) (xTickCount s) (uxTopReadyPriority s)
    (xSchedulerRunning s) (xPendedTicks s) (xYieldPending s) (xNumOfOverflows s) (uxTaskNumber s)
    (xNextTaskUnblockTime s) (uxSchedulerSuspended s) (pendsv s).
Definition set_delayed_list (x : list_id) (s : scheduler) : scheduler :=
  Scheduler (tcbs s) (lists s) (pxCurrentTCB s) x (pxOverflowDelayedTaskList s) (uxDeletedTasksWaitingCleanUp s)
    (uxCurrentNumberOfTasks s) (xTickCount s) (uxTopReadyPriority s) (xSchedulerRunning s) (xPendedTicks s)
    (xYieldPending s) (xNumOfOverflows s) (uxTaskNumber s) (xNextTaskUnblockTime s) (uxSchedulerSuspended s)
    (pendsv s).
Definition set_overflow_list (x : list_id) (s : scheduler) : scheduler :=
  Scheduler (tcbs s) (lists s) (pxCurrentTCB s) (pxDelayedTaskList s) x (uxDeletedTasksWaitingCleanUp s)
    (uxCurrentNumberOfTasks s) (xTickCount s) (uxTopReadyPriority s) (xSchedulerRunning s) (xPendedTicks s)
    (xYieldPending s) (xNumOfOverflows s) (uxTaskNumber s) (xNextTaskUnblockTime s) (uxSchedulerSuspended s)
    (pendsv s).
Definition set_deleted (x : Z) (s : scheduler) : scheduler :=
  Scheduler (tcbs s) (lists s) (pxCurrentTCB s) (pxDelayedTaskList s) (pxOverflowDelayedTaskList s) x
    (uxCurrentNumberOfTasks s) (xTickCount s) (uxTopReadyPriority s) (xSchedulerRunning s) (xPendedTicks s)
    (xYieldPending s) (xNumOfOverflows s) (uxTaskNumber s) (xNextTaskUnblockTime s) (uxSchedulerSuspended s)
    (pendsv s).
Definition set_number (x : Z) (s : scheduler) : scheduler :=
  Scheduler (tcbs s) (lists s) (pxCurrentTCB s) (pxDelayedTaskList s) (pxOverflowDelayedTaskList s)
    (uxDeletedTasksWaitingCleanUp s) x (xTickCount s) (uxTopReadyPriority s) (xSchedulerRunning s) (xPendedTicks
    s) (xYieldPending s) (xNumOfOverflows s) (uxTaskNumber s) (xNextTaskUnblockTime s) (uxSchedulerSuspended s)
    (pendsv s).
Definition set_tick (x : Z) (s : scheduler) : scheduler :=
  Scheduler (tcbs s) (lists s) (pxCurrentTCB s) (pxDelayedTaskList s) (pxOverflowDelayedTaskList s)
    (uxDeletedTasksWaitingCleanUp s) (uxCurrentNumberOfTasks s) x (uxTopReadyPriority s) (xSchedulerRunning s)
    (xPendedTicks s) (xYieldPending s) (xNumOfOverflows s) (uxTaskNumber s) (xNextTaskUnblockTime s)
    (uxSchedulerSuspended s) (pendsv s).
Definition set_top (x : Z) (s : scheduler) : scheduler :=
  Scheduler (tcbs s) (lists s) (pxCurrentTCB s) (pxDelayedTaskList s) (pxOverflowDelayedTaskList s)
    (uxDeletedTasksWaitingCleanUp s) (uxCurrentNumberOfTasks s) (xTickCount s) x (xSchedulerRunning s)
    (xPendedTicks s) (xYieldPending s) (xNumOfOverflows s) (uxTaskNumber s) (xNextTaskUnblockTime s)
    (uxSchedulerSuspended s) (pendsv s).
Definition set_running (x : bool) (s : scheduler) : scheduler :=
  Scheduler (tcbs s) (lists s) (pxCurrentTCB s) (pxDelayedTaskList s) (pxOverflowDelayedTaskList s)
    (uxDeletedTasksWaitingCleanUp s) (uxCurrentNumberOfTasks s) (xTickCount s) (uxTopReadyPriority s) x
    (xPendedTicks s) (xYieldPending s) (xNumOfOverflows s) (uxTaskNumber s) (xNextTaskUnblockTime s)
    (uxSchedulerSuspended s) (pendsv s).
Definition set_pended (x : Z) (s : scheduler) : scheduler :=
  Scheduler (tcbs s) (lists s) (pxCurrentTCB s) (pxDelayedTaskList s) (pxOverflowDelayedTaskList s)
    (uxDeletedTasksWaitingCleanUp s) (uxCurrentNumberOfTasks s) (xTickCount s) (uxTopReadyPriority s)
    (xSchedulerRunning s) x (xYieldPending s) (xNumOfOverflows s) (uxTaskNumber s) (xNextTaskUnblockTime s)
    (uxSchedulerSuspended s) (pendsv s).
Definition set_yield_pending (x : bool) (s : scheduler) : scheduler :=
  Scheduler (tcbs s) (lists s) (pxCurrentTCB s) (pxDelayedTaskList s) (pxOverflowDelayedTaskList s)
    (uxDeletedTasksWaitingCleanUp s) (uxCurrentNumberOfTasks s) (xTickCount s) (uxTopReadyPriority s)
    (xSchedulerRunning s) (xPendedTicks s) x (xNumOfOverflows s) (uxTaskNumber s) (xNextTaskUnblockTime s)
    (uxSchedulerSuspended s) (pendsv s).
Definition set_overflows (x : Z) (s : scheduler) : scheduler :=
  Scheduler (tcbs s) (lists s) (pxCurrentTCB s) (pxDelayedTaskList s) (pxOverflowDelayedTaskList s)
    (uxDeletedTasksWaitingCleanUp s) (uxCurrentNumberOfTasks s) (xTickCount s) (uxTopReadyPriority s)
    (xSchedulerRunning s) (xPendedTicks s) (xYieldPending s) x (uxTaskNumber s) (xNextTaskUnblockTime s)
    (uxSchedulerSuspended s) (pendsv s).
Definition set_task_number (x : Z) (s : scheduler) : scheduler :=
  Scheduler (tcbs s) (lists s) (pxCurrentTCB s) (pxDelayedTaskList s) (pxOverflowDelayedTaskList s)
    (uxDeletedTasksWaitingCleanUp s) (uxCurrentNumberOfTasks s) (xTickCount s) (uxTopReadyPriority s)
    (xSchedulerRunning s) (xPendedTicks s) (xYieldPending s) (xNumOfOverflows s) x (xNextTaskUnblockTime s)
    (uxSchedulerSuspended s) (pendsv s).
Definition set_unblock_time (x : Z) (s : scheduler) : scheduler :=
  Scheduler (tcbs s) (lists s) (pxCurrentTCB s) (pxDelayedTaskList s) (pxOverflowDelayedTaskList s)
    (uxDeletedTasksWaitingCleanUp s) (uxCurrentNumberOfTasks s) (xTickCount s) (uxTopReadyPriority s)
    (xSchedulerRunning s) (xPendedTicks s) (xYieldPending s) (xNumOfOverflows s) (uxTaskNumber s) x
    (uxSchedulerSuspended s) (pendsv s).
Definition set_suspended (x : Z) (s : scheduler) : scheduler :=
  Scheduler (tcbs s) (lists s) (pxCurrentTCB s) (pxDelayedTaskList s) (pxOverflowDelayedTaskList s)
    (uxDeletedTasksWaitingCleanUp s) (uxCurrentNumberOfTasks s) (xTickCount s) (uxTopReadyPriority s)
    (xSchedulerRunning s) (xPendedTicks s) (xYieldPending s) (xNumOfOverflows s) (uxTaskNumber s)
    (xNextTaskUnblockTime s) x (pendsv s).
Definition set_pendsv (x : bool) (s : scheduler) : scheduler :=
  Scheduler (tcbs s) (lists s) (pxCurrentTCB s) (pxDelayedTaskList s) (pxOverflowDelayedTaskList s)
    (uxDeletedTasksWaitingCleanUp s) (uxCurrentNumberOfTasks s) (xTickCount s) (uxTopReadyPriority s)
    (xSchedulerRunning s) (xPendedTicks s) (xYieldPending s) (xNumOfOverflows s) (uxTaskNumber s)
    (xNextTaskUnblockTime s) (uxSchedulerSuspended s) x.

(** ** Lists and control blocks *)

Section operations.
Context (asserts : bool).
Context (others interrupts : scheduler → scheduler).

Definition configASSERT (b : bool) : ST scheduler unit := if asserts && negb b then lift Fault else mret tt.

Definition get_tcb (t : Z) : ST scheduler TCB_t :=
  m ← gets tcbs; match m !! t with Some c => mret c | None => lift Fault end.
Definition upd_tcb (t : Z) (f : TCB_t → TCB_t) : ST scheduler unit :=
  c ← get_tcb t; modify (λ s, set_tcbs (<[t := f c]> (tcbs s)) s).

(** The value of a task's item in a list. *)
Definition value_in (l : list_id) (s : scheduler) (t : Z) : Z :=
  match tcbs s !! t with Some c => item_value (list_item_of (kind_of l) c) | None => 0 end.

(** [vListInsertEnd] and its macro [listINSERT_END]; [vListInsert];
    [uxListRemove] and its macro [listREMOVE_ITEM]; the container. *)
Definition listINSERT_END (l : list_id) (t : Z) : ST scheduler unit :=
  upd_tcb t (with_container (kind_of l) (Some l));;
  modify (λ s, set_lists (<[l := z_insert_end t (lists s l)]> (lists s)) s).
Definition vListInsert (l : list_id) (t : Z) : ST scheduler unit :=
  upd_tcb t (with_container (kind_of l) (Some l));;
  modify (λ s, set_lists (<[l := z_insert (value_in l s) t (lists s l)]> (lists s)) s).
Definition uxListRemove (k : item_kind) (t : Z) : ST scheduler Z :=
  c ← get_tcb t;
  match item_container (list_item_of k c) with
  | None => lift Fault
  | Some l =>
      upd_tcb t (with_container k None);;
      modify (λ s, set_lists (<[l := z_remove t (lists s l)]> (lists s)) s);;
      s ← gets id;
      mret (len (z_items (lists s l)))
  end.
Definition listLIST_ITEM_CONTAINER (k : item_kind) (t : Z) : ST scheduler (option list_id) :=
  c ← get_tcb t; mret (item_container (list_item_of k c)).
Definition listLIST_IS_EMPTY (l : list_id) : ST scheduler bool :=
  s ← gets id; mret (bool_decide (z_items (lists s l) = [])).
(** The owner of the head entry; an empty list has none. *)
Definition listGET_OWNER_OF_HEAD_ENTRY (l : list_id) : ST scheduler Z :=
  s ← gets id; match z_items (lists s l) with t :: _ => mret t | [] => lift Fault end.

(** An element of [pxReadyTasksLists]. *)
Definition ready_list (uxPriority : Z) : ST scheduler list_id :=
  if (0 <=? uxPriority) && (uxPriority <? configMAX_PRIORITIES) then mret (pxReadyTasksLists uxPriority)
  else lift Fault.

Definition prvGetTCBFromHandle (xHandle : Z) : ST scheduler Z :=
  s ← gets id; mret (if xHandle =? 0 then pxCurrentTCB s else xHandle).
Definition current_tcb : ST scheduler TCB_t := t ← gets pxCurrentTCB; get_tcb t.

Definition taskRECORD_READY_PRIORITY (uxPriority : Z) : ST scheduler unit :=
  top ← gets uxTopReadyPriority;
  if top <? uxPriority then modify (set_top uxPriority) else mret tt.

Definition prvAddTaskToReadyList (pxTCB : Z) : ST scheduler unit :=
  c ← get_tcb pxTCB;
  taskRECORD_READY_PRIORITY (uxPriority c);;
  l ← ready_list (uxPriority c);
  listINSERT_END l pxTCB.

(** The event item leaves its list, if it is in one. *)
Definition leave_event_list (pxTCB : Z) : ST scheduler unit :=
  event ← listLIST_ITEM_CONTAINER EventItem pxTCB;
  match event with Some _ => uxListRemove EventItem pxTCB;; mret tt | None => mret tt end.

(** Yields *)
Definition taskYIELD_WITHIN_API : ST scheduler unit := modify (set_pendsv true).
Definition higher_than_current (pxTCB : Z) : ST scheduler bool :=
  c ← get_tcb pxTCB;
  current ← current_tcb;
  mret (uxPriority current <? uxPriority c).
Definition taskYIELD_ANY_CORE_IF_USING_PREEMPTION (pxTCB : Z) : ST scheduler unit :=
  higher ← higher_than_current pxTCB;
  if higher : bool then taskYIELD_WITHIN_API else mret tt.

(** The event list item's value follows the priority, unless it is in use. *)
Definition reset_event_value (pxTCB uxNewPriority : Z) : ST scheduler unit :=
  c ← get_tcb pxTCB;
  if Z.land (item_value (xEventListItem c)) taskEVENT_LIST_ITEM_VALUE_IN_USE =? 0
  then upd_tcb pxTCB (with_value EventItem (u32 (configMAX_PRIORITIES - uxNewPriority)))
  else mret tt.

(** Into the ready list of the new priority, if the task is in the one of the old. *)
Definition requeue (pxTCB uxPriorityUsedOnEntry : Z) (change : ST scheduler unit) : ST scheduler unit :=
  c ← get_tcb pxTCB;
  l ← ready_list uxPriorityUsedOnEntry;
  if decide (item_container (xStateListItem c) = Some l) then
    uxListRemove StateItem pxTCB;;
    change;;
    prvAddTaskToReadyList pxTCB
  else change.

(** ** Choosing a task *)

(** The search for the highest ready list that is not empty. *)
Fixpoint find_top (uxTopPriority : nat) : ST scheduler Z :=
  s ← gets id;
  if bool_decide (z_items (lists s (pxReadyTasksLists (Z.of_nat uxTopPriority))) = []) then
    match uxTopPriority with
    | O => lift Fault
    | S p => find_top p
    end
  else mret (Z.of_nat uxTopPriority).

Definition taskSELECT_HIGHEST_PRIORITY_TASK : ST scheduler unit :=
  top ← gets uxTopReadyPriority;
  ready_list top;;
  uxTopPriority ← find_top (Z.to_nat top);
  s ← gets id;
  match z_next (lists s (pxReadyTasksLists uxTopPriority)) with
  | None => lift Fault
  | Some (t, z) =>
      modify (λ s, set_lists (<[pxReadyTasksLists uxTopPriority := z]> (lists s)) s);;
      modify (set_current t);;
      modify (set_top uxTopPriority)
  end.

Definition vTaskSwitchContext : ST scheduler unit :=
  s ← gets id;
  if negb (uxSchedulerSuspended s =? 0) then modify (set_yield_pending true)
  else
    modify (set_yield_pending false);;
    taskSELECT_HIGHEST_PRIORITY_TASK.

(** [xPortPendSVHandler] *)
Definition xPortPendSVHandler : ST scheduler unit :=
  modify (set_pendsv false);;
  vTaskSwitchContext.

(** ** Time *)

Definition prvResetNextTaskUnblockTime : ST scheduler unit :=
  s ← gets id;
  empty ← listLIST_IS_EMPTY (pxDelayedTaskList s);
  if empty : bool then modify (set_unblock_time portMAX_DELAY)
  else
    t ← listGET_OWNER_OF_HEAD_ENTRY (pxDelayedTaskList s);
    c ← get_tcb t;
    modify (set_unblock_time (item_value (xStateListItem c))).

Definition taskSWITCH_DELAYED_LISTS : ST scheduler unit :=
  s ← gets id;
  empty ← listLIST_IS_EMPTY (pxDelayedTaskList s);
  configASSERT empty;;
  modify (set_delayed_list (pxOverflowDelayedTaskList s));;
  modify (set_overflow_list (pxDelayedTaskList s));;
  modify (set_overflows (u32 (xNumOfOverflows s + 1)));;
  prvResetNextTaskUnblockTime.

(** The loop of [xTaskIncrementTick]: it wakes the tasks whose time has come. *)
Fixpoint unblock_tasks (fuel : nat) (xConstTickCount : Z) (xSwitchRequired : bool) : ST scheduler bool :=
  match fuel with
  | O => diverge
  | S fuel =>
      s ← gets id;
      empty ← listLIST_IS_EMPTY (pxDelayedTaskList s);
      if empty : bool then modify (set_unblock_time portMAX_DELAY);; mret xSwitchRequired
      else
        pxTCB ← listGET_OWNER_OF_HEAD_ENTRY (pxDelayedTaskList s);
        c ← get_tcb pxTCB;
        let xItemValue := item_value (xStateListItem c) in
        if xConstTickCount <? xItemValue then modify (set_unblock_time xItemValue);; mret xSwitchRequired
        else
          uxListRemove StateItem pxTCB;;
          leave_event_list pxTCB;;
          prvAddTaskToReadyList pxTCB;;
          higher ← higher_than_current pxTCB;
          unblock_tasks fuel xConstTickCount (xSwitchRequired || higher)
  end.

Definition xTaskIncrementTick (fuel : nat) : ST scheduler bool :=
  s ← gets id;
  if uxSchedulerSuspended s =? 0 then
    let xConstTickCount := u32 (xTickCount s + 1) in
    modify (set_tick xConstTickCount);;
    (if xConstTickCount =? 0 then taskSWITCH_DELAYED_LISTS else mret tt);;
    unblock ← gets xNextTaskUnblockTime;
    xSwitchRequired ← (if unblock <=? xConstTickCount then unblock_tasks fuel xConstTickCount false
                       else mret false);
    current ← current_tcb;
    l ← ready_list (uxPriority current);
    s ← gets id;
    let xSwitchRequired := xSwitchRequired || (1 <? len (z_items (lists s l))) in
    mret (xSwitchRequired || xYieldPending s)
  else
    modify (set_pended (u32 (xPendedTicks s + 1)));;
    mret false.

(** [xPortSysTickHandler] *)
Definition xPortSysTickHandler (fuel : nat) : ST scheduler unit :=
  switch ← xTaskIncrementTick fuel;
  if switch : bool then modify (set_pendsv true) else mret tt.

Definition prvAddCurrentTaskToDelayedList (xTicksToWait : Z) (xCanBlockIndefinitely : bool) :
    ST scheduler unit :=
  s ← gets id;
  let xConstTickCount := xTickCount s in
  upd_tcb (pxCurrentTCB s) (with_delay_aborted false);;
  uxListRemove StateItem (pxCurrentTCB s);;
  if (xTicksToWait =? portMAX_DELAY) && xCanBlockIndefinitely then
    listINSERT_END xSuspendedTaskList (pxCurrentTCB s)
  else
    let xTimeToWake := u32 (xConstTickCount + xTicksToWait) in
    upd_tcb (pxCurrentTCB s) (with_value StateItem xTimeToWake);;
    if xTimeToWake <? xConstTickCount then vListInsert (pxOverflowDelayedTaskList s) (pxCurrentTCB s)
    else
      vListInsert (pxDelayedTaskList s) (pxCurrentTCB s);;
      unblock ← gets xNextTaskUnblockTime;
      if xTimeToWake <? unblock then modify (set_unblock_time xTimeToWake) else mret tt.

(** ** Suspending the scheduler *)

Definition vTaskSuspendAll : ST scheduler unit :=
  modify (λ s, set_suspended (u32 (uxSchedulerSuspended s + 1)) s).

(** The tasks readied meanwhile; the result says whether there were any. *)
Fixpoint move_pending (fuel : nat) (moved : bool) : ST scheduler bool :=
  match fuel with
  | O => diverge
  | S fuel =>
      empty ← listLIST_IS_EMPTY xPendingReadyList;
      if empty : bool then mret moved
      else
        pxTCB ← listGET_OWNER_OF_HEAD_ENTRY xPendingReadyList;
        uxListRemove EventItem pxTCB;;
        uxListRemove StateItem pxTCB;;
        prvAddTaskToReadyList pxTCB;;
        higher ← higher_than_current pxTCB;
        (if higher : bool then modify (set_yield_pending true) else mret tt);;
        move_pending fuel true
  end.

(** The ticks that occurred meanwhile. *)
Fixpoint pended_ticks (fuel : nat) (xPendedCounts : nat) : ST scheduler unit :=
  match xPendedCounts with
  | O => mret tt
  | S n =>
      switch ← xTaskIncrementTick fuel;
      (if switch : bool then modify (set_yield_pending true) else mret tt);;
      pended_ticks fuel n
  end.

Definition xTaskResumeAll (fuel : nat) : ST scheduler bool :=
  s ← gets id;
  configASSERT (negb (uxSchedulerSuspended s =? 0));;
  modify (set_suspended (u32 (uxSchedulerSuspended s - 1)));;
  s ← gets id;
  if (uxSchedulerSuspended s =? 0) && (0 <? uxCurrentNumberOfTasks s) then
    moved ← move_pending fuel false;
    (if moved : bool then prvResetNextTaskUnblockTime else mret tt);;
    xPendedCounts ← gets xPendedTicks;
    (if 0 <? xPendedCounts then
       pended_ticks fuel (Z.to_nat xPendedCounts);;
       modify (set_pended 0)
     else mret tt);;
    yield ← gets xYieldPending;
    if yield : bool then taskYIELD_WITHIN_API;; mret true else mret false
  else mret false.

Definition xTaskCatchUpTicks (fuel : nat) (xTicksToCatchUp : Z) : ST scheduler bool :=
  s ← gets id;
  configASSERT (uxSchedulerSuspended s =? 0);;
  vTaskSuspendAll;;
  modify interrupts;;
  modify (λ s, set_pended (u32 (xPendedTicks s + xTicksToCatchUp)) s);;
  modify interrupts;;
  xTaskResumeAll fuel.

Definition yield_unless (xAlreadyYielded : bool) : ST scheduler unit :=
  if xAlreadyYielded then mret tt else taskYIELD_WITHIN_API.

Definition vTaskDelay (fuel : nat) (xTicksToDelay : Z) : ST scheduler unit :=
  xAlreadyYielded ← (
    if 0 <? xTicksToDelay then
      vTaskSuspendAll;;
      s ← gets id;
      configASSERT (uxSchedulerSuspended s =? 1);;
      modify interrupts;;
      prvAddCurrentTaskToDelayedList xTicksToDelay false;;
      modify interrupts;;
      xTaskResumeAll fuel
    else mret false);
  yield_unless xAlreadyYielded.

(** The result is the new wake time and whether there was a delay. *)
Definition xTaskDelayUntil (fuel : nat) (xPreviousWakeTime xTimeIncrement : Z) : ST scheduler (Z * bool) :=
  configASSERT (0 <? xTimeIncrement);;
  vTaskSuspendAll;;
  modify interrupts;;
  s ← gets id;
  let xConstTickCount := xTickCount s in
  configASSERT (uxSchedulerSuspended s =? 1);;
  let xTimeToWake := u32 (xPreviousWakeTime + xTimeIncrement) in
  let xShouldDelay :=
    if xConstTickCount <? xPreviousWakeTime
    then (xTimeToWake <? xPreviousWakeTime) && (xConstTickCount <? xTimeToWake)
    else (xTimeToWake <? xPreviousWakeTime) || (xConstTickCount <? xTimeToWake) in
  (if xShouldDelay then prvAddCurrentTaskToDelayedList (u32 (xTimeToWake - xConstTickCount)) false
   else mret tt);;
  modify interrupts;;
  xAlreadyYielded ← xTaskResumeAll fuel;
  yield_unless xAlreadyYielded;;
  mret (xTimeToWake, xShouldDelay).

(** ** Timeouts *)

Definition vTaskInternalSetTimeOutState : ST scheduler TimeOut_t :=
  s ← gets id; mret (TimeOut (xNumOfOverflows s) (xTickCount s)).
Definition vTaskSetTimeOutState : ST scheduler TimeOut_t := vTaskInternalSetTimeOutState.

(** The result, the time-out and the ticks left to wait. *)
Definition xTaskCheckForTimeOut (pxTimeOut : TimeOut_t) (pxTicksToWait : Z) :
    ST scheduler (bool * TimeOut_t * Z) :=
  s ← gets id;
  let xConstTickCount := xTickCount s in
  let xElapsedTime := u32 (xConstTickCount - xTimeOnEntering pxTimeOut) in
  current ← current_tcb;
  if ucDelayAborted current then
    upd_tcb (pxCurrentTCB s) (with_delay_aborted false);;
    mret (true, pxTimeOut, pxTicksToWait)
  else if pxTicksToWait =? portMAX_DELAY then mret (false, pxTimeOut, pxTicksToWait)
  else if negb (xNumOfOverflows s =? xOverflowCount pxTimeOut) && (xTimeOnEntering pxTimeOut <=? xConstTickCount)
  then mret (true, pxTimeOut, 0)
  else if xElapsedTime <? pxTicksToWait then
    t ← vTaskInternalSetTimeOutState;
    mret (false, t, u32 (pxTicksToWait - xElapsedTime))
  else mret (true, pxTimeOut, 0).

Definition vTaskMissedYield : ST scheduler unit := modify (set_yield_pending true).

Definition xTaskGetTickCount : ST scheduler Z := gets xTickCount.
Definition xTaskGetTickCountFromISR : ST scheduler Z := gets xTickCount.
Definition uxTaskGetNumberOfTasks : ST scheduler Z := gets uxCurrentNumberOfTasks.
Definition xTaskGetCurrentTaskHandle : ST scheduler Z := gets pxCurrentTCB.
Definition xTaskGetSchedulerState : ST scheduler Z :=
  s ← gets id;
  mret (if negb (xSchedulerRunning s) then taskSCHEDULER_NOT_STARTED
        else if uxSchedulerSuspended s =? 0 then taskSCHEDULER_RUNNING else taskSCHEDULER_SUSPENDED).

(** ** Creating and deleting tasks *)

Definition prvInitialiseTaskLists : ST scheduler unit :=
  modify (λ s, set_lists (λ l, match l with EventList _ => lists s l | _ => z_empty end) s);;
  modify (set_delayed_list xDelayedTaskList1);;
  modify (set_overflow_list xDelayedTaskList2).

(** The control block, in cleared memory. *)
Definition prvInitialiseNewTask (uxPriority pxNewTCB : Z) : ST scheduler unit :=
  configASSERT (uxPriority <? configMAX_PRIORITIES);;
  let p := if configMAX_PRIORITIES <=? uxPriority then configMAX_PRIORITIES - 1 else uxPriority in
  modify (λ s, set_tcbs (<[pxNewTCB :=
    TCB (ListItem 0 None) (ListItem (u32 (configMAX_PRIORITIES - p)) None) p p 0 0
      taskNOT_WAITING_NOTIFICATION false]> (tcbs s)) s).

Definition prvAddNewTaskToReadyList (pxNewTCB : Z) : ST scheduler unit :=
  modify (λ s, set_number (u32 (uxCurrentNumberOfTasks s + 1)) s);;
  s ← gets id;
  (if pxCurrentTCB s =? 0 then
     modify (set_current pxNewTCB);;
     if uxCurrentNumberOfTasks s =? 1 then prvInitialiseTaskLists else mret tt
   else if negb (xSchedulerRunning s) then
     current ← current_tcb;
     c ← get_tcb pxNewTCB;
     if uxPriority current <=? uxPriority c then modify (set_current pxNewTCB) else mret tt
   else mret tt);;
  modify (λ s, set_task_number (u32 (uxTaskNumber s + 1)) s);;
  prvAddTaskToReadyList pxNewTCB;;
  s ← gets id;
  if xSchedulerRunning s then taskYIELD_ANY_CORE_IF_USING_PREEMPTION pxNewTCB else mret tt.

(** [memory] is what [prvCreateTask] gets from the heap for the control block. *)
Definition xTaskCreate (memory : option Z) (uxPriority : Z) : ST scheduler bool :=
  match memory with
  | Some pxNewTCB =>
      prvInitialiseNewTask uxPriority pxNewTCB;;
      prvAddNewTaskToReadyList pxNewTCB;;
      mret true
  | None => mret false
  end.

Definition prvDeleteTCB (pxTCB : Z) : ST scheduler unit :=
  modify (λ s, set_tcbs (delete pxTCB (tcbs s)) s).

Definition vTaskDelete (xTaskToDelete : Z) : ST scheduler unit :=
  pxTCB ← prvGetTCBFromHandle xTaskToDelete;
  uxListRemove StateItem pxTCB;;
  leave_event_list pxTCB;;
  modify (λ s, set_task_number (u32 (uxTaskNumber s + 1)) s);;
  s ← gets id;
  (if xSchedulerRunning s && (pxTCB =? pxCurrentTCB s) then
     listINSERT_END xTasksWaitingTermination pxTCB;;
     modify (λ s, set_deleted (u32 (uxDeletedTasksWaitingCleanUp s + 1)) s)
   else
     modify (λ s, set_number (u32 (uxCurrentNumberOfTasks s - 1)) s);;
     prvResetNextTaskUnblockTime;;
     prvDeleteTCB pxTCB);;
  if xSchedulerRunning s && (pxTCB =? pxCurrentTCB s) then
    configASSERT (uxSchedulerSuspended s =? 0);;
    taskYIELD_WITHIN_API
  else mret tt.

(** The idle task frees what is left of the deleted tasks. *)
Fixpoint prvCheckTasksWaitingTermination (fuel : nat) : ST scheduler unit :=
  match fuel with
  | O => diverge
  | S fuel =>
      waiting ← gets uxDeletedTasksWaitingCleanUp;
      if 0 <? waiting then
        pxTCB ← listGET_OWNER_OF_HEAD_ENTRY xTasksWaitingTermination;
        uxListRemove StateItem pxTCB;;
        modify (λ s, set_number (u32 (uxCurrentNumberOfTasks s - 1)) s);;
        modify (λ s, set_deleted (u32 (uxDeletedTasksWaitingCleanUp s - 1)) s);;
        prvDeleteTCB pxTCB;;
        prvCheckTasksWaitingTermination fuel
      else mret tt
  end.

(** ** States and priorities *)

Definition eTaskGetState (xTask : Z) : ST scheduler eTaskState :=
  configASSERT (negb (xTask =? 0));;
  s ← gets id;
  if xTask =? pxCurrentTCB s then mret eRunning
  else
    c ← get_tcb xTask;
    let pxStateList := item_container (xStateListItem c) in
    let pxEventList := item_container (xEventListItem c) in
    mret (if decide (pxEventList = Some xPendingReadyList) then eReady
          else if decide (pxStateList = Some (pxDelayedTaskList s) ∨ pxStateList = Some (pxOverflowDelayedTaskList s))
          then eBlocked
          else if decide (pxStateList = Some xSuspendedTaskList) then
            match pxEventList with
            | None => if ucNotifyState c =? taskWAITING_NOTIFICATION then eBlocked else eSuspended
            | Some _ => eBlocked
            end
          else if decide (pxStateList = Some xTasksWaitingTermination ∨ pxStateList = None) then eDeleted
          else eReady).

Definition uxTaskPriorityGet (xTask : Z) : ST scheduler Z :=
  pxTCB ← prvGetTCBFromHandle xTask; c ← get_tcb pxTCB; mret (uxPriority c).
Definition uxTaskBasePriorityGet (xTask : Z) : ST scheduler Z :=
  pxTCB ← prvGetTCBFromHandle xTask; c ← get_tcb pxTCB; mret (uxBasePriority c).

Definition vTaskPrioritySet (xTask uxNewPriority : Z) : ST scheduler unit :=
  configASSERT (uxNewPriority <? configMAX_PRIORITIES);;
  let uxNewPriority := if configMAX_PRIORITIES <=? uxNewPriority then configMAX_PRIORITIES - 1 else uxNewPriority in
  pxTCB ← prvGetTCBFromHandle xTask;
  s ← gets id;
  c ← get_tcb pxTCB;
  let uxCurrentBasePriority := uxBasePriority c in
  if negb (uxCurrentBasePriority =? uxNewPriority) then
    xYieldRequired ← (
      if uxCurrentBasePriority <? uxNewPriority then
        if negb (pxTCB =? pxCurrentTCB s) then
          current ← current_tcb; mret (uxPriority current <? uxNewPriority)
        else mret false
      else mret (pxTCB =? pxCurrentTCB s));
    let uxPriorityUsedOnEntry := uxPriority c in
    (if (uxBasePriority c =? uxPriority c) || (uxPriority c <? uxNewPriority)
     then upd_tcb pxTCB (with_priority uxNewPriority) else mret tt);;
    upd_tcb pxTCB (with_base_priority uxNewPriority);;
    reset_event_value pxTCB uxNewPriority;;
    requeue pxTCB uxPriorityUsedOnEntry (mret tt);;
    if xYieldRequired : bool then taskYIELD_WITHIN_API else mret tt
  else mret tt.

(** ** Suspending and resuming a task *)

Definition vTaskSuspend (xTaskToSuspend : Z) : ST scheduler unit :=
  pxTCB ← prvGetTCBFromHandle xTaskToSuspend;
  uxListRemove StateItem pxTCB;;
  leave_event_list pxTCB;;
  listINSERT_END xSuspendedTaskList pxTCB;;
  c ← get_tcb pxTCB;
  (if ucNotifyState c =? taskWAITING_NOTIFICATION
   then upd_tcb pxTCB (with_notify_state taskNOT_WAITING_NOTIFICATION) else mret tt);;
  s ← gets id;
  (if xSchedulerRunning s then prvResetNextTaskUnblockTime else mret tt);;
  if pxTCB =? pxCurrentTCB s then
    if xSchedulerRunning s then
      configASSERT (uxSchedulerSuspended s =? 0);;
      taskYIELD_WITHIN_API
    else if len (z_items (lists s xSuspendedTaskList)) =? uxCurrentNumberOfTasks s
    then modify (set_current 0)
    else vTaskSwitchContext
  else mret tt.

Definition prvTaskIsTaskSuspended (xTask : Z) : ST scheduler bool :=
  configASSERT (negb (xTask =? 0));;
  c ← get_tcb xTask;
  mret (bool_decide (item_container (xStateListItem c) = Some xSuspendedTaskList) &&
        bool_decide (item_container (xEventListItem c) = None) &&
        negb (ucNotifyState c =? taskWAITING_NOTIFICATION)).

Definition vTaskResume (xTaskToResume : Z) : ST scheduler unit :=
  configASSERT (negb (xTaskToResume =? 0));;
  s ← gets id;
  if negb (xTaskToResume =? pxCurrentTCB s) && negb (xTaskToResume =? 0) then
    suspended ← prvTaskIsTaskSuspended xTaskToResume;
    if suspended : bool then
      uxListRemove StateItem xTaskToResume;;
      prvAddTaskToReadyList xTaskToResume;;
      taskYIELD_ANY_CORE_IF_USING_PREEMPTION xTaskToResume
    else mret tt
  else mret tt.

(** The pending ready list takes a task while the scheduler is suspended. *)
Definition make_ready (pxTCB : Z) : ST scheduler unit :=
  s ← gets id;
  if uxSchedulerSuspended s =? 0 then
    uxListRemove StateItem pxTCB;;
    prvAddTaskToReadyList pxTCB
  else listINSERT_END xPendingReadyList pxTCB.

Definition xTaskResumeFromISR (xTaskToResume : Z) : ST scheduler bool :=
  configASSERT (negb (xTaskToResume =? 0));;
  suspended ← prvTaskIsTaskSuspended xTaskToResume;
  if suspended : bool then
    s ← gets id;
    higher ← higher_than_current xTaskToResume;
    let xYieldRequired := (uxSchedulerSuspended s =? 0) && higher in
    (if xYieldRequired then modify (set_yield_pending true) else mret tt);;
    make_ready xTaskToResume;;
    mret xYieldRequired
  else mret false.

Definition xTaskAbortDelay (fuel : nat) (xTask : Z) : ST scheduler bool :=
  configASSERT (negb (xTask =? 0));;
  vTaskSuspendAll;;
  modify interrupts;;
  state ← eTaskGetState xTask;
  xReturn ← (
    match state with
    | eBlocked =>
        uxListRemove StateItem xTask;;
        modify interrupts;;
        event ← listLIST_ITEM_CONTAINER EventItem xTask;
        (match event with
         | Some _ => uxListRemove EventItem xTask;; upd_tcb xTask (with_delay_aborted true)
         | None => mret tt
         end);;
        prvAddTaskToReadyList xTask;;
        higher ← higher_than_current xTask;
        (if higher : bool then modify (set_yield_pending true) else mret tt);;
        mret true
    | _ => mret false
    end);
  modify interrupts;;
  xTaskResumeAll fuel;;
  mret xReturn.

(** ** Event lists *)

Definition vTaskPlaceOnEventList (pxEventList xTicksToWait : Z) : ST scheduler unit :=
  configASSERT (negb (pxEventList =? 0));;
  t ← gets pxCurrentTCB;
  vListInsert (EventList pxEventList) t;;
  prvAddCurrentTaskToDelayedList xTicksToWait true.

Definition vTaskPlaceOnUnorderedEventList (pxEventList xItemValue xTicksToWait : Z) : ST scheduler unit :=
  configASSERT (negb (pxEventList =? 0));;
  s ← gets id;
  configASSERT (negb (uxSchedulerSuspended s =? 0));;
  upd_tcb (pxCurrentTCB s) (with_value EventItem (Z.lor xItemValue taskEVENT_LIST_ITEM_VALUE_IN_USE));;
  listINSERT_END (EventList pxEventList) (pxCurrentTCB s);;
  prvAddCurrentTaskToDelayedList xTicksToWait true.

Definition vTaskPlaceOnEventListRestricted (pxEventList xTicksToWait : Z) (xWaitIndefinitely : bool) :
    ST scheduler unit :=
  configASSERT (negb (pxEventList =? 0));;
  t ← gets pxCurrentTCB;
  listINSERT_END (EventList pxEventList) t;;
  prvAddCurrentTaskToDelayedList (if xWaitIndefinitely then portMAX_DELAY else xTicksToWait) xWaitIndefinitely.

(** To the highest waiting task. *)
Definition xTaskRemoveFromEventList (pxEventList : Z) : ST scheduler bool :=
  pxUnblockedTCB ← listGET_OWNER_OF_HEAD_ENTRY (EventList pxEventList);
  configASSERT (negb (pxUnblockedTCB =? 0));;
  uxListRemove EventItem pxUnblockedTCB;;
  make_ready pxUnblockedTCB;;
  higher ← higher_than_current pxUnblockedTCB;
  if higher : bool then modify (set_yield_pending true);; mret true else mret false.

Definition vTaskRemoveFromUnorderedEventList (pxUnblockedTCB xItemValue : Z) : ST scheduler unit :=
  s ← gets id;
  configASSERT (negb (uxSchedulerSuspended s =? 0));;
  upd_tcb pxUnblockedTCB (with_value EventItem (Z.lor xItemValue taskEVENT_LIST_ITEM_VALUE_IN_USE));;
  uxListRemove EventItem pxUnblockedTCB;;
  uxListRemove StateItem pxUnblockedTCB;;
  prvAddTaskToReadyList pxUnblockedTCB;;
  higher ← higher_than_current pxUnblockedTCB;
  if higher : bool then modify (set_yield_pending true) else mret tt.

Definition uxTaskResetEventItemValue : ST scheduler Z :=
  t ← gets pxCurrentTCB;
  c ← get_tcb t;
  upd_tcb t (with_value EventItem (u32 (configMAX_PRIORITIES - uxPriority c)));;
  mret (item_value (xEventListItem c)).

(** ** Priority inheritance *)

Definition pvTaskIncrementMutexHeldCount : ST scheduler Z :=
  t ← gets pxCurrentTCB;
  (if negb (t =? 0) then upd_tcb t (λ c, with_mutexes_held (u32 (uxMutexesHeld c + 1)) c) else mret tt);;
  mret t.

Definition xTaskPriorityInherit (pxMutexHolder : Z) : ST scheduler bool :=
  if negb (pxMutexHolder =? 0) then
    holder ← get_tcb pxMutexHolder;
    current ← current_tcb;
    if uxPriority holder <? uxPriority current then
      reset_event_value pxMutexHolder (uxPriority current);;
      requeue pxMutexHolder (uxPriority holder) (upd_tcb pxMutexHolder (with_priority (uxPriority current)));;
      mret true
    else mret (uxBasePriority holder <? uxPriority current)
  else mret false.

Definition xTaskPriorityDisinherit (pxMutexHolder : Z) : ST scheduler bool :=
  if negb (pxMutexHolder =? 0) then
    t ← gets pxCurrentTCB;
    configASSERT (pxMutexHolder =? t);;
    c ← get_tcb pxMutexHolder;
    configASSERT (negb (uxMutexesHeld c =? 0));;
    upd_tcb pxMutexHolder (with_mutexes_held (u32 (uxMutexesHeld c - 1)));;
    if negb (uxPriority c =? uxBasePriority c) then
      if u32 (uxMutexesHeld c - 1) =? 0 then
        uxListRemove StateItem pxMutexHolder;;
        upd_tcb pxMutexHolder (with_priority (uxBasePriority c));;
        upd_tcb pxMutexHolder (with_value EventItem (u32 (configMAX_PRIORITIES - uxBasePriority c)));;
        prvAddTaskToReadyList pxMutexHolder;;
        mret true
      else mret false
    else mret false
  else mret false.

Definition vTaskPriorityDisinheritAfterTimeout (pxMutexHolder uxHighestPriorityWaitingTask : Z) :
    ST scheduler unit :=
  if negb (pxMutexHolder =? 0) then
    c ← get_tcb pxMutexHolder;
    configASSERT (negb (uxMutexesHeld c =? 0));;
    let uxPriorityToUse := if uxBasePriority c <? uxHighestPriorityWaitingTask then uxHighestPriorityWaitingTask
                           else uxBasePriority c in
    if negb (uxPriority c =? uxPriorityToUse) then
      if uxMutexesHeld c =? 1 then
        t ← gets pxCurrentTCB;
        configASSERT (negb (pxMutexHolder =? t));;
        let uxPriorityUsedOnEntry := uxPriority c in
        upd_tcb pxMutexHolder (with_priority uxPriorityToUse);;
        reset_event_value pxMutexHolder uxPriorityToUse;;
        requeue pxMutexHolder uxPriorityUsedOnEntry (mret tt)
      else mret tt
    else mret tt
  else mret tt.

(** ** Notifications

    [configTASK_NOTIFICATION_ARRAY_ENTRIES] is 1: a task has one notification. *)

(** The waiting part of the two functions that wait for a notification. *)
Definition wait_for_notification (fuel : nat) (no_notification : TCB_t → bool) (enter : TCB_t → TCB_t)
    (xTicksToWait : Z) : ST scheduler unit :=
  vTaskSuspendAll;;
  modify interrupts;;
  t ← gets pxCurrentTCB;
  c ← get_tcb t;
  xShouldBlock ← (
    if no_notification c then
      upd_tcb t enter;;
      upd_tcb t (with_notify_state taskWAITING_NOTIFICATION);;
      mret (0 <? xTicksToWait)
    else mret false);
  modify interrupts;;
  (if xShouldBlock : bool then prvAddCurrentTaskToDelayedList xTicksToWait true else mret tt);;
  modify interrupts;;
  xAlreadyYielded ← xTaskResumeAll fuel;
  (if xShouldBlock && negb xAlreadyYielded then taskYIELD_WITHIN_API else mret tt);;
  modify others.

(** The rest of them: what the task finds when it goes on. *)
Definition take_notification (xClearCountOnExit : bool) : ST scheduler Z :=
  t ← gets pxCurrentTCB;
  c ← get_tcb t;
  let ulReturn := ulNotifiedValue c in
  (if negb (ulReturn =? 0)
   then upd_tcb t (with_notified_value (if xClearCountOnExit then 0 else u32 (ulReturn - 1)))
   else mret tt);;
  upd_tcb t (with_notify_state taskNOT_WAITING_NOTIFICATION);;
  mret ulReturn.

(** The result and the notification value. *)
Definition receive_notification (ulBitsToClearOnExit : Z) : ST scheduler (bool * Z) :=
  t ← gets pxCurrentTCB;
  c ← get_tcb t;
  xReturn ← (
    if negb (ucNotifyState c =? taskNOTIFICATION_RECEIVED) then mret false
    else
      upd_tcb t (with_notified_value (Z.land (ulNotifiedValue c) (Z.lnot ulBitsToClearOnExit)));;
      mret true);
  upd_tcb t (with_notify_state taskNOT_WAITING_NOTIFICATION);;
  mret (xReturn, ulNotifiedValue c).

Definition ulTaskGenericNotifyTake (fuel : nat) (xClearCountOnExit : bool) (xTicksToWait : Z) :
    ST scheduler Z :=
  wait_for_notification fuel (λ c, ulNotifiedValue c =? 0) id xTicksToWait;;
  take_notification xClearCountOnExit.

Definition xTaskGenericNotifyWait (fuel : nat) (ulBitsToClearOnEntry ulBitsToClearOnExit xTicksToWait : Z) :
    ST scheduler (bool * Z) :=
  wait_for_notification fuel (λ c, negb (ucNotifyState c =? taskNOTIFICATION_RECEIVED))
    (λ c, with_notified_value (Z.land (ulNotifiedValue c) (Z.lnot ulBitsToClearOnEntry)) c) xTicksToWait;;
  receive_notification ulBitsToClearOnExit.

(** The notified value after an action, and whether it could be written. *)
Definition notified (eAction : eNotifyAction) (ulValue : Z) (c : TCB_t) : Z * bool :=
  match eAction with
  | eSetBits => (Z.lor (ulNotifiedValue c) ulValue, true)
  | eIncrement => (u32 (ulNotifiedValue c + 1), true)
  | eSetValueWithOverwrite => (ulValue, true)
  | eSetValueWithoutOverwrite =>
      if negb (ucNotifyState c =? taskNOTIFICATION_RECEIVED) then (ulValue, true) else (ulNotifiedValue c, false)
  | eNoAction => (ulNotifiedValue c, true)
  end.

(** The results are that of the call and the previous notification value. *)
Definition xTaskGenericNotify (xTaskToNotify ulValue : Z) (eAction : eNotifyAction) : ST scheduler (bool * Z) :=
  configASSERT (negb (xTaskToNotify =? 0));;
  c ← get_tcb xTaskToNotify;
  upd_tcb xTaskToNotify (with_notify_state taskNOTIFICATION_RECEIVED);;
  upd_tcb xTaskToNotify (with_notified_value (notified eAction ulValue c).1);;
  (if ucNotifyState c =? taskWAITING_NOTIFICATION then
     uxListRemove StateItem xTaskToNotify;;
     prvAddTaskToReadyList xTaskToNotify;;
     event ← listLIST_ITEM_CONTAINER EventItem xTaskToNotify;
     configASSERT (bool_decide (event = None));;
     taskYIELD_ANY_CORE_IF_USING_PREEMPTION xTaskToNotify
   else mret tt);;
  mret ((notified eAction ulValue c).2, ulNotifiedValue c).

(** From an interrupt: a higher task is reported and marked for a switch. *)
Definition notify_from_isr (xTaskToNotify : Z) (c : TCB_t) (pxHigherPriorityTaskWoken : option bool) :
    ST scheduler (option bool) :=
  if ucNotifyState c =? taskWAITING_NOTIFICATION then
    event ← listLIST_ITEM_CONTAINER EventItem xTaskToNotify;
    configASSERT (bool_decide (event = None));;
    make_ready xTaskToNotify;;
    higher ← higher_than_current xTaskToNotify;
    if higher : bool then
      modify (set_yield_pending true);;
      mret ((λ _, true) <$> pxHigherPriorityTaskWoken)
    else mret pxHigherPriorityTaskWoken
  else mret pxHigherPriorityTaskWoken.

Definition xTaskGenericNotifyFromISR (xTaskToNotify ulValue : Z) (eAction : eNotifyAction)
    (pxHigherPriorityTaskWoken : option bool) : ST scheduler (bool * Z * option bool) :=
  configASSERT (negb (xTaskToNotify =? 0));;
  c ← get_tcb xTaskToNotify;
  upd_tcb xTaskToNotify (with_notify_state taskNOTIFICATION_RECEIVED);;
  upd_tcb xTaskToNotify (with_notified_value (notified eAction ulValue c).1);;
  woken ← notify_from_isr xTaskToNotify c pxHigherPriorityTaskWoken;
  mret ((notified eAction ulValue c).2, ulNotifiedValue c, woken).

Definition vTaskGenericNotifyGiveFromISR (xTaskToNotify : Z) (pxHigherPriorityTaskWoken : option bool) :
    ST scheduler (option bool) :=
  configASSERT (negb (xTaskToNotify =? 0));;
  c ← get_tcb xTaskToNotify;
  upd_tcb xTaskToNotify (with_notify_state taskNOTIFICATION_RECEIVED);;
  upd_tcb xTaskToNotify (with_notified_value (u32 (ulNotifiedValue c + 1)));;
  notify_from_isr xTaskToNotify c pxHigherPriorityTaskWoken.

Definition xTaskGenericNotifyStateClear (xTask : Z) : ST scheduler bool :=
  pxTCB ← prvGetTCBFromHandle xTask;
  c ← get_tcb pxTCB;
  if ucNotifyState c =? taskNOTIFICATION_RECEIVED then
    upd_tcb pxTCB (with_notify_state taskNOT_WAITING_NOTIFICATION);;
    mret true
  else mret false.

Definition ulTaskGenericNotifyValueClear (xTask ulBitsToClear : Z) : ST scheduler Z :=
  pxTCB ← prvGetTCBFromHandle xTask;
  c ← get_tcb pxTCB;
  upd_tcb pxTCB (with_notified_value (Z.land (ulNotifiedValue c) (Z.lnot ulBitsToClear)));;
  mret (ulNotifiedValue c).

(** ** Starting the scheduler

    [idle] is the memory of the idle task; the timer task is made in
    [timers.c]. What [xPortStartScheduler] does is up to the port. *)
Definition vTaskStartScheduler (idle : option Z) (xTimerCreateTimerTask : ST scheduler bool) :
    ST scheduler unit :=
  xReturn ← xTaskCreate idle 0;
  xReturn ← (if xReturn : bool then xTimerCreateTimerTask else mret false);
  if xReturn : bool then
    modify (set_unblock_time portMAX_DELAY);;
    modify (set_running true);;
    modify (set_tick 0)
  else configASSERT false.
End operations.
