(* ===== verification/RtosSched.v ===== *)
(** * The scheduler's promises

    The invariant of the state of [RtosTasks] and what its operations do to it:
    which task runs, when a delayed task wakes, what a time-out is, and which
    priority the holder of a mutex has. *)

From Stdlib Require Import ZArith Lia.
From Stdlib Require Import Sorting.Sorted.
From stdpp Require Import functions gmap list.
From S2P Require Import Prelude RtosList RtosTasks.
Local Open Scope Z_scope.

(** ** The invariant *)

Abbreviation container k c := (item_container (list_item_of k c)).
Abbreviation state_of c := (item_container (xStateListItem c)).
Abbreviation wake_time c := (item_value (xStateListItem c)).

(** Lists and containers agree. *)
Record placed (s : scheduler) : Prop := {
  placed_nodup l : NoDup (z_items (lists s l));
  placed_member l t : t ∈ z_items (lists s l) ↔
    ∃ c, tcbs s !! t = Some c ∧ container (kind_of l) c = Some l;
  placed_kind t c k l : tcbs s !! t = Some c → container k c = Some l → kind_of l = k;
  placed_null : tcbs s !! 0 = None;
}.

(** A ready task is in the list of its priority. *)
Record prioritised (s : scheduler) : Prop := {
  priority_range t c : tcbs s !! t = Some c →
    0 <= uxPriority c < configMAX_PRIORITIES ∧ 0 <= uxBasePriority c <= uxPriority c;
  ready_priority t c p : tcbs s !! t = Some c → state_of c = Some (pxReadyTasksLists p) → p = uxPriority c;
  top_range : 0 <= uxTopReadyPriority s < configMAX_PRIORITIES;
  top_bound t c : tcbs s !! t = Some c → state_of c = Some (pxReadyTasksLists (uxPriority c)) →
    uxPriority c <= uxTopReadyPriority s;
}.

(** The delayed lists are in the order of the wake times, which lie ahead: in
    the current list from [due] on, in the other after the next overflow. *)
Record timed (due : Z) (s : scheduler) : Prop := {
  time_range : is_u32 (xTickCount s);
  time_lists : pxDelayedTaskList s = xDelayedTaskList1 ∧ pxOverflowDelayedTaskList s = xDelayedTaskList2 ∨
               pxDelayedTaskList s = xDelayedTaskList2 ∧ pxOverflowDelayedTaskList s = xDelayedTaskList1;
  time_sorted l : l = xDelayedTaskList1 ∨ l = xDelayedTaskList2 →
    StronglySorted (λ t u, value_in l s t <= value_in l s u) (z_items (lists s l));
  time_delayed t c : tcbs s !! t = Some c → state_of c = Some (pxDelayedTaskList s) →
    due <= wake_time c < 2 ^ 32;
  time_overflow t c : tcbs s !! t = Some c → state_of c = Some (pxOverflowDelayedTaskList s) →
    0 <= wake_time c < xTickCount s;
  time_unblock t c : tcbs s !! t = Some c → state_of c = Some (pxDelayedTaskList s) →
    xNextTaskUnblockTime s <= wake_time c;
}.

Record ok_from (due : Z) (s : scheduler) : Prop := {
  ok_placed : placed s;
  ok_prioritised : prioritised s;
  ok_timed : timed due s;
}.
Definition ok (s : scheduler) : Prop := ok_from (xTickCount s + 1) s.

(** ** The steps the operations are made of *)

Definition updated (t : Z) (c : TCB_t) (s : scheduler) : scheduler := set_tcbs (<[t := c]> (tcbs s)) s.
Definition removed (k : item_kind) (l : list_id) (t : Z) (c : TCB_t) (s : scheduler) : scheduler :=
  set_lists (<[l := z_remove t (lists s l)]> (lists s)) (updated t (with_container k None c) s).
Definition appended (l : list_id) (t : Z) (c : TCB_t) (s : scheduler) : scheduler :=
  set_lists (<[l := z_insert_end t (lists s l)]> (lists s)) (updated t (with_container (kind_of l) (Some l) c) s).
Definition inserted (l : list_id) (t : Z) (c : TCB_t) (s : scheduler) : scheduler :=
  let s' := updated t (with_container (kind_of l) (Some l) c) s in
  set_lists (<[l := z_insert (value_in l s') t (lists s l)]> (lists s)) s'.
(** In the ready list of its priority. *)
Definition readied (t : Z) (c : TCB_t) (s : scheduler) : scheduler :=
  appended (pxReadyTasksLists (uxPriority c)) t c (set_top (Z.max (uxTopReadyPriority s) (uxPriority c)) s).

Section steps.
Context {D : Prop}.

Lemma wp_get_tcb t c Q s : tcbs s !! t = Some c → Q c s → wp D (get_tcb t) Q s.
Proof. intros E HQ. apply wp_bind, wp_gets. rewrite E. by apply wp_ret. Qed.

Lemma wp_upd_tcb t c f Q s : tcbs s !! t = Some c → Q tt (updated t (f c) s) → wp D (upd_tcb t f) Q s.
Proof. intros E HQ. apply wp_bind. eapply wp_get_tcb; [done|]. by apply wp_modify. Qed.

Lemma wp_current_tcb c Q s : tcbs s !! pxCurrentTCB s = Some c → Q c s → wp D current_tcb Q s.
Proof. intros E HQ. apply wp_bind, wp_gets. by eapply wp_get_tcb. Qed.

Lemma wp_append l t c Q s : tcbs s !! t = Some c → Q tt (appended l t c s) → wp D (listINSERT_END l t) Q s.
Proof. intros E HQ. apply wp_bind. eapply wp_upd_tcb; [done|]. by apply wp_modify. Qed.

Lemma wp_insert l t c Q s : tcbs s !! t = Some c → Q tt (inserted l t c s) → wp D (vListInsert l t) Q s.
Proof. intros E HQ. apply wp_bind. eapply wp_upd_tcb; [done|]. by apply wp_modify. Qed.

Lemma wp_remove k l t c Q s : tcbs s !! t = Some c → container k c = Some l →
  (∀ n, Q n (removed k l t c s)) → wp D (uxListRemove k t) Q s.
Proof.
  intros E El HQ. apply wp_bind. eapply wp_get_tcb; [done|]. rewrite El.
  apply wp_bind. eapply wp_upd_tcb; [done|]. apply wp_bind, wp_modify. apply wp_bind, wp_gets, wp_ret. apply HQ.
Qed.

Lemma wp_container k t c Q s : tcbs s !! t = Some c → Q (container k c) s → wp D (listLIST_ITEM_CONTAINER k t) Q s.
Proof. intros E HQ. apply wp_bind. eapply wp_get_tcb; [done|]. by apply wp_ret. Qed.

Lemma wp_ready_list p Q s : 0 <= p < configMAX_PRIORITIES → Q (pxReadyTasksLists p) s → wp D (ready_list p) Q s.
Proof.
  intros Hp HQ. unfold ready_list. rewrite (proj2 (Z.leb_le _ _)), (proj2 (Z.ltb_lt _ _)) by lia. by apply wp_ret.
Qed.

Lemma wp_higher t c d Q s : tcbs s !! t = Some c → tcbs s !! pxCurrentTCB s = Some d →
  Q (uxPriority d <? uxPriority c) s → wp D (higher_than_current t) Q s.
Proof.
  intros E Ed HQ. apply wp_bind. eapply wp_get_tcb; [done|]. apply wp_bind. eapply wp_current_tcb; [done|]. by apply wp_ret.
Qed.

Lemma wp_add_ready t c Q s : tcbs s !! t = Some c → 0 <= uxPriority c < configMAX_PRIORITIES →
  Q tt (readied t c s) → wp D (prvAddTaskToReadyList t) Q s.
Proof.
  intros E Hp HQ. apply wp_bind. eapply wp_get_tcb; [done|]. apply wp_bind.
  assert (wp D (taskRECORD_READY_PRIORITY (uxPriority c))
    (λ _ s', s' = set_top (Z.max (uxTopReadyPriority s) (uxPriority c)) s) s) as Ht.
  { apply wp_bind, wp_gets. destruct (Z.ltb_spec (uxTopReadyPriority s) (uxPriority c)).
    - apply wp_modify. by rewrite Z.max_r by lia.
    - apply wp_ret. rewrite Z.max_l by lia. by destruct s. }
  eapply wp_mono; [exact Ht|]. intros _ s' ->. apply wp_bind. apply wp_ready_list; [done|].
  by eapply wp_append.
Qed.

Lemma wp_is_empty l Q s : Q (bool_decide (z_items (lists s l) = [])) s → wp D (listLIST_IS_EMPTY l) Q s.
Proof. intros HQ. apply wp_bind, wp_gets. by apply wp_ret. Qed.

Lemma wp_head l t ts Q s : z_items (lists s l) = t :: ts → Q t s → wp D (listGET_OWNER_OF_HEAD_ENTRY l) Q s.
Proof. intros E HQ. apply wp_bind, wp_gets. simpl. rewrite E. by apply wp_ret. Qed.

Lemma wp_assert asserts b Q s : b = true → Q tt s → wp D (configASSERT asserts b) Q s.
Proof. intros -> HQ. unfold configASSERT. rewrite andb_false_r. by apply wp_ret. Qed.
End steps.

(** ** The steps keep the invariant *)

Lemma container_same k l c : container k (with_container k l c) = l.
Proof. by destruct k. Qed.
Lemma container_other k k' l c : k ≠ k' → container k' (with_container k l c) = container k' c.
Proof. by destruct k, k'. Qed.

(** The fields that are not the item concerned. *)
Lemma with_container_fields k l c :
  item_value (list_item_of StateItem (with_container k l c)) = wake_time c ∧
  item_value (list_item_of EventItem (with_container k l c)) = item_value (xEventListItem c) ∧
  uxPriority (with_container k l c) = uxPriority c ∧ uxBasePriority (with_container k l c) = uxBasePriority c.
Proof. by destruct k. Qed.

Lemma lookup_updated t c s u : tcbs (updated t c s) !! u = if decide (u = t) then Some c else tcbs s !! u.
Proof.
  unfold updated. simpl. case_decide; subst; [by rewrite lookup_insert_eq|by rewrite lookup_insert_ne by done].
Qed.

Lemma placed_updated t c c' s : placed s → tcbs s !! t = Some c → (∀ k, container k c' = container k c) →
  placed (updated t c' s).
Proof.
  intros [H1 H2 H3 H4] E Hc. split; [exact H1| | |].
  - intros l u. change (lists (updated t c' s)) with (lists s). rewrite H2, lookup_updated.
    case_decide; subst; [|done].
    split; intros (d&Ed&Hd); simplify_eq.
    + exists c'. by rewrite Hc.
    + exists c. by rewrite <- Hc.
  - intros u d k l. rewrite lookup_updated. case_decide; subst; [intros [= <-]|by eapply H3].
    rewrite Hc. by eapply H3.
  - rewrite lookup_updated, decide_False; [done|]. intros <-. by rewrite H4 in E.
Qed.

Lemma placed_joined l t c z s : placed s → tcbs s !! t = Some c → container (kind_of l) c = None →
  z_items z ≡ₚ t :: z_items (lists s l) →
  placed (set_lists (<[l := z]> (lists s)) (updated t (with_container (kind_of l) (Some l) c) s)).
Proof.
  intros [H1 H2 H3 H4] E Hn Hz. assert (∀ l', kind_of l' = kind_of l → t ∉ z_items (lists s l')) as Ht.
  { intros l' Hk Hin. apply H2 in Hin as (d&Ed&Hd). rewrite Hk in Hd. by simplify_eq. }
  split.
  - intros l'. simpl. destruct (decide (l' = l)) as [->|Hl].
    + rewrite fn_lookup_insert, Hz. apply NoDup_cons. split; [by apply Ht|done].
    + by rewrite fn_lookup_insert_ne by done.
  - intros l' u. change (lists (set_lists ?x _)) with x. change (tcbs (set_lists _ ?x)) with (tcbs x).
    rewrite lookup_updated. destruct (decide (l' = l)) as [->|Hl].
    + rewrite fn_lookup_insert, Hz, elem_of_cons, H2. case_decide as Hu; subst.
      * split; [intros _; eexists; split; [done|apply container_same]|by left].
      * split; [by intros [?|?]|by right].
    + rewrite fn_lookup_insert_ne, H2 by done. case_decide as Hu; [subst u|done].
      split; intros (d&Ed&Hd); simplify_eq.
      * eexists. split; [done|]. destruct (decide (kind_of l = kind_of l')) as [Hk|Hk].
        -- rewrite Hk in Hn. rewrite Hn in Hd. done.
        -- by rewrite container_other.
      * exists c. split; [done|]. destruct (decide (kind_of l = kind_of l')) as [Hk|Hk].
        -- rewrite Hk, container_same in Hd. by injection Hd.
        -- by rewrite container_other in Hd.
  - intros u d k l'. change (tcbs (set_lists _ ?x)) with (tcbs x). rewrite lookup_updated. case_decide; [|by eapply H3].
    intros [= <-]. destruct (decide (kind_of l = k)) as [<-|Hk].
    + rewrite container_same. by intros [= <-].
    + rewrite container_other by done. by eapply H3.
  - simpl. rewrite lookup_insert_ne; [done|]. intros ->. by rewrite H4 in E.
Qed.

Lemma placed_appended l t c s : placed s → tcbs s !! t = Some c → container (kind_of l) c = None →
  placed (appended l t c s).
Proof. intros. apply placed_joined; [done..|]. apply z_items_insert_end. Qed.
Lemma placed_inserted l t c s : placed s → tcbs s !! t = Some c → container (kind_of l) c = None →
  placed (inserted l t c s).
Proof. intros. apply placed_joined; [done..|]. apply z_items_insert_perm. Qed.

Lemma placed_removed k l t c s : placed s → tcbs s !! t = Some c → container k c = Some l →
  placed (removed k l t c s).
Proof.
  intros [H1 H2 H3 H4] E Hl. assert (kind_of l = k) as Hk by by eapply H3. split.
  - intros l'. simpl. destruct (decide (l' = l)) as [->|?].
    + rewrite fn_lookup_insert, z_items_remove. by apply NoDup_filter.
    + by rewrite fn_lookup_insert_ne by done.
  - intros l' u. unfold removed. change (lists (set_lists ?x _)) with x. change (tcbs (set_lists _ ?x)) with (tcbs x).
    rewrite lookup_updated. destruct (decide (l' = l)) as [->|Hne].
    + rewrite fn_lookup_insert, z_items_remove, list_elem_of_filter, H2, Hk. case_decide as Hu; subst.
      * split; [by intros [? _]|]. intros (d&[= <-]&Hd). by rewrite container_same in Hd.
      * split; [by intros [_ ?]|done].
    + rewrite fn_lookup_insert_ne, H2 by done. case_decide as Hu; [subst u|done].
      split; intros (d&Ed&Hd); simplify_eq.
      * eexists. split; [done|]. rewrite container_other; [done|]. intros Heq.
        rewrite <- Heq, Hl in Hd. by injection Hd.
      * exists c. split; [done|]. destruct (decide (kind_of l = kind_of l')) as [Heq|Heq].
        -- by rewrite Heq, container_same in Hd.
        -- by rewrite container_other in Hd.
  - intros u d k' l'. change (tcbs (removed k l t c s)) with (tcbs (updated t (with_container k None c) s)).
    rewrite lookup_updated. case_decide; [|by eapply H3].
    intros [= <-]. destruct (decide (k = k')) as [<-|?].
    + by rewrite container_same.
    + rewrite container_other by done. by eapply H3.
  - simpl. rewrite lookup_insert_ne; [done|]. intros ->. by rewrite H4 in E.
Qed.

Lemma sorted_sublist {A} (R R' : A → A → Prop) xs ys :
  sublist xs ys → (∀ a b, a ∈ xs → b ∈ xs → R a b → R' a b) → StronglySorted R ys → StronglySorted R' xs.
Proof.
  intros Hs HR Hy. induction Hs as [|x xs ys Hs IH|x xs ys Hs IH]; [constructor|..];
    apply StronglySorted_inv in Hy as [Hy Hx].
  - constructor; [apply IH; [set_solver|done]|]. apply list.Forall_forall. intros b Hb. apply HR; [left|by right|].
    rewrite list.Forall_forall in Hx. apply Hx. by eapply elem_of_sublist.
  - by apply IH.
Qed.

Lemma prioritised_changed t c' s s' : prioritised s → tcbs s' = <[t := c']> (tcbs s) →
  uxTopReadyPriority s <= uxTopReadyPriority s' < configMAX_PRIORITIES →
  (0 <= uxPriority c' < configMAX_PRIORITIES ∧ 0 <= uxBasePriority c' <= uxPriority c') →
  (∀ p, state_of c' = Some (pxReadyTasksLists p) → p = uxPriority c' ∧ p <= uxTopReadyPriority s') →
  prioritised s'.
Proof.
  intros [H1 H2 H3 H4] E Ht Hr Hc. split.
  - intros u d. rewrite E. destruct (decide (u = t)) as [->|?].
    + rewrite lookup_insert_eq. by intros [= <-].
    + rewrite lookup_insert_ne by done. apply H1.
  - intros u d p. rewrite E. destruct (decide (u = t)) as [->|?].
    + rewrite lookup_insert_eq. intros [= <-]. intros Hp. by apply Hc in Hp as [? _].
    + rewrite lookup_insert_ne by done. apply H2.
  - lia.
  - intros u d. rewrite E. destruct (decide (u = t)) as [->|?].
    + rewrite lookup_insert_eq. intros [= <-]. intros Hp. by apply Hc in Hp as [_ ?].
    + rewrite lookup_insert_ne by done. intros Ed Hd. pose proof (H4 _ _ Ed Hd). lia.
Qed.

Definition is_delayed_list (l : list_id) : bool :=
  match l with xDelayedTaskList1 | xDelayedTaskList2 => true | _ => false end.

(** The clock: what the times of [timed] are relative to. *)
Definition clock (s : scheduler) :=
  (xTickCount s, pxDelayedTaskList s, pxOverflowDelayedTaskList s, xNextTaskUnblockTime s).

(** A change of one task that takes it out of the delayed lists, or leaves it
    where it is in them. *)
Lemma timed_changed due t c c' s s' : timed due s → placed s → tcbs s !! t = Some c →
  tcbs s' = <[t := c']> (tcbs s) → clock s' = clock s →
  (∀ l, is_delayed_list l = true → sublist (z_items (lists s' l)) (z_items (lists s l)) ∧
     (t ∈ z_items (lists s' l) → wake_time c' = wake_time c)) →
  (∀ l, state_of c' = Some l → is_delayed_list l = true → wake_time c' = wake_time c ∧ state_of c = Some l) →
  timed due s'.
Proof.
  intros [H1 H2 H3 H4 H5 H6] [_ P2 _ _] E E' [= Ec1 Ec2 Ec3 Ec4] Hl Hc.
  split; rewrite ?Ec1, ?Ec2, ?Ec3, ?Ec4; try done.
  - intros l Hd. assert (is_delayed_list l = true) as Hdl by by destruct Hd as [-> | ->].
    destruct (Hl l Hdl) as [Hsub Ht]. eapply sorted_sublist; [done| |by apply H3].
    intros a b Ha Hb. unfold value_in. rewrite E'.
    assert (∀ x, x ∈ z_items (lists s' l) →
      match <[t := c']> (tcbs s) !! x with Some c => item_value (list_item_of (kind_of l) c) | None => 0 end =
      match tcbs s !! x with Some c => item_value (list_item_of (kind_of l) c) | None => 0 end) as Hv.
    { intros x Hx. destruct (decide (x = t)) as [->|?].
      - rewrite lookup_insert_eq, E. specialize (Ht Hx). by destruct Hd as [-> | ->].
      - by rewrite lookup_insert_ne. }
    by rewrite !Hv.
  - intros u d. rewrite E'. destruct (decide (u = t)) as [->|?].
    + rewrite lookup_insert_eq. intros [= <-] Hd. destruct (Hc _ Hd) as [-> ?]; [by destruct H2 as [[-> _]|[-> _]]|].
      by apply (H4 t).
    + rewrite lookup_insert_ne by done. apply H4.
  - intros u d. rewrite E'. destruct (decide (u = t)) as [->|?].
    + rewrite lookup_insert_eq. intros [= <-] Hd. destruct (Hc _ Hd) as [-> ?]; [by destruct H2 as [[_ ->]|[_ ->]]|].
      by apply (H5 t).
    + rewrite lookup_insert_ne by done. apply H5.
  - intros u d. rewrite E'. destruct (decide (u = t)) as [->|?].
    + rewrite lookup_insert_eq. intros [= <-] Hd. destruct (Hc _ Hd) as [-> ?]; [by destruct H2 as [[-> _]|[-> _]]|].
      by apply (H6 t).
    + rewrite lookup_insert_ne by done. apply H6.
Qed.

Lemma delayed_distinct due s : timed due s → pxDelayedTaskList s ≠ pxOverflowDelayedTaskList s.
Proof. intros [_ [[-> ->]|[-> ->]] _ _ _ _]; done. Qed.

Lemma value_u32 due s l t : timed due s → placed s → 0 <= due → is_delayed_list l = true →
  t ∈ z_items (lists s l) → is_u32 (value_in l s t).
Proof.
  intros [H1 H2 _ H4 H5 _] [_ P2 _ _] Hdue Hl (c&E&Hc)%P2. unfold value_in. rewrite E.
  assert (kind_of l = StateItem) as Hk by by destruct l. rewrite Hk in *. simpl in *.
  assert (l = pxDelayedTaskList s ∨ l = pxOverflowDelayedTaskList s) as [-> | ->].
  { destruct H2 as [[-> ->]|[-> ->]]; destruct l; auto; done. }
  - pose proof (H4 _ _ E Hc). unfold is_u32. lia.
  - pose proof (H5 _ _ E Hc). unfold is_u32 in *. lia.
Qed.

Lemma timed_inserted due t c l s : timed due s → placed s → 0 <= due → tcbs s !! t = Some c → state_of c = None →
  is_delayed_list l = true → is_u32 (wake_time c) →
  (l = pxDelayedTaskList s → due <= wake_time c ∧ xNextTaskUnblockTime s <= wake_time c) →
  (l = pxOverflowDelayedTaskList s → wake_time c < xTickCount s) →
  timed due (inserted l t c s).
Proof.
  intros HT HP Hdue E Hn Hl Hu Hd Ho. pose proof HT as [H1 H2 H3 H4 H5 H6].
  set (s' := inserted l t c s). pose proof (placed_inserted l t c s HP E) as HP'.
  assert (kind_of l = StateItem) as Hk by by destruct l. rewrite Hk in HP'. specialize (HP' Hn).
  assert (tcbs s' = <[t := with_container StateItem (Some l) c]> (tcbs s)) as E'.
  { unfold s', inserted, updated. simpl. by rewrite Hk. }
  assert (∀ k x, x ≠ t → value_in k s' x = value_in k s x) as Hv.
  { intros k x Hx. unfold value_in. by rewrite E', lookup_insert_ne. }
  split; try done.
  - intros l' Hd'. assert (kind_of l' = StateItem) as Hk' by by destruct Hd' as [-> | ->].
    destruct (decide (l' = l)) as [->|Hne].
    + assert (lists s' l = z_insert (value_in l s') t (lists s l)) as ->.
      { unfold s' at 1, inserted. simpl. rewrite fn_lookup_insert. reflexivity. }
      rewrite z_items_insert. pose proof (place_app (value_in l s') (value_in l s' t) (z_items (lists s l))) as Happ.
      assert (t ∉ z_items (lists s l)) as Ht.
      { intros (c0&E0&Hc0)%(placed_member _ HP). rewrite Hk in Hc0. by simplify_eq/=. }
      destruct (place_bounds (value_in l s') (value_in l s' t) (z_items (lists s l))) as [Hx Hy].
      { apply list.Forall_forall. intros x Hx. rewrite Hv by (intros ->; done).
        by apply (value_u32 due). }
      destruct (place _ _ _) as [xs ys]. simpl in *. apply sorted_middle; [done..|]. rewrite Happ.
      eapply sorted_sublist; [reflexivity| |by apply H3]. intros a b Ha Hb. simpl.
      rewrite !Hv; [done|by intros ->..].
    + assert (lists s' l' = lists s l') as ->.
      { unfold s', inserted. simpl. by rewrite fn_lookup_insert_ne by done. }
      eapply sorted_sublist; [reflexivity| |by apply H3]. intros a b Ha Hb. simpl.
      assert (∀ x, x ∈ z_items (lists s l') → x ≠ t) as Hx.
      { intros x (c0&E0&Hc0)%(placed_member _ HP) ->. rewrite Hk' in Hc0. by simplify_eq/=. }
      rewrite !Hv by auto. done.
  - intros u d. rewrite E'. destruct (decide (u = t)) as [->|?].
    + rewrite lookup_insert_eq. intros [= <-] [= ->]. simpl. destruct (Hd eq_refl). unfold is_u32 in Hu. lia.
    + rewrite lookup_insert_ne by done. apply H4.
  - intros u d. rewrite E'. destruct (decide (u = t)) as [->|?].
    + rewrite lookup_insert_eq. intros [= <-] [= ->]. simpl. specialize (Ho eq_refl). unfold is_u32 in Hu. lia.
    + rewrite lookup_insert_ne by done. apply H5.
  - intros u d. rewrite E'. destruct (decide (u = t)) as [->|?].
    + rewrite lookup_insert_eq. intros [= <-] [= ->]. simpl. by destruct (Hd eq_refl).
    + rewrite lookup_insert_ne by done. apply H6.
Qed.

Lemma ok_updated due t c c' s : ok_from due s → tcbs s !! t = Some c → (∀ k, container k c' = container k c) →
  wake_time c' = wake_time c → uxPriority c' = uxPriority c → 0 <= uxBasePriority c' <= uxPriority c' →
  ok_from due (updated t c' s).
Proof.
  intros [HP HR HT] E Hc Hw Hp Hb. pose proof (Hc StateItem) as Hs. simpl in Hs. split.
  - by eapply placed_updated.
  - apply (prioritised_changed t c' s); [done|done|pose proof (top_range _ HR); simpl; lia| |].
    + rewrite Hp. pose proof (priority_range _ HR _ _ E). lia.
    + intros p Hsp. rewrite Hs in Hsp. pose proof (ready_priority _ HR _ _ _ E Hsp) as ->.
      rewrite Hp. split; [done|]. by apply (top_bound _ HR t c).
  - apply (timed_changed due t c c' s); try done.
    intros l Hl Hd. by rewrite Hs in Hl.
Qed.

Lemma ok_removed due k l t c s : ok_from due s → tcbs s !! t = Some c → container k c = Some l →
  ok_from due (removed k l t c s).
Proof.
  intros [HP HR HT] E Hl. destruct (with_container_fields k None c) as (Ew&_&Ep&Eb). simpl in Ew.
  pose proof (placed_kind _ HP _ _ _ _ E Hl) as Hk. pose proof (placed_removed k l t c s HP E Hl) as HP'.
  split; [done|..].
  - apply (prioritised_changed t (with_container k None c) s); [done|done|pose proof (top_range _ HR); simpl; lia| |].
    + rewrite Ep, Eb. by eapply priority_range.
    + intros p Hsp. destruct k; [done|]. simpl in Hsp. pose proof (ready_priority _ HR _ _ _ E Hsp) as ->.
      split; [done|]. by apply (top_bound _ HR t c).
  - apply (timed_changed due t c (with_container k None c) s); try done.
    + intros l' Hd. split; [|by rewrite Ew]. unfold removed. simpl. destruct (decide (l' = l)) as [->|?].
      * rewrite fn_lookup_insert, z_items_remove. apply sublist_filter.
      * by rewrite fn_lookup_insert_ne.
    + intros l' Hl' Hd. rewrite Ew. split; [done|]. by destruct k.
Qed.

(** Into a list that is neither a ready nor a delayed list. *)
Lemma ok_appended due l t c s : ok_from due s → tcbs s !! t = Some c → container (kind_of l) c = None →
  is_delayed_list l = false → (∀ p, l ≠ pxReadyTasksLists p) → ok_from due (appended l t c s).
Proof.
  intros [HP HR HT] E Hn Hd Hr. destruct (with_container_fields (kind_of l) (Some l) c) as (Ew&_&Ep&Eb). simpl in Ew.
  split; [by apply placed_appended|..].
  - apply (prioritised_changed t (with_container (kind_of l) (Some l) c) s); [done|done|pose proof (top_range _ HR); simpl; lia| |].
    + rewrite Ep, Eb. by eapply priority_range.
    + intros p. destruct (kind_of l) eqn:Hk; simpl; [intros [= Hl]; by destruct (Hr p)|].
      intros Hsp. pose proof (ready_priority _ HR _ _ _ E Hsp) as ->. split; [done|]. by apply (top_bound _ HR t c).
  - apply (timed_changed due t c (with_container (kind_of l) (Some l) c) s); try done.
    + intros l' Hd'. split; [|by rewrite Ew]. unfold appended. simpl. by rewrite fn_lookup_insert_ne by (intros ->; congruence).
    + intros l' Hl' Hd'. rewrite Ew. split; [done|].
      destruct (kind_of l) eqn:Hk; simpl in Hl'; [|done]. injection Hl' as <-. congruence.
Qed.

Lemma ok_readied due t c s : ok_from due s → tcbs s !! t = Some c → state_of c = None → ok_from due (readied t c s).
Proof.
  intros [HP HR HT] E Hn. pose proof (priority_range _ HR _ _ E) as [Hp Hb]. pose proof (top_range _ HR).
  split.
  - apply (placed_appended (pxReadyTasksLists (uxPriority c)) t c (set_top (Z.max (uxTopReadyPriority s) (uxPriority c)) s)); [|done..].
    by destruct HP.
  - apply (prioritised_changed t (with_container StateItem (Some (pxReadyTasksLists (uxPriority c))) c) s);
      [done|done|simpl; lia|done|].
    intros p [= <-]. simpl. split; [done|lia].
  - apply (timed_changed due t c (with_container StateItem (Some (pxReadyTasksLists (uxPriority c))) c) s); try done.
    + intros l' Hd'. split; [|done]. unfold readied, appended. simpl. by rewrite fn_lookup_insert_ne by (intros <-; done).
    + intros l' [= <-] Hd'. done.
Qed.

Lemma ok_inserted due t c l s : ok_from due s → 0 <= due → tcbs s !! t = Some c → state_of c = None →
  is_delayed_list l = true → is_u32 (wake_time c) →
  (l = pxDelayedTaskList s → due <= wake_time c ∧ xNextTaskUnblockTime s <= wake_time c) →
  (l = pxOverflowDelayedTaskList s → wake_time c < xTickCount s) →
  ok_from due (inserted l t c s).
Proof.
  intros [HP HR HT] Hdue E Hn Hl Hu Hd Ho. assert (kind_of l = StateItem) as Hk by by destruct l. split.
  - apply placed_inserted; [done|done|]. by rewrite Hk.
  - apply (prioritised_changed t (with_container StateItem (Some l) c) s); [done| |pose proof (top_range _ HR); simpl; lia| |].
    + unfold inserted. simpl. by rewrite Hk.
    + simpl. by eapply priority_range.
    + intros p [= Hlp]. subst l. simpl in Hl. done.
  - by apply timed_inserted.
Qed.

(** ** Waking a task *)

(** All the variables but the control blocks, the lists, and what is derived from them. *)
Definition frame (s : scheduler) :=
  (pxCurrentTCB s, pxDelayedTaskList s, pxOverflowDelayedTaskList s, uxCurrentNumberOfTasks s, xTickCount s,
   xSchedulerRunning s, xPendedTicks s, xYieldPending s, xNumOfOverflows s, uxSchedulerSuspended s, pendsv s).

Lemma frame_inv s s' : frame s' = frame s →
  pxCurrentTCB s' = pxCurrentTCB s ∧ pxDelayedTaskList s' = pxDelayedTaskList s ∧
  pxOverflowDelayedTaskList s' = pxOverflowDelayedTaskList s ∧ uxCurrentNumberOfTasks s' = uxCurrentNumberOfTasks s ∧
  xTickCount s' = xTickCount s ∧ xSchedulerRunning s' = xSchedulerRunning s ∧ xPendedTicks s' = xPendedTicks s ∧
  xYieldPending s' = xYieldPending s ∧ xNumOfOverflows s' = xNumOfOverflows s ∧
  uxSchedulerSuspended s' = uxSchedulerSuspended s ∧ pendsv s' = pendsv s.
Proof. by intros [= -> -> -> -> -> -> -> -> -> -> ->]. Qed.

Definition left_event (t : Z) (c : TCB_t) (s : scheduler) : scheduler :=
  match container EventItem c with Some l => removed EventItem l t c s | None => s end.

Lemma container_id k c : with_container k (container k c) c = c.
Proof. by destruct k, c as [[] []]. Qed.

Lemma tcbs_left_event t c s : tcbs s !! t = Some c →
  tcbs (left_event t c s) = <[t := with_container EventItem None c]> (tcbs s).
Proof.
  intros E. unfold left_event. destruct (container EventItem c) as [l|] eqn:El; [done|].
  rewrite <- El, container_id. by rewrite insert_id.
Qed.

Lemma wp_leave_event {D} t c Q s : tcbs s !! t = Some c → Q tt (left_event t c s) → wp D (leave_event_list t) Q s.
Proof.
  intros E HQ. apply wp_bind. eapply wp_container; [done|]. unfold left_event in HQ.
  destruct (container EventItem c) as [l|] eqn:El; [|by apply wp_ret].
  apply wp_bind. eapply wp_remove; [done|done|]. intros n. by apply wp_ret.
Qed.

Lemma ok_left_event due t c s : ok_from due s → tcbs s !! t = Some c → ok_from due (left_event t c s).
Proof. intros H E. unfold left_event. destruct (container EventItem c) eqn:El; [by apply ok_removed|done]. Qed.

(** A task after it has been woken by the clock. *)
Definition woken (c : TCB_t) : TCB_t :=
  with_container StateItem (Some (pxReadyTasksLists (uxPriority c))) (with_container EventItem None c).

Definition wake (t : Z) (l : list_id) (c : TCB_t) (s : scheduler) : scheduler :=
  let c1 := with_container StateItem None c in
  readied t (with_container EventItem None c1) (left_event t c1 (removed StateItem l t c s)).

Lemma tcbs_wake t l c s : tcbs (wake t l c s) = <[t := woken c]> (tcbs s).
Proof.
  unfold wake, readied, appended, updated. simpl. rewrite tcbs_left_event.
  - unfold removed, updated. simpl. rewrite !insert_insert_eq. done.
  - unfold removed, updated. simpl. by rewrite lookup_insert_eq.
Qed.

Lemma frame_wake t l c s : frame (wake t l c s) = frame s ∧ xNextTaskUnblockTime (wake t l c s) = xNextTaskUnblockTime s.
Proof. unfold wake, left_event. by destruct (container EventItem _). Qed.

Lemma lists_wake t l c s l' : placed s → tcbs s !! t = Some c → state_of c = Some l → is_delayed_list l' = true →
  z_items (lists (wake t l c s) l') = filter (λ u, u ≠ t) (z_items (lists s l')).
Proof.
  intros HP E Hl Hd. assert (∀ l0, kind_of l0 = EventItem → l' ≠ l0) as Hne by (intros l0 H0 ->; by destruct l0).
  assert (z_items (lists (removed StateItem l t c s) l') = filter (λ u, u ≠ t) (z_items (lists s l'))) as Hr.
  { unfold removed. simpl. destruct (decide (l' = l)) as [->|?].
    - by rewrite fn_lookup_insert, z_items_remove.
    - rewrite fn_lookup_insert_ne by done. rewrite filter_absent; [done|].
      intros (c0&E0&H0)%(placed_member _ HP). simplify_eq. destruct l'; simpl in *; simplify_eq. }
  rewrite <- Hr. unfold wake, readied, appended. simpl. rewrite fn_lookup_insert_ne by (intros <-; done).
  unfold left_event. destruct (container EventItem _) as [l0|] eqn:E0; [|done].
  unfold removed at 1. simpl. rewrite fn_lookup_insert_ne; [done|]. intros <-.
  eapply Hne; [|reflexivity]. by eapply (placed_kind _ HP t c EventItem).
Qed.

Lemma wp_wake {D} {A} t l c (k : ST scheduler A) Q due s : ok_from due s → tcbs s !! t = Some c → state_of c = Some l →
  wp D k Q (wake t l c s) →
  wp D (uxListRemove StateItem t;; leave_event_list t;; prvAddTaskToReadyList t;; k) Q s.
Proof.
  intros Hok E Hl Hk. apply wp_bind. eapply wp_remove; [done|done|]. intros n.
  apply wp_bind. eapply wp_leave_event; [apply lookup_insert_eq|].
  apply wp_bind. apply (wp_add_ready _ (with_container EventItem None (with_container StateItem None c)));
    [|exact (proj1 (priority_range _ (ok_prioritised _ _ Hok) _ _ E))|exact Hk].
  rewrite tcbs_left_event; apply lookup_insert_eq.
Qed.

Lemma ok_wake due t l c s : ok_from due s → tcbs s !! t = Some c → state_of c = Some l → ok_from due (wake t l c s).
Proof.
  intros Hok E Hl. unfold wake. apply ok_readied.
  - apply ok_left_event; [|apply lookup_insert_eq]. by apply ok_removed.
  - rewrite tcbs_left_event; apply lookup_insert_eq.
  - by destruct c as [[] []].
Qed.

(** ** The clock *)

Definition is_due (s : scheduler) (now : Z) (c : TCB_t) : bool :=
  bool_decide (state_of c = Some (pxDelayedTaskList s)) && (wake_time c <=? now).
Definition wake_due (s : scheduler) (now : Z) (c : TCB_t) : TCB_t := if is_due s now c then woken c else c.

(** A task that is due has a higher priority than the current one. *)
Definition preempts (s : scheduler) (now p : Z) : Prop :=
  ∃ t c, tcbs s !! t = Some c ∧ is_due s now c = true ∧ p < uxPriority c.

Lemma is_due_woken s now c due : timed due s → is_due s now (woken c) = false.
Proof.
  intros HT. unfold is_due. rewrite bool_decide_false; [done|]. simpl. by destruct (time_lists _ _ HT) as [[-> _]|[-> _]].
Qed.

(** Nothing is due when the first of the list is not. *)
Lemma none_due due s now t ts c : timed due s → placed s → tcbs s !! t = Some c →
  z_items (lists s (pxDelayedTaskList s)) = t :: ts → now < wake_time c →
  ∀ u d, tcbs s !! u = Some d → state_of d = Some (pxDelayedTaskList s) → wake_time c <= wake_time d.
Proof.
  intros HT HP E Hz Hnow u d Ed Hd.
  assert (kind_of (pxDelayedTaskList s) = StateItem) as Hk by by destruct (time_lists _ _ HT) as [[-> _]|[-> _]].
  assert (u ∈ t :: ts) as Hu.
  { rewrite <- Hz. apply (placed_member _ HP). exists d. by rewrite Hk. }
  assert (StronglySorted (λ t u, value_in (pxDelayedTaskList s) s t <= value_in (pxDelayedTaskList s) s u) (t :: ts)) as Hs.
  { rewrite <- Hz. apply (time_sorted _ _ HT). destruct (time_lists _ _ HT) as [[-> _]|[-> _]]; auto. }
  apply elem_of_cons in Hu as [->|Hu]; [simplify_eq; lia|]. apply StronglySorted_inv in Hs as [_ Hs].
  rewrite list.Forall_forall in Hs. specialize (Hs _ Hu). unfold value_in in Hs. by rewrite E, Ed, Hk in Hs.
Qed.

Lemma timed_later due due' s v : timed due s → (∀ t c, tcbs s !! t = Some c → state_of c = Some (pxDelayedTaskList s) →
  due' <= wake_time c ∧ v <= wake_time c) → timed due' (set_unblock_time v s).
Proof.
  intros [H1 H2 H3 H4 H5 H6] Hd. split; simpl; try done.
  - intros t c E Hc. pose proof (H4 _ _ E Hc). destruct (Hd _ _ E Hc). lia.
  - intros t c E Hc. by destruct (Hd _ _ E Hc).
Qed.

Lemma ok_later due due' s v : ok_from due s → (∀ t c, tcbs s !! t = Some c → state_of c = Some (pxDelayedTaskList s) →
  due' <= wake_time c ∧ v <= wake_time c) → ok_from due' (set_unblock_time v s).
Proof. intros [HP HR HT] Hd. split; [by destruct HP|by destruct HR|by eapply timed_later]. Qed.

Lemma unblock_spec fuel now sw s cur : ok_from now s →
  (length (z_items (lists s (pxDelayedTaskList s))) < fuel)%nat → tcbs s !! pxCurrentTCB s = Some cur →
  wp False (unblock_tasks fuel now sw) (λ r s', ok_from (now + 1) s' ∧ frame s' = frame s ∧
    tcbs s' = wake_due s now <$> tcbs s ∧ (r = true ↔ sw = true ∨ preempts s now (uxPriority cur))) s.
Proof.
  revert sw s cur. induction fuel as [|fuel IH]; intros sw s cur Hok Hf Hcur; [lia|].
  pose proof Hok as [HP HR HT]. set (dl := pxDelayedTaskList s) in *.
  assert (kind_of dl = StateItem ∧ is_delayed_list dl = true) as [Hk Hdl]
    by (unfold dl; by destruct (time_lists _ _ HT) as [[-> _]|[-> _]]).
  assert (∀ u d, tcbs s !! u = Some d → state_of d = Some dl → u ∈ z_items (lists s dl)) as Hin.
  { intros u d Ed Hd. apply (placed_member _ HP). exists d. by rewrite Hk. }
  assert (∀ v, (∀ u d, tcbs s !! u = Some d → state_of d = Some dl → now + 1 <= wake_time d ∧ v <= wake_time d) →
    ok_from (now + 1) (set_unblock_time v s) ∧ frame (set_unblock_time v s) = frame s ∧
    tcbs (set_unblock_time v s) = wake_due s now <$> tcbs s ∧ (sw = true ↔ sw = true ∨ preempts s now (uxPriority cur))) as Hend.
  { intros v Hv. assert (∀ u d, tcbs s !! u = Some d → is_due s now d = false) as Hnd.
    { intros u d Ed. unfold is_due. destruct (bool_decide_reflect (state_of d = Some (pxDelayedTaskList s))) as [Hd|]; [|done].
      destruct (Hv _ _ Ed Hd). apply Z.leb_gt. lia. }
    split_and!; [by eapply ok_later|done| |].
    - simpl. apply map_eq. intros u. rewrite lookup_fmap. destruct (tcbs s !! u) as [d|] eqn:Ed; [|done].
      simpl. unfold wake_due. by rewrite (Hnd _ _ Ed).
    - split; [by left|]. intros [?|(u&d&Ed&Hd&_)]; [done|]. by rewrite (Hnd _ _ Ed) in Hd. }
  cbn [unblock_tasks]. apply wp_bind, wp_gets. change (id s) with s. apply wp_bind, wp_is_empty. fold dl.
  case_bool_decide as Hempty.
  - apply wp_bind, wp_modify, wp_ret. apply Hend. intros u d Ed Hd. exfalso.
    pose proof (Hin _ _ Ed Hd) as Hx. rewrite Hempty in Hx. set_solver.
  - destruct (z_items (lists s dl)) as [|t ts] eqn:Hz; [done|].
    apply wp_bind. eapply wp_head; [exact Hz|].
    assert (t ∈ z_items (lists s dl)) as (c&E&Hc)%(placed_member _ HP) by (rewrite Hz; left). rewrite Hk in Hc. simpl in Hc.
    apply wp_bind. eapply wp_get_tcb; [done|]. destruct (Z.ltb_spec now (wake_time c)) as [Hlt|Hge].
    + apply wp_bind, wp_modify, wp_ret. apply Hend. intros u d Ed Hd.
      pose proof (none_due _ _ now t ts c HT HP E Hz Hlt u d Ed Hd). lia.
    + eapply wp_wake; [exact Hok|done..|]. pose proof (frame_wake t dl c s) as [Hfr _]. pose proof (frame_inv _ _ Hfr) as (F1&F2&_).
      assert (tcbs (wake t dl c s) !! pxCurrentTCB s = Some (if decide (pxCurrentTCB s = t) then woken c else cur)) as Hcur'.
      { rewrite tcbs_wake. case_decide as Ht; [by rewrite Ht, lookup_insert_eq|by rewrite lookup_insert_ne]. }
      assert (uxPriority (if decide (pxCurrentTCB s = t) then woken c else cur) = uxPriority cur) as Hpr.
      { case_decide; [|done]. subst t. by simplify_eq. }
      apply wp_bind. eapply (wp_higher t (woken c)); [by rewrite tcbs_wake, lookup_insert_eq|by rewrite F1|].
      rewrite Hpr. change (uxPriority (woken c)) with (uxPriority c).
      eapply wp_mono; [eapply IH|].
      * by apply ok_wake.
      * rewrite F2. fold dl. rewrite (lists_wake t dl c s dl) by done. rewrite Hz.
        pose proof (placed_nodup _ HP dl) as Hnd. rewrite Hz in Hnd. apply NoDup_cons in Hnd as [Hnt _].
        rewrite filter_cons_False, filter_absent by auto. simpl in Hf. lia.
      * rewrite F1. exact Hcur'.
      * rewrite Hpr. intros r s' (Hok'&Hfr'&Ht'&Hr'). split; [done|]. split; [by rewrite Hfr'|].
        assert (∀ d, is_due (wake t dl c s) now d = is_due s now d) as Hd by (intros d; unfold is_due; by rewrite F2).
        assert (is_due s now c = true) as Hdc.
        { unfold is_due. fold dl. rewrite bool_decide_true by done. by apply Z.leb_le. }
        split.
        -- rewrite Ht', tcbs_wake, fmap_insert. unfold wake_due at 1. rewrite Hd, (is_due_woken _ _ _ _ HT).
           apply map_eq. intros u. destruct (decide (u = t)) as [->|?].
           ++ rewrite lookup_insert_eq, lookup_fmap, E. simpl. unfold wake_due. by rewrite Hdc.
           ++ rewrite lookup_insert_ne, !lookup_fmap by done. destruct (tcbs s !! u); [|done]. simpl.
              unfold wake_due. by rewrite Hd.
        -- rewrite Hr'. unfold preempts. setoid_rewrite Hd. rewrite tcbs_wake. split.
           ++ intros [[->|Hlt]%orb_true_iff|(u&d&Ed&Hdd&Hp)]; [by left|right|right].
              ** exists t, c. split_and!; [done|done|]. by apply Z.ltb_lt.
              ** exists u, d. destruct (decide (u = t)) as [->|?].
                 --- rewrite lookup_insert_eq in Ed. injection Ed as <-. by rewrite (is_due_woken _ _ _ _ HT) in Hdd.
                 --- by rewrite lookup_insert_ne in Ed.
           ++ intros [->|(u&d&Ed&Hdd&Hp)]; [by left|]. destruct (decide (u = t)) as [->|?].
              ** left. simplify_eq. apply orb_true_iff. right. by apply Z.ltb_lt.
              ** right. exists u, d. by rewrite lookup_insert_ne.
Qed.

Lemma wp_reset_unblock {D} due u Q s : ok_from due (set_unblock_time u s) →
  (∀ v, ok_from due (set_unblock_time v s) → Q tt (set_unblock_time v s)) → wp D prvResetNextTaskUnblockTime Q s.
Proof.
  intros Hok HQ. pose proof Hok as [HP HR HT].
  assert (∀ v, (∀ t c, tcbs s !! t = Some c → state_of c = Some (pxDelayedTaskList s) → v <= wake_time c) →
    ok_from due (set_unblock_time v s)) as Hv.
  { intros v Hv. change (set_unblock_time v s) with (set_unblock_time v (set_unblock_time u s)).
    eapply ok_later; [exact Hok|]. intros t c E Hc. split; [by eapply (time_delayed _ _ HT)|by apply (Hv t)]. }
  assert (kind_of (pxDelayedTaskList s) = StateItem) as Hk by by destruct (time_lists _ _ HT) as [[H _]|[H _]]; simpl in H; rewrite H.
  apply wp_bind, wp_gets. change (id s) with s. apply wp_bind, wp_is_empty. case_bool_decide as Hempty.
  - apply wp_modify, HQ, Hv. intros t c E Hc. exfalso.
    assert (t ∈ z_items (lists s (pxDelayedTaskList s))) as Ht.
    { apply (placed_member _ HP). exists c. by rewrite Hk. }
    rewrite Hempty in Ht. set_solver.
  - destruct (z_items (lists s (pxDelayedTaskList s))) as [|t ts] eqn:Hz; [done|].
    apply wp_bind. eapply wp_head; [exact Hz|].
    assert (t ∈ z_items (lists s (pxDelayedTaskList s))) as (c&E&Hc)%(placed_member _ HP) by (rewrite Hz; left).
    apply wp_bind. eapply wp_get_tcb; [exact E|]. apply wp_modify, HQ, Hv. intros u' d Ed Hd.
    eapply (none_due due (set_unblock_time u s) (wake_time c - 1) t ts); try done. lia.
Qed.

(** The state when the clock has advanced, before anything is woken. *)
Definition ticked (s : scheduler) : scheduler :=
  let now := u32 (xTickCount s + 1) in
  if now =? 0 then
    set_overflows (u32 (xNumOfOverflows s + 1)) (set_overflow_list (pxDelayedTaskList s)
      (set_delayed_list (pxOverflowDelayedTaskList s) (set_tick now s)))
  else set_tick now s.

Lemma tick_succ s due : timed due s → u32 (xTickCount s + 1) = 0 ∧ xTickCount s = 2 ^ 32 - 1 ∨
  u32 (xTickCount s + 1) = xTickCount s + 1 ∧ xTickCount s + 1 < 2 ^ 32.
Proof.
  intros HT. pose proof (time_range _ _ HT) as Ht. unfold is_u32, u32 in *.
  destruct (Z.eq_dec (xTickCount s) (2 ^ 32 - 1)) as [->|?]; [by left|right]. rewrite Z.mod_small by lia. lia.
Qed.

(** At the end of time the list of the delayed tasks is empty. *)
Lemma no_delayed s : ok s → xTickCount s = 2 ^ 32 - 1 → ∀ t c, tcbs s !! t = Some c → state_of c ≠ Some (pxDelayedTaskList s).
Proof. intros [HP HR HT] Ht t c E Hc. pose proof (time_delayed _ _ HT _ _ E Hc). lia. Qed.

Lemma wp_tick_lists {D} asserts Q s : ok s → let now := u32 (xTickCount s + 1) in
  (∀ v, ok_from now (set_unblock_time v (ticked s)) → Q tt (set_unblock_time v (ticked s))) →
  wp D (if now =? 0 then taskSWITCH_DELAYED_LISTS asserts else mret tt) Q (set_tick now s).
Proof.
  intros Hok now HQ. pose proof Hok as [HP HR HT]. unfold ticked in HQ. fold now in HQ.
  destruct (tick_succ _ _ HT) as [[Hn Ht]|[Hn Ht]]; fold now in Hn.
  - rewrite Hn in HQ |- *. simpl in HQ |- *. pose proof (no_delayed s Hok Ht) as Hnd.
    assert (kind_of (pxDelayedTaskList s) = StateItem) as Hk by by destruct (time_lists _ _ HT) as [[-> _]|[-> _]].
    apply wp_bind, wp_gets. change (id ?x) with x. apply wp_bind, wp_is_empty.
    apply wp_bind. apply wp_assert.
    { apply bool_decide_true. simpl. apply elem_of_nil_inv. intros t (c&E&Hc)%(placed_member _ HP).
      rewrite Hk in Hc. by eapply Hnd. }
    do 3 apply wp_bind, wp_modify. simpl. apply (wp_reset_unblock 0 0); [|exact HQ].
    split; [by destruct HP|by destruct HR|]. destruct HT as [H1 H2 H3 H4 H5 H6]. split; simpl; try done.
    + tauto.
    + intros t c E Hc. pose proof (H5 _ _ E Hc). lia.
    + intros t c E Hc. exfalso. by eapply Hnd.
    + intros t c E Hc. by destruct (H5 _ _ E Hc).
  - rewrite (proj2 (Z.eqb_neq _ _)) in HQ |- * by (pose proof (time_range _ _ HT); unfold is_u32 in *; lia).
    apply wp_ret. assert (set_tick now s = set_unblock_time (xNextTaskUnblockTime s) (set_tick now s)) as -> by by destruct s.
    apply HQ. split; [by destruct HP|by destruct HR|]. destruct HT as [H1 H2 H3 H4 H5 H6]. split; simpl; try done.
    + unfold is_u32 in *. lia.
    + intros t c E Hc. pose proof (H4 _ _ E Hc). lia.
    + intros t c E Hc. pose proof (H5 _ _ E Hc). lia.
Qed.

Lemma tick_spec asserts fuel s cur : ok s → uxSchedulerSuspended s = 0 → tcbs s !! pxCurrentTCB s = Some cur →
  (∀ l, is_delayed_list l = true → length (z_items (lists s l)) < fuel)%nat →
  let now := u32 (xTickCount s + 1) in
  wp False (xTaskIncrementTick asserts fuel) (λ r s', ok s' ∧ frame s' = frame (ticked s) ∧
    tcbs s' = wake_due (ticked s) now <$> tcbs s ∧
    (r = true ↔ preempts (ticked s) now (uxPriority cur) ∨
                1 < len (z_items (lists s' (pxReadyTasksLists (uxPriority cur)))) ∨ xYieldPending s = true)) s.
Proof.
  intros Hok Hs Hcur Hf now. pose proof Hok as [HP HR HT]. apply wp_bind, wp_gets. change (id s) with s. rewrite Hs. simpl.
  apply wp_bind, wp_modify. fold now. apply wp_bind, wp_tick_lists; [done|]. fold now. intros v Hv.
  set (s1 := set_unblock_time v (ticked s)) in *.
  assert (tcbs s1 = tcbs s ∧ lists s1 = lists s ∧ pxCurrentTCB s1 = pxCurrentTCB s ∧ frame s1 = frame (ticked s) ∧
    xTickCount s1 = now ∧ xYieldPending s1 = xYieldPending s) as (E1&E2&E3&E4&E5&E6).
  { unfold s1, ticked. fold now. by destruct (now =? 0). }
  assert (pxDelayedTaskList s1 = pxDelayedTaskList (ticked s)) as E7 by done.
  assert (preempts s1 now (uxPriority cur) ↔ preempts (ticked s) now (uxPriority cur)) as Hpre by done.
  apply wp_bind, wp_gets. apply wp_bind. eapply wp_mono with (Q := λ r s', ok_from (now + 1) s' ∧ frame s' = frame s1 ∧
    tcbs s' = wake_due s1 now <$> tcbs s1 ∧ (r = true ↔ preempts s1 now (uxPriority cur))).
  - destruct (Z.leb_spec (xNextTaskUnblockTime s1) now) as [Hle|Hgt].
    + eapply wp_mono; [apply (unblock_spec fuel now false s1 cur)|].
      * done.
      * rewrite E2. apply Hf. by destruct (time_lists _ _ (ok_timed _ _ Hv)) as [[-> _]|[-> _]].
      * by rewrite E1, E3.
      * intros r s' (?&?&?&Hr). split_and!; [done..|]. rewrite Hr. split; [by intros [?|?]|by right].
    + apply wp_ret. assert (∀ u d, tcbs s1 !! u = Some d → is_due s1 now d = false) as Hnd.
      { intros u d Ed. unfold is_due. destruct (bool_decide_reflect (state_of d = Some (pxDelayedTaskList s1))) as [Hd|]; [|done].
        pose proof (time_unblock _ _ (ok_timed _ _ Hv) _ _ Ed Hd). apply Z.leb_gt. lia. }
      split; [|split; [done|split]].
      * assert (s1 = set_unblock_time (xNextTaskUnblockTime s1) s1) as Es by by destruct s1.
        rewrite Es. eapply ok_later; [exact Hv|]. intros t c E Hc.
        pose proof (time_unblock _ _ (ok_timed _ _ Hv) _ _ E Hc). lia.
      * apply map_eq. intros u. rewrite lookup_fmap. destruct (tcbs s1 !! u) as [d|] eqn:Ed; [|done].
        simpl. unfold wake_due. by rewrite (Hnd _ _ Ed).
      * split; [done|]. intros (u&d&Ed&Hd&_). by rewrite (Hnd _ _ Ed) in Hd.
  - intros r s' (Hok'&Hfr&Ht&Hr). pose proof (frame_inv _ _ Hfr) as (F1&F2&F3&F4&F5&F6&F7&F8&_).
    assert (tcbs s' !! pxCurrentTCB s' = Some (wake_due s1 now cur)) as Hcur'.
    { by rewrite Ht, F1, E3, lookup_fmap, E1, Hcur. }
    assert (uxPriority (wake_due s1 now cur) = uxPriority cur) as Hp by (unfold wake_due; by destruct (is_due _ _ _)).
    apply wp_bind. eapply wp_current_tcb; [exact Hcur'|]. rewrite Hp.
    apply wp_bind. apply wp_ready_list; [by apply (priority_range _ HR _ _ Hcur)|].
    apply wp_bind, wp_gets. apply wp_ret. change (id s') with s'. split; [|split; [by rewrite Hfr|split]].
    + unfold ok. by rewrite F5, E5.
    + by rewrite Ht, E1.
    + rewrite F8, E6, !orb_true_iff, Hr, Hpre, Z.ltb_lt. tauto.
Qed.

(** ** Timers: the ticks a delayed task has left *)

Definition remaining (s : scheduler) (c : TCB_t) : option Z :=
  match state_of c with
  | Some l =>
      if decide (l = pxDelayedTaskList s) then Some (wake_time c - xTickCount s)
      else if decide (l = pxOverflowDelayedTaskList s) then Some (wake_time c + 2 ^ 32 - xTickCount s)
      else None
  | None => None
  end.

Lemma remaining_frame s s' c : frame s' = frame s → remaining s' c = remaining s c.
Proof. intros (_&E2&E3&_&E5&_)%frame_inv. unfold remaining. by rewrite E2, E3, E5. Qed.

Lemma remaining_range s t c n : ok s → tcbs s !! t = Some c → remaining s c = Some n → 1 <= n < 2 ^ 32.
Proof.
  intros [_ _ HT] E. pose proof (time_range _ _ HT) as Ht. unfold is_u32 in Ht. unfold remaining.
  destruct (state_of c) as [l|] eqn:El; [|done]. case_decide; [|case_decide; [|done]]; subst l; intros [= <-].
  - pose proof (time_delayed _ _ HT _ _ E El). lia.
  - pose proof (time_overflow _ _ HT _ _ E El). lia.
Qed.

(** A tick as a transition of the timers. *)
Lemma remaining_tick s t c : ok s → tcbs s !! t = Some c →
  match remaining s c with
  | Some n => (is_due (ticked s) (u32 (xTickCount s + 1)) c = true ↔ n = 1) ∧
              (n ≠ 1 → remaining (ticked s) c = Some (n - 1))
  | None => is_due (ticked s) (u32 (xTickCount s + 1)) c = false ∧ remaining (ticked s) c = None
  end.
Proof.
  intros Hok E. pose proof Hok as [HP HR HT]. pose proof (delayed_distinct _ _ HT) as Hne.
  pose proof (time_range _ _ HT) as Hr. unfold is_u32 in Hr.
  unfold remaining, is_due, ticked. destruct (tick_succ _ _ HT) as [[Hn Ht]|[Hn Ht]]; rewrite Hn.
  - simpl. pose proof (no_delayed s Hok Ht _ _ E) as Hnd. destruct (state_of c) as [l|] eqn:El; [|done].
    rewrite (decide_False (P := l = pxDelayedTaskList s)) by congruence.
    destruct (decide (l = pxOverflowDelayedTaskList s)) as [->|Hlo].
    + rewrite bool_decide_true by done. simpl. pose proof (time_overflow _ _ HT _ _ E El). rewrite Z.leb_le.
      split; [lia|]. intros. f_equal. lia.
    + rewrite bool_decide_false by congruence. rewrite decide_False by congruence. done.
  - rewrite (proj2 (Z.eqb_neq _ _)) by lia. simpl. destruct (state_of c) as [l|] eqn:El; [|done].
    destruct (decide (l = pxDelayedTaskList s)) as [->|Hld].
    + rewrite bool_decide_true by done. simpl. pose proof (time_delayed _ _ HT _ _ E El). rewrite Z.leb_le.
      split; [lia|]. intros. f_equal. lia.
    + rewrite bool_decide_false by congruence. destruct (decide (l = pxOverflowDelayedTaskList s)) as [->|Hlo]; [|done].
      pose proof (time_overflow _ _ HT _ _ E El). split; [split; [done|lia]|]. intros. f_equal. lia.
Qed.

(** ** Blocking the current task *)

Definition blocked (s : scheduler) (c : TCB_t) (n : Z) : TCB_t :=
  let w := u32 (xTickCount s + n) in
  with_state_item (ListItem w (Some (if w <? xTickCount s then pxOverflowDelayedTaskList s else pxDelayedTaskList s)))
    (with_delay_aborted false c).

Lemma remaining_blocked s c n : timed (xTickCount s + 1) s → 0 < n < 2 ^ 32 → remaining s (blocked s c n) = Some n.
Proof.
  intros HT Hn. pose proof (time_range _ _ HT) as Ht. unfold is_u32 in Ht. pose proof (delayed_distinct _ _ HT).
  unfold remaining, blocked. simpl. unfold u32.
  destruct (Z_lt_ge_dec (xTickCount s + n) (2 ^ 32)).
  - rewrite (Z.mod_small (xTickCount s + n)) by lia. rewrite (proj2 (Z.ltb_ge _ _)) by lia.
    rewrite decide_True by done. f_equal. lia.
  - replace ((xTickCount s + n) mod 2 ^ 32) with (xTickCount s + n - 2 ^ 32) by
      (apply Z.mod_unique with 1; lia). rewrite (proj2 (Z.ltb_lt _ _)) by lia.
    rewrite decide_False, decide_True by congruence. f_equal. lia.
Qed.

Lemma set_unblock_inserted v l t c s : set_unblock_time v (inserted l t c s) = inserted l t c (set_unblock_time v s).
Proof. done. Qed.

Lemma wp_add_delayed {D} n b c Q s : ok s → tcbs s !! pxCurrentTCB s = Some c → (∃ l, state_of c = Some l) →
  0 < n < 2 ^ 32 → (n = portMAX_DELAY → b = false) →
  (∀ s', ok s' → frame s' = frame s → tcbs s' = <[pxCurrentTCB s := blocked s c n]> (tcbs s) →
     (∀ l, state_of c ≠ Some l → is_delayed_list l = false → lists s' l = lists s l) → Q tt s') →
  wp D (prvAddCurrentTaskToDelayedList n b) Q s.
Proof.
  intros Hok E [l El] Hn Hb HQ. set (t := pxCurrentTCB s) in *.
  pose proof Hok as [HP HR HT]. pose proof (time_range _ _ HT) as Ht. unfold is_u32 in Ht.
  apply wp_bind, wp_gets. change (id s) with s. fold t.
  apply wp_bind. eapply wp_upd_tcb; [exact E|]. set (c0 := with_delay_aborted false c).
  assert (ok_from (xTickCount s + 1) (updated t c0 s)) as Hok0.
  { apply (ok_updated _ t c); [done|exact E|by intros []|done|done|]. exact (proj2 (priority_range _ HR _ _ E)). }
  apply wp_bind. eapply wp_remove; [apply lookup_insert_eq|exact El|]. intros k.
  set (c1 := with_container StateItem None c0). set (s1 := removed StateItem l t c0 (updated t c0 s)).
  assert (ok_from (xTickCount s + 1) s1) as Hok1 by (apply ok_removed; [done|apply lookup_insert_eq|done]).
  assert (((n =? portMAX_DELAY) && b) = false) as ->.
  { destruct (Z.eqb_spec n portMAX_DELAY); [|done]. by rewrite Hb. }
  set (w := u32 (xTickCount s + n)).
  apply wp_bind. apply (wp_upd_tcb _ c1); [apply lookup_insert_eq|]. set (c2 := with_value StateItem w c1).
  set (s2 := updated t c2 s1).
  assert (is_u32 w) as Hw by apply u32_range.
  assert (ok_from (xTickCount s + 1) s2) as Hok2.
  { destruct Hok1 as [HP1 HR1 HT1]. assert (tcbs s1 !! t = Some c1) as E1 by apply lookup_insert_eq. split.
    - eapply placed_updated; [done|exact E1|]. by intros [].
    - eapply (prioritised_changed t c2 s1); [done|done|exact (conj (Z.le_refl _) (proj2 (top_range _ HR1)))| |done].
      by apply (priority_range _ HR1 _ _ E1).
    - apply (timed_changed _ t c1 c2 s1); try done. intros l' Hl'. split; [done|]. intros (d&Ed&Hd)%(placed_member _ HP1).
      exfalso. simplify_eq. by destruct l'. }
  assert (tcbs s2 = <[t := c2]> (tcbs s)) as Et2.
  { unfold s2, s1, removed, updated. simpl. by rewrite !insert_insert_eq. }
  assert (∀ l', is_delayed_list l' = true →
    tcbs (inserted l' t c2 s2) = <[t := with_container StateItem (Some l') c2]> (tcbs s)) as Et3.
  { intros l' Hl'. change (tcbs (inserted l' t c2 s2)) with (<[t := with_container (kind_of l') (Some l') c2]> (tcbs s2)).
    rewrite Et2, insert_insert_eq. by destruct l'. }
  assert (∀ l' l0, state_of c ≠ Some l0 → is_delayed_list l' = true → is_delayed_list l0 = false →
    lists (inserted l' t c2 s2) l0 = lists s l0) as El3.
  { intros l' l0 H0 Hl' Hl0. unfold inserted, s2, s1, removed, updated. simpl.
    rewrite fn_lookup_insert_ne by (intros ->; congruence). rewrite fn_lookup_insert_ne by congruence. done. }
  assert (∀ v, v <= xNextTaskUnblockTime s → ok_from (xTickCount s + 1) (set_unblock_time v s2)) as Hlow.
  { intros v Hv. eapply ok_later; [exact Hok2|]. intros u d Ed Hd.
    pose proof (time_delayed _ _ (ok_timed _ _ Hok2) _ _ Ed Hd).
    pose proof (time_unblock _ _ (ok_timed _ _ Hok2) _ _ Ed Hd).
    change (xNextTaskUnblockTime s2) with (xNextTaskUnblockTime s) in *. lia. }
  assert (is_delayed_list (pxDelayedTaskList s) = true ∧ is_delayed_list (pxOverflowDelayedTaskList s) = true) as [Hd1 Hd2]
    by by destruct (time_lists _ _ HT) as [[-> ->]|[-> ->]].
  pose proof (delayed_distinct _ _ HT) as Hne.
  assert (tcbs s2 !! t = Some c2) as E2 by apply lookup_insert_eq.
  assert (w < xTickCount s ∨ xTickCount s + 1 <= w) as Hcase.
  { unfold w, u32. destruct (Z_lt_ge_dec (xTickCount s + n) (2 ^ 32)); [rewrite Z.mod_small by lia; lia|].
    left. replace ((xTickCount s + n) mod 2 ^ 32) with (xTickCount s + n - 2 ^ 32); [lia|].
    apply Z.mod_unique with 1; lia. }
  destruct (Z.ltb_spec w (xTickCount s)) as [Hlt|Hge].
  - eapply wp_insert; [exact E2|]. apply HQ.
    + apply ok_inserted; try done. change (0 <= xTickCount s + 1). lia.
    + done.
    + rewrite Et3 by done. unfold blocked. fold w. by rewrite (proj2 (Z.ltb_lt _ _)).
    + intros. by apply El3.
  - apply wp_bind. eapply wp_insert; [exact E2|]. set (v := Z.min w (xNextTaskUnblockTime s)).
    assert (Q tt (set_unblock_time v (inserted (pxDelayedTaskList s) t c2 s2))) as HQ'.
    { apply HQ.
      - rewrite set_unblock_inserted. apply ok_inserted; try done.
        + apply Hlow. unfold v. lia.
        + change (0 <= xTickCount s + 1). lia.
        + intros _. change (xTickCount s + 1 <= w ∧ v <= w). unfold v. lia.
      - done.
      - change (tcbs (inserted (pxDelayedTaskList s) t c2 s2) = <[t := blocked s c n]> (tcbs s)).
        rewrite Et3 by done. unfold blocked. fold w. by rewrite (proj2 (Z.ltb_ge _ _)).
      - intros. by apply El3. }
    apply wp_bind, wp_gets. change (xNextTaskUnblockTime (inserted _ _ _ _)) with (xNextTaskUnblockTime s).
    destruct (Z.ltb_spec w (xNextTaskUnblockTime s)).
    + apply wp_modify. unfold v in HQ'. by rewrite Z.min_l in HQ' by lia.
    + apply wp_ret. unfold v in HQ'. rewrite Z.min_r in HQ' by lia. exact HQ'.
Qed.

(** ** The scheduler suspended and resumed, with nothing to catch up *)

(** Nothing has been readied and no tick has occurred while the scheduler was
    suspended. *)
Definition nothing_pending (s : scheduler) : Prop := z_items (lists s xPendingReadyList) = [] ∧ xPendedTicks s = 0.

Definition resumed (s : scheduler) : scheduler :=
  let s' := set_suspended 0 s in if xYieldPending s then set_pendsv true s' else s'.

Lemma wp_resume_all {D} asserts fuel Q s : uxSchedulerSuspended s = 1 → 0 < uxCurrentNumberOfTasks s → (0 < fuel)%nat →
  nothing_pending s → Q (xYieldPending s) (resumed s) → wp D (xTaskResumeAll asserts fuel) Q s.
Proof.
  intros Hs Hn Hf [Hp Ht] HQ. unfold resumed in HQ. apply wp_bind, wp_gets. change (id s) with s.
  apply wp_bind, wp_assert; [by rewrite Hs|]. apply wp_bind, wp_modify. rewrite Hs.
  change (u32 (1 - 1)) with 0. apply wp_bind, wp_gets. simpl. rewrite (proj2 (Z.ltb_lt _ _)) by done.
  apply wp_bind. destruct fuel as [|fuel]; [lia|]. cbn [move_pending]. apply wp_bind, wp_is_empty. simpl.
  rewrite Hp. simpl. apply wp_ret. apply wp_bind, wp_ret. apply wp_bind, wp_gets. simpl. rewrite Ht. simpl.
  apply wp_bind, wp_ret. apply wp_bind, wp_gets. simpl.
  destruct (xYieldPending s); [by apply wp_bind, wp_modify, wp_ret|by apply wp_ret].
Qed.

(** A running task, in a state in which it may call the kernel. *)
Record running (s : scheduler) (c : TCB_t) : Prop := {
  run_ok : ok s;
  run_current : tcbs s !! pxCurrentTCB s = Some c;
  run_ready : state_of c = Some (pxReadyTasksLists (uxPriority c));
  run_scheduler : uxSchedulerSuspended s = 0;
  run_pending : nothing_pending s;
  run_number : 0 < uxCurrentNumberOfTasks s;
}.

(** [s'] is [s] with the current task blocked, and a switch requested. *)
Record put_to_sleep (s s' : scheduler) (c c' : TCB_t) (n : Z) : Prop := {
  sleep_ok : ok s';
  sleep_tcbs : tcbs s' = <[pxCurrentTCB s := c']> (tcbs s);
  sleep_remaining : remaining s' c' = Some n;
  sleep_same : uxPriority c' = uxPriority c ∧ uxBasePriority c' = uxBasePriority c ∧
    xEventListItem c' = xEventListItem c ∧ ucNotifyState c' = ucNotifyState c;
  sleep_clock : xTickCount s' = xTickCount s ∧ xNumOfOverflows s' = xNumOfOverflows s ∧
    pxDelayedTaskList s' = pxDelayedTaskList s ∧ pxOverflowDelayedTaskList s' = pxOverflowDelayedTaskList s;
  sleep_running : pxCurrentTCB s' = pxCurrentTCB s ∧ uxSchedulerSuspended s' = 0 ∧ nothing_pending s' ∧
    uxCurrentNumberOfTasks s' = uxCurrentNumberOfTasks s ∧ xSchedulerRunning s' = xSchedulerRunning s;
  sleep_switch : pendsv s' = true;
}.

Lemma ok_flags due b p u s : ok_from due s → ok_from due (set_pendsv p (set_suspended u (set_yield_pending b s))).
Proof. intros [HP HR HT]. split; [by destruct HP|by destruct HR|by destruct HT]. Qed.

(** Going to sleep: the end of [vTaskDelay] and [xTaskDelayUntil]. *)
Lemma wp_sleep {D} asserts fuel s c n : running s c → 0 < n < 2 ^ 32 → (0 < fuel)%nat →
  wp D (prvAddCurrentTaskToDelayedList n false;; modify id;; xTaskResumeAll asserts fuel)
    (λ y s', wp D (yield_unless y) (λ _ s'', ∃ c', put_to_sleep s s'' c c' n) s') (set_suspended 1 s).
Proof.
  intros [Hok Hc Hr Hs Hp Hnum] Hn Hf.
  assert (ok (set_suspended 1 s)) as Hok1.
  { destruct Hok as [HP HR HT]. split; [by destruct HP|by destruct HR|by destruct HT]. }
  apply wp_bind. eapply (wp_add_delayed n false c); [exact Hok1|exact Hc|by eexists|done|done|].
  intros s' Hok' Hfr Ht Hl. pose proof (frame_inv _ _ Hfr) as (F1&F2&F3&F4&F5&F6&F7&F8&F9&F10&F11). simpl in *.
  assert (nothing_pending s') as Hp'.
  { split; [|rewrite F7; apply Hp]. rewrite Hl by (rewrite ?Hr; done). apply Hp. }
  apply wp_bind, wp_modify. change (id s') with s'.
  apply wp_resume_all; [by rewrite F10|by rewrite F4|done|done|].
  assert (wp D (yield_unless (xYieldPending s')) (λ _ s'', s'' = set_pendsv true (set_suspended 0 s')) (resumed s')) as Hy.
  { unfold yield_unless, resumed. destruct (xYieldPending s'); [by apply wp_ret|by apply wp_modify]. }
  eapply wp_mono; [exact Hy|]. intros _ ? ->. exists (blocked s c n).
  assert (ok (set_pendsv true (set_suspended 0 s'))) as Hok2.
  { destruct Hok' as [HP HR HT]. split; [by destruct HP|by destruct HR|by destruct HT]. }
  split; simpl; try done.
  transitivity (remaining s (blocked s c n)); [|apply remaining_blocked; [by destruct Hok|done]].
  unfold remaining. simpl. by rewrite F2, F3, F5.
Qed.

Lemma wp_suspend_all {D} Q s : uxSchedulerSuspended s = 0 → Q tt (set_suspended 1 s) → wp D vTaskSuspendAll Q s.
Proof. intros Hs HQ. apply wp_modify. by rewrite Hs. Qed.

Lemma delay_spec asserts fuel s c n : running s c → 0 < n < 2 ^ 32 → (0 < fuel)%nat →
  wp False (vTaskDelay asserts id fuel n) (λ _ s', ∃ c', put_to_sleep s s' c c' n) s.
Proof.
  intros Hrun Hn Hf. unfold vTaskDelay. rewrite (proj2 (Z.ltb_lt _ _)) by lia.
  apply wp_bind, wp_bind, wp_suspend_all; [apply Hrun|].
  apply wp_bind, wp_gets. apply wp_bind, wp_assert; [done|]. apply wp_bind, wp_modify. by apply wp_sleep.
Qed.

(** The two tests of [xTaskDelayUntil] compare the time that has elapsed, modulo
    the width of the clock, with the period. *)
Lemma should_delay now prev inc : is_u32 now → is_u32 prev → 0 < inc < 2 ^ 32 →
  let wake := u32 (prev + inc) in let e := u32 (now - prev) in
  (if now <? prev then (wake <? prev) && (now <? wake) else (wake <? prev) || (now <? wake)) = (e <? inc) ∧
  (e < inc → u32 (wake - now) = inc - e).
Proof.
  intros Hn Hp Hi wake e. unfold is_u32, u32 in *.
  assert (prev + inc < 2 ^ 32 ∧ wake = prev + inc ∨ 2 ^ 32 <= prev + inc ∧ wake = prev + inc - 2 ^ 32) as Hw.
  { unfold wake. destruct (Z_lt_ge_dec (prev + inc) (2 ^ 32)); [left; by rewrite Z.mod_small by lia|right].
    split; [lia|]. symmetry. apply Z.mod_unique with 1; lia. }
  assert (prev <= now ∧ e = now - prev ∨ now < prev ∧ e = now - prev + 2 ^ 32) as He.
  { unfold e. destruct (Z_lt_ge_dec now prev); [right|left; rewrite Z.mod_small; lia].
    split; [lia|]. symmetry. apply Z.mod_unique with (-1); lia. }
  split.
  - destruct (Z.ltb_spec now prev), (Z.ltb_spec wake prev), (Z.ltb_spec now wake), (Z.ltb_spec e inc); simpl; lia.
  - intros Hlt. destruct (Z_lt_ge_dec wake now).
    + symmetry. apply Z.mod_unique with (-1); lia.
    + rewrite Z.mod_small; lia.
Qed.

Lemma delay_until_spec asserts fuel prev inc s c : running s c → is_u32 prev → 0 < inc < 2 ^ 32 → (0 < fuel)%nat →
  wp False (xTaskDelayUntil asserts id fuel prev inc) (λ r s', let e := u32 (xTickCount s - prev) in
    r = (u32 (prev + inc), e <? inc) ∧
    if e <? inc then ∃ c', put_to_sleep s s' c c' (inc - e) else s' = set_pendsv true s) s.
Proof.
  intros Hrun Hp Hi Hf. pose proof (time_range _ _ (ok_timed _ _ (run_ok _ _ Hrun))) as Hnow.
  destruct (should_delay _ _ _ Hnow Hp Hi) as [Hs Hn]. set (e := u32 (xTickCount s - prev)) in *.
  apply wp_bind, wp_assert; [apply Z.ltb_lt; lia|]. apply wp_bind, wp_suspend_all; [apply Hrun|].
  apply wp_bind, wp_modify, wp_bind, wp_gets. apply wp_bind, wp_assert; [done|].
  cbn [xTickCount set_suspended id]. rewrite Hs. destruct (Z.ltb_spec e inc) as [Hlt|Hge].
  - rewrite Hn by done. apply wp_bind.
    pose proof (wp_sleep (D := False) asserts fuel s c (inc - e) Hrun ltac:(pose proof (u32_range (xTickCount s - prev)); unfold is_u32 in *; lia) Hf) as Hsl.
    unfold wp in Hsl |- *. unfold mbind, ST_bind in Hsl. cbn in Hsl |- *.
    destruct (prvAddCurrentTaskToDelayedList _ _ _) as [[[] s1]| |]; [|done..]. cbn in Hsl |- *.
    unfold mbind, ST_bind. cbn. destruct (xTaskResumeAll _ _ _) as [[y s2]| |]; [|done..]. cbn in Hsl |- *.
    destruct (yield_unless y s2) as [[[] s3]| |]; [|done..]. by split.
  - apply wp_bind, wp_ret, wp_bind, wp_modify. change (id ?x) with x. apply wp_bind.
    apply wp_resume_all; [done|apply Hrun|done|apply Hrun|].
    apply wp_bind. assert (set_pendsv true (set_suspended 0 (set_suspended 1 s)) = set_pendsv true s) as Hst.
    { pose proof (run_scheduler _ _ Hrun) as H0. destruct s. simpl in *. by subst. }
    unfold resumed, yield_unless. simpl. destruct (xYieldPending s); [apply wp_ret|apply wp_modify]; by apply wp_ret.
Qed.

(** ** Which task runs *)

Lemma find_top_spec {D} p s Q : (∃ q, 0 <= q <= Z.of_nat p ∧ z_items (lists s (pxReadyTasksLists q)) ≠ []) →
  (∀ q, 0 <= q <= Z.of_nat p → z_items (lists s (pxReadyTasksLists q)) ≠ [] →
     (∀ q', q < q' <= Z.of_nat p → z_items (lists s (pxReadyTasksLists q')) = []) → Q q s) →
  wp D (find_top p) Q s.
Proof.
  induction p as [|p IH]; intros (q&Hq&Hne) HQ; cbn [find_top]; apply wp_bind, wp_gets; change (id s) with s.
  - rewrite bool_decide_false by (by replace (Z.of_nat 0) with q by lia).
    apply wp_ret, HQ; [lia|by replace (Z.of_nat 0) with q by lia|lia].
  - case_bool_decide as He.
    + apply IH.
      * exists q. split; [|done]. destruct (Z.eq_dec q (Z.of_nat (S p))) as [->|]; [done|lia].
      * intros r Hr Hne' Hmax. apply HQ; [lia|done|]. intros q' Hq'.
        destruct (Z.eq_dec q' (Z.of_nat (S p))) as [->|]; [done|apply Hmax; lia].
    + apply wp_ret, HQ; [lia|done|lia].
Qed.

(** The highest priority of the ready tasks. *)
Definition highest_ready (s : scheduler) (p : Z) : Prop :=
  z_items (lists s (pxReadyTasksLists p)) ≠ [] ∧
  ∀ t c, tcbs s !! t = Some c → state_of c = Some (pxReadyTasksLists (uxPriority c)) → uxPriority c <= p.

Definition chosen (p t : Z) (z : zipper Z) (s : scheduler) : scheduler :=
  set_top p (set_current t (set_lists (<[pxReadyTasksLists p := z]> (lists s)) (set_yield_pending false s))).

Lemma switch_spec {D} s Q : ok s → uxSchedulerSuspended s = 0 →
  (∃ t c, tcbs s !! t = Some c ∧ state_of c = Some (pxReadyTasksLists (uxPriority c))) →
  (∀ p t z, highest_ready s p → z_next (lists s (pxReadyTasksLists p)) = Some (t, z) → Q tt (chosen p t z s)) →
  wp D vTaskSwitchContext Q s.
Proof.
  intros [HP HR HT] Hs (t0&c0&E0&H0) HQ. pose proof (top_range _ HR) as Htop.
  assert (∀ t c, tcbs s !! t = Some c → state_of c = Some (pxReadyTasksLists (uxPriority c)) →
    z_items (lists s (pxReadyTasksLists (uxPriority c))) ≠ []) as Hne.
  { intros t c E Hc He. assert (t ∈ z_items (lists s (pxReadyTasksLists (uxPriority c)))) as Hin.
    { apply (placed_member _ HP). by exists c. }
    rewrite He in Hin. set_solver. }
  apply wp_bind, wp_gets. change (id s) with s. rewrite Hs. simpl. apply wp_bind, wp_modify.
  apply wp_bind, wp_gets. apply wp_bind. apply wp_ready_list; [done|]. simpl. apply wp_bind, find_top_spec.
  - exists (uxPriority c0). split; [|by apply (Hne t0)]. pose proof (proj1 (priority_range _ HR _ _ E0)).
    pose proof (top_bound _ HR _ _ E0 H0). lia.
  - intros p Hp Hpne Hmax. apply wp_bind, wp_gets. simpl.
    destruct (z_next (lists s (pxReadyTasksLists p))) as [[t z]|] eqn:Ez; [|by apply z_next_empty in Ez].
    do 2 apply wp_bind, wp_modify. apply wp_modify. apply HQ; [|done]. split; [done|].
    intros t' c E Hc. destruct (Z_le_gt_dec (uxPriority c) p) as [|Hgt]; [done|exfalso].
    apply (Hne _ _ E Hc), Hmax. pose proof (top_bound _ HR _ _ E Hc). lia.
Qed.

Lemma ok_chosen p t z s : ok s → highest_ready s p → z_next (lists s (pxReadyTasksLists p)) = Some (t, z) →
  ok (chosen p t z s) ∧ ∃ c, tcbs s !! t = Some c ∧ state_of c = Some (pxReadyTasksLists p) ∧ uxPriority c = p.
Proof.
  intros [HP HR HT] [Hne Hmax] Hz. apply z_items_next in Hz as [Hin Hz].
  apply (placed_member _ HP) in Hin as (c&E&Hc). simpl in Hc.
  pose proof (ready_priority _ HR _ _ _ E Hc) as Hpc.
  assert (∀ l, z_items (<[pxReadyTasksLists p := z]> (lists s) l) = z_items (lists s l)) as Hl.
  { intros l. destruct (decide (l = pxReadyTasksLists p)) as [->|?];
      [by rewrite fn_lookup_insert|by rewrite fn_lookup_insert_ne]. }
  split; [split|by exists c].
  - destruct HP as [P1 P2 P3 P4]. split; try done; intros l; unfold chosen; simpl; rewrite Hl; auto.
  - pose proof (proj1 (priority_range _ HR _ _ E)). destruct HR as [R1 R2 R3 R4]. split; simpl; done || lia.
  - destruct HT as [T1 T2 T3 T4 T5 T6]. split; try done. intros l Hd. unfold chosen. simpl.
    assert (z_items (<[pxReadyTasksLists p := z]> (lists s) l) = z_items (lists s l)) as -> by apply Hl. by apply T3.
Qed.
