(* ===== verification/RtosKernel.v ===== *)
(** * The task that runs

    What the scheduler is for: whatever the tasks and the clock do, a switch is
    under way or the running task is a ready one of the highest priority. The
    invariant [kernel_ok] says so, [call] lists the operations, and [reachable]
    the states they lead to from the start of the scheduler. *)

From Stdlib Require Import ZArith Lia.
From Stdlib Require Import Sorting.Sorted.
From stdpp Require Import functions gmap list.
From S2P Require Import Prelude RtosList RtosTasks RtosSched.
Local Open Scope Z_scope.

(** ** The invariant *)

Definition is_ready (c : TCB_t) : Prop := state_of c = Some (pxReadyTasksLists (uxPriority c)).
#[export] Instance is_ready_dec c : Decision (is_ready c).
Proof. unfold is_ready. solve_decision. Defined.

(** The current task is ready, and of no lower priority than another ready task. *)
Definition tops (s : scheduler) : Prop := ∃ c, tcbs s !! pxCurrentTCB s = Some c ∧ is_ready c ∧
  ∀ t d, tcbs s !! t = Some d → is_ready d → uxPriority d <= uxPriority c.

Record kernel_ok (idle : Z) (s : scheduler) : Prop := {
  k_ok : ok s;
  k_idle : ∃ c, tcbs s !! idle = Some c ∧ is_ready c;
  k_suspended : uxSchedulerSuspended s = 0;
  k_pending : nothing_pending s;
  k_listed t c : tcbs s !! t = Some c → state_of c ≠ None;
  k_waiting t c : tcbs s !! t = Some c → ucNotifyState c = taskWAITING_NOTIFICATION → container EventItem c = None;
  k_free t c : tcbs s !! t = Some c → is_ready c → container EventItem c = None;
  k_number : 0 < uxCurrentNumberOfTasks s < 2 ^ 32;
  k_started : xSchedulerRunning s = true;
  k_current : ∃ c, tcbs s !! pxCurrentTCB s = Some c ∧ (pendsv s = false → is_ready c);
  k_tops : pendsv s = false → xYieldPending s = false → tops s;
}.

(** Nothing is pending when no event item is in the pending list. *)
Lemma pending_empty s : placed s → z_items (lists s xPendingReadyList) = [] ↔
  ∀ t c, tcbs s !! t = Some c → container EventItem c ≠ Some xPendingReadyList.
Proof.
  intros HP. split.
  - intros He t c E Hc. assert (t ∈ z_items (lists s xPendingReadyList)) as Ht by (apply (placed_member _ HP); by exists c).
    rewrite He in Ht. set_solver.
  - intros Hn. apply elem_of_nil_inv. intros t (c&E&Hc)%(placed_member _ HP). by eapply Hn.
Qed.

(** A list of tasks is no longer than there are tasks. *)
Lemma length_tasks s l : placed s → (length (z_items (lists s l)) <= size (tcbs s))%nat.
Proof.
  intros HP. rewrite <- size_dom. rewrite <- (size_list_to_set (C := gset Z)) by apply (placed_nodup _ HP).
  apply subseteq_size. intros t. rewrite elem_of_list_to_set, elem_of_dom.
  intros (c&E&_)%(placed_member _ HP). by exists c.
Qed.

(** What an operation that changes one task leaves as it was. *)
Record calm (s s' : scheduler) : Prop := {
  calm_current : pxCurrentTCB s' = pxCurrentTCB s;
  calm_suspended : uxSchedulerSuspended s' = uxSchedulerSuspended s;
  calm_number : uxCurrentNumberOfTasks s' = uxCurrentNumberOfTasks s;
  calm_started : xSchedulerRunning s' = xSchedulerRunning s;
  calm_pended : xPendedTicks s' = xPendedTicks s;
}.

(** The new state of the task at [t] does not call for a switch: the current
    task stays ready, and no other comes above it. *)
Definition below (s : scheduler) (t : Z) (c' : TCB_t) : Prop :=
  ∀ cur, tcbs s !! pxCurrentTCB s = Some cur →
    if decide (t = pxCurrentTCB s) then is_ready c' ∧ uxPriority cur <= uxPriority c'
    else is_ready c' → uxPriority c' <= uxPriority cur.

Lemma tops_changed t c' s s' : tops s → tcbs s' = <[t := c']> (tcbs s) → pxCurrentTCB s' = pxCurrentTCB s →
  below s t c' → tops s'.
Proof.
  intros (cur&Ec&Hc&Hmax) E Hcur Hb. specialize (Hb _ Ec). rewrite <- Hcur in *. case_decide as Ht.
  - subst t. destruct Hb as [Hr Hp]. exists c'. rewrite E, lookup_insert_eq. split_and!; [done..|].
    intros u d. destruct (decide (u = pxCurrentTCB s')) as [->|?].
    + rewrite lookup_insert_eq. by intros [= <-].
    + rewrite lookup_insert_ne by done. intros Ed Hd. pose proof (Hmax _ _ Ed Hd). lia.
  - exists cur. rewrite E, lookup_insert_ne by done. split_and!; [done..|]. intros u d.
    destruct (decide (u = t)) as [->|?].
    + rewrite lookup_insert_eq. intros [= <-] Hd. auto.
    + rewrite lookup_insert_ne by done. eauto.
Qed.

(** An operation that changes one task. *)
Lemma kernel_changed idle t c c' s s' : kernel_ok idle s → ok s' → calm s s' → tcbs s !! t = Some c →
  tcbs s' = <[t := c']> (tcbs s) → (t = idle → is_ready c') → state_of c' ≠ None →
  container EventItem c' ≠ Some xPendingReadyList →
  (ucNotifyState c' = taskWAITING_NOTIFICATION ∨ is_ready c' → container EventItem c' = None) →
  (pendsv s' = true ∨ (pendsv s = true → pendsv s' = true) ∧ (pendsv s = false → t = pxCurrentTCB s → is_ready c') ∧
     (xYieldPending s' = true ∨ xYieldPending s = false ∧ (tops s → below s t c'))) →
  kernel_ok idle s'.
Proof.
  intros [K1 (ci&Ei&Hi) K3 K4 Kl Kw Kf K5 K6 (cc&Ec&Hc) K8] Hok [C1 C2 C3 C4 C5] E E' Hidle Hst Hev Hwt Hsw.
  split; rewrite ?C2, ?C3, ?C4; try done.
  - rewrite E'. destruct (decide (idle = t)) as [->|?].
    + exists c'. rewrite lookup_insert_eq. auto.
    + exists ci. by rewrite lookup_insert_ne.
  - split; [|rewrite C5; apply K4]. apply pending_empty; [apply Hok|]. intros u d. rewrite E'.
    destruct (decide (u = t)) as [->|?].
    + rewrite lookup_insert_eq. by intros [= <-].
    + rewrite lookup_insert_ne by done. intros Ed. eapply pending_empty; [apply K1|apply K4|done].
  - intros u d. rewrite E'. destruct (decide (u = t)) as [->|?];
      [rewrite lookup_insert_eq; by intros [= <-]|rewrite lookup_insert_ne by done; apply Kl].
  - intros u d. rewrite E'. destruct (decide (u = t)) as [->|?];
      [rewrite lookup_insert_eq; intros [= <-]; auto|rewrite lookup_insert_ne by done; apply Kw].
  - intros u d. rewrite E'. destruct (decide (u = t)) as [->|?];
      [rewrite lookup_insert_eq; intros [= <-]; auto|rewrite lookup_insert_ne by done; apply Kf].
  - rewrite C1, E'. destruct (decide (t = pxCurrentTCB s)) as [->|?].
    + exists c'. rewrite lookup_insert_eq. split; [done|]. intros Hp.
      destruct Hsw as [Hsw|(Hsw&Hr&_)]; [congruence|]. apply Hr; [|done]. destruct (pendsv s); [|done].
      rewrite Hsw in Hp; done.
    + exists cc. rewrite lookup_insert_ne by done. split; [done|]. intros Hp. apply Hc.
      destruct Hsw as [Hsw|(Hsw&_)]; [congruence|]. destruct (pendsv s); [|done]. rewrite Hsw in Hp; done.
  - intros Hp Hy. destruct Hsw as [Hsw|(Hsw&_&Hb)]; [congruence|]. destruct Hb as [Hb|[Hy0 Hb]]; [congruence|].
    assert (tops s) as Ht by (apply K8; [|done]; destruct (pendsv s); [|done]; rewrite Hsw in Hp; done).
    eapply tops_changed; [exact Ht|exact E'|done|by apply Hb].
Qed.

(** The current task may call the kernel. *)
Lemma kernel_running idle s : kernel_ok idle s → pendsv s = false → ∃ c, running s c.
Proof. intros [K1 _ K3 K4 _ _ _ K5 _ (c&Ec&Hc) _] Hp. exists c. split; try done; [by apply Hc|lia]. Qed.

Lemma ok_pendsv due b s : ok_from due s → ok_from due (set_pendsv b s).
Proof. intros [HP HR HT]. split; [by destruct HP|by destruct HR|by destruct HT]. Qed.
Lemma set_pendsv_same s : set_pendsv (pendsv s) s = s.
Proof. by destruct s. Qed.

(** ** The clock and the switch *)

(** The variables that say what time it is. *)
Definition same_time (s s' : scheduler) : Prop :=
  xTickCount s' = xTickCount s ∧ xNumOfOverflows s' = xNumOfOverflows s ∧
  pxDelayedTaskList s' = pxDelayedTaskList s ∧ pxOverflowDelayedTaskList s' = pxOverflowDelayedTaskList s.

Lemma kernel_tick idle asserts fuel s : kernel_ok idle s → (size (tcbs s) < fuel)%nat →
  wp False (xPortSysTickHandler asserts fuel) (λ _ s', kernel_ok idle s' ∧ same_time (ticked s) s' ∧
    tcbs s' = wake_due (ticked s) (u32 (xTickCount s + 1)) <$> tcbs s) s.
Proof.
  intros [K1 (ci&Ei&Hi) K3 K4 Kl Kw Kf K5 K6 (cc&Ec&Hc) K8] Hf. set (now := u32 (xTickCount s + 1)).
  assert (∀ l, is_delayed_list l = true → length (z_items (lists s l)) < fuel)%nat as Hlen.
  { intros l _. pose proof (length_tasks s l ltac:(apply K1)). lia. }
  apply wp_bind. eapply wp_mono; [by apply (tick_spec asserts fuel s cc)|]. fold now. intros r s' (Hok&Hfr&Et&Hr).
  pose proof (frame_inv _ _ Hfr) as (F1&F2&F3&F4&F5&F6&F7&F8&F9&F10&F11).
  assert (pxCurrentTCB (ticked s) = pxCurrentTCB s ∧ uxCurrentNumberOfTasks (ticked s) = uxCurrentNumberOfTasks s ∧
    xSchedulerRunning (ticked s) = xSchedulerRunning s ∧ xPendedTicks (ticked s) = xPendedTicks s ∧
    xYieldPending (ticked s) = xYieldPending s ∧ uxSchedulerSuspended (ticked s) = uxSchedulerSuspended s ∧
    pendsv (ticked s) = pendsv s ∧ tcbs (ticked s) = tcbs s) as (T1&T2&T3&T4&T5&T6&T7&T8) by (unfold ticked; by destruct (_ =? 0)).
  assert (∀ d, uxPriority (wake_due (ticked s) now d) = uxPriority d) as Hpr by (intros d; unfold wake_due; by destruct (is_due _ _ _)).
  assert (∀ d, is_ready d → is_ready (wake_due (ticked s) now d)) as Hrd by (intros d; unfold wake_due; by destruct (is_due _ _ _)).
  assert (nothing_pending s') as Hnp.
  { split; [|by rewrite F7, T4; apply K4]. apply pending_empty; [apply Hok|]. intros t d. rewrite Et, lookup_fmap.
    destruct (tcbs s !! t) as [d0|] eqn:Ed; [|done]. intros [= <-]. unfold wake_due. destruct (is_due _ _ _); [done|].
    eapply pending_empty; [apply K1|apply K4|done]. }
  assert (∀ b, (b = false → pendsv s = false ∧ r = false) → kernel_ok idle (set_pendsv b s')) as Hgen.
  { intros b Hb. split; simpl; rewrite ?F4, ?F6, ?F10, ?F1, ?T1, ?T2, ?T3, ?T6, ?Et, ?lookup_fmap, ?Ei, ?Ec; try done.
    - by apply ok_pendsv.
    - exists (wake_due (ticked s) now ci). auto.
    - intros t d. rewrite lookup_fmap. destruct (tcbs s !! t) as [d0|] eqn:Ed; [|done]. intros [= <-].
      unfold wake_due. destruct (is_due _ _ _); [done|by eapply Kl].
    - intros t d. rewrite lookup_fmap. destruct (tcbs s !! t) as [d0|] eqn:Ed; [|done]. intros [= <-].
      unfold wake_due. destruct (is_due _ _ _); [done|by eapply Kw].
    - intros t d. rewrite lookup_fmap. destruct (tcbs s !! t) as [d0|] eqn:Ed; [|done]. intros [= <-].
      unfold wake_due. destruct (is_due _ _ _); [done|by eapply Kf].
    - exists (wake_due (ticked s) now cc). split; [done|]. intros [Hp _]%Hb. auto.
    - rewrite F8, T5. intros [Hp ->]%Hb Hy. assert (¬ preempts (ticked s) now (uxPriority cc)) as Hnp'.
      { intros H. assert (false = true) by (apply Hr; by left). done. }
      destruct (K8 Hp Hy) as (c0&E0&_&Hmax). assert (c0 = cc) as -> by congruence.
      exists (wake_due (ticked s) now cc). simpl. rewrite F1, T1, Et, lookup_fmap, Ec. split_and!; [done|auto|]. intros t d. rewrite lookup_fmap.
      destruct (tcbs s !! t) as [d0|] eqn:Ed; [|done]. intros [= <-] Hd. rewrite !Hpr.
      destruct (is_due (ticked s) now d0) eqn:Hdue.
      + destruct (Z_lt_ge_dec (uxPriority cc) (uxPriority d0)); [|lia]. destruct Hnp'. exists t, d0. rewrite T8. split_and!; [done..|lia].
      + unfold wake_due in Hd. rewrite Hdue in Hd. by eapply Hmax. }
  assert (same_time (ticked s) s') as Htime by by split.
  destruct r.
  - apply wp_modify. split; [|done]. by apply Hgen.
  - apply wp_ret. split; [|done]. rewrite <- (set_pendsv_same s'). apply Hgen. rewrite F11, T7. auto.
Qed.

Lemma kernel_switch idle s : kernel_ok idle s →
  wp False xPortPendSVHandler (λ _ s', kernel_ok idle s' ∧ tops s' ∧ ∃ p t z, highest_ready s p ∧
    z_next (lists s (pxReadyTasksLists p)) = Some (t, z) ∧ s' = chosen p t z (set_pendsv false s)) s.
Proof.
  intros [K1 (ci&Ei&Hi) K3 K4 Kl Kw Kf K5 K6 (cc&Ec&Hc) K8]. apply wp_bind, wp_modify.
  apply switch_spec; [by apply ok_pendsv|done|by exists idle, ci|]. intros p t z Hp Hz.
  destruct (ok_chosen p t z (set_pendsv false s)) as (Hok&c&E&Hr&Hpc); [by apply ok_pendsv|done..|].
  assert (tops (chosen p t z (set_pendsv false s))) as Htop.
  { exists c. split_and!; [done|by unfold is_ready; rewrite Hpc|]. rewrite Hpc. apply Hp. }
  split; [|split; [done|by exists p, t, z]]. split; try done.
  - by exists ci.
  - exists c. split; [done|]. intros _. unfold is_ready. by rewrite Hpc.
Qed.

(** ** Waiting for time to pass *)

Lemma remaining_listed s c n : remaining s c = Some n → state_of c ≠ None.
Proof. unfold remaining. by destruct (state_of c). Qed.

Lemma remaining_unready s c n : ok s → remaining s c = Some n → ¬ is_ready c.
Proof.
  intros [_ _ HT] Hr H. unfold remaining in Hr. rewrite H in Hr. destruct (time_lists _ _ HT) as [[E1 E2]|[E1 E2]];
    by rewrite E1, E2 in Hr.
Qed.

Lemma kernel_asleep idle s s' c c' n : kernel_ok idle s → tcbs s !! pxCurrentTCB s = Some c →
  pxCurrentTCB s ≠ idle → put_to_sleep s s' c c' n → kernel_ok idle s'.
Proof.
  intros K E Hidle [S1 S2 S3 (S4&S5&S6&S7') S7 (S8&S9&S10&S11&S12) S13].
  eapply (kernel_changed idle (pxCurrentTCB s) c c'); [exact K|exact S1| |exact E|exact S2|done|by eapply remaining_listed| | |by left].
  - split; [done|rewrite S9; symmetry; apply K|done|done|]. destruct S10 as [_ ->]. symmetry. apply K.
  - simpl. rewrite S6. eapply pending_empty; [apply K|apply K|exact E].
  - rewrite S7'. simpl. rewrite S6. intros [Hw|Hr]; [by eapply (k_waiting _ _ K)|].
    by destruct (remaining_unready _ _ _ S1 S3 Hr).
Qed.

(** A yield is always allowed. *)
Lemma kernel_yield idle s : kernel_ok idle s → kernel_ok idle (set_pendsv true s).
Proof.
  intros [K1 K2 K3 K4 Kl Kw Kf K5 K6 (c&E&Hc) K8]. split; try done; [by apply ok_pendsv|].
  exists c. split; [done|]. done.
Qed.

Lemma kernel_delay idle asserts fuel n s : kernel_ok idle s → pendsv s = false → pxCurrentTCB s ≠ idle →
  is_u32 n → (0 < fuel)%nat → wp False (vTaskDelay asserts id fuel n) (λ _ s', kernel_ok idle s') s.
Proof.
  intros K Hp Hidle Hn Hf. destruct (Z.eq_dec n 0) as [->|Hn0].
  - apply wp_bind, wp_ret, wp_modify. by apply kernel_yield.
  - destruct (kernel_running _ _ K Hp) as (c&Hr). unfold is_u32 in Hn.
    eapply wp_mono; [apply delay_spec; [exact Hr|lia|done]|]. intros _ s' (c'&Hs).
    eapply kernel_asleep; [done| |done|exact Hs]. apply Hr.
Qed.

(** ** New tasks *)

Lemma ok_new due a c s : ok_from due s → tcbs s !! a = None → a ≠ 0 → (∀ k, container k c = None) →
  0 <= uxPriority c < configMAX_PRIORITIES → 0 <= uxBasePriority c <= uxPriority c →
  ok_from due (updated a c s).
Proof.
  intros [HP HR HT] Ha H0 Hc Hp Hb. pose proof (Hc StateItem) as Hst. simpl in Hst. split.
  - destruct HP as [P1 P2 P3 P4]. split; try done.
    + intros l u. rewrite lookup_updated. change (lists (updated a c s)) with (lists s). rewrite P2.
      case_decide as Hu; [subst u|done]. split; intros (d&Ed&Hd); [congruence|]. injection Ed as <-. by rewrite Hc in Hd.
    + intros u d k l. rewrite lookup_updated. case_decide; [|apply P3]. intros [= <-]. by rewrite Hc.
    + rewrite lookup_updated. by rewrite decide_False by congruence.
  - apply (prioritised_changed a c s); [done|done|pose proof (top_range _ HR); simpl; lia|done|]. by rewrite Hst.
  - destruct HT as [T1 T2 T3 T4 T5 T6]. split; try done.
    + intros l Hl. eapply sorted_sublist; [reflexivity| |by apply T3]. intros t u Ht Hu. unfold value_in.
      assert (∀ x, x ∈ z_items (lists s l) → tcbs (updated a c s) !! x = tcbs s !! x) as Hx.
      { intros x (d&Ed&_)%(placed_member _ HP). rewrite lookup_updated, decide_False; [done|congruence]. }
      by rewrite !Hx.
    + intros u d. rewrite lookup_updated. case_decide; [intros [= <-]; by rewrite Hst|apply T4].
    + intros u d. rewrite lookup_updated. case_decide; [intros [= <-]; by rewrite Hst|apply T5].
    + intros u d. rewrite lookup_updated. case_decide; [intros [= <-]; by rewrite Hst|apply T6].
Qed.

(** The control block that [prvInitialiseNewTask] makes, and the one in the ready list. *)
Definition new_tcb (p : Z) : TCB_t :=
  TCB (ListItem 0 None) (ListItem (u32 (configMAX_PRIORITIES - p)) None) p p 0 0 taskNOT_WAITING_NOTIFICATION false.
Definition created (p : Z) : TCB_t := with_container StateItem (Some (pxReadyTasksLists p)) (new_tcb p).

(** The clock and the scheduler's own variables. *)
Definition steady (s s' : scheduler) : Prop :=
  clock s' = clock s ∧ uxSchedulerSuspended s' = uxSchedulerSuspended s ∧ xPendedTicks s' = xPendedTicks s ∧
  xYieldPending s' = xYieldPending s ∧ xSchedulerRunning s' = xSchedulerRunning s.

Lemma wp_new_task {D} asserts a p Q s : 0 <= p < configMAX_PRIORITIES → Q tt (updated a (new_tcb p) s) →
  wp D (prvInitialiseNewTask asserts p a) Q s.
Proof.
  intros Hp HQ. apply wp_bind, wp_assert; [apply Z.ltb_lt; lia|]. rewrite (proj2 (Z.leb_gt _ _)) by lia. by apply wp_modify.
Qed.

(** The end of [prvAddNewTaskToReadyList]: the task is made ready. *)
Lemma wp_new_ready {D} a p cur Q s : ok s → tcbs s !! a = Some (new_tcb p) → tcbs s !! pxCurrentTCB s = Some cur →
  0 <= p < configMAX_PRIORITIES →
  (∀ s', ok s' → tcbs s' = <[a := created p]> (tcbs s) → calm s s' → steady s s' →
     pendsv s' = pendsv s || xSchedulerRunning s && (uxPriority cur <? p) → Q tt s') →
  wp D (modify (λ s, set_task_number (u32 (uxTaskNumber s + 1)) s);;
        prvAddTaskToReadyList a;;
        s ← gets id;
        if xSchedulerRunning s then taskYIELD_ANY_CORE_IF_USING_PREEMPTION a else mret tt) Q s.
Proof.
  intros Hok E Ecur Hp HQ. apply wp_bind, wp_modify, wp_bind. set (s1 := set_task_number _ s).
  assert (ok s1) as Hok1 by (destruct Hok as [HP HR HT]; split; [by destruct HP|by destruct HR|by destruct HT]).
  apply (wp_add_ready a (new_tcb p)); [done|done|]. apply wp_bind, wp_gets. change (id ?x) with x.
  set (s2 := readied a (new_tcb p) s1). assert (ok s2) as Hok2 by by apply ok_readied.
  change (xSchedulerRunning s2) with (xSchedulerRunning s).
  assert (∀ b, ok (set_pendsv b s2)) as Hok3 by (intros b; by apply ok_pendsv).
  destruct (xSchedulerRunning s) eqn:Hr; [|apply wp_ret, HQ; try done; by rewrite orb_false_r].
  apply wp_bind. set (cur' := if decide (pxCurrentTCB s = a) then created p else cur).
  assert (uxPriority cur' = uxPriority cur) as Hpc.
  { unfold cur'. case_decide as Hca; [|done]. rewrite Hca in Ecur. simplify_eq. done. }
  apply (wp_higher a (created p) cur'); [apply lookup_insert_eq| |].
  { change (tcbs s2 !! pxCurrentTCB s2) with (<[a := created p]> (tcbs s) !! pxCurrentTCB s). unfold cur'.
    case_decide as Hca; [by rewrite Hca, lookup_insert_eq|by rewrite lookup_insert_ne]. }
  rewrite Hpc. change (uxPriority (created p)) with p. destruct (uxPriority cur <? p).
  - apply wp_modify, HQ; try done. by rewrite orb_true_r.
  - apply wp_ret, HQ; try done. by rewrite orb_false_r.
Qed.

Lemma kernel_create idle asserts a p s : kernel_ok idle s → tcbs s !! a = None → a ≠ 0 →
  0 <= p < configMAX_PRIORITIES → uxCurrentNumberOfTasks s + 1 < 2 ^ 32 →
  wp False (xTaskCreate asserts (Some a) p) (λ r s', r = true ∧ kernel_ok idle s' ∧ tcbs s' = <[a := created p]> (tcbs s) ∧
    clock s' = clock s) s.
Proof.
  intros K Ha H0 Hp Hn. pose proof K as [K1 (ci&Ei&Hi) K3 K4 Kl Kw Kf K5 K6 (cc&Ec&Hc) K8].
  apply wp_bind, wp_new_task; [done|]. apply wp_bind, wp_bind, wp_modify, wp_bind, wp_gets.
  set (s1 := set_number _ _). change (id s1) with s1.
  assert (pxCurrentTCB s ≠ 0 ∧ pxCurrentTCB s ≠ a ∧ idle ≠ a) as (Hc0&Hca&Hia).
  { split_and!; intros Hx; [|congruence..]. rewrite Hx, (placed_null _ (ok_placed _ _ K1)) in Ec. done. }
  change (pxCurrentTCB s1) with (pxCurrentTCB s). rewrite (proj2 (Z.eqb_neq _ _)) by done.
  change (xSchedulerRunning s1) with (xSchedulerRunning s). rewrite K6. apply wp_bind, wp_ret.
  assert (ok s1) as Hok1.
  { pose proof (ok_new _ a (new_tcb p) s K1 Ha H0 ltac:(by intros []) Hp ltac:(simpl; lia)) as [HP HR HT].
    split; [by destruct HP|by destruct HR|by destruct HT]. }
  assert (tcbs s1 !! pxCurrentTCB s1 = Some cc) as Ec1 by (rewrite <- Ec; by apply lookup_insert_ne).
  eapply (wp_new_ready a p cc); [done|apply lookup_insert_eq|exact Ec1|done|].
  intros s' Hok' Et [C1 C2 C3 C4 C5] (S1&S2&S3&S4&S5) Hsv. apply wp_ret. split; [done|].
  assert (tcbs s' = <[a := created p]> (tcbs s)) as Et' by (rewrite Et; apply insert_insert_eq).
  assert (uxCurrentNumberOfTasks s1 = uxCurrentNumberOfTasks s + 1) as Hn1.
  { apply u32_small. unfold is_u32. lia. }
  split; [|by split; [|rewrite S1]]. change (xSchedulerRunning s1) with (xSchedulerRunning s) in *. rewrite K6 in Hsv, S5. split.
  - done.
  - exists ci. by rewrite Et', lookup_insert_ne.
  - rewrite S2. exact K3.
  - split; [|rewrite S3; apply K4]. apply pending_empty; [apply Hok'|]. intros t c. rewrite Et'.
    destruct (decide (t = a)) as [->|?]; [rewrite lookup_insert_eq; by intros [= <-]|].
    rewrite lookup_insert_ne by done. eapply pending_empty; [apply K1|apply K4].
  - intros t c. rewrite Et'. destruct (decide (t = a)) as [->|?];
      [rewrite lookup_insert_eq; by intros [= <-]|rewrite lookup_insert_ne by done; apply Kl].
  - intros t c. rewrite Et'. destruct (decide (t = a)) as [->|?];
      [rewrite lookup_insert_eq; by intros [= <-]|rewrite lookup_insert_ne by done; apply Kw].
  - intros t c. rewrite Et'. destruct (decide (t = a)) as [->|?];
      [rewrite lookup_insert_eq; by intros [= <-]|rewrite lookup_insert_ne by done; apply Kf].
  - rewrite C3, Hn1. lia.
  - done.
  - exists cc. rewrite C1, Et', lookup_insert_ne by done. split; [done|]. rewrite Hsv.
    intros [Hsp _]%orb_false_iff. auto.
  - rewrite Hsv. intros [Hsp Hpr]%orb_false_iff. rewrite S4. intros Hy. eapply (tops_changed a (created p) s); [by apply K8|done|by rewrite C1|].
    intros cur Ecur. rewrite decide_False by done. simplify_eq. intros _. apply Z.ltb_ge in Hpr. simpl. lia.
Qed.

(** ** Starting *)

(** The state of the kernel before the scheduler has been started: every task is
    ready, and the one to run is the last of the highest priority. *)
Record booting (s : scheduler) : Prop := {
  b_ok : ok s;
  b_suspended : uxSchedulerSuspended s = 0;
  b_pending : nothing_pending s;
  b_number : uxCurrentNumberOfTasks s = Z.of_nat (size (tcbs s));
  b_started : xSchedulerRunning s = false;
  b_switch : pendsv s = false;
  b_ready t c : tcbs s !! t = Some c → is_ready c ∧ ucNotifyState c = taskNOT_WAITING_NOTIFICATION ∧
    container EventItem c = None;
  b_tops : tcbs s = ∅ ∧ pxCurrentTCB s = 0 ∨ tops s;
}.

(** The variables as the start-up code leaves them; an uninitialised list is an
    empty one. *)
Definition boot : scheduler :=
  Scheduler ∅ (λ _, z_empty) 0 xDelayedTaskList1 xDelayedTaskList2 0 0 0 0 false 0 false 0 0 0 0 false.

Lemma boot_booting : booting boot.
Proof.
  split; try done; [|by left]. split.
  - split; try done; simpl; [intros; constructor|]. intros l t. split; [intros Ht; by apply not_elem_of_nil in Ht|]. by intros (c&E&_).
  - by split.
  - split; try done; [by left|]. intros; constructor.
Qed.

(** Emptying lists that hold nothing. *)
Lemma ok_emptied s z : ok s → (∀ t c k, tcbs s !! t = Some c → container k c = None) → (∀ l, z_items (z l) = []) →
  ok (set_overflow_list xDelayedTaskList2 (set_delayed_list xDelayedTaskList1 (set_lists z s))).
Proof.
  intros [HP HR HT] Hc Hz. split.
  - destruct HP as [P1 P2 P3 P4]. split; try done; simpl.
    + intros l. rewrite Hz. constructor.
    + intros l t. rewrite Hz. split; [intros Ht; by apply not_elem_of_nil in Ht|]. intros (c&E&Hl). by rewrite (Hc _ _ _ E) in Hl.
  - by destruct HR.
  - destruct HT as [T1 T2 T3 T4 T5 T6]. assert (∀ t c l, tcbs s !! t = Some c → state_of c ≠ Some l) as Hn.
    { intros t c l E. by rewrite (Hc t c StateItem E : state_of c = None). }
    split; simpl; try done; [by left| | | |].
    + intros l _. rewrite Hz. constructor.
    + intros t c E Hl. by destruct (Hn _ _ _ E Hl).
    + intros t c E Hl. by destruct (Hn _ _ _ E Hl).
    + intros t c E Hl. by destruct (Hn _ _ _ E Hl).
Qed.

Lemma booting_create {D} asserts a p s : booting s → tcbs s !! a = None → a ≠ 0 →
  0 <= p < configMAX_PRIORITIES → Z.of_nat (size (tcbs s)) + 1 < 2 ^ 32 →
  wp D (xTaskCreate asserts (Some a) p) (λ r s', r = true ∧ booting s' ∧ tcbs s' = <[a := created p]> (tcbs s)) s.
Proof.
  intros [B1 B2 B3 B4 B5 B6 B7 B8] Ha H0 Hp Hn.
  apply wp_bind, wp_new_task; [done|]. apply wp_bind, wp_bind, wp_modify, wp_bind, wp_gets.
  set (s1 := set_number _ _). change (id s1) with s1.
  assert (uxCurrentNumberOfTasks s1 = Z.of_nat (size (tcbs s)) + 1) as Hn1.
  { unfold s1. simpl. rewrite B4. apply u32_small. unfold is_u32. lia. }
  assert (ok s1) as Hok1.
  { pose proof (ok_new _ a (new_tcb p) s B1 Ha H0 ltac:(by intros []) Hp ltac:(simpl; lia)) as [HP HR HT].
    split; [by destruct HP|by destruct HR|by destruct HT]. }
  assert (∀ s2 s' cur, ok s' → tcbs s' = <[a := created p]> (tcbs s2) → tcbs s2 = tcbs s1 → calm s2 s' → steady s2 s' →
    pendsv s' = pendsv s2 || xSchedulerRunning s2 && (cur <? p) → uxSchedulerSuspended s2 = 0 →
    xPendedTicks s2 = xPendedTicks s → uxCurrentNumberOfTasks s2 = uxCurrentNumberOfTasks s1 →
    xSchedulerRunning s2 = false → pendsv s2 = false →
    (∃ c, <[a := created p]> (tcbs s) !! pxCurrentTCB s2 = Some c ∧ p <= uxPriority c ∧
          ∀ t d, tcbs s !! t = Some d → uxPriority d <= uxPriority c) →
    booting s' ∧ tcbs s' = <[a := created p]> (tcbs s)) as Hend.
  { intros s2 s' cur Hok' Et E2 [C1 C2 C3 C4 C5] (S1&S2&S3&S4&S5) Hsv G1 G2 G3 G4 G5 (c&Ec&Hpc&Hmax).
    assert (tcbs s' = <[a := created p]> (tcbs s)) as Et' by (rewrite Et, E2; apply insert_insert_eq).
    assert (∀ t d, tcbs s' !! t = Some d → is_ready d ∧ ucNotifyState d = taskNOT_WAITING_NOTIFICATION ∧
      container EventItem d = None) as Hall.
    { intros t d. rewrite Et'. destruct (decide (t = a)) as [->|?]; [rewrite lookup_insert_eq; by intros [= <-]|].
      rewrite lookup_insert_ne by done. apply B7. }
    split; [|done]. split; try done.
    - by rewrite S2.
    - split; [|rewrite S3, G2; apply B3]. apply pending_empty; [apply Hok'|]. intros t d. rewrite Et'.
      destruct (decide (t = a)) as [->|?]; [rewrite lookup_insert_eq; by intros [= <-]|].
      rewrite lookup_insert_ne by done. eapply pending_empty; [apply B1|apply B3].
    - rewrite C3, G3, Hn1, Et', map_size_insert_None by done. lia.
    - by rewrite S5.
    - by rewrite Hsv, G5, G4.
    - right. exists c. rewrite C1, Et'. split_and!; [done|by eapply Hall; rewrite Et'|]. intros t d.
      destruct (decide (t = a)) as [->|?]; [rewrite lookup_insert_eq; intros [= <-]; done|].
      rewrite lookup_insert_ne by done. intros Ed _. by eapply Hmax. }
  change (pxCurrentTCB s1) with (pxCurrentTCB s). change (xSchedulerRunning s1) with (xSchedulerRunning s). rewrite B5.
  apply wp_bind. destruct B8 as [[He Hc]|(c&Ec&Hc&Hmax)].
  - rewrite Hc, Z.eqb_refl. apply wp_bind, wp_modify. rewrite Hn1.
    replace (Z.of_nat (size (tcbs s)) + 1) with 1 by (by rewrite He, map_size_empty). rewrite Z.eqb_refl.
    do 2 apply wp_bind, wp_modify. apply wp_modify. set (s2 := set_overflow_list _ _).
    assert (tcbs s2 = <[a := new_tcb p]> ∅) as E2 by (unfold s2; simpl; by rewrite He).
    assert (ok s2) as Hok2.
    { apply ok_emptied.
      - destruct Hok1 as [HP HR HT]; split; [by destruct HP|by destruct HR|by destruct HT].
      - intros t d k. change (tcbs s2 !! t = Some d → container k d = None). rewrite E2.
        destruct (decide (t = a)) as [->|?]; [rewrite lookup_insert_eq; intros [= <-]; by destruct k|].
        by rewrite lookup_insert_ne, lookup_empty by done.
      - intros l. assert (z_items (lists s l) = []) as Hl.
        { apply elem_of_nil_inv. intros t (d&Ed&_)%(placed_member _ (ok_placed _ _ B1)). by rewrite He in Ed. }
        simpl. by destruct l. }
    eapply (wp_new_ready a p (new_tcb p)); [done|by rewrite E2, lookup_insert_eq|unfold s2; apply lookup_insert_eq|done|].
    intros s' Hok' Et HC HS Hsv. apply wp_ret. split; [done|]. eapply (Hend s2); try done.
    exists (created p). split; [apply lookup_insert_eq|]. split; [done|]. rewrite He. intros t d. by rewrite lookup_empty.
  - assert (pxCurrentTCB s ≠ 0 ∧ pxCurrentTCB s ≠ a) as (Hc0&Hca).
    { split; intros Hx; [|congruence]. rewrite Hx, (placed_null _ (ok_placed _ _ B1)) in Ec. done. }
    rewrite (proj2 (Z.eqb_neq _ _)) by done. simpl.
    assert (tcbs s1 !! pxCurrentTCB s1 = Some c) as Ec1 by (rewrite <- Ec; by apply lookup_insert_ne).
    apply wp_bind. eapply wp_current_tcb; [exact Ec1|]. apply wp_bind. eapply wp_get_tcb; [apply lookup_insert_eq|].
    change (uxPriority (new_tcb p)) with p. destruct (Z.leb_spec (uxPriority c) p).
    + apply wp_modify. set (s2 := set_current a s1).
      eapply (wp_new_ready a p (new_tcb p)); [|apply lookup_insert_eq|apply lookup_insert_eq|done|].
      { destruct Hok1 as [HP HR HT]; split; [by destruct HP|by destruct HR|by destruct HT]. }
      intros s' Hok' Et HC HS Hsv. apply wp_ret. split; [done|]. eapply (Hend s2); try done.
      exists (created p). split; [apply lookup_insert_eq|]. split; [done|]. intros t d Ed.
      pose proof (Hmax _ _ Ed (proj1 (B7 _ _ Ed))). simpl. lia.
    + apply wp_ret. eapply (wp_new_ready a p c); [done|apply lookup_insert_eq|exact Ec1|done|].
      intros s' Hok' Et HC HS Hsv. apply wp_ret. split; [done|]. eapply (Hend s1); try done.
      exists c. split; [by rewrite lookup_insert_ne|]. split; [lia|]. intros t d Ed. by eapply Hmax, B7.
Qed.

(** The idle task is the first that [vTaskStartScheduler] creates; the timer
    task's creation is code of [timers.c] that may create more tasks. *)
Lemma kernel_start {D} asserts idle timers s : booting s → tcbs s !! idle = None → idle ≠ 0 →
  Z.of_nat (size (tcbs s)) + 1 < 2 ^ 32 →
  (∀ s1, xTaskCreate asserts (Some idle) 0 s = Done (true, s1) →
     wp D timers (λ r s', r = true ∧ booting s' ∧ (∃ c, tcbs s' !! idle = Some c) ∧ Z.of_nat (size (tcbs s')) < 2 ^ 32) s1) →
  wp D (vTaskStartScheduler asserts (Some idle) timers) (λ _ s', kernel_ok idle s' ∧ tops s') s.
Proof.
  intros HB Hi H0 Hn Ht. apply wp_bind. pose proof (booting_create (D := False) asserts idle 0 s HB Hi H0 ltac:(done) Hn) as Hc.
  apply wp_inv in Hc as (r&s1&E1&->&HB1&_). eapply wp_intro; [exact E1|].
  apply wp_bind. eapply wp_mono; [by apply Ht|].
  intros _ s2 (->&[B1 B2 B3 B4 B5 B6 B7 B8]&(c&Ec)&Hsz). apply wp_bind, wp_modify, wp_bind, wp_modify, wp_modify.
  destruct B8 as [[He _]|B8]; [by rewrite He in Ec|].
  assert (0 < Z.of_nat (size (tcbs s2))) as Hpos.
  { destruct (size (tcbs s2)) eqn:Hs; [|lia]. apply map_size_empty_inv in Hs. by rewrite Hs in Ec. }
  assert (∀ t d, tcbs s2 !! t = Some d → ∀ l, is_delayed_list l = true → state_of d ≠ Some l) as Hnd.
  { intros t d Ed l Hl Hd. pose proof (proj1 (B7 _ _ Ed)) as Hr. unfold is_ready in Hr. rewrite Hd in Hr.
    injection Hr as ->. done. }
  assert (is_delayed_list (pxDelayedTaskList s2) = true ∧ is_delayed_list (pxOverflowDelayedTaskList s2) = true) as [D1 D2].
  { destruct (time_lists _ _ (ok_timed _ _ B1)) as [[-> ->]|[-> ->]]; done. }
  assert (ok (set_tick 0 (set_running true (set_unblock_time portMAX_DELAY s2)))) as Hok.
  { destruct B1 as [HP HR HT]. split; [by destruct HP|by destruct HR|]. destruct HT as [T1 T2 T3 T4 T5 T6].
    split; simpl; try done; intros t d Ed Hd; first [by destruct (Hnd _ _ Ed _ D1 Hd)|by destruct (Hnd _ _ Ed _ D2 Hd)]. }
  split; [|exact B8]. split; simpl; try done; [by exists c; split; [|apply (B7 _ _ Ec)]| | | |lia|].
  - intros t d Ed. by rewrite (proj1 (B7 _ _ Ed) : state_of d = _).
  - intros t d Ed. by rewrite (proj1 (proj2 (B7 _ _ Ed))).
  - intros t d Ed _. apply (B7 _ _ Ed).
  - destruct B8 as (c'&E'&Hc'&_). by exists c'.
Qed.

(** ** Operations on one task *)

(** [s'] is [s] with the task at [t] changed to [c'], in the lists its items say. *)
Record changes (t : Z) (c' : TCB_t) (s s' : scheduler) : Prop := {
  ch_ok : ok s';
  ch_frame : frame s' = frame s;
  ch_tcbs : tcbs s' = <[t := c']> (tcbs s);
}.

Lemma changes_refl t c s : ok s → tcbs s !! t = Some c → changes t c s s.
Proof. intros Hok E. split; [done..|]. by rewrite insert_id. Qed.
Lemma changes_trans t c c' s s1 s2 : changes t c s s1 → changes t c' s1 s2 → changes t c' s s2.
Proof. intros [_ F1 E1] [O2 F2 E2]. split; [done|congruence|]. by rewrite E2, E1, insert_insert_eq. Qed.
Lemma changes_lookup t c s s' : changes t c s s' → tcbs s' !! t = Some c.
Proof. intros [_ _ ->]. apply lookup_insert_eq. Qed.
Lemma changes_calm t c s s' : changes t c s s' → calm s s' ∧ pendsv s' = pendsv s ∧ xYieldPending s' = xYieldPending s.
Proof. intros [_ (F1&F2&F3&F4&F5&F6&F7&F8&F9&F10&F11)%frame_inv _]. by split. Qed.

Lemma ok_tick_of s s' : frame s' = frame s → ok_from (xTickCount s + 1) s' → ok s'.
Proof. intros (F1&F2&F3&F4&F5&_)%frame_inv H. unfold ok. by rewrite F5. Qed.

(** A task that is in no ready list changes its priority. *)
Lemma changes_priority t c c' s : ok s → tcbs s !! t = Some c → (∀ p, state_of c ≠ Some (pxReadyTasksLists p)) →
  (∀ k, container k c' = container k c) → wake_time c' = wake_time c →
  0 <= uxPriority c' < configMAX_PRIORITIES → 0 <= uxBasePriority c' <= uxPriority c' →
  changes t c' s (updated t c' s).
Proof.
  intros Hok E Hn Hc Hw Hp Hb. split; [|done..].
  pose proof (Hc StateItem) as Hs. simpl in Hs. destruct Hok as [HP HR HT]. split.
  - by eapply placed_updated.
  - apply (prioritised_changed t c' s); [done|done|pose proof (top_range _ HR); simpl; lia|done|].
    intros p Hsp. rewrite Hs in Hsp. by destruct (Hn p).
  - apply (timed_changed _ t c c' s); try done. intros l Hl Hd. by rewrite Hs in Hl.
Qed.

Section on_task.
Context {D : Prop}.

Lemma step_update t c f Q s : ok s → tcbs s !! t = Some c → (∀ k, container k (f c) = container k c) →
  wake_time (f c) = wake_time c → uxPriority (f c) = uxPriority c → 0 <= uxBasePriority (f c) <= uxPriority (f c) →
  (∀ s', changes t (f c) s s' → Q tt s') → wp D (upd_tcb t f) Q s.
Proof.
  intros Hok E Hc Hw Hp Hb HQ. eapply wp_upd_tcb; [exact E|]. apply HQ. split; [|done..]. by eapply ok_updated.
Qed.

Lemma changes_removed k l t c s : ok s → tcbs s !! t = Some c → container k c = Some l →
  changes t (with_container k None c) s (removed k l t c s).
Proof. intros. split; [by apply ok_removed|done..]. Qed.

Lemma step_remove k l t c Q s : ok s → tcbs s !! t = Some c → container k c = Some l →
  (∀ n s', changes t (with_container k None c) s s' → Q n s') → wp D (uxListRemove k t) Q s.
Proof.
  intros Hok E Hl HQ. eapply wp_remove; [done|done|]. intros n. by apply HQ, changes_removed.
Qed.

Lemma step_append l t c Q s : ok s → tcbs s !! t = Some c → container (kind_of l) c = None →
  is_delayed_list l = false → (∀ p, l ≠ pxReadyTasksLists p) →
  (∀ s', changes t (with_container (kind_of l) (Some l) c) s s' → Q tt s') → wp D (listINSERT_END l t) Q s.
Proof.
  intros Hok E Hn Hd Hr HQ. eapply wp_append; [done|]. apply HQ. split; [|done..]. by apply ok_appended.
Qed.

Lemma step_insert_event a t c Q s : ok s → tcbs s !! t = Some c → container EventItem c = None →
  (∀ s', changes t (with_container EventItem (Some (EventList a)) c) s s' → Q tt s') →
  wp D (vListInsert (EventList a) t) Q s.
Proof.
  intros Hok E Hn HQ. eapply wp_insert; [done|]. apply HQ. split; [|done..]. destruct Hok as [HP HR HT]. split.
  - by apply placed_inserted.
  - apply (prioritised_changed t (with_container EventItem (Some (EventList a)) c) s);
      [done|done|pose proof (top_range _ HR); simpl; lia|by apply (priority_range _ HR _ _ E)|].
    intros p Hsp. simpl in Hsp. pose proof (ready_priority _ HR _ _ _ E Hsp) as ->. split; [done|]. by apply (top_bound _ HR t c).
  - apply (timed_changed _ t c (with_container EventItem (Some (EventList a)) c) s); try done.
    intros l Hl. split; [|done]. unfold inserted. simpl. by rewrite fn_lookup_insert_ne by (intros <-; done).
Qed.

Lemma step_ready t c Q s : ok s → tcbs s !! t = Some c → state_of c = None →
  (∀ s', changes t (with_container StateItem (Some (pxReadyTasksLists (uxPriority c))) c) s s' → Q tt s') →
  wp D (prvAddTaskToReadyList t) Q s.
Proof.
  intros Hok E Hn HQ. apply (wp_add_ready t c); [done|apply (priority_range _ (ok_prioritised _ _ Hok) _ _ E)|].
  apply HQ. split; [|done..]. by apply ok_readied.
Qed.

Lemma step_leave_event t c Q s : ok s → tcbs s !! t = Some c →
  (∀ s', changes t (with_container EventItem None c) s s' → Q tt s') → wp D (leave_event_list t) Q s.
Proof.
  intros Hok E HQ. eapply wp_leave_event; [exact E|]. apply HQ.
  assert (frame (left_event t c s) = frame s) as Hf by (unfold left_event; by destruct (container EventItem c)).
  split; [|done|by apply tcbs_left_event]. eapply ok_tick_of; [exact Hf|]. by apply ok_left_event.
Qed.

Lemma step_reset_unblock t c Q s : ok s → tcbs s !! t = Some c → (∀ s', changes t c s s' → Q tt s') →
  wp D prvResetNextTaskUnblockTime Q s.
Proof.
  intros Hok E HQ. apply (wp_reset_unblock (xTickCount s + 1) (xNextTaskUnblockTime s)).
  - assert (set_unblock_time (xNextTaskUnblockTime s) s = s) as -> by by destruct s. done.
  - intros v Hv. apply HQ. split; [done|done|]. simpl. by rewrite insert_id.
Qed.
End on_task.

(** The kernel after an operation that changed one task: either it has asked for
    a switch, or the change does not call for one. *)
Record fits (idle t : Z) (c' : TCB_t) : Prop := {
  fits_idle : t = idle → is_ready c';
  fits_listed : state_of c' ≠ None;
  fits_pending : container EventItem c' ≠ Some xPendingReadyList;
  fits_waiting : ucNotifyState c' = taskWAITING_NOTIFICATION ∨ is_ready c' → container EventItem c' = None;
}.

Lemma kernel_changes_yield idle t c c' s s' : kernel_ok idle s → tcbs s !! t = Some c → changes t c' s s' →
  fits idle t c' → kernel_ok idle (set_pendsv true s').
Proof.
  intros K E Hch [Hi Hs He Hw]. destruct (changes_calm _ _ _ _ Hch) as (HC&Hsv&Hy).
  apply (kernel_changed idle t c c' s); try done; [by apply ok_pendsv, Hch|by destruct HC; split|apply Hch|by left].
Qed.

Lemma kernel_changes idle t c c' s s' : kernel_ok idle s → tcbs s !! t = Some c → changes t c' s s' →
  fits idle t c' → (pendsv s = false → t = pxCurrentTCB s → is_ready c') → (tops s → below s t c') → kernel_ok idle s'.
Proof.
  intros K E Hch [Hi Hs He Hw] Hr Hb. destruct (changes_calm _ _ _ _ Hch) as (HC&Hsv&Hy).
  apply (kernel_changed idle t c c' s); try done; [apply Hch..|right].
  rewrite Hsv, Hy. split_and!; [done..|]. destruct (xYieldPending s); auto.
Qed.

(** ** Suspending and resuming a task *)

Definition handle (h : Z) (s : scheduler) : Z := if h =? 0 then pxCurrentTCB s else h.

Lemma wp_handle {D} h Q s : Q (handle h s) s → wp D (prvGetTCBFromHandle h) Q s.
Proof. intros HQ. apply wp_bind, wp_gets, wp_ret, HQ. Qed.

Definition after_suspend (c : TCB_t) : TCB_t :=
  let c' := with_container StateItem (Some xSuspendedTaskList) (with_container EventItem None (with_container StateItem None c)) in
  if ucNotifyState c =? taskWAITING_NOTIFICATION then with_notify_state taskNOT_WAITING_NOTIFICATION c' else c'.

Lemma kernel_suspend idle asserts h s c : kernel_ok idle s → tcbs s !! handle h s = Some c → handle h s ≠ idle →
  wp False (vTaskSuspend asserts h) (λ _ s', kernel_ok idle s' ∧ tcbs s' = <[handle h s := after_suspend c]> (tcbs s)) s.
Proof.
  intros K E Hidle. set (t := handle h s) in *. destruct (state_of c) as [l|] eqn:El; [|by destruct (k_listed _ _ K _ _ E)].
  apply wp_bind, wp_handle. fold t.
  apply wp_bind. eapply step_remove; [apply K|exact E|exact El|]. intros _ s1 H1.
  apply wp_bind. eapply step_leave_event; [apply H1|by eapply changes_lookup|]. intros s2 H2.
  apply wp_bind. eapply step_append; [apply H2|by eapply changes_lookup|done..|]. intros s3 H3.
  apply wp_bind. eapply wp_get_tcb; [by eapply changes_lookup|]. set (c3 := with_container (kind_of _) _ _) in *.
  assert (changes t c3 s s3) as H03 by eauto using changes_trans.
  apply wp_bind. eapply wp_mono with (Q := λ _, changes t (after_suspend c) s).
  { unfold after_suspend. change (ucNotifyState c3) with (ucNotifyState c). destruct (_ =? _).
    - eapply step_update; [apply H3|by eapply changes_lookup|by intros []|done..| |].
      + exact (proj2 (priority_range _ (ok_prioritised _ _ (k_ok _ _ K)) _ _ E)).
      + intros s4 H4. by eapply changes_trans.
    - by apply wp_ret. }
  intros _ s4 H4. pose proof (frame_inv _ _ (ch_frame _ _ _ _ H4)) as (F1&F2&F3&F4&F5&F6&F7&F8&F9&F10&F11).
  apply wp_bind, wp_gets. change (id s4) with s4. rewrite F6, (k_started _ _ K), F1.
  apply wp_bind. eapply step_reset_unblock; [apply H4|by eapply changes_lookup|]. intros s5 H5.
  assert (changes t (after_suspend c) s s5) as H05 by eauto using changes_trans.
  assert (fits idle t (after_suspend c)) as Hfit by (unfold after_suspend; destruct (Z.eqb_spec (ucNotifyState c) taskWAITING_NOTIFICATION); by split).
  destruct (Z.eqb_spec t (pxCurrentTCB s)) as [Ht|Ht].
  - apply wp_bind, wp_assert; [by rewrite F10, (k_suspended _ _ K)|]. apply wp_modify.
    split; [by eapply kernel_changes_yield|apply H05].
  - apply wp_ret. split; [|apply H05]. eapply kernel_changes; try done. intros _ cur _. rewrite decide_False by done.
    unfold after_suspend. by destruct (_ =? _).
Qed.

Definition in_ready (c : TCB_t) : TCB_t := with_container StateItem (Some (pxReadyTasksLists (uxPriority c))) c.

Lemma wp_yield_any {D} t c cur Q s : tcbs s !! t = Some c → tcbs s !! pxCurrentTCB s = Some cur →
  Q tt (if uxPriority cur <? uxPriority c then set_pendsv true s else s) →
  wp D (taskYIELD_ANY_CORE_IF_USING_PREEMPTION t) Q s.
Proof.
  intros E Ec HQ. apply wp_bind. eapply wp_higher; [done|done|]. destruct (_ <? _); [by apply wp_modify|by apply wp_ret].
Qed.

(** A task has been made ready, and a yield follows if it is a higher one. *)
Lemma kernel_yield_to idle t c c' s s' : kernel_ok idle s → tcbs s !! t = Some c → changes t c' s s' →
  fits idle t c' → is_ready c' → (t = pxCurrentTCB s → uxPriority c <= uxPriority c') →
  wp False (taskYIELD_ANY_CORE_IF_USING_PREEMPTION t) (λ _ s'', kernel_ok idle s'' ∧ tcbs s'' = <[t := c']> (tcbs s)) s'.
Proof.
  intros K E Hch Hfit Hr Hle. destruct (k_current _ _ K) as (cur&Ec&_).
  destruct (changes_calm _ _ _ _ Hch) as ([C1 _ _ _ _]&_&_).
  set (cur' := if decide (pxCurrentTCB s = t) then c' else cur).
  assert (tcbs s' !! pxCurrentTCB s' = Some cur') as Ec'.
  { rewrite (ch_tcbs _ _ _ _ Hch), C1. unfold cur'. case_decide as Ht; [by rewrite Ht, lookup_insert_eq|by rewrite lookup_insert_ne]. }
  eapply wp_yield_any; [by eapply changes_lookup|exact Ec'|]. destruct (Z.ltb_spec (uxPriority cur') (uxPriority c')) as [Hlt|Hge].
  - split; [exact (kernel_changes_yield idle t c c' s s' K E Hch Hfit)|apply Hch].
  - split; [|apply Hch]. refine (kernel_changes idle t c c' s s' K E Hch Hfit (λ _ _, Hr) _). intros _ cur0 E0.
    assert (cur0 = cur) as -> by congruence. unfold cur' in Hge. destruct (decide (t = pxCurrentTCB s)) as [Ht|Ht].
    + split; [done|]. assert (cur = c) as -> by congruence. auto.
    + rewrite decide_False in Hge by congruence. done.
Qed.

Definition is_suspended (c : TCB_t) : bool :=
  bool_decide (state_of c = Some xSuspendedTaskList) && bool_decide (item_container (xEventListItem c) = None) &&
  negb (ucNotifyState c =? taskWAITING_NOTIFICATION).

Lemma kernel_resume idle asserts t c s : kernel_ok idle s → tcbs s !! t = Some c →
  wp False (vTaskResume asserts t) (λ _ s', kernel_ok idle s' ∧
    tcbs s' = <[t := if negb (t =? pxCurrentTCB s) && is_suspended c then in_ready c else c]> (tcbs s)) s.
Proof.
  intros K E. assert (t ≠ 0) as H0.
  { intros ->. by rewrite (placed_null _ (ok_placed _ _ (k_ok _ _ K))) in E. }
  apply wp_bind, wp_assert; [by rewrite (proj2 (Z.eqb_neq _ _))|]. apply wp_bind, wp_gets. change (id s) with s.
  rewrite (proj2 (Z.eqb_neq t 0)), andb_true_r by done. destruct (Z.eqb_spec t (pxCurrentTCB s)) as [Ht|Ht]; simpl.
  { apply wp_ret. split; [done|]. by rewrite insert_id. }
  apply wp_bind, wp_bind, wp_assert; [by rewrite (proj2 (Z.eqb_neq _ _))|]. apply wp_bind. eapply wp_get_tcb; [exact E|].
  apply wp_ret. fold (is_suspended c). destruct (is_suspended c) eqn:Hsus.
  - apply andb_true_iff in Hsus as [[Hst Hev]%andb_true_iff Hnw]. apply bool_decide_eq_true in Hst, Hev.
    apply wp_bind. eapply step_remove; [apply K|exact E|exact Hst|]. intros _ s1 H1.
    apply wp_bind. eapply step_ready; [apply H1|by eapply changes_lookup|done|]. intros s2 H2.
    assert (changes t (in_ready c) s s2) as H02 by (eapply changes_trans; [exact H1|exact H2]).
    eapply (kernel_yield_to idle t c (in_ready c)); try done.
    split; try done; change (container EventItem (in_ready c)) with (item_container (xEventListItem c)); by rewrite Hev.
  - apply wp_ret. split; [done|]. by rewrite insert_id.
Qed.

(** ** Priorities *)

(** The fields of the task that a change of priority leaves alone. *)
Record same_place (c c' : TCB_t) : Prop := {
  sp_containers k : container k c' = container k c;
  sp_wake : wake_time c' = wake_time c;
  sp_notify : ucNotifyState c' = ucNotifyState c;
  sp_priority : 0 <= uxPriority c' < configMAX_PRIORITIES;
  sp_base : 0 <= uxBasePriority c' <= uxPriority c';
}.

(** A ready task moves to the list of its new priority, another stays where it is. *)
Definition repriced (c c' : TCB_t) : TCB_t := if decide (is_ready c) then in_ready c' else c'.

Lemma not_ready_anywhere s t c : ok s → tcbs s !! t = Some c → ¬ is_ready c → ∀ p, state_of c ≠ Some (pxReadyTasksLists p).
Proof.
  intros [_ HR _] E Hn p Hp. apply Hn. unfold is_ready. rewrite Hp. by rewrite (ready_priority _ HR _ _ _ E Hp).
Qed.

Lemma updated_updated t c c' s : updated t c' (updated t c s) = updated t c' s.
Proof. unfold updated. simpl. rewrite insert_insert_eq. by destruct s. Qed.

Lemma in_ready_container c : with_container StateItem (Some (pxReadyTasksLists (uxPriority c))) (with_container StateItem None c) = in_ready c.
Proof. done. Qed.

Section priorities.
Context {D : Prop}.

(** After the priority of a task in place has been changed. *)
Lemma step_requeue t c c' Q s : ok s → tcbs s !! t = Some c → same_place c c' →
  (∀ s', changes t (repriced c c') s s' → Q tt s') → wp D (requeue t (uxPriority c) (mret tt)) Q (updated t c' s).
Proof.
  intros Hok E [Hc Hw _ Hp Hb] HQ. pose proof (Hc StateItem) as Hs. simpl in Hs.
  pose proof (priority_range _ (ok_prioritised _ _ Hok) _ _ E) as [Hp0 _].
  apply wp_bind. eapply wp_get_tcb; [apply lookup_insert_eq|]. apply wp_bind, wp_ready_list; [done|].
  rewrite Hs. unfold repriced, is_ready in HQ. destruct (decide (state_of c = _)) as [Hr|Hr].
  - apply wp_bind. eapply (wp_remove StateItem); [apply lookup_insert_eq|by rewrite <- Hr|]. intros _.
    set (c0 := with_container StateItem None c').
    assert (removed StateItem (pxReadyTasksLists (uxPriority c)) t c' (updated t c' s) =
            updated t c0 (removed StateItem (pxReadyTasksLists (uxPriority c)) t c s)) as ->.
    { unfold removed, updated. simpl. by rewrite !insert_insert_eq. }
    apply wp_bind, wp_ret. set (s1 := removed _ _ t c s).
    assert (ok s1) as Hok1 by by apply ok_removed.
    assert (changes t c0 s (updated t c0 s1)) as H1.
    { eapply changes_trans; [by apply (changes_removed StateItem (pxReadyTasksLists (uxPriority c)) t c)|].
      eapply changes_priority; [done|apply lookup_insert_eq|done| |done..]. intros []; [done|apply (Hc EventItem)]. }
    eapply step_ready; [apply H1|by eapply changes_lookup|done|]. intros s2 H2.
    apply HQ. eapply changes_trans; [exact H1|exact H2].
  - apply wp_ret, HQ. apply (changes_priority t c); try done. by eapply not_ready_anywhere.
Qed.

(** The change comes after the task has left its list. *)
Lemma step_requeue_change t c f Q s : ok s → tcbs s !! t = Some c →
  (∀ l, f (with_container StateItem l c) = with_container StateItem l (f c)) → same_place c (f c) →
  (∀ s', changes t (repriced c (f c)) s s' → Q tt s') → wp D (requeue t (uxPriority c) (upd_tcb t f)) Q s.
Proof.
  intros Hok E Hf Hsame HQ. pose proof Hsame as [Hc Hw _ Hp Hb]. pose proof (Hc StateItem) as Hs. simpl in Hs.
  pose proof (priority_range _ (ok_prioritised _ _ Hok) _ _ E) as [Hp0 _].
  apply wp_bind. eapply wp_get_tcb; [exact E|]. apply wp_bind, wp_ready_list; [done|].
  unfold repriced, is_ready in HQ. destruct (decide (state_of c = _)) as [Hr|Hr].
  - apply wp_bind. eapply step_remove; [done|exact E|exact Hr|]. intros _ s1 H1.
    apply wp_bind. eapply wp_upd_tcb; [by eapply changes_lookup|]. rewrite Hf. set (c0 := with_container StateItem None (f c)).
    assert (changes t c0 s1 (updated t c0 s1)) as H2.
    { eapply changes_priority; [apply H1|by eapply changes_lookup|done| |done..]. intros []; [done|apply (Hc EventItem)]. }
    eapply step_ready; [apply H2|by eapply changes_lookup|done|]. intros s3 H3.
    apply HQ. eapply changes_trans; [exact H1|]. eapply changes_trans; [exact H2|exact H3].
  - eapply wp_upd_tcb; [exact E|]. apply HQ. apply (changes_priority t c); try done. by eapply not_ready_anywhere.
Qed.

Definition event_reset (p : Z) (c : TCB_t) : TCB_t :=
  if Z.land (item_value (xEventListItem c)) taskEVENT_LIST_ITEM_VALUE_IN_USE =? 0
  then with_value EventItem (u32 (configMAX_PRIORITIES - p)) c else c.

Lemma wp_event_reset t c p Q s : tcbs s !! t = Some c → Q tt (updated t (event_reset p c) s) →
  wp D (reset_event_value t p) Q s.
Proof.
  intros E HQ. apply wp_bind. eapply wp_get_tcb; [exact E|]. unfold event_reset in HQ. destruct (_ =? 0).
  - by eapply wp_upd_tcb.
  - apply wp_ret. unfold updated in HQ. rewrite insert_id in HQ by done. by destruct s.
Qed.
End priorities.

(** ** [vTaskPrioritySet] *)

Definition set_priority (p : Z) (c : TCB_t) : TCB_t :=
  event_reset p (with_base_priority p
    (if (uxBasePriority c =? uxPriority c) || (uxPriority c <? p) then with_priority p c else c)).

Lemma set_priority_place p c : 0 <= p < configMAX_PRIORITIES → 0 <= uxPriority c < configMAX_PRIORITIES →
  0 <= uxBasePriority c <= uxPriority c → same_place c (set_priority p c) ∧
  uxPriority (set_priority p c) = (if (uxBasePriority c =? uxPriority c) || (uxPriority c <? p) then p else uxPriority c).
Proof.
  intros Hp Hc Hb. unfold set_priority, event_reset.
  destruct (Z.eqb_spec (uxBasePriority c) (uxPriority c)), (Z.ltb_spec (uxPriority c) p), (Z.land _ _ =? 0); simpl;
    (split; [|done]); split; simpl; lia || done || by intros [].
Qed.

Lemma repriced_ready c c' : is_ready c → is_ready (repriced c c').
Proof. intros H. unfold repriced. by rewrite decide_True. Qed.
Lemma repriced_priority c c' : uxPriority (repriced c c') = uxPriority c'.
Proof. unfold repriced. by case_decide. Qed.

(** Where a task was not ready it does not become so. *)
Lemma repriced_unready s t c c' : ok s → tcbs s !! t = Some c → same_place c c' → is_ready (repriced c c') → is_ready c.
Proof.
  intros Hok E [Hc _ _ _ _] Hr. destruct (decide (is_ready c)) as [|Hn]; [done|]. unfold repriced in Hr.
  rewrite decide_False in Hr by done. pose proof (Hc StateItem) as Hs. simpl in Hs. unfold is_ready in Hr.
  rewrite Hs in Hr. by destruct (not_ready_anywhere _ _ _ Hok E Hn _ Hr).
Qed.

Lemma fits_repriced idle t c c' s : kernel_ok idle s → tcbs s !! t = Some c → same_place c c' → fits idle t (repriced c c').
Proof.
  intros K E Hsame. pose proof Hsame as [Hc Hw Hn _ _]. destruct (k_idle _ _ K) as (ci&Ei&Hi).
  assert (container EventItem (repriced c c') = container EventItem c) as He.
  { rewrite <- (Hc EventItem). unfold repriced. by case_decide. }
  assert (ucNotifyState (repriced c c') = ucNotifyState c) as Hns by (rewrite <- Hn; unfold repriced; by case_decide).
  split.
  - intros ->. apply repriced_ready. by simplify_eq.
  - unfold repriced. case_decide; [done|]. rewrite (Hc StateItem : state_of c' = _). by eapply (k_listed _ _ K).
  - rewrite He. eapply pending_empty; [apply K|apply K|exact E].
  - rewrite He, Hns. intros [Hwt|Hr]; [by eapply (k_waiting _ _ K)|]. eapply (k_free _ _ K); [exact E|].
    by eapply repriced_unready; [apply K|..].
Qed.

Lemma kernel_priority_set idle asserts h p s c : kernel_ok idle s → tcbs s !! handle h s = Some c →
  0 <= p < configMAX_PRIORITIES →
  wp False (vTaskPrioritySet asserts h p) (λ _ s', kernel_ok idle s' ∧
    tcbs s' = <[handle h s := if uxBasePriority c =? p then c else repriced c (set_priority p c)]> (tcbs s)) s.
Proof.
  intros K E Hp. set (t := handle h s) in *. pose proof (k_ok _ _ K) as Hok.
  destruct (priority_range _ (ok_prioritised _ _ Hok) _ _ E) as [Hpc Hbc].
  destruct (set_priority_place p c Hp Hpc Hbc) as [Hsame Hprio].
  destruct (k_current _ _ K) as (cur&Ec&Hcur).
  apply wp_bind, wp_assert; [apply Z.ltb_lt; lia|]. rewrite (proj2 (Z.leb_gt _ _)) by lia.
  apply wp_bind, wp_handle. fold t. apply wp_bind, wp_gets. change (id s) with s.
  apply wp_bind. eapply wp_get_tcb; [exact E|]. cbv zeta.
  destruct (Z.eqb_spec (uxBasePriority c) p) as [Hb|Hb]; cbn [negb].
  { apply wp_ret. split; [done|]. by rewrite insert_id. }
  apply wp_bind. set (yield := if uxBasePriority c <? p then negb (t =? pxCurrentTCB s) && (uxPriority cur <? p) else t =? pxCurrentTCB s).
  eapply wp_mono with (Q := λ y s', y = yield ∧ s' = s).
  { unfold yield. destruct (uxBasePriority c <? p); [|by apply wp_ret]. destruct (t =? pxCurrentTCB s); [by apply wp_ret|].
    apply wp_bind. eapply wp_current_tcb; [exact Ec|]. by apply wp_ret. }
  intros _ _ [-> ->]. set (c1 := if (uxBasePriority c =? uxPriority c) || (uxPriority c <? p) then with_priority p c else c).
  apply wp_bind. eapply wp_mono with (Q := λ _ s', s' = updated t c1 s).
  { unfold c1. destruct (_ || _); [by eapply wp_upd_tcb|]. apply wp_ret. unfold updated. rewrite insert_id by done. by destruct s. }
  intros _ _ ->. apply wp_bind. eapply wp_upd_tcb; [apply lookup_insert_eq|]. rewrite updated_updated.
  apply wp_bind. eapply wp_event_reset; [apply lookup_insert_eq|]. rewrite updated_updated. fold (set_priority p c).
  change (event_reset p (with_base_priority p c1)) with (set_priority p c).
  apply wp_bind. apply step_requeue; [done|done|done|]. intros s' Hch.
  pose proof (fits_repriced idle t c (set_priority p c) s K E Hsame) as Hfit.
  destruct yield eqn:Hy.
  - apply wp_modify. split; [exact (kernel_changes_yield idle t c _ s s' K E Hch Hfit)|apply Hch].
  - apply wp_ret. split; [|apply Hch]. refine (kernel_changes idle t c _ s s' K E Hch Hfit _ _).
    + intros Hp0 Ht. assert (c = cur) as -> by congruence. by apply repriced_ready, Hcur.
    + intros (cur1&E1&Hr1&Hmax) cur0 E0. assert (cur0 = cur ∧ cur1 = cur) as [-> ->] by (split; congruence).
      rewrite repriced_priority, Hprio. unfold yield in Hy. case_decide as Ht.
      * assert (c = cur) as -> by congruence. split; [by apply repriced_ready|]. rewrite (proj2 (Z.eqb_eq _ _) Ht) in Hy.
        destruct (Z.ltb_spec (uxBasePriority cur) p); [|done].
        destruct (Z.eqb_spec (uxBasePriority cur) (uxPriority cur)), (Z.ltb_spec (uxPriority cur) p); simpl; lia.
      * intros Hr. pose proof (Hmax _ _ E (repriced_unready _ _ _ _ Hok E Hsame Hr)) as Hle.
        rewrite (proj2 (Z.eqb_neq _ _) Ht) in Hy.
        destruct (Z.ltb_spec (uxBasePriority c) p), (Z.ltb_spec (uxPriority cur) p),
          (Z.eqb_spec (uxBasePriority c) (uxPriority c)), (Z.ltb_spec (uxPriority c) p); simpl in *; lia || done.
Qed.

(** ** Priority inheritance *)

(** What holds of a holder after a task that waits for its mutex has lent it its priority. *)
Definition inherited (p : Z) (c : TCB_t) : TCB_t :=
  if uxPriority c <? p then let c' := event_reset p c in repriced c' (with_priority p c') else c.

Lemma event_reset_fields p c : uxPriority (event_reset p c) = uxPriority c ∧ uxBasePriority (event_reset p c) = uxBasePriority c ∧
  wake_time (event_reset p c) = wake_time c ∧ ucNotifyState (event_reset p c) = ucNotifyState c ∧
  ∀ k, container k (event_reset p c) = container k c.
Proof. unfold event_reset. destruct (_ =? 0); (split_and!; [done..|]); by intros []. Qed.

(** The holder gets the priority of the task that waits, if that is the higher. *)
Lemma kernel_inherit idle h c cur s : kernel_ok idle s → tcbs s !! h = Some c → tcbs s !! pxCurrentTCB s = Some cur →
  wp False (xTaskPriorityInherit h) (λ r s', r = (uxBasePriority c <? uxPriority cur) ∧ kernel_ok idle s' ∧
    changes h (inherited (uxPriority cur) c) s s') s.
Proof.
  intros K E Ec. pose proof (k_ok _ _ K) as Hok. set (p := uxPriority cur).
  destruct (priority_range _ (ok_prioritised _ _ Hok) _ _ E) as [Hpc Hbc].
  destruct (priority_range _ (ok_prioritised _ _ Hok) _ _ Ec) as [Hpp _]. fold p in Hpp.
  assert (h ≠ 0) as H0 by (intros ->; by rewrite (placed_null _ (ok_placed _ _ Hok)) in E).
  unfold xTaskPriorityInherit. rewrite (proj2 (Z.eqb_neq _ _)) by done. cbn [negb].
  apply wp_bind. eapply wp_get_tcb; [exact E|]. apply wp_bind. eapply wp_current_tcb; [exact Ec|]. fold p.
  unfold inherited. destruct (Z.ltb_spec (uxPriority c) p) as [Hlt|Hge].
  - destruct (event_reset_fields p c) as (R1&R2&R3&R4&R5). set (c1 := event_reset p c) in *.
    assert (changes h c1 s (updated h c1 s)) as H1.
    { split; [|done..]. apply (ok_updated _ h c); try done. by rewrite R1, R2. }
    apply wp_bind. eapply wp_event_reset; [exact E|]. fold c1. apply wp_bind. rewrite <- R1.
    assert (same_place c1 (with_priority p c1)) as Hsame.
    { split; simpl; rewrite ?R2; lia || done || by intros []. }
    eapply step_requeue_change; [apply H1|by eapply changes_lookup|by destruct c1|done|].
    intros s' H2. assert (changes h (repriced c1 (with_priority p c1)) s s') as Hch by eauto using changes_trans.
    apply wp_ret. split; [symmetry; apply Z.ltb_lt; lia|]. split; [|done].
    assert (tcbs (updated h c1 s) !! h = Some c1) as E1 by by eapply changes_lookup.
    assert (is_ready c1 ↔ is_ready c) as Hrc.
    { unfold is_ready. by rewrite R1, (R5 StateItem : state_of c1 = _). }
    assert (is_ready (repriced c1 (with_priority p c1)) → is_ready c) as Hrr.
    { intros Hr. apply Hrc. by eapply repriced_unready; [apply H1|..]. }
    assert (∀ k, container k (repriced c1 (with_priority p c1)) = container k c ∨ is_ready c ∧ k = StateItem) as Hk.
    { intros k. unfold repriced. case_decide; [|left; rewrite <- (R5 k); by destruct k].
      destruct k; [right; by rewrite <- Hrc|left; by rewrite <- (R5 EventItem)]. }
    assert (container EventItem (repriced c1 (with_priority p c1)) = container EventItem c) as He.
    { by destruct (Hk EventItem) as [?|[_ ?]]. }
    assert (ucNotifyState (repriced c1 (with_priority p c1)) = ucNotifyState c) as Hn.
    { unfold repriced. by case_decide. }
    refine (kernel_changes idle h c _ s s' K E Hch _ _ _).
    + split.
      * intros ->. apply repriced_ready. destruct (k_idle _ _ K) as (ci&Ei&Hi). apply Hrc. by simplify_eq.
      * unfold repriced. case_decide; [done|]. simpl. rewrite (R5 StateItem : state_of c1 = _). by eapply (k_listed _ _ K).
      * rewrite He. eapply pending_empty; [apply K|apply K|exact E].
      * rewrite He, Hn. intros [Hw|Hr]; [by eapply (k_waiting _ _ K)|]. eapply (k_free _ _ K); [exact E|auto].
    + intros Hp Hh. assert (c = cur) as -> by congruence. unfold p in Hlt. lia.
    + intros _ cur0 E0. assert (cur0 = cur) as -> by congruence. rewrite repriced_priority. case_decide as Hh.
      * assert (c = cur) as -> by congruence. unfold p in Hlt. lia.
      * intros _. simpl. unfold p. lia.
  - apply wp_ret. split; [done|]. split; [done|]. by apply changes_refl.
Qed.

(** Giving a mutex back, and the yield of the caller. *)
Definition give_back (asserts : bool) (h : Z) : ST scheduler unit :=
  y ← xTaskPriorityDisinherit asserts h; if y : bool then taskYIELD_WITHIN_API else mret tt.

Definition disinherited (c : TCB_t) : TCB_t :=
  let c1 := with_mutexes_held (u32 (uxMutexesHeld c - 1)) c in
  if negb (uxPriority c =? uxBasePriority c) && (u32 (uxMutexesHeld c - 1) =? 0)
  then in_ready (with_value EventItem (u32 (configMAX_PRIORITIES - uxBasePriority c)) (with_priority (uxBasePriority c) c1))
  else c1.

Lemma kernel_disinherit idle asserts c s : kernel_ok idle s → tcbs s !! pxCurrentTCB s = Some c → is_ready c →
  uxMutexesHeld c ≠ 0 →
  wp False (give_back asserts (pxCurrentTCB s)) (λ _ s', kernel_ok idle s' ∧
    tcbs s' = <[pxCurrentTCB s := disinherited c]> (tcbs s) ∧
    (u32 (uxMutexesHeld c - 1) = 0 → uxBasePriority c < uxPriority c → pendsv s' = true)) s.
Proof.
  intros K E Hr Hheld. set (t := pxCurrentTCB s) in *. pose proof (k_ok _ _ K) as Hok.
  destruct (priority_range _ (ok_prioritised _ _ Hok) _ _ E) as [Hpc Hbc].
  assert (t ≠ 0) as H0 by (intros H; by rewrite H, (placed_null _ (ok_placed _ _ Hok)) in E).
  pose proof (k_free _ _ K _ _ E Hr) as Hfree.
  apply wp_bind. unfold xTaskPriorityDisinherit. rewrite (proj2 (Z.eqb_neq t 0)) by done. cbn [negb].
  apply wp_bind, wp_gets. fold t. apply wp_bind, wp_assert; [apply Z.eqb_refl|].
  apply wp_bind. eapply wp_get_tcb; [exact E|]. apply wp_bind, wp_assert; [by rewrite (proj2 (Z.eqb_neq _ _))|].
  set (c1 := with_mutexes_held (u32 (uxMutexesHeld c - 1)) c).
  apply wp_bind. eapply (step_update t c (with_mutexes_held (u32 (uxMutexesHeld c - 1)))); [done|done|by intros []|done..|].
  fold c1. intros s1 H1.
  assert (wp False (mret false) (λ y s', wp False (if y : bool then taskYIELD_WITHIN_API else mret tt) (λ _ s', kernel_ok idle s' ∧
    tcbs s' = <[t := c1]> (tcbs s)) s') s1) as Hsame.
  { do 2 apply wp_ret. split; [|apply H1]. refine (kernel_changes idle t c c1 s s1 K E H1 _ _ _).
    - split; [done|by rewrite (Hr : state_of c1 = _)|..]; by rewrite (Hfree : container EventItem c1 = None).
    - done.
    - intros _ cur E0. fold t in E0. rewrite decide_True by done. assert (cur = c) as -> by congruence. done. }
  unfold disinherited. fold c1. destruct (Z.eqb_spec (uxPriority c) (uxBasePriority c)) as [Hpb|Hpb]; cbn [negb andb].
  { do 2 apply wp_ret. destruct Hsame as [? ?]. split_and!; [done..|lia]. }
  destruct (Z.eqb_spec (u32 (uxMutexesHeld c - 1)) 0) as [Hz|Hz].
  - apply wp_bind. eapply (step_remove StateItem); [apply H1|by eapply changes_lookup|exact Hr|]. intros _ s2 H2.
    apply wp_bind, (wp_upd_tcb t (with_container StateItem None c1)); [by eapply changes_lookup|].
    apply wp_bind. eapply wp_upd_tcb; [apply lookup_insert_eq|]. rewrite updated_updated.
    set (c3 := with_value EventItem _ (with_priority _ (with_container StateItem None c1))).
    assert (changes t c3 s2 (updated t c3 s2)) as H3.
    { eapply changes_priority; [apply H2|by eapply changes_lookup|done|by intros []|done|simpl; lia..]. }
    apply wp_bind. eapply step_ready; [apply H3|by eapply changes_lookup|done|]. intros s4 H4.
    apply wp_ret, wp_modify. set (c4 := with_container _ _ c3) in *.
    assert (changes t c4 s s4) as Hch by eauto using changes_trans.
    split; [|split; [|done]].
    + refine (kernel_changes_yield idle t c c4 s s4 K E Hch _). split; [done|done|..]; by rewrite (Hfree : container EventItem c4 = None).
    + simpl. rewrite (ch_tcbs _ _ _ _ Hch). done.
  - do 2 apply wp_ret. destruct Hsame as [? ?]. split_and!; [done..|lia].
Qed.

(** A task that waited for a mutex in vain: the holder keeps what the others that
    wait lend it, [p] the highest priority among them. *)
Definition reclaimed (p : Z) (c : TCB_t) : TCB_t :=
  let q := Z.max (uxBasePriority c) p in
  if negb (uxPriority c =? q) && (uxMutexesHeld c =? 1) then repriced c (event_reset q (with_priority q c)) else c.

Lemma kernel_reclaim idle asserts h p c s : kernel_ok idle s → tcbs s !! h = Some c → h ≠ pxCurrentTCB s →
  uxMutexesHeld c ≠ 0 → p <= uxPriority c →
  wp False (vTaskPriorityDisinheritAfterTimeout asserts h p) (λ _ s', kernel_ok idle s' ∧ tcbs s' = <[h := reclaimed p c]> (tcbs s)) s.
Proof.
  intros K E Hcur Hheld Hp. pose proof (k_ok _ _ K) as Hok.
  destruct (priority_range _ (ok_prioritised _ _ Hok) _ _ E) as [Hpc Hbc].
  assert (h ≠ 0) as H0 by (intros ->; by rewrite (placed_null _ (ok_placed _ _ Hok)) in E).
  unfold vTaskPriorityDisinheritAfterTimeout. rewrite (proj2 (Z.eqb_neq h 0)) by done. cbn [negb].
  apply wp_bind. eapply wp_get_tcb; [exact E|]. apply wp_bind, wp_assert; [by rewrite (proj2 (Z.eqb_neq _ 0))|].
  assert ((if uxBasePriority c <? p then p else uxBasePriority c) = Z.max (uxBasePriority c) p) as ->.
  { destruct (Z.ltb_spec (uxBasePriority c) p); lia. }
  unfold reclaimed. set (q := Z.max (uxBasePriority c) p). cbv zeta.
  assert (wp False (mret tt) (λ _ s', kernel_ok idle s' ∧ tcbs s' = <[h := c]> (tcbs s)) s) as Hsame.
  { apply wp_ret. split; [done|]. by rewrite insert_id. }
  destruct (Z.eqb_spec (uxPriority c) q) as [Hq|Hq]; [exact Hsame|]. destruct (Z.eqb_spec (uxMutexesHeld c) 1) as [Hm|Hm]; [|exact Hsame].
  cbn [negb andb]. clear Hsame. apply wp_bind, wp_gets, wp_bind, wp_assert; [by rewrite (proj2 (Z.eqb_neq h _))|].
  apply wp_bind. eapply wp_upd_tcb; [exact E|]. apply wp_bind. eapply wp_event_reset; [apply lookup_insert_eq|].
  rewrite updated_updated. set (c' := event_reset q (with_priority q c)).
  destruct (event_reset_fields q (with_priority q c)) as (R1&R2&R3&R4&R5). fold c' in R1, R2, R3, R4, R5. simpl in R1, R2, R3, R4.
  assert (same_place c c') as Hplace.
  { split; [intros k; rewrite R5; by destruct k|done|done|rewrite R1; lia|rewrite R1, R2; lia]. }
  apply step_requeue; [done|done|done|]. intros s' Hch. split; [|apply Hch].
  refine (kernel_changes idle h c _ s s' K E Hch (fits_repriced idle h c c' s K E Hplace) _ _); [done|].
  intros (cur&Ec&Hr&Hmax) cur0 E0. assert (cur0 = cur) as -> by congruence. rewrite decide_False by done.
  intros Hr'. rewrite repriced_priority, R1. pose proof (Hmax _ _ E (repriced_unready _ _ _ _ Hok E Hplace Hr')). lia.
Qed.

(** ** Blocking *)

(** The current task after [prvAddCurrentTaskToDelayedList]: in a delayed list,
    or suspended when it waits without a time-out. *)
Definition asleep (s : scheduler) (c : TCB_t) (n : Z) : TCB_t :=
  if n =? portMAX_DELAY then with_container StateItem (Some xSuspendedTaskList) (with_delay_aborted false c)
  else blocked s c n.

Lemma asleep_fields s c n : ok s → let c' := asleep s c n in state_of c' ≠ None ∧ ¬ is_ready c' ∧
  container EventItem c' = container EventItem c ∧ ucNotifyState c' = ucNotifyState c ∧ uxPriority c' = uxPriority c.
Proof.
  intros [_ _ HT]. unfold asleep, blocked, is_ready. destruct (n =? portMAX_DELAY); [done|].
  split_and!; try done. simpl. destruct (time_lists _ _ HT) as [[-> ->]|[-> ->]]; by destruct (_ <? _).
Qed.

Lemma step_block {D} n c Q s : ok s → tcbs s !! pxCurrentTCB s = Some c → state_of c ≠ None → 0 < n < 2 ^ 32 →
  (∀ s', changes (pxCurrentTCB s) (asleep s c n) s s' → Q tt s') →
  wp D (prvAddCurrentTaskToDelayedList n true) Q s.
Proof.
  intros Hok E Hl Hn HQ. destruct (state_of c) as [l|] eqn:El; [|done].
  unfold asleep in HQ. destruct (Z.eqb_spec n portMAX_DELAY) as [Hm|Hm].
  - apply wp_bind, wp_gets. change (id s) with s.
    apply wp_bind. eapply (step_update _ c (with_delay_aborted false)); [done|exact E|by intros []|done..| |].
    { exact (proj2 (priority_range _ (ok_prioritised _ _ Hok) _ _ E)). }
    intros s1 H1. apply wp_bind. eapply (step_remove StateItem l); [apply H1|by eapply changes_lookup|exact El|]. intros _ s2 H2.
    rewrite (proj2 (Z.eqb_eq _ _) Hm). cbn [andb].
    eapply step_append; [apply H2|by eapply changes_lookup|done..|]. intros s3 H3.
    apply HQ. eapply changes_trans; [exact H1|]. eapply changes_trans; [exact H2|exact H3].
  - eapply (wp_add_delayed n true c); [done|exact E|by eexists|done|done|]. intros s' Hok' Hfr Ht _. by apply HQ.
Qed.

Lemma frame_suspended s s' : frame s' = frame (set_suspended 1 s) → uxSchedulerSuspended s = 0 →
  frame (set_suspended 0 s') = frame s.
Proof. intros (F1&F2&F3&F4&F5&F6&F7&F8&F9&F10&F11)%frame_inv Hs. unfold frame in *. simpl in *. congruence. Qed.

Lemma wp_bind_ext {D} {S A B} (m : ST S A) (f g : A → ST S B) Q s : (∀ y x, f y x = g y x) →
  wp D (m ≫= f) Q s → wp D (m ≫= g) Q s.
Proof. intros Hfg. unfold wp, mbind, ST_bind. destruct (m s) as [[y x]| |]; [by rewrite Hfg|done..]. Qed.

Lemma wp_bind_assoc {D} {S A B C} (m : ST S A) (f : A → ST S B) (k : B → ST S C) Q s :
  wp D ((m ≫= f) ≫= k) Q s → wp D (m ≫= λ y, f y ≫= k) Q s.
Proof. unfold wp, mbind, ST_bind. by destruct (m s) as [[y x]| |]. Qed.

(** Resuming the scheduler after a change of one task. *)
Lemma kernel_resumed idle asserts fuel b t c c' s s' : kernel_ok idle s → tcbs s !! t = Some c →
  changes t c' (set_suspended 1 s) s' → fits idle t c' → (0 < fuel)%nat →
  b = true ∨ (pendsv s = false → t = pxCurrentTCB s → is_ready c') ∧ (tops s → below s t c') →
  wp False (y ← xTaskResumeAll asserts fuel; if b && negb y then taskYIELD_WITHIN_API else mret tt)
    (λ _ s'', kernel_ok idle s'' ∧ tcbs s'' = <[t := c']> (tcbs s)) s'.
Proof.
  intros K E [Hok Hfr Ht] Hfit Hf Hb. pose proof (frame_inv _ _ Hfr) as (F1&F2&F3&F4&F5&F6&F7&F8&F9&F10&F11).
  assert (changes t c' s (set_suspended 0 s')) as Hch.
  { split; [|by apply frame_suspended; [|apply K]|done]. destruct Hok as [HP HR HT].
    split; [by destruct HP|by destruct HR|by destruct HT]. }
  apply wp_bind, wp_resume_all; [done|rewrite F4; simpl; pose proof (k_number _ _ K); lia|done|..].
  - split; [|rewrite F7; apply K]. apply (pending_empty s'); [apply Hok|]. intros u d. rewrite Ht.
    destruct (decide (u = t)) as [->|?].
    + rewrite lookup_insert_eq. intros [= <-]. apply Hfit.
    + rewrite lookup_insert_ne by done. simpl. eapply pending_empty; [apply K|apply K].
  - assert (kernel_ok idle (set_pendsv true (set_suspended 0 s'))) as Hyield by exact (kernel_changes_yield idle t c c' s _ K E Hch Hfit).
    unfold resumed. destruct (xYieldPending s'); cbn [negb].
    + rewrite andb_false_r. by apply wp_ret.
    + rewrite andb_true_r. destruct b; [by apply wp_modify|]. apply wp_ret. split; [|done].
      destruct Hb as [?|[H1 H2]]; [done|]. exact (kernel_changes idle t c c' s _ K E Hch Hfit H1 H2).
Qed.

Lemma ok_suspended u s : ok s → ok (set_suspended u s).
Proof. intros [HP HR HT]. split; [by destruct HP|by destruct HR|by destruct HT]. Qed.

(** ** Event lists *)

(** As the blocking operations of [queue.c] wait. *)
Definition wait_event (asserts : bool) (fuel : nat) (pxEventList xTicksToWait : Z) : ST scheduler unit :=
  vTaskSuspendAll;;
  vTaskPlaceOnEventList asserts pxEventList xTicksToWait;;
  y ← xTaskResumeAll asserts fuel;
  yield_unless y.

Lemma kernel_wait_event idle asserts fuel e n c s : kernel_ok idle s → tcbs s !! pxCurrentTCB s = Some c → is_ready c →
  pxCurrentTCB s ≠ idle → ucNotifyState c ≠ taskWAITING_NOTIFICATION → e ≠ 0 → 0 < n < 2 ^ 32 → (0 < fuel)%nat →
  wp False (wait_event asserts fuel e n) (λ _ s', kernel_ok idle s' ∧
    tcbs s' = <[pxCurrentTCB s := asleep s (with_container EventItem (Some (EventList e)) c) n]> (tcbs s)) s.
Proof.
  intros K E Hr Hidle Hnw He Hn Hf. set (c1 := with_container EventItem (Some (EventList e)) c).
  apply wp_bind, wp_suspend_all; [apply K|]. apply wp_bind, wp_bind, wp_assert; [by rewrite (proj2 (Z.eqb_neq _ _))|].
  apply wp_bind, wp_gets. change (pxCurrentTCB (set_suspended 1 s)) with (pxCurrentTCB s).
  apply wp_bind. eapply step_insert_event; [by apply ok_suspended, K|exact E|by eapply (k_free _ _ K)|]. intros s1 H1.
  pose proof (frame_inv _ _ (ch_frame _ _ _ _ H1)) as (F1&F2&F3&_&F5&_). simpl in F1.
  eapply (step_block n c1); [apply H1|rewrite F1; by eapply changes_lookup|by rewrite (Hr : state_of c1 = _)|done|].
  rewrite F1. intros s2 H2.
  assert (asleep s1 c1 n = asleep s c1 n) as Ha.
  { unfold asleep, blocked. simpl in F2, F3, F5. by rewrite F2, F3, F5. }
  rewrite Ha in H2. destruct (asleep_fields s c1 n (k_ok _ _ K)) as (A1&A2&A3&A4&A5).
  eapply wp_bind_ext; [|eapply (kernel_resumed idle asserts fuel true _ c);
    [done|exact E|by eapply changes_trans| |done|by left]]; [by intros []|].
  split; [done|done| |]; rewrite A3; [done|]. rewrite A4. by intros [?|?].
Qed.

Lemma kernel_wake_event idle asserts e s t ts : kernel_ok idle s → z_items (lists s (EventList e)) = t :: ts →
  wp False (xTaskRemoveFromEventList asserts e) (λ _ s', kernel_ok idle s' ∧
    ∃ c, tcbs s !! t = Some c ∧ tcbs s' = <[t := in_ready (with_container EventItem None c)]> (tcbs s)) s.
Proof.
  intros K Hz. pose proof (k_ok _ _ K) as Hok.
  assert (t ∈ z_items (lists s (EventList e))) as (c&E&Hc)%(placed_member _ (ok_placed _ _ Hok)) by (rewrite Hz; left).
  simpl in Hc. assert (t ≠ 0) as H0 by (intros ->; by rewrite (placed_null _ (ok_placed _ _ Hok)) in E).
  destruct (state_of c) as [l|] eqn:El; [|by destruct (k_listed _ _ K _ _ E)].
  destruct (k_current _ _ K) as (cur&Ec&Hcur).
  apply wp_bind. eapply wp_head; [exact Hz|]. apply wp_bind, wp_assert; [by rewrite (proj2 (Z.eqb_neq _ _))|].
  apply wp_bind. eapply (step_remove EventItem (EventList e)); [done|exact E|exact Hc|]. intros _ s1 H1.
  pose proof (frame_inv _ _ (ch_frame _ _ _ _ H1)) as (F1&_&_&_&_&_&_&_&_&F10&_).
  apply wp_bind, wp_bind, wp_gets. change (id s1) with s1. rewrite F10, (k_suspended _ _ K), Z.eqb_refl.
  apply wp_bind. eapply (step_remove StateItem l); [apply H1|by eapply changes_lookup|exact El|]. intros _ s2 H2.
  eapply step_ready; [apply H2|by eapply changes_lookup|done|]. intros s3 H3. set (c' := with_container _ (Some _) _) in *.
  assert (changes t c' s s3) as Hch by eauto using changes_trans.
  set (cur' := if decide (pxCurrentTCB s = t) then c' else cur).
  assert (tcbs s3 !! pxCurrentTCB s3 = Some cur') as Ec'.
  { destruct (changes_calm _ _ _ _ Hch) as ([C1 _ _ _ _]&_&_). rewrite (ch_tcbs _ _ _ _ Hch), C1. unfold cur'.
    case_decide as Ht; [by rewrite Ht, lookup_insert_eq|by rewrite lookup_insert_ne]. }
  assert (fits idle t c') as Hfit by by split.
  apply wp_bind. eapply wp_higher; [by eapply changes_lookup|exact Ec'|].
  destruct (Z.ltb_spec (uxPriority cur') (uxPriority c')) as [Hlt|Hge].
  - apply wp_bind, wp_modify, wp_ret. split; [|exists c; split; [done|apply Hch]].
    destruct (changes_calm _ _ _ _ Hch) as (HC&Hsv&_).
    apply (kernel_changed idle t c c' s); try done; [|by destruct HC; split|apply Hch|right].
    + destruct (ch_ok _ _ _ _ Hch) as [HP HR HT]. split; [by destruct HP|by destruct HR|by destruct HT].
    + split_and!; [by rewrite <- Hsv|done|by left].
  - apply wp_ret. split; [|exists c; split; [done|apply Hch]].
    refine (kernel_changes idle t c c' s s3 K E Hch Hfit (λ _ _, eq_refl) _). intros Htop cur0 E0.
    assert (cur0 = cur) as -> by congruence. unfold cur' in Hge. destruct (decide (t = pxCurrentTCB s)) as [Ht|Ht].
    + split; [done|]. assert (cur = c) as -> by congruence. done.
    + rewrite decide_False in Hge by congruence. done.
Qed.

(** ** Notifications *)

(** A task changes in fields that no list depends on. *)
Lemma kernel_touched idle t c c' s s' : kernel_ok idle s → tcbs s !! t = Some c → changes t c' s s' →
  (∀ k, container k c' = container k c) → uxPriority c' = uxPriority c →
  (ucNotifyState c' = taskWAITING_NOTIFICATION → container EventItem c = None) → kernel_ok idle s'.
Proof.
  intros K E Hch Hc Hp Hw. assert (is_ready c' ↔ is_ready c) as Hrc.
  { unfold is_ready. by rewrite Hp, (Hc StateItem : state_of c' = _). }
  refine (kernel_changes idle t c c' s s' K E Hch _ _ _).
  - split.
    + intros ->. apply Hrc. destruct (k_idle _ _ K) as (ci&Ei&Hi). by simplify_eq.
    + rewrite (Hc StateItem : state_of c' = _). by eapply (k_listed _ _ K).
    + rewrite Hc. eapply pending_empty; [apply K|apply K|exact E].
    + rewrite Hc. intros [?|Hr]; [auto|]. eapply (k_free _ _ K); [exact E|by apply Hrc].
  - intros Hp0 Ht. apply Hrc. destruct (k_current _ _ K) as (cur&Ec&Hcur). assert (c = cur) as -> by congruence. auto.
  - intros (cur&Ec&Hr&Hmax) cur0 E0. assert (cur0 = cur) as -> by congruence. rewrite Hp. case_decide as Ht.
    + assert (c = cur) as -> by congruence. split; [by apply Hrc|done].
    + intros Hr'. eapply Hmax; [exact E|by apply Hrc].
Qed.

(** Taking a mutex is counted. *)
Lemma kernel_hold idle c s : kernel_ok idle s → tcbs s !! pxCurrentTCB s = Some c →
  wp False pvTaskIncrementMutexHeldCount (λ r s', r = pxCurrentTCB s ∧ kernel_ok idle s' ∧
    tcbs s' = <[pxCurrentTCB s := with_mutexes_held (u32 (uxMutexesHeld c + 1)) c]> (tcbs s)) s.
Proof.
  intros K E. pose proof (k_ok _ _ K) as Hok. destruct (priority_range _ (ok_prioritised _ _ Hok) _ _ E) as [_ Hbc].
  assert (pxCurrentTCB s ≠ 0) as H0 by (intros H; by rewrite H, (placed_null _ (ok_placed _ _ Hok)) in E).
  apply wp_bind, wp_gets. rewrite (proj2 (Z.eqb_neq _ 0)) by done. cbn [negb].
  apply wp_bind. eapply (step_update _ c (λ c, with_mutexes_held (u32 (uxMutexesHeld c + 1)) c)); [done|exact E|by intros []|done..|].
  intros s1 H1. apply wp_ret. split; [done|]. split; [|apply H1]. eapply kernel_touched; [exact K|exact E|exact H1|by intros []|done|]. by apply (k_waiting _ _ K _ _ E).
Qed.

Definition after_notify (eAction : eNotifyAction) (v : Z) (c : TCB_t) : TCB_t :=
  let c' := with_notified_value (notified eAction v c).1 (with_notify_state taskNOTIFICATION_RECEIVED c) in
  if ucNotifyState c =? taskWAITING_NOTIFICATION then in_ready c' else c'.

Lemma kernel_notify idle asserts t v a c s : kernel_ok idle s → tcbs s !! t = Some c →
  wp False (xTaskGenericNotify asserts t v a) (λ r s', r = ((notified a v c).2, ulNotifiedValue c) ∧
    kernel_ok idle s' ∧ tcbs s' = <[t := after_notify a v c]> (tcbs s)) s.
Proof.
  intros K E. pose proof (k_ok _ _ K) as Hok. destruct (priority_range _ (ok_prioritised _ _ Hok) _ _ E) as [_ Hbc].
  assert (t ≠ 0) as H0 by (intros ->; by rewrite (placed_null _ (ok_placed _ _ Hok)) in E).
  apply wp_bind, wp_assert; [by rewrite (proj2 (Z.eqb_neq _ _))|]. apply wp_bind. eapply wp_get_tcb; [exact E|].
  apply wp_bind. eapply (step_update t c (with_notify_state taskNOTIFICATION_RECEIVED)); [done|exact E|by intros []|done..|].
  intros s1 H1. apply wp_bind.
  eapply (step_update t _ (with_notified_value _)); [apply H1|by eapply changes_lookup|by intros []|done..|]. intros s2 H2.
  set (c2 := with_notified_value _ _) in H2. assert (changes t c2 s s2) as H02 by eauto using changes_trans.
  unfold after_notify. fold c2. destruct (Z.eqb_spec (ucNotifyState c) taskWAITING_NOTIFICATION) as [Hw|Hw].
  - pose proof (k_waiting _ _ K _ _ E Hw) as He. destruct (state_of c) as [l|] eqn:El; [|by destruct (k_listed _ _ K _ _ E)].
    apply wp_bind, wp_bind. eapply (step_remove StateItem l); [apply H2|by eapply changes_lookup|exact El|]. intros _ s3 H3.
    apply wp_bind. eapply step_ready; [apply H3|by eapply changes_lookup|done|]. intros s4 H4.
    change (with_container _ (Some _) _) with (in_ready c2) in H4.
    assert (changes t (in_ready c2) s s4) as Hch by eauto using changes_trans.
    apply wp_bind. eapply wp_container; [by eapply changes_lookup|].
    apply wp_bind, wp_assert; [by apply bool_decide_true|].
    eapply wp_mono; [apply (kernel_yield_to idle t c (in_ready c2) s s4 K E Hch)|].
    + split; [done|done|..]; by rewrite (He : container EventItem (in_ready c2) = None).
    + done.
    + done.
    + intros _ s5 [? ?]. by apply wp_ret.
  - apply wp_bind, wp_ret, wp_ret. split; [done|]. split; [|apply H02]. by eapply (kernel_touched idle t c c2 s s2).
Qed.

(** The current task waits for a notification, up to where it goes on. *)
Lemma kernel_wait_notification idle asserts fuel nn enter n c s : kernel_ok idle s → tcbs s !! pxCurrentTCB s = Some c →
  is_ready c → pxCurrentTCB s ≠ idle → is_u32 n → (0 < fuel)%nat →
  (∀ k, container k (enter c) = container k c) → wake_time (enter c) = wake_time c →
  uxPriority (enter c) = uxPriority c → uxBasePriority (enter c) = uxBasePriority c →
  let c1 := with_notify_state taskWAITING_NOTIFICATION (enter c) in
  wp False (wait_for_notification asserts id id fuel nn enter n) (λ _ s', kernel_ok idle s' ∧
    tcbs s' = <[pxCurrentTCB s := if nn c then if 0 <? n then asleep s c1 n else c1 else c]> (tcbs s)) s.
Proof.
  intros K E Hr Hidle Hn Hf Hec Hew Hep Heb c1. pose proof (k_ok _ _ K) as Hok. unfold is_u32 in Hn.
  destruct (priority_range _ (ok_prioritised _ _ Hok) _ _ E) as [Hpc Hbc].
  pose proof (k_free _ _ K _ _ E Hr) as Hfree. set (t := pxCurrentTCB s) in *. set (s0 := set_suspended 1 s).
  assert (ok s0) as Hok0 by by apply ok_suspended.
  apply wp_bind, wp_suspend_all; [apply K|]. apply wp_bind, wp_modify. change (id s0) with s0.
  apply wp_bind, wp_gets. change (pxCurrentTCB s0) with t. apply wp_bind. eapply wp_get_tcb; [exact E|].
  set (block := nn c && (0 <? n)). set (ca := if nn c then c1 else c).
  apply wp_bind. eapply wp_mono with (Q := λ b s', b = block ∧ changes t ca s0 s').
  { unfold block, ca. destruct (nn c); [|apply wp_ret; split; [done|by apply changes_refl]].
    apply wp_bind. eapply (step_update t c enter); [done|exact E|done|done|done|by rewrite Heb, Hep|]. intros s1 H1.
    apply wp_bind. eapply (step_update t (enter c) (with_notify_state _)); [apply H1|by eapply changes_lookup|by intros []|done..| |].
    { simpl. by rewrite Heb, Hep. }
    intros s2 H2. apply wp_ret. split; [done|by eapply changes_trans]. }
  intros _ s1 [-> H1]. apply wp_bind, wp_modify. change (id s1) with s1.
  pose proof (frame_inv _ _ (ch_frame _ _ _ _ H1)) as (F1&F2&F3&_&F5&_). simpl in F1, F2, F3, F5. fold t in F1.
  assert (∀ k, container k ca = container k c) as Hca by (unfold ca; destruct (nn c); [intros k; rewrite <- Hec; by destruct k|done]).
  assert (uxPriority ca = uxPriority c) as Hpa by (unfold ca; by destruct (nn c)).
  assert (state_of ca = state_of c) as Hsa by exact (Hca StateItem).
  set (cb := if block then asleep s ca n else ca).
  apply wp_bind. eapply wp_mono with (Q := λ _ s', changes t cb s0 s').
  { unfold cb. destruct block eqn:Hb; [|by apply wp_ret]. apply andb_true_iff in Hb as [_ Hb%Z.ltb_lt].
    eapply (step_block n ca); [apply H1|rewrite F1; by eapply changes_lookup|by rewrite Hsa, Hr|lia|].
    assert (asleep s1 ca n = asleep s ca n) as -> by (unfold asleep, blocked; by rewrite F2, F3, F5).
    rewrite F1. intros s2 H2. by eapply changes_trans. }
  intros _ s2 H2. apply wp_bind, wp_modify. change (id s2) with s2.
  assert (cb = if nn c then if 0 <? n then asleep s c1 n else c1 else c) as <-.
  { unfold cb, block, ca. by destruct (nn c), (0 <? n). }
  destruct (asleep_fields s ca n Hok) as (A1&A2&A3&A4&A5).
  assert (container EventItem cb = None) as Hcb.
  { rewrite <- Hfree, <- Hca. unfold cb. by destruct block. }
  apply wp_bind_assoc, wp_bind. eapply wp_mono;
    [apply (kernel_resumed idle asserts fuel block t c cb s s2); [done|done|done| |done|]|].
  - split; rewrite ?Hcb; try done. unfold cb. destruct block; [done|]. by rewrite Hsa, Hr.
  - destruct block eqn:Hb; [by left|right]. unfold cb. assert (is_ready ca) as Hra by (unfold is_ready; by rewrite Hsa, Hpa).
    split; [done|]. intros Htop cur E0. fold t in E0. rewrite decide_True by done. assert (cur = c) as -> by congruence.
    by rewrite Hpa.
  - intros [] s3 H3. by apply wp_modify.
Qed.

Lemma kernel_take idle clear c s : kernel_ok idle s → tcbs s !! pxCurrentTCB s = Some c →
  wp False (take_notification clear) (λ r s', r = ulNotifiedValue c ∧ kernel_ok idle s' ∧
    tcbs s' = <[pxCurrentTCB s := with_notify_state taskNOT_WAITING_NOTIFICATION
      (if ulNotifiedValue c =? 0 then c
       else with_notified_value (if clear then 0 else u32 (ulNotifiedValue c - 1)) c)]> (tcbs s)) s.
Proof.
  intros K E. pose proof (k_ok _ _ K) as Hok. destruct (priority_range _ (ok_prioritised _ _ Hok) _ _ E) as [_ Hbc].
  set (t := pxCurrentTCB s) in *. set (c1 := if ulNotifiedValue c =? 0 then c else _).
  apply wp_bind, wp_gets, wp_bind. eapply wp_get_tcb; [exact E|].
  apply wp_bind. eapply wp_mono with (Q := λ _, changes t c1 s).
  { unfold c1. destruct (ulNotifiedValue c =? 0); [apply wp_ret; by apply changes_refl|].
    eapply (step_update t c (with_notified_value _)); [done|exact E|by intros []|done..|]. auto. }
  intros _ s1 H1. assert (∀ k, container k c1 = container k c) as Hc by (unfold c1; destruct (_ =? 0); by intros []).
  assert (uxPriority c1 = uxPriority c ∧ uxBasePriority c1 = uxBasePriority c) as [Hp Hb] by (unfold c1; by destruct (_ =? 0)).
  apply wp_bind. eapply (step_update t c1 (with_notify_state _)); [apply H1|by eapply changes_lookup|by intros []|done..| |].
  { simpl. by rewrite Hp, Hb. }
  intros s2 H2. assert (changes t (with_notify_state taskNOT_WAITING_NOTIFICATION c1) s s2) as Hch by eauto using changes_trans.
  apply wp_ret. split; [done|]. split; [|apply Hch]. eapply kernel_touched; [exact K|exact E|exact Hch|..].
  - intros k. rewrite <- Hc. by destruct k.
  - done.
  - done.
Qed.

Lemma kernel_receive idle bits c s : kernel_ok idle s → tcbs s !! pxCurrentTCB s = Some c →
  wp False (receive_notification bits) (λ r s', r = (ucNotifyState c =? taskNOTIFICATION_RECEIVED, ulNotifiedValue c) ∧
    kernel_ok idle s' ∧
    tcbs s' = <[pxCurrentTCB s := with_notify_state taskNOT_WAITING_NOTIFICATION
      (if ucNotifyState c =? taskNOTIFICATION_RECEIVED then with_notified_value (Z.land (ulNotifiedValue c) (Z.lnot bits)) c
       else c)]> (tcbs s)) s.
Proof.
  intros K E. pose proof (k_ok _ _ K) as Hok. destruct (priority_range _ (ok_prioritised _ _ Hok) _ _ E) as [_ Hbc].
  set (t := pxCurrentTCB s) in *. set (b := ucNotifyState c =? taskNOTIFICATION_RECEIVED). set (c1 := if b then _ else c).
  apply wp_bind, wp_gets, wp_bind. eapply wp_get_tcb; [exact E|]. fold b.
  apply wp_bind. eapply wp_mono with (Q := λ r s', r = b ∧ changes t c1 s s').
  { unfold c1. destruct b; cbn [negb]; [|apply wp_ret; split; [done|by apply changes_refl]].
    apply wp_bind. eapply (step_update t c (with_notified_value _)); [done|exact E|by intros []|done..|].
    intros s1 H1. by apply wp_ret. }
  intros r s1 [-> H1]. assert (∀ k, container k c1 = container k c) as Hc by (unfold c1; destruct b; by intros []).
  assert (uxPriority c1 = uxPriority c ∧ uxBasePriority c1 = uxBasePriority c) as [Hp Hb] by (unfold c1; by destruct b).
  apply wp_bind. eapply (step_update t c1 (with_notify_state _)); [apply H1|by eapply changes_lookup|by intros []|done..| |].
  { simpl. by rewrite Hp, Hb. }
  intros s2 H2. assert (changes t (with_notify_state taskNOT_WAITING_NOTIFICATION c1) s s2) as Hch by eauto using changes_trans.
  apply wp_ret. split; [done|]. split; [|apply Hch]. eapply kernel_touched; [exact K|exact E|exact Hch|..].
  - intros k. rewrite <- Hc. by destruct k.
  - done.
  - done.
Qed.

(** ** The kernel as a transition system *)

(** What happens: the two interrupts of the port, and the calls of the running task. *)
Inductive call :=
  | Tick | Switch | Delay (n : Z) | DelayUntil (previous increment : Z) | Create (a p : Z)
  | Suspend (h : Z) | Resume (t : Z) | PrioritySet (h p : Z)
  | WaitEvent (e n : Z) | WakeEvent (e : Z) | Inherit (h : Z) | Hold | GiveBack | Reclaim (h p : Z)
  | Notify (t v : Z) (action : eNotifyAction) | WaitTake (n : Z) | Take (clear : bool)
  | WaitReceive (entry n : Z) | Receive (exit : Z).

Section transitions.
Context (asserts : bool) (fuel : nat) (idle : Z).

Definition ignore {A} (m : ST scheduler A) : ST scheduler unit := m;; mret tt.

Definition exec (c : call) : ST scheduler unit :=
  match c with
  | Tick => xPortSysTickHandler asserts fuel
  | Switch => xPortPendSVHandler
  | Delay n => vTaskDelay asserts id fuel n
  | DelayUntil previous increment => ignore (xTaskDelayUntil asserts id fuel previous increment)
  | Create a p => ignore (xTaskCreate asserts (Some a) p)
  | Suspend h => vTaskSuspend asserts h
  | Resume t => vTaskResume asserts t
  | PrioritySet h p => vTaskPrioritySet asserts h p
  | WaitEvent e n => wait_event asserts fuel e n
  | WakeEvent e => ignore (xTaskRemoveFromEventList asserts e)
  | Inherit h => ignore (xTaskPriorityInherit h)
  | Hold => ignore pvTaskIncrementMutexHeldCount
  | GiveBack => t ← gets pxCurrentTCB; give_back asserts t
  | Reclaim h p => vTaskPriorityDisinheritAfterTimeout asserts h p
  | Notify t v a => ignore (xTaskGenericNotify asserts t v a)
  | WaitTake n => wait_for_notification asserts id id fuel (λ c, ulNotifiedValue c =? 0) id n
  | Take clear => ignore (take_notification clear)
  | WaitReceive entry n => wait_for_notification asserts id id fuel
      (λ c, negb (ucNotifyState c =? taskNOTIFICATION_RECEIVED))
      (λ c, with_notified_value (Z.land (ulNotifiedValue c) (Z.lnot entry)) c) n
  | Receive exit => ignore (receive_notification exit)
  end.

(** The rules of the callers: handles are those of tasks, a priority is one, the
    idle task does not block, who gives a mutex back has one, its holder has a
    priority no lower than those that wait for it, and a task that has waited for
    a notification takes what there is before it waits for an event. A task makes
    a call only when no switch is under way. *)
Definition task_call (c : call) (s : scheduler) : Prop :=
  match c with
  | Tick | Switch => True
  | Delay n => is_u32 n ∧ pxCurrentTCB s ≠ idle
  | DelayUntil previous increment => is_u32 previous ∧ 0 < increment < 2 ^ 32 ∧ pxCurrentTCB s ≠ idle
  | Create a p => tcbs s !! a = None ∧ a ≠ 0 ∧ 0 <= p < configMAX_PRIORITIES ∧ uxCurrentNumberOfTasks s + 1 < 2 ^ 32
  | Suspend h => is_Some (tcbs s !! handle h s) ∧ handle h s ≠ idle
  | Resume t | Inherit t | Notify t _ _ => is_Some (tcbs s !! t)
  | PrioritySet h p => is_Some (tcbs s !! handle h s) ∧ 0 <= p < configMAX_PRIORITIES
  | WaitEvent e n => e ≠ 0 ∧ 0 < n < 2 ^ 32 ∧ pxCurrentTCB s ≠ idle ∧
      ∀ c, tcbs s !! pxCurrentTCB s = Some c → ucNotifyState c ≠ taskWAITING_NOTIFICATION
  | WakeEvent e => z_items (lists s (EventList e)) ≠ []
  | GiveBack => ∀ c, tcbs s !! pxCurrentTCB s = Some c → uxMutexesHeld c ≠ 0
  | Reclaim h p => ∃ c, tcbs s !! h = Some c ∧ h ≠ pxCurrentTCB s ∧ uxMutexesHeld c ≠ 0 ∧ p <= uxPriority c
  | WaitTake n | WaitReceive _ n => is_u32 n ∧ pxCurrentTCB s ≠ idle
  | Hold | Take _ | Receive _ => True
  end.
Definition valid (c : call) (s : scheduler) : Prop :=
  (size (tcbs s) < fuel)%nat ∧ task_call c s ∧ match c with Tick | Switch => True | _ => pendsv s = false end.

Lemma wp_ignore {A} (m : ST scheduler A) P s : wp False m (λ _, P) s → wp False (ignore m) (λ _, P) s.
Proof. intros H. apply wp_bind. eapply wp_mono; [exact H|]. intros a s' HP. by apply wp_ret. Qed.

Lemma kernel_delay_until previous increment s : kernel_ok idle s → pendsv s = false → pxCurrentTCB s ≠ idle →
  is_u32 previous → 0 < increment < 2 ^ 32 → (0 < fuel)%nat →
  wp False (xTaskDelayUntil asserts id fuel previous increment) (λ _ s', kernel_ok idle s') s.
Proof.
  intros K Hp Hidle Hprev Hinc Hf. destruct (kernel_running _ _ K Hp) as (c&Hr).
  eapply wp_mono; [by apply (delay_until_spec asserts fuel previous increment s c)|]. intros r s' [_ Hs].
  destruct (_ <? _); [|rewrite Hs; by apply kernel_yield]. destruct Hs as (c'&Hs).
  eapply kernel_asleep; [done|apply Hr|done|exact Hs].
Qed.

(** A valid call returns, and keeps the invariant. *)
Lemma kernel_call c s : kernel_ok idle s → valid c s → wp False (exec c) (λ _ s', kernel_ok idle s') s.
Proof.
  intros K (Hf&Hv&Hp). assert (0 < fuel)%nat as Hf0 by lia.
  destruct (k_current _ _ K) as (cur&Ec&Hcur).
  destruct c; simpl in Hv; try specialize (Hcur Hp); simpl exec; try apply wp_ignore.
  - eapply wp_mono; [by apply kernel_tick|]. by intros ?? [? _].
  - eapply wp_mono; [by apply kernel_switch|]. by intros ?? [? _].
  - destruct Hv. by apply kernel_delay.
  - destruct Hv as (?&?&?). by apply kernel_delay_until.
  - destruct Hv as (?&?&?&?). eapply wp_mono; [by apply kernel_create|]. by intros ?? (_&?&_).
  - destruct Hv as [[c E] ?]. eapply wp_mono; [by eapply kernel_suspend|]. by intros ?? [? _].
  - destruct Hv as [c E]. eapply wp_mono; [by eapply kernel_resume|]. by intros ?? [? _].
  - destruct Hv as [[c E] ?]. eapply wp_mono; [by eapply kernel_priority_set|]. by intros ?? [? _].
  - destruct Hv as (?&?&?&Hw). eapply wp_mono; [by eapply kernel_wait_event; eauto|]. by intros ?? [? _].
  - destruct (z_items _) as [|t ts] eqn:Hz; [done|]. eapply wp_mono; [by eapply kernel_wake_event|]. by intros ?? [? _].
  - destruct Hv as [c E]. eapply wp_mono; [by eapply kernel_inherit|]. by intros ?? (_&?&_).
  - eapply wp_mono; [by eapply kernel_hold|]. by intros ?? (_&?&_).
  - apply wp_bind, wp_gets. eapply wp_mono; [eapply kernel_disinherit; eauto|]. by intros ?? [? _].
  - destruct Hv as (c&?&?&?&?). eapply wp_mono; [by eapply kernel_reclaim|]. by intros ?? [? _].
  - destruct Hv as [c E]. eapply wp_mono; [by eapply kernel_notify|]. by intros ?? (_&?&_).
  - destruct Hv. eapply wp_mono; [by eapply kernel_wait_notification|]. by intros ?? [? _].
  - eapply wp_mono; [by eapply kernel_take|]. by intros ?? (_&?&_).
  - destruct Hv. eapply wp_mono; [eapply kernel_wait_notification; try done; by intros []|]. by intros ?? [? _].
  - eapply wp_mono; [by eapply kernel_receive|]. by intros ?? (_&?&_).
Qed.

(** Before the scheduler is started, tasks are created. *)
Inductive booted : scheduler → Prop :=
  | booted_boot : booted boot
  | booted_create s a p s' : booted s → tcbs s !! a = None → a ≠ 0 → 0 <= p < configMAX_PRIORITIES →
      Z.of_nat (size (tcbs s)) + 1 < 2 ^ 32 → xTaskCreate asserts (Some a) p s = Done (true, s') → booted s'.

Lemma booted_booting s : booted s → booting s.
Proof.
  induction 1 as [|s a p s' _ IH Ha H0 Hp Hn E]; [exact boot_booting|].
  pose proof (booting_create (D := False) asserts a p s IH Ha H0 Hp Hn) as H. unfold wp in H. rewrite E in H. by destruct H as (_&?&_).
Qed.

(** The timer task is created by [timers.c], as part of the start. *)
Inductive reachable : scheduler → Prop :=
  | reach_start s0 s1 s2 timers s : booted s0 → tcbs s0 !! idle = None → idle ≠ 0 →
      Z.of_nat (size (tcbs s0)) + 1 < 2 ^ 32 →
      xTaskCreate asserts (Some idle) 0 s0 = Done (true, s1) →
      timers s1 = Done (true, s2) → booted s2 → is_Some (tcbs s2 !! idle) → Z.of_nat (size (tcbs s2)) < 2 ^ 32 →
      vTaskStartScheduler asserts (Some idle) timers s0 = Done (tt, s) → reachable s
  | reach_call s c s' : reachable s → valid c s → exec c s = Done (tt, s') → reachable s'.

Lemma reachable_ok s : reachable s → kernel_ok idle s.
Proof.
  induction 1 as [s0 s1 s2 timers s HB0 Hi H0 Hn E1 E2 HB2 [c Ec] Hn2 E|s c s' _ IH Hv E].
  - pose proof (kernel_start (D := False) asserts idle timers s0 (booted_booting _ HB0) Hi H0 Hn) as H.
    assert (∀ s, xTaskCreate asserts (Some idle) 0 s0 = Done (true, s) → wp False timers (λ r s', r = true ∧ booting s' ∧
      (∃ c, tcbs s' !! idle = Some c) ∧ Z.of_nat (size (tcbs s')) < 2 ^ 32) s) as Ht.
    { intros s' E'. assert (s' = s1) as -> by congruence. unfold wp. rewrite E2. split_and!; [done|by apply booted_booting|by eexists|done]. }
    specialize (H Ht). unfold wp in H. rewrite E in H. apply H.
  - pose proof (kernel_call c s IH Hv) as H. unfold wp in H. by rewrite E in H.
Qed.
End transitions.

(** ** Properties *)

(** C9 (invariant): in every state that the start of the scheduler, the calls of
    the tasks and the two interrupts lead to, a switch is under way or the running
    task is ready and no ready task has a higher priority; every valid call
    returns without a fault and leads to such a state; and a switch ends with such
    a task running. *)
Theorem highest_priority_runs asserts fuel idle s : reachable asserts fuel idle s →
  (pendsv s = false → xYieldPending s = false → tops s) ∧
  (∀ c, valid fuel idle c s → ∃ s', exec asserts fuel c s = Done (tt, s') ∧ reachable asserts fuel idle s') ∧
  (∃ s', xPortPendSVHandler s = Done (tt, s') ∧ tops s').
Proof.
  intros Hs. pose proof (reachable_ok _ _ _ _ Hs) as K. split; [apply (k_tops _ _ K)|]. split.
  - intros c Hc. destruct (wp_inv _ _ _ (kernel_call asserts fuel idle c s K Hc)) as ([]&s'&E&_). exists s'. split; [done|].
    by eapply reach_call.
  - destruct (wp_inv _ _ _ (kernel_switch _ _ K)) as ([]&s'&E&_&Ht&_). by exists s'.
Qed.

(** A task that waits for a mutex lends its priority to the
    holder: the holder has the higher of the two, its base priority stays, and if
    it was ready it is in the ready list of the new priority; the result says
    whether the holder runs above its base priority for the caller. *)
Theorem priority_inherited idle h c cur s : kernel_ok idle s → tcbs s !! h = Some c → tcbs s !! pxCurrentTCB s = Some cur →
  ∃ s' c', xTaskPriorityInherit h s = Done (uxBasePriority c <? uxPriority cur, s') ∧ kernel_ok idle s' ∧
    tcbs s' = <[h := c']> (tcbs s) ∧ uxPriority c' = Z.max (uxPriority c) (uxPriority cur) ∧
    uxBasePriority c' = uxBasePriority c ∧ uxMutexesHeld c' = uxMutexesHeld c ∧ (is_ready c → is_ready c') ∧
    (¬ is_ready c → state_of c' = state_of c) ∧ container EventItem c' = container EventItem c.
Proof.
  intros K E Ec. destruct (wp_inv _ _ _ (kernel_inherit idle h c cur s K E Ec)) as (r&s'&Er&->&K'&Hch).
  exists s', (inherited (uxPriority cur) c). destruct (event_reset_fields (uxPriority cur) c) as (R1&R2&R3&R4&R5).
  split; [done|]. split; [done|]. split; [apply Hch|]. unfold inherited.
  destruct (Z.ltb_spec (uxPriority c) (uxPriority cur)); [|split_and!; try done; lia].
  set (c1 := event_reset (uxPriority cur) c) in *. rewrite repriced_priority.
  assert (is_ready c1 ↔ is_ready c) as Hrc by (unfold is_ready; by rewrite R1, (R5 StateItem : state_of c1 = _)).
  assert (uxMutexesHeld c1 = uxMutexesHeld c) as R6 by (unfold c1, event_reset; by destruct (_ =? 0)).
  split_and!.
  - simpl. lia.
  - rewrite <- R2. unfold repriced. by case_decide.
  - rewrite <- R6. unfold repriced. by case_decide.
  - intros Hr. by apply repriced_ready, Hrc.
  - intros Hr. unfold repriced. rewrite decide_False by by rewrite Hrc. exact (R5 StateItem).
  - rewrite <- (R5 EventItem). unfold repriced. by case_decide.
Qed.

(** Giving back its last mutex a task returns to its base
    priority, in the ready list of it, and a switch is requested if that is lower;
    while it holds others it keeps the priority it has. *)
Theorem priority_returned idle asserts c s : kernel_ok idle s → tcbs s !! pxCurrentTCB s = Some c → is_ready c →
  1 <= uxMutexesHeld c < 2 ^ 32 →
  ∃ s' c', give_back asserts (pxCurrentTCB s) s = Done (tt, s') ∧ kernel_ok idle s' ∧
    tcbs s' = <[pxCurrentTCB s := c']> (tcbs s) ∧ is_ready c' ∧ uxMutexesHeld c' = uxMutexesHeld c - 1 ∧
    uxPriority c' = (if uxMutexesHeld c =? 1 then uxBasePriority c else uxPriority c) ∧
    uxBasePriority c' = uxBasePriority c ∧
    (uxMutexesHeld c = 1 → uxBasePriority c < uxPriority c → pendsv s' = true).
Proof.
  intros K E Hr Hm. destruct (wp_inv _ _ _ (kernel_disinherit idle asserts c s K E Hr ltac:(lia))) as ([]&s'&Er&K'&Et&Hy).
  exists s', (disinherited c). rewrite u32_small in Hy by (unfold is_u32; lia). split_and!; [done..| | | | |].
  all: unfold disinherited; rewrite ?(u32_small (uxMutexesHeld c - 1)) by (unfold is_u32; lia).
  - by destruct (_ && _).
  - by destruct (_ && _).
  - destruct (Z.eqb_spec (uxPriority c) (uxBasePriority c)), (Z.eqb_spec (uxMutexesHeld c) 1), (Z.eqb_spec (uxMutexesHeld c - 1) 0);
      simpl; lia.
  - by destruct (_ && _).
  - intros Hm1. apply Hy. lia.
Qed.

(** ** A kernel with three tasks *)

Module KernelDemo.
(** Task 100 has the priority 2; the start adds the idle task, 8, and the timer
    task, 16, of priority 9. *)
Definition run {A} (m : ST scheduler A) (s : scheduler) : scheduler := match m s with Done (_, s') => s' | _ => s end.
Definition timers : ST scheduler bool := xTaskCreate true (Some 16) 9.
Definition s0 : scheduler := run (xTaskCreate true (Some 100) 2) boot.
Definition s1 : scheduler := run (xTaskCreate true (Some 8) 0) s0.
Definition s2 : scheduler := run timers s1.
Definition started : scheduler := run (vTaskStartScheduler true (Some 8) timers) s0.
(** The timer task sleeps for three ticks; task 100 runs. *)
Definition asleep3 : scheduler := run (exec true 10 (Delay 3)) started.
Definition switched : scheduler := run (exec true 10 Switch) asleep3.
(** It takes a mutex; three ticks later the timer task runs and waits for the mutex. *)
Definition holding : scheduler := run (exec true 10 Hold) switched.
Definition ticked3 : scheduler := run (exec true 10 Tick;; exec true 10 Tick;; exec true 10 Tick) holding.
Definition waiting : scheduler := run (exec true 10 Switch) ticked3.
Definition lent : scheduler := run (exec true 10 (Inherit 100)) waiting.
Definition lent_waiting : scheduler := run (exec true 10 (WaitEvent 7 portMAX_DELAY)) lent.
Definition giving : scheduler := run (exec true 10 Switch) lent_waiting.

Lemma booted_s2 : booted true s2.
Proof.
  assert (booted true s0) as H0 by (eapply (booted_create true boot 100 2); [constructor|done..|by vm_compute]).
  assert (booted true s1) as H1 by (eapply (booted_create true s0 8 0); [done|by vm_compute..]).
  eapply (booted_create true s1 16 9); [done|by vm_compute..].
Defined.

Lemma started_reachable : reachable true 10 8 started.
Proof.
  eapply (reach_start true 10 8 s0 s1 s2 timers started); [|by vm_compute|done|by vm_compute|by vm_compute|by vm_compute|exact booted_s2|by vm_compute; eexists|by vm_compute|by vm_compute].
  eapply (booted_create true boot 100 2); [constructor|done..|by vm_compute].
Defined.

Lemma switched_reachable : reachable true 10 8 switched.
Proof.
  eapply (reach_call _ _ _ asleep3 Switch); [|split; [vm_compute; lia|done]|by vm_compute].
  eapply (reach_call _ _ _ started (Delay 3)); [exact started_reachable| |by vm_compute].
  split; [vm_compute; lia|]. split; [split; [by vm_compute|by vm_compute]|by vm_compute].
Defined.

Lemma call_ok c s s' : kernel_ok 8 s → bool_decide (size (tcbs s) < 10)%nat = true → task_call 8 c s →
  match c with Tick | Switch => True | _ => pendsv s = false end → exec true 10 c s = Done (tt, s') → kernel_ok 8 s'.
Proof.
  intros Hs Hf%bool_decide_eq_true Hv Hp E. pose proof (kernel_call true 10 8 c s Hs (conj Hf (conj Hv Hp))) as H.
  unfold wp in H. by rewrite E in H.
Defined.

Definition ticked2 : scheduler := run (exec true 10 Tick;; exec true 10 Tick) holding.
Lemma ticked2_ok : kernel_ok 8 ticked2.
Proof.
  pose proof (reachable_ok _ _ _ _ switched_reachable) as K.
  apply (call_ok Hold switched holding) in K; [|by vm_compute..].
  apply (call_ok Tick holding (run (exec true 10 Tick) holding)) in K; [|by vm_compute..].
  apply (call_ok Tick _ ticked2) in K; [done|by vm_compute..].
Defined.

Lemma waiting_ok : kernel_ok 8 waiting.
Proof.
  pose proof ticked2_ok as K. apply (call_ok Tick _ ticked3) in K; [|by vm_compute..].
  apply (call_ok Switch _ waiting) in K; [done|by vm_compute..].
Defined.

Lemma giving_ok : kernel_ok 8 giving.
Proof.
  pose proof waiting_ok as K.
  apply (call_ok (Inherit 100) _ lent) in K; [|by vm_compute|by vm_compute; eexists|by vm_compute..].
  apply (call_ok (WaitEvent 7 portMAX_DELAY) _ lent_waiting) in K; [|by vm_compute| |by vm_compute..].
  - apply (call_ok Switch _ giving) in K; [done|by vm_compute..].
  - split_and!; [done..|by vm_compute|]. intros c. vm_compute. by intros [= <-].
Defined.
End KernelDemo.

Lemma highest_priority_runs_witness : pxCurrentTCB KernelDemo.switched = 100 ∧ tops KernelDemo.switched.
Proof.
  split; [by vm_compute|].
  refine (proj1 (highest_priority_runs true 10 8 KernelDemo.switched KernelDemo.switched_reachable) _ _); by vm_compute.
Defined.

Lemma priority_inherited_witness : ∃ s' c', xTaskPriorityInherit 100 KernelDemo.waiting = Done (true, s') ∧
  tcbs s' !! 100 = Some c' ∧ uxPriority c' = 9 ∧ is_ready c'.
Proof.
  destruct (tcbs KernelDemo.waiting !! 100) as [c|] eqn:E; [|by vm_compute in E].
  destruct (tcbs KernelDemo.waiting !! pxCurrentTCB KernelDemo.waiting) as [cur|] eqn:Ec; [|by vm_compute in Ec].
  destruct (priority_inherited 8 100 c cur KernelDemo.waiting KernelDemo.waiting_ok E Ec) as (s'&c'&H1&_&H2&H3&_&_&H4&_).
  exists s', c'. vm_compute in E, Ec. injection E as <-. injection Ec as <-. rewrite H1, H2, lookup_insert_eq, H3.
  split_and!; [done..|]. by apply H4.
Defined.

Lemma priority_returned_witness : pxCurrentTCB KernelDemo.giving = 100 ∧
  ∃ s' c', give_back true 100 KernelDemo.giving = Done (tt, s') ∧ tcbs s' !! 100 = Some c' ∧ uxPriority c' = 2 ∧ pendsv s' = true.
Proof.
  split; [by vm_compute|]. destruct (tcbs KernelDemo.giving !! pxCurrentTCB KernelDemo.giving) as [c|] eqn:E; [|by vm_compute in E].
  destruct (priority_returned 8 true c KernelDemo.giving KernelDemo.giving_ok E) as (s'&c'&H1&_&H2&_&_&H3&_&H4).
  - vm_compute in E. by injection E as <-.
  - vm_compute in E. injection E as <-. by vm_compute.
  - exists s', c'. change (pxCurrentTCB KernelDemo.giving) with 100 in H1, H2. rewrite H2, lookup_insert_eq, H3.
    vm_compute in E. injection E as <-. split_and!; [exact H1|done|done|by apply H4].
Defined.
