(* ===== verification/RtosTime.v ===== *)
(** * Time

    The clock of the scheduler as a set of timers: a tick counts them down, a
    task sleeps exactly as long as it asked for, a time-out is over when its
    time is, whatever the 32-bit tick count overflows. *)

From Stdlib Require Import ZArith Lia.
From stdpp Require Import functions gmap list.
From S2P Require Import Prelude RtosList RtosTasks RtosSched RtosKernel.
Local Open Scope Z_scope.

(** ** Timers *)

(** The ticks each delayed task has left. *)
Definition timers (s : scheduler) : gmap Z Z := omap (remaining s) (tcbs s).

Definition count_down (m : gmap Z Z) : gmap Z Z := omap (λ n, if n =? 1 then None else Some (n - 1)) m.

Lemma remaining_time s s' c : same_time s s' → remaining s' c = remaining s c.
Proof. intros (E1&_&E2&E3). unfold remaining. by rewrite E1, E2, E3. Qed.

Lemma remaining_woken s c : ok s → remaining s (woken c) = None.
Proof.
  intros [_ _ HT]. unfold remaining. simpl. destruct (time_lists _ _ HT) as [[-> ->]|[-> ->]]; by rewrite !decide_False.
Qed.

Lemma remaining_ready s c : ok s → is_ready c → remaining s c = None.
Proof.
  intros [_ _ HT] Hr. unfold remaining. rewrite Hr. destruct (time_lists _ _ HT) as [[-> ->]|[-> ->]]; by rewrite !decide_False.
Qed.

(** A task after a tick, by the ticks it had left. *)
Lemma wake_due_timer s t c : ok s → tcbs s !! t = Some c →
  wake_due (ticked s) (u32 (xTickCount s + 1)) c = (if decide (remaining s c = Some 1) then woken c else c) ∧
  (∀ s', ok s' → same_time (ticked s) s' → remaining s' (wake_due (ticked s) (u32 (xTickCount s + 1)) c) =
     match remaining s c with Some n => if n =? 1 then None else Some (n - 1) | None => None end).
Proof.
  intros Hok E. pose proof (remaining_tick s t c Hok E) as H. unfold wake_due. destruct (remaining s c) as [n|] eqn:Er.
  - destruct H as [Hdue Hrest]. destruct (Z.eqb_spec n 1) as [->|Hn].
    + rewrite (proj2 Hdue) by done. rewrite decide_True by done. split; [done|]. intros s' Hok' _. by apply remaining_woken.
    + destruct (is_due _ _ _); [by destruct Hn; apply Hdue|]. rewrite decide_False by congruence. split; [done|].
      intros s' _ Ht. rewrite (remaining_time _ _ _ Ht). auto.
  - destruct H as [-> Hrest]. rewrite decide_False by done. split; [done|]. intros s' _ Ht. by rewrite (remaining_time _ _ _ Ht).
Qed.

(** What a tick makes of the tasks, as a function of the timers. *)
Definition expired (s : scheduler) (m : gmap Z TCB_t) : gmap Z TCB_t :=
  map_imap (λ t c, Some (if decide (timers s !! t = Some 1) then woken c else c)) m.

Lemma timers_tick s s' : ok s → ok s' → same_time (ticked s) s' →
  tcbs s' = wake_due (ticked s) (u32 (xTickCount s + 1)) <$> tcbs s →
  timers s' = count_down (timers s) ∧ tcbs s' = expired s (tcbs s).
Proof.
  intros Hok Hok' Htime Et. split; apply map_eq; intros t.
  - unfold timers, count_down. rewrite !lookup_omap, Et, lookup_fmap. destruct (tcbs s !! t) as [c|] eqn:E; [|done]. simpl.
    destruct (wake_due_timer s t c Hok E) as [_ H]. rewrite (H s') by done. by destruct (remaining s c).
  - unfold expired. rewrite map_lookup_imap, Et, lookup_fmap. destruct (tcbs s !! t) as [c|] eqn:E; [|done]. simpl.
    destruct (wake_due_timer s t c Hok E) as [-> _]. unfold timers. by rewrite lookup_omap, E.
Qed.

Lemma preempts_timers s p : ok s → preempts (ticked s) (u32 (xTickCount s + 1)) p ↔
  ∃ t c, tcbs s !! t = Some c ∧ timers s !! t = Some 1 ∧ p < uxPriority c.
Proof.
  intros Hok. unfold preempts. assert (tcbs (ticked s) = tcbs s) as -> by (unfold ticked; by destruct (_ =? 0)).
  assert (∀ t c, tcbs s !! t = Some c →
    is_due (ticked s) (u32 (xTickCount s + 1)) c = true ↔ timers s !! t = Some 1) as H.
  { intros t c E. pose proof (remaining_tick s t c Hok E) as H. unfold timers. rewrite lookup_omap, E. simpl.
    destruct (remaining s c) as [n|]; [rewrite (proj1 H); split; [by intros ->|by intros [= ->]]|].
    destruct H as [-> _]. done. }
  split; intros (t&c&E&Hc&Hp); exists t, c; (split_and!; [done| |done]); by eapply H.
Qed.

(** ** Sleeping *)

Lemma ticked_time s : xTickCount (ticked s) = u32 (xTickCount s + 1).
Proof. unfold ticked. by destruct (_ =? 0). Qed.

Lemma u32_succ a b : u32 (u32 a + b) = u32 (a + b).
Proof. apply Zplus_mod_idemp_l. Qed.

(** ** Calls leave the clock alone *)

(** What [remaining] reads of the clock, and the ticks that wait for the scheduler. *)
Definition dial (s : scheduler) := (xTickCount s, pxDelayedTaskList s, pxOverflowDelayedTaskList s, xPendedTicks s).

(** With no tick waiting, [m] leaves the clock alone. *)
Definition timeless {A} (m : ST scheduler A) : Prop :=
  ∀ s a s', xPendedTicks s = 0 → m s = Done (a, s') → dial s' = dial s.

Lemma timeless_ret {A} (a : A) : timeless (mret a).
Proof. by intros s b s' _ [= <- <-]. Qed.
Lemma timeless_lift {A} (o : outcome A) : timeless (lift o).
Proof. intros s b s' _. unfold lift. destruct o; [by intros [= <- <-]|done..]. Qed.
Lemma timeless_diverge {A} : timeless (diverge (A := A)).
Proof. done. Qed.
Lemma timeless_gets {A} (f : scheduler → A) : timeless (gets f).
Proof. by intros s b s' _ [= <- <-]. Qed.
Lemma timeless_modify f : (∀ s, dial (f s) = dial s) → timeless (modify f).
Proof. intros Hf s b s' _ [= <- <-]. apply Hf. Qed.
Lemma timeless_bind {A B} (m : ST scheduler A) (k : A → ST scheduler B) :
  timeless m → (∀ a, timeless (k a)) → timeless (m ≫= k).
Proof.
  intros Hm Hk s b s' Hs. unfold mbind, ST_bind. destruct (m s) as [[a s1]| |] eqn:E; [|done..]. intros Hks.
  pose proof (Hm _ _ _ Hs E) as H1. rewrite (Hk a s1 b s'); [done| |done]. injection H1 as _ _ _ ->. done.
Qed.
(** No tick is replayed. *)
Lemma timeless_pended {B} (k : Z → ST scheduler B) : timeless (k 0) → timeless (gets xPendedTicks ≫= k).
Proof. intros Hk s b s' Hs. rewrite gets_bind, Hs. by apply Hk. Qed.

Create HintDb timeless.
#[local] Hint Unfold RtosTasks.configASSERT get_tcb upd_tcb listINSERT_END vListInsert uxListRemove listLIST_ITEM_CONTAINER listLIST_IS_EMPTY
  listGET_OWNER_OF_HEAD_ENTRY ready_list prvGetTCBFromHandle current_tcb taskRECORD_READY_PRIORITY prvAddTaskToReadyList
  leave_event_list taskYIELD_WITHIN_API higher_than_current taskYIELD_ANY_CORE_IF_USING_PREEMPTION reset_event_value
  requeue taskSELECT_HIGHEST_PRIORITY_TASK vTaskSwitchContext prvResetNextTaskUnblockTime
  prvAddCurrentTaskToDelayedList vTaskSuspendAll xTaskResumeAll yield_unless make_ready
  prvTaskIsTaskSuspended vTaskPlaceOnEventList xTaskPriorityDisinherit : timeless.

(** Runs through the program; the loops have lemmas of their own. *)
Ltac timeless_step :=
  lazymatch goal with
  | |- timeless (gets xPendedTicks ≫= _) => apply timeless_pended; cbn [Z.ltb Z.compare]
  | |- timeless (_ ≫= _) => apply timeless_bind; [|intros ?]
  | |- timeless (mret _) => apply timeless_ret
  | |- timeless (lift _) => apply timeless_lift
  | |- timeless (gets _) => apply timeless_gets
  | |- timeless (modify _) => apply timeless_modify; by intros ?
  | |- timeless diverge => apply timeless_diverge
  | |- timeless _ => first [solve [eauto with timeless] | progress autounfold with timeless; cbv beta zeta | case_match]
  end.
Ltac timeless := repeat timeless_step.

Section timeless_calls.
Context (asserts : bool) (fuel : nat).

Lemma timeless_find_top n : timeless (find_top n).
Proof. induction n; simpl; timeless; done. Qed.
#[local] Hint Resolve timeless_find_top : timeless.

Lemma timeless_move_pending moved : timeless (move_pending fuel moved).
Proof. revert moved. induction fuel; intros moved; simpl; timeless; done. Qed.
#[local] Hint Resolve timeless_move_pending : timeless.

Lemma timeless_call c : (match c with Tick | Create _ _ => False | _ => True end) → timeless (exec asserts fuel c).
Proof.
  intros Hc. destruct c; try done; cbn [exec ignore]; unfold ignore.
  all: unfold xPortPendSVHandler, vTaskDelay, xTaskDelayUntil, vTaskSuspend, vTaskResume, vTaskPrioritySet, wait_event,
    xTaskRemoveFromEventList, xTaskPriorityInherit, pvTaskIncrementMutexHeldCount, give_back, vTaskPriorityDisinheritAfterTimeout,
    xTaskGenericNotify, wait_for_notification, take_notification, receive_notification.
  all: timeless.
Qed.

(** ** What the calls of others do to a sleeping task *)

(** The task at [t] sleeps, with [n] ticks to go: it waits for nothing else. *)
Definition sleeps (t n : Z) (s : scheduler) : Prop := ∃ c, tcbs s !! t = Some c ∧ remaining s c = Some n ∧
  container EventItem c = None ∧ ucNotifyState c ≠ taskWAITING_NOTIFICATION.

(** The control block as [sleeps] sees it. *)
Definition alike (c c' : TCB_t) : Prop := (∀ k, container k c' = container k c) ∧ wake_time c' = wake_time c ∧
  (ucNotifyState c ≠ taskWAITING_NOTIFICATION → ucNotifyState c' ≠ taskWAITING_NOTIFICATION).

Lemma alike_refl c : alike c c.
Proof. done. Qed.

(** The task at [t] looks as it did. *)
Definition keeps (t : Z) (s s' : scheduler) : Prop :=
  ∀ c, tcbs s !! t = Some c → ∃ c', tcbs s' !! t = Some c' ∧ alike c c'.

Lemma keeps_unchanged t s s' : tcbs s' = tcbs s → keeps t s s'.
Proof. intros E c Ec. exists c. by rewrite E. Qed.
Lemma keeps_other t u d s s' : tcbs s' = <[u := d]> (tcbs s) → u ≠ t → keeps t s s'.
Proof. intros E Hne c Ec. exists c. by rewrite E, lookup_insert_ne. Qed.
Lemma keeps_changed t u d s s' : tcbs s' = <[u := d]> (tcbs s) → (∀ c, u = t → tcbs s !! t = Some c → alike c d) → keeps t s s'.
Proof.
  intros E H. destruct (decide (u = t)) as [->|Hne]; [|by eapply keeps_other].
  intros c Ec. exists d. rewrite E, lookup_insert_eq. auto.
Qed.

Lemma sleeps_kept t n s s' : sleeps t n s → keeps t s s' → dial s' = dial s → sleeps t n s'.
Proof.
  intros (c&E&Hr&He&Hw) Hk [= D1 D2 D3 _]. destruct (Hk c E) as (c'&E'&Hc&Hwk&Hn). exists c'. split_and!; [done| | |auto].
  - rewrite <- Hr. unfold remaining. by rewrite (Hc StateItem : state_of c' = state_of c), D1, D2, D3, Hwk.
  - by rewrite Hc.
Qed.

(** A sleeping task is neither ready, nor suspended, nor running. *)
Lemma sleeps_unready t n s c : ok s → sleeps t n s → tcbs s !! t = Some c → ¬ is_ready c.
Proof. intros Hok (d&E&Hr&_) Ec. assert (d = c) as -> by congruence. by eapply remaining_unready. Qed.

Lemma sleeps_unsuspended t n s c : ok s → sleeps t n s → tcbs s !! t = Some c → is_suspended c = false.
Proof.
  intros [_ _ HT] (d&E&Hr&_) Ec. assert (d = c) as -> by congruence. unfold is_suspended.
  destruct (bool_decide_reflect (state_of c = Some xSuspendedTaskList)) as [Hs|]; [|done].
  unfold remaining in Hr. rewrite Hs in Hr. destruct (time_lists _ _ HT) as [[E1 E2]|[E1 E2]]; by rewrite E1, E2 in Hr.
Qed.

Lemma alike_repriced c c1 c' : ¬ is_ready c1 → same_place c1 c' → alike c c1 → alike c (repriced c1 c').
Proof.
  intros Hn [Hc Hw Hns _ _] (A1&A2&A3). unfold repriced. rewrite decide_False by done.
  split_and!; [intros k; by rewrite Hc|congruence|by rewrite Hns].
Qed.

Lemma alike_inherited s t p c : ok s → tcbs s !! t = Some c → ¬ is_ready c → 0 <= p < configMAX_PRIORITIES →
  alike c (inherited p c).
Proof.
  intros Hok E Hn Hp. unfold inherited. destruct (Z.ltb_spec (uxPriority c) p) as [Hlt|]; [|apply alike_refl].
  destruct (event_reset_fields p c) as (R1&R2&R3&R4&R5), (priority_range _ (ok_prioritised _ _ Hok) _ _ E).
  apply alike_repriced.
  - unfold is_ready. by rewrite R1, (R5 StateItem : state_of _ = state_of c).
  - split; simpl; rewrite ?R2; lia || done || by intros [].
  - split_and!; [done|done|by rewrite R4].
Qed.

Lemma alike_reclaimed s t p c : ok s → tcbs s !! t = Some c → ¬ is_ready c → p <= uxPriority c → alike c (reclaimed p c).
Proof.
  intros Hok E Hn Hp. unfold reclaimed. destruct (_ && _); [|apply alike_refl]. set (q := Z.max _ _).
  destruct (event_reset_fields q (with_priority q c)) as (R1&R2&R3&R4&R5), (priority_range _ (ok_prioritised _ _ Hok) _ _ E).
  apply alike_repriced; [done| |apply alike_refl]. simpl in R1, R2.
  split; [intros k; rewrite R5; by destruct k|done|done|rewrite R1; unfold q; lia|rewrite R1, R2; unfold q; lia].
Qed.
End timeless_calls.

Section sleeping_calls.
Context (asserts : bool) (fuel : nat) (idle : Z).

(** The call does not suspend the task at [t]. *)
Definition spares (t : Z) (c : call) (s : scheduler) : Prop := match c with Suspend h => handle h s ≠ t | _ => True end.

Lemma current_awake t n s : kernel_ok idle s → pendsv s = false → sleeps t n s → pxCurrentTCB s ≠ t.
Proof.
  intros K Hp Hs Ht. destruct (k_current _ _ K) as (cur&Ec&Hr). rewrite Ht in Ec.
  by destruct (sleeps_unready t n s cur (k_ok _ _ K) Hs Ec (Hr Hp)).
Qed.

Lemma call_keeps c t n s : kernel_ok idle s → valid fuel idle c s → c ≠ Tick → spares t c s → sleeps t n s →
  wp False (exec asserts fuel c) (λ _ s', keeps t s s') s.
Proof.
  intros K (Hf&Hv&Hp) Hc Hsp Hs. assert (0 < fuel)%nat as Hf0 by lia. pose proof (k_ok _ _ K) as Hok.
  destruct (k_current _ _ K) as (cur&Ec&Hcur).
  assert (∀ d, tcbs s !! t = Some d → ¬ is_ready d ∧ is_suspended d = false ∧ container EventItem d = None ∧
    ucNotifyState d ≠ taskWAITING_NOTIFICATION) as Hd.
  { intros d Ed. split_and!; [by eapply sleeps_unready|by eapply sleeps_unsuspended|..];
      destruct Hs as (c'&E'&_&?&?); by simplify_eq. }
  destruct c; try done; simpl in Hv, Hsp; try specialize (Hcur Hp); simpl exec; try apply wp_ignore;
    try pose proof (current_awake t n s K Hp Hs) as Hct.
  - eapply wp_mono; [by apply (kernel_switch idle)|]. intros _ s' (_&_&p&u&z&_&_&->). by apply keeps_unchanged.
  - destruct Hv. destruct (Z.eq_dec n0 0) as [->|Hn0].
    + apply wp_bind, wp_ret, wp_modify. by apply keeps_unchanged.
    + destruct (kernel_running _ _ K Hp) as (c&Hr). eapply wp_mono; [apply delay_spec; [exact Hr|unfold is_u32 in *; lia|done]|].
      intros _ s' (c'&HS). eapply keeps_other; [apply HS|done].
  - destruct Hv as (?&?&?). destruct (kernel_running _ _ K Hp) as (c&Hr).
    eapply wp_mono; [by apply (delay_until_spec asserts fuel previous increment s c)|]. intros r s' [_ HS].
    destruct (_ <? _); [|rewrite HS; by apply keeps_unchanged]. destruct HS as (c'&HS). eapply keeps_other; [apply HS|done].
  - destruct Hv as (Ha&?&?&?). eapply wp_mono; [by apply (kernel_create idle)|]. intros r s' (_&_&Et&_).
    eapply keeps_changed; [exact Et|]. intros d -> Ed. congruence.
  - destruct Hv as [[c E] ?]. eapply wp_mono; [by eapply kernel_suspend|]. intros _ s' [_ Et]. by eapply keeps_other.
  - destruct Hv as [c E]. eapply wp_mono; [by eapply kernel_resume|]. intros _ s' [_ Et]. eapply keeps_changed; [exact Et|].
    intros d -> Ed. assert (d = c) as -> by congruence. destruct (Hd c Ed) as (_&->&_). rewrite andb_false_r. apply alike_refl.
  - destruct Hv as [[c E] ?]. eapply wp_mono; [by eapply kernel_priority_set|]. intros _ s' [_ Et].
    eapply keeps_changed; [exact Et|]. intros d Ht Ed. rewrite Ht in E. assert (d = c) as -> by congruence.
    destruct (_ =? _); [apply alike_refl|]. destruct (priority_range _ (ok_prioritised _ _ Hok) _ _ Ed).
    apply alike_repriced; [by apply Hd|by apply set_priority_place|apply alike_refl].
  - destruct Hv as (?&?&?&Hw). eapply wp_mono; [by eapply kernel_wait_event; eauto|]. intros _ s' [_ Et]. by eapply keeps_other.
  - destruct (z_items _) as [|u ts] eqn:Hz; [done|]. eapply wp_mono; [by eapply kernel_wake_event|]. intros _ s' (_&c&E&Et).
    eapply keeps_changed; [exact Et|]. intros d -> Ed.
    assert (t ∈ z_items (lists s (EventList e))) as (c0&E0&Hc0)%(placed_member _ (ok_placed _ _ Hok)) by (rewrite Hz; left).
    simpl in Hc0. destruct (Hd c0 E0) as (_&_&He&_). simpl in He. congruence.
  - destruct Hv as [c E]. eapply wp_mono; [by eapply kernel_inherit|]. intros _ s' (_&_&Hch).
    eapply keeps_changed; [apply Hch|]. intros d -> Ed. assert (d = c) as -> by congruence.
    apply (alike_inherited s t); [apply Hok|done|by apply Hd|by apply (priority_range _ (ok_prioritised _ _ Hok) _ _ Ec)].
  - eapply wp_mono; [by eapply kernel_hold|]. intros _ s' (_&_&Et). by eapply keeps_other.
  - apply wp_bind, wp_gets. eapply wp_mono; [eapply kernel_disinherit; eauto|]. intros _ s' (_&Et&_). by eapply keeps_other.
  - destruct Hv as (c&E&?&?&?). eapply wp_mono; [by eapply kernel_reclaim|]. intros _ s' [_ Et].
    eapply keeps_changed; [exact Et|]. intros d -> Ed. assert (d = c) as -> by congruence.
    apply (alike_reclaimed s t); [apply Hok|done|by apply Hd|done].
  - destruct Hv as [c E]. eapply wp_mono; [by eapply kernel_notify|]. intros _ s' (_&_&Et).
    eapply keeps_changed; [exact Et|]. intros d -> Ed. assert (d = c) as -> by congruence. destruct (Hd c Ed) as (_&_&_&Hnw).
    unfold after_notify. rewrite (proj2 (Z.eqb_neq _ _)) by done. split_and!; [by intros []|done|done].
  - destruct Hv. eapply wp_mono; [by eapply kernel_wait_notification|]. intros _ s' [_ Et]. by eapply keeps_other.
  - eapply wp_mono; [by eapply kernel_take|]. intros _ s' (_&_&Et). by eapply keeps_other.
  - destruct Hv. eapply wp_mono; [eapply kernel_wait_notification; try done; by intros []|]. intros _ s' [_ Et]. by eapply keeps_other.
  - eapply wp_mono; [by eapply kernel_receive|]. intros _ s' (_&_&Et). by eapply keeps_other.
Qed.


Lemma call_dial c s s' : kernel_ok idle s → valid fuel idle c s → c ≠ Tick → exec asserts fuel c s = Done (tt, s') →
  kernel_ok idle s' ∧ dial s' = dial s.
Proof.
  intros K Hv Hc E. pose proof (kernel_call asserts fuel idle c s K Hv) as K'. unfold wp in K'. rewrite E in K'.
  split; [done|]. destruct c; try done; try (eapply timeless_call; [|apply K|exact E]; done).
  assert (wp False (exec asserts fuel (Create a p)) (λ _ s', clock s' = clock s) s) as Hck.
  { destruct Hv as (_&(?&?&?&?)&_). apply wp_ignore. eapply wp_mono; [by apply (kernel_create idle)|]. by intros ?? (_&_&_&?). }
  unfold wp in Hck. rewrite E in Hck. injection Hck as H1 H2 H3 _. unfold dial. rewrite H1, H2, H3.
  by rewrite (proj2 (k_pending _ _ K)), (proj2 (k_pending _ _ K')).
Qed.

Lemma call_sleeps c t n s s' : kernel_ok idle s → valid fuel idle c s → c ≠ Tick → spares t c s → sleeps t n s →
  exec asserts fuel c s = Done (tt, s') → kernel_ok idle s' ∧ sleeps t n s' ∧ xTickCount s' = xTickCount s.
Proof.
  intros K Hv Hc Hsp Hs E. destruct (call_dial c s s' K Hv Hc E) as [K' Hd]. split; [done|].
  pose proof (call_keeps c t n s K Hv Hc Hsp Hs) as Hk. unfold wp in Hk. rewrite E in Hk.
  split; [by eapply sleeps_kept|by injection Hd].
Qed.

Lemma tick_sleeps t n s : kernel_ok idle s → (size (tcbs s) < fuel)%nat → sleeps t n s →
  ∃ s', xPortSysTickHandler asserts fuel s = Done (tt, s') ∧ kernel_ok idle s' ∧ xTickCount s' = u32 (xTickCount s + 1) ∧
    (1 < n → sleeps t (n - 1) s') ∧ (n = 1 → ∃ c, tcbs s' !! t = Some c ∧ is_ready c).
Proof.
  intros K Hf (c&E&Hr&He&Hw). destruct (wp_inv _ _ _ (kernel_tick idle asserts fuel s K Hf)) as ([]&s'&Es&K'&Htm&Et).
  exists s'. split_and!; [done|done|by rewrite (proj1 Htm), ticked_time| |].
  all: destruct (wake_due_timer s t c (k_ok _ _ K) E) as [W1 W2]; specialize (W2 s' (k_ok _ _ K') Htm); rewrite Hr in W1, W2.
  - intros Hn. assert (Some n ≠ Some 1) as Hn1 by (intros [= ->]; lia). rewrite decide_False in W1 by done.
    rewrite W1, (proj2 (Z.eqb_neq _ _)) in W2 by lia.
    exists c. split_and!; [|done..]. rewrite Et, lookup_fmap, E. simpl. by rewrite W1.
  - intros ->. exists (woken c). split; [|done]. rewrite Et, lookup_fmap, E. simpl. by rewrite W1, decide_True.
Qed.

(** [k] ticks pass, and between them whatever calls the tasks and the interrupts
    make that do not suspend the task at [t]. *)
Inductive ticks_pass (t : Z) : Z → scheduler → scheduler → Prop :=
  | pass_start s : ticks_pass t 0 s s
  | pass_tick k s s1 s2 : ticks_pass t k s s1 → (size (tcbs s1) < fuel)%nat →
      xPortSysTickHandler asserts fuel s1 = Done (tt, s2) → ticks_pass t (k + 1) s s2
  | pass_call k c s s1 s2 : ticks_pass t k s s1 → valid fuel idle c s1 → c ≠ Tick → spares t c s1 →
      exec asserts fuel c s1 = Done (tt, s2) → ticks_pass t k s s2.

Lemma ticks_pass_sleeps t n k s s' : kernel_ok idle s → sleeps t n s → ticks_pass t k s s' →
  0 <= k ∧ (k < n → kernel_ok idle s' ∧ sleeps t (n - k) s' ∧ xTickCount s' = u32 (xTickCount s + k)).
Proof.
  intros K Hs. induction 1 as [s|k s s1 s2 _ IH Hf E|k c s s1 s2 _ IH Hv Hc Hsp E].
  - split; [done|]. intros _. rewrite Z.sub_0_r, Z.add_0_r. split_and!; [done..|].
    symmetry. apply u32_small, (time_range _ _ (ok_timed _ _ (k_ok _ _ K))).
  - destruct IH as [Hk IH]; [done..|]. split; [lia|]. intros Hlt. destruct IH as (K1&H1&Ht1); [lia|].
    destruct (tick_sleeps t (n - k) s1 K1 Hf H1) as (s'&E'&K2&Ht2&H2&_). assert (s' = s2) as -> by congruence.
    split_and!; [done| |by rewrite Ht2, Ht1, u32_succ, Z.add_assoc].
    replace (n - (k + 1)) with (n - k - 1) by lia. apply H2. lia.
  - destruct IH as [Hk IH]; [done..|]. split; [done|]. intros Hlt. destruct IH as (K1&H1&Ht1); [lia|].
    destruct (call_sleeps c t (n - k) s1 s2 K1 Hv Hc Hsp H1 E) as (K2&H2&Ht2). by rewrite Ht2.
Qed.

(** The task at [t] sleeps from [s] for exactly [n] ticks. *)
Definition sleeps_for (t n : Z) (s : scheduler) : Prop := ∀ k s', k < n → ticks_pass t k s s' →
  (∃ c, tcbs s' !! t = Some c ∧ ¬ is_ready c ∧ remaining s' c = Some (n - k)) ∧
  (k = n - 1 → (size (tcbs s') < fuel)%nat → ∃ s'' c, xPortSysTickHandler asserts fuel s' = Done (tt, s'') ∧
     tcbs s'' !! t = Some c ∧ is_ready c ∧ xTickCount s'' = u32 (xTickCount s + n)).

Lemma sleeps_exact t n s : kernel_ok idle s → sleeps t n s → sleeps_for t n s.
Proof.
  intros K Hs k s' Hlt Hp. destruct (ticks_pass_sleeps t n k s s' K Hs Hp) as (_&K1&H1&Ht1); [done|]. split.
  - destruct H1 as (c&E&Hr&Hrest). exists c. split_and!; [done|by eapply sleeps_unready; [apply K1|by exists c|]|done].
  - intros -> Hf. destruct (tick_sleeps t _ s' K1 Hf H1) as (s''&E'&_&Ht2&_&H2). destruct H2 as (c&Ec&Hr); [lia|].
    exists s'', c. split_and!; [done..|]. rewrite Ht2, Ht1, u32_succ. f_equal. lia.
Qed.

Lemma put_to_sleep_for s s' c c' n : kernel_ok idle s → tcbs s !! pxCurrentTCB s = Some c → is_ready c →
  pxCurrentTCB s ≠ idle → ucNotifyState c ≠ taskWAITING_NOTIFICATION → put_to_sleep s s' c c' n →
  kernel_ok idle s' ∧ sleeps_for (pxCurrentTCB s) n s'.
Proof.
  intros K Ec Hr Hidle Hw Hs. pose proof (kernel_asleep idle s s' c c' n K Ec Hidle Hs) as K'. split; [done|].
  apply sleeps_exact; [done|]. exists c'. destruct (sleep_same _ _ _ _ _ Hs) as (_&_&He&Hn).
  split_and!; [rewrite (sleep_tcbs _ _ _ _ _ Hs); apply lookup_insert_eq|apply Hs| |by rewrite Hn].
  simpl. rewrite He. by eapply (k_free _ _ K).
Qed.
End sleeping_calls.

(** ** Time-outs *)

(** The absolute time [N] that the tick count and the overflow count stand for. *)
Definition time_is (s : scheduler) (N : Z) : Prop :=
  0 <= N ∧ xTickCount s = u32 N ∧ xNumOfOverflows s = u32 (N / 2 ^ 32).

Lemma time_tick s N : time_is s N → time_is (ticked s) (N + 1).
Proof.
  intros (H0&H1&H2). unfold time_is, ticked. rewrite H1, u32_succ.
  pose proof (Z.div_mod N (2 ^ 32) ltac:(done)) as HN. pose proof (Z.mod_pos_bound N (2 ^ 32) ltac:(done)) as Hb.
  destruct (Z.eq_dec (N mod 2 ^ 32) (2 ^ 32 - 1)) as [He|He].
  - assert ((N + 1) mod 2 ^ 32 = 0) as Hm by (symmetry; apply Z.mod_unique with (N / 2 ^ 32 + 1); lia).
    assert ((N + 1) / 2 ^ 32 = N / 2 ^ 32 + 1) as Hd by (symmetry; apply Z.div_unique with 0; lia).
    change (u32 (N + 1)) with ((N + 1) mod 2 ^ 32). rewrite Hm. cbn [Z.eqb xTickCount xNumOfOverflows set_overflows set_overflow_list set_delayed_list set_tick].
    rewrite Hd, H2, u32_succ. split_and!; [lia|done|done].
  - assert ((N + 1) mod 2 ^ 32 = N mod 2 ^ 32 + 1) as Hm by (symmetry; apply Z.mod_unique with (N / 2 ^ 32); lia).
    assert ((N + 1) / 2 ^ 32 = N / 2 ^ 32) as Hd by (symmetry; apply Z.div_unique with (N mod 2 ^ 32 + 1); lia).
    change (u32 (N + 1)) with ((N + 1) mod 2 ^ 32). rewrite Hm, (proj2 (Z.eqb_neq _ 0)) by lia.
    cbn [xTickCount xNumOfOverflows set_tick]. rewrite Hd, <- Hm. split_and!; [lia|done|done].
Qed.

(** A time-out taken at the time [N]. *)
Definition taken_at (T : TimeOut_t) (N : Z) : Prop :=
  0 <= N ∧ xTimeOnEntering T = u32 N ∧ xOverflowCount T = u32 (N / 2 ^ 32).

(** The tests of [xTaskCheckForTimeOut] measure the elapsed time, up to one turn of the clock. *)
Lemma elapsed_test N E : 0 <= N → 0 <= E <= 2 ^ 32 →
  negb (u32 ((N + E) / 2 ^ 32) =? u32 (N / 2 ^ 32)) && (u32 N <=? u32 (N + E)) = (2 ^ 32 <=? E) ∧
  (E < 2 ^ 32 → u32 (u32 (N + E) - u32 N) = E).
Proof.
  intros HN HE. assert (E < 2 ^ 32 → u32 (u32 (N + E) - u32 N) = E) as Helapsed.
  { intros Hlt. unfold u32. rewrite <- Zminus_mod. rewrite Z.add_simpl_l. apply Z.mod_small. lia. }
  split; [|done]. unfold u32 in *. pose proof (Z.div_mod N (2 ^ 32) ltac:(done)) as D1.
  pose proof (Z.mod_pos_bound N (2 ^ 32) ltac:(done)) as B1. set (q := N / 2 ^ 32) in *. set (r := N mod 2 ^ 32) in *.
  assert ((q + 1) mod 2 ^ 32 ≠ q mod 2 ^ 32) as Hne.
  { intros Hq. pose proof (Z.div_mod q (2 ^ 32) ltac:(done)). pose proof (Z.div_mod (q + 1) (2 ^ 32) ltac:(done)). nia. }
  destruct (Z_lt_ge_dec (r + E) (2 ^ 32)) as [Hc|Hc].
  - assert ((N + E) / 2 ^ 32 = q) as -> by (symmetry; apply Z.div_unique with (r + E); lia).
    rewrite Z.eqb_refl. simpl. symmetry. apply Z.leb_gt. lia.
  - assert ((N + E) / 2 ^ 32 = q + 1) as -> by (symmetry; apply Z.div_unique with (r + E - 2 ^ 32); lia).
    assert ((N + E) mod 2 ^ 32 = r + E - 2 ^ 32) as -> by (symmetry; apply Z.mod_unique with (q + 1); lia).
    rewrite (proj2 (Z.eqb_neq _ _) Hne). simpl.
    destruct (Z.leb_spec r (r + E - 2 ^ 32)), (Z.leb_spec (2 ^ 32) E); done || lia.
Qed.

(** ** Turns *)

(** The tasks that [n] switches in a row choose. *)
Fixpoint turns (n : nat) : ST scheduler (list Z) :=
  match n with
  | O => mret []
  | S n =>
      xPortPendSVHandler;;
      t ← gets pxCurrentTCB;
      ts ← turns n;
      mret (t :: ts)
  end.

Lemma z_next_rotates {A} (z z' : zipper A) t : z_next z = Some (t, z') →
  ∃ l, ahead z ++ passed z = t :: l ∧ ahead z' ++ passed z' = l ++ [t].
Proof.
  unfold z_next. destruct z as [xs [|y ys]]; [destruct xs as [|x xs]; [done|]|]; simpl; intros [= <- <-].
  - by exists xs.
  - exists (ys ++ xs). simpl. by rewrite app_assoc.
Qed.

Lemma highest_ready_unique s p q : ok s → highest_ready s p → highest_ready s q → p = q.
Proof.
  intros [HP HR _]. assert (∀ p q, highest_ready s p → highest_ready s q → p <= q) as H.
  { intros p' q' [Hp _] [_ Hq]. destruct (z_items (lists s (pxReadyTasksLists p'))) as [|t ts] eqn:Hz; [done|].
    assert (t ∈ z_items (lists s (pxReadyTasksLists p'))) as (c&E&Hc)%(placed_member _ HP) by (rewrite Hz; left).
    simpl in Hc. pose proof (ready_priority _ HR _ _ _ E Hc) as ->. by apply (Hq t). }
  intros Hp Hq. pose proof (H p q Hp Hq). pose proof (H q p Hq Hp). lia.
Qed.

Lemma wp_turns idle p l1 : ∀ l2 s, kernel_ok idle s → highest_ready s p →
  ahead (lists s (pxReadyTasksLists p)) ++ passed (lists s (pxReadyTasksLists p)) = l1 ++ l2 →
  wp False (turns (length l1)) (λ ts s', ts = l1 ∧ kernel_ok idle s' ∧ tcbs s' = tcbs s) s.
Proof.
  induction l1 as [|x l1 IH]; intros l2 s K Hp Hl; [by apply wp_ret|].
  apply wp_bind. eapply wp_mono; [by apply (kernel_switch idle)|]. intros _ s' (K'&_&q&t&z&Hq&Hz&->).
  assert (q = p) as -> by (by eapply highest_ready_unique; [apply K|..]).
  destruct (z_next_rotates _ _ _ Hz) as (l&E1&E2). rewrite E1 in Hl. injection Hl as -> ->.
  assert (lists (chosen p x z (set_pendsv false s)) (pxReadyTasksLists p) = z) as El by apply fn_lookup_insert.
  apply wp_bind, wp_gets, wp_bind. eapply wp_mono; [apply (IH (l2 ++ [x]))|].
  - done.
  - destruct Hp as [Hne Hmax]. split; [|done]. rewrite El. by destruct (z_items_next _ _ _ Hz) as [_ ->].
  - rewrite El, E2. by rewrite <- app_assoc.
  - intros ts s'' (->&?&?). by apply wp_ret.
Qed.

(** ** Properties *)

(** C10 (refinement): a tick counts the timers of the delayed tasks down by one and
    wakes exactly those whose time is up, across the overflow of the tick count;
    it asks for a switch exactly when a woken task is above the running one, when
    the running one shares its priority with another ready task, or when a switch
    was already due. *)
Theorem tick_counts_down asserts fuel s cur : ok s → uxSchedulerSuspended s = 0 → tcbs s !! pxCurrentTCB s = Some cur →
  (∀ l, is_delayed_list l = true → (length (z_items (lists s l)) < fuel)%nat) →
  ∃ r s', xTaskIncrementTick asserts fuel s = Done (r, s') ∧ ok s' ∧ xTickCount s' = u32 (xTickCount s + 1) ∧
    timers s' = count_down (timers s) ∧ tcbs s' = expired s (tcbs s) ∧
    (r = true ↔ (∃ t c, tcbs s !! t = Some c ∧ timers s !! t = Some 1 ∧ uxPriority cur < uxPriority c) ∨
                1 < len (z_items (lists s' (pxReadyTasksLists (uxPriority cur)))) ∨ xYieldPending s = true).
Proof.
  intros Hok Hs Hcur Hf. destruct (wp_inv _ _ _ (tick_spec asserts fuel s cur Hok Hs Hcur Hf)) as (r&s'&Er&Hok'&Hfr&Et&Hr).
  exists r, s'. pose proof (frame_inv _ _ Hfr) as (F1&F2&F3&F4&F5&F6&F7&F8&F9&_).
  destruct (timers_tick s s') as [Ht Hx]; [done..|]. rewrite (preempts_timers _ _ Hok) in Hr.
  split_and!; try done. by rewrite F5, ticked_time.
Qed.

(** C11 (liveness): A delay by [vTaskDelay] of [n] ticks returns at once with the caller
    blocked. Whatever valid calls the tasks and the interrupts make from then on,
    in any order (the type [call] lists them: delays, waits, wake-ups, priorities,
    mutexes, notifications, new tasks, resuming, switches), except suspending the
    caller, the caller stays blocked until the [n]th tick from then, and that tick
    makes it ready. The caller has no wait for a notification under way;
    [xTaskAbortDelay] and [vTaskDelete], which also end a delay, are not among the calls. *)
Theorem sleeps_exactly asserts fuel idle n s cur : kernel_ok idle s → pendsv s = false → pxCurrentTCB s ≠ idle →
  0 < n < 2 ^ 32 → (0 < fuel)%nat → let t := pxCurrentTCB s in
  tcbs s !! t = Some cur → ucNotifyState cur ≠ taskWAITING_NOTIFICATION →
  ∃ s1, vTaskDelay asserts id fuel n s = Done (tt, s1) ∧ pendsv s1 = true ∧ xTickCount s1 = xTickCount s ∧
    ∀ k s2, k < n → ticks_pass asserts fuel idle t k s1 s2 →
      (∃ c, tcbs s2 !! t = Some c ∧ ¬ is_ready c ∧ remaining s2 c = Some (n - k)) ∧
      (k = n - 1 → (size (tcbs s2) < fuel)%nat →
         ∃ s3 c, xPortSysTickHandler asserts fuel s2 = Done (tt, s3) ∧ tcbs s3 !! t = Some c ∧ is_ready c ∧
           xTickCount s3 = u32 (xTickCount s + n)).
Proof.
  intros K Hp Hidle Hn Hf t Ecur Hw. destruct (kernel_running _ _ K Hp) as (c&Hrun).
  assert (cur = c) as -> by (pose proof (run_current _ _ Hrun); unfold t in Ecur; congruence).
  destruct (wp_inv _ _ _ (delay_spec asserts fuel s c n Hrun Hn Hf)) as ([]&s1&E1&c'&Hs). exists s1.
  pose proof (proj1 (sleep_clock _ _ _ _ _ Hs)) as Hnow. rewrite <- Hnow.
  split_and!; [done|apply Hs|done|].
  apply (put_to_sleep_for asserts fuel idle s s1 c c' n K Ecur (run_ready _ _ Hrun) Hidle Hw Hs).
Qed.

(** [xTaskDelayUntil] wakes its caller at the tick count
    [previous + increment] and returns it as the new previous wake time, so that a
    periodic task does not drift; it does not delay when that time has passed.
    Both hold across the overflow of the tick count, and whatever else is called
    meanwhile, as for [vTaskDelay]. *)
Theorem periodic_wake_up asserts fuel idle previous increment s cur : kernel_ok idle s → pendsv s = false →
  pxCurrentTCB s ≠ idle → is_u32 previous → 0 < increment < 2 ^ 32 → (0 < fuel)%nat →
  let t := pxCurrentTCB s in let elapsed := u32 (xTickCount s - previous) in
  tcbs s !! t = Some cur → ucNotifyState cur ≠ taskWAITING_NOTIFICATION →
  ∃ s1, xTaskDelayUntil asserts id fuel previous increment s =
      Done ((u32 (previous + increment), elapsed <? increment), s1) ∧ kernel_ok idle s1 ∧
    (increment <= elapsed → tcbs s1 = tcbs s) ∧
    (elapsed < increment → sleeps_for asserts fuel idle t (increment - elapsed) s1 ∧
       u32 (xTickCount s1 + (increment - elapsed)) = u32 (previous + increment)).
Proof.
  intros K Hp Hidle Hprev Hinc Hf t elapsed Ecur Hw. destruct (kernel_running _ _ K Hp) as (c&Hrun).
  assert (cur = c) as -> by (pose proof (run_current _ _ Hrun); unfold t in Ecur; congruence).
  destruct (wp_inv _ _ _ (delay_until_spec asserts fuel previous increment s c Hrun Hprev Hinc Hf)) as (r&s1&E1&->&Hs).
  fold elapsed in E1, Hs. exists s1. split; [done|]. destruct (Z.ltb_spec elapsed increment) as [Hlt|Hge].
  - destruct Hs as (c'&Hs).
    destruct (put_to_sleep_for asserts fuel idle s s1 c c' _ K Ecur (run_ready _ _ Hrun) Hidle Hw Hs) as [K1 H1].
    split_and!; [done|lia|]. intros _. split; [done|]. rewrite (proj1 (sleep_clock _ _ _ _ _ Hs)).
    unfold elapsed, u32. rewrite <- Zplus_mod_idemp_r, Zminus_mod_idemp_r, Zplus_mod_idemp_r. f_equal. lia.
  - subst s1. split; [by apply kernel_yield|]. split; [done|lia].
Qed.

(** A time-out is over exactly when the ticks to wait have passed
    since it was taken, up to [2^32] ticks, and until then the ticks that are left
    are returned with a time-out taken now; [portMAX_DELAY] is never over, and an
    aborted delay always is. *)
Theorem timeout_exact s c T N E w : tcbs s !! pxCurrentTCB s = Some c → taken_at T N → time_is s (N + E) →
  0 <= E <= 2 ^ 32 → is_u32 w →
  xTaskCheckForTimeOut T w s =
    if ucDelayAborted c then Done ((true, T, w), updated (pxCurrentTCB s) (with_delay_aborted false c) s)
    else if w =? portMAX_DELAY then Done ((false, T, w), s)
    else if w <=? E then Done ((true, T, 0), s)
    else Done ((false, TimeOut (u32 ((N + E) / 2 ^ 32)) (u32 (N + E)), w - E), s).
Proof.
  intros Ec (HN&HT1&HT2) (_&Hs1&Hs2) HE Hw. unfold is_u32 in Hw. destruct (elapsed_test N E HN HE) as [Ht He].
  assert (current_tcb s = Done (c, s)) as Hcur by (apply wp_done; by eapply wp_current_tcb).
  unfold xTaskCheckForTimeOut. rewrite gets_id. cbv zeta. rewrite (bind_done _ _ _ _ _ Hcur), HT1, HT2, Hs1, Hs2, Ht.
  destruct (ucDelayAborted c).
  { rewrite (bind_done _ _ s tt (updated (pxCurrentTCB s) (with_delay_aborted false c) s)); [done|].
    apply wp_done_unit. by eapply wp_upd_tcb. }
  destruct (Z.eqb_spec w portMAX_DELAY) as [|Hm]; [done|].
  destruct (Z.leb_spec (2 ^ 32) E) as [Hge|Hlt]; [by rewrite (proj2 (Z.leb_le _ _)) by lia|].
  rewrite He by done. destruct (Z.ltb_spec E w), (Z.leb_spec w E); try lia; [|done].
  assert (vTaskInternalSetTimeOutState s = Done (TimeOut (u32 ((N + E) / 2 ^ 32)) (u32 (N + E)), s)) as Hi.
  { unfold vTaskInternalSetTimeOutState. by rewrite gets_id, Hs1, Hs2. }
  rewrite (bind_done _ _ _ _ _ Hi), (u32_small (w - E)) by (unfold is_u32; lia). done.
Qed.

(** The ready tasks of the highest priority take turns: as many
    switches as there are choose each of them once, in the order of their list. *)
Theorem equals_take_turns idle p s : kernel_ok idle s → highest_ready s p →
  let z := lists s (pxReadyTasksLists p) in
  ∃ s', turns (length (z_items z)) s = Done (ahead z ++ passed z, s') ∧ ahead z ++ passed z ≡ₚ z_items z ∧ tcbs s' = tcbs s.
Proof.
  intros K Hp z. assert (length (z_items z) = length (ahead z ++ passed z)) as ->.
  { unfold z_items. rewrite !length_app. lia. }
  destruct (wp_inv _ _ _ (wp_turns idle p (ahead z ++ passed z) [] s K Hp ltac:(by rewrite app_nil_r))) as (ts&s'&E&->&_&Et).
  exists s'. split; [done|]. split; [|done]. apply Permutation_app_comm.
Qed.

(** ** Examples *)

Lemma tick_counts_down_witness : timers KernelDemo.ticked2 = {[16 := 1]} ∧
  ∃ s', xTaskIncrementTick true 10 KernelDemo.ticked2 = Done (true, s') ∧ xTickCount s' = 3 ∧ timers s' = ∅ ∧
    (is_ready <$> tcbs s' !! 16) ≠ None.
Proof.
  split; [by vm_compute|]. pose proof KernelDemo.ticked2_ok as K.
  destruct (tcbs KernelDemo.ticked2 !! pxCurrentTCB KernelDemo.ticked2) as [cur|] eqn:Ec; [|by vm_compute in Ec].
  destruct (tick_counts_down true 10 KernelDemo.ticked2 cur) as (r&s'&E&_&Hn&Ht&Hx&Hr);
    [apply K|by vm_compute|done| |].
  { intros l _. pose proof (length_tasks KernelDemo.ticked2 l ltac:(apply K)) as Hl.
    assert (size (tcbs KernelDemo.ticked2) = 3%nat) as Hs by by vm_compute. lia. }
  exists s'. rewrite Hn, Ht, Hx. split_and!; [|by vm_compute..].
  rewrite E. do 2 f_equal. apply Hr. left. exists 16.
  destruct (tcbs KernelDemo.ticked2 !! 16) as [c|] eqn:E16; [|by vm_compute in E16]. exists c.
  split_and!; [done|by vm_compute|]. vm_compute in E16, Ec. injection E16 as <-. by injection Ec as <-.
Defined.

(** Between the first two ticks after [Delay 3] of the demonstration a switch, a
    mutex taken, and a notification of the sleeper. *)
Definition second_tick : scheduler :=
  KernelDemo.run (exec true 10 Tick;; exec true 10 Hold;; exec true 10 (Notify 16 1 eIncrement);; exec true 10 Tick) KernelDemo.switched.

Lemma two_ticks_pass : ticks_pass true 10 8 16 2 KernelDemo.asleep3 second_tick.
Proof.
  assert (ticks_pass true 10 8 16 0 KernelDemo.asleep3 KernelDemo.switched) as H0.
  { eapply (pass_call _ _ _ _ _ Switch); [constructor|split; [vm_compute; lia|done]|done|done|by vm_compute]. }
  change 2 with (0 + 1 + 1).
  eapply (pass_tick true 10 8 16 _ _ (KernelDemo.run (exec true 10 Tick;; exec true 10 Hold;; exec true 10 (Notify 16 1 eIncrement)) KernelDemo.switched));
    [|vm_compute; lia|by vm_compute].
  eapply (pass_call true 10 8 16 _ (Notify 16 1 eIncrement) _ (KernelDemo.run (exec true 10 Tick;; exec true 10 Hold) KernelDemo.switched));
    [|split; [vm_compute; lia|split; [by vm_compute; eexists|by vm_compute]]|done|done|by vm_compute].
  eapply (pass_call true 10 8 16 _ Hold _ (KernelDemo.run (exec true 10 Tick) KernelDemo.switched));
    [|split; [vm_compute; lia|split; [done|by vm_compute]]|done|done|by vm_compute].
  by eapply (pass_tick true 10 8 16 _ _ KernelDemo.switched); [|vm_compute; lia|vm_compute].
Defined.

Lemma sleeps_exactly_witness : ∃ s3 c, xPortSysTickHandler true 10 second_tick = Done (tt, s3) ∧
  tcbs s3 !! 16 = Some c ∧ is_ready c ∧ xTickCount s3 = 3.
Proof.
  destruct (tcbs KernelDemo.started !! pxCurrentTCB KernelDemo.started) as [cur|] eqn:Ec; [|by vm_compute in Ec].
  destruct (sleeps_exactly true 10 8 3 KernelDemo.started cur) as (s1&E&_&_&H);
    [by apply (reachable_ok _ _ _ _ KernelDemo.started_reachable)|by vm_compute|by vm_compute|done|lia|exact Ec|..].
  { vm_compute in Ec. by injection Ec as <-. }
  assert (s1 = KernelDemo.asleep3) as ->.
  { assert (KernelDemo.run (vTaskDelay true id 10 3) KernelDemo.started = KernelDemo.asleep3) as <-
      by by vm_compute.
    unfold KernelDemo.run. by rewrite E. }
  apply (H 2 second_tick eq_refl two_ticks_pass); [done|vm_compute; lia].
Defined.

Lemma periodic_wake_up_witness : ∃ s1, xTaskDelayUntil true id 10 (2 ^ 32 - 2) 5 KernelDemo.started = Done ((3, true), s1) ∧
  sleeps_for true 10 8 16 3 s1.
Proof.
  destruct (tcbs KernelDemo.started !! pxCurrentTCB KernelDemo.started) as [cur|] eqn:Ec; [|by vm_compute in Ec].
  destruct (periodic_wake_up true 10 8 (2 ^ 32 - 2) 5 KernelDemo.started cur) as (s1&E&_&_&H);
    [by apply (reachable_ok _ _ _ _ KernelDemo.started_reachable)|by vm_compute|by vm_compute|by split|done|lia|exact Ec|..].
  { vm_compute in Ec. by injection Ec as <-. }
  exists s1. split; [exact E|]. exact (proj1 (H eq_refl)).
Defined.

Lemma timeout_exact_witness : let s := set_tick 3 (set_overflows 1 KernelDemo.started) in
  xTaskCheckForTimeOut (TimeOut 0 (2 ^ 32 - 2)) 10 s = Done ((false, TimeOut 1 3, 5), s).
Proof.
  intros s. destruct (tcbs s !! pxCurrentTCB s) as [c|] eqn:Ec; [|by vm_compute in Ec].
  rewrite (timeout_exact s c (TimeOut 0 (2 ^ 32 - 2)) (2 ^ 32 - 2) 5 10 Ec); [|by split|by split|lia|by split].
  vm_compute in Ec. by injection Ec as <-.
Defined.

(** Two tasks of the highest priority. *)
Definition equals : scheduler := KernelDemo.run (exec true 10 (Create 200 9)) KernelDemo.started.
Lemma equals_ok : kernel_ok 8 equals.
Proof.
  apply (KernelDemo.call_ok (Create 200 9) KernelDemo.started);
    [by apply (reachable_ok _ _ _ _ KernelDemo.started_reachable)|by vm_compute..].
Defined.

Lemma equals_take_turns_witness : ∃ s', turns 2 equals = Done ([16; 200], s').
Proof.
  destruct (equals_take_turns 8 9 equals equals_ok) as (s'&E&_).
  - split; [by vm_compute|]. intros t c Ec _. pose proof (priority_range _ (ok_prioritised _ _ (k_ok _ _ equals_ok)) _ _ Ec).
    unfold configMAX_PRIORITIES in *. lia.
  - exists s'. exact E.
Defined.
