(* ===== verification/RtosEvents.v ===== *)
(** * Event groups

    [FreeRTOS/Source/event_groups.c] on the scheduler of [RtosTasks]: groups of
    24 flags that tasks set, clear and wait for. A task that waits is in the
    event list of the group; the value of its event list item is the bits it
    waits for, with the control bits that say how.

    The heap is a parameter: [pvPortMalloc] says where a new group comes to be.
    As in [RtosTasks], [interrupts] is what interrupts do while the scheduler is
    suspended, and [others] what the other tasks do while the caller is switched
    out. *)

From Stdlib Require Import ZArith Lia.
From stdpp Require Import functions gmap list.
From S2P Require Import Prelude RtosList RtosTasks RtosSched RtosKernel.
Local Open Scope Z_scope.

(** ** Data *)

Definition eventCLEAR_EVENTS_ON_EXIT_BIT : Z := 0x01000000.
Definition eventUNBLOCKED_DUE_TO_BIT_SET : Z := 0x02000000.
Definition eventWAIT_FOR_ALL_BITS : Z := 0x04000000.
Definition eventEVENT_BITS_CONTROL_BYTES : Z := 0xff000000.

(** The number is indeterminate until it is set. The list of the group is in
    the scheduler's state, under its address. *)
Record EventGroup_t := EventGroup { uxEventBits : Z; uxEventGroupNumber : option Z }.
Definition sizeof_EventGroup_t : Z := 28.
Definition xTasksWaitingForBits (xEventGroup : Z) : Z := xEventGroup + 4.

Record world := World { groups : gmap Z EventGroup_t; kernel : scheduler }.

(** [x &= ~y] *)
Definition without (x y : Z) : Z := Z.land x (Z.lnot y).

(** ** Operations *)

Section operations.
Context (asserts : bool) (others interrupts : world → world) (fuel : nat).

Definition call {A} (m : ST scheduler A) : ST world A := λ w,
  match m (kernel w) with Done (a, s) => Done (a, World (groups w) s) | Fault => Fault | Diverge => Diverge end.
Definition configASSERT (b : bool) : ST world unit := if asserts && negb b then lift Fault else mret tt.

(** Reading and writing the bits through the handle. *)
Definition deref (xEventGroup : Z) : ST world EventGroup_t :=
  m ← gets groups; match m !! xEventGroup with Some g => mret g | None => lift Fault end.
Definition get_bits (xEventGroup : Z) : ST world Z := g ← deref xEventGroup; mret (uxEventBits g).
Definition set_bits (xEventGroup uxBits : Z) : ST world unit :=
  g ← deref xEventGroup;
  modify (λ w, World (<[xEventGroup := EventGroup uxBits (uxEventGroupNumber g)]> (groups w)) (kernel w)).

(** The end marker is [None]. *)
Definition listGET_HEAD_ENTRY (l : list_id) : ST scheduler (option Z) :=
  s ← gets id; mret (head (z_items (lists s l))).
Fixpoint after (t : Z) (ts : list Z) : option Z :=
  match ts with [] => None | u :: us => if u =? t then head us else after t us end.
Definition listGET_NEXT (t : Z) : ST scheduler (option Z) :=
  c ← get_tcb t;
  s ← gets id;
  match item_container (xEventListItem c) with
  | Some l => mret (after t (z_items (lists s l)))
  | None => lift Fault
  end.
Definition listGET_LIST_ITEM_VALUE (t : Z) : ST scheduler Z :=
  c ← get_tcb t; mret (item_value (xEventListItem c)).

(** A requested switch happens at once, unless the scheduler is suspended. *)
Definition resume_all : ST world bool :=
  xAlreadyYielded ← call (xTaskResumeAll asserts fuel);
  (if xAlreadyYielded : bool then modify others else mret tt);;
  mret xAlreadyYielded.
Definition yield_unless (xAlreadyYielded : bool) : ST world unit :=
  if xAlreadyYielded then mret tt else call taskYIELD_WITHIN_API;; modify others.

Definition xEventGroupCreate (pvPortMalloc : Z → world → Z) : ST world Z :=
  pxEventBits ← gets (pvPortMalloc sizeof_EventGroup_t);
  (if negb (pxEventBits =? 0) then
     modify (λ w, World (<[pxEventBits := EventGroup 0 None]> (groups w))
       (set_lists (<[EventList (xTasksWaitingForBits pxEventBits) := z_empty]> (lists (kernel w))) (kernel w)))
   else mret tt);;
  mret pxEventBits.

Definition prvTestWaitCondition (uxCurrentEventBits uxBitsToWaitFor : Z) (xWaitForAllBits : bool) : bool :=
  if negb xWaitForAllBits then negb (Z.land uxCurrentEventBits uxBitsToWaitFor =? 0)
  else Z.land uxCurrentEventBits uxBitsToWaitFor =? uxBitsToWaitFor.

(** The walk of [xEventGroupSetBits] along the list; the result is the bits to clear. *)
Fixpoint unblock_matching (steps : nat) (xEventGroup : Z) (pxListItem : option Z) (uxBitsToClear : Z) : ST world Z :=
  match steps with
  | O => diverge
  | S steps =>
      match pxListItem with
      | None => mret uxBitsToClear
      | Some t =>
          pxNext ← call (listGET_NEXT t);
          value ← call (listGET_LIST_ITEM_VALUE t);
          let uxControlBits := Z.land value eventEVENT_BITS_CONTROL_BYTES in
          let uxBitsWaitedFor := without value eventEVENT_BITS_CONTROL_BYTES in
          bits ← get_bits xEventGroup;
          let xMatchFound :=
            if Z.land uxControlBits eventWAIT_FOR_ALL_BITS =? 0 then negb (Z.land uxBitsWaitedFor bits =? 0)
            else Z.land uxBitsWaitedFor bits =? uxBitsWaitedFor in
          uxBitsToClear ← (
            if xMatchFound then
              bits ← get_bits xEventGroup;
              call (vTaskRemoveFromUnorderedEventList asserts t (Z.lor bits eventUNBLOCKED_DUE_TO_BIT_SET));;
              mret (if negb (Z.land uxControlBits eventCLEAR_EVENTS_ON_EXIT_BIT =? 0)
                    then Z.lor uxBitsToClear uxBitsWaitedFor else uxBitsToClear)
            else mret uxBitsToClear);
          modify interrupts;;
          unblock_matching steps xEventGroup pxNext uxBitsToClear
      end
  end.

Definition xEventGroupSetBits (xEventGroup uxBitsToSet : Z) : ST world Z :=
  configASSERT (negb (xEventGroup =? 0));;
  configASSERT (Z.land uxBitsToSet eventEVENT_BITS_CONTROL_BYTES =? 0);;
  call vTaskSuspendAll;;
  modify interrupts;;
  pxListItem ← call (listGET_HEAD_ENTRY (EventList (xTasksWaitingForBits xEventGroup)));
  bits ← get_bits xEventGroup;
  set_bits xEventGroup (Z.lor bits uxBitsToSet);;
  uxBitsToClear ← unblock_matching fuel xEventGroup pxListItem 0;
  bits ← get_bits xEventGroup;
  set_bits xEventGroup (without bits uxBitsToClear);;
  modify interrupts;;
  resume_all;;
  get_bits xEventGroup.

(** The scheduler may not be suspended when the caller is to wait. *)
Definition may_wait (xTicksToWait : Z) : ST world unit :=
  state ← call xTaskGetSchedulerState;
  configASSERT (negb ((state =? taskSCHEDULER_SUSPENDED) && negb (xTicksToWait =? 0))).

(** The end of both waits: the bits that woke the task, or, after [timed_out],
    those of the group. *)
Definition woken_bits (timed_out : ST world Z) : ST world Z :=
  uxReturn ← call uxTaskResetEventItemValue;
  uxReturn ← (if Z.land uxReturn eventUNBLOCKED_DUE_TO_BIT_SET =? 0 then timed_out else mret uxReturn);
  mret (without uxReturn eventEVENT_BITS_CONTROL_BYTES).

(** A time-out: the bits may have been set between the end of the wait and now. *)
Definition bits_at_timeout (xEventGroup uxBitsToWaitFor : Z) (met : Z → bool) (xClearOnExit : bool) : ST world Z :=
  uxReturn ← get_bits xEventGroup;
  (if met uxReturn && xClearOnExit then set_bits xEventGroup (without uxReturn uxBitsToWaitFor) else mret tt);;
  mret uxReturn.

(** In both, [Some] is what is returned without waiting. *)
Definition xEventGroupWaitBits (xEventGroup uxBitsToWaitFor : Z) (xClearOnExit xWaitForAllBits : bool)
    (xTicksToWait : Z) : ST world Z :=
  configASSERT (negb (xEventGroup =? 0));;
  configASSERT (Z.land uxBitsToWaitFor eventEVENT_BITS_CONTROL_BYTES =? 0);;
  configASSERT (negb (uxBitsToWaitFor =? 0));;
  may_wait xTicksToWait;;
  call vTaskSuspendAll;;
  modify interrupts;;
  uxCurrentEventBits ← get_bits xEventGroup;
  now ← (
    if prvTestWaitCondition uxCurrentEventBits uxBitsToWaitFor xWaitForAllBits then
      (if xClearOnExit then set_bits xEventGroup (without uxCurrentEventBits uxBitsToWaitFor) else mret tt);;
      mret (Some uxCurrentEventBits)
    else if xTicksToWait =? 0 then mret (Some uxCurrentEventBits)
    else
      let uxControlBits := Z.lor (if xClearOnExit then eventCLEAR_EVENTS_ON_EXIT_BIT else 0)
                                 (if xWaitForAllBits then eventWAIT_FOR_ALL_BITS else 0) in
      call (vTaskPlaceOnUnorderedEventList asserts (xTasksWaitingForBits xEventGroup)
              (Z.lor uxBitsToWaitFor uxControlBits) xTicksToWait);;
      mret None);
  modify interrupts;;
  xAlreadyYielded ← resume_all;
  match now with
  | Some uxReturn => mret uxReturn
  | None =>
      yield_unless xAlreadyYielded;;
      woken_bits (bits_at_timeout xEventGroup uxBitsToWaitFor
        (λ bits, prvTestWaitCondition bits uxBitsToWaitFor xWaitForAllBits) xClearOnExit)
  end.

Definition xEventGroupSync (xEventGroup uxBitsToSet uxBitsToWaitFor xTicksToWait : Z) : ST world Z :=
  configASSERT (Z.land uxBitsToWaitFor eventEVENT_BITS_CONTROL_BYTES =? 0);;
  configASSERT (negb (uxBitsToWaitFor =? 0));;
  may_wait xTicksToWait;;
  call vTaskSuspendAll;;
  modify interrupts;;
  uxOriginalBitValue ← get_bits xEventGroup;
  xEventGroupSetBits xEventGroup uxBitsToSet;;
  now ← (
    if Z.land (Z.lor uxOriginalBitValue uxBitsToSet) uxBitsToWaitFor =? uxBitsToWaitFor then
      bits ← get_bits xEventGroup;
      set_bits xEventGroup (without bits uxBitsToWaitFor);;
      mret (Some (Z.lor uxOriginalBitValue uxBitsToSet))
    else if negb (xTicksToWait =? 0) then
      call (vTaskPlaceOnUnorderedEventList asserts (xTasksWaitingForBits xEventGroup)
              (Z.lor (Z.lor uxBitsToWaitFor eventCLEAR_EVENTS_ON_EXIT_BIT) eventWAIT_FOR_ALL_BITS) xTicksToWait);;
      mret None
    else
      bits ← get_bits xEventGroup;
      mret (Some bits));
  modify interrupts;;
  xAlreadyYielded ← resume_all;
  match now with
  | Some uxReturn => mret uxReturn
  | None =>
      yield_unless xAlreadyYielded;;
      woken_bits (bits_at_timeout xEventGroup uxBitsToWaitFor
        (λ bits, Z.land bits uxBitsToWaitFor =? uxBitsToWaitFor) true)
  end.

Definition xEventGroupClearBits (xEventGroup uxBitsToClear : Z) : ST world Z :=
  configASSERT (negb (xEventGroup =? 0));;
  configASSERT (Z.land uxBitsToClear eventEVENT_BITS_CONTROL_BYTES =? 0);;
  uxReturn ← get_bits xEventGroup;
  set_bits xEventGroup (without uxReturn uxBitsToClear);;
  mret uxReturn.

Definition xEventGroupGetBitsFromISR (xEventGroup : Z) : ST world Z := get_bits xEventGroup.

(** The loop of [vEventGroupDelete]. *)
Fixpoint unblock_all (steps : nat) (pxTasksWaitingForBits : Z) : ST world unit :=
  match steps with
  | O => diverge
  | S steps =>
      pxNext ← call (listGET_HEAD_ENTRY (EventList pxTasksWaitingForBits));
      match pxNext with
      | None => mret tt
      | Some t =>
          call (vTaskRemoveFromUnorderedEventList asserts t eventUNBLOCKED_DUE_TO_BIT_SET);;
          modify interrupts;;
          unblock_all steps pxTasksWaitingForBits
      end
  end.

(** [vPortFree]: the group is no more. *)
Definition vEventGroupDelete (xEventGroup : Z) : ST world unit :=
  configASSERT (negb (xEventGroup =? 0));;
  call vTaskSuspendAll;;
  modify interrupts;;
  deref xEventGroup;;
  unblock_all fuel (xTasksWaitingForBits xEventGroup);;
  resume_all;;
  modify (λ w, World (delete xEventGroup (groups w)) (kernel w)).

Definition uxEventGroupGetNumber (xEventGroup : Z) : ST world Z :=
  if xEventGroup =? 0 then mret 0
  else g ← deref xEventGroup; match uxEventGroupNumber g with Some n => mret n | None => lift Fault end.
Definition vEventGroupSetNumber (xEventGroup n : Z) : ST world unit :=
  g ← deref xEventGroup;
  modify (λ w, World (<[xEventGroup := EventGroup (uxEventBits g) (Some n)]> (groups w)) (kernel w)).

(** From an interrupt the operation is left to the timer task, with
    [xTimerPendFunctionCallFromISR], whose request is a value. *)
Definition vEventGroupSetBitsCallback (pvEventGroup ulBitsToSet : Z) : ST world unit :=
  xEventGroupSetBits pvEventGroup ulBitsToSet;; mret tt.
Definition vEventGroupClearBitsCallback (pvEventGroup ulBitsToClear : Z) : ST world unit :=
  xEventGroupClearBits pvEventGroup ulBitsToClear;; mret tt.

Section from_isr.
Context (xTimerPendFunctionCallFromISR : (Z → Z → ST world unit) → Z → Z → option bool → ST world (bool * option bool)).

Definition xEventGroupSetBitsFromISR (xEventGroup uxBitsToSet : Z) (pxHigherPriorityTaskWoken : option bool) :
    ST world (bool * option bool) :=
  xTimerPendFunctionCallFromISR vEventGroupSetBitsCallback xEventGroup uxBitsToSet pxHigherPriorityTaskWoken.
Definition xEventGroupClearBitsFromISR (xEventGroup uxBitsToClear : Z) : ST world bool :=
  r ← xTimerPendFunctionCallFromISR vEventGroupClearBitsCallback xEventGroup uxBitsToClear None;
  mret r.1.
End from_isr.
End operations.

(** ** Waking a task out of order *)

Abbreviation waiting h := (EventList (xTasksWaitingForBits h)).

(** The task at [t] after it has been woken with [value] in its event item. *)
Definition released (value : Z) (c : TCB_t) : TCB_t :=
  in_ready (with_container EventItem None (with_value EventItem (Z.lor value taskEVENT_LIST_ITEM_VALUE_IN_USE) c)).

(** [s'] is [s] with the tasks [ts] released; [s] and [s'] have the scheduler
    suspended. *)
Record releases (idle value : Z) (ts : list Z) (s s' : scheduler) : Prop := {
  rel_kernel : kernel_ok idle (set_suspended 0 s');
  rel_suspended : uxSchedulerSuspended s' = uxSchedulerSuspended s;
  rel_current : pxCurrentTCB s' = pxCurrentTCB s;
  rel_pendsv : pendsv s' = pendsv s;
  rel_tcbs u : tcbs s' !! u = (if decide (u ∈ ts) then released value else id) <$> tcbs s !! u;
  rel_lists a : z_items (lists s' (EventList a)) = filter (λ u, u ∉ ts) (z_items (lists s (EventList a)));
  rel_yield : xYieldPending s' = true ↔ xYieldPending s = true ∨
    ∃ t c cur, t ∈ ts ∧ tcbs s !! t = Some c ∧ tcbs s !! pxCurrentTCB s = Some cur ∧ uxPriority cur < uxPriority c;
}.

Lemma ok_set_suspended n due s : ok_from due s → ok_from due (set_suspended n s).
Proof. intros [HP HR HT]. split; [by destruct HP|by destruct HR|by destruct HT]. Qed.

Lemma ok_unsuspended idle s : kernel_ok idle (set_suspended 0 s) → ok s.
Proof. intros [[HP HR HT] _ _ _ _ _ _ _ _ _ _]. split; [by destruct HP|by destruct HR|by destruct HT]. Qed.

Definition unlisted (t : Z) (l : list_id) (a value : Z) (c : TCB_t) (s : scheduler) : scheduler :=
  let c1 := with_value EventItem (Z.lor value taskEVENT_LIST_ITEM_VALUE_IN_USE) c in
  let c2 := with_container EventItem None c1 in
  readied t (with_container StateItem None c2)
    (removed StateItem l t c2 (removed EventItem (EventList a) t c1 (updated t c1 s))).

Lemma unlisted_changes t l a value c s : ok s → tcbs s !! t = Some c → state_of c = Some l →
  container EventItem c = Some (EventList a) →
  changes t (released value c) s (unlisted t l a value c s) ∧
  ∀ b, z_items (lists (unlisted t l a value c s) (EventList b)) = filter (λ u, u ≠ t) (z_items (lists s (EventList b))).
Proof.
  intros Hok E El Ea. pose proof (ok_placed _ _ Hok) as HP. destruct (priority_range _ (ok_prioritised _ _ Hok) _ _ E) as [_ Hb].
  split; [split|].
  - unfold unlisted. apply ok_readied; [|apply lookup_insert_eq|done].
    apply ok_removed; [|apply lookup_insert_eq|done]. apply ok_removed; [|apply lookup_insert_eq|done].
    by apply (ok_updated _ t c); [done|done|intros []|done..].
  - done.
  - unfold unlisted, readied, appended, removed, updated. simpl. by rewrite !insert_insert_eq.
  - intros b. unfold unlisted, readied, appended, removed. simpl. rewrite fn_lookup_insert_ne by done.
    assert (kind_of l = StateItem) as Hk by by eapply (placed_kind _ HP t c StateItem).
    rewrite fn_lookup_insert_ne by (intros ->; done). destruct (decide (b = a)) as [->|Hne].
    + by rewrite fn_lookup_insert, z_items_remove.
    + rewrite fn_lookup_insert_ne by congruence. rewrite filter_absent; [done|].
      intros (d&Ed&Hd)%(placed_member _ HP). cbn [kind_of] in Hd. simplify_eq.
Qed.

Lemma release_one idle asserts t a value s : kernel_ok idle (set_suspended 0 s) → uxSchedulerSuspended s ≠ 0 →
  t ∈ z_items (lists s (EventList a)) →
  wp False (vTaskRemoveFromUnorderedEventList asserts t value) (λ _ s', releases idle value [t] s s') s.
Proof.
  intros K Hs (c&E&Ea)%(placed_member _ (ok_placed _ _ (ok_unsuspended _ _ K))). simpl in Ea.
  pose proof (ok_unsuspended _ _ K) as Hok.
  destruct (state_of c) as [l|] eqn:El; [|by destruct (k_listed _ _ K _ _ E)].
  destruct (unlisted_changes t l a value c s Hok E El Ea) as [Hch Hls]. destruct (k_current _ _ K) as (cur&Ec&_). simpl in Ec.
  apply wp_bind, wp_gets. apply wp_bind, wp_assert; [by apply negb_true_iff, Z.eqb_neq|].
  apply wp_bind. eapply wp_upd_tcb; [exact E|].
  apply wp_bind. eapply wp_remove; [apply lookup_insert_eq|exact Ea|]. intros _.
  apply wp_bind. eapply wp_remove; [apply lookup_insert_eq|exact El|]. intros _.
  apply wp_bind. eapply wp_add_ready; [apply lookup_insert_eq|exact (proj1 (priority_range _ (ok_prioritised _ _ Hok) _ _ E))|].
  fold (unlisted t l a value c s). set (s4 := unlisted t l a value c s) in *. set (c' := released value c) in *.
  set (cur' := if decide (pxCurrentTCB s = t) then c' else cur).
  assert (uxPriority cur' = uxPriority cur) as Hp by (unfold cur'; case_decide as H; [subst t; by simplify_eq|done]).
  assert (tcbs s4 !! pxCurrentTCB s4 = Some cur') as Ec'.
  { rewrite (ch_tcbs _ _ _ _ Hch). change (pxCurrentTCB s4) with (pxCurrentTCB s). unfold cur'.
    case_decide as Ht; [by rewrite Ht, lookup_insert_eq|by rewrite lookup_insert_ne]. }
  assert (∀ y s', (y = true ↔ uxPriority cur < uxPriority c) →
    s' = (if y : bool then set_yield_pending true s4 else s4) → releases idle value [t] s s') as Hend.
  { intros y s' Hy ->. split.
    - apply (kernel_changed idle t c c' (set_suspended 0 s)); try done.
      + destruct y; apply ok_set_suspended; [|apply Hch]. destruct (ch_ok _ _ _ _ Hch) as [HP HR HT].
        split; [by destruct HP|by destruct HR|by destruct HT].
      + by destruct y.
      + change (tcbs (set_suspended 0 ?x)) with (tcbs x). rewrite <- (ch_tcbs _ _ _ _ Hch). by destruct y.
      + right. split_and!; [by destruct y|done|]. destruct y; [by left|].
        destruct (xYieldPending s) eqn:Hyp; [by left|right]. split; [done|]. intros _ d Ed. simpl in Ed.
        assert (d = cur) as -> by congruence. change (uxPriority c') with (uxPriority c).
        assert (uxPriority c <= uxPriority cur) by (apply Z.nlt_ge; intros ?%Hy; done).
        case_decide as Ht; [|done]. simpl in Ht. split; [done|]. assert (c = cur) as -> by congruence. done.
    - by destruct y.
    - by destruct y.
    - by destruct y.
    - intros u. replace (tcbs (if y then set_yield_pending true s4 else s4)) with (tcbs s4) by by destruct y.
      rewrite (ch_tcbs _ _ _ _ Hch). destruct (decide (u = t)) as [->|?].
      + rewrite decide_True by set_solver. by rewrite lookup_insert_eq, E.
      + rewrite decide_False by set_solver. rewrite lookup_insert_ne by done. by rewrite option_fmap_id.
    - intros b. replace (lists (if y then set_yield_pending true s4 else s4)) with (lists s4) by by destruct y.
      rewrite Hls. apply list_filter_iff. set_solver.
    - destruct y; simpl.
      + split; [intros _; right|done]. exists t, c, cur. split_and!; [set_solver|done|done|by apply Hy].
      + split; [by left|]. intros [?|(u&d&e&Hu&Ed&Ee&Hlt)]; [done|]. apply list_elem_of_singleton in Hu as ->.
        simplify_eq. by apply Hy in Hlt. }
  apply wp_bind. eapply wp_higher; [by eapply changes_lookup|exact Ec'|]. rewrite Hp. change (uxPriority c') with (uxPriority c).
  destruct (Z.ltb_spec (uxPriority cur) (uxPriority c)) as [Hlt|Hge].
  - apply wp_modify. by apply (Hend true).
  - apply wp_ret. apply (Hend false); [|done]. split; [done|lia].
Qed.

Lemma filter_all {A} (P : A → Prop) `{!∀ x, Decision (P x)} (xs : list A) : (∀ x, x ∈ xs → P x) → filter P xs = xs.
Proof.
  induction xs as [|x xs IH]; intros Hx; [done|]. rewrite filter_cons_True by (apply Hx; left).
  f_equal. apply IH. intros y Hy. apply Hx. by right.
Qed.

Lemma releases_refl idle value s : kernel_ok idle (set_suspended 0 s) → releases idle value [] s s.
Proof.
  intros K. split; try done.
  - intros u. rewrite decide_False by set_solver. by rewrite option_fmap_id.
  - intros a. rewrite filter_all; [done|]. set_solver.
  - split; [by left|]. intros [?|(t&c&cur&Ht&_)]; [done|set_solver].
Qed.

Lemma releases_lookup idle value ts s s' u c : releases idle value ts s s' → tcbs s !! u = Some c →
  ∃ c', tcbs s' !! u = Some c' ∧ uxPriority c' = uxPriority c ∧ (u ∉ ts → c' = c).
Proof.
  intros H E. rewrite (rel_tcbs _ _ _ _ _ H), E. case_decide as Hu; [|by exists c].
  exists (released value c). split_and!; [done..|]. by intros [].
Qed.

Lemma releases_trans idle value ts us s s1 s2 : releases idle value ts s s1 → releases idle value us s1 s2 →
  (∀ u, u ∈ ts → u ∉ us) → releases idle value (ts ++ us) s s2.
Proof.
  intros H1 H2 Hd. pose proof (λ u c, releases_lookup _ _ _ _ _ u c H1) as HL.
  destruct H1 as [A1 A2 A3 A4 A5 A6 A7], H2 as [B1 B2 B3 B4 B5 B6 B7]. split; try congruence.
  - intros u. rewrite B5, A5. destruct (decide (u ∈ ts)) as [Hu|Hu].
    + rewrite (decide_False (P := u ∈ us)), option_fmap_id by auto. by rewrite decide_True by set_solver.
    + rewrite option_fmap_id. destruct (decide (u ∈ us)).
      * by rewrite decide_True by set_solver.
      * by rewrite decide_False by set_solver.
  - intros a. rewrite B6, A6, list_filter_filter. apply list_filter_iff. set_solver.
  - rewrite B7, A7, A3. split.
    + intros [[?|(t&c&cur&Ht&E&Ec&Hlt)]|(t&c&cur&Ht&E&Ec&Hlt)]; [by left|right|right].
      * exists t, c, cur. set_solver.
      * rewrite A5 in E, Ec. destruct (tcbs s !! t) as [c0|] eqn:E0; [|done].
        destruct (tcbs s !! pxCurrentTCB s) as [cur0|] eqn:Ec0; [|done]. exists t, c0, cur0. split_and!; [set_solver|done..|].
        assert (uxPriority c = uxPriority c0 ∧ uxPriority cur = uxPriority cur0) as [<- <-]; [|done].
        split; [destruct (decide (t ∈ ts))|destruct (decide (pxCurrentTCB s ∈ ts))]; by simplify_eq/=.
    + intros [?|(t&c&cur&Ht&E&Ec&Hlt)]; [by left; left|]. apply elem_of_app in Ht as [Ht|Ht]; [left; right; by exists t, c, cur|right].
      destruct (HL _ _ E) as (c'&E'&Hc'&_). destruct (HL _ _ Ec) as (cur'&Ec'&Hcur'&_).
      exists t, c', cur'. split_and!; [done..|]. by rewrite Hc', Hcur'.
Qed.

(** ** The group in the abstract

    Its flags, and the requests of the tasks that wait, in their order. *)
Record waiter := Waiter { w_task : Z; w_bits : Z; w_all : bool; w_clear : bool }.
Record event_group := Group { flags : Z; requests : list waiter }.

(** A request as the value of the event list item tells it. *)
Definition awaited (t value : Z) : waiter :=
  Waiter t (without value eventEVENT_BITS_CONTROL_BYTES) (negb (Z.land value eventWAIT_FOR_ALL_BITS =? 0))
    (negb (Z.land value eventCLEAR_EVENTS_ON_EXIT_BIT =? 0)).
Definition waiters (h : Z) (s : scheduler) : list waiter :=
  (λ t, awaited t (value_in (waiting h) s t)) <$> z_items (lists s (waiting h)).

Definition satisfied (v : Z) (x : waiter) : bool := prvTestWaitCondition v (w_bits x) (w_all x).
Definition cleared_by (uxBits : Z) (x : waiter) : Z := if w_clear x then Z.lor uxBits (w_bits x) else uxBits.

(** Setting bits: the requests that are satisfied leave the group, and those
    that ask for it clear their bits. *)
Definition g_woken (b : Z) (g : event_group) : list waiter :=
  filter (λ x, satisfied (Z.lor (flags g) b) x = true) (requests g).
Definition g_set (b : Z) (g : event_group) : event_group :=
  Group (without (Z.lor (flags g) b) (foldl cleared_by 0 (g_woken b g)))
    (filter (λ x, satisfied (Z.lor (flags g) b) x = false) (requests g)).

Definition is_group (w : world) (h : Z) (g : event_group) : Prop :=
  (uxEventBits <$> groups w !! h) = Some (flags g) ∧ waiters h (kernel w) = requests g.

Lemma wp_kernel {D A} (m : ST scheduler A) Q w :
  wp D m (λ a s, Q a (World (groups w) s)) (kernel w) → wp D (call m) Q w.
Proof. unfold wp, call. by destruct (m (kernel w)) as [[a s]| |]. Qed.

Lemma wp_deref {D} h e Q w : groups w !! h = Some e → Q e w → wp D (deref h) Q w.
Proof. intros E HQ. apply wp_bind, wp_gets. rewrite E. by apply wp_ret. Qed.

Lemma wp_get_bits {D} h b Q w : (uxEventBits <$> groups w !! h) = Some b → Q b w → wp D (get_bits h) Q w.
Proof.
  intros E HQ. destruct (groups w !! h) as [e|] eqn:Ee; [|done]. injection E as <-.
  apply wp_bind. eapply wp_deref; [done|]. by apply wp_ret.
Qed.
Lemma get_bits_to h b w : (uxEventBits <$> groups w !! h) = Some b → get_bits h w = Done (b, w).
Proof.
  intros E. assert (wp False (get_bits h) (λ r w', r = b ∧ w' = w) w) as (r&w'&->&->&->)%wp_inv; [|done].
  by eapply wp_get_bits.
Qed.

Definition write_bits (h b : Z) (w : world) : world :=
  World (alter (λ e, EventGroup b (uxEventGroupNumber e)) h (groups w)) (kernel w).

Lemma wp_set_bits {D} h b b' Q w : (uxEventBits <$> groups w !! h) = Some b' → Q tt (write_bits h b w) →
  wp D (set_bits h b) Q w.
Proof.
  intros E HQ. destruct (groups w !! h) as [e|] eqn:Ee; [|done].
  apply wp_bind. eapply wp_deref; [done|]. apply wp_modify. unfold write_bits in HQ.
  assert (alter (λ e, EventGroup b (uxEventGroupNumber e)) h (groups w) =
    <[h := EventGroup b (uxEventGroupNumber e)]> (groups w)) as <-; [|done].
  apply map_eq. intros i. destruct (decide (i = h)) as [->|?].
  - by rewrite lookup_alter_eq, lookup_insert_eq, Ee.
  - by rewrite lookup_alter_ne, lookup_insert_ne by done.
Qed.

(** ** The walks along the list *)

Definition request (h : Z) (s : scheduler) (t : Z) : waiter := awaited t (value_in (waiting h) s t).

Lemma releases_value idle value ts s s' l u : releases idle value ts s s' → u ∉ ts → value_in l s' u = value_in l s u.
Proof. intros H Hu. unfold value_in. by rewrite (rel_tcbs _ _ _ _ _ H), decide_False, option_fmap_id. Qed.

Lemma after_middle t xs ys : t ∉ xs → after t (xs ++ t :: ys) = head ys.
Proof.
  induction xs as [|x xs IH]; intros Hx; simpl; [by rewrite Z.eqb_refl|].
  rewrite (proj2 (Z.eqb_neq x t)) by set_solver. apply IH. set_solver.
Qed.

Lemma wp_get_next {D} l t c xs ys Q s : ok s → z_items (lists s l) = xs ++ t :: ys → tcbs s !! t = Some c →
  container EventItem c = Some l → Q (head ys) s → wp D (listGET_NEXT t) Q s.
Proof.
  intros Hok Hz E Hc HQ. apply wp_bind. eapply wp_get_tcb; [done|]. apply wp_bind, wp_gets. change (id s) with s.
  simpl in Hc. rewrite Hc, Hz, after_middle; [by apply wp_ret|].
  pose proof (placed_nodup _ (ok_placed _ _ Hok) l) as Hnd. rewrite Hz in Hnd. apply NoDup_app in Hnd as (_&Hnd&_).
  intros Ht. apply (Hnd t Ht). left.
Qed.

Lemma match_satisfied v value t :
  (if Z.land (Z.land value eventEVENT_BITS_CONTROL_BYTES) eventWAIT_FOR_ALL_BITS =? 0
   then negb (Z.land (without value eventEVENT_BITS_CONTROL_BYTES) v =? 0)
   else Z.land (without value eventEVENT_BITS_CONTROL_BYTES) v =? without value eventEVENT_BITS_CONTROL_BYTES) =
  satisfied v (awaited t value).
Proof.
  unfold satisfied, prvTestWaitCondition. simpl. rewrite <- Z.land_assoc, negb_involutive.
  change (Z.land eventEVENT_BITS_CONTROL_BYTES eventWAIT_FOR_ALL_BITS) with eventWAIT_FOR_ALL_BITS.
  by rewrite (Z.land_comm v).
Qed.

Lemma clear_match acc value t :
  (if negb (Z.land (Z.land value eventEVENT_BITS_CONTROL_BYTES) eventCLEAR_EVENTS_ON_EXIT_BIT =? 0)
   then Z.lor acc (without value eventEVENT_BITS_CONTROL_BYTES) else acc) = cleared_by acc (awaited t value).
Proof.
  unfold cleared_by. simpl. rewrite <- Z.land_assoc.
  by change (Z.land eventEVENT_BITS_CONTROL_BYTES eventCLEAR_EVENTS_ON_EXIT_BIT) with eventCLEAR_EVENTS_ON_EXIT_BIT.
Qed.

Section walks.
Context (idle : Z) (asserts : bool).

Lemma filter_removed (t : Z) xs ys : NoDup (xs ++ t :: ys) → filter (λ u, u ∉ [t]) (xs ++ t :: ys) = xs ++ ys.
Proof.
  intros (_&H1&[H2 _]%NoDup_cons)%NoDup_app. rewrite filter_app, filter_cons_False by set_solver.
  rewrite !filter_all; [done|set_solver..].
Qed.

Lemma matching_spec h v rq steps ts : ∀ kept acc w, kernel_ok idle (set_suspended 0 (kernel w)) →
  uxSchedulerSuspended (kernel w) ≠ 0 → (uxEventBits <$> groups w !! h) = Some v →
  z_items (lists (kernel w) (waiting h)) = kept ++ ts → (∀ u, u ∈ ts → request h (kernel w) u = rq u) →
  (length ts < steps)%nat → let woken := filter (λ t, satisfied v (rq t) = true) ts in
  wp False (unblock_matching asserts id steps h (head ts) acc) (λ r w', groups w' = groups w ∧
    releases idle (Z.lor v eventUNBLOCKED_DUE_TO_BIT_SET) woken (kernel w) (kernel w') ∧
    r = foldl cleared_by acc (rq <$> woken)) w.
Proof.
  revert ts. induction steps as [|steps IH]; intros ts kept acc w K Hs Hv Hz Hrq Hl; [lia|].
  destruct ts as [|t ts]; cbn [unblock_matching head].
  { apply wp_ret. split_and!; [done| |done]. by apply releases_refl. }
  pose proof (ok_unsuspended _ _ K) as Hok. pose proof (placed_nodup _ (ok_placed _ _ Hok) (waiting h)) as Hnd.
  assert (t ∈ z_items (lists (kernel w) (waiting h))) as Hin by (rewrite Hz; set_solver).
  pose proof Hin as (c&E&Hc)%(placed_member _ (ok_placed _ _ Hok)).
  apply wp_bind, wp_kernel. eapply wp_get_next; [done..|].
  apply wp_bind, wp_kernel, wp_bind. eapply wp_get_tcb; [done|]. apply wp_ret. destruct w as [gs s]. cbn [kernel groups] in *.
  apply wp_bind. eapply wp_get_bits; [done|].
  assert (request h s t = awaited t (item_value (xEventListItem c))) as Hrt by (unfold request, value_in; by rewrite E).
  rewrite (match_satisfied v _ t), (clear_match acc _ t), <- Hrt, Hrq by left.
  destruct (satisfied v (rq t)) eqn:Hsat.
  - apply wp_bind, wp_bind. eapply wp_get_bits; [done|]. apply wp_bind, wp_kernel. cbn [kernel groups].
    eapply wp_mono; [by apply (release_one idle _ t (xTasksWaitingForBits h))|]. intros [] s1 H1. apply wp_ret.
    apply wp_bind, wp_modify. change (id ?x) with x. rewrite Hz in Hnd. pose proof (proj1 (NoDup_app _ _) Hnd) as (_&_&[Ht _]%NoDup_cons).
    eapply wp_mono; [eapply (IH ts kept); cbn [kernel groups]|].
    + apply H1.
    + by rewrite (rel_suspended _ _ _ _ _ H1).
    + done.
    + rewrite (rel_lists _ _ _ _ _ H1), Hz. by apply filter_removed.
    + intros u Hu. rewrite <- Hrq by by right. unfold request. f_equal. eapply releases_value; [done|]. set_solver.
    + simpl in Hl. lia.
    + intros r w' (Hg&Hr&->). cbn [kernel groups] in *. rewrite filter_cons_True by done. split_and!; [done| |done].
      apply (releases_trans _ _ [t] _ _ _ _ H1 Hr). intros u ->%list_elem_of_singleton [_ ?]%list_elem_of_filter. done.
  - apply wp_bind, wp_ret. apply wp_bind, wp_modify. change (id ?x) with x.
    eapply wp_mono; [eapply (IH ts (kept ++ [t])); cbn [kernel groups]|].
    + done.
    + done.
    + done.
    + by rewrite <- app_assoc.
    + intros u Hu. apply Hrq. by right.
    + simpl in Hl. lia.
    + cbn [kernel groups]. rewrite filter_cons_False by congruence. done.
Qed.

Lemma all_spec a steps ts : ∀ w, kernel_ok idle (set_suspended 0 (kernel w)) →
  uxSchedulerSuspended (kernel w) ≠ 0 → z_items (lists (kernel w) (EventList a)) = ts → (length ts < steps)%nat →
  wp False (unblock_all asserts id steps a) (λ _ w', groups w' = groups w ∧
    releases idle eventUNBLOCKED_DUE_TO_BIT_SET ts (kernel w) (kernel w')) w.
Proof.
  revert ts. induction steps as [|steps IH]; intros ts w K Hs Hz Hl; [lia|]. cbn [unblock_all].
  apply wp_bind, wp_kernel, wp_bind, wp_gets, wp_ret. change (id (kernel w)) with (kernel w). rewrite Hz.
  destruct w as [gs s]. cbn [kernel groups] in *. destruct ts as [|t ts]; cbn [head].
  { apply wp_ret. split; [done|]. by apply releases_refl. }
  pose proof (placed_nodup _ (ok_placed _ _ (ok_unsuspended _ s K)) (EventList a)) as Hnd. rewrite Hz in Hnd.
  pose proof Hnd as [Ht _]%NoDup_cons.
  apply wp_bind, wp_kernel. eapply wp_mono; [apply (release_one idle _ t a); [done|done|cbn [kernel]; rewrite Hz; left]|]. intros [] s1 H1.
  apply wp_bind, wp_modify. change (id ?x) with x.
  eapply wp_mono; [eapply (IH ts); cbn [kernel groups]|].
  - apply H1.
  - by rewrite (rel_suspended _ _ _ _ _ H1).
  - rewrite (rel_lists _ _ _ _ _ H1). cbn [kernel]. rewrite Hz. by apply (filter_removed t []).
  - simpl in Hl. lia.
  - intros [] w' (Hg&Hr). split; [done|]. apply (releases_trans _ _ [t] _ _ _ _ H1 Hr). by intros u ->%list_elem_of_singleton.
Qed.
End walks.

(** ** Setting bits *)

Definition control_free (x : Z) : Prop := Z.land x eventEVENT_BITS_CONTROL_BYTES = 0.

Lemma filter_fmap_comm {A B} (f : A → B) (P : B → bool) b (xs : list A) :
  filter (λ y, P y = b) (f <$> xs) = f <$> filter (λ x, P (f x) = b) xs.
Proof.
  induction xs as [|x xs IH]; [done|]. rewrite fmap_cons. destruct (decide (P (f x) = b)).
  - by rewrite !filter_cons_True, IH.
  - by rewrite !filter_cons_False, IH.
Qed.

Lemma filter_ext_in {A} (P Q : A → Prop) `{!∀ x, Decision (P x), !∀ x, Decision (Q x)} (xs : list A) :
  (∀ x, x ∈ xs → P x ↔ Q x) → filter P xs = filter Q xs.
Proof.
  induction xs as [|x xs IH]; intros Hx; [done|]. assert (filter P xs = filter Q xs) as Htl by (apply IH; intros y Hy; apply Hx; by right).
  destruct (decide (P x)) as [HP|HP]; pose proof HP as HQ; rewrite Hx in HQ by left.
  - by rewrite !filter_cons_True, Htl.
  - by rewrite !filter_cons_False, Htl.
Qed.

Lemma request_task h s (ts : list Z) : w_task <$> (request h s <$> ts) = ts.
Proof. rewrite <- list_fmap_compose. by apply list_fmap_id. Qed.

Lemma releases_waiters idle value woken h s s' : releases idle value woken s s' →
  waiters h s' = request h s <$> filter (λ u, u ∉ woken) (z_items (lists s (waiting h))).
Proof.
  intros H. unfold waiters. rewrite (rel_lists _ _ _ _ _ H). apply list_fmap_ext. intros i u Hu.
  unfold request. f_equal. eapply releases_value; [done|]. apply list_elem_of_lookup_2, list_elem_of_filter in Hu. by destruct Hu.
Qed.

(** [s'] is [s] after the requests [ws] have been granted with [v]. *)
Definition granted (idle v : Z) (ws : list waiter) (s s' : scheduler) : Prop :=
  releases idle (Z.lor v eventUNBLOCKED_DUE_TO_BIT_SET) (w_task <$> ws) s s'.

(** A call that gives up the processor at most once: [proceeds m w Φ] says that from [w] the
    call [m] comes to the same point whatever the other tasks do, with [Φ] what is left to
    do there. *)
Definition proceeds {A} (m : (world → world) → ST world A) (w : world)
    (Φ : ((world → world) → outcome (A * world)) → Prop) : Prop :=
  ∃ f, (∀ others, m others w = f others) ∧ Φ f.

Lemma proceeds_done {A} (m : (world → world) → ST world A) w Φ : Φ (λ others, m others w) → proceeds m w Φ.
Proof. intros H. by exists (λ others, m others w). Qed.
Lemma proceeds_after {A B} (m : (world → world) → ST world A) (k : A → (world → world) → ST world B) w a w' Φ :
  (∀ others, m others w = Done (a, w')) → proceeds (k a) w' Φ → proceeds (λ others, m others ≫= λ a, k a others) w Φ.
Proof. intros Hm (f&Hf&HΦ). exists f. split; [|done]. intros others. unfold mbind, ST_bind. by rewrite Hm. Qed.
Lemma proceeds_bind {A B} (m : ST world A) (k : A → (world → world) → ST world B) w Φ :
  wp False m (λ a w', proceeds (k a) w' Φ) w → proceeds (λ others, m ≫= λ a, k a others) w Φ.
Proof. intros (a&w'&E&Hk)%wp_inv. by eapply (proceeds_after (λ _, m)). Qed.

Section setting.
Context (idle : Z) (asserts : bool).

Lemma set_body_proceeds {A} h b fuel g w (k : (world → world) → ST world A) Φ : kernel_ok idle (set_suspended 0 (kernel w)) →
  uxSchedulerSuspended (kernel w) ≠ 0 → is_group w h g → (length (requests g) < fuel)%nat →
  (∀ w', is_group w' h (g_set b g) → (∀ h', h' ≠ h → groups w' !! h' = groups w !! h') →
     granted idle (Z.lor (flags g) b) (g_woken b g) (kernel w) (kernel w') → proceeds k w' Φ) →
  proceeds (λ others, pxListItem ← call (listGET_HEAD_ENTRY (waiting h));
    bits ← get_bits h;
    set_bits h (Z.lor bits b);;
    uxBitsToClear ← unblock_matching asserts id fuel h pxListItem 0;
    bits ← get_bits h;
    set_bits h (without bits uxBitsToClear);;
    k others) w Φ.
Proof.
  intros K Hs [Hv Hq] Hl Hk. set (v := Z.lor (flags g) b). unfold waiters in Hq. fold (request h (kernel w)) in Hq.
  apply proceeds_bind, wp_kernel, wp_bind, wp_gets, wp_ret. change (id (kernel w)) with (kernel w). destruct w as [gs s]. cbn [kernel groups] in *.
  apply proceeds_bind. eapply wp_get_bits; [done|]. apply proceeds_bind. eapply wp_set_bits; [done|]. fold v.
  set (w1 := write_bits h v (World gs s)).
  assert (∀ x (gs' : gmap Z EventGroup_t), (uxEventBits <$> gs' !! h) = Some (flags g) ∨ is_Some (gs' !! h) →
    (uxEventBits <$> alter (λ e, EventGroup x (uxEventGroupNumber e)) h gs' !! h) = Some x) as Hw.
  { intros x gs' Hgs. rewrite lookup_alter_eq. destruct (gs' !! h); [done|]. by destruct Hgs as [?|[? ?]]. }
  assert ((uxEventBits <$> groups w1 !! h) = Some v) as Hv1 by (apply Hw; by left).
  set (items := z_items (lists s (waiting h))) in *.
  assert (length items = length (requests g)) as Hlen by by rewrite <- Hq, length_fmap.
  apply proceeds_bind. eapply wp_mono; [apply (matching_spec idle asserts h v (request h s) fuel items [] 0 w1); try done; by rewrite Hlen|].
  intros r w2 (Hg2&Hr2&->). cbn [kernel w1 write_bits] in Hr2.
  assert (request h s <$> filter (λ t, satisfied v (request h s t) = true) items = g_woken b g) as Hwoken.
  { unfold g_woken. by rewrite <- Hq, <- filter_fmap_comm. }
  assert (filter (λ t, satisfied v (request h s t) = true) items = w_task <$> g_woken b g) as Htasks.
  { by rewrite <- Hwoken, request_task. }
  rewrite Hwoken. rewrite Htasks in Hr2. rewrite <- Hg2 in Hv1.
  apply proceeds_bind. eapply wp_get_bits; [done|]. apply proceeds_bind. eapply wp_set_bits; [done|]. apply Hk.
  - split.
    + unfold write_bits. cbn [groups]. apply Hw. right. destruct (groups w2 !! h); [done|discriminate].
    + cbn [kernel write_bits]. rewrite (releases_waiters _ _ _ _ _ _ Hr2). simpl. rewrite <- Hq, filter_fmap_comm. f_equal.
      apply filter_ext_in. intros u Hu. rewrite <- Htasks, list_elem_of_filter. fold v.
      destruct (satisfied v (request h s u)); split; intros Hn; try done; [by destruct Hn|by intros []].
  - intros h' Hh. unfold write_bits. cbn [groups]. rewrite lookup_alter_ne, Hg2 by done. unfold w1, write_bits. cbn [groups].
    by rewrite lookup_alter_ne.
  - exact Hr2.
Qed.
End setting.

(** ** Resuming the scheduler *)

Lemma kernel_resumed_state idle s : kernel_ok idle (set_suspended 0 s) → kernel_ok idle (resumed s).
Proof. intros K. unfold resumed. destruct (xYieldPending s); [by apply kernel_yield|done]. Qed.

Lemma kernel_suspend_once idle s : kernel_ok idle s → kernel_ok idle (set_suspended 0 (set_suspended 1 s)).
Proof. intros K. pose proof (k_suspended _ _ K). destruct s. simpl in *. by subst. Qed.

Lemma wp_suspend {D} n Q w : uxSchedulerSuspended (kernel w) = n → 0 <= n < 2 →
  Q tt (World (groups w) (set_suspended (n + 1) (kernel w))) → wp D (call vTaskSuspendAll) Q w.
Proof. intros Hs Hn HQ. apply wp_kernel, wp_modify. rewrite Hs. by rewrite u32_small by (unfold is_u32; lia). Qed.

Lemma wp_require {D} asserts b Q w : b = true → Q tt w → wp D (RtosEvents.configASSERT asserts b) Q w.
Proof. intros -> HQ. unfold RtosEvents.configASSERT. rewrite andb_false_r. by apply wp_ret. Qed.

Section resuming.
Context (idle : Z) (asserts : bool) (others : world → world) (fuel : nat) (Hfuel : (0 < fuel)%nat).

(** The world after the scheduler has been resumed. *)
Definition resume (w : world) : world := World (groups w) (resumed (kernel w)).
Definition back (w : world) : world := if xYieldPending (kernel w) then others (resume w) else resume w.

Lemma wp_resumed {D} Q w : kernel_ok idle (set_suspended 0 (kernel w)) → uxSchedulerSuspended (kernel w) = 1 →
  Q (xYieldPending (kernel w)) (back w) → wp D (resume_all asserts others fuel) Q w.
Proof.
  intros K Hs HQ. apply wp_bind, wp_kernel, wp_resume_all; [done|apply K|done|apply K|].
  unfold back, resume in HQ. destruct (xYieldPending (kernel w)); apply wp_bind.
  - by apply wp_modify, wp_ret.
  - by apply wp_ret, wp_ret.
Qed.

Lemma resumed_to w : kernel_ok idle (set_suspended 0 (kernel w)) → uxSchedulerSuspended (kernel w) = 1 →
  resume_all asserts others fuel w = Done (xYieldPending (kernel w), back w).
Proof.
  intros K Hs. destruct (wp_inv _ (λ y w', y = xYieldPending (kernel w) ∧ w' = back w) w
    (wp_resumed (D := False) _ w K Hs (conj eq_refl eq_refl))) as (y&w'&->&->&->). done.
Qed.

(** A nested suspension. *)
Lemma resume_nested_to w : uxSchedulerSuspended (kernel w) = 2 →
  resume_all asserts others fuel w = Done (false, World (groups w) (set_suspended 1 (kernel w))).
Proof.
  intros Hs. assert (wp False (resume_all asserts others fuel) (λ y w', y = false ∧
    w' = World (groups w) (set_suspended 1 (kernel w))) w) as (y&w'&->&->&->)%wp_inv; [|done].
  apply wp_bind, wp_kernel, wp_bind, wp_gets. change (id ?x) with x. rewrite Hs.
  apply wp_bind, wp_assert; [done|]. apply wp_bind, wp_modify, wp_bind, wp_gets. by apply wp_ret, wp_bind, wp_ret, wp_ret.
Qed.
End resuming.

Lemma resumed_bind {A} idle asserts others fuel w (k : bool → ST world A) : (0 < fuel)%nat →
  kernel_ok idle (set_suspended 0 (kernel w)) → uxSchedulerSuspended (kernel w) = 1 →
  (y ← resume_all asserts others fuel; k y) w = k (xYieldPending (kernel w)) (back others w).
Proof. intros Hf K Hs. unfold mbind, ST_bind. by rewrite (resumed_to idle). Qed.

Section setting_bits.
Context (idle : Z) (asserts : bool) (fuel : nat) (Hfuel : (0 < fuel)%nat).

(** From a running caller, and with the scheduler already suspended by it. *)
Lemma set_bits_proceeds h b g w : kernel_ok idle (kernel w) → h ≠ 0 → is_group w h g → control_free b →
  (length (requests g) < fuel)%nat →
  proceeds (λ others, xEventGroupSetBits asserts others id fuel h b) w (λ f, ∃ w1, is_group w1 h (g_set b g) ∧
    (∀ h', h' ≠ h → groups w1 !! h' = groups w !! h') ∧
    granted idle (Z.lor (flags g) b) (g_woken b g) (set_suspended 1 (kernel w)) (kernel w1) ∧
    ∀ others, f others = get_bits h (back others w1)).
Proof.
  intros K Hh Hg Hb Hl. apply proceeds_bind, wp_require; [by apply negb_true_iff, Z.eqb_neq|].
  apply proceeds_bind, wp_require; [by apply Z.eqb_eq|].
  apply proceeds_bind, (wp_suspend 0); [apply K|lia|]. apply proceeds_bind, wp_modify. change (id ?x) with x.
  eapply set_body_proceeds; [by apply kernel_suspend_once|done|exact Hg|done|].
  intros w1 Hg1 Hother H1. apply proceeds_bind, wp_modify. change (id w1) with w1.
  apply proceeds_done. exists w1. do 3 (split; [done|]). intros others.
  eapply resumed_bind; [done|apply H1|by rewrite (rel_suspended _ _ _ _ _ H1)].
Qed.

Lemma set_bits_running others h b g w : kernel_ok idle (kernel w) → h ≠ 0 → is_group w h g → control_free b →
  (length (requests g) < fuel)%nat →
  (∀ w1, is_group w1 h (g_set b g) → granted idle (Z.lor (flags g) b) (g_woken b g) (set_suspended 1 (kernel w)) (kernel w1) →
     is_Some (groups (back others w1) !! h)) →
  wp False (xEventGroupSetBits asserts others id fuel h b) (λ r w', ∃ w1, is_group w1 h (g_set b g) ∧
    (∀ h', h' ≠ h → groups w1 !! h' = groups w !! h') ∧
    granted idle (Z.lor (flags g) b) (g_woken b g) (set_suspended 1 (kernel w)) (kernel w1) ∧
    w' = back others w1 ∧ (uxEventBits <$> groups w' !! h) = Some r) w.
Proof.
  intros K Hh Hg Hb Hl Hk. destruct (set_bits_proceeds h b g w K Hh Hg Hb Hl) as (f&Hf&w1&Hg1&Ho&H1&Hr).
  unfold wp. rewrite Hf, Hr. destruct (Hk w1 Hg1 H1) as [e He].
  apply (wp_get_bits (D := False) _ (uxEventBits e)); [by rewrite He|]. exists w1. by rewrite He.
Qed.

Lemma set_bits_nested h b g w : kernel_ok idle (set_suspended 0 (kernel w)) → uxSchedulerSuspended (kernel w) = 1 → h ≠ 0 →
  is_group w h g → control_free b → (length (requests g) < fuel)%nat →
  ∃ w', (∀ others, xEventGroupSetBits asserts others id fuel h b w = Done (flags (g_set b g), w')) ∧
    is_group w' h (g_set b g) ∧ (∀ h', h' ≠ h → groups w' !! h' = groups w !! h') ∧
    granted idle (Z.lor (flags g) b) (g_woken b g) (kernel w) (kernel w').
Proof.
  intros K Hs Hh Hg Hb Hl. enough (proceeds (λ others, xEventGroupSetBits asserts others id fuel h b) w (λ f,
    ∃ w', (∀ others, f others = Done (flags (g_set b g), w')) ∧ is_group w' h (g_set b g) ∧
      (∀ h', h' ≠ h → groups w' !! h' = groups w !! h') ∧
      granted idle (Z.lor (flags g) b) (g_woken b g) (kernel w) (kernel w'))) as (f&Hf&w'&Hf'&Hw').
  { exists w'. split; [|done]. intros others. by rewrite Hf. }
  apply proceeds_bind, wp_require; [by apply negb_true_iff, Z.eqb_neq|].
  apply proceeds_bind, wp_require; [by apply Z.eqb_eq|].
  apply proceeds_bind, (wp_suspend 1); [done|lia|]. apply proceeds_bind, wp_modify. change (id ?x) with x.
  eapply set_body_proceeds; [exact K|done|exact Hg|done|].
  intros w1 Hg1 Hother H1. apply proceeds_bind, wp_modify. change (id w1) with w1.
  eapply proceeds_after; [intros others; apply resume_nested_to; by rewrite (rel_suspended _ _ _ _ _ H1)|].
  apply proceeds_done. eexists. split.
  - intros _. apply get_bits_to. apply Hg1.
  - split_and!; [by destruct Hg1|done|]. destruct H1 as [A1 A2 A3 A4 A5 A6 A7]. by split.
Qed.

End setting_bits.

(** ** Waiting *)

(** The task that calls: it may block, and is not the idle task. *)
Record caller (idle : Z) (s : scheduler) (c : TCB_t) : Prop := {
  caller_current : tcbs s !! pxCurrentTCB s = Some c;
  caller_ready : is_ready c;
  caller_idle : pxCurrentTCB s ≠ idle;
  caller_notify : ucNotifyState c ≠ taskWAITING_NOTIFICATION;
}.

(** The control block of a task that waits with [value] in the list at [a]. *)
Definition in_wait (s : scheduler) (a value n : Z) (c : TCB_t) : TCB_t :=
  asleep s (with_container EventItem (Some (EventList a))
    (with_value EventItem (Z.lor value taskEVENT_LIST_ITEM_VALUE_IN_USE) c)) n.

(** The kernel as the others find it: a switch is requested. *)
Definition leaving (s : scheduler) : scheduler := set_pendsv true (set_suspended 0 s).

(** [s'] is [s] with the current task waiting. *)
Record waits (idle a value n : Z) (c : TCB_t) (s s' : scheduler) : Prop := {
  waits_kernel : kernel_ok idle (leaving s');
  waits_suspended : uxSchedulerSuspended s' = uxSchedulerSuspended s;
  waits_current : pxCurrentTCB s' = pxCurrentTCB s;
  waits_tcbs : tcbs s' = <[pxCurrentTCB s := in_wait s a value n c]> (tcbs s);
}.

Lemma in_wait_fields s a value n c : ok s → let c' := in_wait s a value n c in
  state_of c' ≠ None ∧ ¬ is_ready c' ∧ container EventItem c' = Some (EventList a) ∧
  ucNotifyState c' = ucNotifyState c ∧ item_value (xEventListItem c') = Z.lor value taskEVENT_LIST_ITEM_VALUE_IN_USE.
Proof.
  intros Hok c'. destruct (asleep_fields s (with_container EventItem (Some (EventList a))
    (with_value EventItem (Z.lor value taskEVENT_LIST_ITEM_VALUE_IN_USE) c)) n Hok) as (A1&A2&A3&A4&A5).
  split_and!; [done|done|by etransitivity; [exact A3|]|by etransitivity; [exact A4|]|]. unfold c', in_wait, asleep, blocked. by destruct (n =? portMAX_DELAY).
Qed.

Lemma place_unordered idle asserts a value n c s : kernel_ok idle (set_suspended 0 s) → uxSchedulerSuspended s ≠ 0 →
  caller idle s c → a ≠ 0 → 0 < n < 2 ^ 32 →
  wp False (vTaskPlaceOnUnorderedEventList asserts a value n) (λ _ s', waits idle a value n c s s') s.
Proof.
  intros K Hs [E Hr Hidle Hn] Ha Ht. pose proof (ok_unsuspended _ _ K) as Hok.
  assert (container EventItem c = None) as Hfree by exact (k_free _ _ K _ _ E Hr).
  destruct (priority_range _ (ok_prioritised _ _ Hok) _ _ E) as [_ Hb].
  apply wp_bind, wp_assert; [by apply negb_true_iff, Z.eqb_neq|].
  apply wp_bind, wp_gets. change (id s) with s. apply wp_bind, wp_assert; [by apply negb_true_iff, Z.eqb_neq|].
  apply wp_bind. eapply (step_update _ c (with_value EventItem _)); [done|exact E|by intros []|done..|]. intros s1 H1.
  apply wp_bind. eapply step_append; [apply H1|by eapply changes_lookup|exact Hfree|done..|]. intros s2 H2.
  pose proof (changes_trans _ _ _ _ _ _ H1 H2) as H02.
  pose proof (frame_inv _ _ (ch_frame _ _ _ _ H02)) as (F1&F2&F3&_&F5&_). set (c2 := with_container _ _ _) in *.
  eapply (step_block n c2); [apply H2|rewrite F1; by eapply changes_lookup|by rewrite (Hr : state_of c2 = _)|done|].
  rewrite F1. intros s3 H3.
  assert (asleep s2 c2 n = in_wait s a value n c) as Hc.
  { unfold in_wait, asleep, blocked. by rewrite F2, F3, F5. }
  rewrite Hc in H3. pose proof (changes_trans _ _ _ _ _ _ H02 H3) as Hch.
  pose proof (frame_inv _ _ (ch_frame _ _ _ _ Hch)) as (G1&G2&G3&G4&G5&G6&G7&G8&G9&G10&G11).
  destruct (in_wait_fields s a value n c Hok) as (A1&A2&A3&A4&A5).
  split; [|done|done|apply Hch].
  apply (kernel_changes_yield idle (pxCurrentTCB s) c (in_wait s a value n c) (set_suspended 0 s) (set_suspended 0 s3)); [done|done| |].
  - split; [by apply ok_set_suspended, Hch|unfold frame; simpl; congruence|apply Hch].
  - split; [done|done|by rewrite A3|]. rewrite A4. by intros [?|?].
Qed.

(** The request the list then holds. *)
Lemma waits_waiters idle h value n c s s' : kernel_ok idle (set_suspended 0 s) → caller idle s c →
  waits idle (xTasksWaitingForBits h) value n c s s' →
  waiters h s' ≡ₚ awaited (pxCurrentTCB s) (Z.lor value taskEVENT_LIST_ITEM_VALUE_IN_USE) :: waiters h s.
Proof.
  intros K [E Hr Hidle Hn] [W1 W2 W3 W4]. pose proof (ok_unsuspended _ _ K) as Hok. pose proof (ok_placed _ _ Hok) as HP.
  assert (placed s') as HP' by (destruct (ok_placed _ _ (k_ok _ _ W1)); by split).
  destruct (in_wait_fields s (xTasksWaitingForBits h) value n c Hok) as (A1&A2&A3&A4&A5).
  set (t := pxCurrentTCB s) in *. set (c' := in_wait s _ value n c) in *.
  assert (t ∉ z_items (lists s (waiting h))) as Ht.
  { intros (d&Ed&Hd)%(placed_member _ HP). assert (d = c) as -> by congruence.
    change (kind_of (waiting h)) with EventItem in Hd. pose proof (k_free _ _ K _ _ E Hr). congruence. }
  assert (z_items (lists s' (waiting h)) ≡ₚ t :: z_items (lists s (waiting h))) as Hz.
  { apply NoDup_Permutation; [apply (placed_nodup _ HP')|apply NoDup_cons; split; [done|apply (placed_nodup _ HP)]|]. intros u.
    rewrite elem_of_cons, !placed_member by done. rewrite W4. destruct (decide (u = t)) as [->|Hu].
    - rewrite lookup_insert_eq. split; [by left|]. intros _. by exists c'.
    - rewrite lookup_insert_ne by done. split; [by right|by intros [?|?]]. }
  unfold waiters. rewrite Hz, fmap_cons. f_equiv.
  - unfold value_in. by rewrite W4, lookup_insert_eq, <- A5.
  - apply reflexive_eq, list_fmap_ext. intros i u Hu%list_elem_of_lookup_2. unfold value_in.
    rewrite W4, lookup_insert_ne; [done|]. by intros <-.
Qed.

Lemma control_free_sub b m : control_free b → Z.land eventEVENT_BITS_CONTROL_BYTES m = m → Z.land b m = 0.
Proof. intros Hb Hm. rewrite <- Hm, Z.land_assoc, Hb. apply Z.land_0_l. Qed.

Lemma without_control b : control_free b → without b eventEVENT_BITS_CONTROL_BYTES = b.
Proof.
  intros Hb. unfold without. apply Z.bits_inj'. intros n Hn. rewrite Z.land_spec, Z.lnot_spec by done.
  assert (Z.testbit (Z.land b eventEVENT_BITS_CONTROL_BYTES) n = false) as H by by rewrite Hb, Z.bits_0.
  rewrite Z.land_spec in H. destruct (Z.testbit b n); [|done]. simpl in *. by rewrite H.
Qed.

Definition control (clear all : bool) : Z :=
  Z.lor (if clear then eventCLEAR_EVENTS_ON_EXIT_BIT else 0) (if all then eventWAIT_FOR_ALL_BITS else 0).

Lemma awaited_value t b clear all : control_free b →
  awaited t (Z.lor (Z.lor b (control clear all)) taskEVENT_LIST_ITEM_VALUE_IN_USE) = Waiter t b all clear.
Proof.
  intros Hb. unfold awaited, without. rewrite !Z.land_lor_distr_l. fold (without b eventEVENT_BITS_CONTROL_BYTES).
  rewrite without_control, !(control_free_sub b) by done.
  assert (Z.land (control clear all) (Z.lnot eventEVENT_BITS_CONTROL_BYTES) = 0) as -> by by destruct clear, all.
  change (Z.land taskEVENT_LIST_ITEM_VALUE_IN_USE (Z.lnot eventEVENT_BITS_CONTROL_BYTES)) with 0.
  rewrite !Z.lor_0_r. f_equal; by destruct clear, all.
Qed.

Section waiting.
Context (idle : Z) (asserts : bool) (others : world → world) (fuel : nat) (Hfuel : (0 < fuel)%nat).

Lemma wp_may_wait {D} n Q w : kernel_ok idle (kernel w) → Q tt w → wp D (may_wait asserts n) Q w.
Proof.
  intros K HQ. apply wp_bind, wp_kernel, wp_bind, wp_gets, wp_ret. change (id ?x) with x.
  rewrite (k_started _ _ K), (k_suspended _ _ K). by apply wp_require; [|destruct w].
Qed.

(** The world that the others find, and the caller back from it. *)
Definition handed (w : world) : world := World (groups w) (leaving (kernel w)).

Lemma leave_to {A} w (k : ST world A) : kernel_ok idle (leaving (kernel w)) → uxSchedulerSuspended (kernel w) = 1 →
  (y ← resume_all asserts others fuel; yield_unless others y;; k) w = k (others (handed w)).
Proof.
  intros K Hs. assert (wp False (y ← resume_all asserts others fuel; yield_unless others y) (λ _ w', w' = others (handed w)) w)
    as (r&w'&E&->)%wp_inv.
  - unfold handed, leaving. apply wp_bind, wp_bind, wp_kernel, wp_resume_all; [done|apply K|done|apply K|].
    unfold resumed. destruct (xYieldPending (kernel w)); cbn [yield_unless].
    + apply wp_bind, wp_modify, wp_ret. by apply wp_ret.
    + apply wp_bind, wp_ret, wp_ret. apply wp_bind, wp_kernel, wp_modify. by apply wp_modify.
  - revert E. unfold mbind, ST_bind. destruct (resume_all asserts others fuel w) as [[y w1]| |]; [|done..]. by intros ->.
Qed.

(** What the caller makes of the world [w] it comes back to: [r], and [w']. *)
Record answered (h b : Z) (met : Z → bool) (clear : bool) (t : Z) (w : world) (r : Z) (w' : world) : Prop := {
  answer : ∃ c, tcbs (kernel w) !! t = Some c ∧
    kernel w' = updated t (with_value EventItem (u32 (configMAX_PRIORITIES - uxPriority c)) c) (kernel w) ∧
    let x := item_value (xEventListItem c) in
    if Z.land x eventUNBLOCKED_DUE_TO_BIT_SET =? 0 then
      ∃ v, (uxEventBits <$> groups w !! h) = Some v ∧ r = without v eventEVENT_BITS_CONTROL_BYTES ∧
        groups w' = groups (if met v && clear then write_bits h (without v b) w else w)
    else r = without x eventEVENT_BITS_CONTROL_BYTES ∧ groups w' = groups w
}.

(** The caller runs again, and its group is still there unless it was woken. *)
Definition comes_back (h t : Z) (w : world) : Prop := pxCurrentTCB (kernel w) = t ∧
  ∃ c, tcbs (kernel w) !! t = Some c ∧
    (Z.land (item_value (xEventListItem c)) eventUNBLOCKED_DUE_TO_BIT_SET = 0 → is_Some (groups w !! h)).

Lemma wp_woken {D} h b met clear t Q w : comes_back h t w →
  (∀ r w', answered h b met clear t w r w' → Q r w') →
  wp D (woken_bits (bits_at_timeout h b met clear)) Q w.
Proof.
  intros (Ht&c&E&Hg) HQ. set (c' := with_value EventItem (u32 (configMAX_PRIORITIES - uxPriority c)) c).
  apply wp_bind, wp_kernel, wp_bind, wp_gets, wp_bind. rewrite Ht. eapply wp_get_tcb; [exact E|].
  apply wp_bind. eapply wp_upd_tcb; [exact E|]. apply wp_ret. fold c'. set (x := item_value (xEventListItem c)) in *.
  set (w1 := World (groups w) (updated t c' (kernel w))). apply wp_bind.
  destruct (Z.eqb_spec (Z.land x eventUNBLOCKED_DUE_TO_BIT_SET) 0) as [Hx|Hx].
  - destruct (Hg Hx) as [e He]. assert ((uxEventBits <$> groups w1 !! h) = Some (uxEventBits e)) as Hv by (simpl; by rewrite He).
    apply wp_bind. eapply wp_get_bits; [exact Hv|]. apply wp_bind.
    assert (∀ w', kernel w' = kernel w1 → groups w' = groups (if met (uxEventBits e) && clear then write_bits h (without (uxEventBits e) b) w else w) →
      Q (without (uxEventBits e) eventEVENT_BITS_CONTROL_BYTES) w') as Hend.
    { intros w' Hk Hgr. apply HQ. split. exists c. split_and!; [done|done|]. cbv zeta. fold x. rewrite (proj2 (Z.eqb_eq _ 0) Hx).
      exists (uxEventBits e). by rewrite He. }
    destruct (met (uxEventBits e) && clear).
    + eapply wp_set_bits; [exact Hv|]. by apply wp_ret, wp_ret, Hend.
    + by apply wp_ret, wp_ret, wp_ret, Hend.
  - apply wp_ret, wp_ret, HQ. split. exists c. split_and!; [done|done|]. cbv zeta. fold x. by rewrite (proj2 (Z.eqb_neq _ 0) Hx).
Qed.
End waiting.

(** [w1] is [w] with its current task waiting as [x] says, up to [n] ticks; the
    others run next. *)
Record enters (idle h : Z) (x : waiter) (n : Z) (c : TCB_t) (w w1 : world) : Prop := {
  enters_groups : groups w1 = groups w;
  enters_kernel : kernel_ok idle (kernel w1);
  enters_switch : pendsv (kernel w1) = true;
  enters_current : pxCurrentTCB (kernel w1) = w_task x;
  enters_tcbs : tcbs (kernel w1) = <[w_task x := in_wait (kernel w) (xTasksWaitingForBits h)
    (Z.lor (w_bits x) (control (w_clear x) (w_all x))) n c]> (tcbs (kernel w));
  enters_waiters : waiters h (kernel w1) ≡ₚ x :: waiters h (kernel w);
}.

Section waits.
Context (idle : Z) (asserts : bool) (fuel : nat) (Hfuel : (0 < fuel)%nat).

Lemma block_proceeds h b clear all n c met w : kernel_ok idle (set_suspended 0 (kernel w)) →
  uxSchedulerSuspended (kernel w) = 1 → caller idle (kernel w) c → 0 < h → control_free b → 0 < n < 2 ^ 32 →
  let x := Waiter (pxCurrentTCB (kernel w)) b all clear in
  proceeds (λ others, now ← (call (vTaskPlaceOnUnorderedEventList asserts (xTasksWaitingForBits h) (Z.lor b (control clear all)) n);;
      mret (@None Z));
    modify id;;
    y ← resume_all asserts others fuel;
    match now with
    | Some r => mret r
    | None => yield_unless others y;; woken_bits (bits_at_timeout h b met clear)
    end) w (λ f, ∃ w1, enters idle h x n c w w1 ∧ ∀ others, f others = woken_bits (bits_at_timeout h b met clear) (others w1)).
Proof.
  intros K Hs Hc Hh Hb Hn x. apply proceeds_bind, wp_bind, wp_kernel.
  eapply wp_mono; [apply (place_unordered idle); [done|by rewrite Hs|exact Hc|unfold xTasksWaitingForBits; lia|done]|].
  intros [] s1 H1. apply wp_ret, proceeds_bind, wp_modify. cbn [id kernel groups].
  apply proceeds_done. exists (handed (World (groups w) s1)). split.
  - split; try done.
    + apply H1.
    + by apply H1.
    + apply (waits_tcbs _ _ _ _ _ _ _ H1).
    + change (waiters h s1 ≡ₚ x :: waiters h (kernel w)). rewrite (waits_waiters idle h _ n c (kernel w)) by done.
      by rewrite awaited_value.
  - intros others. apply (leave_to idle); [done|apply H1|cbn [kernel]; by rewrite (waits_suspended _ _ _ _ _ _ _ H1)].
Qed.

(** What [xEventGroupWaitBits] comes to. *)
Lemma wait_bits_proceeds h b clear all n c w g : kernel_ok idle (kernel w) → caller idle (kernel w) c → 0 < h →
  is_group w h g → b ≠ 0 → control_free b → is_u32 n →
  let x := Waiter (pxCurrentTCB (kernel w)) b all clear in
  proceeds (λ others, xEventGroupWaitBits asserts others id fuel h b clear all n) w (λ f,
    if satisfied (flags g) x then ∀ others, f others = Done (flags g,
      back others (World (groups (if clear then write_bits h (without (flags g) b) w else w)) (set_suspended 1 (kernel w))))
    else if n =? 0 then ∀ others, f others = Done (flags g, back others (World (groups w) (set_suspended 1 (kernel w))))
    else ∃ w1, enters idle h x n c w w1 ∧
      ∀ others, f others = woken_bits (bits_at_timeout h b (λ v, satisfied v x) clear) (others w1)).
Proof.
  intros K Hc Hh [Hv Hq] Hb0 Hb Hn x.
  apply proceeds_bind, wp_require; [by apply negb_true_iff, Z.eqb_neq; lia|].
  apply proceeds_bind, wp_require; [by apply Z.eqb_eq|].
  apply proceeds_bind, wp_require; [by apply negb_true_iff, Z.eqb_neq|].
  apply proceeds_bind; eapply (wp_may_wait idle); [done|].
  apply proceeds_bind. eapply (wp_suspend 0); [apply K|lia|]. apply proceeds_bind, wp_modify. change (id ?x) with x. change (0 + 1) with 1.
  pose proof (kernel_suspend_once _ _ K) as K1.
  apply proceeds_bind. eapply wp_get_bits; [exact Hv|]. unfold satisfied, x. cbn [w_bits w_all].
  destruct (prvTestWaitCondition (flags g) b all) eqn:Hsat.
  - apply proceeds_bind, wp_bind. eapply wp_mono with (Q := λ _ w1, w1 =
      World (groups (if clear then write_bits h (without (flags g) b) w else w)) (set_suspended 1 (kernel w))).
    { destruct clear; [by eapply wp_set_bits|by apply wp_ret]. }
    intros [] w1 ->. apply wp_ret, proceeds_bind, wp_modify. change (id ?x) with x.
    apply proceeds_done. intros others. by rewrite (resumed_bind idle).
  - destruct (Z.eqb_spec n 0) as [Hn0|Hn0].
    + apply proceeds_bind, wp_ret, proceeds_bind, wp_modify. change (id ?x) with x.
      apply proceeds_done. intros others. by rewrite (resumed_bind idle).
    + assert (0 < n < 2 ^ 32) as Hn' by (unfold is_u32 in Hn; lia).
      destruct (block_proceeds h b clear all n c (λ bits, prvTestWaitCondition bits b all)
        (World (groups w) (set_suspended 1 (kernel w)))) as (f&Hf&w1&[E1 E2 E3 E4 E5 E6]&Hf1); try done; [by destruct Hc; split|].
      exists f. split; [exact Hf|]. exists w1. by split; [split|].
Qed.

Lemma wait_bits_result others h b clear all n c w g : kernel_ok idle (kernel w) → caller idle (kernel w) c → 0 < h →
  is_group w h g → b ≠ 0 → control_free b → is_u32 n →
  let x := Waiter (pxCurrentTCB (kernel w)) b all clear in
  (∀ w1, satisfied (flags g) x = false → enters idle h x n c w w1 → comes_back h (w_task x) (others w1)) →
  wp False (xEventGroupWaitBits asserts others id fuel h b clear all n) (λ r w',
    if satisfied (flags g) x then r = flags g ∧
      w' = back others (World (groups (if clear then write_bits h (without (flags g) b) w else w)) (set_suspended 1 (kernel w)))
    else if n =? 0 then r = flags g ∧ w' = back others (World (groups w) (set_suspended 1 (kernel w)))
    else ∃ w1, enters idle h x n c w w1 ∧ answered h b (λ v, satisfied v x) clear (w_task x) (others w1) r w') w.
Proof.
  intros K Hc Hh Hg Hb0 Hb Hn x Hback. unfold wp.
  destruct (wait_bits_proceeds h b clear all n c w g) as (f&Hf&Hend); try done. rewrite Hf. fold x in Hend.
  destruct (satisfied (flags g) x); [by rewrite Hend|]. destruct (n =? 0); [by rewrite Hend|].
  destruct Hend as (w1&He&->). eapply (wp_woken (D := False) h b _ clear (w_task x)); [by apply Hback|]. eauto.
Qed.
End waits.

Lemma waiter_holds idle h s x : kernel_ok idle (set_suspended 0 s) → x ∈ waiters h s →
  ∃ c, tcbs s !! w_task x = Some c ∧ container EventItem c = Some (waiting h) ∧ ¬ is_ready c.
Proof.
  intros K (t&->&(c&E&Hc)%(placed_member _ (ok_placed _ _ (ok_unsuspended _ _ K))))%list_elem_of_fmap.
  exists c. split_and!; [done|done|]. intros Hr. pose proof (k_free _ _ K _ _ E Hr) as Hf. simpl in Hc, Hf. congruence.
Qed.

(** The caller is not among those released. *)
Lemma granted_caller idle h b g v w w1 c : kernel_ok idle (set_suspended 0 (kernel w)) → is_group w h g →
  granted idle v (g_woken b g) (kernel w) (kernel w1) → caller idle (kernel w) c → caller idle (kernel w1) c.
Proof.
  intros K [_ Hq] H [E Hr Hidle Hn]. pose proof (rel_current _ _ _ _ _ H) as Hcur. split; rewrite ?Hcur; try done.
  rewrite (rel_tcbs _ _ _ _ _ H), decide_False; [by rewrite E|].
  intros (x&Hx&[_ Hin]%list_elem_of_filter)%list_elem_of_fmap. rewrite <- Hq in Hin.
  destruct (waiter_holds _ _ _ _ K Hin) as (d&Ed&_&Hd). rewrite <- Hx in Ed. by simplify_eq.
Qed.

Section syncing.
Context (idle : Z) (asserts : bool) (fuel : nat).

(** What [xEventGroupSync] comes to; [w1] is the world with its bits set. *)
Lemma sync_proceeds h bs b n c w g : kernel_ok idle (kernel w) → caller idle (kernel w) c → 0 < h →
  is_group w h g → control_free bs → b ≠ 0 → control_free b → is_u32 n → (length (requests g) < fuel)%nat →
  let x := Waiter (pxCurrentTCB (kernel w)) b true true in
  let v := Z.lor (flags g) bs in let g1 := g_set bs g in
  proceeds (λ others, xEventGroupSync asserts others id fuel h bs b n) w (λ f, ∃ w1, is_group w1 h g1 ∧
    granted idle v (g_woken bs g) (set_suspended 1 (kernel w)) (kernel w1) ∧
    if satisfied v x then ∀ others, f others = Done (v, back others (write_bits h (without (flags g1) b) w1))
    else if n =? 0 then ∀ others, f others = Done (flags g1, back others w1)
    else ∃ w2, enters idle h x n c w1 w2 ∧
      ∀ others, f others = woken_bits (bits_at_timeout h b (λ v, satisfied v x) true) (others w2)).
Proof.
  intros K Hc Hh Hg Hbs Hb0 Hb Hn Hf x v g1. assert (0 < fuel)%nat as Hfuel by lia.
  pose proof (kernel_suspend_once _ _ K) as K1.
  apply proceeds_bind, wp_require; [by apply Z.eqb_eq|]. apply proceeds_bind, wp_require; [by apply negb_true_iff, Z.eqb_neq|].
  apply proceeds_bind. eapply (wp_may_wait idle); [done|].
  apply proceeds_bind. eapply (wp_suspend 0); [apply K|lia|]. apply proceeds_bind, wp_modify. change (id ?x) with x. change (0 + 1) with 1.
  apply proceeds_bind. eapply wp_get_bits; [apply Hg|].
  destruct (set_bits_nested idle asserts fuel Hfuel h bs g (World (groups w) (set_suspended 1 (kernel w))))
    as (w1&Hset&Hg1&_&H1); try done; [lia|]. eapply proceeds_after; [exact Hset|].
  fold v in H1. fold g1 in Hg1. cbn [kernel groups] in H1. pose proof Hg1 as [Hv1 Hq1].
  pose proof (rel_kernel _ _ _ _ _ H1) as K2. pose proof (rel_suspended _ _ _ _ _ H1) as Hs1.
  fold v. assert (satisfied v x = (Z.land v b =? b)) as Hsat by done. rewrite Hsat. destruct (Z.land v b =? b).
  - apply proceeds_bind, wp_bind. eapply wp_get_bits; [exact Hv1|]. apply wp_bind. eapply wp_set_bits; [exact Hv1|].
    apply wp_ret, proceeds_bind, wp_modify. change (id ?x) with x. apply proceeds_done. exists w1. do 2 (split; [done|]).
    intros others. by rewrite (resumed_bind idle).
  - destruct (Z.eqb_spec n 0) as [Hn0|Hn0]; cbn [negb].
    + apply proceeds_bind, wp_bind. eapply wp_get_bits; [exact Hv1|]. apply wp_ret, proceeds_bind, wp_modify. change (id ?x) with x.
      apply proceeds_done. exists w1. do 2 (split; [done|]). intros others. by rewrite (resumed_bind idle).
    + rewrite <- Z.lor_assoc. change (Z.lor eventCLEAR_EVENTS_ON_EXIT_BIT eventWAIT_FOR_ALL_BITS) with (control true true).
      assert (pxCurrentTCB (kernel w1) = pxCurrentTCB (kernel w)) as Hcur by exact (rel_current _ _ _ _ _ H1).
      assert (0 < n < 2 ^ 32) as Hn' by (unfold is_u32 in Hn; lia).
      assert (caller idle (kernel w1) c) as Hc1.
      { eapply (granted_caller idle h bs g v (World (groups w) (set_suspended 1 (kernel w)))); [exact K1|exact Hg|exact H1|].
        by destruct Hc; split. }
      destruct (block_proceeds idle asserts fuel Hfuel h b true true n c (λ bits, Z.land bits b =? b) w1) as (f&Hf2&w2&He&Hf1); try done.
      exists f. split; [exact Hf2|]. exists w1. do 2 (split; [done|]). exists w2. rewrite Hcur in He. by split.
Qed.

Lemma sync_result others h bs b n c w g : kernel_ok idle (kernel w) → caller idle (kernel w) c → 0 < h →
  is_group w h g → control_free bs → b ≠ 0 → control_free b → is_u32 n → (length (requests g) < fuel)%nat →
  let x := Waiter (pxCurrentTCB (kernel w)) b true true in
  let v := Z.lor (flags g) bs in let g1 := g_set bs g in
  let set w1 := is_group w1 h g1 ∧ granted idle v (g_woken bs g) (set_suspended 1 (kernel w)) (kernel w1) in
  (∀ w1 w2, satisfied v x = false → set w1 → enters idle h x n c w1 w2 → comes_back h (w_task x) (others w2)) →
  wp False (xEventGroupSync asserts others id fuel h bs b n) (λ r w', ∃ w1, set w1 ∧
    if satisfied v x then r = v ∧ w' = back others (write_bits h (without (flags g1) b) w1)
    else if n =? 0 then r = flags g1 ∧ w' = back others w1
    else ∃ w2, enters idle h x n c w1 w2 ∧ answered h b (λ v, satisfied v x) true (w_task x) (others w2) r w') w.
Proof.
  intros K Hc Hh Hg Hbs Hb0 Hb Hn Hfuel1 x v g1 set Hback. unfold wp.
  destruct (sync_proceeds h bs b n c w g) as (f&Hf&w1&Hg1&H1&Hend); try done. rewrite Hf. fold v g1 x in Hend.
  assert (set w1) as Hset by done.
  destruct (satisfied v x); [by rewrite Hend; exists w1|]. destruct (n =? 0); [by rewrite Hend; exists w1|].
  destruct Hend as (w2&He&->). eapply (wp_woken (D := False) h b _ true (w_task x)); [by eapply Hback|].
  intros r w' Ha. exists w1. split; [done|]. by exists w2.
Qed.

(** Deleting a group. *)
Lemma delete_running others h w g : kernel_ok idle (kernel w) → h ≠ 0 → is_group w h g → (length (requests g) < fuel)%nat →
  wp False (vEventGroupDelete asserts others id fuel h) (λ _ w', ∃ w1, groups w1 = groups w ∧
    releases idle eventUNBLOCKED_DUE_TO_BIT_SET (w_task <$> requests g) (set_suspended 1 (kernel w)) (kernel w1) ∧
    waiters h (kernel w1) = [] ∧
    w' = World (delete h (groups (back others w1))) (kernel (back others w1))) w.
Proof.
  intros K Hh [Hv Hq] Hf. assert (0 < fuel)%nat as Hfuel by lia.
  pose proof (kernel_suspend_once _ _ K) as K1. destruct (groups w !! h) as [e|] eqn:Ee; [|done].
  set (items := z_items (lists (kernel w) (waiting h))).
  assert (w_task <$> requests g = items) as Hitems by (rewrite <- Hq; apply request_task).
  assert (length items = length (requests g)) as Hlen by by rewrite <- Hitems, length_fmap.
  apply wp_bind, wp_require; [by apply negb_true_iff, Z.eqb_neq|].
  apply wp_bind. eapply (wp_suspend 0); [apply K|lia|]. apply wp_bind, wp_modify. change (id ?x) with x. change (0 + 1) with 1.
  apply wp_bind. eapply wp_deref; [exact Ee|].
  apply wp_bind. eapply wp_mono; [apply (all_spec idle asserts _ fuel items); [exact K1|done|done|by rewrite Hlen]|].
  intros [] w1 (Hg1&H1). cbn [kernel groups] in *.
  apply wp_bind. eapply wp_resumed; [done|apply H1|by rewrite (rel_suspended _ _ _ _ _ H1)|].
  apply wp_modify. exists w1. rewrite Hitems. split_and!; [done|done| |done].
  rewrite (releases_waiters _ _ _ _ _ _ H1). change (z_items _) with items.
  assert (filter (λ u, u ∉ items) items = []) as ->; [|done]. apply elem_of_nil_inv.
  by intros u [? ?]%list_elem_of_filter.
Qed.
End syncing.

(** ** No event is missed *)

(** No task waits for what has already happened. *)
Definition settled (h : Z) (w : world) : Prop := ∃ v, (uxEventBits <$> groups w !! h) = Some v ∧
  ∀ x, x ∈ waiters h (kernel w) → satisfied v x = false.

Lemma without_sub v m b : Z.land v b = 0 → Z.land (without v m) b = 0.
Proof. intros H. unfold without. by rewrite <- Z.land_assoc, (Z.land_comm (Z.lnot m)), Z.land_assoc, H, Z.land_0_l. Qed.

Lemma without_all v m b : Z.land (without v m) b = b → Z.land v b = b.
Proof.
  intros H. assert (Z.land b (Z.lnot m) = b) as Hb.
  { rewrite <- H at 1. unfold without. rewrite <- Z.land_assoc, (Z.land_comm b), Z.land_assoc, <- (Z.land_assoc v), Z.land_diag.
    exact H. }
  rewrite <- H at 2. unfold without. by rewrite <- Z.land_assoc, (Z.land_comm (Z.lnot m)), Hb.
Qed.

(** Clearing bits satisfies no one. *)
Lemma satisfied_without v m x : satisfied v x = false → satisfied (without v m) x = false.
Proof.
  unfold satisfied, prvTestWaitCondition. destruct (w_all x); cbn [negb].
  - intros H%Z.eqb_neq. apply Z.eqb_neq. intros Hm. apply H. by eapply without_all.
  - intros H%negb_false_iff%Z.eqb_eq. by apply negb_false_iff, Z.eqb_eq, without_sub.
Qed.

Lemma g_set_unsatisfied b g x v : v = Z.lor (flags g) b → x ∈ requests (g_set b g) → satisfied v x = false ∧ satisfied (flags (g_set b g)) x = false.
Proof. intros -> [Hx _]%list_elem_of_filter. split; [done|]. by apply satisfied_without. Qed.

Lemma settled_cleared h m w v : (uxEventBits <$> groups w !! h) = Some v → settled h w → settled h (write_bits h (without v m) w).
Proof.
  intros Hv (v'&Hv'&Hx). rewrite Hv in Hv'. injection Hv' as <-. exists (without v m). split.
  - unfold write_bits. cbn [groups]. rewrite lookup_alter_eq. by destruct (groups w !! h).
  - intros x Hin. by apply satisfied_without, Hx.
Qed.

Section settling.
Context (idle h : Z) (asserts : bool) (others : world → world) (fuel : nat).

(** A world in which the task at [t] runs. *)
Record runs (t : Z) (w : world) : Prop := {
  runs_kernel : kernel_ok idle (kernel w);
  runs_settled : settled h w;
  runs_current : pxCurrentTCB (kernel w) = t;
  runs_ready : ∃ c, tcbs (kernel w) !! t = Some c ∧ is_ready c;
}.

Inductive event_call :=
  | SetBits (uxBitsToSet : Z)
  | ClearBits (uxBitsToClear : Z)
  | WaitBits (uxBitsToWaitFor : Z) (xClearOnExit xWaitForAllBits : bool) (xTicksToWait : Z)
  | Sync (uxBitsToSet uxBitsToWaitFor xTicksToWait : Z).

Definition perform (e : event_call) : ST world Z :=
  match e with
  | SetBits b => xEventGroupSetBits asserts others id fuel h b
  | ClearBits b => xEventGroupClearBits asserts h b
  | WaitBits b clear all n => xEventGroupWaitBits asserts others id fuel h b clear all n
  | Sync bs b n => xEventGroupSync asserts others id fuel h bs b n
  end.

Definition admissible (e : event_call) : Prop :=
  match e with
  | SetBits b | ClearBits b => control_free b
  | WaitBits b _ _ n => b ≠ 0 ∧ control_free b ∧ is_u32 n
  | Sync bs b n => control_free bs ∧ b ≠ 0 ∧ control_free b ∧ is_u32 n
  end.

Lemma settled_group w : settled h w → ∃ g, is_group w h g ∧ ∀ x, x ∈ requests g → satisfied (flags g) x = false.
Proof. intros (v&Hv&Hx). by exists (Group v (waiters h (kernel w))). Qed.

Lemma settled_set w1 b g : is_group w1 h (g_set b g) → settled h w1.
Proof.
  intros [Hv Hq]. exists (flags (g_set b g)). split; [done|]. rewrite Hq. intros x Hx. by eapply g_set_unsatisfied.
Qed.

(** A call of the task at [t] that keeps the promise, whatever the others do. Either it ends
    without giving up the processor, in a world that keeps it; or it gives up the processor
    once, in a world [w1] that keeps it, with [rest] to be done when the task at [t] runs
    again, if it ever does; and from every world that keeps it where the task runs again,
    [rest] ends in such a world. *)
Definition keeps_promise (t : Z) (call : (world → world) → outcome (Z * world)) : Prop :=
  (∃ r w', (∀ others, call others = Done (r, w')) ∧ runs t w') ∨
  (∃ w1 rest, kernel_ok idle (kernel w1) ∧ pendsv (kernel w1) = true ∧ settled h w1 ∧
     (∀ others, call others = rest (others w1)) ∧
     ∀ w2, runs t w2 → wp False rest (λ _ w', runs t w') w2).

Lemma keeps_back t w k call : (∀ others, call others = k (back others w)) →
  kernel_ok idle (set_suspended 0 (kernel w)) → settled h w →
  pxCurrentTCB (kernel w) = t → (∃ c, tcbs (kernel w) !! t = Some c ∧ is_ready c) →
  (∀ w2, runs t w2 → wp False k (λ _ w', runs t w') w2) → keeps_promise t call.
Proof.
  intros Hcall K Hs Ht Hc Hk. pose proof (kernel_resumed_state _ _ K) as K'.
  destruct (xYieldPending (kernel w)) eqn:Hy.
  - right. exists (resume w), k. split_and!; [done| | |intros o; rewrite Hcall; unfold back; by rewrite Hy|done].
    + simpl. unfold resumed. by rewrite Hy.
    + simpl. unfold settled, resume, resumed. by rewrite Hy.
  - assert (resume w = World (groups w) (set_suspended 0 (kernel w))) as Hw by (unfold resume, resumed; by rewrite Hy).
    left. destruct (wp_inv _ _ _ (Hk (World (groups w) (set_suspended 0 (kernel w))) ltac:(by split))) as (r&w'&E&Hr).
    exists r, w'. split; [|done]. intros o. rewrite Hcall. unfold back. by rewrite Hy, Hw.
Qed.

Lemma runs_answered t b met clear w r w' : runs t w → answered h b met clear t w r w' → runs t w'.
Proof.
  intros [K Hs Ht (c0&E0&Hr)] [(c&E&Hk&Hx)]. assert (c0 = c) as -> by congruence. pose proof (k_ok _ _ K) as Hok.
  set (c' := with_value EventItem _ c) in *.
  assert (∀ k, container k c' = container k c) as Hcc by by intros [].
  assert (kernel_ok idle (kernel w')) as K'.
  { rewrite Hk. apply (kernel_touched idle t c c' (kernel w)); try done; [|exact (k_waiting _ _ K _ _ E)].
    split; [|done..]. apply (ok_updated _ t c); try done. apply (priority_range _ (ok_prioritised _ _ Hok) _ _ E). }
  assert (waiters h (kernel w') = waiters h (kernel w)) as Hw.
  { unfold waiters. rewrite Hk. apply list_fmap_ext. intros i u Hu%list_elem_of_lookup_2. unfold value_in.
    rewrite lookup_updated, decide_False; [done|]. intros ->. apply (placed_member _ (ok_placed _ _ Hok)) in Hu as (d&Ed&Hd).
    assert (d = c) as -> by congruence. pose proof (k_free _ _ K _ _ E Hr) as Hf. simpl in Hd, Hf. congruence. }
  split; [done| |by rewrite Hk|].
  - assert (groups w' = groups w → settled h w') as Hsame.
    { intros Hg. destruct Hs as (v&Hv&Hs). exists v. rewrite Hg, Hw. done. }
    cbv zeta in Hx. destruct (Z.eqb _ 0); [|apply Hsame, Hx]. destruct Hx as (v&Hv&_&Hg). destruct (_ && _); [|by apply Hsame].
    destruct (settled_cleared h b w v Hv Hs) as (v1&Hv1&Hs1). exists v1. rewrite Hg, Hw. done.
  - exists c'. rewrite Hk, lookup_updated, decide_True by done. done.
Qed.

Lemma runs_comes_back t w : runs t w → comes_back h t w.
Proof.
  intros [K (v&Hv&_) Ht (c&E&_)]. split; [done|]. exists c. split; [done|]. intros _. by destruct (groups w !! h).
Qed.

Lemma enters_settled x n c w w1 : settled h w → (∀ v, (uxEventBits <$> groups w !! h) = Some v → satisfied v x = false) →
  enters idle h x n c w w1 → settled h w1.
Proof.
  intros (v&Hv&Hs) Hx [E1 E2 E3 E4 E5 E6]. exists v. rewrite E1. split; [done|]. intros y. rewrite E6, elem_of_cons.
  intros [->|?]; [by apply Hx|by apply Hs].
Qed.
End settling.

Lemma requests_fuel h g w fuel : ok (kernel w) → is_group w h g → (size (tcbs (kernel w)) < fuel)%nat →
  (length (requests g) < fuel)%nat.
Proof.
  intros Hok [_ <-] Hf. unfold waiters. rewrite length_fmap.
  pose proof (length_tasks (kernel w) (waiting h) (ok_placed _ _ Hok)). lia.
Qed.

Section promise.
Context (idle h : Z) (asserts : bool) (fuel : nat) (Hh : 0 < h).
Context (w : world) (g : event_group) (c : TCB_t).
Local Abbreviation t := (pxCurrentTCB (kernel w)).
Context (Hrun : runs idle h t w) (Hcall : caller idle (kernel w) c) (Hg : is_group w h g).
Context (Hfuel : (size (tcbs (kernel w)) < fuel)%nat).
Local Abbreviation keeps e := (keeps_promise idle h t (λ others, perform h asserts others fuel e w)).

Lemma woken_runs b met clear w2 : runs idle h t w2 →
  wp False (woken_bits (bits_at_timeout h b met clear)) (λ _ w', runs idle h t w') w2.
Proof.
  intros Hr. eapply (wp_woken h b met clear t); [by eapply runs_comes_back|]. intros r w'. by apply runs_answered.
Qed.

(** The caller gives up the processor and waits. *)
Lemma keeps_waiting x n w1 w2 b met clear call : settled h w1 →
  (∀ v, (uxEventBits <$> groups w1 !! h) = Some v → satisfied v x = false) → enters idle h x n c w1 w2 →
  (∀ others, call others = woken_bits (bits_at_timeout h b met clear) (others w2)) → keeps_promise idle h t call.
Proof.
  intros Hs Hx He Hcl. right. exists w2, (woken_bits (bits_at_timeout h b met clear)).
  split_and!; [apply He|apply He|by eapply enters_settled|done|apply woken_runs].
Qed.

Lemma keeps_same gs (r : Z) call : settled h (World gs (kernel w)) →
  (∀ others, call others = Done (r, back others (World gs (set_suspended 1 (kernel w))))) → keeps_promise idle h t call.
Proof.
  destruct Hrun as [K Hs _ Hr]. intros Hgs Hcl.
  apply (keeps_back idle h t (World gs (set_suspended 1 (kernel w))) (λ w', Done (r, w'))); [exact Hcl|by apply kernel_suspend_once|done..].
Qed.

(** After bits have been set. *)
Lemma keeps_granted b w1 m k call : is_group w1 h (g_set b g) →
  granted idle (Z.lor (flags g) b) (g_woken b g) (set_suspended 1 (kernel w)) (kernel w1) →
  (∀ w2, runs idle h t w2 → wp False k (λ _ w', runs idle h t w') w2) →
  (∀ others, call others = k (back others w1)) ∨
  (∀ others, call others = k (back others (write_bits h (without (flags (g_set b g)) m) w1))) →
  keeps_promise idle h t call.
Proof.
  intros Hg1 H1 Hk Hcl. pose proof (settled_set h w1 b g Hg1) as Hs1. pose proof (runs_kernel _ _ _ _ Hrun) as K.
  pose proof (rel_current _ _ _ _ _ H1) as Hcur. cbn [pxCurrentTCB set_suspended] in Hcur.
  assert (caller idle (kernel w1) c) as [E1 Hr1 _ _].
  { eapply (granted_caller idle h b g _ (World (groups w) (set_suspended 1 (kernel w)))); [by apply kernel_suspend_once|exact Hg|exact H1|].
    by destruct Hcall; split. }
  rewrite Hcur in E1. destruct Hcl as [Hcl|Hcl]; (eapply keeps_back; [exact Hcl|apply H1| |done|by exists c|done]); [done|].
  apply settled_cleared; [apply Hg1|done].
Qed.

Lemma set_keeps b : control_free b → keeps (SetBits b).
Proof.
  intros Hb. pose proof (runs_kernel _ _ _ _ Hrun) as K.
  pose proof (requests_fuel h g w fuel (k_ok _ _ K) Hg Hfuel) as Hl.
  destruct (set_bits_proceeds idle asserts fuel ltac:(lia) h b g w) as (f&Hf&w1&Hg1&_&H1&Hf1); try done; [lia|].
  eapply (keeps_granted b w1 0 (get_bits h)); [done|done| |left; intros others; cbn [perform]; by rewrite Hf].
  intros w2 Hr. destruct (runs_settled _ _ _ _ Hr) as (v&Hv&_). by eapply wp_get_bits.
Qed.

Lemma clear_keeps b : control_free b → keeps (ClearBits b).
Proof.
  intros Hb. destruct Hrun as [K Hs Ht Hr], Hg as [Hv Hq]. left.
  assert (wp False (xEventGroupClearBits asserts h b) (λ _ w', runs idle h t w') w) as (r&w'&E&Hw)%wp_inv; [|by exists r, w'].
  apply wp_bind, wp_require; [by apply negb_true_iff, Z.eqb_neq; lia|].
  apply wp_bind, wp_require; [by apply Z.eqb_eq|]. apply wp_bind. eapply wp_get_bits; [exact Hv|].
  apply wp_bind. eapply wp_set_bits; [exact Hv|]. apply wp_ret. split; [done|by apply settled_cleared|done..].
Qed.

Lemma wait_keeps b clear all n : b ≠ 0 → control_free b → is_u32 n → keeps (WaitBits b clear all n).
Proof.
  intros Hb0 Hb Hn. pose proof Hrun as [K Hs _ _]. set (x := Waiter t b all clear).
  assert (0 < fuel)%nat as Hf0 by lia.
  destruct (wait_bits_proceeds idle asserts fuel Hf0 h b clear all n c w g) as (f&Hf&Hend); try done. fold x in Hend.
  destruct (satisfied (flags g) x) eqn:Hsat.
  - eapply keeps_same; [|intros others; cbn [perform]; by rewrite Hf, Hend].
    destruct clear; [|by destruct w]. apply (settled_cleared h b w); [apply Hg|done].
  - destruct (n =? 0).
    + eapply keeps_same; [|intros others; cbn [perform]; by rewrite Hf, Hend].
      by destruct w.
    + destruct Hend as (w1&He&Hf1). eapply (keeps_waiting x); [exact Hs| |exact He|intros others; cbn [perform]; by rewrite Hf].
      intros v Hv. destruct Hg as [Hv' _]. congruence.
Qed.

Lemma sync_keeps bs b n : control_free bs → b ≠ 0 → control_free b → is_u32 n → keeps (Sync bs b n).
Proof.
  intros Hbs Hb0 Hb Hn. pose proof (runs_kernel _ _ _ _ Hrun) as K. set (x := Waiter t b true true).
  pose proof (requests_fuel h g w fuel (k_ok _ _ K) Hg Hfuel) as Hl. set (v := Z.lor (flags g) bs).
  destruct (sync_proceeds idle asserts fuel h bs b n c w g) as (f&Hf&w1&Hg1&H1&Hend); try done. fold x v in Hend.
  destruct (satisfied v x) eqn:Hsat; [|destruct (n =? 0)].
  - apply (keeps_granted bs w1 b (λ w', Done (v, w'))); [done..|right; intros others; cbn [perform]; by rewrite Hf, Hend].
  - eapply (keeps_granted bs w1 0 (λ w', Done (_, w'))); [done..|left; intros others; cbn [perform]; by rewrite Hf, Hend].
  - destruct Hend as (w2&He&Hf1).
    eapply (keeps_waiting x); [by eapply settled_set| |exact He|intros others; cbn [perform]; by rewrite Hf].
    intros v' Hv'. destruct Hg1 as [Hv1 _].
    assert (v' = without v (foldl cleared_by 0 (g_woken bs g))) as -> by (rewrite Hv' in Hv1; by injection Hv1).
    by apply satisfied_without.
Qed.
End promise.

Lemma without_without v m b : without (without v m) b = without v (Z.lor m b).
Proof. unfold without. by rewrite <- Z.land_assoc, Z.lnot_lor. Qed.

Lemma clears_same ws b acc : Z.lor acc b = b → (∀ x, x ∈ ws → w_bits x = b) → Z.lor (foldl cleared_by acc ws) b = b.
Proof.
  revert acc. induction ws as [|x ws IH]; intros acc Ha Hx; [done|]. cbn [foldl]. apply IH; [|intros y Hy; apply Hx; by right].
  unfold cleared_by. destruct (w_clear x); [|done]. rewrite (Hx x) by left. by rewrite <- Z.lor_assoc, Z.lor_diag.
Qed.

(** ** What event groups promise *)

(** C26 (refinement): Setting bits refines [g_set]: exactly the requests that the bits satisfy
    leave the group, in one step, however many they are; each of their tasks is
    ready, and finds in its event item the bits that satisfied it; every other
    task and group is as it was. The caller is preempted if one of the tasks has a
    higher priority. *)
Theorem set_bits_refines idle asserts others fuel h b w g : kernel_ok idle (kernel w) → h ≠ 0 → is_group w h g →
  control_free b → (length (requests g) < fuel)%nat → (∀ w1, is_Some (groups w1 !! h) → is_Some (groups (others w1) !! h)) →
  let v := Z.lor (flags g) b in
  wp False (xEventGroupSetBits asserts others id fuel h b) (λ r w', ∃ w1, is_group w1 h (g_set b g) ∧
    (∀ h', h' ≠ h → groups w1 !! h' = groups w !! h') ∧ kernel_ok idle (resumed (kernel w1)) ∧
    (∀ t, tcbs (kernel w1) !! t = (if decide (t ∈ w_task <$> g_woken b g) then released (Z.lor v eventUNBLOCKED_DUE_TO_BIT_SET)
                                   else id) <$> tcbs (kernel w) !! t) ∧
    (xYieldPending (kernel w1) = true ↔ xYieldPending (kernel w) = true ∨ ∃ x c cur, x ∈ g_woken b g ∧
       tcbs (kernel w) !! w_task x = Some c ∧ tcbs (kernel w) !! pxCurrentTCB (kernel w) = Some cur ∧ uxPriority cur < uxPriority c) ∧
    w' = back others w1 ∧ (uxEventBits <$> groups w' !! h) = Some r) w.
Proof.
  intros K Hh Hg Hb Hl Hk v. eapply wp_mono; [apply (set_bits_running idle asserts fuel ltac:(lia) others h b g); try done|].
  - intros w1 [Hv _] _. unfold back. assert (is_Some (groups (resume w1) !! h)); [|by destruct (xYieldPending _); [apply Hk|]].
    simpl. by destruct (groups w1 !! h).
  - intros r w' (w1&Hg1&Ho&H1&->&Hr). exists w1. split_and!; [done|done|apply kernel_resumed_state, H1|apply H1| |done|done].
    rewrite (rel_yield _ _ _ _ _ H1). apply or_iff_compat_l. split.
    + intros (t&c&cur&(x&->&Hx)%list_elem_of_fmap&E&Ec&Hlt). by exists x, c, cur.
    + intros (x&c&cur&Hx&E&Ec&Hlt). exists (w_task x), c, cur. split_and!; [|done..]. by apply list_elem_of_fmap_2.
Qed.

(** C27 (invariant): No event is missed: whichever of the four calls a task makes, no task is
    left waiting for bits that are already there ([settled]), the caller included.
    If the call gives up the processor, it does so once, and this holds in the world that
    the other tasks find, whatever they do with it: nothing is assumed of them, and the caller
    may never run again. If it does run again, in a world where no task waits in vain, the
    rest of the call ends, and leaves such a world. *)
Theorem no_event_missed idle h asserts fuel t e w c : runs idle h t w → caller idle (kernel w) c → 0 < h →
  admissible e → (size (tcbs (kernel w)) < fuel)%nat →
  keeps_promise idle h t (λ others, perform h asserts others fuel e w).
Proof.
  intros Hrun Hc Hh Ha Hf. destruct (settled_group h w (runs_settled _ _ _ _ Hrun)) as (g&Hg&_).
  assert (pxCurrentTCB (kernel w) = t) as <- by apply Hrun. destruct e; cbn [admissible] in Ha; destruct_and?.
  - by eapply set_keeps.
  - by eapply clear_keeps.
  - by eapply wait_keeps.
  - by eapply sync_keeps.
Qed.

(** C28 (functional): A task that had to wait returns the bits that satisfied it, without the
    control bits, whatever happened to the group between the moment it was woken
    and the moment it runs: it does not look at the group again. *)
Theorem wait_returns_waking_bits idle asserts others fuel h b clear all n c w g v : kernel_ok idle (kernel w) →
  caller idle (kernel w) c → 0 < h → (0 < fuel)%nat → is_group w h g → b ≠ 0 → control_free b → control_free v →
  0 < n < 2 ^ 32 →
  let t := pxCurrentTCB (kernel w) in let x := Waiter t b all clear in satisfied (flags g) x = false →
  (∀ w1, enters idle h x n c w w1 → pxCurrentTCB (kernel (others w1)) = t ∧ ∃ c0 c2, tcbs (kernel (others w1)) !! t = Some c2 ∧
     xEventListItem c2 = xEventListItem (released (Z.lor v eventUNBLOCKED_DUE_TO_BIT_SET) c0)) →
  wp False (xEventGroupWaitBits asserts others id fuel h b clear all n) (λ r w', r = v ∧
    ∃ w1, enters idle h x n c w w1 ∧ groups w' = groups (others w1)) w.
Proof.
  intros K Hc Hh Hf Hg Hb0 Hb Hv Hn t x Hsat Hback.
  set (value := Z.lor (Z.lor v eventUNBLOCKED_DUE_TO_BIT_SET) taskEVENT_LIST_ITEM_VALUE_IN_USE).
  assert (Z.land value eventUNBLOCKED_DUE_TO_BIT_SET ≠ 0) as Hu.
  { unfold value. rewrite !Z.land_lor_distr_l, (control_free_sub v) by done. done. }
  assert (without value eventEVENT_BITS_CONTROL_BYTES = v) as Hw.
  { unfold value, without. rewrite !Z.land_lor_distr_l. fold (without v eventEVENT_BITS_CONTROL_BYTES).
    rewrite without_control by done. change (Z.land eventUNBLOCKED_DUE_TO_BIT_SET _) with 0.
    change (Z.land taskEVENT_LIST_ITEM_VALUE_IN_USE _) with 0. by rewrite !Z.lor_0_r. }
  eapply wp_mono; [apply (wait_bits_result idle asserts fuel Hf others h b clear all n c w g); try done; [unfold is_u32; lia|]|].
  - intros w1 _ He. destruct (Hback w1 He) as (Ht&c0&c2&E&Hi). split; [done|]. exists c2. split; [done|]. by rewrite Hi.
  - intros r w'. cbv zeta. fold t. fold x. rewrite Hsat, (proj2 (Z.eqb_neq n 0)) by lia. intros (w1&He&[(c2&E&_&Ha)]).
    destruct (Hback w1 He) as (Ht&c0&c2'&E'&Hi). change (w_task x) with t in E. assert (c2' = c2) as -> by congruence.
    cbv zeta in Ha. rewrite Hi in Ha. change (item_value (xEventListItem (released _ c0))) with value in Ha.
    rewrite (proj2 (Z.eqb_neq _ 0)) in Ha by done. destruct Ha as [-> Hgr]. split; [done|]. by exists w1.
Qed.

(** C29 (functional): A rendezvous: when the last of the tasks that synchronise on the bits [b]
    arrives, it does not wait; all the others are released with the same bits, of
    which those of [b] are clear afterwards, ready for the next round. *)
Theorem rendezvous_completes idle asserts others fuel h bs b n c w g : kernel_ok idle (kernel w) →
  caller idle (kernel w) c → 0 < h → is_group w h g → control_free bs → b ≠ 0 → control_free b → is_u32 n →
  (length (requests g) < fuel)%nat → (∀ x, x ∈ requests g → x = Waiter (w_task x) b true true) →
  let v := Z.lor (flags g) bs in Z.land v b = b →
  wp False (xEventGroupSync asserts others id fuel h bs b n) (λ r w', r = v ∧ ∃ w1, w' = back others w1 ∧
    is_group w1 h (Group (without v b) []) ∧ kernel_ok idle (resumed (kernel w1)) ∧
    ∀ t, tcbs (kernel w1) !! t = (if decide (t ∈ w_task <$> requests g) then released (Z.lor v eventUNBLOCKED_DUE_TO_BIT_SET)
                                  else id) <$> tcbs (kernel w) !! t) w.
Proof.
  intros K Hc Hh Hg Hbs Hb0 Hb Hn Hf Hall v Hv.
  assert (∀ t, satisfied v (Waiter t b true true) = true) as Hsat by (intros t; by apply Z.eqb_eq).
  assert (g_woken bs g = requests g) as Hw.
  { apply filter_all. intros x Hx. rewrite (Hall x Hx). apply Hsat. }
  assert (requests (g_set bs g) = []) as Hr.
  { apply elem_of_nil_inv. intros x [Hx Hin]%list_elem_of_filter. rewrite (Hall x Hin) in Hx. fold v in Hx. by rewrite Hsat in Hx. }
  eapply wp_mono; [apply (sync_result idle asserts fuel others h bs b n c w g); try done|].
  - intros w1 w2 Hn'. cbv zeta in Hn'. fold v in Hn'. by rewrite Hsat in Hn'.
  - intros r w' (w1&([Hv1 Hq1]&H1)&Hr'). revert Hr'. cbv zeta. fold v. rewrite Hsat. intros [-> ->]. split; [done|].
    eexists. split; [done|]. split_and!; [split| |].
    + unfold write_bits. cbn [groups]. rewrite lookup_alter_eq. destruct (groups w1 !! h); [|done]. simpl. f_equal.
      unfold g_set. cbn [flags]. rewrite without_without. fold v. f_equal. apply clears_same; [done|].
      intros x Hx. rewrite Hw in Hx. by rewrite (Hall x Hx).
    + cbn [kernel write_bits]. by rewrite Hq1.
    + by apply kernel_resumed_state, H1.
    + intros t. cbn [kernel write_bits]. rewrite <- Hw. apply H1.
Qed.

(** A new group has no bits and nobody waits for it. *)
Lemma create_empty malloc w : let h := malloc sizeof_EventGroup_t w in h ≠ 0 →
  wp False (xEventGroupCreate malloc) (λ r w', r = h ∧ is_group w' h (Group 0 []) ∧ settled h w') w.
Proof.
  intros h Hh. apply wp_bind, wp_gets. fold h. rewrite (proj2 (Z.eqb_neq h 0)) by done.
  apply wp_bind, wp_modify, wp_ret. set (w' := World _ _).
  assert (is_group w' h (Group 0 [])) as Hg.
  { split; [by simpl; rewrite lookup_insert_eq|]. unfold waiters. simpl. by rewrite fn_lookup_insert. }
  split_and!; [done|done|]. destruct Hg as [Hv Hq]. exists 0. split; [done|]. intros x. rewrite Hq. set_solver.
Qed.

(** Deleting a group ends the wait of all its tasks; a task so released returns
    no bits and does not look at the group that is gone. *)
Theorem delete_releases_all idle asserts others fuel h w g : kernel_ok idle (kernel w) → h ≠ 0 → is_group w h g →
  (length (requests g) < fuel)%nat →
  wp False (vEventGroupDelete asserts others id fuel h) (λ _ w', groups w' !! h = None ∧ ∃ w1,
    w' = World (delete h (groups (back others w1))) (kernel (back others w1)) ∧
    kernel_ok idle (resumed (kernel w1)) ∧ waiters h (kernel w1) = [] ∧
    ∀ x c, x ∈ requests g → tcbs (kernel w) !! w_task x = Some c →
      tcbs (kernel w1) !! w_task x = Some (released eventUNBLOCKED_DUE_TO_BIT_SET c) ∧
      without (item_value (xEventListItem (released eventUNBLOCKED_DUE_TO_BIT_SET c))) eventEVENT_BITS_CONTROL_BYTES = 0) w.
Proof.
  intros K Hh Hg Hf. eapply wp_mono; [by apply (delete_running idle asserts fuel others h w g)|].
  intros [] w' (w1&Hgr&H1&Hq&->). split; [apply lookup_delete_eq|]. exists w1.
  split_and!; [done|by apply kernel_resumed_state, H1|done|]. intros x c Hx E. split; [|done].
  rewrite (rel_tcbs _ _ _ _ _ H1), decide_True by by apply list_elem_of_fmap_2.
  change (tcbs (set_suspended 1 (kernel w))) with (tcbs (kernel w)). by rewrite E.
Qed.

(** ** A group with a task that waits *)

Module EventDemo.
Import KernelDemo.
(** The timer task, 16, waits for both bits of 3 of the group at 2000, up to five
    ticks; then task 100 runs. *)
Definition group (b : Z) : gmap Z EventGroup_t := {[ 2000 := EventGroup b None ]}.
Definition placed16 : scheduler :=
  run (vTaskPlaceOnUnorderedEventList true 2004 (Z.lor 3 (control true true)) 5) (set_suspended 1 started).
Definition waiting16 : scheduler := run xPortPendSVHandler (leaving placed16).
Definition both (b : Z) : world := World (group b) waiting16.
(** Task 100 sets the bits, and the timer task runs again. *)
Definition woken16 : world :=
  match (xEventGroupSetBits true id id 10 2000 3;; call xPortPendSVHandler) (both 0) with Done (_, w) => w | _ => both 0 end.

Lemma caller16 : ∃ c, caller 8 started c.
Proof. destruct (tcbs started !! 16) as [c|] eqn:E; [|by vm_compute in E]. exists c. vm_compute in E. injection E as <-. split; by vm_compute. Defined.

Lemma waiting16_ok : kernel_ok 8 waiting16.
Proof.
  destruct caller16 as [c Hc]. pose proof (reachable_ok _ _ _ _ started_reachable) as K.
  assert (kernel_ok 8 (leaving placed16)) as K1.
  { pose proof (place_unordered 8 true 2004 (Z.lor 3 (control true true)) 5 c (set_suspended 1 started)
      (kernel_suspend_once _ _ K) ltac:(done) ltac:(by destruct Hc; split) ltac:(done) ltac:(done)) as H.
    apply wp_inv in H as (a&s'&E&H). destruct a. unfold placed16, run. rewrite E. apply H. }
  pose proof (kernel_switch 8 _ K1) as (a&s'&E&H&_)%wp_inv. destruct a. unfold waiting16, run. by rewrite E.
Defined.

Lemma caller100 : ∃ c, caller 8 waiting16 c.
Proof. destruct (tcbs waiting16 !! 100) as [c|] eqn:E; [|by vm_compute in E]. exists c. vm_compute in E. injection E as <-. split; by vm_compute. Defined.

Lemma both_group b : is_group (both b) 2000 (Group b [Waiter 16 3 true true]).
Proof. by vm_compute. Defined.

Lemma both_runs : runs 8 2000 100 (both 0).
Proof.
  split; [exact waiting16_ok| |by vm_compute|].
  - exists 0. split; [by vm_compute|]. rewrite (proj2 (both_group 0)). by intros x ->%list_elem_of_singleton.
  - destruct caller100 as [c [E Hr _ _]]. exists c. split; [|done]. by rewrite <- E.
Defined.
End EventDemo.
Import EventDemo.

Lemma set_bits_refines_witness : ∃ r w' w1, xEventGroupSetBits true id id 10 2000 3 (both 0) = Done (r, w') ∧
  w' = back id w1 ∧ is_group w1 2000 (Group 0 []) ∧ xYieldPending (kernel w1) = true.
Proof.
  pose proof (set_bits_refines 8 true id 10 2000 3 (both 0) _ waiting16_ok ltac:(done) (both_group 0) ltac:(done) ltac:(simpl; lia)
    ltac:(done)) as (r&w'&E&w1&Hg&_&_&_&Hy&->&_)%wp_inv.
  exists r, (back id w1), w1. split_and!; [done|done|exact Hg|]. apply Hy. right.
  destruct (tcbs waiting16 !! 16) as [c|] eqn:Ec; [|by vm_compute in Ec].
  destruct (tcbs waiting16 !! 100) as [d|] eqn:Ed; [|by vm_compute in Ed].
  exists (Waiter 16 3 true true), c, d. vm_compute in Ec, Ed. injection Ec as <-. injection Ed as <-.
  split_and!; [by vm_compute; left|by vm_compute..].
Defined.

Lemma no_event_missed_witness :
  keeps_promise 8 2000 100 (λ others, perform 2000 true others 10 (WaitBits 4 true false 5) (both 0)) ∧
  ∃ r w', perform 2000 true (λ _, both 0) 10 (WaitBits 4 true false 5) (both 0) = Done (r, w').
Proof.
  destruct caller100 as [c Hc].
  pose proof (no_event_missed 8 2000 true 10 100 (WaitBits 4 true false 5) (both 0) c both_runs Hc ltac:(done)
    ltac:(split_and!; by vm_compute) ltac:(apply Nat.ltb_lt; by vm_compute)) as H.
  split; [exact H|]. destruct H as [(r&w'&E&_)|(w1&rest&_&_&_&E&Hr)]; [exists r, w'; exact (E (λ _, both 0))|].
  destruct (wp_inv _ _ _ (Hr _ both_runs)) as (r&w'&Er&_). exists r, w'. exact (eq_trans (E (λ _, both 0)) Er).
Defined.

Lemma wait_returns_waking_bits_witness : ∃ w',
  xEventGroupWaitBits true (λ _, woken16) id 10 2000 3 true true 5 (World (group 0) KernelDemo.started) = Done (3, w') ∧
  groups w' = groups woken16.
Proof.
  destruct caller16 as [c Hc]. pose proof (reachable_ok _ _ _ _ KernelDemo.started_reachable) as K.
  set (w := World (group 0) KernelDemo.started).
  assert (is_group w 2000 (Group 0 [])) as Hg by by vm_compute.
  assert (pxCurrentTCB (kernel woken16) = 16) as Ht by by vm_compute.
  assert (∃ c2, tcbs (kernel woken16) !! 16 = Some c2 ∧
    xEventListItem c2 = xEventListItem (released (Z.lor 3 eventUNBLOCKED_DUE_TO_BIT_SET) (new_tcb 9))) as (c2&E2&Hi).
  { destruct (tcbs (kernel woken16) !! 16) as [c2|] eqn:E2; [|by vm_compute in E2]. exists c2. split; [done|].
    vm_compute in E2. injection E2 as <-. by vm_compute. }
  pose proof (wait_returns_waking_bits 8 true (λ _, woken16) 10 2000 3 true true 5 c w (Group 0 []) 3 K Hc) as H. cbv zeta in H.
  assert (pxCurrentTCB (kernel w) = 16) as Hw by by vm_compute. rewrite Hw in H.
  unshelve epose proof (wp_inv _ _ _ (H _ _ Hg _ _ _ _ _ _)) as (r&w'&E&->&w1&_&Hg'); [lia|lia|lia|by vm_compute..|lia|by vm_compute| |].
  - intros w1 _. split; [exact Ht|]. exists (new_tcb 9), c2. split; [exact E2|exact Hi].
  - exists w'. split; [exact E|exact Hg'].
Defined.

Lemma rendezvous_completes_witness : ∃ w' w1, xEventGroupSync true id id 10 2000 2 3 5 (both 1) = Done (3, w') ∧
  w' = back id w1 ∧ is_group w1 2000 (Group 0 []).
Proof.
  destruct caller100 as [c Hc].
  pose proof (rendezvous_completes 8 true id 10 2000 2 3 5 c (both 1) _ waiting16_ok Hc ltac:(done) (both_group 1) ltac:(done)
    ltac:(done) ltac:(done) ltac:(done) ltac:(simpl; lia) ltac:(by intros x ->%list_elem_of_singleton) ltac:(done)) as H.
  destruct (wp_inv _ _ _ H) as (r&w'&E&->&w1&->&Hg&_). exists (back id w1), w1. split_and!; [exact E|done|exact Hg].
Defined.
