(* ===== verification/RtosTimers.v ===== *)
(** * Software timers

    [FreeRTOS/Source/timers.c]: the timer task keeps the active timers in two
    lists in the order of their expiry times, one for the times up to the overflow
    of the clock and one for those after it, and the other tasks send it commands
    through a queue.

    The queue, the clock, the heap and the scheduler are a table of operations;
    [callback] and [pended] run the functions that the application has given. Static
    allocation and the start-up hook are configured off; the queue registry and the
    tracing, which only a debugger reads, are left out, and critical sections are not
    interrupted. *)

From Stdlib Require Import ZArith Lia.
From Stdlib Require Import Sorting.Sorted.
From stdpp Require Import functions gmap list.
From S2P Require Import Prelude RtosList RtosSched.
Local Open Scope Z_scope.

(** ** Data *)

Definition tmrNO_DELAY : Z := 0.
Definition tmrMAX_TIME_BEFORE_OVERFLOW : Z := 2 ^ 32 - 1.
Definition tmrSTATUS_IS_ACTIVE : Z := 0x01.
Definition tmrSTATUS_IS_STATICALLY_ALLOCATED : Z := 0x02.
Definition tmrSTATUS_IS_AUTORELOAD : Z := 0x04.

Definition tmrCOMMAND_EXECUTE_CALLBACK_FROM_ISR : Z := -2.
Definition tmrCOMMAND_EXECUTE_CALLBACK : Z := -1.
Definition tmrCOMMAND_START : Z := 1.
Definition tmrCOMMAND_RESET : Z := 2.
Definition tmrCOMMAND_STOP : Z := 3.
Definition tmrCOMMAND_CHANGE_PERIOD : Z := 4.
Definition tmrCOMMAND_DELETE : Z := 5.
Definition tmrFIRST_FROM_ISR_COMMAND : Z := 6.
Definition tmrCOMMAND_START_FROM_ISR : Z := 6.
Definition tmrCOMMAND_RESET_FROM_ISR : Z := 7.
Definition tmrCOMMAND_STOP_FROM_ISR : Z := 8.
Definition tmrCOMMAND_CHANGE_PERIOD_FROM_ISR : Z := 9.

Definition configTIMER_TASK_PRIORITY : Z := 2.
Definition configTIMER_QUEUE_LENGTH : Z := 10.
Definition sizeof_Timer_t : Z := 44.
Definition sizeof_DaemonTaskMessage_t : Z := 16.

Inductive timer_list := xActiveTimerList1 | xActiveTimerList2.
#[export] Instance timer_list_eq_dec : EqDecision timer_list.
Proof. solve_decision. Defined.

(** The list item's value is the expiry time; its owner is the timer itself. The
    trace number is indeterminate until it is set. *)
Record Timer_t := Timer {
  pcTimerName : Z;
  expiry : Z;
  timer_container : option timer_list;
  xTimerPeriodInTicks : Z;
  pvTimerID : Z;
  pxCallbackFunction : Z;
  uxTimerNumber : option Z;
  ucStatus : Z;
}.

Definition with_expiry (x : Z) (c : Timer_t) : Timer_t :=
  Timer (pcTimerName c) x (timer_container c) (xTimerPeriodInTicks c) (pvTimerID c) (pxCallbackFunction c) (uxTimerNumber c) (ucStatus c).
Definition with_container (x : option timer_list) (c : Timer_t) : Timer_t :=
  Timer (pcTimerName c) (expiry c) x (xTimerPeriodInTicks c) (pvTimerID c) (pxCallbackFunction c) (uxTimerNumber c) (ucStatus c).
Definition with_period (x : Z) (c : Timer_t) : Timer_t :=
  Timer (pcTimerName c) (expiry c) (timer_container c) x (pvTimerID c) (pxCallbackFunction c) (uxTimerNumber c) (ucStatus c).
Definition with_id (x : Z) (c : Timer_t) : Timer_t :=
  Timer (pcTimerName c) (expiry c) (timer_container c) (xTimerPeriodInTicks c) x (pxCallbackFunction c) (uxTimerNumber c) (ucStatus c).
Definition with_number (x : Z) (c : Timer_t) : Timer_t :=
  Timer (pcTimerName c) (expiry c) (timer_container c) (xTimerPeriodInTicks c) (pvTimerID c) (pxCallbackFunction c) (Some x) (ucStatus c).
Definition with_status (x : Z) (c : Timer_t) : Timer_t :=
  Timer (pcTimerName c) (expiry c) (timer_container c) (xTimerPeriodInTicks c) (pvTimerID c) (pxCallbackFunction c) (uxTimerNumber c) x.

(** A flag of [ucStatus], tested, set and cleared. *)
Definition has_flag (m : Z) (c : Timer_t) : bool := negb (Z.land (ucStatus c) m =? 0).
Definition set_flag (m : Z) (c : Timer_t) : Timer_t := with_status (Z.lor (ucStatus c) m) c.
Definition clear_flag (m : Z) (c : Timer_t) : Timer_t := with_status (Z.land (ucStatus c) (Z.lnot m)) c.

(** The union of a message. *)
Inductive message_union :=
  | xTimerParameters (xMessageValue pxTimer : Z)
  | xCallbackParameters (pxCallbackFunction pvParameter1 ulParameter2 : Z).
Record DaemonTaskMessage_t := Message { xMessageID : Z; message_u : message_union }.

(** What [timers.c] uses of the rest of the kernel; there is one timer queue. *)
Record timer_ops (K : Type) := TimerOps {
  pvPortMalloc : Z → K → Z * K;
  vPortFree : Z → K → K;
  xQueueCreate : Z → Z → K → Z * K;
  xQueueSendToBack : DaemonTaskMessage_t → Z → K → bool * K;
  xQueueSendToBackFromISR : DaemonTaskMessage_t → option bool → K → bool * option bool * K;
  xQueueReceive : Z → K → option DaemonTaskMessage_t * K;
  vQueueWaitForMessageRestricted : Z → bool → K → K;
  xTaskGetTickCount : K → Z;
  scheduler_running : K → bool;
  vTaskSuspendAll : K → K;
  xTaskResumeAll : K → bool * K;
  taskYIELD_WITHIN_API : K → K;
  xTaskCreate : Z → K → option Z * K;
}.
Arguments pvPortMalloc {K}. Arguments vPortFree {K}. Arguments xQueueCreate {K}. Arguments xQueueSendToBack {K}.
Arguments xQueueSendToBackFromISR {K}. Arguments xQueueReceive {K}. Arguments vQueueWaitForMessageRestricted {K}.
Arguments xTaskGetTickCount {K}. Arguments scheduler_running {K}. Arguments vTaskSuspendAll {K}.
Arguments xTaskResumeAll {K}. Arguments taskYIELD_WITHIN_API {K}. Arguments xTaskCreate {K}.

(** The variables of the file; [xLastTime] is local to [prvSampleTimeNow]. *)
Record daemon (K : Type) := Daemon {
  timers : gmap Z Timer_t;
  lists : timer_list → zipper Z;
  pxCurrentTimerList : timer_list;
  pxOverflowTimerList : timer_list;
  xTimerQueue : Z;
  xTimerTaskHandle : Z;
  xLastTime : Z;
  tasks : K;
}.
Arguments Daemon {K}. Arguments timers {K}. Arguments lists {K}. Arguments pxCurrentTimerList {K}.
Arguments pxOverflowTimerList {K}. Arguments xTimerQueue {K}. Arguments xTimerTaskHandle {K}. Arguments xLastTime {K}.
Arguments tasks {K}.

Section setters.
Context {K : Type}.
Local Abbreviation W := (daemon K).
Definition with_timers (x : gmap Z Timer_t) (w : W) : W :=
  Daemon x (lists w) (pxCurrentTimerList w) (pxOverflowTimerList w) (xTimerQueue w) (xTimerTaskHandle w) (xLastTime w) (tasks w).
Definition with_lists (x : timer_list → zipper Z) (w : W) : W :=
  Daemon (timers w) x (pxCurrentTimerList w) (pxOverflowTimerList w) (xTimerQueue w) (xTimerTaskHandle w) (xLastTime w) (tasks w).
Definition with_list_pointers (x y : timer_list) (w : W) : W :=
  Daemon (timers w) (lists w) x y (xTimerQueue w) (xTimerTaskHandle w) (xLastTime w) (tasks w).
Definition with_queue (x : Z) (w : W) : W :=
  Daemon (timers w) (lists w) (pxCurrentTimerList w) (pxOverflowTimerList w) x (xTimerTaskHandle w) (xLastTime w) (tasks w).
Definition with_handle (x : Z) (w : W) : W :=
  Daemon (timers w) (lists w) (pxCurrentTimerList w) (pxOverflowTimerList w) (xTimerQueue w) x (xLastTime w) (tasks w).
Definition with_last_time (x : Z) (w : W) : W :=
  Daemon (timers w) (lists w) (pxCurrentTimerList w) (pxOverflowTimerList w) (xTimerQueue w) (xTimerTaskHandle w) x (tasks w).
Definition with_tasks (x : K) (w : W) : W :=
  Daemon (timers w) (lists w) (pxCurrentTimerList w) (pxOverflowTimerList w) (xTimerQueue w) (xTimerTaskHandle w) (xLastTime w) x.
End setters.

(** ** Operations *)

Section operations.
Context {K : Type} (os : timer_ops K) (asserts : bool).
Local Abbreviation W := (daemon K).
Context (callback : Z → Z → ST W unit) (pended : Z → Z → Z → ST W unit).
Context (fuel : nat).
(** What the memory of a new timer holds where the expiry time is kept. *)
Context (stale : Z → Z).

Definition call {A} (f : K → A * K) : ST W A := λ w, let '(a, k) := f (tasks w) in Done (a, with_tasks k w).
Definition run (f : K → K) : ST W unit := modify (λ w, with_tasks (f (tasks w)) w).
Definition configASSERT (b : bool) : ST W unit := if asserts && negb b then lift Fault else mret tt.
Definition get_timer (t : Z) : ST W Timer_t :=
  m ← gets timers; match m !! t with Some c => mret c | None => lift Fault end.
Definition upd_timer (t : Z) (f : Timer_t → Timer_t) : ST W unit :=
  c ← get_timer t; modify (λ w, with_timers (<[t := f c]> (timers w)) w).

(** The list operations, as in [RtosList]. *)
Definition expiry_of (w : W) (t : Z) : Z := match timers w !! t with Some c => expiry c | None => 0 end.
Definition vListInsert (l : timer_list) (t : Z) : ST W unit :=
  upd_timer t (with_container (Some l));;
  modify (λ w, with_lists (<[l := z_insert (expiry_of w) t (lists w l)]> (lists w)) w).
Definition uxListRemove (t : Z) : ST W unit :=
  c ← get_timer t;
  match timer_container c with
  | None => lift Fault
  | Some l =>
      upd_timer t (with_container None);;
      modify (λ w, with_lists (<[l := z_remove t (lists w l)]> (lists w)) w)
  end.
Definition head_of (l : timer_list) : ST W (option Z) := w ← gets id; mret (head (z_items (lists w l))).

Definition prvCheckForValidListAndQueue : ST W unit :=
  w ← gets id;
  if xTimerQueue w =? 0 then
    modify (with_lists (λ _, z_empty));;
    modify (with_list_pointers xActiveTimerList1 xActiveTimerList2);;
    q ← call (xQueueCreate os configTIMER_QUEUE_LENGTH sizeof_DaemonTaskMessage_t);
    modify (with_queue q)
  else mret tt.

Definition xTimerCreateTimerTask : ST W bool :=
  prvCheckForValidListAndQueue;;
  w ← gets id;
  xReturn ← (
    if negb (xTimerQueue w =? 0) then
      h ← call (xTaskCreate os configTIMER_TASK_PRIORITY);
      match h with Some h => modify (with_handle h);; mret true | None => mret false end
    else mret false);
  configASSERT xReturn;;
  mret xReturn.

(** [prvInitialiseNewTimer], whose structure has been set to [ucStatus] alone. *)
Definition prvInitialiseNewTimer (name period : Z) (xAutoReload : bool) (timer_id cb pxNewTimer : Z) : ST W unit :=
  configASSERT (0 <? period);;
  prvCheckForValidListAndQueue;;
  let c := Timer name (stale pxNewTimer) None period timer_id cb None 0 in
  modify (λ w, with_timers (<[pxNewTimer := if xAutoReload then set_flag tmrSTATUS_IS_AUTORELOAD c else c]> (timers w)) w).

Definition xTimerCreate (name period : Z) (xAutoReload : bool) (timer_id cb : Z) : ST W Z :=
  pxNewTimer ← call (pvPortMalloc os sizeof_Timer_t);
  (if negb (pxNewTimer =? 0) then prvInitialiseNewTimer name period xAutoReload timer_id cb pxNewTimer else mret tt);;
  mret pxNewTimer.

Definition xTimerGenericCommandFromTask (xTimer xCommandID xOptionalValue xTicksToWait : Z) : ST W bool :=
  configASSERT (negb (xTimer =? 0));;
  w ← gets id;
  if negb (xTimerQueue w =? 0) then
    let xMessage := Message xCommandID (xTimerParameters xOptionalValue xTimer) in
    configASSERT (xCommandID <? tmrFIRST_FROM_ISR_COMMAND);;
    if xCommandID <? tmrFIRST_FROM_ISR_COMMAND then
      if scheduler_running os (tasks w) then call (xQueueSendToBack os xMessage xTicksToWait)
      else call (xQueueSendToBack os xMessage tmrNO_DELAY)
    else mret false
  else mret false.

Definition xTimerGenericCommandFromISR (xTimer xCommandID xOptionalValue : Z) (pxHigherPriorityTaskWoken : option bool) :
    ST W (bool * option bool) :=
  configASSERT (negb (xTimer =? 0));;
  w ← gets id;
  if negb (xTimerQueue w =? 0) then
    let xMessage := Message xCommandID (xTimerParameters xOptionalValue xTimer) in
    configASSERT (tmrFIRST_FROM_ISR_COMMAND <=? xCommandID);;
    if tmrFIRST_FROM_ISR_COMMAND <=? xCommandID then call (xQueueSendToBackFromISR os xMessage pxHigherPriorityTaskWoken)
    else mret (false, pxHigherPriorityTaskWoken)
  else mret (false, pxHigherPriorityTaskWoken).

(** The macros of [timers.h]. *)
Definition xTimerStart (xTimer xTicksToWait : Z) : ST W bool :=
  now ← gets (λ w, xTaskGetTickCount os (tasks w));
  xTimerGenericCommandFromTask xTimer tmrCOMMAND_START now xTicksToWait.
Definition xTimerStop (xTimer xTicksToWait : Z) : ST W bool :=
  xTimerGenericCommandFromTask xTimer tmrCOMMAND_STOP 0 xTicksToWait.
Definition xTimerChangePeriod (xTimer xNewPeriod xTicksToWait : Z) : ST W bool :=
  xTimerGenericCommandFromTask xTimer tmrCOMMAND_CHANGE_PERIOD xNewPeriod xTicksToWait.
Definition xTimerDelete (xTimer xTicksToWait : Z) : ST W bool :=
  xTimerGenericCommandFromTask xTimer tmrCOMMAND_DELETE 0 xTicksToWait.
Definition xTimerReset (xTimer xTicksToWait : Z) : ST W bool :=
  now ← gets (λ w, xTaskGetTickCount os (tasks w));
  xTimerGenericCommandFromTask xTimer tmrCOMMAND_RESET now xTicksToWait.
Definition xTimerStartFromISR (xTimer : Z) (pxHigherPriorityTaskWoken : option bool) : ST W (bool * option bool) :=
  now ← gets (λ w, xTaskGetTickCount os (tasks w));
  xTimerGenericCommandFromISR xTimer tmrCOMMAND_START_FROM_ISR now pxHigherPriorityTaskWoken.
Definition xTimerStopFromISR (xTimer : Z) (pxHigherPriorityTaskWoken : option bool) : ST W (bool * option bool) :=
  xTimerGenericCommandFromISR xTimer tmrCOMMAND_STOP_FROM_ISR 0 pxHigherPriorityTaskWoken.
Definition xTimerChangePeriodFromISR (xTimer xNewPeriod : Z) (pxHigherPriorityTaskWoken : option bool) : ST W (bool * option bool) :=
  xTimerGenericCommandFromISR xTimer tmrCOMMAND_CHANGE_PERIOD_FROM_ISR xNewPeriod pxHigherPriorityTaskWoken.
Definition xTimerResetFromISR (xTimer : Z) (pxHigherPriorityTaskWoken : option bool) : ST W (bool * option bool) :=
  now ← gets (λ w, xTaskGetTickCount os (tasks w));
  xTimerGenericCommandFromISR xTimer tmrCOMMAND_RESET_FROM_ISR now pxHigherPriorityTaskWoken.

(** Reading and writing a timer's fields. *)
Definition checked (xTimer : Z) : ST W Timer_t := configASSERT (negb (xTimer =? 0));; get_timer xTimer.
Definition xTimerGetTimerDaemonTaskHandle : ST W Z :=
  h ← gets xTimerTaskHandle; configASSERT (negb (h =? 0));; mret h.
Definition xTimerGetPeriod (xTimer : Z) : ST W Z := c ← checked xTimer; mret (xTimerPeriodInTicks c).
Definition vTimerSetReloadMode (xTimer : Z) (xAutoReload : bool) : ST W unit :=
  checked xTimer;;
  upd_timer xTimer (if xAutoReload then set_flag tmrSTATUS_IS_AUTORELOAD else clear_flag tmrSTATUS_IS_AUTORELOAD).
Definition xTimerGetReloadMode (xTimer : Z) : ST W bool := c ← checked xTimer; mret (has_flag tmrSTATUS_IS_AUTORELOAD c).
Definition uxTimerGetReloadMode (xTimer : Z) : ST W Z := r ← xTimerGetReloadMode xTimer; mret (Z.b2z r).
Definition xTimerGetExpiryTime (xTimer : Z) : ST W Z := c ← checked xTimer; mret (expiry c).
Definition pcTimerGetName (xTimer : Z) : ST W Z := c ← checked xTimer; mret (pcTimerName c).
Definition xTimerIsTimerActive (xTimer : Z) : ST W bool := c ← checked xTimer; mret (has_flag tmrSTATUS_IS_ACTIVE c).
Definition pvTimerGetTimerID (xTimer : Z) : ST W Z := c ← checked xTimer; mret (pvTimerID c).
Definition vTimerSetTimerID (xTimer pvNewID : Z) : ST W unit := checked xTimer;; upd_timer xTimer (with_id pvNewID).
Definition uxTimerGetTimerNumber (xTimer : Z) : ST W Z :=
  c ← get_timer xTimer; match uxTimerNumber c with Some n => mret n | None => lift Fault end.
Definition vTimerSetTimerNumber (xTimer n : Z) : ST W unit := upd_timer xTimer (with_number n).
Definition vTimerResetState : ST W unit := modify (with_queue 0);; modify (with_handle 0).

Definition xTimerPendFunctionCallFromISR (xFunctionToPend pvParameter1 ulParameter2 : Z)
    (pxHigherPriorityTaskWoken : option bool) : ST W (bool * option bool) :=
  call (xQueueSendToBackFromISR os
    (Message tmrCOMMAND_EXECUTE_CALLBACK_FROM_ISR (xCallbackParameters xFunctionToPend pvParameter1 ulParameter2))
    pxHigherPriorityTaskWoken).
Definition xTimerPendFunctionCall (xFunctionToPend pvParameter1 ulParameter2 xTicksToWait : Z) : ST W bool :=
  w ← gets id;
  configASSERT (negb (xTimerQueue w =? 0));;
  call (xQueueSendToBack os
    (Message tmrCOMMAND_EXECUTE_CALLBACK (xCallbackParameters xFunctionToPend pvParameter1 ulParameter2)) xTicksToWait).

(** *** The timer task *)

(** [pxTimer->pxCallbackFunction (pxTimer)] *)
Definition call_timer (pxTimer : Z) : ST W unit := c ← get_timer pxTimer; callback (pxCallbackFunction c) pxTimer.

Definition prvInsertTimerInActiveList (pxTimer xNextExpiryTime xTimeNow xCommandTime : Z) : ST W bool :=
  upd_timer pxTimer (with_expiry xNextExpiryTime);;
  c ← get_timer pxTimer;
  w ← gets id;
  if xNextExpiryTime <=? xTimeNow then
    if xTimerPeriodInTicks c <=? u32 (xTimeNow - xCommandTime) then mret true
    else vListInsert (pxOverflowTimerList w) pxTimer;; mret false
  else
    if (xTimeNow <? xCommandTime) && (xCommandTime <=? xNextExpiryTime) then mret true
    else vListInsert (pxCurrentTimerList w) pxTimer;; mret false.

Fixpoint reload_loop (n : nat) (pxTimer xExpiredTime xTimeNow : Z) : ST W unit :=
  match n with
  | O => diverge
  | S n =>
      c ← get_timer pxTimer;
      again ← prvInsertTimerInActiveList pxTimer (u32 (xExpiredTime + xTimerPeriodInTicks c)) xTimeNow xExpiredTime;
      if again : bool then
        c ← get_timer pxTimer;
        call_timer pxTimer;;
        reload_loop n pxTimer (u32 (xExpiredTime + xTimerPeriodInTicks c)) xTimeNow
      else mret tt
  end.
Definition prvReloadTimer (pxTimer xExpiredTime xTimeNow : Z) : ST W unit := reload_loop fuel pxTimer xExpiredTime xTimeNow.

(** The end of a wait: the next expiry, or the end of the timer's activity, and the call. *)
Definition expire (pxTimer xExpiredTime xTimeNow : Z) : ST W unit :=
  c ← get_timer pxTimer;
  (if has_flag tmrSTATUS_IS_AUTORELOAD c then prvReloadTimer pxTimer xExpiredTime xTimeNow
   else upd_timer pxTimer (clear_flag tmrSTATUS_IS_ACTIVE));;
  call_timer pxTimer.

Definition prvProcessExpiredTimer (xNextExpireTime xTimeNow : Z) : ST W unit :=
  w ← gets id;
  head ← head_of (pxCurrentTimerList w);
  match head with
  | None => lift Fault
  | Some pxTimer =>
      uxListRemove pxTimer;;
      expire pxTimer xNextExpireTime xTimeNow
  end.

Fixpoint switch_loop (n : nat) : ST W unit :=
  match n with
  | O => diverge
  | S n =>
      w ← gets id;
      head ← head_of (pxCurrentTimerList w);
      match head with
      | None => mret tt
      | Some t =>
          c ← get_timer t;
          prvProcessExpiredTimer (expiry c) tmrMAX_TIME_BEFORE_OVERFLOW;;
          switch_loop n
      end
  end.
Definition prvSwitchTimerLists : ST W unit :=
  switch_loop fuel;;
  modify (λ w, with_list_pointers (pxOverflowTimerList w) (pxCurrentTimerList w) w).

(** The time and [*pxTimerListsWereSwitched]. *)
Definition prvSampleTimeNow : ST W (Z * bool) :=
  w ← gets id;
  let xTimeNow := xTaskGetTickCount os (tasks w) in
  switched ← (if xTimeNow <? xLastTime w then prvSwitchTimerLists;; mret true else mret false);
  modify (with_last_time xTimeNow);;
  mret (xTimeNow, switched).

(** The time and [*pxListWasEmpty]. *)
Definition prvGetNextExpireTime : ST W (Z * bool) :=
  w ← gets id;
  head ← head_of (pxCurrentTimerList w);
  match head with
  | Some t => c ← get_timer t; mret (expiry c, false)
  | None => mret (0, true)
  end.

Definition prvProcessTimerOrBlockTask (xNextExpireTime : Z) (xListWasEmpty : bool) : ST W unit :=
  run (vTaskSuspendAll os);;
  '(xTimeNow, xTimerListsWereSwitched) ← prvSampleTimeNow;
  if negb xTimerListsWereSwitched then
    if negb xListWasEmpty && (xNextExpireTime <=? xTimeNow) then
      call (xTaskResumeAll os);;
      prvProcessExpiredTimer xNextExpireTime xTimeNow
    else
      w ← gets id;
      head ← head_of (pxOverflowTimerList w);
      let xListWasEmpty := if xListWasEmpty then bool_decide (head = None) else false in
      run (vQueueWaitForMessageRestricted os (u32 (xNextExpireTime - xTimeNow)) xListWasEmpty);;
      yielded ← call (xTaskResumeAll os);
      if yielded : bool then mret tt else run (taskYIELD_WITHIN_API os)
  else call (xTaskResumeAll os);; mret tt.

(** A timer command, once the timer has left its list. *)
Definition timer_command (xMessageID xMessageValue pxTimer xTimeNow : Z) : ST W unit :=
  if bool_decide (xMessageID ∈ [tmrCOMMAND_START; tmrCOMMAND_START_FROM_ISR; tmrCOMMAND_RESET; tmrCOMMAND_RESET_FROM_ISR]) then
    upd_timer pxTimer (set_flag tmrSTATUS_IS_ACTIVE);;
    c ← get_timer pxTimer;
    let xExpiry := u32 (xMessageValue + xTimerPeriodInTicks c) in
    expired ← prvInsertTimerInActiveList pxTimer xExpiry xTimeNow xMessageValue;
    if expired : bool then expire pxTimer xExpiry xTimeNow else mret tt
  else if bool_decide (xMessageID ∈ [tmrCOMMAND_STOP; tmrCOMMAND_STOP_FROM_ISR]) then
    upd_timer pxTimer (clear_flag tmrSTATUS_IS_ACTIVE)
  else if bool_decide (xMessageID ∈ [tmrCOMMAND_CHANGE_PERIOD; tmrCOMMAND_CHANGE_PERIOD_FROM_ISR]) then
    upd_timer pxTimer (set_flag tmrSTATUS_IS_ACTIVE);;
    upd_timer pxTimer (with_period xMessageValue);;
    configASSERT (0 <? xMessageValue);;
    prvInsertTimerInActiveList pxTimer (u32 (xTimeNow + xMessageValue)) xTimeNow xTimeNow;;
    mret tt
  else if xMessageID =? tmrCOMMAND_DELETE then
    c ← get_timer pxTimer;
    if negb (has_flag tmrSTATUS_IS_STATICALLY_ALLOCATED c) then
      modify (λ w, with_timers (delete pxTimer (timers w)) w);;
      run (vPortFree os pxTimer)
    else upd_timer pxTimer (clear_flag tmrSTATUS_IS_ACTIVE)
  else mret tt.

Definition process_message (m : DaemonTaskMessage_t) : ST W unit :=
  if xMessageID m <? 0 then
    match message_u m with xCallbackParameters f p1 p2 => pended f p1 p2 | xTimerParameters _ _ => lift Fault end
  else
    match message_u m with
    | xTimerParameters xMessageValue pxTimer =>
        c ← get_timer pxTimer;
        (match timer_container c with Some _ => uxListRemove pxTimer | None => mret tt end);;
        '(xTimeNow, _) ← prvSampleTimeNow;
        timer_command (xMessageID m) xMessageValue pxTimer xTimeNow
    | xCallbackParameters _ _ _ => lift Fault
    end.

Fixpoint receive_loop (n : nat) : ST W unit :=
  match n with
  | O => diverge
  | S n =>
      xMessage ← call (xQueueReceive os tmrNO_DELAY);
      match xMessage with
      | None => mret tt
      | Some m => process_message m;; receive_loop n
      end
  end.
Definition prvProcessReceivedCommands : ST W unit := receive_loop fuel.

(** One round of the loop of [prvTimerTask]. *)
Definition prvTimerTask_round : ST W unit :=
  '(xNextExpireTime, xListWasEmpty) ← prvGetNextExpireTime;
  prvProcessTimerOrBlockTask xNextExpireTime xListWasEmpty;;
  prvProcessReceivedCommands.
End operations.

(** ** Time without overflow

    The clock counts modulo the width of [TickType_t]; [e] is how often it has
    overflowed, and a time is what the clock would show if it had not. *)

Definition epoch (T : Z) : Z := T / 2 ^ 32.

(** The list for the time [D], and the timer at [t] put there. *)
Definition list_for {K} (e D : Z) (w : daemon K) : timer_list :=
  if epoch D =? e then pxCurrentTimerList w else pxOverflowTimerList w.
Definition put {K} (e t D : Z) (c : Timer_t) (w : daemon K) : daemon K :=
  let l := list_for e D w in
  let w1 := with_timers (<[t := with_container (Some l) (with_expiry (u32 D) c)]> (timers w)) w in
  with_lists (<[l := z_insert (expiry_of w1) t (lists w l)]> (lists w)) w1.

(** When a timer expires. *)
Definition due {K} (e : Z) (w : daemon K) (t : Z) : option Z :=
  c ← timers w !! t;
  l ← timer_container c;
  Some ((if decide (l = pxCurrentTimerList w) then e else e + 1) * 2 ^ 32 + expiry c).

(** Lists, containers and expiry times agree. *)
Record listed {K} (w : daemon K) : Prop := {
  listed_pointers : pxCurrentTimerList w ≠ pxOverflowTimerList w;
  listed_nodup l : NoDup (z_items (lists w l));
  listed_member l t : t ∈ z_items (lists w l) ↔ ∃ c, timers w !! t = Some c ∧ timer_container c = Some l;
  listed_sorted l : StronglySorted (λ t u, expiry_of w t <= expiry_of w u) (z_items (lists w l));
  listed_range t c : timers w !! t = Some c → timer_container c ≠ None → is_u32 (expiry c);
  listed_period t c : timers w !! t = Some c → 0 < xTimerPeriodInTicks c < 2 ^ 32;
}.

Section steps.
Context {K : Type} {D : Prop}.
Local Abbreviation W := (daemon K).

Lemma wp_get_timer t c Q (w : W) : timers w !! t = Some c → Q c w → wp D (get_timer t) Q w.
Proof. intros E HQ. apply wp_bind, wp_gets. rewrite E. by apply wp_ret. Qed.

Lemma wp_upd_timer t c f Q (w : W) : timers w !! t = Some c → Q tt (with_timers (<[t := f c]> (timers w)) w) →
  wp D (upd_timer t f) Q w.
Proof. intros E HQ. apply wp_bind. eapply wp_get_timer; [done|]. by apply wp_modify. Qed.

(** The comparisons of [prvInsertTimerInActiveList] decide whether the time
    [C + p] has passed at [T], and if not, on which side of the overflow it is. *)
Lemma insert_tests C T p : 0 <= C <= T → T - C < 2 ^ 32 → 0 < p < 2 ^ 32 →
  let next := u32 (C + p) in
  if next <=? u32 T then (p <=? u32 (u32 T - u32 C)) = (C + p <=? T) ∧ (T < C + p → epoch (C + p) ≠ epoch T)
  else ((u32 T <? u32 C) && (u32 C <=? next)) = (C + p <=? T) ∧ (T < C + p → epoch (C + p) = epoch T).
Proof.
  intros HC HT Hp next. unfold next, u32, epoch.
  pose proof (Z.div_mod C (2 ^ 32) ltac:(lia)). pose proof (Z.mod_pos_bound C (2 ^ 32) ltac:(lia)).
  pose proof (Z.div_mod T (2 ^ 32) ltac:(lia)). pose proof (Z.mod_pos_bound T (2 ^ 32) ltac:(lia)).
  pose proof (Z.div_mod (C + p) (2 ^ 32) ltac:(lia)). pose proof (Z.mod_pos_bound (C + p) (2 ^ 32) ltac:(lia)).
  assert ((T mod 2 ^ 32 - C mod 2 ^ 32) mod 2 ^ 32 = T - C) as ->.
  { symmetry. apply Z.mod_unique with (C / 2 ^ 32 - T / 2 ^ 32); lia. }
  set (c := C mod 2 ^ 32) in *. set (t := T mod 2 ^ 32) in *. set (n := (C + p) mod 2 ^ 32) in *.
  set (ec := C / 2 ^ 32) in *. set (et := T / 2 ^ 32) in *. set (en := (C + p) / 2 ^ 32) in *.
  destruct (Z.leb_spec n t), (Z.leb_spec (C + p) T), (Z.leb_spec p (T - C)), (Z.ltb_spec t c), (Z.leb_spec c n);
    simpl; split; try lia.
Qed.
End steps.

(** ** Into a list and out of it *)

Section lists.
Context {K : Type}.
Local Abbreviation W := (daemon K).

Definition unlinked (t : Z) (c : Timer_t) (w : W) : W :=
  match timer_container c with
  | None => w
  | Some l => with_lists (<[l := z_remove t (lists w l)]> (lists w))
      (with_timers (<[t := with_container None c]> (timers w)) w)
  end.

Lemma wp_unlink {D : Prop} t c l Q (w : W) : timers w !! t = Some c → timer_container c = Some l →
  Q tt (unlinked t c w) → wp D (uxListRemove t) Q w.
Proof.
  intros E El HQ. unfold unlinked in HQ. apply wp_bind. eapply wp_get_timer; [done|]. rewrite El in HQ |- *.
  apply wp_bind. eapply wp_upd_timer; [done|]. by apply wp_modify.
Qed.

Lemma wp_insert_timer {D : Prop} t c C T Q (w : W) : timers w !! t = Some c → 0 < xTimerPeriodInTicks c < 2 ^ 32 →
  0 <= C <= T → T - C < 2 ^ 32 → let X := C + xTimerPeriodInTicks c in
  (X <= T → Q true (with_timers (<[t := with_expiry (u32 X) c]> (timers w)) w)) →
  (T < X → Q false (put (epoch T) t X c w)) →
  wp D (prvInsertTimerInActiveList t (u32 X) (u32 T) (u32 C)) Q w.
Proof.
  intros E Hp HC HT X H1 H2. set (c1 := with_expiry (u32 X) c) in *. set (w1 := with_timers (<[t := c1]> (timers w)) w) in *.
  assert (timers w1 !! t = Some c1) as E1 by apply lookup_insert_eq.
  apply wp_bind. eapply wp_upd_timer; [exact E|]. fold c1. fold w1.
  apply wp_bind. eapply wp_get_timer; [exact E1|]. apply wp_bind, wp_gets. change (id w1) with w1.
  change (xTimerPeriodInTicks c1) with (xTimerPeriodInTicks c).
  pose proof (insert_tests C T (xTimerPeriodInTicks c) HC HT Hp) as Htest. cbv zeta in Htest. fold X in Htest.
  assert (T < X → ∀ l, l = list_for (epoch T) X w → wp D (vListInsert l t;; mret false) Q w1) as Hput.
  { intros Hlt l Hl. apply wp_bind, wp_bind. eapply wp_upd_timer; [exact E1|]. apply wp_modify, wp_ret.
    specialize (H2 Hlt). unfold put in H2. rewrite <- Hl in H2. simpl. by rewrite insert_insert_eq. }
  unfold list_for in Hput. destruct (Z.leb_spec (u32 X) (u32 T)); destruct Htest as [Ht He].
  - rewrite Ht. destruct (Z.leb_spec X T); [by apply wp_ret, H1|]. apply Hput; [done|].
    by rewrite (proj2 (Z.eqb_neq _ _)) by auto.
  - rewrite Ht. destruct (Z.leb_spec X T); [by apply wp_ret, H1|]. apply Hput; [done|].
    by rewrite (proj2 (Z.eqb_eq _ _)) by auto.
Qed.

Lemma list_for_pointer e X (w : W) : list_for e X w = pxCurrentTimerList w ∨ list_for e X w = pxOverflowTimerList w.
Proof. unfold list_for. case_match; auto. Qed.

Lemma put_lookup e t X c (w : W) u : timers (put e t X c w) !! u =
  if decide (u = t) then Some (with_container (Some (list_for e X w)) (with_expiry (u32 X) c)) else timers w !! u.
Proof. unfold put. simpl. case_decide; subst; [by rewrite lookup_insert_eq|by rewrite lookup_insert_ne by done]. Qed.

Lemma listed_absent t c (w : W) l : listed w → timers w !! t = Some c → timer_container c = None → t ∉ z_items (lists w l).
Proof. intros H E Hn (d&Ed&Hd)%(listed_member _ H). by simplify_eq. Qed.

Lemma listed_put e t X c (w : W) : listed w → timers w !! t = Some c → timer_container c = None →
  listed (put e t X c w).
Proof.
  intros HL E Hn. pose proof HL as [H1 H2 H3 H4 H5 H6]. set (l := list_for e X w).
  assert (∀ l', t ∉ z_items (lists w l')) as Ht by (intros l'; by eapply listed_absent).
  assert (∀ u, u ≠ t → expiry_of (put e t X c w) u = expiry_of w u) as Hv.
  { intros u Hu. unfold expiry_of. by rewrite put_lookup, decide_False. }
  assert (∀ u l', u ∈ z_items (lists w l') → is_u32 (expiry_of w u)) as Hr.
  { intros u l' (d&Ed&Hd)%H3. unfold expiry_of. rewrite Ed. eapply H5; [done|congruence]. }
  assert (∀ l', z_items (lists (put e t X c w) l') ≡ₚ if decide (l' = l) then t :: z_items (lists w l') else z_items (lists w l')) as Hz.
  { intros l'. unfold put. cbn [lists with_lists]. fold l. case_decide; subst.
    - rewrite fn_lookup_insert. apply z_items_insert_perm.
    - by rewrite fn_lookup_insert_ne. }
  split.
  - exact H1.
  - intros l'. rewrite Hz. case_decide; [|done]. by apply NoDup_cons.
  - intros l' u. rewrite Hz, put_lookup. fold l. case_decide as Hl; subst; [rewrite elem_of_cons|]; rewrite ?H3; case_decide as Hu; subst.
    + split; [intros _; by eexists|by left].
    + split; [by intros [?|?]|by right].
    + split.
      * intros (d&Ed&Hd). by simplify_eq.
      * intros (d&Ed&Hd). simplify_eq/=.
    + done.
  - intros l'. destruct (decide (l' = l)) as [->|Hne].
    + set (w1 := with_timers (<[t := with_container (Some l) (with_expiry (u32 X) c)]> (timers w)) w).
      assert (lists (put e t X c w) l = z_insert (expiry_of w1) t (lists w l)) as ->.
      { unfold put. cbn [lists with_lists]. fold l. by rewrite fn_lookup_insert. }
      change (StronglySorted (λ a b, expiry_of w1 a <= expiry_of w1 b) (z_items (z_insert (expiry_of w1) t (lists w l)))).
      rewrite z_items_insert. assert (∀ u, u ≠ t → expiry_of w1 u = expiry_of w u) as Hv1 by exact Hv.
      pose proof (place_app (expiry_of w1) (expiry_of w1 t) (z_items (lists w l))) as Happ.
      destruct (place_bounds (expiry_of w1) (expiry_of w1 t) (z_items (lists w l))) as [Hx Hy].
      { apply list.Forall_forall. intros x Hx. rewrite Hv1 by (intros ->; by eapply Ht). by eapply Hr. }
      destruct (place _ _ _) as [xs ys]. simpl in *. apply (sorted_middle (expiry_of w1)); [done..|]. rewrite Happ.
      eapply sorted_sublist; [reflexivity| |apply H4]. intros a b Ha Hb. simpl.
      rewrite !Hv1; [done|intros ->; by eapply Ht..].
    + assert (lists (put e t X c w) l' = lists w l') as ->.
      { unfold put. cbn [lists with_lists]. fold l. by rewrite fn_lookup_insert_ne. }
      eapply sorted_sublist; [reflexivity| |apply H4]. intros a b Ha Hb. simpl.
      rewrite !Hv; [done|intros ->; by eapply Ht..].
  - intros u d. rewrite put_lookup. case_decide; [intros [= <-] _; apply u32_range|apply H5].
  - intros u d. rewrite put_lookup. case_decide; [intros [= <-]; exact (H6 t c E)|apply H6].
Qed.

Lemma due_put e t X c (w : W) u : pxCurrentTimerList w ≠ pxOverflowTimerList w → e <= epoch X <= e + 1 →
  due e (put e t X c w) u = if decide (u = t) then Some X else due e w u.
Proof.
  intros Hne He. unfold due. rewrite put_lookup. case_decide; [|done]. simpl. f_equal.
  unfold list_for, epoch, u32 in *. pose proof (Z.div_mod X (2 ^ 32) ltac:(lia)).
  destruct (Z.eqb_spec (X / 2 ^ 32) e); [rewrite decide_True by done; lia|rewrite decide_False by done; lia].
Qed.

(** A timer that is in no list changes. *)
Lemma lookup_timer t c (w : W) u : timers (with_timers (<[t := c]> (timers w)) w) !! u = if decide (u = t) then Some c else timers w !! u.
Proof. simpl. case_decide; subst; [by rewrite lookup_insert_eq|by rewrite lookup_insert_ne by done]. Qed.

Lemma listed_free t c c' (w : W) : listed w → timers w !! t = Some c → timer_container c = None → timer_container c' = None →
  0 < xTimerPeriodInTicks c' < 2 ^ 32 → listed (with_timers (<[t := c']> (timers w)) w).
Proof.
  intros HL Ec Hn Hn' Hp. pose proof (λ l, listed_absent t c w l HL Ec Hn) as Ht. destruct HL as [H1 H2 H3 H4 H5 H6].
  split; try done; cbn [lists with_timers].
  - intros l u. rewrite H3, lookup_timer. case_decide; subst; [|done]. split; intros (d&Ed&Hd); simplify_eq; congruence.
  - intros l. eapply sorted_sublist; [reflexivity| |apply H4]. intros a b Ha Hb. unfold expiry_of.
    rewrite !lookup_timer, !decide_False; [done|intros ->; by eapply Ht..].
  - intros u d. rewrite lookup_timer. case_decide; [intros [= <-]; congruence|apply H5].
  - intros u d. rewrite lookup_timer. case_decide; [by intros [= <-]|apply H6].
Qed.

Lemma listed_unlinked t c (w : W) : listed w → timers w !! t = Some c → listed (unlinked t c w) ∧
  timers (unlinked t c w) !! t = Some (with_container None c) ∧
  ∀ u, u ≠ t → timers (unlinked t c w) !! u = timers w !! u.
Proof.
  intros HL E. pose proof HL as [H1 H2 H3 H4 H5 H6]. unfold unlinked. destruct (timer_container c) as [l|] eqn:El; swap 1 2.
  { split_and!; [done| |done]. rewrite E. destruct c. simpl in *. by subst. }
  pose proof (lookup_timer t (with_container None c) w) as Hu.
  split_and!; [|by simpl; rewrite lookup_insert_eq|intros u ?; simpl; by rewrite lookup_insert_ne].
  assert (∀ l', z_items (<[l := z_remove t (lists w l)]> (lists w) l') = filter (λ u, u ≠ t) (z_items (lists w l'))) as Hz.
  { intros l'. destruct (decide (l' = l)) as [->|Hne]; [by rewrite fn_lookup_insert, z_items_remove|].
    rewrite fn_lookup_insert_ne, filter_absent; [done| |done]. intros (d&Ed&Hd)%H3. congruence. }
  split; try done; cbn [lists with_lists timers].
  - intros l'. rewrite Hz. by apply NoDup_filter.
  - intros l' u. rewrite Hz, list_elem_of_filter, H3, Hu. case_decide as Hut; subst.
    + split; [by intros [? _]|]. by intros (d&[= <-]&?).
    + split; [by intros [_ ?]|done].
  - intros l'. rewrite Hz. eapply sorted_sublist; [apply sublist_filter| |apply H4].
    intros a b [Ha _]%list_elem_of_filter [Hb _]%list_elem_of_filter. unfold expiry_of.
    change (timers (with_lists _ ?x)) with (timers x). rewrite !Hu. by rewrite !decide_False by done.
  - intros u d. change (timers (with_lists _ ?x)) with (timers x). rewrite Hu. case_decide; [by intros [= <-]|apply H5].
  - intros u d. change (timers (with_lists _ ?x)) with (timers x). rewrite Hu. case_decide; [intros [= <-]; exact (H6 t c E)|apply H6].
Qed.
End lists.

(** ** A timer expires *)

(** The functions that the timers call do not touch the timers: [ran] is what
    they do to the rest of the kernel. *)
Class Callbacks {K} (callback : Z → Z → ST (daemon K) unit) (ran : Z → Z → K → K) : Prop :=
  callback_runs f t w : callback f t w = Done (tt, with_tasks (ran f t (tasks w)) w).

(** How often the function is called when a timer due at [E] is looked at at [T],
    and when it is due next. *)
Definition is_auto (c : Timer_t) : bool := has_flag tmrSTATUS_IS_AUTORELOAD c.
Definition missed (c : Timer_t) (E T : Z) : Z := (T - E) / xTimerPeriodInTicks c.
Definition fires (c : Timer_t) (E T : Z) : nat := if is_auto c then S (Z.to_nat (missed c E T)) else 1.
Definition next_due (c : Timer_t) (E T : Z) : Z := E + (missed c E T + 1) * xTimerPeriodInTicks c.

Lemma u32_add a b : u32 (u32 a + b) = u32 (a + b).
Proof. unfold u32. by rewrite Zplus_mod_idemp_l. Qed.

Lemma missed_step c E T : 0 < xTimerPeriodInTicks c → let X := E + xTimerPeriodInTicks c in
  if X <=? T then 0 <= missed c X T ∧ missed c E T = missed c X T + 1 else E <= T → missed c E T = 0.
Proof.
  intros Hp X. unfold missed, X. destruct (Z.leb_spec (E + xTimerPeriodInTicks c) T).
  - split; [apply Z.div_pos; lia|].
    replace (T - E) with (T - (E + xTimerPeriodInTicks c) + 1 * xTimerPeriodInTicks c) by lia. by rewrite Z.div_add by lia.
  - intros ?. apply Z.div_small. lia.
Qed.

Section expiry.
Context {K : Type} (callback : Z → Z → ST (daemon K) unit) (ran : Z → Z → K → K) `{!Callbacks callback ran}.
Local Abbreviation W := (daemon K).

Lemma put_again e t X c x k (w : W) :
  put e t X (with_expiry x c) (with_tasks k (with_timers (<[t := with_expiry x c]> (timers w)) w)) = with_tasks k (put e t X c w).
Proof. unfold put. simpl. by rewrite insert_insert_eq. Qed.

Lemma put_tasks e t X c k (w : W) : put e t X c (with_tasks k w) = with_tasks k (put e t X c w).
Proof. done. Qed.

Lemma wp_call_timer {D : Prop} t c Q (w : W) : timers w !! t = Some c →
  Q tt (with_tasks (ran (pxCallbackFunction c) t (tasks w)) w) → wp D (call_timer callback t) Q w.
Proof. intros E HQ. apply wp_bind. eapply wp_get_timer; [done|]. unfold wp. by rewrite callback_runs. Qed.

Lemma reload_spec n : ∀ t c E T (w : W), timers w !! t = Some c → 0 < xTimerPeriodInTicks c < 2 ^ 32 →
  0 <= E <= T → T - E < 2 ^ 32 → (Z.to_nat (missed c E T) < n)%nat →
  wp False (reload_loop callback n t (u32 E) (u32 T)) (λ _ w',
    w' = with_tasks (Nat.iter (Z.to_nat (missed c E T)) (ran (pxCallbackFunction c) t) (tasks w)) (put (epoch T) t (next_due c E T) c w)) w.
Proof.
  induction n as [|n IH]; intros t c E T w Ec Hp HE HT Hn; [lia|]. cbn [reload_loop].
  pose proof (missed_step c E T ltac:(lia)) as Hm. cbv zeta in Hm. set (X := E + xTimerPeriodInTicks c) in *.
  apply wp_bind. eapply wp_get_timer; [exact Ec|]. rewrite u32_add. fold X.
  apply wp_bind. eapply wp_insert_timer; [exact Ec|done|done|done| |]; fold X.
  - intros HX. rewrite (proj2 (Z.leb_le X T) HX) in Hm. destruct Hm as [Hm0 Hm]. set (c' := with_expiry (u32 X) c).
    apply wp_bind. eapply wp_get_timer; [apply lookup_insert_eq|]. fold c'. rewrite u32_add.
    apply wp_bind. eapply wp_call_timer; [apply lookup_insert_eq|]. cbn [tasks with_timers]. fold c'.
    eapply wp_mono; [apply (IH t c' X T); [apply lookup_insert_eq|done|lia|lia|]|].
    + change (missed c' X T) with (missed c X T). lia.
    + intros _ w' ->. change (missed c' X T) with (missed c X T). change (pxCallbackFunction c') with (pxCallbackFunction c).
      assert (next_due c' X T = next_due c E T) as ->.
      { unfold next_due. change (missed c' X T) with (missed c X T). change (xTimerPeriodInTicks c') with (xTimerPeriodInTicks c). unfold X in *. lia. }
      unfold c'. rewrite put_again. rewrite Hm, Z2Nat.inj_add, Nat.add_comm by lia. cbn [tasks with_tasks].
      change (Z.to_nat 1 + ?k)%nat with (S k). by rewrite Nat.iter_succ_r.
  - intros HX. rewrite (proj2 (Z.leb_gt X T) HX) in Hm. apply wp_ret. unfold next_due. rewrite Hm by lia.
    change (Z.to_nat 0) with 0%nat. cbn [Nat.iter nat_rect]. replace (E + (0 + 1) * xTimerPeriodInTicks c) with X by (unfold X; lia).
    by destruct w.
Qed.

(** The world after the timer at [t], which is in no list, has expired. *)
Definition fired (E T t : Z) (c : Timer_t) (w : W) : W :=
  with_tasks (Nat.iter (fires c E T) (ran (pxCallbackFunction c) t) (tasks w))
    (if is_auto c then put (epoch T) t (next_due c E T) c w
     else with_timers (<[t := clear_flag tmrSTATUS_IS_ACTIVE c]> (timers w)) w).

Lemma expire_spec fuel t c E T (w : W) : timers w !! t = Some c → 0 < xTimerPeriodInTicks c < 2 ^ 32 →
  0 <= E <= T → T - E < 2 ^ 32 → missed c E T < Z.of_nat fuel →
  wp False (expire callback fuel t (u32 E) (u32 T)) (λ _ w', w' = fired E T t c w) w.
Proof.
  intros Ec Hp HE HT Hf. apply wp_bind. eapply wp_get_timer; [exact Ec|]. unfold fired, fires. fold (is_auto c).
  assert (0 <= missed c E T) as H0 by (apply Z.div_pos; lia). destruct (is_auto c).
  - apply wp_bind. eapply wp_mono; [apply reload_spec; [exact Ec|done|done|done|lia]|]. intros _ w1 ->.
    eapply wp_call_timer; [cbn [timers with_tasks]; by rewrite put_lookup, decide_True|]. done.
  - apply wp_bind. eapply wp_upd_timer; [exact Ec|]. eapply wp_call_timer; [apply lookup_insert_eq|]. done.
Qed.

Lemma fired_spec E T t c (w : W) : listed w → timers w !! t = Some c → timer_container c = None → 0 <= E <= T → listed (fired E T t c w) ∧
  due (epoch T) (fired E T t c w) t = (if is_auto c then Some (next_due c E T) else None) ∧
  ∀ u, u ≠ t → timers (fired E T t c w) !! u = timers w !! u.
Proof.
  intros HL Ec Hn HE. pose proof (listed_period _ HL _ _ Ec) as Hp. unfold fired.
  assert (T < next_due c E T <= T + xTimerPeriodInTicks c) as Hnext.
  { unfold next_due, missed. pose proof (Z.div_mod (T - E) (xTimerPeriodInTicks c) ltac:(lia)).
    pose proof (Z.mod_pos_bound (T - E) (xTimerPeriodInTicks c) ltac:(lia)). lia. }
  destruct (is_auto c).
  - split_and!.
    + pose proof (listed_put (epoch T) t (next_due c E T) c w HL Ec Hn) as []. by split.
    + change (due (epoch T) (put (epoch T) t (next_due c E T) c w) t = Some (next_due c E T)).
      rewrite due_put, decide_True; [done|done|apply HL|]. unfold epoch.
      split; [apply Z.div_le_mono; lia|]. apply Z.lt_succ_r. apply Z.div_lt_upper_bound; [lia|]. pose proof (Z.mul_succ_div_gt T (2 ^ 32)). lia.
    + intros u Hu. cbn [timers with_tasks]. by rewrite put_lookup, decide_False.
  - pose proof (lookup_timer t (clear_flag tmrSTATUS_IS_ACTIVE c) w) as Hu. split_and!.
    + by destruct (listed_free t c (clear_flag tmrSTATUS_IS_ACTIVE c) w HL Ec Hn Hn Hp).
    + unfold due. cbn [timers with_tasks]. rewrite Hu, decide_True by done. simpl. by rewrite Hn.
    + intros u ?. cbn [timers with_tasks]. by rewrite Hu, decide_False.
Qed.
End expiry.

Lemma foldl_ext_in {A B} (f g : A → B → A) (xs : list B) (a : A) : (∀ k x, x ∈ xs → f k x = g k x) → foldl f a xs = foldl g a xs.
Proof.
  revert a. induction xs as [|x xs IH]; intros a Hx; [done|]. cbn [foldl]. rewrite Hx by left. apply IH.
  intros k y Hy. apply Hx. by right.
Qed.

Section timer_task.
Context {K : Type} (os : timer_ops K) (asserts : bool).
Context (callback : Z → Z → ST (daemon K) unit) (pended : Z → Z → Z → ST (daemon K) unit).
Context (ran : Z → Z → K → K) `{!Callbacks callback ran} (fuel : nat).
Local Abbreviation W := (daemon K).

(** The timer at [t], in its list, expires. *)
Definition expired (E T t : Z) (c : Timer_t) (w : W) : W := fired ran E T t (with_container None c) (unlinked t c w).

Lemma expired_spec E T t c (w : W) : listed w → timers w !! t = Some c → 0 <= E <= T →
  listed (expired E T t c w) ∧
  due (epoch T) (expired E T t c w) t = (if is_auto c then Some (next_due c E T) else None) ∧
  is_Some (timers (expired E T t c w) !! t) ∧ (∀ u, u ≠ t → timers (expired E T t c w) !! u = timers w !! u) ∧
  tasks (expired E T t c w) = Nat.iter (fires c E T) (ran (pxCallbackFunction c) t) (tasks w).
Proof.
  intros HL Ec HE. destruct (listed_unlinked t c w HL Ec) as (HL1&Ec1&Ho1).
  destruct (fired_spec ran E T t (with_container None c) (unlinked t c w) HL1 Ec1 eq_refl HE) as (HL2&Hd2&Ho2).
  split_and!; [exact HL2|exact Hd2| |intros u Hu; by rewrite Ho2, Ho1 by done|].
  { unfold expired, fired. cbn [timers with_tasks]. destruct (is_auto _); [by rewrite put_lookup, decide_True|].
    cbn [timers with_timers]. by rewrite lookup_insert_eq. }
  unfold expired, fired. cbn [tasks with_tasks]. unfold unlinked. by destruct (timer_container c).
Qed.

Lemma process_expired_spec T t ts c (w : W) : let e := epoch T in let E := e * 2 ^ 32 + expiry c in
  listed w → z_items (lists w (pxCurrentTimerList w)) = t :: ts → timers w !! t = Some c → 0 <= E <= T →
  missed c E T < Z.of_nat fuel →
  wp False (prvProcessExpiredTimer callback fuel (expiry c) (u32 T)) (λ _ w', w' = expired E T t c w) w.
Proof.
  intros e E HL Hz Ec HE Hf. destruct (listed_unlinked t c w HL Ec) as (HL1&Ec1&Ho1).
  assert (t ∈ z_items (lists w (pxCurrentTimerList w))) as Hin by (rewrite Hz; left).
  pose proof (proj1 (listed_member _ HL _ _) Hin) as (d&Ed&Hd). assert (d = c) as -> by congruence.
  assert (is_u32 (expiry c)) as Hx by (eapply (listed_range _ HL); [done|congruence]).
  assert (u32 E = expiry c) as Hu.
  { unfold E, u32. rewrite Z.add_comm, Z_mod_plus_full. apply Z.mod_small. unfold is_u32 in Hx. lia. }
  apply wp_bind, wp_gets. change (id w) with w. apply wp_bind, wp_bind, wp_gets, wp_ret. change (id w) with w. rewrite Hz. cbn [head].
  apply wp_bind. eapply wp_unlink; [exact Ec|exact Hd|]. rewrite <- Hu.
  apply (expire_spec callback ran fuel t (with_container None c) E T (unlinked t c w)); [done|exact (listed_period _ HL _ _ Ec)|done| |exact Hf].
  unfold E, e, epoch. pose proof (Z.div_mod T (2 ^ 32) ltac:(lia)). pose proof (Z.mod_pos_bound T (2 ^ 32) ltac:(lia)).
  unfold is_u32 in Hx. lia.
Qed.

(** *** The overflow *)

(** What has happened to a timer due at [D] when everything up to [T] has expired. *)
Definition advanced (T : Z) (c : Timer_t) (D : Z) : option Z :=
  if D <=? T then if is_auto c then Some (next_due c D T) else None else Some D.
Definition run_due (e T : Z) (w : W) (k : K) (t : Z) : K :=
  match timers w !! t with
  | Some c => Nat.iter (fires c (e * 2 ^ 32 + expiry c) T) (ran (pxCallbackFunction c) t) k
  | None => k
  end.

Lemma lists_expired E T t c (w : W) : timer_container c = Some (pxCurrentTimerList w) → pxCurrentTimerList w ≠ pxOverflowTimerList w →
  epoch (next_due c E T) ≠ epoch T →
  z_items (lists (expired E T t c w) (pxCurrentTimerList w)) = filter (λ u, u ≠ t) (z_items (lists w (pxCurrentTimerList w))) ∧
  pxCurrentTimerList (expired E T t c w) = pxCurrentTimerList w ∧ pxOverflowTimerList (expired E T t c w) = pxOverflowTimerList w.
Proof.
  intros Hc Hne He. unfold expired, fired, unlinked. rewrite Hc. change (is_auto (with_container None c)) with (is_auto c).
  change (next_due (with_container None c) E T) with (next_due c E T). destruct (is_auto c).
  - unfold put, list_for. rewrite (proj2 (Z.eqb_neq _ _)) by done. cbn.
    rewrite fn_lookup_insert_ne by done. by rewrite fn_lookup_insert, z_items_remove.
  - cbn. by rewrite fn_lookup_insert, z_items_remove.
Qed.

Lemma next_later c D T : 0 < xTimerPeriodInTicks c < 2 ^ 32 → 0 <= D <= T → T < next_due c D T.
Proof.
  intros Hp HD. unfold next_due, missed. pose proof (Z.div_mod (T - D) (xTimerPeriodInTicks c) ltac:(lia)).
  pose proof (Z.mod_pos_bound (T - D) (xTimerPeriodInTicks c) ltac:(lia)). lia.
Qed.

Lemma next_epoch c D T : 0 < xTimerPeriodInTicks c < 2 ^ 32 → 0 <= D <= T → T = (epoch T + 1) * 2 ^ 32 - 1 →
  epoch (next_due c D T) ≠ epoch T.
Proof.
  intros Hp HD HT He. pose proof (next_later c D T Hp HD). unfold epoch in *.
  pose proof (Z.mul_succ_div_gt (next_due c D T) (2 ^ 32) ltac:(lia)). rewrite He in *. lia.
Qed.

Lemma due_other e (w w' : W) u : pxCurrentTimerList w' = pxCurrentTimerList w → timers w' !! u = timers w !! u →
  due e w' u = due e w u.
Proof. intros Hp Hu. unfold due. by rewrite Hu, Hp. Qed.

Lemma switch_loop_spec e n : ∀ ts (w : W), 0 <= e → listed w → z_items (lists w (pxCurrentTimerList w)) = ts → (length ts < n)%nat →
  let T := (e + 1) * 2 ^ 32 - 1 in
  (∀ t c, t ∈ ts → timers w !! t = Some c → missed c (e * 2 ^ 32 + expiry c) T < Z.of_nat fuel) →
  wp False (switch_loop callback fuel n) (λ _ w', listed w' ∧ z_items (lists w' (pxCurrentTimerList w')) = [] ∧
    pxCurrentTimerList w' = pxCurrentTimerList w ∧ pxOverflowTimerList w' = pxOverflowTimerList w ∧
    (∀ t c, timers w !! t = Some c → due e w' t = due e w t ≫= advanced T c) ∧
    (∀ t, due e w t = None → timers w' !! t = timers w !! t) ∧
    tasks w' = foldl (run_due e T w) (tasks w) ts) w.
Proof.
  induction n as [|n IH]; intros ts w He HL Hz Hn T Hf; [lia|]. cbn [switch_loop].
  assert (epoch T = e) as HT by (unfold T, epoch; symmetry; apply Z.div_unique with (2 ^ 32 - 1); lia).
  assert (u32 T = tmrMAX_TIME_BEFORE_OVERFLOW) as HuT by (unfold T, u32, tmrMAX_TIME_BEFORE_OVERFLOW; symmetry; apply Z.mod_unique with e; lia).
  apply wp_bind, wp_gets. change (id w) with w. apply wp_bind, wp_bind, wp_gets, wp_ret. change (id w) with w. rewrite Hz.
  assert (∀ t c, timers w !! t = Some c → t ∉ ts → due e w t ≫= advanced T c = due e w t) as Hlate.
  { intros t c Ec Ht. unfold due. rewrite Ec. simpl. destruct (timer_container c) as [l|] eqn:El; [|done]. simpl.
    assert (l ≠ pxCurrentTimerList w) as Hl.
    { intros ->. apply Ht. rewrite <- Hz. apply (listed_member _ HL). by exists c. }
    rewrite decide_False by done. assert (is_u32 (expiry c)) as Hx by (eapply (listed_range _ HL); [done|congruence]).
    unfold advanced, is_u32 in *. rewrite (proj2 (Z.leb_gt _ _)); [done|]. unfold T. lia. }
  destruct ts as [|t ts]; cbn [head].
  { apply wp_ret. split_and!; try done. intros t c Ec. symmetry. apply Hlate; [done|set_solver]. }
  assert (t ∈ z_items (lists w (pxCurrentTimerList w))) as Hin by (rewrite Hz; left).
  pose proof (proj1 (listed_member _ HL _ _) Hin) as (c&Ec&Hc).
  assert (is_u32 (expiry c)) as Hx by (eapply (listed_range _ HL); [done|congruence]).
  set (D := e * 2 ^ 32 + expiry c). assert (0 <= D <= T) as HD by (unfold D, T, is_u32 in *; lia).
  pose proof (listed_period _ HL _ _ Ec) as Hp.
  assert (epoch (next_due c D T) ≠ epoch T) as Hnext by (apply next_epoch; [done|done|rewrite HT; done]).
  apply wp_bind. eapply wp_get_timer; [exact Ec|]. apply wp_bind.
  eapply wp_mono.
  { rewrite <- HuT. apply (process_expired_spec T t ts c w); rewrite ?HT; [done|done|done|exact HD|eapply (Hf t c); [left|done]]. }
  intros _ w1 ->. rewrite HT. fold D.
  destruct (expired_spec D T t c w HL Ec HD) as (HL1&Hd1&[c1 Ec1]&Ho1&Hk1). rewrite HT in Hd1.
  destruct (lists_expired D T t c w Hc (listed_pointers _ HL) Hnext) as (Hz1&Hp1&Hp2).
  set (w1 := expired D T t c w) in *. pose proof (listed_nodup _ HL (pxCurrentTimerList w)) as Hnd. rewrite Hz in Hnd.
  apply NoDup_cons in Hnd as [Ht Hnd]. rewrite Hz, filter_cons_False, filter_absent in Hz1 by (try done; by intros []).
  assert (∀ u, u ∈ ts → u ≠ t) as Hne by by intros u ? ->.
  eapply wp_mono; [apply (IH ts w1); [done|done|by rewrite Hp1|simpl in Hn; lia|]|].
  - intros u d Hu Ed. rewrite Ho1 in Ed by auto. apply (Hf u d); [by right|done].
  - fold T. intros _ w2 (HL2&Hz2&Hq1&Hq2&Hdue&Hsame&Hk). split_and!; [done|done|congruence|congruence| | |].
    + intros u d Ed. destruct (decide (u = t)) as [->|Hu].
      * assert (d = c) as -> by congruence. rewrite (Hdue t c1 Ec1), Hd1.
        assert (due e w t = Some D) as ->.
        { unfold due. rewrite Ec. simpl. rewrite Hc. simpl. by rewrite decide_True. }
        simpl. unfold advanced at 2. rewrite (proj2 (Z.leb_le D T)) by lia. destruct (is_auto c); [|done]. simpl.
        unfold advanced. rewrite (proj2 (Z.leb_gt _ _)); [done|]. by apply next_later.
      * rewrite (Hdue u d) by by rewrite Ho1. f_equal. unfold due. by rewrite Ho1, Hp1 by done.
    + intros u Hu. assert (u ≠ t) as Hut.
      { intros ->. unfold due in Hu. rewrite Ec in Hu. simpl in Hu. by rewrite Hc in Hu. }
      rewrite Hsame; [by apply Ho1|]. rewrite <- Hu. apply due_other; [done|by apply Ho1].
    + rewrite Hk, Hk1. cbn [foldl]. unfold run_due at 3. rewrite Ec. fold D. apply foldl_ext_in.
      intros k u Hu. unfold run_due. by rewrite Ho1 by auto.
Qed.
End timer_task.

Section commands.
Context {K : Type} (os : timer_ops K) (asserts : bool).
Context (callback : Z → Z → ST (daemon K) unit) (pended : Z → Z → Z → ST (daemon K) unit).
Context (ran : Z → Z → K → K) `{!Callbacks callback ran} (fuel : nat).
Local Abbreviation W := (daemon K).

(** Before the lists are switched at an overflow, every timer that was due has
    expired; the others keep their times, now on the other side of it. *)
Theorem overflow_keeps_times e (w : W) : 0 <= e → listed w →
  (length (z_items (lists w (pxCurrentTimerList w))) < fuel)%nat →
  let T := (e + 1) * 2 ^ 32 - 1 in
  (∀ t c, timers w !! t = Some c → due e w t = Some (e * 2 ^ 32 + expiry c) → missed c (e * 2 ^ 32 + expiry c) T < Z.of_nat fuel) →
  wp False (prvSwitchTimerLists callback fuel) (λ _ w', listed w' ∧ z_items (lists w' (pxOverflowTimerList w')) = [] ∧
    (∀ t c, timers w !! t = Some c → due (e + 1) w' t = due e w t ≫= advanced T c) ∧
    (∀ t, due e w t = None → timers w' !! t = timers w !! t) ∧
    tasks w' = foldl (run_due ran e T w) (tasks w) (z_items (lists w (pxCurrentTimerList w)))) w.
Proof.
  intros He HL Hn T Hf. apply wp_bind. eapply wp_mono; [apply (switch_loop_spec callback ran fuel e fuel _ w He HL eq_refl Hn)|].
  { intros t c Ht Ec. apply (Hf t c Ec). apply (listed_member _ HL) in Ht as (d&Ed&Hd). assert (d = c) as -> by congruence.
    unfold due. rewrite Ec. simpl. rewrite Hd. simpl. by rewrite decide_True. }
  fold T. intros _ w1 (HL1&Hz&Hp1&Hp2&Hdue&Hsame&Hk). apply wp_modify. set (w2 := with_list_pointers _ _ w1).
  assert (∀ t, due (e + 1) w2 t = due e w1 t) as Hd.
  { intros t. unfold due. change (timers w2) with (timers w1). destruct (timers w1 !! t) as [c|] eqn:Ec; [|done]. simpl.
    destruct (timer_container c) as [l|] eqn:El; [|done]. simpl.
    assert (l ≠ pxCurrentTimerList w1) as Hne.
    { intros ->. assert (t ∈ z_items (lists w1 (pxCurrentTimerList w1))) as Ht by (apply (listed_member _ HL1); by exists c).
      rewrite Hz in Ht. set_solver. }
    pose proof (listed_pointers _ HL1). rewrite decide_True by by destruct l, (pxCurrentTimerList w1), (pxOverflowTimerList w1).
    by rewrite decide_False. }
  split_and!; [|exact Hz|intros t c Ec; by rewrite Hd, (Hdue t c Ec)|exact Hsame|exact Hk].
  destruct HL1 as [H1 H2 H3 H4 H5 H6]. split; [by apply not_eq_sym|done..].
Qed.

(** The clock is read: without an overflow since the last time, only the time is noted. *)
Lemma sample_spec {D : Prop} L T Q (w : W) : 0 <= L <= T → epoch L = epoch T → xLastTime w = u32 L →
  xTaskGetTickCount os (tasks w) = u32 T → Q (u32 T, false) (with_last_time (u32 T) w) →
  wp D (prvSampleTimeNow os callback fuel) Q w.
Proof.
  intros HLT He HL HT HQ. apply wp_bind, wp_gets. change (id w) with w. cbv zeta. rewrite HT, HL.
  assert (u32 L <= u32 T) as Hle.
  { unfold u32, epoch in *. pose proof (Z.div_mod L (2 ^ 32) ltac:(lia)). pose proof (Z.div_mod T (2 ^ 32) ltac:(lia)). lia. }
  rewrite (proj2 (Z.ltb_ge _ _) Hle). apply wp_bind, wp_ret. apply wp_bind, wp_modify. by apply wp_ret.
Qed.

Lemma listed_last_time x (w : W) : listed w → listed (with_last_time x w).
Proof. intros [H1 H2 H3 H4 H5 H6]. by split. Qed.

Lemma listed_update t c c' (w : W) : listed w → timers w !! t = Some c → timer_container c' = timer_container c →
  expiry c' = expiry c → 0 < xTimerPeriodInTicks c' < 2 ^ 32 → listed (with_timers (<[t := c']> (timers w)) w).
Proof.
  intros [H1 H2 H3 H4 H5 H6] Ec Hc Hx Hp.
  pose proof (lookup_timer t c' w) as Hu.
  split; try done; cbn [lists with_timers].
  - intros l u. rewrite H3, Hu. case_decide; subst; [|done]. split; intros (d&Ed&Hd); simplify_eq/=; eexists; split; try done; congruence.
  - intros l. eapply sorted_sublist; [reflexivity| |apply H4]. intros a b _ _. unfold expiry_of. rewrite !Hu.
    repeat case_decide; subst; rewrite ?Ec; try done; by rewrite Hx.
  - intros u d. rewrite Hu. case_decide; subst; [intros [= <-]; rewrite Hc, Hx; by apply (H5 t)|apply H5].
  - intros u d. rewrite Hu. case_decide; [by intros [= <-]|apply H6].
Qed.

Lemma active_auto c : is_auto (set_flag tmrSTATUS_IS_ACTIVE c) = is_auto c.
Proof. unfold is_auto, has_flag, set_flag. simpl. by rewrite Z.land_lor_distr_l, Z.lor_0_r. Qed.

(** When a timer whose start or reset was asked for at [C] is due, seen from [T], and
    how often its function is called at once. *)
Definition started_due (c : Timer_t) (C T : Z) : option Z := advanced T c (C + xTimerPeriodInTicks c).
Definition started_fires (c : Timer_t) (C T : Z) : nat :=
  if C + xTimerPeriodInTicks c <=? T then fires c (C + xTimerPeriodInTicks c) T else 0.

Lemma start_command id C T t c (w : W) :
  id ∈ [tmrCOMMAND_START; tmrCOMMAND_START_FROM_ISR; tmrCOMMAND_RESET; tmrCOMMAND_RESET_FROM_ISR] →
  listed w → timers w !! t = Some c → timer_container c = None → 0 <= C <= T → T - C < 2 ^ 32 →
  missed c (C + xTimerPeriodInTicks c) T < Z.of_nat fuel →
  wp False (timer_command os asserts callback fuel id (u32 C) t (u32 T)) (λ _ w', listed w' ∧ xLastTime w' = xLastTime w ∧
    due (epoch T) w' t = started_due c C T ∧ (∀ u, u ≠ t → due (epoch T) w' u = due (epoch T) w u) ∧
    tasks w' = Nat.iter (started_fires c C T) (ran (pxCallbackFunction c) t) (tasks w)) w.
Proof.
  intros Hid HL Ec Hn HC HT Hf. unfold timer_command. rewrite (bool_decide_true (id ∈ _)) by done.
  pose proof (listed_period _ HL _ _ Ec) as Hp. set (c1 := set_flag tmrSTATUS_IS_ACTIVE c) in *.
  set (w1 := with_timers (<[t := c1]> (timers w)) w) in *. set (X := C + xTimerPeriodInTicks c) in *.
  assert (listed w1) as HL1 by by apply (listed_update t c).
  assert (timers w1 !! t = Some c1) as Ec1 by apply lookup_insert_eq.
  assert (∀ u, u ≠ t → timers w1 !! u = timers w !! u) as Ho1 by (intros u Hu; by apply lookup_insert_ne).
  apply wp_bind. eapply wp_upd_timer; [exact Ec|]. fold c1. fold w1. apply wp_bind. eapply wp_get_timer; [exact Ec1|].
  cbv zeta. change (xTimerPeriodInTicks c1) with (xTimerPeriodInTicks c). rewrite u32_add. fold X.
  unfold started_due, started_fires, advanced. fold X.
  apply wp_bind. apply (wp_insert_timer t c1 C T); [exact Ec1|exact Hp|done|done| |]; change (xTimerPeriodInTicks c1) with (xTimerPeriodInTicks c); fold X.
  - intros HX. rewrite (proj2 (Z.leb_le X T) HX). set (c2 := with_expiry (u32 X) c1). set (w2 := with_timers (<[t := c2]> (timers w1)) w1).
    assert (timers w2 !! t = Some c2) as Ec2 by apply lookup_insert_eq.
    assert (listed w2) as HL2.
    { by apply (listed_free t c1). }
    eapply wp_mono; [apply (expire_spec callback ran fuel t c2 X T w2); [exact Ec2|exact Hp|lia|lia|exact Hf]|].
    intros _ w' ->. destruct (fired_spec ran X T t c2 w2 HL2 Ec2 Hn ltac:(lia)) as (HL3&Hd3&Ho3).
    assert (is_auto c2 = is_auto c) as Ha by apply active_auto.
    split_and!; [exact HL3|unfold fired; by destruct (is_auto c2)|by rewrite Hd3, Ha| |].
    + intros u Hu. apply due_other; [unfold fired; by destruct (is_auto c2)|].
      rewrite Ho3 by done. unfold w2. cbn [timers with_timers]. rewrite lookup_insert_ne by done. by apply Ho1.
    + unfold fired, fires. cbn [tasks with_tasks]. rewrite Ha. done.
  - intros HX. rewrite (proj2 (Z.leb_gt X T) HX). apply wp_ret.
    split_and!; [by apply listed_put|done| | |done].
    + rewrite due_put, decide_True; [done|done|apply HL|]. unfold X, epoch. split; [apply Z.div_le_mono; lia|].
      apply Z.lt_succ_r. apply Z.div_lt_upper_bound; [lia|]. pose proof (Z.mul_succ_div_gt T (2 ^ 32)). lia.
    + intros u Hu. apply due_other; [done|]. rewrite put_lookup, decide_False by done. by apply Ho1.
Qed.
End commands.

Section service.
Context {K : Type} (os : timer_ops K) (asserts : bool).
Context (callback : Z → Z → ST (daemon K) unit) (pended : Z → Z → Z → ST (daemon K) unit).
Context (ran : Z → Z → K → K) `{!Callbacks callback ran} (fuel : nat).
Local Abbreviation W := (daemon K).

Lemma unlinked_tasks x t c (w : W) : tasks (with_last_time x (unlinked t c w)) = tasks w.
Proof. unfold unlinked. by destruct (timer_container c). Qed.

Lemma unlinked_due e x t c (w : W) u : listed w → timers w !! t = Some c → u ≠ t →
  due e (with_last_time x (unlinked t c w)) u = due e w u.
Proof.
  intros HL Ec Hu. destruct (listed_unlinked t c w HL Ec) as (_&_&Ho). apply due_other; [|by apply Ho].
  unfold unlinked. by destruct (timer_container c).
Qed.

Lemma wp_take_out {D : Prop} t c Q (w : W) : timers w !! t = Some c → Q tt (unlinked t c w) →
  wp D (match timer_container c with Some _ => uxListRemove t | None => mret tt end) Q w.
Proof.
  intros Ec HQ. destruct (timer_container c) as [l|] eqn:El; [by eapply wp_unlink|].
  apply wp_ret. unfold unlinked in HQ. by rewrite El in HQ.
Qed.

(** What every command of a timer goes through first. *)
Lemma message_received id v L T t c Q (w : W) : 0 <= id → listed w → timers w !! t = Some c →
  xTaskGetTickCount os (tasks w) = u32 T → xLastTime w = u32 L → 0 <= L <= T → epoch L = epoch T →
  wp False (timer_command os asserts callback fuel id v t (u32 T)) Q (with_last_time (u32 T) (unlinked t c w)) →
  wp False (process_message os asserts callback pended fuel (Message id (xTimerParameters v t))) Q w.
Proof.
  intros Hid HL Ec Hnow Hlast HLT He HQ. unfold process_message. cbn [xMessageID message_u].
  rewrite (proj2 (Z.ltb_ge id 0)) by done. set (w1 := unlinked t c w) in *.
  assert (tasks w1 = tasks w ∧ xLastTime w1 = xLastTime w) as (Hk&Hl) by (unfold w1, unlinked; by destruct (timer_container c)).
  apply wp_bind. eapply wp_get_timer; [exact Ec|]. apply wp_bind. apply wp_take_out; [done|]. fold w1.
  apply wp_bind. by apply (sample_spec os callback fuel L T); [done|done|rewrite Hl|rewrite Hk|].
Qed.

(** C31 (bounds): A start or reset that the task receives: whatever the clock did between
    the call at [C] and now, and whether it overflowed, the timer is due exactly one
    period after the call; what it has missed by now is made up for. *)
Theorem start_exact id C L T t c (w : W) :
  id ∈ [tmrCOMMAND_START; tmrCOMMAND_START_FROM_ISR; tmrCOMMAND_RESET; tmrCOMMAND_RESET_FROM_ISR] →
  listed w → timers w !! t = Some c → xTaskGetTickCount os (tasks w) = u32 T → xLastTime w = u32 L → 0 <= L <= T →
  epoch L = epoch T → 0 <= C <= T → T - C < 2 ^ 32 → missed c (C + xTimerPeriodInTicks c) T < Z.of_nat fuel →
  wp False (process_message os asserts callback pended fuel (Message id (xTimerParameters (u32 C) t))) (λ _ w', listed w' ∧
    xLastTime w' = u32 T ∧ due (epoch T) w' t = started_due c C T ∧
    (∀ u, u ≠ t → due (epoch T) w' u = due (epoch T) w u) ∧
    tasks w' = Nat.iter (started_fires c C T) (ran (pxCallbackFunction c) t) (tasks w)) w.
Proof.
  intros Hid HL Ec Hnow Hlast HLT He HC HT Hf. destruct (listed_unlinked t c w HL Ec) as (HL1&Ec1&Ho1).
  eapply message_received; [|exact HL|exact Ec|exact Hnow|exact Hlast|exact HLT|exact He|].
  { unfold tmrCOMMAND_START, tmrCOMMAND_START_FROM_ISR, tmrCOMMAND_RESET, tmrCOMMAND_RESET_FROM_ISR in Hid. set_unfold in Hid. lia. }
  eapply wp_mono; [apply (start_command os asserts callback ran fuel id C T t (with_container None c));
    [done|by apply listed_last_time|exact Ec1|done|done|done|exact Hf]|].
  intros [] w' (A1&A2&A3&A4&A5). split_and!; [done|done|exact A3| |].
  - intros u Hu. rewrite A4, unlinked_due by done. done.
  - rewrite A5. by rewrite unlinked_tasks.
Qed.

(** The other commands. *)
Lemma stop_command id v now t c (w : W) : id ∈ [tmrCOMMAND_STOP; tmrCOMMAND_STOP_FROM_ISR] → timers w !! t = Some c →
  timer_command os asserts callback fuel id v t now w =
    Done (tt, with_timers (<[t := clear_flag tmrSTATUS_IS_ACTIVE c]> (timers w)) w).
Proof.
  intros Hid Ec. unfold timer_command. rewrite bool_decide_false, bool_decide_true; [|done|].
  - apply wp_done_unit. by eapply wp_upd_timer.
  - intros H. set_unfold in Hid. set_unfold in H. unfold tmrCOMMAND_START, tmrCOMMAND_START_FROM_ISR, tmrCOMMAND_RESET,
      tmrCOMMAND_RESET_FROM_ISR, tmrCOMMAND_STOP, tmrCOMMAND_STOP_FROM_ISR in *. lia.
Qed.

Lemma change_period_command id v T t c (w : W) : id ∈ [tmrCOMMAND_CHANGE_PERIOD; tmrCOMMAND_CHANGE_PERIOD_FROM_ISR] →
  listed w → timers w !! t = Some c → timer_container c = None → 0 < v < 2 ^ 32 → 0 <= T →
  wp False (timer_command os asserts callback fuel id v t (u32 T)) (λ _ w', listed w' ∧ tasks w' = tasks w ∧
    due (epoch T) w' t = Some (T + v) ∧ ∀ u, u ≠ t → due (epoch T) w' u = due (epoch T) w u) w.
Proof.
  intros Hid HL Ec Hn Hv HT. unfold timer_command. rewrite bool_decide_false, bool_decide_false, bool_decide_true; [|done|..].
  2,3: intros H; set_unfold in Hid; set_unfold in H; unfold tmrCOMMAND_START, tmrCOMMAND_START_FROM_ISR, tmrCOMMAND_RESET,
    tmrCOMMAND_RESET_FROM_ISR, tmrCOMMAND_STOP, tmrCOMMAND_STOP_FROM_ISR, tmrCOMMAND_CHANGE_PERIOD, tmrCOMMAND_CHANGE_PERIOD_FROM_ISR in *; lia.
  set (c1 := with_period v (set_flag tmrSTATUS_IS_ACTIVE c)). set (w1 := with_timers (<[t := c1]> (timers w)) w).
  assert (listed w1) as HL1 by by apply (listed_free t c).
  assert (timers w1 !! t = Some c1) as Ec1 by apply lookup_insert_eq.
  apply wp_bind. eapply wp_upd_timer; [exact Ec|]. apply wp_bind. eapply wp_upd_timer; [apply lookup_insert_eq|].
  cbn [timers with_timers]. rewrite insert_insert_eq. fold c1. change (with_timers _ (with_timers _ w)) with w1.
  apply wp_bind. unfold configASSERT. rewrite (proj2 (Z.ltb_lt 0 v)) by lia. rewrite andb_false_r. apply wp_ret.
  rewrite u32_add. apply wp_bind. apply (wp_insert_timer t c1 T T); [exact Ec1|done|lia|lia| |]; change (xTimerPeriodInTicks c1) with v; [lia|].
  intros HX. apply wp_ret. split_and!; [by apply listed_put|done| |].
  - rewrite due_put, decide_True; [done|done|apply HL|]. unfold epoch. split; [apply Z.div_le_mono; lia|].
    apply Z.lt_succ_r. apply Z.div_lt_upper_bound; [lia|]. pose proof (Z.mul_succ_div_gt T (2 ^ 32)). lia.
  - intros u Hu. apply due_other; [done|]. rewrite put_lookup, decide_False by done. by apply lookup_insert_ne.
Qed.

(** *** The earliest timer *)

Definition serve : ST W unit :=
  '(xNextExpireTime, xListWasEmpty) ← prvGetNextExpireTime;
  prvProcessTimerOrBlockTask os callback fuel xNextExpireTime xListWasEmpty.

(** The task goes to sleep for [n] ticks or until a command arrives. *)
Definition slept (n : Z) (forever : bool) (k : K) : K :=
  let '(yielded, k) := xTaskResumeAll os (vQueueWaitForMessageRestricted os n forever (vTaskSuspendAll os k)) in
  if yielded : bool then k else taskYIELD_WITHIN_API os k.

Lemma head_earliest e t ts c (w : W) : listed w → z_items (lists w (pxCurrentTimerList w)) = t :: ts →
  timers w !! t = Some c → due e w t = Some (e * 2 ^ 32 + expiry c) ∧ is_u32 (expiry c) ∧
  ∀ u D, due e w u = Some D → e * 2 ^ 32 + expiry c <= D.
Proof.
  intros HL Hz Ec. assert (t ∈ z_items (lists w (pxCurrentTimerList w))) as Hin by (rewrite Hz; left).
  apply (listed_member _ HL) in Hin as (d&Ed&Hd). assert (d = c) as -> by congruence.
  assert (is_u32 (expiry c)) as Hx by (eapply (listed_range _ HL); [done|congruence]).
  split_and!; [unfold due; rewrite Ec; simpl; rewrite Hd; simpl; by rewrite decide_True|done|].
  intros u D. unfold due. destruct (timers w !! u) as [d|] eqn:Eu; [|done]. simpl.
  destruct (timer_container d) as [l|] eqn:El; [|done]. simpl. intros [= <-].
  assert (is_u32 (expiry d)) as Hx' by (eapply (listed_range _ HL); [done|congruence]). unfold is_u32 in *.
  case_decide as Hl; [|lia]. subst l. assert (u ∈ t :: ts) as Hu by (rewrite <- Hz; apply (listed_member _ HL); by exists d).
  pose proof (listed_sorted _ HL (pxCurrentTimerList w)) as Hs. rewrite Hz in Hs. apply StronglySorted_inv in Hs as [_ Hs].
  apply elem_of_cons in Hu as [->|Hu]; [assert (d = c) as -> by congruence; lia|].
  rewrite list.Forall_forall in Hs. specialize (Hs u Hu). unfold expiry_of in Hs. rewrite Ec, Eu in Hs. lia.
Qed.

(** With no timer in the current list, none is set exactly when the other list is empty too. *)
Lemma no_timer_set e (w : W) : listed w → z_items (lists w (pxCurrentTimerList w)) = [] →
  bool_decide (z_items (lists w (pxOverflowTimerList w)) = []) = true ↔ ∀ u, due e w u = None.
Proof.
  intros HL Hz. rewrite bool_decide_eq_true. split.
  - intros Hz2 u. destruct (due e w u) eqn:Hd; [exfalso|done]. unfold due in Hd.
    destruct (timers w !! u) as [c|] eqn:Ec; simplify_eq/=. destruct (timer_container c) as [l|] eqn:El; simplify_eq/=.
    assert (u ∈ z_items (lists w l)) as Hu by (apply (listed_member _ HL); eauto).
    pose proof (listed_pointers _ HL) as Hp. assert (l = pxCurrentTimerList w ∨ l = pxOverflowTimerList w) as [->| ->].
    { clear -Hp. destruct l, (pxCurrentTimerList w), (pxOverflowTimerList w); by first [by left|by right|destruct Hp]. }
    + rewrite Hz in Hu. by apply elem_of_nil in Hu.
    + rewrite Hz2 in Hu. by apply elem_of_nil in Hu.
  - intros Hn. apply elem_of_nil_inv. intros u (c&Ec&El)%(listed_member _ HL).
    specialize (Hn u). unfold due in Hn. rewrite Ec in Hn. simpl in Hn. by rewrite El in Hn.
Qed.

Lemma next_due_first c E T : 0 < xTimerPeriodInTicks c → T < next_due c E T <= T + xTimerPeriodInTicks c.
Proof.
  intros Hp. unfold next_due, missed. pose proof (Z.div_mod (T - E) (xTimerPeriodInTicks c)).
  pose proof (Z.mod_pos_bound (T - E) (xTimerPeriodInTicks c)). nia.
Qed.

(** C30 (liveness): The timer task serves the earliest timer, in a round where the tick
    counter has not overflowed since its last look ([epoch L = epoch T]) and where
    the functions of the timers leave the timers alone ([Callbacks]). If the earliest timer is
    due and reloads, its function is called once for the time it was due and once for
    each whole period that has passed since, and it is set to the first time
    still ahead that is a whole number of periods after the old one, without drift. If it is due and
    does not reload, its function is called once and it is no longer set. If it is not due, it stays set and
    the task sleeps exactly until it is due. If no timer is due before the counter overflows, the
    task sleeps until the overflow (0 ticks when the counter stands at 0); if
    no timer is set at all, it sleeps without limit. All other timers stay as they are. *)
Theorem earliest_timer_served L T (w : W) : listed w → xLastTime w = u32 L → 0 <= L <= T → epoch L = epoch T →
  xTaskGetTickCount os (vTaskSuspendAll os (tasks w)) = u32 T →
  (∀ t c E, timers w !! t = Some c → due (epoch T) w t = Some E → missed c E T < Z.of_nat fuel) →
  wp False serve (λ _ w', listed w' ∧ xLastTime w' = u32 T ∧
    match head (z_items (lists w (pxCurrentTimerList w))) with
    | Some t => ∃ c E, timers w !! t = Some c ∧ due (epoch T) w t = Some E ∧ (∀ u D, due (epoch T) w u = Some D → E <= D) ∧
        (∀ u, u ≠ t → due (epoch T) w' u = due (epoch T) w u) ∧
        if E <=? T then
          (if is_auto c then due (epoch T) w' t = Some (next_due c E T) ∧ T < next_due c E T <= T + xTimerPeriodInTicks c
           else due (epoch T) w' t = None) ∧
          tasks w' = Nat.iter (fires c E T) (ran (pxCallbackFunction c) t) (xTaskResumeAll os (vTaskSuspendAll os (tasks w))).2
        else due (epoch T) w' t = Some E ∧ tasks w' = slept (E - T) false (tasks w)
    | None => (∀ u, due (epoch T) w' u = due (epoch T) w u) ∧
        ∃ forever, (forever = true ↔ ∀ u, due (epoch T) w u = None) ∧ tasks w' = slept (u32 (- T)) forever (tasks w)
    end) w.
Proof.
  intros HL Hlast HLT He Hnow Hf. set (w1 := with_tasks (vTaskSuspendAll os (tasks w)) w).
  set (w2 := with_last_time (u32 T) w1).
  assert (listed w2) as HL2 by by destruct HL.
  assert (∀ n forever (Q : unit → W → Prop), (∀ w', listed w' → xLastTime w' = u32 T → (∀ u, due (epoch T) w' u = due (epoch T) w u) →
      tasks w' = slept n forever (tasks w) → Q tt w') →
    wp False (run (vQueueWaitForMessageRestricted os n forever);; yielded ← call (xTaskResumeAll os);
      if yielded : bool then mret tt else run (taskYIELD_WITHIN_API os)) Q w2) as Hsleep.
  { intros n forever Q HQ. apply wp_bind, wp_modify. unfold wp, mbind, ST_bind, call. cbn [tasks with_tasks w2 w1 with_last_time].
    specialize (HQ (with_tasks (slept n forever (tasks w)) w2)). unfold slept in HQ.
    destruct (xTaskResumeAll os _) as [[] k]; (apply HQ; [by destruct HL2|done|done|done]). }
  unfold serve. apply wp_bind, wp_bind, wp_gets. change (id w) with w. apply wp_bind, wp_bind, wp_gets, wp_ret. change (id w) with w.
  destruct (z_items (lists w (pxCurrentTimerList w))) as [|t ts] eqn:Hz; cbn [head].
  - apply wp_ret. apply wp_bind, wp_modify. fold w1. apply wp_bind.
    apply (sample_spec os callback fuel L T); [done|done|done|exact Hnow|]. fold w2. cbn [negb andb].
    apply wp_bind, wp_gets, wp_bind, wp_bind, wp_gets, wp_ret. change (id w2) with w2. cbv zeta.
    assert (u32 (0 - u32 T) = u32 (- T)) as -> by (unfold u32; by rewrite Zminus_mod_idemp_r, Z.sub_0_l).
    assert (bool_decide (head (z_items (lists w2 (pxOverflowTimerList w2))) = None) =
      bool_decide (z_items (lists w (pxOverflowTimerList w)) = [])) as ->.
    { change (lists w2 (pxOverflowTimerList w2)) with (lists w (pxOverflowTimerList w)).
      apply bool_decide_ext. by destruct (z_items (lists w (pxOverflowTimerList w))). }
    apply Hsleep. intros w' H1 H2 H3 H4. split_and!; [done|done|done|]. eexists. split; [|exact H4].
    by apply no_timer_set.
  - assert (t ∈ z_items (lists w (pxCurrentTimerList w))) as Hin by (rewrite Hz; left).
    apply (listed_member _ HL) in Hin as (c&Ec&Hd).
    destruct (head_earliest (epoch T) t ts c w HL Hz Ec) as (Hdue&Hx&Hmin). set (E := epoch T * 2 ^ 32 + expiry c) in *.
    assert (T = epoch T * 2 ^ 32 + u32 T) as HT by (unfold epoch, u32; rewrite Z.mul_comm; by apply Z.div_mod).
    pose proof (u32_range T) as Hr. unfold is_u32 in Hx, Hr.
    apply wp_bind. eapply wp_get_timer; [exact Ec|]. apply wp_ret.
    apply wp_bind, wp_modify. fold w1. apply wp_bind.
    apply (sample_spec os callback fuel L T); [done|done|done|exact Hnow|]. fold w2. cbn [negb andb].
    destruct (Z.leb_spec (expiry c) (u32 T)) as [Hle|Hgt].
    + assert (0 <= E <= T) as HE by (unfold E, epoch in *; pose proof (Z.div_pos T (2 ^ 32)); lia).
      set (w3 := with_tasks (xTaskResumeAll os (vTaskSuspendAll os (tasks w))).2 w2).
      assert (listed w3) as HL3 by by destruct HL.
      apply wp_bind. unfold wp at 1, call. cbn [tasks w2 w1 with_tasks with_last_time].
      destruct (xTaskResumeAll os _) as [y k3] eqn:Ek. cbn [snd] in w3. change (with_tasks k3 w2) with w3. cbn.
      eapply wp_mono; [apply (process_expired_spec callback ran fuel T t ts c w3); [done|exact Hz|exact Ec|exact HE|by apply (Hf t c E)]|].
      fold E. intros _ w' ->. destruct (expired_spec ran E T t c w3 HL3 Ec HE) as (A1&A2&A3&A4&A5).
      assert (pxCurrentTimerList (expired ran E T t c w3) = pxCurrentTimerList w) as Hp
        by (unfold expired, fired, unlinked; rewrite Hd; by destruct (is_auto _)).
      assert (xLastTime (expired ran E T t c w3) = u32 T) as Hl
        by (unfold expired, fired, unlinked; rewrite Hd; by destruct (is_auto _)).
      split_and!; [done|done|]. exists c, E. rewrite (proj2 (Z.leb_le E T)) by lia. split_and!; try done.
      * intros u Hu. apply due_other; [done|]. by rewrite A4.
      * destruct (is_auto c); [|done]. split; [done|]. apply next_due_first. by apply (listed_period _ HL t c).
    + apply wp_bind, wp_gets, wp_bind, wp_bind, wp_gets, wp_ret. cbv zeta.
      assert (u32 (expiry c - u32 T) = E - T) as ->.
      { unfold E. rewrite u32_small; [lia|]. unfold is_u32. lia. }
      apply Hsleep. intros w' H1 H2 H3 H4. split_and!; [done|done|]. exists c, E.
      rewrite (proj2 (Z.leb_gt E T)) by (unfold E; lia). split_and!; try done. by rewrite H3.
Qed.
End service.

(** *** The other commands, and new timers *)

Section other_commands.
Context {K : Type} (os : timer_ops K) (asserts : bool).
Context (callback : Z → Z → ST (daemon K) unit) (pended : Z → Z → Z → ST (daemon K) unit).
Context (ran : Z → Z → K → K) `{!Callbacks callback ran} (fuel : nat).
Local Abbreviation W := (daemon K).

(** What the task's clock has to be for a command to be served before the overflow. *)
Record on_time (L T : Z) (w : W) : Prop := {
  on_time_listed : listed w;
  on_time_now : xTaskGetTickCount os (tasks w) = u32 T;
  on_time_last : xLastTime w = u32 L;
  on_time_order : 0 <= L <= T;
  on_time_epoch : epoch L = epoch T;
}.

(** A stopped timer is due at no time and is reported as dormant. *)
Theorem stop_silences id v L T t c (w : W) : id ∈ [tmrCOMMAND_STOP; tmrCOMMAND_STOP_FROM_ISR] → on_time L T w →
  timers w !! t = Some c →
  wp False (process_message os asserts callback pended fuel (Message id (xTimerParameters v t))) (λ _ w', listed w' ∧
    due (epoch T) w' t = None ∧ has_flag tmrSTATUS_IS_ACTIVE <$> timers w' !! t = Some false ∧
    (∀ u, u ≠ t → due (epoch T) w' u = due (epoch T) w u) ∧ tasks w' = tasks w) w.
Proof.
  intros Hid [HL Hnow Hlast HLT He] Ec. destruct (listed_unlinked t c w HL Ec) as (HL1&Ec1&Ho1).
  eapply message_received; [|exact HL|exact Ec|exact Hnow|exact Hlast|exact HLT|exact He|].
  { unfold tmrCOMMAND_STOP, tmrCOMMAND_STOP_FROM_ISR in Hid. set_unfold in Hid. lia. }
  set (c1 := clear_flag tmrSTATUS_IS_ACTIVE (with_container None c)).
  unfold wp. rewrite (stop_command os asserts callback fuel id v (u32 T) t (with_container None c)) by done.
  fold c1. set (w1 := with_last_time (u32 T) (unlinked t c w)) in *. pose proof (lookup_timer t c1 w1) as Hu.
  split_and!.
  - apply (listed_free t (with_container None c)); [by apply listed_last_time|done|done|done|exact (listed_period _ HL t c Ec)].
  - unfold due. rewrite Hu, decide_True by done. done.
  - rewrite Hu, decide_True by done. simpl. f_equal. unfold c1, clear_flag, has_flag. simpl.
    rewrite <- Z.land_assoc. change (Z.land (Z.lnot _) _) with 0. by rewrite Z.land_0_r.
  - intros u Hne. rewrite <- (unlinked_due (epoch T) (u32 T) t c w u HL Ec Hne). apply due_other; [done|].
    by rewrite Hu, decide_False.
  - unfold w1. cbn [tasks with_timers with_last_time]. apply (unlinked_tasks (u32 T) t c w).
Qed.

(** A timer whose period changes is due one new period after the command is
    received, whether it was running or not. *)
Theorem change_period_restarts id v L T t c (w : W) : id ∈ [tmrCOMMAND_CHANGE_PERIOD; tmrCOMMAND_CHANGE_PERIOD_FROM_ISR] →
  on_time L T w → timers w !! t = Some c → 0 < v < 2 ^ 32 →
  wp False (process_message os asserts callback pended fuel (Message id (xTimerParameters v t))) (λ _ w', listed w' ∧
    due (epoch T) w' t = Some (T + v) ∧ (∀ u, u ≠ t → due (epoch T) w' u = due (epoch T) w u) ∧ tasks w' = tasks w) w.
Proof.
  intros Hid [HL Hnow Hlast HLT He] Ec Hv. destruct (listed_unlinked t c w HL Ec) as (HL1&Ec1&Ho1).
  eapply message_received; [|exact HL|exact Ec|exact Hnow|exact Hlast|exact HLT|exact He|].
  { unfold tmrCOMMAND_CHANGE_PERIOD, tmrCOMMAND_CHANGE_PERIOD_FROM_ISR in Hid. set_unfold in Hid. lia. }
  eapply wp_mono; [apply (change_period_command os asserts callback fuel id v T t (with_container None c));
    [done|by apply listed_last_time|exact Ec1|done|done|lia]|].
  intros [] w' (A1&A2&A3&A4). split_and!; [done|done| |].
  - intros u Hne. by rewrite A4, unlinked_due.
  - rewrite A2. apply (unlinked_tasks (u32 T) t c w).
Qed.

Lemma listed_delete t c (w : W) : listed w → timers w !! t = Some c → timer_container c = None →
  listed (with_timers (delete t (timers w)) w).
Proof.
  intros HL Ec Hn. pose proof (λ l, listed_absent t c w l HL Ec Hn) as Ht. destruct HL as [H1 H2 H3 H4 H5 H6].
  assert (∀ u d, delete t (timers w) !! u = Some d → timers w !! u = Some d) as Hd by (intros u d []%lookup_delete_Some; done).
  split; try done; cbn [lists timers with_timers]; [| |by eauto..].
  - intros l u. rewrite H3. split; intros (d&Ed&Hl); exists d; (split; [|done]); [|by apply Hd].
    rewrite lookup_delete_ne; [done|]. intros ->. congruence.
  - intros l. eapply sorted_sublist; [reflexivity| |apply H4]. intros a b Ha Hb. unfold expiry_of. cbn [timers with_timers].
    rewrite !lookup_delete_ne; [done|intros ->; by eapply Ht..].
Qed.

(** A deleted timer is gone, and its memory goes back to the heap. *)
Theorem delete_frees v L T t c (w : W) : on_time L T w → timers w !! t = Some c →
  has_flag tmrSTATUS_IS_STATICALLY_ALLOCATED c = false →
  wp False (process_message os asserts callback pended fuel (Message tmrCOMMAND_DELETE (xTimerParameters v t))) (λ _ w', listed w' ∧
    timers w' !! t = None ∧ (∀ u, u ≠ t → due (epoch T) w' u = due (epoch T) w u) ∧ tasks w' = vPortFree os t (tasks w)) w.
Proof.
  intros [HL Hnow Hlast HLT He] Ec Hs. destruct (listed_unlinked t c w HL Ec) as (HL1&Ec1&Ho1).
  eapply message_received; [done|exact HL|exact Ec|exact Hnow|exact Hlast|exact HLT|exact He|].
  set (w1 := with_last_time (u32 T) (unlinked t c w)). apply wp_bind. eapply wp_get_timer; [exact Ec1|].
  change (has_flag ?m (with_container None c)) with (has_flag m c). rewrite Hs. apply wp_bind, wp_modify, wp_modify. split_and!.
  - assert (listed (with_timers (delete t (timers w1)) w1)) as [].
    { apply (listed_delete t (with_container None c) w1); [by apply listed_last_time|exact Ec1|done]. }
    by split.
  - apply lookup_delete_eq.
  - intros u Hne. rewrite <- (unlinked_due (epoch T) (u32 T) t c w u HL Ec Hne). apply due_other; [done|].
    by apply lookup_delete_ne.
  - cbn [tasks with_tasks with_timers]. f_equal. apply (unlinked_tasks (u32 T) t c w).
Qed.

(** A new timer is dormant, has what it was given, and leaves the others as they are;
    the first one also sets up the lists and the queue. *)
Theorem create_dormant stale name period auto ident cb addr k q k' (w : W) :
  (if xTimerQueue w =? 0 then timers w = ∅ else listed w) → pvPortMalloc os sizeof_Timer_t (tasks w) = (addr, k) → addr ≠ 0 →
  timers w !! addr = None → xQueueCreate os configTIMER_QUEUE_LENGTH sizeof_DaemonTaskMessage_t k = (q, k') → 0 < period < 2 ^ 32 →
  ∃ w', xTimerCreate os asserts stale name period auto ident cb w = Done (addr, w') ∧ listed w' ∧
    timers w' !! addr = Some (Timer name (stale addr) None period ident cb None (if auto then tmrSTATUS_IS_AUTORELOAD else 0)) ∧
    (∀ e u, due e w' u = due e w u) ∧ xTimerQueue w' = (if xTimerQueue w =? 0 then q else xTimerQueue w) ∧
    tasks w' = if xTimerQueue w =? 0 then k' else k.
Proof.
  intros HL Em Ha Et Eq Hp. set (c := Timer name (stale addr) None period ident cb None (if auto then tmrSTATUS_IS_AUTORELOAD else 0)).
  set (w1 := if xTimerQueue w =? 0 then
    Daemon (timers w) (λ _, z_empty) xActiveTimerList1 xActiveTimerList2 q (xTimerTaskHandle w) (xLastTime w) k' else with_tasks k w).
  exists (with_timers (<[addr := c]> (timers w1)) w1). split.
  { unfold xTimerCreate, prvInitialiseNewTimer, prvCheckForValidListAndQueue, configASSERT, call, gets, modify, mbind, ST_bind.
    rewrite Em. cbn. rewrite (proj2 (Z.eqb_neq addr 0)) by done. cbn. rewrite (proj2 (Z.ltb_lt 0 period)) by lia. rewrite andb_false_r. cbn.
    unfold w1, c. destruct (xTimerQueue w =? 0); cbn; [rewrite Eq; cbn|]; by destruct auto. }
  assert (listed w1) as HL1.
  { unfold w1. destruct (xTimerQueue w =? 0); [|by destruct HL].
    split; simpl; rewrite ?HL; [done|intros _; apply NoDup_nil_2| |intros _; constructor|done|done].
    intros l t. split; [set_solver|]. by intros (d&Ed&_). }
  assert (timers w1 = timers w) as Hw1 by (unfold w1; by destruct (xTimerQueue w =? 0)).
  pose proof (λ u, lookup_timer addr c w1 u) as Hu. split_and!.
  - destruct HL1 as [H1 H2 H3 H4 H5 H6]. split; try done; cbn [lists with_timers].
    + intros l u. rewrite H3, Hu. case_decide; subst; [|done]. rewrite Hw1, Et. split; intros (d&Ed&Hd); simplify_eq/=.
    + intros l. eapply sorted_sublist; [reflexivity| |apply H4].
      assert (∀ a, a ∈ z_items (lists w1 l) → a ≠ addr) as Hne by (intros a (d&Ed&_)%H3 ->; congruence).
      intros a b Haa Hb. unfold expiry_of. rewrite !Hu, !decide_False; [done|by apply Hne..].
    + intros u d. rewrite Hu. case_decide; [intros [= <-]; done|apply H5].
    + intros u d. rewrite Hu. case_decide; [by intros [= <-]|apply H6].
  - by rewrite Hu, decide_True.
  - intros e u. unfold due. rewrite Hu. case_decide; subst; [by rewrite Et|]. rewrite Hw1.
    unfold w1. destruct (xTimerQueue w =? 0) eqn:Eq0; [|done]. by rewrite HL, lookup_empty.
  - unfold w1. by destruct (xTimerQueue w =? 0).
  - unfold w1. by destruct (xTimerQueue w =? 0).
Qed.
End other_commands.

(** *** A command that is received after an overflow *)

Section overflow.
Context {K : Type} (os : timer_ops K) (asserts : bool).
Context (callback : Z → Z → ST (daemon K) unit) (pended : Z → Z → Z → ST (daemon K) unit).
Context (ran : Z → Z → K → K) `{!Callbacks callback ran} (fuel : nat).
Local Abbreviation W := (daemon K).

(** The last time of the clock before it overflows for the [e]-th time. *)
Definition last_of (e : Z) : Z := (e + 1) * 2 ^ 32 - 1.

(** The clock has overflowed once since the task looked at it last, and the fuel is
    enough for all that has expired by then. *)
Record overflowed (L T : Z) (w : W) : Prop := {
  over_listed : listed w;
  over_now : xTaskGetTickCount os (tasks w) = u32 T;
  over_last : xLastTime w = u32 L;
  over_order : 0 <= L < T;
  over_span : T - L < 2 ^ 32;
  over_epoch : epoch T = epoch L + 1;
  over_items : (length (z_items (lists w (pxCurrentTimerList w))) < fuel)%nat;
  over_missed t c : timers w !! t = Some c → due (epoch L) w t = Some (epoch L * 2 ^ 32 + expiry c) →
    missed c (epoch L * 2 ^ 32 + expiry c) (last_of (epoch L)) < Z.of_nat fuel;
}.

Lemma sample_overflowed L T Q (w : W) : overflowed L T w →
  (∀ w', listed w' → xLastTime w' = u32 T →
    (∀ t c, timers w !! t = Some c → due (epoch T) w' t = due (epoch L) w t ≫= advanced (last_of (epoch L)) c) →
    (∀ t, due (epoch L) w t = None → timers w' !! t = timers w !! t) →
    tasks w' = foldl (run_due ran (epoch L) (last_of (epoch L)) w) (tasks w) (z_items (lists w (pxCurrentTimerList w))) →
    Q (u32 T, true) w') →
  wp False (prvSampleTimeNow os callback fuel) Q w.
Proof.
  intros [HL Hnow Hlast HLT Hspan He Hn Hf] HQ. apply wp_bind, wp_gets. change (id w) with w. cbv zeta. rewrite Hnow, Hlast.
  assert (u32 T < u32 L) as Hlt.
  { unfold u32, epoch in *. pose proof (Z.div_mod L (2 ^ 32) ltac:(lia)). pose proof (Z.div_mod T (2 ^ 32) ltac:(lia)). lia. }
  rewrite (proj2 (Z.ltb_lt _ _) Hlt). apply wp_bind, wp_bind.
  eapply wp_mono; [apply (overflow_keeps_times callback ran fuel (epoch L) w); [|done|done|exact Hf]|].
  { unfold epoch. apply Z.div_pos; lia. }
  intros _ w1 (HL1&_&Hdue&Hsame&Hk). fold (last_of (epoch L)) in Hdue, Hk. rewrite <- He in Hdue. apply wp_ret, wp_bind, wp_modify, wp_ret.
  apply HQ; [by apply listed_last_time|done|exact Hdue|exact Hsame|exact Hk].
Qed.

Lemma overflowed_unlinked L T t c (w : W) : overflowed L T w → timers w !! t = Some c → overflowed L T (unlinked t c w).
Proof.
  intros [HL Hnow Hlast HLT Hspan He Hn Hf] Ec. destruct (listed_unlinked t c w HL Ec) as (HL1&Ec1&Ho1).
  assert (tasks (unlinked t c w) = tasks w ∧ xLastTime (unlinked t c w) = xLastTime w ∧
    pxCurrentTimerList (unlinked t c w) = pxCurrentTimerList w ∧
    (length (z_items (lists (unlinked t c w) (pxCurrentTimerList w))) <= length (z_items (lists w (pxCurrentTimerList w))))%nat) as (Hk&Hl&Hp&Hz).
  { unfold unlinked. destruct (timer_container c) as [l|]; [|done]. split_and!; [done..|]. cbn.
    destruct (decide (pxCurrentTimerList w = l)) as [->|Hne]; [rewrite fn_lookup_insert, z_items_remove; apply length_filter|].
    by rewrite fn_lookup_insert_ne. }
  split; [done|by rewrite Hk|by rewrite Hl|done|done|done|rewrite Hp; lia|].
  intros u d Eu Hu. destruct (decide (u = t)) as [->|Hne].
  - unfold due in Hu. rewrite Ec1 in Hu. done.
  - rewrite Ho1 in Eu by done. apply (Hf u d Eu). rewrite <- Hu. symmetry. apply due_other; [done|by apply Ho1].
Qed.

(** C32 (functional): The overflow does not show in a start or reset: the timer is due one period after
    the call, and of the others those that were due before the overflow have expired. *)
Theorem start_over_overflow id C L T t c (w : W) :
  id ∈ [tmrCOMMAND_START; tmrCOMMAND_START_FROM_ISR; tmrCOMMAND_RESET; tmrCOMMAND_RESET_FROM_ISR] →
  overflowed L T w → timers w !! t = Some c → 0 <= C <= T → T - C < 2 ^ 32 → missed c (C + xTimerPeriodInTicks c) T < Z.of_nat fuel →
  wp False (process_message os asserts callback pended fuel (Message id (xTimerParameters (u32 C) t))) (λ _ w', listed w' ∧
    xLastTime w' = u32 T ∧ due (epoch T) w' t = started_due c C T ∧
    ∀ u d, u ≠ t → timers w !! u = Some d → due (epoch T) w' u = due (epoch L) w u ≫= advanced (last_of (epoch L)) d) w.
Proof.
  intros Hid HO Ec HC HT Hf. pose proof (over_listed _ _ _ HO) as HL.
  pose proof (overflowed_unlinked L T t c w HO Ec) as HO1. destruct (listed_unlinked t c w HL Ec) as (HL1&Ec1&Ho1).
  unfold process_message. cbn [xMessageID message_u].
  assert ((id <? 0) = false) as -> by (unfold tmrCOMMAND_START, tmrCOMMAND_START_FROM_ISR, tmrCOMMAND_RESET, tmrCOMMAND_RESET_FROM_ISR in Hid;
    apply Z.ltb_ge; set_unfold in Hid; lia).
  apply wp_bind. eapply wp_get_timer; [exact Ec|]. apply wp_bind. apply wp_take_out; [done|].
  apply wp_bind. apply (sample_overflowed L T _ _ HO1). intros w1 HLw Hlast Hdue Hsame _.
  assert (due (epoch L) (unlinked t c w) t = None) as Hnone by (unfold due; by rewrite Ec1).
  assert (timers w1 !! t = Some (with_container None c)) as Ect by by rewrite Hsame.
  eapply wp_mono; [apply (start_command os asserts callback ran fuel id C T t (with_container None c) w1); done|].
  intros [] w' (A1&A2&A3&A4&A5). split_and!; [done|congruence|exact A3|].
  intros u d Hu Ed. rewrite A4 by done. rewrite (Hdue u d) by by rewrite Ho1. f_equal. apply due_other; [|by apply Ho1].
  unfold unlinked. by destruct (timer_container c).
Qed.
End overflow.

(** ** A concrete run

    The kernel is a clock and a log: what was called, and how long the task slept. *)

Module Demo.
Definition K : Type := Z * list (Z * Z).
Definition log (x y : Z) (k : K) : K := (k.1, k.2 ++ [(x, y)]).
Definition ran (f t : Z) (k : K) : K := log f t k.
Definition callback (f t : Z) : ST (daemon K) unit := modify (λ w, with_tasks (ran f t (tasks w)) w).
#[export] Instance callbacks : Callbacks callback ran.
Proof. intros f t w. done. Qed.
Definition pended (f p1 p2 : Z) : ST (daemon K) unit := mret tt.
Definition os : timer_ops K := TimerOps K (λ _ k, (0x40, k)) (λ t k, log (-2) t k) (λ _ _ k, (0x99, k)) (λ _ _ k, (true, k))
  (λ _ w k, (true, w, k)) (λ _ k, (None, k)) (λ n _ k, log (-1) n k) (λ k, k.1) (λ _, true) id (λ k, (false, k)) id (λ _ k, (Some 0x77, k)).

(** A periodic timer, a single one for after the overflow, and a dormant periodic one. *)
Definition periodic (x : Z) (l : option timer_list) : Timer_t := Timer 0 x l 10 0 0xA None tmrSTATUS_IS_AUTORELOAD.
Definition single : Timer_t := Timer 0 5 (Some xActiveTimerList2) 20 0 0xB None 0.
Definition world (last now : Z) : daemon K :=
  Daemon {[0x20 := periodic 4294967200 (Some xActiveTimerList1); 0x30 := single; 0x40 := periodic 0 None]}
    (λ l, match l with xActiveTimerList1 => Zipper [] [0x20] | xActiveTimerList2 => Zipper [] [0x30] end)
    xActiveTimerList1 xActiveTimerList2 0x99 0x77 last (now, []).

Lemma world_timer last now t c : timers (world last now) !! t = Some c →
  (t = 0x20 ∧ c = periodic 4294967200 (Some xActiveTimerList1)) ∨ (t = 0x30 ∧ c = single) ∨ (t = 0x40 ∧ c = periodic 0 None).
Proof.
  unfold world. cbn [timers]. rewrite !lookup_insert_Some, lookup_singleton_Some.
  intros [[<- <-]|[_ [[<- <-]|[_ [<- <-]]]]]; auto.
Qed.

Lemma world_listed last now : listed (world last now).
Proof.
  split.
  - done.
  - intros []; apply NoDup_singleton.
  - intros l t. split.
    + destruct l; intros ->%list_elem_of_singleton; by eexists.
    + intros (c&[[-> ->]|[[-> ->]|[-> ->]]]%world_timer&Hc); simplify_eq/=; by left.
  - intros []; repeat constructor.
  - intros t c [[-> ->]|[[-> ->]|[-> ->]]]%world_timer; done.
  - intros t c [[-> ->]|[[-> ->]|[-> ->]]]%world_timer; done.
Qed.
Lemma world_due last now e t c D : timers (world last now) !! t = Some c → due e (world last now) t = Some D →
  (c = periodic 4294967200 (Some xActiveTimerList1) ∧ D = e * 2 ^ 32 + 4294967200) ∨ (c = single ∧ D = (e + 1) * 2 ^ 32 + 5).
Proof.
  intros Et H. unfold due in H. rewrite Et in H. apply world_timer in Et as [[-> ->]|[[-> ->]|[-> ->]]];
    simplify_eq/=; auto.
Qed.
End Demo.

Lemma earliest_timer_served_witness : ∃ w', serve Demo.os Demo.callback 10 (Demo.world 4294967190 4294967225) = Done (tt, w') ∧
  due 0 w' 0x20 = Some 4294967230 ∧ due 0 w' 0x30 = Some 4294967301 ∧ (tasks w').2 = [(0xA, 0x20); (0xA, 0x20); (0xA, 0x20)].
Proof.
  set (w := Demo.world 4294967190 4294967225).
  unshelve epose proof (earliest_timer_served Demo.os Demo.callback Demo.ran 10 4294967190 4294967225 w _ _ _ _ _ _) as H.
  - apply Demo.callbacks.
  - apply Demo.world_listed.
  - reflexivity.
  - lia.
  - reflexivity.
  - reflexivity.
  - intros t c E Et Hd. by destruct (Demo.world_due _ _ _ _ _ _ Et Hd) as [[-> ->]|[-> ->]].
  - unfold wp in H. destruct (serve _ _ _ w) as [[[] w']| |]; [|done..]. exists w'. split; [done|].
    destruct H as (_&_&c&E&Hc&HE&_&Ho&Hif).
    change (Some (Demo.periodic 4294967200 (Some xActiveTimerList1)) = Some c) in Hc. change (Some 4294967200 = Some E) in HE.
    injection Hc as <-. injection HE as <-.
    destruct Hif as [[Hd _] Hk]. split; [exact Hd|]. split; [by rewrite Ho|]. by rewrite Hk.
Defined.

(** Started six ticks before the overflow, received twelve ticks after it, with the
    overflow already seen or not. *)
Lemma start_exact_witness : ∃ w', process_message Demo.os true Demo.callback Demo.pended 5
    (Message tmrCOMMAND_START (xTimerParameters 4294967290 0x40)) (Demo.world 1 12) = Done (tt, w') ∧
  due 1 w' 0x40 = Some 4294967310 ∧ due 1 w' 0x30 = Some 8589934597 ∧ (tasks w').2 = [(0xA, 0x40)].
Proof.
  set (w := Demo.world 1 12).
  unshelve epose proof (start_exact Demo.os true Demo.callback Demo.pended Demo.ran 5 tmrCOMMAND_START 4294967290 4294967297 4294967308
    0x40 (Demo.periodic 0 None) w _ _ _ _ _ _ _ _ _ _) as H.
  - apply Demo.callbacks.
  - by left.
  - apply Demo.world_listed.
  - reflexivity.
  - reflexivity.
  - reflexivity.
  - lia.
  - reflexivity.
  - lia.
  - lia.
  - by vm_compute.
  - unfold wp in H. change (u32 4294967290) with 4294967290 in H. destruct (process_message _ _ _ _ _ _ w) as [[[] w']| |]; [|done..].
    exists w'. split; [done|]. destruct H as (_&_&Hd&Ho&Hk). split; [exact Hd|]. split; [by rewrite Ho|]. by rewrite Hk.
Defined.

Lemma start_over_overflow_witness : ∃ w', process_message Demo.os true Demo.callback Demo.pended 11
    (Message tmrCOMMAND_START (xTimerParameters 4294967290 0x40)) (Demo.world 4294967190 12) = Done (tt, w') ∧
  due 1 w' 0x40 = Some 4294967310 ∧ due 1 w' 0x20 = Some 4294967300 ∧ due 1 w' 0x30 = Some 4294967301.
Proof.
  set (w := Demo.world 4294967190 12).
  unshelve epose proof (start_over_overflow Demo.os true Demo.callback Demo.pended Demo.ran 11 tmrCOMMAND_START 4294967290 4294967190 4294967308
    0x40 (Demo.periodic 0 None) w _ _ _ _ _ _) as H.
  - apply Demo.callbacks.
  - by left.
  - split; [apply Demo.world_listed|reflexivity|reflexivity|lia|lia|reflexivity|simpl; lia|].
    intros t c Et Hd. by destruct (Demo.world_due _ _ _ _ _ _ Et Hd) as [[-> ->]|[-> ->]].
  - reflexivity.
  - lia.
  - lia.
  - by vm_compute.
  - unfold wp in H. change (u32 4294967290) with 4294967290 in H. destruct (process_message _ _ _ _ _ _ w) as [[[] w']| |]; [|done..].
    exists w'. split; [done|]. destruct H as (_&_&Hd&Ho). split; [exact Hd|].
    split; [exact (Ho 0x20 (Demo.periodic 4294967200 (Some xActiveTimerList1)) ltac:(done) eq_refl)|exact (Ho 0x30 Demo.single ltac:(done) eq_refl)].
Defined.
