(* ===== verification/Pbuf.v ===== *)
(** * Packet buffers of lwIP

    [stacks/tcpip/lwip/src/core/pbuf.c]: a packet is a chain of [pbuf] structures, each
    with a piece of the data and a reference count. The state holds the structures by
    their address (0 is [NULL]), the memory the payload pointers point into by block,
    and the allocators of [mem.c] and [memp.c], which are a table of operations. The
    block of a structure whose data follow it has the structure's address, and its
    offset 0 is the first byte behind the structure.

    [lwipopts.h] is generated and not part of the repository: the alignment, the size of
    the structure, the header lengths and the size of a pool buffer are parameters.
    Checksums on copy and window scaling have their default, off. A failing
    [LWIP_ASSERT] loops for ever, as [arch/cc.h] defines it. *)

From stdpp Require Import gmap.
From S2P Require Import Prelude.
Local Open Scope Z_scope.

(** ** Data *)

Definition ERR_OK : Z := 0.
Definition ERR_MEM : Z := -1.
Definition ERR_VAL : Z := -6.
Definition ERR_ARG : Z := -16.
Definition PBUF_TYPE_FLAG_STRUCT_DATA_CONTIGUOUS : Z := 0x80.
Definition PBUF_TYPE_ALLOC_SRC_MASK : Z := 0x0F.
Definition PBUF_TYPE_ALLOC_SRC_MASK_STD_HEAP : Z := 0x00.
Definition PBUF_TYPE_ALLOC_SRC_MASK_STD_MEMP_PBUF : Z := 0x01.
Definition PBUF_TYPE_ALLOC_SRC_MASK_STD_MEMP_PBUF_POOL : Z := 0x02.
Definition PBUF_RAM : Z := 0x280.
Definition PBUF_ROM : Z := 0x01.
Definition PBUF_REF : Z := 0x41.
Definition PBUF_POOL : Z := 0x182.
Definition PBUF_FLAG_IS_CUSTOM : Z := 0x02.
Definition NETIF_NO_INDEX : Z := 0.

(** A pointer into a block of memory. *)
Record pointer := Pointer { block : Z; offset : Z }.
Definition null : pointer := Pointer 0 0.
Definition advance (x : pointer) (n : Z) : pointer := Pointer (block x) (offset x + n).

(** [rx_buf] is the custom data of the Ethernet port: the receive buffer. *)
Record pbuf := Pbuf {
  next : Z;
  payload : pointer;
  tot_len : Z;
  plen : Z;
  type_internal : Z;
  flags : Z;
  ref : Z;
  if_idx : Z;
  rx_buf : pointer;
}.
Definition with_next x b := Pbuf x (payload b) (tot_len b) (plen b) (type_internal b) (flags b) (ref b) (if_idx b) (rx_buf b).
Definition with_payload x b := Pbuf (next b) x (tot_len b) (plen b) (type_internal b) (flags b) (ref b) (if_idx b) (rx_buf b).
Definition with_tot_len x b := Pbuf (next b) (payload b) x (plen b) (type_internal b) (flags b) (ref b) (if_idx b) (rx_buf b).
Definition with_len x b := Pbuf (next b) (payload b) (tot_len b) x (type_internal b) (flags b) (ref b) (if_idx b) (rx_buf b).
Definition with_ref x b := Pbuf (next b) (payload b) (tot_len b) (plen b) (type_internal b) (flags b) x (if_idx b) (rx_buf b).
Definition with_if_idx x b := Pbuf (next b) (payload b) (tot_len b) (plen b) (type_internal b) (flags b) (ref b) x (rx_buf b).
Definition with_rx_buf x b := Pbuf (next b) (payload b) (tot_len b) (plen b) (type_internal b) (flags b) (ref b) (if_idx b) x.

Inductive pool := MEMP_PBUF | MEMP_PBUF_POOL.
Definition pbuf_get_allocsrc (b : pbuf) : Z := Z.land (type_internal b) PBUF_TYPE_ALLOC_SRC_MASK.
Definition pbuf_match_allocsrc (b : pbuf) (type : Z) : bool :=
  pbuf_get_allocsrc b =? Z.land type PBUF_TYPE_ALLOC_SRC_MASK.
Definition is_custom (b : pbuf) : bool := negb (Z.land (flags b) PBUF_FLAG_IS_CUSTOM =? 0).

Record store (M : Type) := Store { pbufs : gmap Z pbuf; blocks : gmap Z bytes; allocator : M }.
Arguments Store {M}. Arguments pbufs {M}. Arguments blocks {M}. Arguments allocator {M}.

(** [fresh p n] are the bytes found in a block of [n] bytes just allocated at [p]. *)
Record mem_ops (M : Type) := MemOps {
  mem_malloc : Z → M → Z * M;
  mem_trim : Z → Z → M → Z * M;
  mem_free : Z → M → M;
  memp_malloc : pool → M → Z * M;
  memp_free : pool → Z → M → M;
  fresh : Z → Z → M → bytes;
  PBUF_POOL_IS_EMPTY : M → M;
}.
Arguments mem_malloc {M}. Arguments mem_trim {M}. Arguments mem_free {M}. Arguments memp_malloc {M}.
Arguments memp_free {M}. Arguments fresh {M}. Arguments PBUF_POOL_IS_EMPTY {M}.

(** The options that the code leaves to [lwipopts.h]. *)
Record options := Options {
  MEM_ALIGNMENT : Z;
  sizeof_struct_pbuf : Z;
  PBUF_POOL_BUFSIZE : Z;
  mem_size_t : Z → Z;
}.

Inductive contiguous := Nothing | InPbuf (at_ : pointer) | InBuffer (data : bytes).

(** ** Operations *)

Section operations.
Context {M : Type} (ops : mem_ops M) (opt : options) (custom_free_function : Z → ST (store M) unit).
Local Abbreviation S := (store M).

Definition LWIP_ASSERT (b : bool) : ST S unit := if b then mret tt else diverge.
Definition get (p : Z) : ST S pbuf := λ s, match pbufs s !! p with Some b => Done (b, s) | None => Fault end.
Definition put (p : Z) (b : pbuf) : ST S unit := modify (λ s, Store (<[p:=b]> (pbufs s)) (blocks s) (allocator s)).
Definition upd (p : Z) (f : pbuf → pbuf) : ST S unit := b ← get p; put p (f b).
Definition call {A} (f : M → A * M) : ST S A :=
  λ s, let '(a, m) := f (allocator s) in Done (a, Store (pbufs s) (blocks s) m).
(** The structure and the memory behind it are gone. *)
Definition release (p : Z) (f : M → M) : ST S unit :=
  modify (λ s, Store (delete p (pbufs s)) (delete p (blocks s)) (f (allocator s))).
(** [n] bytes at [x], and writing there. *)
Definition read (x : pointer) (n : Z) : ST S bytes :=
  λ s, match blocks s !! block x with
       | Some m => match slice m (offset x) n with Done d => Done (d, s) | Fault => Fault | Diverge => Diverge end
       | None => if n =? 0 then Done ([], s) else Fault end.
Definition write (x : pointer) (d : bytes) : ST S unit :=
  λ s, match blocks s !! block x with
       | Some m => match memcpy m (offset x) d with
                   | Done m => Done (tt, Store (pbufs s) (<[block x:=m]> (blocks s)) (allocator s))
                   | Fault => Fault | Diverge => Diverge end
       | None => if len d =? 0 then Done (tt, s) else Fault end.

Definition LWIP_MEM_ALIGN_SIZE (size : Z) : Z :=
  Z.land (u32 (size + MEM_ALIGNMENT opt - 1)) (u32 (Z.lnot (u32 (MEM_ALIGNMENT opt - 1)))).
Definition LWIP_MEM_ALIGN (addr : Z) : Z :=
  Z.land (u32 (addr + MEM_ALIGNMENT opt - 1)) (u32 (Z.lnot (u32 (MEM_ALIGNMENT opt - 1)))).
Definition SIZEOF_STRUCT_PBUF : Z := LWIP_MEM_ALIGN_SIZE (sizeof_struct_pbuf opt).
Definition PBUF_POOL_BUFSIZE_ALIGNED : Z := LWIP_MEM_ALIGN_SIZE (PBUF_POOL_BUFSIZE opt).
(** The aligned address [n] bytes behind the structure at [p]. *)
Definition behind (p n : Z) : pointer :=
  Pointer p (LWIP_MEM_ALIGN (p + SIZEOF_STRUCT_PBUF + n) - (p + SIZEOF_STRUCT_PBUF)).
Definition address_of (x : pointer) : Z := block x + SIZEOF_STRUCT_PBUF + offset x.

(** *** References *)

Definition free_one (p : Z) (b : pbuf) : ST S unit :=
  if is_custom b then custom_free_function p
  else
    let alloc_src := pbuf_get_allocsrc b in
    if alloc_src =? PBUF_TYPE_ALLOC_SRC_MASK_STD_MEMP_PBUF_POOL then release p (memp_free ops MEMP_PBUF_POOL p)
    else if alloc_src =? PBUF_TYPE_ALLOC_SRC_MASK_STD_MEMP_PBUF then release p (memp_free ops MEMP_PBUF p)
    else if alloc_src =? PBUF_TYPE_ALLOC_SRC_MASK_STD_HEAP then release p (mem_free ops p)
    else LWIP_ASSERT false.

Fixpoint free_loop (fuel : nat) (p count : Z) : ST S Z :=
  match fuel with
  | O => diverge
  | Datatypes.S fuel =>
      if negb (p =? 0) then
        b ← get p;
        LWIP_ASSERT (0 <? ref b);;
        let ref := u8 (ref b - 1) in
        put p (with_ref ref b);;
        if ref =? 0 then
          let q := next b in
          free_one p b;;
          free_loop fuel q (u8 (count + 1))
        else free_loop fuel 0 count
      else mret count
  end.
Definition pbuf_free (fuel : nat) (p : Z) : ST S Z :=
  if p =? 0 then LWIP_ASSERT false;; mret 0 else free_loop fuel p 0.

Definition pbuf_ref (p : Z) : ST S unit :=
  if negb (p =? 0) then
    upd p (λ b, with_ref (u8 (ref b + 1)) b);;
    b ← get p;
    LWIP_ASSERT (0 <? ref b)
  else mret tt.

Fixpoint clen_loop (fuel : nat) (p n : Z) : ST S Z :=
  match fuel with
  | O => diverge
  | Datatypes.S fuel =>
      if negb (p =? 0) then b ← get p; clen_loop fuel (next b) (u16 (n + 1)) else mret n
  end.
Definition pbuf_clen (fuel : nat) (p : Z) : ST S Z := clen_loop fuel p 0.

(** *** Allocation *)

Definition pbuf_init_alloced_pbuf (p : Z) (payload : pointer) (tot_len len type flags : Z) : ST S unit :=
  put p (Pbuf 0 payload tot_len len (u8 type) flags 1 NETIF_NO_INDEX null).
(** The memory behind a structure that has just been allocated. *)
Definition new_block (p n : Z) : ST S unit :=
  modify (λ s, Store (pbufs s) (<[p := fresh ops p n (allocator s)]> (blocks s)) (allocator s)).

Definition pbuf_alloc_reference (payload : pointer) (length type : Z) : ST S Z :=
  LWIP_ASSERT ((type =? PBUF_REF) || (type =? PBUF_ROM));;
  p ← call (memp_malloc ops MEMP_PBUF);
  if p =? 0 then mret 0
  else pbuf_init_alloced_pbuf p payload length length type 0;; mret p.

(** [whole]: the fuel to free the chain with. *)
Fixpoint pool_loop (whole fuel : nat) (p last rem_len offset : Z) : ST S Z :=
  match fuel with
  | O => diverge
  | Datatypes.S fuel =>
      q ← call (memp_malloc ops MEMP_PBUF_POOL);
      if q =? 0 then
        call (λ m, (tt, PBUF_POOL_IS_EMPTY ops m));;
        (if negb (p =? 0) then pbuf_free whole p;; mret tt else mret tt);;
        mret 0
      else
        new_block q PBUF_POOL_BUFSIZE_ALIGNED;;
        let room := u32 (PBUF_POOL_BUFSIZE_ALIGNED - LWIP_MEM_ALIGN_SIZE offset) in
        let qlen := Z.min rem_len (u16 room) in
        pbuf_init_alloced_pbuf q (behind q offset) rem_len qlen PBUF_POOL 0;;
        LWIP_ASSERT (address_of (behind q offset) mod MEM_ALIGNMENT opt =? 0);;
        LWIP_ASSERT (0 <? room);;
        p ← (if p =? 0 then mret q else upd last (with_next q);; mret p);
        let rem_len := u16 (rem_len - qlen) in
        if 0 <? rem_len then pool_loop whole fuel p q rem_len 0 else mret p
  end.

Definition pbuf_alloc (fuel : nat) (layer length type : Z) : ST S Z :=
  let offset := u16 layer in
  if (type =? PBUF_REF) || (type =? PBUF_ROM) then pbuf_alloc_reference null length type
  else if type =? PBUF_POOL then pool_loop fuel fuel 0 0 length offset
  else if type =? PBUF_RAM then
    let payload_len := mem_size_t opt (LWIP_MEM_ALIGN_SIZE offset + LWIP_MEM_ALIGN_SIZE length) in
    let alloc_len := mem_size_t opt (LWIP_MEM_ALIGN_SIZE SIZEOF_STRUCT_PBUF + payload_len) in
    if (payload_len <? LWIP_MEM_ALIGN_SIZE length) || (alloc_len <? LWIP_MEM_ALIGN_SIZE length) then mret 0
    else
      p ← call (mem_malloc ops alloc_len);
      if p =? 0 then mret 0
      else
        new_block p (alloc_len - SIZEOF_STRUCT_PBUF);;
        pbuf_init_alloced_pbuf p (behind p offset) length length type 0;;
        LWIP_ASSERT (address_of (behind p offset) mod MEM_ALIGNMENT opt =? 0);;
        mret p
  else LWIP_ASSERT false;; mret 0.

(** [p] is the custom structure, [payload_mem] the buffer, of [payload_mem_len] bytes. *)
Definition pbuf_alloced_custom (l length type p : Z) (payload_mem : pointer) (payload_mem_len : Z) : ST S Z :=
  let offset := u16 l in
  if payload_mem_len <? LWIP_MEM_ALIGN_SIZE offset + length then mret 0
  else
    let payload := if negb (block payload_mem =? 0) then advance payload_mem (LWIP_MEM_ALIGN_SIZE offset) else null in
    pbuf_init_alloced_pbuf p payload length length type PBUF_FLAG_IS_CUSTOM;;
    mret p.

(** *** Lengths *)

Fixpoint keep_loop (fuel : nat) (q rem_len shrink : Z) : ST S (Z * Z) :=
  match fuel with
  | O => diverge
  | Datatypes.S fuel =>
      b ← get q;
      if plen b <? rem_len then
        put q (with_tot_len (u16 (tot_len b - shrink)) b);;
        LWIP_ASSERT (negb (next b =? 0));;
        keep_loop fuel (next b) (u16 (rem_len - plen b)) shrink
      else mret (q, rem_len)
  end.

(** [mem_trim] gives back what lies behind the first [size] bytes of the block. *)
Definition trim (p size : Z) : ST S Z :=
  q ← call (mem_trim ops p size);
  modify (λ s, Store (pbufs s)
    (alter (take (Z.to_nat (size - SIZEOF_STRUCT_PBUF))) p (blocks s)) (allocator s));;
  mret q.

Definition pbuf_realloc (fuel : nat) (p new_len : Z) : ST S unit :=
  LWIP_ASSERT (negb (p =? 0));;
  b ← get p;
  if tot_len b <=? new_len then mret tt
  else
    let shrink := u16 (tot_len b - new_len) in
    '(q, rem_len) ← keep_loop fuel p new_len shrink;
    b ← get q;
    q ← (
      if pbuf_match_allocsrc b PBUF_TYPE_ALLOC_SRC_MASK_STD_HEAP && negb (rem_len =? plen b) && negb (is_custom b) then
        q ← trim q (SIZEOF_STRUCT_PBUF + offset (payload b) + rem_len);
        LWIP_ASSERT (negb (q =? 0));;
        mret q
      else mret q);
    upd q (λ b, with_tot_len rem_len (with_len rem_len b));;
    b ← get q;
    (if negb (next b =? 0) then pbuf_free fuel (next b);; mret tt else mret tt);;
    upd q (with_next 0).

Definition pbuf_add_header_impl (p header_size_increment : Z) (force : bool) : ST S Z :=
  LWIP_ASSERT (negb (p =? 0));;
  if 0xFFFF <? header_size_increment then mret 1
  else if header_size_increment =? 0 then mret 0
  else
    let increment_magnitude := u16 header_size_increment in
    b ← get p;
    if u16 (increment_magnitude + tot_len b) <? increment_magnitude then mret 1
    else
      let x := advance (payload b) (- header_size_increment) in
      if negb (Z.land (type_internal b) PBUF_TYPE_FLAG_STRUCT_DATA_CONTIGUOUS =? 0) && (offset x <? 0) then mret 1
      else if (Z.land (type_internal b) PBUF_TYPE_FLAG_STRUCT_DATA_CONTIGUOUS =? 0) && negb force then mret 1
      else
        put p (with_payload x (with_len (u16 (plen b + increment_magnitude))
          (with_tot_len (u16 (tot_len b + increment_magnitude)) b)));;
        mret 0.
Definition pbuf_add_header (p header_size_increment : Z) : ST S Z := pbuf_add_header_impl p header_size_increment false.
Definition pbuf_add_header_force (p header_size_increment : Z) : ST S Z :=
  pbuf_add_header_impl p header_size_increment true.

Definition pbuf_remove_header (p header_size_decrement : Z) : ST S Z :=
  LWIP_ASSERT (negb (p =? 0));;
  if 0xFFFF <? header_size_decrement then mret 1
  else if header_size_decrement =? 0 then mret 0
  else
    let increment_magnitude := u16 header_size_decrement in
    b ← get p;
    if negb (increment_magnitude <=? plen b) then mret 1
    else
      put p (with_payload (advance (payload b) header_size_decrement)
        (with_len (u16 (plen b - increment_magnitude)) (with_tot_len (u16 (tot_len b - increment_magnitude)) b)));;
      mret 0.

Definition pbuf_header_impl (p header_size_increment : Z) (force : bool) : ST S Z :=
  if header_size_increment <? 0 then pbuf_remove_header p (- header_size_increment)
  else pbuf_add_header_impl p header_size_increment force.
Definition pbuf_header (p header_size_increment : Z) : ST S Z := pbuf_header_impl p header_size_increment false.
Definition pbuf_header_force (p header_size_increment : Z) : ST S Z := pbuf_header_impl p header_size_increment true.

Fixpoint pbuf_free_header (fuel : nat) (p free_left : Z) : ST S Z :=
  match fuel with
  | O => diverge
  | Datatypes.S fuel' =>
      if negb (free_left =? 0) && negb (p =? 0) then
        b ← get p;
        if plen b <=? free_left then
          put p (with_next 0 b);;
          pbuf_free 2 p;;
          pbuf_free_header fuel' (next b) (u16 (free_left - plen b))
        else pbuf_remove_header p free_left;; mret p
      else mret p
  end.

(** *** Chains *)

Fixpoint cat_loop (fuel : nat) (p t : Z) : ST S Z :=
  match fuel with
  | O => diverge
  | Datatypes.S fuel =>
      b ← get p;
      if negb (next b =? 0) then
        bt ← get t;
        put p (with_tot_len (u16 (tot_len b + tot_len bt)) b);;
        cat_loop fuel (next b) t
      else mret p
  end.
Definition pbuf_cat (fuel : nat) (h t : Z) : ST S unit :=
  if (h =? 0) || (t =? 0) then mret tt
  else
    p ← cat_loop fuel h t;
    b ← get p;
    LWIP_ASSERT (tot_len b =? plen b);;
    LWIP_ASSERT (next b =? 0);;
    bt ← get t;
    put p (with_next t (with_tot_len (u16 (tot_len b + tot_len bt)) b)).
Definition pbuf_chain (fuel : nat) (h t : Z) : ST S unit := pbuf_cat fuel h t;; pbuf_ref t.

Definition pbuf_dechain (fuel : nat) (p : Z) : ST S Z :=
  b ← get p;
  let q := next b in
  tail_gone ← (
    if negb (q =? 0) then
      bq ← get q;
      LWIP_ASSERT (tot_len bq =? tot_len b - plen b);;
      put q (with_tot_len (u16 (tot_len b - plen b)) bq);;
      upd p (λ b, with_tot_len (plen b) (with_next 0 b));;
      pbuf_free fuel q
    else mret 1);
  b ← get p;
  LWIP_ASSERT (tot_len b =? plen b);;
  mret (if 0 <? tail_gone then 0 else q).

(** *** Copies *)

(** A structure of a packet that is longer than it must have no successor. *)
Definition last_of_packet (p : Z) : ST S bool :=
  if negb (p =? 0) then
    b ← get p;
    mret (negb (plen b =? tot_len b) || (next b =? 0))
  else mret true.

Fixpoint copy_loop (fuel : nat) (p_to p_from offset_to offset_from copy_len : Z) : ST S Z :=
  match fuel with
  | O => diverge
  | Datatypes.S fuel =>
      bt ← get p_to;
      bf ← get p_from;
      let room := u32 (plen bt - offset_to) in
      let rest := u32 (plen bf - offset_from) in
      let len_calc := if rest <=? room then rest else room in
      let len := u16 (Z.min copy_len len_calc) in
      d ← read (advance (payload bf) offset_from) len;
      write (advance (payload bt) offset_to) d;;
      let offset_to := u32 (offset_to + len) in
      let offset_from := u32 (offset_from + len) in
      let copy_len := u16 (copy_len - len) in
      LWIP_ASSERT (offset_to <=? plen bt);;
      LWIP_ASSERT (offset_from <=? plen bf);;
      let '(p_from, offset_from) := if plen bf <=? offset_from then (next bf, 0) else (p_from, offset_from) in
      if (p_from =? 0) && negb (copy_len =? 0) then mret ERR_ARG
      else
        let '(p_to, offset_to) := if offset_to =? plen bt then (next bt, 0) else (p_to, offset_to) in
        if (p_to =? 0) && negb (copy_len =? 0) then mret ERR_ARG
        else
          ok_from ← last_of_packet p_from;
          if negb ok_from then mret ERR_VAL
          else
            ok_to ← last_of_packet p_to;
            if negb ok_to then mret ERR_VAL
            else if negb (copy_len =? 0) then copy_loop fuel p_to p_from offset_to offset_from copy_len
            else mret ERR_OK
  end.

Definition pbuf_copy_partial_pbuf (fuel : nat) (p_to p_from copy_len offset : Z) : ST S Z :=
  if p_from =? 0 then mret ERR_ARG
  else
    bf ← get p_from;
    if tot_len bf <? copy_len then mret ERR_ARG
    else if p_to =? 0 then mret ERR_ARG
    else
      bt ← get p_to;
      if tot_len bt <? offset + copy_len then mret ERR_ARG
      else copy_loop fuel p_to p_from offset 0 copy_len.
Definition pbuf_copy (fuel : nat) (p_to p_from : Z) : ST S Z :=
  if p_from =? 0 then mret ERR_ARG
  else bf ← get p_from; pbuf_copy_partial_pbuf fuel p_to p_from (tot_len bf) 0.

(** The result is the number of bytes copied and the caller's memory. *)
Fixpoint partial_loop (fuel : nat) (p : Z) (dataptr : bytes) (left len offset : Z) : ST S (Z * bytes) :=
  match fuel with
  | O => diverge
  | Datatypes.S fuel =>
      if negb (len =? 0) && negb (p =? 0) then
        b ← get p;
        if negb (offset =? 0) && (plen b <=? offset) then
          partial_loop fuel (next b) dataptr left len (u16 (offset - plen b))
        else
          let buf_copy_len := u16 (plen b - offset) in
          let buf_copy_len := if len <? buf_copy_len then len else buf_copy_len in
          d ← read (advance (payload b) offset) buf_copy_len;
          dataptr ← lift (memcpy dataptr left d);
          partial_loop fuel (next b) dataptr (u16 (left + buf_copy_len)) (u16 (len - buf_copy_len)) 0
      else mret (left, dataptr)
  end.
Definition pbuf_copy_partial (fuel : nat) (buf : Z) (dataptr : option bytes) (len offset : Z) :
    ST S (Z * option bytes) :=
  if buf =? 0 then mret (0, dataptr)
  else match dataptr with
       | None => mret (0, None)
       | Some d => '(n, d) ← partial_loop fuel buf d 0 len offset; mret (n, Some d)
       end.

Fixpoint pbuf_skip (fuel : nat) (q offset_left : Z) : ST S (Z * Z) :=
  match fuel with
  | O => diverge
  | Datatypes.S fuel =>
      if negb (q =? 0) then
        b ← get q;
        if plen b <=? offset_left then pbuf_skip fuel (next b) (u16 (offset_left - plen b))
        else mret (q, offset_left)
      else mret (q, offset_left)
  end.

Definition pbuf_get_contiguous (fuel : nat) (p : Z) (buffer : option bytes) (len offset : Z) : ST S contiguous :=
  if p =? 0 then mret Nothing
  else match buffer with
       | None => mret Nothing
       | Some mem =>
           if Prelude.len mem <? len then mret Nothing
           else
             '(q, out_offset) ← pbuf_skip fuel p offset;
             if negb (q =? 0) then
               b ← get q;
               if out_offset + len <=? plen b then mret (InPbuf (advance (payload b) out_offset))
               else
                 '(n, mem) ← pbuf_copy_partial fuel q (Some mem) len out_offset;
                 mret (if negb (n =? len) then Nothing else InBuffer (default [] mem))
             else mret Nothing
       end.

Fixpoint take_loop (fuel : nat) (p : Z) (dataptr : bytes) (total_copy_len copied_total : Z) : ST S Z :=
  match fuel with
  | O => diverge
  | Datatypes.S fuel =>
      if negb (total_copy_len =? 0) then
        LWIP_ASSERT (negb (p =? 0));;
        b ← get p;
        let buf_copy_len := if plen b <? total_copy_len then plen b else total_copy_len in
        d ← lift (slice dataptr copied_total buf_copy_len);
        write (payload b) d;;
        take_loop fuel (next b) dataptr (total_copy_len - buf_copy_len) (copied_total + buf_copy_len)
      else mret copied_total
  end.
Definition pbuf_take (fuel : nat) (buf : Z) (dataptr : option bytes) (len : Z) : ST S Z :=
  if buf =? 0 then mret ERR_ARG
  else match dataptr with
       | None => mret ERR_ARG
       | Some d =>
           b ← get buf;
           if tot_len b <? len then mret ERR_MEM
           else
             n ← take_loop fuel buf d len 0;
             LWIP_ASSERT (n =? len);;
             mret ERR_OK
       end.

Definition pbuf_take_at (fuel : nat) (buf : Z) (dataptr : bytes) (len offset : Z) : ST S Z :=
  '(q, target_offset) ← pbuf_skip fuel buf offset;
  if negb (q =? 0) then
    b ← get q;
    if target_offset + len <=? tot_len b then
      LWIP_ASSERT (target_offset <? plen b);;
      let first_copy_len := u16 (Z.min (plen b - target_offset) len) in
      d ← lift (slice dataptr 0 first_copy_len);
      write (advance (payload b) target_offset) d;;
      let remaining_len := u16 (len - first_copy_len) in
      if 0 <? remaining_len then
        pbuf_take fuel (next b) (Some (ptr_add dataptr first_copy_len)) remaining_len
      else mret ERR_OK
    else mret ERR_MEM
  else mret ERR_MEM.

Definition pbuf_clone (fuel : nat) (layer type p : Z) : ST S Z :=
  b ← get p;
  q ← pbuf_alloc fuel layer (tot_len b) type;
  if q =? 0 then mret 0
  else
    err ← pbuf_copy fuel q p;
    LWIP_ASSERT (err =? ERR_OK);;
    mret q.
Definition pbuf_coalesce (fuel : nat) (p layer : Z) : ST S Z :=
  b ← get p;
  if next b =? 0 then mret p
  else
    q ← pbuf_clone fuel layer PBUF_RAM p;
    if q =? 0 then mret p
    else pbuf_free fuel p;; mret q.

(** *** Bytes *)

Definition pbuf_try_get_at (fuel : nat) (p offset : Z) : ST S Z :=
  '(q, q_idx) ← pbuf_skip fuel p offset;
  if negb (q =? 0) then
    b ← get q;
    if q_idx <? plen b then d ← read (advance (payload b) q_idx) 1; mret (default 0 (head d)) else mret (-1)
  else mret (-1).
Definition pbuf_get_at (fuel : nat) (p offset : Z) : ST S Z :=
  ret ← pbuf_try_get_at fuel p offset;
  mret (if 0 <=? ret then u8 ret else 0).
Definition pbuf_put_at (fuel : nat) (p offset data : Z) : ST S unit :=
  '(q, q_idx) ← pbuf_skip fuel p offset;
  if negb (q =? 0) then
    b ← get q;
    if q_idx <? plen b then write (advance (payload b) q_idx) [data] else mret tt
  else mret tt.

Fixpoint memcmp_loop (fuel : nat) (q start : Z) (s2 : bytes) (indices : list nat) : ST S Z :=
  match indices with
  | [] => mret 0
  | i :: indices =>
      a ← pbuf_get_at fuel q (u16 (start + Z.of_nat i));
      b ← lift (load s2 (Z.of_nat i));
      if negb (a =? b) then mret (u16 (Z.min (Z.of_nat i + 1) 0xFFFF)) else memcmp_loop fuel q start s2 indices
  end.
Definition pbuf_memcmp (fuel : nat) (p offset : Z) (s2 : bytes) (n : Z) : ST S Z :=
  b ← get p;
  if tot_len b <? offset + n then mret 0xFFFF
  else
    '(q, start) ← pbuf_skip fuel p offset;
    memcmp_loop fuel q start s2 (seq 0 (Z.to_nat n)).

Fixpoint memfind_loop (fuel : nat) (p : Z) (mem : bytes) (mem_len : Z) (positions : list nat) (i : Z) : ST S Z :=
  match positions with
  | [] => mret 0xFFFF
  | _ :: positions =>
      plus ← pbuf_memcmp fuel p i mem mem_len;
      if plus =? 0 then mret i else memfind_loop fuel p mem mem_len positions (u16 (i + 1))
  end.
Definition pbuf_memfind (fuel : nat) (p : Z) (mem : bytes) (mem_len start_offset : Z) : ST S Z :=
  b ← get p;
  let max_cmp_start := u16 (tot_len b - mem_len) in
  if mem_len + start_offset <=? tot_len b then
    memfind_loop fuel p mem mem_len (seq 0 (Z.to_nat (max_cmp_start - start_offset + 1))) start_offset
  else mret 0xFFFF.

(** [substr]: the characters before the terminator. *)
Definition pbuf_strstr (fuel : nat) (p : Z) (substr : option bytes) : ST S Z :=
  match substr with
  | None | Some [] => mret 0xFFFF
  | Some s =>
      b ← get p;
      if tot_len b =? 0xFFFF then mret 0xFFFF
      else if 0xFFFF <=? len s then mret 0xFFFF
      else pbuf_memfind fuel p s (u16 (len s)) 0
  end.
End operations.

(** ** Chains and packets *)

Section theory.
Context {M : Type}.
Local Abbreviation S := (store M).
Implicit Types (s : S) (b : pbuf) (D : Prop).

(** The structures of the chain that begins at [p]. *)
Fixpoint chain (m : gmap Z pbuf) (p : Z) (l : list (Z * pbuf)) : Prop :=
  match l with
  | [] => p = 0
  | (a, b) :: l => p = a ∧ a ≠ 0 ∧ m !! a = Some b ∧ chain m (next b) l
  end.

Lemma chain_inj m p l l' : chain m p l → chain m p l' → l = l'.
Proof.
  revert p l'. induction l as [|[a b] l IH]; intros p [|[a' b'] l']; simpl; [done|naive_solver..|].
  intros (-> & _ & Hb & Hl) (<- & _ & Hb' & Hl'). rewrite Hb in Hb'. simplify_eq. by rewrite (IH _ _ Hl Hl').
Qed.
Lemma chain_suffix m p l1 l2 : chain m p (l1 ++ l2) → ∃ q, chain m q l2.
Proof. revert p. induction l1 as [|[a b] l1 IH]; intros p; simpl; [eauto|]. intros (_ & _ & _ & H). eauto. Qed.
Lemma chain_not_in m a b l : m !! a = Some b → chain m (next b) l → a ≠ 0 → a ∉ l.*1.
Proof.
  intros Hb Hl Ha Hin. apply list_elem_of_fmap in Hin as ([a' b'] & -> & Hin). simpl in *.
  apply list_elem_of_split in Hin as (l1 & l2 & ->).
  pose proof (chain_suffix _ _ _ _ Hl) as (q & Hq & _ & Hb' & Hl2). rewrite Hb in Hb'. simplify_eq.
  pose proof (chain_inj _ _ _ _ Hl Hl2) as E. apply (f_equal length) in E. rewrite length_app in E. simpl in E. lia.
Qed.
Lemma chain_delete m p l a : a ∉ l.*1 → chain m p l → chain (delete a m) p l.
Proof.
  revert p. induction l as [|[a' b'] l IH]; intros p; simpl; [done|]. rewrite not_elem_of_cons.
  intros [Hne Hin] (-> & H0 & Hb & Hl). rewrite lookup_delete_ne by done. auto.
Qed.

Lemma chain_nodup m p l : chain m p l → NoDup l.*1.
Proof.
  revert p. induction l as [|[a b] l IH]; intros p; simpl; [by intros; constructor|].
  intros (_ & Ha & Hb & Hl). apply NoDup_cons. split; [by eapply chain_not_in|by eapply IH].
Qed.
Lemma pbufs_frame m m' p l : (∀ a, a ∈ l.*1 → m' !! a = m !! a) → chain m p l → chain m' p l.
Proof.
  revert p. induction l as [|[a b] l IH]; intros p Hm; simpl; [done|]. intros (-> & Ha & Hb & Hl).
  split; [done|]. split; [done|]. split; [rewrite Hm; [done|by left]|]. apply IH; [|done]. intros x Hx. apply Hm. by right.
Qed.
Lemma lookup_deletes (m : gmap Z pbuf) (l : list Z) a :
  foldl (λ m a, delete a m) m l !! a = if bool_decide (a ∈ l) then None else m !! a.
Proof.
  revert m. induction l as [|x l IH]; intros m; simpl; [done|]. rewrite IH.
  destruct (decide (a = x)) as [->|Hne].
  - rewrite lookup_delete_eq, (bool_decide_true (x ∈ x :: l)) by (by left). by case_match.
  - rewrite lookup_delete_ne by done. rewrite (bool_decide_ext (a ∈ x :: l) (a ∈ l)); [done|].
    rewrite elem_of_cons. naive_solver.
Qed.

(** A packet: each structure with its bytes, and the total length from there on. *)
Definition held s b (d : bytes) : Prop :=
  len d = plen b ∧ ∃ m, blocks s !! block (payload b) = Some m ∧ 0 <= offset (payload b) ∧
    offset (payload b) + len d <= len m ∧ take (length d) (drop (Z.to_nat (offset (payload b))) m) = d.
Definition bytes_of (ns : list (Z * bytes)) : bytes := concat (snd <$> ns).
Fixpoint packet s (p : Z) (ns : list (Z * bytes)) : Prop :=
  match ns with
  | [] => p = 0
  | (a, d) :: ns' => p = a ∧ a ≠ 0 ∧ ∃ b, pbufs s !! a = Some b ∧ held s b d ∧
      (tot_len b = len (bytes_of ns) ∧ tot_len b < 2 ^ 16) ∧ packet s (next b) ns'
  end.

Lemma bytes_of_cons a d ns : bytes_of ((a, d) :: ns) = d ++ bytes_of ns.
Proof. done. Qed.
Lemma packet_zero s p ns : packet s p ns → p = 0 ↔ ns = [].
Proof. destruct ns as [|[a d] ns]; simpl; [done|]. intros (-> & H & _). done. Qed.

Lemma read_data s b d o n : held s b d → 0 <= o → 0 <= n → o + n <= len d →
  read (advance (payload b) o) n s = Done (take (Z.to_nat n) (drop (Z.to_nat o) d), s).
Proof.
  intros (Hd & m & Hm & H0 & Hl & Ht) Ho Hn Hon. unfold read. simpl. rewrite Hm.
  rewrite slice_Done by lia. do 2 f_equal. rewrite <- Ht at 1. unfold len in *.
  rewrite (skipn_firstn_comm (Z.to_nat o)), take_take, drop_drop.
  rewrite Nat.min_l by lia. do 2 f_equal. lia.
Qed.
Lemma read_payload s b d n : held s b d → 0 <= n <= len d → read (payload b) n s = Done (take (Z.to_nat n) d, s).
Proof.
  intros H Hn. pose proof (read_data s b d 0 n H) as Hr. rewrite drop_0 in Hr. rewrite <- Hr by lia.
  unfold advance. rewrite Z.add_0_r. by destruct (payload b).
Qed.

(** ** Walking *)

Lemma get_bind {A} p b (k : pbuf → ST S A) s : pbufs s !! p = Some b → (get p ≫= k) s = k b s.
Proof. intros H. unfold get, mbind, ST_bind. by rewrite H. Qed.

Lemma clen_spec fuel p ns n s : packet s p ns → (length ns < fuel)%nat → 0 <= n → n + len ns < 2 ^ 16 →
  clen_loop fuel p n s = Done (n + len ns, s).
Proof.
  revert p ns n. induction fuel as [|fuel IH]; intros p ns n Hp Hf Hn Hl; [lia|].
  destruct ns as [|[a d] ns]; simpl in Hp; cbn [clen_loop].
  - subst. simpl. rewrite len_nil, Z.add_0_r. done.
  - destruct Hp as (-> & Ha & b & Hb & _ & _ & Hp). rewrite (proj2 (Z.eqb_neq _ _)) by done. cbn [negb].
    rewrite (get_bind _ b) by done. rewrite len_cons in *. pose proof (len_nonneg ns).
    rewrite u16_small by (unfold is_u16; lia).
    rewrite (IH _ ns) by (first [done|simpl in *; lia]). do 2 f_equal. lia.
Qed.

Lemma skip_spec fuel p ns off s : packet s p ns → (length ns < fuel)%nat → 0 <= off < 2 ^ 16 →
  ∃ q o ns1 ns2, pbuf_skip fuel p off s = Done ((q, o), s) ∧ ns = ns1 ++ ns2 ∧ packet s q ns2 ∧
    0 <= o ∧ off = len (bytes_of ns1) + o ∧ (∀ a d ns', ns2 = (a, d) :: ns' → o < len d).
Proof.
  revert p ns off. induction fuel as [|fuel IH]; intros p ns off Hp Hf Hoff; [lia|].
  destruct ns as [|[a d] ns]; simpl in Hp; cbn [pbuf_skip].
  - subst. simpl. exists 0, off, [], []. split; [done|]. split; [done|]. split; [done|]. split; [lia|].
    split; [unfold bytes_of; simpl; rewrite len_nil; lia|done].
  - pose proof Hp as (-> & Ha & b & Hb & Hh & Ht & Hp'). rewrite (proj2 (Z.eqb_neq _ _)) by done. cbn [negb].
    rewrite (get_bind _ b) by done. pose proof (proj1 Hh) as Hlen. rewrite <- Hlen. pose proof (len_nonneg d).
    destruct (Z.leb_spec (len d) off) as [Hle|Hgt].
    + rewrite u16_small by (unfold is_u16; lia).
      destruct (IH (next b) ns (off - len d)) as (q & o & ns1 & ns2 & -> & -> & Hq & Ho & Hoff' & Hlt);
        [done|simpl in *; lia|lia|].
      exists q, o, ((a, d) :: ns1), ns2. rewrite bytes_of_cons, len_app.
      split; [done|]. split; [done|]. split; [done|]. split; [lia|]. split; [lia|done].
    + exists a, off, [], ((a, d) :: ns). split; [done|]. split; [done|]. split; [done|]. split; [lia|].
      split; [unfold bytes_of; simpl; rewrite len_nil; lia|]. intros ??? [= <- <- <-]. done.
Qed.

Lemma bytes_of_app ns1 ns2 : bytes_of (ns1 ++ ns2) = bytes_of ns1 ++ bytes_of ns2.
Proof. unfold bytes_of. by rewrite fmap_app, concat_app. Qed.

Lemma get_at_spec fuel p ns off s : packet s p ns → (length ns < fuel)%nat → 0 <= off < 2 ^ 16 →
  pbuf_try_get_at fuel p off s = Done (default (-1) (bytes_of ns !! Z.to_nat off), s).
Proof.
  intros Hp Hf Hoff. destruct (skip_spec fuel p ns off s Hp Hf Hoff) as
    (q & o & ns1 & ns2 & Hs & -> & Hq & Ho & Hoff' & Hlt).
  unfold pbuf_try_get_at. rewrite (bind_done _ _ _ _ _ Hs). cbn beta iota. rewrite bytes_of_app.
  pose proof (len_nonneg (bytes_of ns1)).
  destruct ns2 as [|[a d] ns2]; simpl in Hq.
  - subst q. change (bytes_of []) with (@nil Z). rewrite app_nil_r.
    change (bytes_of []) with (@nil Z) in *. rewrite lookup_ge_None_2 by (unfold len in *; lia). done.
  - pose proof Hq as (-> & Ha & b & Hb & Hh & _ & _). rewrite (proj2 (Z.eqb_neq _ _)) by done. cbn [negb].
    rewrite (get_bind _ b) by done. rewrite <- (proj1 Hh). specialize (Hlt _ _ _ eq_refl).
    rewrite (proj2 (Z.ltb_lt _ _)) by done.
    rewrite (bind_done _ _ _ _ _ (read_data _ _ _ o 1 Hh ltac:(lia) ltac:(lia) ltac:(lia))).
    rewrite bytes_of_cons, lookup_app_r by (unfold len in *; lia).
    rewrite lookup_app_l by (unfold len in *; lia).
    replace (Z.to_nat off - length (bytes_of ns1))%nat with (Z.to_nat o) by (unfold len in *; lia).
    destruct (lookup_lt_is_Some_2 d (Z.to_nat o)) as [v Hv]; [unfold len in *; lia|].
    change (Z.to_nat 1) with 1%nat. rewrite Hv. rewrite <- (take_drop_middle _ _ _ Hv) at 1.
    rewrite drop_app_ge by (rewrite length_take; lia).
    rewrite length_take_le by (unfold len in *; lia). rewrite Nat.sub_diag. done.
Qed.

Lemma take_drop_split (d e : bytes) n k off : 0 <= off → k = Z.min n (len d - off) → 0 <= k →
  take (Z.to_nat n) (drop (Z.to_nat off) (d ++ e)) =
  take (Z.to_nat k) (drop (Z.to_nat off) d) ++ take (Z.to_nat (n - k)) (drop (Z.to_nat (off + k - len d)) e).
Proof.
  intros Ho -> Hk. unfold len in *. rewrite drop_app. destruct (decide (n <= Z.of_nat (length d) - off)).
  - rewrite Z.min_l by lia. rewrite take_app_le by (rewrite length_drop; lia).
    replace (n - n) with 0 by lia. simpl. by rewrite app_nil_r.
  - rewrite Z.min_r by lia. rewrite take_app_ge by (rewrite length_drop; lia). rewrite length_drop. f_equal.
    + rewrite take_ge; [done|]. rewrite length_drop. lia.
    + f_equal; [lia|]. f_equal. lia.
Qed.

Lemma partial_spec fuel p ns out left n off s : packet s p ns → (length ns < fuel)%nat →
  0 <= left → 0 <= n → 0 <= off < 2 ^ 16 → left + n < 2 ^ 16 →
  let d := take (Z.to_nat n) (drop (Z.to_nat off) (bytes_of ns)) in
  left + len d <= len out →
  partial_loop fuel p out left n off s = Done ((left + len d, patch out left d), s).
Proof.
  revert p ns out left n off. induction fuel as [|fuel IH]; intros p ns out left n off Hp Hf Hl Hn Ho Hln d Hout; [lia|].
  cbn [partial_loop]. destruct ns as [|[a e] ns]; simpl in Hp.
  - subst p. replace d with (@nil Z) by (subst d; unfold bytes_of; simpl; by rewrite drop_nil, take_nil).
    rewrite andb_false_r, len_nil, Z.add_0_r. unfold patch. simpl. rewrite Nat.add_0_r, take_drop. done.
  - destruct (Z.eqb_spec n 0) as [->|Hn0].
    { replace d with (@nil Z) by (subst d; done). cbn. rewrite Z.add_0_r. unfold patch. simpl.
      rewrite Nat.add_0_r, take_drop. done. }
    pose proof Hp as (-> & Ha & b & Hb & Hh & [Ht Ht'] & Hp'). rewrite (proj2 (Z.eqb_neq _ _)) by done. cbn [negb andb].
    rewrite (get_bind _ b) by done. rewrite <- (proj1 Hh). pose proof (len_nonneg e). pose proof (len_nonneg (bytes_of ns)).
    subst d. rewrite bytes_of_cons in *. rewrite len_app in Ht.
    destruct (negb (off =? 0) && (len e <=? off)) eqn:Hskip.
    + apply andb_true_iff in Hskip as [_ Hle%Z.leb_le]. rewrite u16_small by (unfold is_u16; lia).
      rewrite (drop_app_ge e) in * by (unfold len in *; lia).
      replace (Z.to_nat off - length e)%nat with (Z.to_nat (off - len e)) in * by (unfold len in *; lia).
      by apply IH; [|simpl in *; lia|lia..].
    + assert (off < len e ∨ off = 0) as Hoff.
      { apply andb_false_iff in Hskip as [E|E%Z.leb_gt]; [|by left]. apply negb_false_iff, Z.eqb_eq in E. by right. }
      rewrite (u16_small (len e - off)) by (unfold is_u16; lia).
      replace (if n <? len e - off then n else len e - off) with (Z.min n (len e - off)) by (case_match; lia).
      set (k := Z.min n (len e - off)) in *. assert (k = Z.min n (len e - off)) as Hk by done. clearbody k.
      rewrite (take_drop_split e (bytes_of ns) n k off) in * by lia.
      assert (len (take (Z.to_nat k) (drop (Z.to_nat off) e)) = k) as Hlk.
      { rewrite len_take; [done|]. rewrite len_drop by lia. lia. }
      rewrite len_app, Hlk in *. set (d2 := take (Z.to_nat (n - k)) _) in *. pose proof (len_nonneg d2).
      rewrite (bind_done _ _ _ _ _ (read_data _ _ _ off k Hh ltac:(lia) ltac:(lia) ltac:(lia))).
      rewrite (lift_bind _ _ _ _ (memcpy_patch out left (take (Z.to_nat k) (drop (Z.to_nat off) e)) Hl ltac:(lia))).
      rewrite (u16_small (left + k)), (u16_small (n - k)) by (unfold is_u16; lia).
      replace d2 with (take (Z.to_nat (n - k)) (drop (Z.to_nat 0) (bytes_of ns))) in *.
      2: { subst d2. destruct (decide (n = k)) as [->|]; [by rewrite Z.sub_diag|].
           replace (off + k - len e) with 0 by lia. done. }
      rewrite (IH (next b) ns) by (first [done|simpl in *; lia|rewrite len_patch; lia]).
      rewrite patch_patch by lia. do 3 f_equal. lia.
Qed.

(** ** Comparing *)

(** 0, or the position of the first difference counted from 1. *)
Fixpoint first_difference (a b : bytes) : Z :=
  match a, b with
  | x :: a, y :: b => if x =? y then let r := first_difference a b in if r =? 0 then 0 else r + 1 else 1
  | _, _ => 0
  end.
Lemma first_difference_nonneg (a b : bytes) : 0 <= first_difference a b.
Proof.
  revert b. induction a as [|x a IH]; intros [|y b]; simpl; try done. specialize (IH b). cbv zeta. repeat case_match; lia.
Qed.
Lemma first_difference_zero (a b : bytes) : length a = length b → first_difference a b = 0 ↔ a = b.
Proof.
  revert b. induction a as [|x a IH]; intros [|y b] Hl; simpl in *; try done; cbv zeta.
  specialize (IH b ltac:(lia)). pose proof (first_difference_nonneg a b). destruct (Z.eqb_spec x y) as [->|Hne].
  - destruct (Z.eqb_spec (first_difference a b) 0) as [E|E]; split; try done.
    + intros _. f_equal. by apply IH.
    + lia.
    + intros [= ->]. destruct E. by apply IH.
  - split; [lia|]. intros [= -> ->]. done.
Qed.

Lemma memcmp_loop_spec fuel q ns start (s2 : bytes) m i s : packet s q ns → (length ns < fuel)%nat → bytes_ok (bytes_of ns) →
  0 <= start → start + Z.of_nat (i + m) <= len (bytes_of ns) → Z.of_nat (i + m) <= len s2 → len (bytes_of ns) < 2 ^ 16 →
  memcmp_loop fuel q start s2 (seq i m) s =
    Done ((let r := first_difference (take m (drop (Z.to_nat start + i) (bytes_of ns))) (take m (drop i s2)) in
           if r =? 0 then 0 else r + Z.of_nat i), s).
Proof.
  intros Hq Hf Hok H0. revert i. induction m as [|m IH]; intros i Hd Hs H16; [done|].
  cbn [seq memcmp_loop]. rewrite (u16_small (start + Z.of_nat i)) by (unfold is_u16; lia). unfold len in *.
  destruct (lookup_lt_is_Some_2 (bytes_of ns) (Z.to_nat start + i)) as [x Hx]; [lia|].
  destruct (lookup_lt_is_Some_2 s2 i) as [y Hy]; [lia|].
  pose proof (bytes_ok_lookup _ _ _ Hok Hx) as Hx8.
  assert (pbuf_get_at fuel q (start + Z.of_nat i) s = Done (x, s)) as Hget.
  { unfold pbuf_get_at. rewrite (bind_done _ _ _ _ _ (get_at_spec fuel q ns (start + Z.of_nat i) s Hq Hf ltac:(lia))).
    replace (Z.to_nat (start + Z.of_nat i)) with (Z.to_nat start + i)%nat by lia. rewrite Hx. cbn [default id from_option].
    unfold is_u8 in Hx8. rewrite (proj2 (Z.leb_le _ _)) by lia. by rewrite u8_small. }
  rewrite (bind_done _ _ _ _ _ Hget).
  rewrite (lift_bind _ _ _ _ (load_lookup s2 (Z.of_nat i) y ltac:(lia) ltac:(by rewrite Nat2Z.id))).
  rewrite (drop_S _ _ _ Hx), (drop_S _ _ _ Hy). cbn [take first_difference]. destruct (Z.eqb_spec x y) as [->|Hne]; cbn [negb].
  - rewrite <- Nat.add_succ_r. rewrite IH by lia. do 2 f_equal. cbv zeta.
    set (r := first_difference _ _). destruct (Z.eqb_spec r 0) as [->|Hr]; [done|].
    assert (0 <= r) by (apply first_difference_nonneg). rewrite (proj2 (Z.eqb_neq (r + 1) 0)) by lia. lia.
  - unfold mret, ST_ret. do 2 f_equal. rewrite Z.min_l by lia. rewrite u16_small by (unfold is_u16; lia). cbv zeta.
    change (1 =? 0) with false. cbv iota. lia.
Qed.

Lemma memcmp_spec fuel p ns off (s2 : bytes) n s : packet s p ns → ns ≠ [] → (length ns < fuel)%nat → bytes_ok (bytes_of ns) →
  0 <= off < 2 ^ 16 → 0 <= n → n = len s2 →
  pbuf_memcmp fuel p off s2 n s = Done (
    (if len (bytes_of ns) <? off + n then 0xFFFF
     else first_difference (take (Z.to_nat n) (drop (Z.to_nat off) (bytes_of ns))) s2), s).
Proof.
  intros Hp Hne Hf Hok Ho Hn Hns. unfold pbuf_memcmp. destruct ns as [|[a d] ns]; [done|].
  pose proof Hp as (Ha & _ & b & Hb & _ & [Ht Ht'] & _). subst a. rewrite (get_bind _ b), Ht in * by done.
  destruct (Z.ltb_spec (len (bytes_of ((p, d) :: ns))) (off + n)); [done|].
  destruct (skip_spec fuel p _ off s Hp Hf Ho) as (q & o & ns1 & ns2 & Hs & E & Hq & Ho' & Hoff & _).
  rewrite E, bytes_of_app in *. rewrite len_app in *. rewrite (bind_done _ _ _ _ _ Hs). cbn beta iota.
  pose proof (len_nonneg (bytes_of ns1)).
  apply Forall_app in Hok as [_ Hok]. rewrite length_app in Hf.
  rewrite (memcmp_loop_spec _ _ ns2) by first [done|lia].
  do 2 f_equal. cbv zeta. rewrite !drop_0, Nat.add_0_r.
  rewrite drop_app_ge by (unfold len in *; lia). rewrite (take_ge s2) by (unfold len in *; lia).
  replace (Z.to_nat off - length (bytes_of ns1))%nat with (Z.to_nat o) by (unfold len in *; lia).
  set (r := first_difference _ _). destruct (Z.eqb_spec r 0) as [->|]; lia.
Qed.

(** [mem] stands at position [i] of [data]. *)
Definition occurs (data mem : bytes) (i : Z) : Prop :=
  0 <= i ∧ i + len mem <= len data ∧ take (length mem) (drop (Z.to_nat i) data) = mem.
(** [r] is the first position of [mem] from [start] on, or 0xFFFF. *)
Definition first_occurrence (data mem : bytes) (start r : Z) : Prop :=
  (start <= r ∧ occurs data mem r ∧ ∀ i, start <= i < r → ¬ occurs data mem i) ∨
  (r = 0xFFFF ∧ ∀ i, start <= i → ¬ occurs data mem i).

Lemma memfind_loop_spec fuel p ns mem (positions : list nat) i s :
  packet s p ns → ns ≠ [] → (length ns < fuel)%nat → bytes_ok (bytes_of ns) → len (bytes_of ns) < 2 ^ 16 → 0 <= i →
  i + len positions = len (bytes_of ns) - len mem + 1 →
  ∃ r, memfind_loop fuel p mem (len mem) positions i s = Done (r, s) ∧ first_occurrence (bytes_of ns) mem i r.
Proof.
  intros Hp Hne Hf Hok H16 Hi. revert i Hi. pose proof (len_nonneg mem).
  induction positions as [|x positions IH]; intros i Hi Hend.
  - rewrite len_nil in Hend. exists 0xFFFF. split; [done|]. right. split; [done|]. intros j Hj (_ & Hl & _). lia.
  - rewrite len_cons in Hend. pose proof (len_nonneg positions). cbn [memfind_loop].
    pose proof (memcmp_spec fuel p ns i mem (len mem) s Hp Hne Hf Hok ltac:(lia) ltac:(lia) eq_refl) as Hcmp.
    rewrite (proj2 (Z.ltb_ge _ _)) in Hcmp by lia. rewrite (bind_done _ _ _ _ _ Hcmp). clear Hcmp.
    rewrite <- length_to_nat_len.
    pose proof (first_difference_zero (take (length mem) (drop (Z.to_nat i) (bytes_of ns))) mem) as Hz.
    rewrite length_take, length_drop in Hz. specialize (Hz ltac:(unfold len in *; lia)).
    destruct (Z.eqb_spec (first_difference (take (length mem) (drop (Z.to_nat i) (bytes_of ns))) mem) 0) as [E|E].
    + exists i. split; [done|]. left. split; [lia|]. split; [|lia]. split; [done|]. split; [lia|]. by apply Hz.
    + assert (¬ occurs (bytes_of ns) mem i) as Hno by (intros (_ & _ & Ho); by apply E, Hz).
      destruct (decide (positions = [])) as [->|Hmore].
      * rewrite len_nil in Hend. exists 0xFFFF. split; [done|]. right. split; [done|]. intros j Hj Ho.
        destruct (decide (j = i)) as [->|]; [done|]. destruct Ho as (_ & Hl & _). lia.
      * assert (1 <= len positions) by (destruct positions; [done|rewrite len_cons; pose proof (len_nonneg positions); lia]).
        rewrite u16_small by (unfold is_u16; lia).
        destruct (IH (i + 1)) as (r & -> & Hr); [lia|lia|]. exists r. split; [done|].
        destruct Hr as [(Hir & Ho & Hbefore)|(-> & Hnone)]; [left|right].
        -- split; [lia|]. split; [done|]. intros j Hj. destruct (decide (j = i)) as [->|]; [done|]. apply Hbefore. lia.
        -- split; [done|]. intros j Hj. destruct (decide (j = i)) as [->|]; [done|]. apply Hnone. lia.
Qed.

Lemma memfind_spec fuel p ns mem start s :
  packet s p ns → ns ≠ [] → (length ns < fuel)%nat → bytes_ok (bytes_of ns) → 0 <= start < 2 ^ 16 →
  ∃ r, pbuf_memfind fuel p mem (len mem) start s = Done (r, s) ∧ first_occurrence (bytes_of ns) mem start r.
Proof.
  intros Hp Hne Hf Hok Hs. unfold pbuf_memfind. pose proof Hp as Hp'. pose proof (len_nonneg mem).
  destruct ns as [|[a d] ns]; [done|]. destruct Hp as (<- & _ & b & Hb & _ & [Ht Ht'] & _).
  rewrite (get_bind _ b), Ht in * by done. pose proof (len_nonneg (bytes_of ((p, d) :: ns))).
  destruct (Z.leb_spec (len mem + start) (len (bytes_of ((p, d) :: ns)))).
  - rewrite u16_small by (unfold is_u16; lia). apply memfind_loop_spec; [done..|lia|].
    unfold len at 1. rewrite length_seq. lia.
  - exists 0xFFFF. split; [done|]. right. split; [done|]. intros i Hi (_ & Hl & _). lia.
Qed.
End theory.

(** ** References *)

(** What is left of the structures when a chain is freed, and how many are gone. *)
Fixpoint freed (l : list (Z * pbuf)) (m : gmap Z pbuf) : Z * gmap Z pbuf :=
  match l with
  | [] => (0, m)
  | (a, b) :: l =>
      if ref b =? 1 then let '(n, m) := freed l (delete a m) in (n + 1, m)
      else (0, <[a := with_ref (ref b - 1) b]> m)
  end.
(** A structure that is in use and comes from an allocator that [pbuf_free] knows. *)
Definition counted (custom_ok : pbuf → Prop) (b : pbuf) : Prop :=
  1 <= ref b < 2 ^ 8 ∧ (is_custom b = true ∧ custom_ok b ∨ is_custom b = false ∧
    pbuf_get_allocsrc b ∈ [PBUF_TYPE_ALLOC_SRC_MASK_STD_HEAP; PBUF_TYPE_ALLOC_SRC_MASK_STD_MEMP_PBUF;
                           PBUF_TYPE_ALLOC_SRC_MASK_STD_MEMP_PBUF_POOL]).
(** The function that frees custom structures frees those with [custom_ok], which does not
    depend on the count, and touches no other. *)
Class CustomFree {M} (custom_free_function : Z → ST (store M) unit) (custom_ok : pbuf → Prop) : Prop := {
  custom_frees p b s : p ≠ 0 → pbufs s !! p = Some b → custom_ok b →
    ∃ s', custom_free_function p s = Done (tt, s') ∧ pbufs s' = delete p (pbufs s);
  custom_ok_ref x b : custom_ok b → custom_ok (with_ref x b);
}.

Section freeing.
Context {M : Type} (ops : mem_ops M) (custom_free_function : Z → ST (store M) unit) (custom_ok : pbuf → Prop).
Context `{!CustomFree custom_free_function custom_ok}.
Local Abbreviation S := (store M).

Lemma free_one_spec p b x (s : S) : counted custom_ok b → p ≠ 0 → pbufs s !! p = Some (with_ref x b) →
  ∃ s', free_one ops custom_free_function p b s = Done (tt, s') ∧ pbufs s' = delete p (pbufs s).
Proof.
  intros [_ Hb] Hp Hs. unfold free_one. destruct (is_custom b) eqn:E.
  { destruct Hb as [[_ Hb]|[? _]]; [|done]. by apply (custom_frees p (with_ref x b)); [..|apply custom_ok_ref]. }
  destruct Hb as [[? _]|[_ Hb]]; [done|]. rewrite !elem_of_cons, elem_of_nil in Hb.
  destruct Hb as [-> | [-> | [-> | []]]]; simpl; by eexists.
Qed.

Lemma free_loop_spec fuel p l count (s : S) : chain (pbufs s) p l → Forall (λ n, counted custom_ok n.2) l →
  (length l < fuel)%nat → is_u8 count →
  ∃ s', free_loop ops custom_free_function fuel p count s = Done (u8 (count + (freed l (pbufs s)).1), s') ∧
    pbufs s' = (freed l (pbufs s)).2.
Proof.
  revert p l count s. induction fuel as [|fuel IH]; intros p l count s Hp Hl Hf Hc; [lia|].
  destruct l as [|[a b] l]; simpl in Hp; cbn [free_loop].
  - subst. exists s. simpl. by rewrite Z.add_0_r, u8_small.
  - destruct Hp as (-> & Ha & Hb & Hp). apply Forall_cons in Hl as [Hb1 Hl]. simpl in Hb1. pose proof Hb1 as [Href _].
    rewrite (proj2 (Z.eqb_neq _ _)) by done. cbn [negb]. rewrite (get_bind _ b) by done.
    rewrite (proj2 (Z.ltb_lt _ _)) by lia. rewrite (u8_small (ref b - 1)) by (unfold is_u8; lia).
    unfold LWIP_ASSERT. rewrite ret_bind. unfold put at 1. rewrite modify_bind. cbn [freed].
    destruct (Z.eqb_spec (ref b) 1) as [E|E].
    + rewrite E. cbn [Z.eqb Z.sub].
      change (1 - 1 =? 0) with true. cbv iota.
      destruct (free_one_spec a b (1 - 1) (Store (<[a:=with_ref (1 - 1) b]> (pbufs s)) (blocks s) (allocator s)) Hb1 Ha (lookup_insert_eq _ _ _))
        as (s1 & E1 & Es1).
      rewrite (bind_done _ _ _ _ _ E1). simpl in Es1. rewrite delete_insert_eq in Es1.
      pose proof (chain_not_in _ _ _ _ Hb Hp Ha) as Hni.
      destruct (IH (next b) l (u8 (count + 1)) s1) as (s2 & E2 & Es2);
        [rewrite Es1; by apply chain_delete|done|simpl in *; lia|apply u8_range|].
      rewrite Es1 in E2, Es2. exists s2. rewrite E2. destruct (freed l (delete a (pbufs s))) as [n m']. simpl in *.
      split; [|done]. do 2 f_equal. unfold u8. rewrite Z.add_mod_idemp_l by lia. f_equal. lia.
    + rewrite (proj2 (Z.eqb_neq _ _)) by lia. destruct fuel; [simpl in *; lia|]. simpl. rewrite Z.add_0_r, u8_small by done.
      eexists. split; [done|]. done.
Qed.
End freeing.

(** ** Writing into a packet *)

Section writing.
Context {M : Type}.
Local Abbreviation S := (store M).
Implicit Types (s : S).

(** The block that the structure at [a] points into. *)
Definition area s (a : Z) : Z := match pbufs s !! a with Some b => block (payload b) | None => 0 end.
(** No two structures of the packet share their memory. *)
Definition separate s (ns : list (Z * bytes)) : Prop := NoDup (area s ∘ fst <$> ns).
(** The bytes [d] put over the front of the packet. *)
Fixpoint fill (ns : list (Z * bytes)) (d : bytes) : list (Z * bytes) :=
  match ns with
  | [] => []
  | (a, e) :: ns => (a, take (length e) (d ++ drop (length d) e)) :: fill ns (drop (length e) d)
  end.

Lemma fill_nil ns : fill ns [] = ns.
Proof.
  induction ns as [|[a e] ns IH]; simpl; [done|]. rewrite drop_nil, IH, drop_0. by rewrite take_ge by lia.
Qed.
Lemma bytes_of_fill ns d : len d <= len (bytes_of ns) → bytes_of (fill ns d) = d ++ drop (length d) (bytes_of ns).
Proof.
  revert d. induction ns as [|[a e] ns IH]; intros d Hd.
  - unfold bytes_of in *. simpl in *. unfold len in Hd. destruct d; [done|simpl in Hd; lia].
  - cbn [fill]. rewrite !bytes_of_cons in *. rewrite len_app in Hd. unfold len in *.
    destruct (decide (length d <= length e)%nat).
    + rewrite (drop_ge d) by lia. rewrite fill_nil, drop_app_le by lia.
      rewrite take_ge by (rewrite length_app, length_drop; lia). by rewrite app_assoc.
    + rewrite (drop_ge e) by lia. rewrite app_nil_r. rewrite IH by (rewrite length_drop; lia).
      rewrite app_assoc, take_drop, length_drop. f_equal. rewrite drop_app_ge by lia. done.
Qed.
Lemma fill_addresses ns d : (fill ns d).*1 = ns.*1.
Proof. revert d. induction ns as [|[a e] ns IH]; intros d; simpl; [done|]. by rewrite IH. Qed.

Lemma area_lookup s a b : pbufs s !! a = Some b → area s a = block (payload b).
Proof. unfold area. by intros ->. Qed.
Lemma held_frame s s' b d : blocks s' !! block (payload b) = blocks s !! block (payload b) → held s b d → held s' b d.
Proof. intros E (Hl & m & Hm & Hr). split; [done|]. exists m. by rewrite E. Qed.
Lemma packet_frame s s' p ns : pbufs s' = pbufs s →
  (∀ x, x ∈ (area s ∘ fst <$> ns) → blocks s' !! x = blocks s !! x) → packet s p ns → packet s' p ns.
Proof.
  intros Hp. revert p. induction ns as [|[a d] ns IH]; intros p Hx; [done|].
  intros (-> & Ha & b & Hb & Hh & Ht & Hr). split; [done|]. split; [done|]. exists b. rewrite Hp. split; [done|].
  split; [|split; [done|]].
  - eapply held_frame; [|exact Hh]. apply Hx. cbn. rewrite (area_lookup _ _ _ Hb). by left.
  - apply IH; [|done]. intros x Hin. apply Hx. by right.
Qed.

Lemma patch_window (m d e : bytes) off : 0 <= off → off + len e <= len m → len d <= len e →
  take (length e) (drop (Z.to_nat off) m) = e →
  take (length e) (drop (Z.to_nat off) (patch m off d)) = d ++ drop (length d) e.
Proof.
  intros Ho Hm Hd He. unfold patch, len in *. rewrite drop_app_ge by (rewrite length_take; lia).
  rewrite length_take_le by lia. rewrite Nat.sub_diag, drop_0.
  rewrite take_app_ge by lia. f_equal. rewrite <- He at 2. rewrite skipn_firstn_comm, drop_drop. done.
Qed.

Lemma write_held s b e d : held s b e → len d <= len e →
  ∃ m, write (payload b) d s = Done (tt, Store (pbufs s) (<[block (payload b) := m]> (blocks s)) (allocator s)) ∧
    held (Store (pbufs s) (<[block (payload b) := m]> (blocks s)) (allocator s)) b (d ++ drop (length d) e).
Proof.
  intros (Hl & m & Hm & H0 & Hm' & He) Hd. exists (patch m (offset (payload b)) d). unfold write. rewrite Hm.
  rewrite memcpy_patch by lia. split; [done|]. split; [rewrite len_app, len_drop_nat by (unfold len in *; lia); unfold len in *; lia|].
  exists (patch m (offset (payload b)) d). split; [apply lookup_insert_eq|]. split; [done|].
  assert (len (d ++ drop (length d) e) = len e) as E
    by (rewrite len_app, len_drop_nat by (unfold len in *; lia); unfold len in *; lia).
  split; [rewrite E, len_patch by lia; done|]. replace (length (d ++ drop (length d) e)) with (length e) by (unfold len in E; lia).
  by apply patch_window.
Qed.

Lemma take_spec fuel p ns dataptr total copied s : packet s p ns → separate s ns → (length ns < fuel)%nat →
  0 <= copied → 0 <= total <= len (bytes_of ns) → copied + total <= len dataptr →
  let d := take (Z.to_nat total) (drop (Z.to_nat copied) dataptr) in
  ∃ s', take_loop fuel p dataptr total copied s = Done (copied + total, s') ∧ pbufs s' = pbufs s ∧
    packet s' p (fill ns d) ∧ ∀ x, x ∉ (area s ∘ fst <$> ns) → blocks s' !! x = blocks s !! x.
Proof.
  revert p ns total copied s. induction fuel as [|fuel IH]; intros p ns total copied s Hp Hsep Hf Hc Ht Hd d; [lia|].
  cbn [take_loop]. destruct (Z.eqb_spec total 0) as [->|Hn0]; cbn [negb].
  { exists s. rewrite Z.add_0_r. split; [done|]. split; [done|]. subst d. simpl. by rewrite fill_nil. }
  destruct ns as [|[a e] ns]; [change (0 <= total <= 0) in Ht; lia|].
  pose proof Hp as (-> & Ha & b & Hb & Hh & Htot & Hp'). rewrite (proj2 (Z.eqb_neq _ _)) by done. cbn [negb].
  unfold LWIP_ASSERT. rewrite ret_bind, (get_bind _ b) by done. rewrite <- (proj1 Hh). rewrite bytes_of_cons, len_app in Ht.
  pose proof (len_nonneg e). pose proof (len_nonneg (bytes_of ns)).
  replace (if len e <? total then len e else total) with (Z.min (len e) total) by (case_match; lia).
  set (k := Z.min (len e) total). assert (k = Z.min (len e) total) as Hk by done. clearbody k.
  rewrite (lift_bind _ _ _ _ (slice_Done dataptr copied k Hc ltac:(lia) ltac:(lia))).
  set (d1 := take (Z.to_nat k) (drop (Z.to_nat copied) dataptr)).
  assert (len d1 = k) as Hd1.
  { unfold d1. rewrite len_take; [done|]. rewrite len_drop by lia. lia. }
  destruct (write_held s b e d1 Hh ltac:(lia)) as (m & Ew & Hh1). rewrite (bind_done _ _ _ _ _ Ew).
  set (s1 := Store _ _ _) in *. apply NoDup_cons in Hsep as [Hnin Hsep]. cbn in Hnin. rewrite (area_lookup _ _ _ Hb) in Hnin.
  destruct (IH (next b) ns (total - k) (copied + k) s1) as (s2 & E2 & Hpb & Hp2 & Hframe); [|done|simpl in *; lia|lia|lia|lia|].
  { eapply packet_frame; [..|exact Hp']; [done|]. intros x Hx. simpl. apply lookup_insert_ne. by intros <-. }
  exists s2. rewrite E2. split; [do 2 f_equal; lia|]. split; [done|]. split.
  - cbn [fill packet]. split; [done|]. split; [done|]. exists b. rewrite Hpb. split; [done|].
    assert (d = d1 ++ take (Z.to_nat (total - k)) (drop (Z.to_nat (copied + k)) dataptr)) as Ed.
    { subst d d1. rewrite <- (take_drop (Z.to_nat k) (take (Z.to_nat total) _)). rewrite take_take.
      rewrite Nat.min_l by lia. f_equal. rewrite skipn_firstn_comm, drop_drop. f_equal; [lia|]. f_equal. lia. }
    assert (take (length e) (d ++ drop (length d) e) = d1 ++ drop (length d1) e) as Ehead.
    { destruct (decide (total <= len e)).
      - replace d with d1; [rewrite take_ge; [done|]|].
        + rewrite length_app, length_drop. unfold len in *. lia.
        + rewrite Ed. replace (total - k) with 0 by lia. simpl. by rewrite app_nil_r.
      - assert (length d1 = length e) as E by (unfold len in *; lia). rewrite Ed, <- app_assoc.
        rewrite take_app_length' by lia. rewrite drop_ge by lia. by rewrite app_nil_r. }
    assert (drop (length e) d = take (Z.to_nat (total - k)) (drop (Z.to_nat (copied + k)) dataptr)) as Etail.
    { rewrite Ed. destruct (decide (total <= len e)).
      - replace (total - k) with 0 by lia. simpl. rewrite app_nil_r. apply drop_ge. unfold len in *. lia.
      - apply drop_app_length'. unfold len in *. lia. }
    rewrite Ehead, Etail. split; [|split; [|exact Hp2]].
    + eapply held_frame; [|exact Hh1]. by apply Hframe.
    + destruct Htot as [Htot Htot']. split; [|done]. rewrite Htot, !bytes_of_cons, !len_app.
      rewrite len_drop_nat by (unfold len in *; lia). rewrite bytes_of_fill.
      2: { unfold len. rewrite length_take, length_drop. unfold len in *. lia. }
      rewrite len_app, len_drop_nat; unfold len in *; rewrite length_take, length_drop; lia.
  - intros x Hx. rewrite fmap_cons, not_elem_of_cons in Hx. destruct Hx as [Hx1 Hx2]. cbn in Hx1.
    rewrite (area_lookup _ _ _ Hb) in Hx1. rewrite Hframe by done. simpl. by apply lookup_insert_ne.
Qed.

Lemma write_held_at s b e o d : held s b e → 0 <= o → o + len d <= len e →
  ∃ m, write (advance (payload b) o) d s = Done (tt, Store (pbufs s) (<[block (payload b) := m]> (blocks s)) (allocator s)) ∧
    held (Store (pbufs s) (<[block (payload b) := m]> (blocks s)) (allocator s)) b (patch e o d).
Proof.
  intros (Hl & m & Hm & H0 & Hm' & He) Ho Hd. exists (patch m (offset (payload b) + o) d). unfold write. simpl. rewrite Hm.
  rewrite memcpy_patch by lia. split; [done|]. assert (len (patch e o d) = len e) as E by (by apply len_patch).
  split; [by rewrite E|]. eexists. split; [apply lookup_insert_eq|]. split; [done|].
  rewrite E, len_patch by lia. split; [done|]. unfold len in *.
  replace (length (patch e o d)) with (length e) by lia. set (w := Z.to_nat (offset (payload b))) in *.
  unfold patch. replace (Z.to_nat (offset (payload b) + o)) with (w + Z.to_nat o)%nat by lia.
  rewrite drop_app_le by (rewrite length_take; lia). rewrite skipn_firstn_comm.
  replace (w + Z.to_nat o - w)%nat with (Z.to_nat o) by lia.
  rewrite <- He at 2 3. rewrite take_take, Nat.min_l by lia.
  rewrite take_app_ge by (rewrite length_take, length_drop; lia). f_equal.
  rewrite length_take, length_drop, Nat.min_l by lia.
  rewrite take_app_ge by lia. f_equal. rewrite skipn_firstn_comm, drop_drop.
  f_equal; [lia|]. f_equal. lia.
Qed.

(** The rest of a packet changes, the structures before it do not. *)
Lemma packet_rest s s' p q ns1 ns2 ns2' : packet s p (ns1 ++ ns2) → packet s q ns2 → ns2 ≠ [] → pbufs s' = pbufs s →
  (∀ x, x ∈ (area s ∘ fst <$> ns1) → blocks s' !! x = blocks s !! x) →
  len (bytes_of ns2') = len (bytes_of ns2) → packet s' q ns2' → packet s' p (ns1 ++ ns2').
Proof.
  intros Hp Hq Hne Hpb. revert p Hp. induction ns1 as [|[a d] ns1 IH]; intros p Hp Hx Hl Hq'.
  - cbn [app] in *. destruct ns2 as [|[a d] ns2]; [done|]. destruct Hp as [-> _], Hq as [-> _]. done.
  - cbn [app] in *. destruct Hp as (-> & Ha & b & Hb & Hh & Ht & Hr). split; [done|]. split; [done|].
    exists b. rewrite Hpb. split; [done|]. split; [|split].
    + eapply held_frame; [|exact Hh]. apply Hx. cbn. rewrite (area_lookup _ _ _ Hb). by left.
    + rewrite !bytes_of_cons, !bytes_of_app, !len_app in *. by rewrite Hl.
    + apply IH; [done| |done..]. intros x Hin. apply Hx. by right.
Qed.

Lemma pbuf_take_spec fuel p ns dataptr n s : packet s p ns → p ≠ 0 → separate s ns → (length ns < fuel)%nat → 0 <= n <= len dataptr →
  if len (bytes_of ns) <? n then pbuf_take fuel p (Some dataptr) n s = Done (ERR_MEM, s) else
  ∃ s', pbuf_take fuel p (Some dataptr) n s = Done (ERR_OK, s') ∧ pbufs s' = pbufs s ∧
    packet s' p (fill ns (take (Z.to_nat n) dataptr)) ∧ ∀ x, x ∉ (area s ∘ fst <$> ns) → blocks s' !! x = blocks s !! x.
Proof.
  intros Hp Hp0 Hsep Hf Hn. unfold pbuf_take. rewrite (proj2 (Z.eqb_neq p 0)) by done. pose proof Hp as Hp'.
  destruct ns as [|[a e] ns]; [done|]. destruct Hp' as (-> & _ & b & Hb & _ & [Ht _] & _).
  rewrite (get_bind _ b) by done. rewrite Ht. destruct (Z.ltb_spec (len (bytes_of ((a, e) :: ns))) n); [done|].
  destruct (take_spec fuel a _ dataptr n 0 s Hp Hsep Hf ltac:(lia) ltac:(lia) ltac:(lia)) as (s' & E & Hs').
  rewrite (bind_done _ _ _ _ _ E). cbn. rewrite Z.eqb_refl. exists s'. rewrite drop_0 in Hs'. done.
Qed.

(** Data that begins in the second of three pieces and may reach into the third. *)
Lemma patch_pieces (x e y d : bytes) o k : 0 <= o → o < len e → k = Z.min (len e - o) (len d) → o + len d <= len e + len y →
  patch (x ++ e ++ y) (len x + o) d =
    x ++ patch e o (take (Z.to_nat k) d) ++ drop (Z.to_nat k) d ++ drop (length (drop (Z.to_nat k) d)) y.
Proof.
  intros Ho He -> Hl. unfold patch, len in *. rewrite length_drop.
  rewrite take_app_ge, drop_app_ge by lia. rewrite <- !app_assoc. f_equal.
  replace (Z.to_nat (Z.of_nat (length x) + o) - length x)%nat with (Z.to_nat o) by lia.
  rewrite take_app_le by lia. f_equal. rewrite app_assoc.
  replace (Z.to_nat (Z.of_nat (length x) + o) + length d - length x)%nat with (Z.to_nat o + length d)%nat by lia.
  rewrite <- (take_drop (Z.to_nat (Z.min (Z.of_nat (length e) - o) (Z.of_nat (length d)))) d) at 1.
  rewrite <- !app_assoc. f_equal. rewrite length_take.
  destruct (decide (Z.of_nat (length d) <= Z.of_nat (length e) - o)).
  - rewrite (drop_ge d) by lia. simpl. rewrite drop_app_le by lia. f_equal; [f_equal; lia|].
    replace (length d - _)%nat with 0%nat by lia. done.
  - rewrite (drop_ge e (_ + _)) by lia. simpl. f_equal. rewrite drop_app_ge by lia. f_equal. lia.
Qed.

Lemma packet_written s s' p a b e d1 ns1 ns2 ns2' :
  packet s p (ns1 ++ (a, e) :: ns2) → packet s a ((a, e) :: ns2) → separate s (ns1 ++ (a, e) :: ns2) →
  pbufs s !! a = Some b → held s' b d1 → len d1 = len e → pbufs s' = pbufs s → packet s' (next b) ns2' →
  len (bytes_of ns2') = len (bytes_of ns2) →
  (∀ x, x ∉ block (payload b) :: (area s ∘ fst <$> ns2) → blocks s' !! x = blocks s !! x) →
  packet s' p (ns1 ++ (a, d1) :: ns2').
Proof.
  intros Hp Hq Hsep Hb Hh Hd1 Hpb Hp2 Hl Hframe. unfold separate in Hsep. rewrite fmap_app, fmap_cons in Hsep.
  apply NoDup_app in Hsep as (_ & Hdis & _). simpl in Hdis. rewrite (area_lookup _ _ _ Hb) in Hdis.
  eapply packet_rest; [exact Hp|exact Hq|done|done| | |].
  - intros x Hx. apply Hframe, (Hdis _ Hx).
  - by rewrite !bytes_of_cons, !len_app, Hd1, Hl.
  - destruct Hq as (_ & Ha & b' & Hb' & _ & Ht & _). rewrite Hb in Hb'. injection Hb' as <-.
    split; [done|]. split; [done|]. exists b. rewrite Hpb. split; [done|]. split; [done|]. split; [|done].
    rewrite bytes_of_cons, len_app in *. by rewrite Hd1, Hl.
Qed.

(** The rest of the data goes into the structures behind the first one written. *)
Lemma take_rest fuel q ns dataptr k n s : packet s q ns → separate s ns → (length ns < fuel)%nat →
  0 <= k → k < n <= len dataptr → n - k <= len (bytes_of ns) →
  ∃ s' ns', pbuf_take fuel q (Some (ptr_add dataptr k)) (n - k) s = Done (ERR_OK, s') ∧ pbufs s' = pbufs s ∧
    packet s' q ns' ∧ ns'.*1 = ns.*1 ∧
    bytes_of ns' = take (Z.to_nat (n - k)) (drop (Z.to_nat k) dataptr) ++ drop (Z.to_nat (n - k)) (bytes_of ns) ∧
    ∀ x, x ∉ (area s ∘ fst <$> ns) → blocks s' !! x = blocks s !! x.
Proof.
  intros Hq Hsep Hf Hk Hn Hl.
  assert (q ≠ 0) as Hq0.
  { intros E. rewrite (packet_zero _ _ _ Hq) in E. subst ns. change (bytes_of []) with (@nil Z) in Hl. rewrite len_nil in Hl. lia. }
  pose proof (pbuf_take_spec fuel q ns (ptr_add dataptr k) (n - k) s Hq Hq0 Hsep Hf) as Htake. unfold ptr_add in *.
  rewrite (proj2 (Z.ltb_ge _ _)) in Htake by lia.
  destruct Htake as (s' & E & Hpb & Hp2 & Hframe); [rewrite len_drop by lia; lia|].
  eexists s', _. split; [exact E|]. split; [done|]. split; [exact Hp2|]. split; [by rewrite fill_addresses|]. split; [|done].
  rewrite bytes_of_fill; [|unfold len in *; rewrite length_take, length_drop; lia].
  f_equal. f_equal. rewrite length_take, length_drop. unfold len in *. lia.
Qed.

Lemma take_at_spec fuel p ns dataptr n off s : packet s p ns → separate s ns → (length ns < fuel)%nat →
  0 <= n <= len dataptr → 0 <= off < 2 ^ 16 → off < len (bytes_of ns) →
  if len (bytes_of ns) <? off + n then pbuf_take_at fuel p dataptr n off s = Done (ERR_MEM, s) else
  ∃ s' ns', pbuf_take_at fuel p dataptr n off s = Done (ERR_OK, s') ∧ pbufs s' = pbufs s ∧
    packet s' p ns' ∧ ns'.*1 = ns.*1 ∧ bytes_of ns' = patch (bytes_of ns) off (take (Z.to_nat n) dataptr) ∧
    ∀ x, x ∉ (area s ∘ fst <$> ns) → blocks s' !! x = blocks s !! x.
Proof.
  intros Hp Hsep Hf Hn Ho Hoff. destruct (skip_spec fuel p ns off s Hp Hf Ho) as
    (q & o & ns1 & ns2 & Hs & -> & Hq & Ho' & Hoff' & Hlt).
  unfold pbuf_take_at. rewrite (bind_done _ _ _ _ _ Hs). cbn beta iota. rewrite bytes_of_app, len_app in *.
  destruct ns2 as [|[a e] ns2]; [change (bytes_of []) with (@nil Z) in *; rewrite len_nil in *; lia|].
  pose proof Hq as (-> & Ha & b & Hb & Hh & [Ht Ht'] & Hq'). specialize (Hlt _ _ _ eq_refl).
  rewrite (proj2 (Z.eqb_neq a 0)) by done. cbn [negb]. rewrite (get_bind _ b) by done. rewrite Ht.
  destruct (Z.ltb_spec (len (bytes_of ns1) + len (bytes_of ((a, e) :: ns2))) (off + n)).
  { rewrite (proj2 (Z.leb_gt (o + n) _)) by lia. done. }
  rewrite (proj2 (Z.leb_le (o + n) _)) by lia. rewrite <- (proj1 Hh), (proj2 (Z.ltb_lt o (len e))) by done.
  unfold LWIP_ASSERT. rewrite ret_bind. pose proof (len_nonneg (bytes_of ns1)). pose proof (len_nonneg (bytes_of ns2)).
  rewrite bytes_of_cons, len_app in *. set (k := Z.min (len e - o) n).
  assert (k = Z.min (len e - o) n) as Hk by done. clearbody k. rewrite (u16_small k) by (unfold is_u16; lia).
  rewrite (lift_bind _ _ _ _ (slice_Done dataptr 0 k ltac:(lia) ltac:(lia) ltac:(lia))). change (Z.to_nat 0) with 0%nat.
  rewrite drop_0. set (d1 := take (Z.to_nat k) dataptr). assert (len d1 = k) as Hd1 by (apply len_take; lia).
  destruct (write_held_at s b e o d1 Hh Ho' ltac:(lia)) as (m & Ew & Hh1). rewrite (bind_done _ _ _ _ _ Ew).
  set (s1 := Store _ _ _) in *. rewrite (u16_small (n - k)) by (unfold is_u16; lia).
  pose proof Hsep as Hsep'. unfold separate in Hsep'. rewrite fmap_app, fmap_cons in Hsep'.
  apply NoDup_app in Hsep' as (_ & _ & (Hna & Hsep2)%NoDup_cons). cbn in Hna. rewrite (area_lookup _ _ _ Hb) in Hna.
  assert (packet s1 (next b) ns2) as Hp1.
  { eapply packet_frame; [..|exact Hq']; [done|]. intros x Hx. simpl. apply lookup_insert_ne. by intros <-. }
  assert (∃ s' ns2', (if 0 <? n - k then pbuf_take fuel (next b) (Some (ptr_add dataptr k)) (n - k) else mret ERR_OK) s1 =
      Done (ERR_OK, s') ∧ pbufs s' = pbufs s ∧ packet s' (next b) ns2' ∧ ns2'.*1 = ns2.*1 ∧
      bytes_of ns2' = take (Z.to_nat (n - k)) (drop (Z.to_nat k) dataptr) ++ drop (Z.to_nat (n - k)) (bytes_of ns2) ∧
      ∀ x, x ∉ (area s ∘ fst <$> ns2) → blocks s' !! x = blocks s1 !! x) as (s' & ns2' & E & Hpb & Hp2 & Hadr & Hbytes & Hframe).
  { destruct (Z.ltb_spec 0 (n - k)).
    - apply (take_rest fuel (next b) ns2 dataptr k n s1 Hp1 Hsep2); [rewrite length_app in Hf; simpl in Hf; lia|lia..].
    - exists s1, ns2. replace (n - k) with 0 by lia. by rewrite drop_0. }
  assert (len (bytes_of ns2') = len (bytes_of ns2)) as Hl2.
  { rewrite Hbytes. unfold len in *. rewrite length_app, length_take, !length_drop. lia. }
  exists s', (ns1 ++ (a, patch e o d1) :: ns2'). split; [exact E|]. split; [done|].
  assert (∀ x, x ∉ block (payload b) :: (area s ∘ fst <$> ns2) → blocks s' !! x = blocks s !! x) as Hframe'.
  { intros x Hx. apply not_elem_of_cons in Hx as [Hx1 Hx2]. rewrite Hframe by done. simpl. by apply lookup_insert_ne. }
  split; [|split; [by rewrite !fmap_app, !fmap_cons, Hadr|split]].
  - eapply (packet_written s s' p a b e); [done..| |by apply len_patch; lia|done|done|done|done].
    eapply held_frame; [|exact Hh1]. by apply Hframe.
  - rewrite bytes_of_app, !bytes_of_cons, Hbytes, Hoff'. rewrite (patch_pieces _ e _ _ o k) by (rewrite ?len_take; lia).
    unfold d1. rewrite take_take, Nat.min_l by lia. rewrite skipn_firstn_comm.
    replace (Z.to_nat n - Z.to_nat k)%nat with (Z.to_nat (n - k)) by lia. do 4 f_equal.
    rewrite length_take, length_drop. unfold len in *. lia.
  - intros x Hx. apply Hframe'. rewrite fmap_app, fmap_cons, not_elem_of_app in Hx. cbn in Hx.
    rewrite (area_lookup _ _ _ Hb) in Hx. apply Hx.
Qed.
End writing.

(** ** Chaining and headers *)

Section chaining.
Context {M : Type}.
Local Abbreviation S := (store M).
Implicit Types (s : S).

Definition with_pbuf s (a : Z) (b : pbuf) : S := Store (<[a:=b]> (pbufs s)) (blocks s) (allocator s).

Lemma packet_chain s p ns : packet s p ns → ∃ l, chain (pbufs s) p l ∧ l.*1 = ns.*1.
Proof.
  revert p. induction ns as [|[a d] ns IH]; intros p; [by exists []|].
  intros (-> & Ha & b & Hb & _ & _ & (l & Hl & El)%IH). exists ((a, b) :: l). by rewrite !fmap_cons, El.
Qed.
Lemma packet_not_in s a b ns : pbufs s !! a = Some b → packet s (next b) ns → a ≠ 0 → a ∉ ns.*1.
Proof. intros Hb (l & Hl & <-)%packet_chain Ha. by eapply chain_not_in. Qed.
Lemma packet_put s p ns a b : a ∉ ns.*1 → packet s p ns → packet (with_pbuf s a b) p ns.
Proof.
  revert p. induction ns as [|[a' d] ns IH]; intros p; simpl; [done|]. rewrite not_elem_of_cons.
  intros [Hne Hin] (-> & Ha & b' & Hb & Hh & Ht & Hp). split; [done|]. split; [done|]. exists b'.
  rewrite lookup_insert_ne by done. split; [done|]. split; [done|]. split; [done|]. by apply IH.
Qed.

Lemma cat_spec fuel h t ns1 ns2 s : packet s h ns1 → packet s t ns2 → ns1 ≠ [] → ns2 ≠ [] →
  (∀ a, a ∈ ns1.*1 → a ∉ ns2.*1) → (length ns1 <= fuel)%nat → len (bytes_of (ns1 ++ ns2)) < 2 ^ 16 →
  ∃ s', pbuf_cat fuel h t s = Done (tt, s') ∧ packet s' h (ns1 ++ ns2) ∧ blocks s' = blocks s ∧
    (∀ a, a ∉ ns1.*1 → pbufs s' !! a = pbufs s !! a).
Proof.
  intros Hh Ht H1 H2 Hdis Hf Hl. unfold pbuf_cat.
  assert (h ≠ 0) as Hh0 by (by rewrite (packet_zero _ _ _ Hh)).
  assert (t ≠ 0) as Ht0 by (by rewrite (packet_zero _ _ _ Ht)).
  rewrite !(proj2 (Z.eqb_neq _ _)) by done. cbn [orb]. clear Hh0.
  revert h ns1 s Hh Ht H1 Hdis Hf Hl. induction fuel as [|fuel IH]; intros h ns1 s Hh Ht H1 Hdis Hf Hl.
  { destruct ns1; [done|simpl in *; lia]. }
  destruct ns1 as [|[a d] ns1]; [done|]. pose proof Hh as (-> & Ha & b & Hb & Hd & [Htot Htot'] & Hp).
  pose proof Ht as Ht'. destruct ns2 as [|[a2 d2] ns2]; [done|].
  destruct Ht' as (-> & _ & b2 & Hb2 & _ & [Htot2 _] & _).
  assert (a ∉ ((a2, d2) :: ns2).*1) as Hni by (apply Hdis; left).
  pose proof (packet_not_in _ _ _ _ Hb Hp Ha) as Hni1.
  assert (u16 (tot_len b + tot_len b2) = len (bytes_of (((a, d) :: ns1) ++ (a2, d2) :: ns2))) as Hsum.
  { rewrite Htot, Htot2, <- len_app, <- bytes_of_app. apply u16_small. unfold is_u16. split; [apply len_nonneg|done]. }
  unfold mbind, ST_bind. cbn [cat_loop]. rewrite (get_bind _ b) by done.
  destruct (Z.eqb_spec (next b) 0) as [E|E]; cbn [negb].
  - assert (ns1 = []) as -> by (by apply (packet_zero s (next b))). unfold get. cbn. rewrite Hb.
    rewrite Htot. rewrite bytes_of_cons. change (bytes_of []) with (@nil Z). rewrite app_nil_r, (proj1 Hd).
    unfold LWIP_ASSERT. rewrite Z.eqb_refl, E. cbn. rewrite Hb2. eexists. split; [done|]. simpl.
    rewrite <- (proj1 Hd). replace (len d) with (tot_len b).
    2: { rewrite Htot, bytes_of_cons. change (bytes_of []) with (@nil Z). by rewrite app_nil_r. }
    rewrite Hsum. split; [|split; [done|]].
    + split; [done|]. split; [done|]. eexists. split; [apply lookup_insert_eq|]. split; [done|]. split; [done|].
      exact (packet_put s a2 _ a _ Hni Ht).
    + intros x Hx. apply lookup_insert_ne. intros <-. apply Hx. left.
  - rewrite (get_bind _ b2) by done. unfold put at 1. rewrite modify_bind.
    change (Store (<[a:=with_tot_len (u16 (tot_len b + tot_len b2)) b]> (pbufs s)) (blocks s) (allocator s))
      with (with_pbuf s a (with_tot_len (u16 (tot_len b + tot_len b2)) b)).
    set (s1 := with_pbuf s a _). rewrite !fmap_cons in Hdis.
    destruct (IH (next b) ns1 s1) as (s' & E' & Hp' & Hbl & Hframe).
    + by apply packet_put.
    + by apply packet_put.
    + intros ->. by apply E, (packet_zero s _ []).
    + intros x Hx. apply Hdis. by right.
    + simpl in *; lia.
    + cbn [app] in Hl. rewrite bytes_of_cons, len_app in Hl. pose proof (len_nonneg d). lia.
    + exists s'. split; [exact E'|]. split; [|split; [by rewrite Hbl|]].
      * cbn [app packet]. split; [done|]. split; [done|]. exists (with_tot_len (u16 (tot_len b + tot_len b2)) b).
        rewrite Hframe by done. split; [apply lookup_insert_eq|]. split; [|split; [|done]].
        -- eapply held_frame; [|exact Hd]. by rewrite Hbl.
        -- simpl. rewrite Hsum. done.
      * intros x Hx. rewrite fmap_cons, not_elem_of_cons in Hx. rewrite Hframe by apply Hx. apply lookup_insert_ne.
        intros ->. by destruct Hx.
Qed.
End chaining.

Section headers.
Context {M : Type}.
Local Abbreviation S := (store M).
Implicit Types (s : S).

(** The structure with its payload pointer moved by [n] bytes. *)
Definition shifted (n : Z) (b : pbuf) : pbuf :=
  with_payload (advance (payload b) n) (with_len (plen b - n) (with_tot_len (tot_len b - n) b)).
Definition fields_ok (b : pbuf) : Prop := 0 <= plen b <= tot_len b ∧ tot_len b < 2 ^ 16.

Lemma remove_header_spec s p b n : pbufs s !! p = Some b → p ≠ 0 → fields_ok b → 0 <= n →
  pbuf_remove_header p n s =
    if n =? 0 then Done (0, s) else if n <=? plen b then Done (0, with_pbuf s p (shifted n b)) else Done (1, s).
Proof.
  intros Hb Hp (Hl & Ht) Hn. unfold pbuf_remove_header, LWIP_ASSERT. rewrite (proj2 (Z.eqb_neq p 0)) by done. cbn [negb].
  rewrite ret_bind. destruct (Z.ltb_spec 0xFFFF n).
  { rewrite (proj2 (Z.eqb_neq n 0)), (proj2 (Z.leb_gt _ _)) by lia. done. }
  destruct (Z.eqb_spec n 0); [done|]. rewrite (get_bind _ b) by done. rewrite (u16_small n) by (unfold is_u16; lia).
  destruct (Z.leb_spec n (plen b)); cbn [negb]; [|done].
  rewrite (u16_small (plen b - n)), (u16_small (tot_len b - n)) by (unfold is_u16; lia). done.
Qed.

Lemma add_header_spec s p b n force : pbufs s !! p = Some b → p ≠ 0 → fields_ok b → 0 <= n →
  pbuf_add_header_impl p n force s =
    if n =? 0 then Done (0, s)
    else if 2 ^ 16 <=? tot_len b + n then Done (1, s)
    else if Z.land (type_internal b) PBUF_TYPE_FLAG_STRUCT_DATA_CONTIGUOUS =? 0
      then if force then Done (0, with_pbuf s p (shifted (- n) b)) else Done (1, s)
      else if offset (payload b) <? n then Done (1, s) else Done (0, with_pbuf s p (shifted (- n) b)).
Proof.
  intros Hb Hp (Hl & Ht) Hn. unfold pbuf_add_header_impl, LWIP_ASSERT. rewrite (proj2 (Z.eqb_neq p 0)) by done. cbn [negb].
  rewrite ret_bind. destruct (Z.ltb_spec 0xFFFF n).
  { rewrite (proj2 (Z.eqb_neq n 0)), (proj2 (Z.leb_le _ _)) by lia. done. }
  destruct (Z.eqb_spec n 0); [done|]. rewrite (get_bind _ b) by done. rewrite (u16_small n) by (unfold is_u16; lia).
  destruct (Z.leb_spec (2 ^ 16) (tot_len b + n)) as [Hbig|Hsmall].
  - replace (u16 (n + tot_len b)) with (n + tot_len b - 2 ^ 16).
    2: { unfold u16. replace (n + tot_len b) with ((n + tot_len b - 2 ^ 16) + 1 * 2 ^ 16) at 2 by lia.
         rewrite Z.mod_add by lia. rewrite Z.mod_small; lia. }
    rewrite (proj2 (Z.ltb_lt _ _)) by lia. done.
  - rewrite (u16_small (n + tot_len b)) by (unfold is_u16; lia). rewrite (proj2 (Z.ltb_ge _ _)) by lia.
    rewrite (u16_small (plen b + n)), (u16_small (tot_len b + n)) by (unfold is_u16; lia).
    unfold shifted. replace (plen b - - n) with (plen b + n) by lia. replace (tot_len b - - n) with (tot_len b + n) by lia.
    destruct (Z.land (type_internal b) PBUF_TYPE_FLAG_STRUCT_DATA_CONTIGUOUS =? 0); cbn [negb andb].
    + destruct force; done.
    + simpl. destruct (Z.ltb_spec (offset (payload b)) n).
      * rewrite (proj2 (Z.ltb_lt _ _)) by lia. done.
      * rewrite (proj2 (Z.ltb_ge _ _)) by lia. done.
Qed.

Lemma shifted_back n b : shifted (- n) (shifted n b) = b.
Proof.
  destruct b as [nx [k o] t l ty fl r i x]. unfold shifted, advance, with_payload, with_len, with_tot_len. simpl.
  replace (o + n + - n) with o by lia. replace (l - n - - n) with l by lia. by replace (t - n - - n) with t by lia.
Qed.

(** In front of the first bytes of a packet. *)
Lemma packet_shifted s a d ns n b : packet s a ((a, d) :: ns) → pbufs s !! a = Some b → 0 <= n <= len d →
  packet (with_pbuf s a (shifted n b)) a ((a, drop (Z.to_nat n) d) :: ns).
Proof.
  intros (_ & Ha & b' & Hb' & (Hl & m & Hm & H0 & Hm' & He) & [Ht Ht'] & Hp) Hb Hn. rewrite Hb in Hb'. simplify_eq.
  pose proof (packet_not_in _ _ _ _ Hb Hp Ha) as Hni. split; [done|]. split; [done|]. exists (shifted n b').
  split; [apply lookup_insert_eq|]. rewrite !bytes_of_cons in *. rewrite !len_app in *.
  assert (len (drop (Z.to_nat n) d) = len d - n) as Hd by (by apply len_drop).
  split; [|split; [simpl; lia|by apply packet_put]].
  split; [simpl; lia|]. exists m. simpl. split; [done|]. split; [lia|]. split; [lia|].
  rewrite <- He at 2. rewrite skipn_firstn_comm, drop_drop, length_drop. f_equal. f_equal. lia.
Qed.

(** Behind the bytes of a header in front of it. *)
Lemma packet_unshifted s a d ns n b : packet s a ((a, d) :: ns) → pbufs s !! a = Some b → 0 <= n <= offset (payload b) →
  tot_len b + n < 2 ^ 16 → ∃ e, len e = n ∧ packet (with_pbuf s a (shifted (- n) b)) a ((a, e ++ d) :: ns).
Proof.
  intros (_ & Ha & b' & Hb' & (Hl & m & Hm & H0 & Hm' & He) & [Ht Ht'] & Hp) Hb Hn H16. rewrite Hb in Hb'. simplify_eq.
  pose proof (packet_not_in _ _ _ _ Hb Hp Ha) as Hni. set (o := offset (payload b')) in *.
  set (e := take (Z.to_nat n) (drop (Z.to_nat (o - n)) m)). pose proof (len_nonneg d).
  assert (len e = n) as Hle by (apply len_take; rewrite len_drop by lia; lia).
  exists e. split; [done|]. split; [done|]. split; [done|]. exists (shifted (- n) b').
  split; [apply lookup_insert_eq|]. rewrite !bytes_of_cons in *. rewrite !len_app in *. split; [|split; [simpl; lia|by apply packet_put]].
  split; [simpl; rewrite len_app; lia|]. exists m. simpl. fold o. split; [done|]. split; [lia|]. rewrite len_app. split; [lia|].
  replace (o + - n) with (o - n) by lia. rewrite length_app. unfold len in *.
  rewrite <- (take_drop (length e) (take (length e + length d) _)). rewrite take_take, Nat.min_l by lia.
  f_equal; [unfold e at 2; f_equal; lia|]. rewrite skipn_firstn_comm, drop_drop. rewrite <- He at 2. f_equal; [lia|]. f_equal. lia.
Qed.
Lemma packet_fields s a d ns b : packet s a ((a, d) :: ns) → pbufs s !! a = Some b → fields_ok b ∧ a ≠ 0 ∧ plen b = len d.
Proof.
  intros (_ & Ha & b' & Hb' & [Hl _] & [Ht Ht'] & Hp) Hb. rewrite Hb in Hb'. simplify_eq.
  rewrite bytes_of_cons, len_app in Ht. pose proof (len_nonneg d). pose proof (len_nonneg (bytes_of ns)). unfold fields_ok. lia.
Qed.
Lemma with_pbuf_back s a b b' : pbufs s !! a = Some b → with_pbuf (with_pbuf s a b') a b = s.
Proof. intros Hb. unfold with_pbuf. simpl. rewrite insert_insert_eq, insert_id by done. by destruct s. Qed.
End headers.

(** ** The pool *)

(** What the code relies on of the options of the build. *)
Class OptionsOk (opt : options) : Prop := {
  alignment_power : ∃ k, 0 <= k <= 16 ∧ MEM_ALIGNMENT opt = 2 ^ k;
  pbuf_size : 0 < sizeof_struct_pbuf opt < 2 ^ 16;
  pool_bufsize : 0 < PBUF_POOL_BUFSIZE opt < 2 ^ 16 ∧ PBUF_POOL_BUFSIZE_ALIGNED opt < 2 ^ 16;
}.
(** The pool hands out each of its free elements once, aligned, and takes it back. *)
Class PoolLaws {M} (ops : mem_ops M) (opt : options) (unused : M → gset Z) : Prop := {
  pool_takes m q m' : memp_malloc ops MEMP_PBUF_POOL m = (q, m') →
    q = 0 ∧ unused m = ∅ ∧ unused m' = ∅ ∨ q ≠ 0 ∧ q ∈ unused m ∧ unused m' = unused m ∖ {[q]};
  pool_gives m0 q m : q ∈ unused m0 → unused (memp_free ops MEMP_PBUF_POOL q m) = {[q]} ∪ unused m;
  pool_flag m : unused (PBUF_POOL_IS_EMPTY ops m) = unused m;
  pool_fresh q n m : 0 <= n → len (fresh ops q n m) = n;
  pool_aligned q m : q ∈ unused m → 0 < q < 2 ^ 30 ∧ q mod MEM_ALIGNMENT opt = 0;
}.

Section alignment.
Context (opt : options) `{!OptionsOk opt}.
Local Abbreviation A := (MEM_ALIGNMENT opt).

Lemma alignment_pos : 0 < A <= 2 ^ 16.
Proof. destruct alignment_power as (k & Hk & ->). split; [lia|]. apply Z.pow_le_mono_r; lia. Qed.
Lemma align_value x : 0 <= x < 2 ^ 31 → LWIP_MEM_ALIGN opt x = x + A - 1 - (x + A - 1) mod A.
Proof.
  intros Hx. pose proof alignment_pos as HA. unfold LWIP_MEM_ALIGN. rewrite (u32_small (x + A - 1)) by (unfold is_u32; lia).
  rewrite (u32_small (A - 1)) by (unfold is_u32; lia). set (y := x + A - 1). assert (0 <= y < 2 ^ 32) as Hy by lia. clearbody y.
  destruct alignment_power as (k & Hk & Ek). rewrite Ek in *. unfold u32. rewrite <- Z.land_ones by lia.
  rewrite (Z.land_comm (Z.lnot _)), Z.land_assoc, Z.land_ones by lia. rewrite (Z.mod_small y) by lia.
  replace (2 ^ k - 1) with (Z.ones k) by (rewrite Z.ones_equiv; lia).
  rewrite <- Z.ldiff_land.
  rewrite Z.ldiff_ones_r by lia. rewrite Z.shiftl_mul_pow2, Z.shiftr_div_pow2 by lia.
  pose proof (Z.div_mod y (2 ^ k)). lia.
Qed.
Lemma align_bounds x : 0 <= x < 2 ^ 31 → x <= LWIP_MEM_ALIGN opt x < x + A ∧ LWIP_MEM_ALIGN opt x mod A = 0.
Proof.
  intros Hx. pose proof alignment_pos. rewrite align_value by done. pose proof (Z.mod_pos_bound (x + A - 1) A).
  split; [lia|]. rewrite Zminus_mod_idemp_r. by rewrite Z.sub_diag.
Qed.
Lemma align_add y x : 0 <= x → 0 <= y → x + y < 2 ^ 31 → y mod A = 0 → LWIP_MEM_ALIGN opt (y + x) = y + LWIP_MEM_ALIGN opt x.
Proof.
  intros Hx Hy Hxy Hm. pose proof alignment_pos. rewrite !align_value by lia.
  assert ((y + x + A - 1) mod A = (x + A - 1) mod A) as ->; [|lia].
  replace (y + x + A - 1) with (y + (x + A - 1)) by lia. by rewrite Z.add_mod, Hm, Z.add_0_l, Z.mod_mod by lia.
Qed.
End alignment.

Section pool.
Context {M : Type} (ops : mem_ops M) (opt : options) (custom_free_function : Z → ST (store M) unit).
Context (unused : M → gset Z) `{!OptionsOk opt, !PoolLaws ops opt unused}.
Local Abbreviation S := (store M).
Local Abbreviation SIZE := (PBUF_POOL_BUFSIZE_ALIGNED opt).
Implicit Types (s : S) (l : list (Z * pbuf)).

(** A structure of the pool, with its data in the memory behind it. *)
Definition pool_piece s (n : Z * pbuf) : Prop :=
  ref n.2 = 1 ∧ type_internal n.2 = u8 PBUF_POOL ∧ flags n.2 = 0 ∧ block (payload n.2) = n.1 ∧
  0 <= offset (payload n.2) ∧ 0 <= plen n.2 ∧ offset (payload n.2) + plen n.2 <= SIZE ∧
  ∃ m, blocks s !! n.1 = Some m ∧ len m = SIZE.
Fixpoint total l : Z := match l with [] => 0 | (_, b) :: l => plen b + total l end.
(** The lengths of a chain of which [rest] bytes are still missing. *)
Fixpoint totals l (rest : Z) : Prop :=
  match l with [] => True | (_, b) :: l' => tot_len b = plen b + total l' + rest ∧ totals l' rest end.

(** The chain [l] has been built at [p] since [s0]. *)
Record building s0 s (p : Z) l (rest : Z) : Prop := {
  built_chain : chain (pbufs s) p l;
  built_pieces : Forall (pool_piece s) l;
  built_totals : totals l rest;
  built_frame a : a ∉ l.*1 → pbufs s !! a = pbufs s0 !! a ∧ blocks s !! a = blocks s0 !! a;
  built_pool : unused (allocator s0) = list_to_set l.*1 ∪ unused (allocator s);
  built_disjoint a : a ∈ l.*1 → a ∉ unused (allocator s);
}.

Lemma pool_free_loop m0 fuel p l count s : chain (pbufs s) p l → Forall (pool_piece s) l →
  (∀ a, a ∈ l.*1 → a ∈ unused m0) → (length l < fuel)%nat →
  ∃ s' n, free_loop ops custom_free_function fuel p count s = Done (n, s') ∧
    pbufs s' = foldl (λ m a, delete a m) (pbufs s) l.*1 ∧
    (∀ a, blocks s' !! a = if bool_decide (a ∈ l.*1) then None else blocks s !! a) ∧
    unused (allocator s') = list_to_set l.*1 ∪ unused (allocator s).
Proof.
  revert p l count s. induction fuel as [|fuel IH]; intros p l count s Hp Hl Hm0 Hf; [lia|].
  destruct l as [|[a b] l]; simpl in Hp; cbn [free_loop].
  - subst. exists s, count. split; [done|]. split; [done|]. split; [done|]. simpl. set_solver.
  - destruct Hp as (-> & Ha & Hb & Hp). apply Forall_cons in Hl as [(Href & Hty & Hfl & _) Hl]. simpl in Href, Hty, Hfl.
    rewrite (proj2 (Z.eqb_neq a 0)) by done. cbn [negb]. rewrite (get_bind _ b) by done. rewrite Href.
    change (0 <? 1) with true. change (u8 (1 - 1)) with 0. unfold LWIP_ASSERT. rewrite ret_bind.
    unfold put at 1. rewrite modify_bind. cbv zeta. change (0 =? 0) with true. cbv iota.
    unfold free_one, is_custom, pbuf_get_allocsrc. rewrite Hty, Hfl. change (negb (Z.land 0 PBUF_FLAG_IS_CUSTOM =? 0)) with false.
    change (Z.land (u8 PBUF_POOL) PBUF_TYPE_ALLOC_SRC_MASK =? PBUF_TYPE_ALLOC_SRC_MASK_STD_MEMP_PBUF_POOL) with true.
    cbv iota zeta. unfold release. rewrite modify_bind. cbn [pbufs blocks allocator]. rewrite delete_insert_eq.
    set (s1 := Store (delete a (pbufs s)) (delete a (blocks s)) _).
    pose proof (chain_not_in _ _ _ _ Hb Hp Ha) as Hni.
    destruct (IH (next b) l (u8 (count + 1)) s1) as (s' & n & E & Hpb & Hbl & Hun); [by apply chain_delete| |intros x Hx; apply Hm0; by right|simpl in *; lia|].
    { apply Forall_forall. intros [x bx] Hx. rewrite Forall_forall in Hl. specialize (Hl _ Hx).
      destruct Hl as (? & ? & ? & ? & ? & ? & ? & m & Hm & ?). do 7 (split; [done|]). exists m. split; [|done]. simpl in *.
      rewrite lookup_delete_ne; [done|]. intros <-. apply Hni. apply list_elem_of_fmap. by exists (a, bx). }
    exists s', n. split; [exact E|]. split; [done|]. split.
    + intros x. rewrite Hbl. change (blocks s1) with (delete a (blocks s)). destruct (decide (x = a)) as [->|Hne].
      * rewrite lookup_delete_eq, (bool_decide_true (a ∈ ((a, b) :: l).*1)) by (by left). by case_match.
      * rewrite lookup_delete_ne by done. rewrite (bool_decide_ext (x ∈ ((a, b) :: l).*1) (x ∈ l.*1)); [done|].
        rewrite fmap_cons, elem_of_cons. naive_solver.
    + rewrite Hun. simpl. rewrite (pool_gives m0) by (apply Hm0; by left). set_solver.
Qed.

(** The structure that an iteration puts at [q]. *)
Definition new_piece (q off rem_len qlen : Z) : pbuf := Pbuf 0 (Pointer q off) rem_len qlen (u8 PBUF_POOL) 0 1 NETIF_NO_INDEX null.
Definition placed s (m : M) (q : Z) (b : pbuf) : S := Store (<[q:=b]> (pbufs s)) (<[q:=fresh ops q SIZE m]> (blocks s)) m.

Lemma sizeof_bounds : 0 <= SIZEOF_STRUCT_PBUF opt < 2 ^ 17 ∧ SIZEOF_STRUCT_PBUF opt mod MEM_ALIGNMENT opt = 0.
Proof.
  pose proof pbuf_size. pose proof (alignment_pos opt). pose proof (align_bounds opt (sizeof_struct_pbuf opt) ltac:(lia)).
  unfold SIZEOF_STRUCT_PBUF, LWIP_MEM_ALIGN_SIZE. unfold LWIP_MEM_ALIGN in *. lia.
Qed.
Lemma behind_aligned q m off : q ∈ unused m → 0 <= off < 2 ^ 16 →
  behind opt q off = Pointer q (LWIP_MEM_ALIGN_SIZE opt off) ∧
  address_of opt (behind opt q off) mod MEM_ALIGNMENT opt = 0.
Proof.
  intros Hq Ho. destruct (pool_aligned q m Hq) as [Hq1 Hq2]. destruct sizeof_bounds as [Hs1 Hs2]. pose proof (alignment_pos opt).
  assert ((q + SIZEOF_STRUCT_PBUF opt) mod MEM_ALIGNMENT opt = 0) as Hm by (by rewrite Z.add_mod, Hq2, Hs2 by lia).
  assert (behind opt q off = Pointer q (LWIP_MEM_ALIGN_SIZE opt off)) as E.
  { unfold behind. f_equal. rewrite align_add by first [done|lia]. unfold LWIP_MEM_ALIGN, LWIP_MEM_ALIGN_SIZE. lia. }
  split; [done|]. rewrite E. unfold address_of. simpl.
  replace (q + SIZEOF_STRUCT_PBUF opt + LWIP_MEM_ALIGN_SIZE opt off)
    with (LWIP_MEM_ALIGN opt (q + SIZEOF_STRUCT_PBUF opt + off)) by
    (rewrite align_add by first [done|lia]; unfold LWIP_MEM_ALIGN, LWIP_MEM_ALIGN_SIZE; lia).
  apply align_bounds; [done|lia].
Qed.

Lemma pool_step whole fuel p last rem off s q m : memp_malloc ops MEMP_PBUF_POOL (allocator s) = (q, m) → q ≠ 0 →
  q ∈ unused (allocator s) → is_u16 rem → is_u16 off → LWIP_MEM_ALIGN_SIZE opt off < SIZE →
  let k := Z.min rem (SIZE - LWIP_MEM_ALIGN_SIZE opt off) in
  pool_loop ops opt custom_free_function whole (Datatypes.S fuel) p last rem off s =
  (p ← (if p =? 0 then mret q else upd last (with_next q);; mret p);
   if 0 <? rem - k then pool_loop ops opt custom_free_function whole fuel p q (rem - k) 0 else mret p)
    (placed s m q (new_piece q (LWIP_MEM_ALIGN_SIZE opt off) rem k)).
Proof.
  intros Hm Hq0 Hq Hrem Hoff Hal k. cbn [pool_loop].
  assert (call (memp_malloc ops MEMP_PBUF_POOL) s = Done (q, Store (pbufs s) (blocks s) m)) as Ec by (unfold call; by rewrite Hm).
  rewrite (bind_done _ _ _ _ _ Ec). rewrite (proj2 (Z.eqb_neq q 0)) by done. unfold is_u16 in *.
  pose proof (alignment_pos opt). pose proof (align_bounds opt off ltac:(lia)) as [Hb _]. pose proof pool_bufsize as [_ HS].
  unfold LWIP_MEM_ALIGN in Hb. fold (LWIP_MEM_ALIGN_SIZE opt off) in Hb.
  destruct (behind_aligned q _ off Hq Hoff) as [Eb Em]. unfold new_block. rewrite modify_bind. cbv zeta.
  rewrite (u32_small (SIZE - _)) by (unfold is_u32; lia). rewrite (u16_small (SIZE - _)) by (unfold is_u16; lia). fold k.
  unfold pbuf_init_alloced_pbuf, put at 1. rewrite modify_bind. unfold LWIP_ASSERT. rewrite Em, Eb, Z.eqb_refl, ret_bind.
  rewrite (proj2 (Z.ltb_lt 0 (SIZE - LWIP_MEM_ALIGN_SIZE opt off))) by lia. rewrite ret_bind. rewrite (u16_small (rem - k)) by (unfold is_u16; lia). done.
Qed.

Lemma lengths_app l1 l2 : total (l1 ++ l2) = total l1 + total l2.
Proof. induction l1 as [|[a b] l1 IH]; simpl; [done|]. rewrite IH. lia. Qed.
Lemma totals_snoc l rem q b k : totals l rem → tot_len b = rem → plen b = k → totals (l ++ [(q, b)]) (rem - k).
Proof.
  intros Hl Ht Hk. induction l as [|[a b'] l IH]; simpl in *; [split; [lia|done]|]. rewrite lengths_app. simpl.
  destruct Hl as [Hl1 Hl2]. split; [lia|by apply IH].
Qed.
Lemma totals_next l a b q rem : totals (l ++ [(a, b)]) rem → totals (l ++ [(a, with_next q b)]) rem.
Proof.
  induction l as [|[a' b'] l IH]; simpl; [done|]. rewrite !lengths_app. simpl. intros [? ?]. split; [done|by apply IH].
Qed.
Lemma chain_snoc (m : gmap Z pbuf) p l a b q bq : chain m p (l ++ [(a, b)]) → q ≠ 0 → q ∉ (l ++ [(a, b)]).*1 → next bq = 0 →
  chain (<[a:=with_next q b]> (<[q:=bq]> m)) p ((l ++ [(a, with_next q b)]) ++ [(q, bq)]).
Proof.
  intros Hc Hq Hqn Hbq. revert p Hc Hqn. induction l as [|[a' b'] l IH]; intros p Hc Hqn; cbn [app] in *.
  - destruct Hc as (-> & Ha & Hb & _). rewrite fmap_cons, not_elem_of_cons in Hqn. simpl in Hqn.
    split; [done|]. split; [done|]. split; [apply lookup_insert_eq|]. split; [done|]. split; [done|]. split; [|done].
    rewrite lookup_insert_ne by naive_solver. apply lookup_insert_eq.
  - pose proof (chain_nodup _ _ _ Hc) as Hnd. destruct Hc as (-> & Ha & Hb & Hc).
    rewrite fmap_cons, not_elem_of_cons in Hqn. rewrite fmap_cons, fmap_app in Hnd. simpl in Hnd, Hqn.
    apply NoDup_cons in Hnd as [Hna _]. rewrite not_elem_of_app, not_elem_of_cons in Hna.
    split; [done|]. split; [done|]. split; [|apply IH; [done|apply Hqn]]. rewrite !lookup_insert_ne by naive_solver. done.
Qed.

Definition apart s := ∀ a, a ∈ unused (allocator s) → pbufs s !! a = None ∧ blocks s !! a = None.
Definition unchanged s0 s := pbufs s = pbufs s0 ∧ blocks s = blocks s0 ∧ unused (allocator s) = unused (allocator s0).

Lemma building_start s rem : building s s 0 [] rem.
Proof. split; [done|constructor|done|done|set_solver|set_solver]. Qed.

Lemma piece_frame s s' n : blocks s' !! n.1 = blocks s !! n.1 → pool_piece s n → pool_piece s' n.
Proof. unfold pool_piece. by intros ->. Qed.

Lemma placed_piece s m q off rem k : 0 <= off → 0 <= k → off + k <= SIZE → pool_piece (placed s m q (new_piece q off rem k)) (q, new_piece q off rem k).
Proof.
  intros Ho Hk Hs. do 5 (split; [done|]). split; [done|]. split; [done|]. exists (fresh ops q SIZE m).
  split; [apply lookup_insert_eq|]. apply pool_fresh. lia.
Qed.

Lemma built_unused s0 s p l rem q m : building s0 s p l rem → q ∈ unused (allocator s) → unused m = unused (allocator s) ∖ {[q]} →
  q ∉ l.*1 ∧ (∀ x, x ∈ l.*1 → x ∉ unused m) ∧ unused (allocator s0) = list_to_set (l.*1 ++ [q]) ∪ unused m.
Proof.
  intros [_ _ _ _ Hpool Hdis] Hq Hm. split; [intros Hin; by apply (Hdis q)|]. split.
  - intros x Hx. specialize (Hdis x Hx). set_solver.
  - rewrite Hpool, Hm, list_to_set_app_L. simpl. apply set_eq. intros x. destruct (decide (x = q)) as [->|]; set_solver.
Qed.

(** One more structure behind the chain built so far. *)
Lemma building_first s q m off rem k : apart s → q ≠ 0 → q ∈ unused (allocator s) → unused m = unused (allocator s) ∖ {[q]} →
  0 <= off → 0 <= k → off + k <= SIZE →
  building s (placed s m q (new_piece q off rem k)) q ([] ++ [(q, new_piece q off rem k)]) (rem - k).
Proof.
  intros Hap Hq0 Hq Hm Ho Hk Hs. split.
  - split; [done|]. split; [done|]. split; [apply lookup_insert_eq|done].
  - constructor; [|constructor]. by apply placed_piece.
  - split; [simpl; lia|done].
  - intros a Ha. apply not_elem_of_cons in Ha as [Ha _]. simpl in Ha. simpl. by rewrite !lookup_insert_ne.
  - simpl. rewrite Hm. apply set_eq. intros x. destruct (decide (x = q)) as [->|]; set_solver.
  - intros a Ha. simpl in *. apply list_elem_of_singleton in Ha as ->. set_solver.
Qed.

Lemma building_more s0 s p l a b rem q m k : building s0 s p (l ++ [(a, b)]) rem → q ≠ 0 → q ∈ unused (allocator s) →
  unused m = unused (allocator s) ∖ {[q]} → 0 <= k <= SIZE →
  let s1 := placed s m q (new_piece q 0 rem k) in
  building s0 (with_pbuf s1 a (with_next q b)) p ((l ++ [(a, with_next q b)]) ++ [(q, new_piece q 0 rem k)]) (rem - k).
Proof.
  intros Hb Hq0 Hq Hm Hk s1. destruct (built_unused _ _ _ _ _ q m Hb Hq Hm) as (Hqn & Hdis' & Hpool').
  assert ((l ++ [(a, with_next q b)]).*1 = (l ++ [(a, b)]).*1) as Ea by (by rewrite !fmap_app).
  destruct Hb as [Hc Hp Ht Hf Hpool Hdis]. split.
  - by apply chain_snoc.
  - assert (Forall (pool_piece (with_pbuf s1 a (with_next q b))) (l ++ [(a, b)])) as HP.
    { apply Forall_forall. intros n Hn. rewrite Forall_forall in Hp. eapply piece_frame; [|by apply Hp]. simpl.
      apply lookup_insert_ne. intros ->. apply Hqn, list_elem_of_fmap. eauto. }
    apply Forall_app in HP as [HP1 HP2]. apply Forall_app. split; [apply Forall_app; split; [done|]|].
    + apply Forall_cons in HP2 as [HP2 _]. constructor; [exact HP2|constructor].
    + constructor; [|constructor]. apply (piece_frame s1); [done|]. by apply placed_piece; lia.
  - apply totals_snoc; [by apply (totals_next _ _ b)|done|done].
  - intros x Hx. rewrite fmap_app, Ea in Hx. rewrite not_elem_of_app in Hx. destruct Hx as [Hx1 Hx2].
    simpl in Hx2. apply not_elem_of_cons in Hx2 as [Hx2 _]. specialize (Hf x Hx1). simpl.
    assert (a ≠ x) by (intros ->; apply Hx1; rewrite fmap_app; apply elem_of_app; right; by left).
    by rewrite !lookup_insert_ne.
  - by rewrite fmap_app, Ea.
  - intros x. rewrite fmap_app, Ea, elem_of_app. intros [Hx|Hx]; [by apply Hdis'|]. simpl in Hx.
    apply list_elem_of_singleton in Hx as ->. simpl. rewrite Hm. set_solver.
Qed.

(** The pool has no element left: what has been built is given back. *)
Lemma pool_fails whole fuel s0 s p l last rem off m : building s0 s p l rem → apart s0 → (length l < whole)%nat →
  memp_malloc ops MEMP_PBUF_POOL (allocator s) = (0, m) → unused (allocator s) = ∅ → unused m = ∅ →
  ∃ s', pool_loop ops opt custom_free_function whole (Datatypes.S fuel) p last rem off s = Done (0, s') ∧ unchanged s0 s'.
Proof.
  intros Hb Hap Hf Hm Hun Hun'. cbn [pool_loop].
  assert (call (memp_malloc ops MEMP_PBUF_POOL) s = Done (0, Store (pbufs s) (blocks s) m)) as Ec by (unfold call; by rewrite Hm).
  rewrite (bind_done _ _ _ _ _ Ec). rewrite Z.eqb_refl.
  set (s1 := Store (pbufs s) (blocks s) (PBUF_POOL_IS_EMPTY ops m)).
  assert (call (λ m, (tt, PBUF_POOL_IS_EMPTY ops m)) (Store (pbufs s) (blocks s) m) = Done (tt, s1)) as Ee by done.
  rewrite (bind_done _ _ _ _ _ Ee). destruct Hb as [Hc Hp Ht Hfr Hpool Hdis].
  destruct (Z.eqb_spec p 0) as [->|Hp0]; cbn [negb].
  - assert (l = []) as -> by (destruct l as [|[a b] l]; [done|by destruct Hc as (<- & ? & _)]).
    exists s1. split; [done|]. split; [|split].
    + apply map_eq. intros a. by destruct (Hfr a) as [E1 E2]; [apply not_elem_of_nil|].
    + apply map_eq. intros a. by destruct (Hfr a) as [E1 E2]; [apply not_elem_of_nil|].
    + simpl. rewrite pool_flag, Hpool. set_solver.
  - assert (∀ a, a ∈ l.*1 → a ∈ unused (allocator s0)) as Hin by (intros a Ha; rewrite Hpool; set_solver).
    destruct (pool_free_loop (allocator s0) whole p l 0 s1 Hc Hp Hin Hf) as (s' & n & E & Hpb & Hbl & Hun1).
    assert (pbuf_free ops custom_free_function whole p s1 = Done (n, s')) as Ef.
    { unfold pbuf_free. by rewrite (proj2 (Z.eqb_neq p 0)). }
    unfold mbind at 1 2, ST_bind at 1 2. rewrite Ef. exists s'. split; [done|].
    split; [|split].
    + apply map_eq. intros a. rewrite Hpb, lookup_deletes. case_bool_decide as Ha; [|by apply Hfr].
      by destruct (Hap a (Hin a Ha)) as [-> _].
    + apply map_eq. intros a. rewrite Hbl. case_bool_decide as Ha; [|by apply Hfr]. by destruct (Hap a (Hin a Ha)) as [_ ->].
    + rewrite Hun1, Hpool. simpl. by rewrite pool_flag, Hun, Hun'.
Qed.

Lemma pool_size_pos : 0 < SIZE.
Proof.
  pose proof pool_bufsize as [HB _]. pose proof (align_bounds opt (PBUF_POOL_BUFSIZE opt) ltac:(lia)) as [Hal _].
  unfold PBUF_POOL_BUFSIZE_ALIGNED, LWIP_MEM_ALIGN_SIZE. unfold LWIP_MEM_ALIGN in Hal. lia.
Qed.
Lemma last_lookup (m : gmap Z pbuf) p l a b : chain m p (l ++ [(a, b)]) → m !! a = Some b.
Proof. intros Hc. pose proof (chain_suffix _ _ _ _ Hc) as (q & _ & _ & H & _). done. Qed.

Definition first_payload l : pointer := match l with [] => null | (_, b) :: _ => payload b end.
Lemma first_payload_more l a b q n : first_payload ((l ++ [(a, with_next q b)]) ++ n) = first_payload (l ++ [(a, b)]).
Proof. by destruct l as [|[a' b'] l]. Qed.

(** What remains is allocated, or everything is given back; [c] is the part of the first
    structure left for the headers. *)
Lemma pool_loop_spec whole fuel s0 s p l a b rem c : building s0 s p (l ++ [(a, b)]) rem → apart s0 → 0 < rem < 2 ^ 16 →
  (Z.to_nat rem <= fuel)%nat → (length (l ++ [(a, b)]) + fuel <= whole)%nat → p ≠ 0 →
  total (l ++ [(a, b)]) + c = len (l ++ [(a, b)]) * SIZE →
  (∃ s' l', pool_loop ops opt custom_free_function whole fuel p a rem 0 s = Done (p, s') ∧ building s0 s' p l' 0 ∧
     total l' = total (l ++ [(a, b)]) + rem ∧ first_payload l' = first_payload (l ++ [(a, b)])) ∨
  (∃ s', pool_loop ops opt custom_free_function whole fuel p a rem 0 s = Done (0, s') ∧ unchanged s0 s' ∧
     Z.of_nat (size (unused (allocator s0))) * SIZE < total (l ++ [(a, b)]) + rem + c).
Proof.
  revert s l a b rem. induction fuel as [|fuel IH]; intros s l a b rem Hb Hap Hrem Hf Hw Hp0 Hfull; [lia|].
  pose proof pool_bufsize as [HB HS]. pose proof (alignment_pos opt) as HA.
  pose proof pool_size_pos as HS0.
  destruct (memp_malloc ops MEMP_PBUF_POOL (allocator s)) as [q m] eqn:Em.
  destruct (pool_takes _ _ _ Em) as [(-> & Hun & Hun')|(Hq0 & Hq & Hm)].
  - right. destruct (pool_fails whole fuel s0 s p _ a rem 0 m Hb Hap ltac:(lia) Em Hun Hun') as (s' & E & Hs').
    exists s'. split; [exact E|]. split; [done|]. destruct Hb as [Hc _ _ _ Hpool _]. rewrite Hpool, Hun.
    rewrite union_empty_r_L, size_list_to_set by (by eapply chain_nodup). rewrite length_fmap. unfold len in *. lia.
  - assert (LWIP_MEM_ALIGN_SIZE opt 0 = 0) as Hz.
    { unfold LWIP_MEM_ALIGN_SIZE. fold (LWIP_MEM_ALIGN opt 0). rewrite align_value by (done||lia).
      rewrite Z.mod_small; lia. }
    rewrite (pool_step whole fuel p a rem 0 s q m Em Hq0 Hq) by (unfold is_u16; lia). rewrite Hz, Z.sub_0_r.
    set (k := Z.min rem SIZE). assert (k = Z.min rem SIZE) as Hk by done. clearbody k.
    rewrite (proj2 (Z.eqb_neq p 0)) by done.
    pose proof (building_more s0 s p l a b rem q m k Hb Hq0 Hq Hm ltac:(lia)) as Hb'. cbv zeta in Hb'.
    set (s1 := placed s m q (new_piece q 0 rem k)) in *.
    assert ((upd a (with_next q);; mret p) s1 = Done (p, with_pbuf s1 a (with_next q b))) as Eu.
    { pose proof (last_lookup _ _ _ _ _ (built_chain _ _ _ _ _ Hb)) as Ha.
      assert (a ≠ q).
      { intros ->. apply (built_disjoint _ _ _ _ _ Hb q); [|done]. rewrite fmap_app. apply elem_of_app. right. by left. }
      assert (pbufs s1 !! a = Some b) as Ha1 by (unfold s1; simpl; by rewrite lookup_insert_ne).
      unfold upd. unfold mbind at 1, ST_bind at 1. by rewrite (get_bind _ b). }
    rewrite (bind_done _ _ _ _ _ Eu).
    assert (total ((l ++ [(a, with_next q b)]) ++ [(q, new_piece q 0 rem k)]) = total (l ++ [(a, b)]) + k) as Et
      by (rewrite !lengths_app; simpl; lia).
    assert (length ((l ++ [(a, with_next q b)]) ++ [(q, new_piece q 0 rem k)]) = Datatypes.S (length (l ++ [(a, b)]))) as El
      by (rewrite !length_app; simpl; lia).
    destruct (Z.ltb_spec 0 (rem - k)) as [Hmore|Hdone].
    + destruct (IH _ _ _ _ _ Hb' Hap) as [(s' & l' & E & Hb2 & Ht & Hfp)|(s' & E & Hun & Hsz)]; [lia|lia|lia|done| | |].
      * rewrite Et. unfold len in *. rewrite El. lia.
      * left. exists s', l'. split; [exact E|]. split; [done|]. split; [lia|]. by rewrite Hfp, first_payload_more.
      * right. exists s'. split; [exact E|]. split; [done|]. lia.
    + left. eexists _, _. split; [done|]. split; [|split; [rewrite Et; lia|by rewrite first_payload_more]].
      replace (rem - k) with 0 in Hb' by lia. exact Hb'.
Qed.

(** The bytes that a chain of pool structures holds. *)
Definition contents s l : list (Z * bytes) :=
  (λ n, (n.1, take (Z.to_nat (plen n.2)) (drop (Z.to_nat (offset (payload n.2))) (default [] (blocks s !! n.1))))) <$> l.

Lemma contents_len s l : Forall (pool_piece s) l → len (bytes_of (contents s l)) = total l.
Proof.
  induction 1 as [|[a b] l Hn Hl IH]; [done|]. unfold contents. rewrite fmap_cons. simpl fst. simpl snd.
  rewrite bytes_of_cons, len_app. fold (contents s l). rewrite IH. simpl.
  destruct Hn as (_ & _ & _ & _ & Ho & Hp & Hs & m & Hm & Hlm). simpl in *. rewrite Hm. simpl.
  rewrite len_take; [done|]. rewrite len_drop by lia. lia.
Qed.
Lemma contents_packet s p l : chain (pbufs s) p l → Forall (pool_piece s) l → totals l 0 → total l < 2 ^ 16 →
  packet s p (contents s l).
Proof.
  revert p. induction l as [|[a b] l IH]; intros p Hc Hp Ht Hl; [done|].
  destruct Hc as (-> & Ha & Hb & Hc). pose proof (contents_len s _ Hp) as Hlen.
  pose proof Hp as Hp'. apply Forall_cons in Hp as [(_ & _ & _ & Hblk & Ho & Hpl & Hs & m & Hm & Hlm) Hp].
  simpl in Ht, Hl, Hblk, Ho, Hpl, Hs, Hm. destruct Ht as [Ht1 Ht2].
  unfold contents in *. rewrite fmap_cons in *. simpl fst in *. simpl snd in *. fold (contents s l) in *.
  split; [done|]. split; [done|]. exists b. split; [done|]. split; [|split].
  - rewrite Hm. simpl. assert (len (take (Z.to_nat (plen b)) (drop (Z.to_nat (offset (payload b))) m)) = plen b) as E
      by (rewrite len_take; [done|]; rewrite len_drop by lia; lia).
    split; [done|]. exists m. rewrite Hblk. split; [done|]. split; [done|]. rewrite E. split; [lia|].
    unfold len in E. by replace (length _) with (Z.to_nat (plen b)) by lia.
  - rewrite Hlen. simpl. lia.
  - apply IH; [done..|]. assert (0 <= plen b) by done. lia.
Qed.
Lemma contents_separate s p l : chain (pbufs s) p l → Forall (pool_piece s) l → separate s (contents s l).
Proof.
  intros Hc Hp. unfold separate. replace (area s ∘ fst <$> contents s l) with l.*1; [by eapply chain_nodup|].
  revert p Hc. induction Hp as [|[a b] l Hn Hp IH]; intros p Hc; [done|]. destruct Hc as (-> & Ha & Hb & Hc).
  unfold contents. rewrite !fmap_cons. fold (contents s l). rewrite <- (IH _ Hc). cbn. f_equal.
  rewrite (area_lookup _ _ _ Hb). symmetry. apply Hn.
Qed.

(** The packet at [p] is made of the structures [l] taken from the pool since [s]: it has
    [length] bytes, memory and a single reference for each structure, and room for [c]
    bytes in front. *)
Definition allocated s s' (p : Z) l (length c : Z) : Prop :=
  chain (pbufs s') p l ∧ Forall (λ n, ref n.2 = 1) l ∧ packet s' p (contents s' l) ∧
  separate s' (contents s' l) ∧ len (bytes_of (contents s' l)) = length ∧ first_payload l = Pointer p c ∧
  unused (allocator s) = list_to_set l.*1 ∪ unused (allocator s') ∧ (∀ a, a ∈ l.*1 → a ∉ unused (allocator s')) ∧
  ∀ a, a ∉ l.*1 → pbufs s' !! a = pbufs s !! a ∧ blocks s' !! a = blocks s !! a.
Lemma building_allocated s s' p l length c : building s s' p l 0 → length < 2 ^ 16 → total l = length →
  first_payload l = Pointer p c → allocated s s' p l length c.
Proof.
  intros [Hc Hp Ht Hfr Hpool Hdis] Hl Htot Hfp. split; [done|]. split.
  { apply (Forall_impl _ _ _ Hp). by intros n (? & _). }
  split; [by apply contents_packet; [..|lia]|]. split; [by eapply contents_separate|]. by rewrite contents_len.
Qed.

(** C38 (error): a pool allocation gives the whole packet or nothing. When it succeeds, the
    structures come from the free ones of the pool, each has one reference and memory of
    its own, together they hold exactly the bytes asked for, the first leaves the room of
    the headers in front, and nothing else changed. When the pool runs out on the way,
    the structures taken are given back, every structure, every block and the pool are as
    before, and the pool was indeed too small. *)
Theorem pool_alloc_all_or_nothing fuel layer length s :
  apart s → is_u16 layer → is_u16 length → LWIP_MEM_ALIGN_SIZE opt layer < SIZE → (Z.to_nat length + 1 < fuel)%nat →
  ∃ p s', pbuf_alloc ops opt custom_free_function fuel layer length PBUF_POOL s = Done (p, s') ∧
  (p ≠ 0 → ∃ l, allocated s s' p l length (LWIP_MEM_ALIGN_SIZE opt layer)) ∧
  (p = 0 → unchanged s s' ∧
     (unused (allocator s) = ∅ ∨ Z.of_nat (size (unused (allocator s))) * SIZE < length + LWIP_MEM_ALIGN_SIZE opt layer)).
Proof.
  intros Hap Hlay Hlen Hroom Hf. unfold is_u16 in *. unfold pbuf_alloc. cbv zeta.
  change ((PBUF_POOL =? PBUF_REF) || (PBUF_POOL =? PBUF_ROM)) with false. change (PBUF_POOL =? PBUF_POOL) with true. cbv iota.
  rewrite (u16_small layer) by done. set (c := LWIP_MEM_ALIGN_SIZE opt layer) in *.
  assert (0 <= c) as Hc0.
  { pose proof (align_bounds opt layer ltac:(lia)) as [Hb _]. unfold LWIP_MEM_ALIGN in Hb. unfold c, LWIP_MEM_ALIGN_SIZE. lia. }
  destruct fuel as [|fuel]; [lia|].
  destruct (memp_malloc ops MEMP_PBUF_POOL (allocator s)) as [q m] eqn:Em.
  destruct (pool_takes _ _ _ Em) as [(-> & Hun & Hun')|(Hq0 & Hq & Hm)].
  { destruct (pool_fails (Datatypes.S fuel) fuel s s 0 [] 0 length layer m (building_start s length) Hap ltac:(simpl; lia) Em Hun Hun')
      as (s' & E & Hs'). exists 0, s'. split; [exact E|]. split; [done|]. intros _. split; [done|by left]. }
  rewrite (pool_step _ fuel 0 0 length layer s q m Em Hq0 Hq) by done. fold c.
  set (k := Z.min length (SIZE - c)). assert (k = Z.min length (SIZE - c)) as Hk by done. clearbody k.
  change (0 =? 0) with true. cbv iota. rewrite ret_bind.
  pose proof (building_first s q m c length k Hap Hq0 Hq Hm Hc0 ltac:(lia) ltac:(lia)) as Hb. set (s1 := placed _ _ _ _) in *.
  destruct (Z.ltb_spec 0 (length - k)).
  - destruct (pool_loop_spec (Datatypes.S fuel) fuel s s1 q [] q (new_piece q c length k) (length - k) c Hb Hap)
      as [(s' & l' & E & Hb' & Ht & Hfp)|(s' & E & Hs' & Hsz)]; [lia|lia|simpl; lia|done|unfold len; simpl; lia|..].
    + exists q, s'. split; [exact E|]. split; [|done]. intros _. exists l'. apply building_allocated; [done|lia| |by rewrite Hfp].
      rewrite Ht. simpl. lia.
    + exists 0, s'. split; [exact E|]. split; [done|]. intros _. split; [done|]. right. simpl in Hsz. lia.
  - exists q, s1. split; [done|]. split; [|done]. intros _. replace (length - k) with 0 in Hb by lia.
    eexists. apply (building_allocated _ _ _ _ _ _ Hb); [lia|simpl; lia|done].
Qed.
End pool.

(** ** Properties *)

Section properties.
Context {M : Type} (ops : mem_ops M) (custom_free_function : Z → ST (store M) unit) (custom_ok : pbuf → Prop).
Context `{!CustomFree custom_free_function custom_ok}.
Local Abbreviation S := (store M).
Implicit Types (s : S).

(** The structures of [gone] have their last reference dropped; the first of [kept] has others. *)
Definition last_references (gone kept : list (Z * pbuf)) : Prop :=
  Forall (λ n, ref n.2 = 1) gone ∧ match kept with [] => True | n :: _ => ref n.2 ≠ 1 end.

Lemma freed_split gone kept m : last_references gone kept →
  freed (gone ++ kept) m = (len gone,
    match kept with
    | [] => foldl (λ m a, delete a m) m gone.*1
    | (a, b) :: _ => <[a := with_ref (ref b - 1) b]> (foldl (λ m a, delete a m) m gone.*1)
    end).
Proof.
  intros [Hg Hk]. revert m. induction Hg as [|[a b] gone Hb Hg IH]; intros m; simpl in *.
  - destruct kept as [|[a b] kept]; simpl in *; [done|]. by rewrite (proj2 (Z.eqb_neq (ref b) 1)).
  - rewrite Hb, Z.eqb_refl, IH, len_cons. cbn. f_equal. lia.
Qed.

(** C39 (functional): [pbuf_free] gives up the structures at the front of a chain whose
    only reference is the one dropped, tells how many they were modulo 256, drops one reference of
    the first that has more and leaves that one and all behind it in the chain; no other
    structure changes. So of 1-1-1 nothing stays, and of 1-2-3 the last two. *)
Theorem pbuf_free_counts fuel p gone kept s :
  chain (pbufs s) p (gone ++ kept) → p ≠ 0 → last_references gone kept →
  Forall (λ n, counted custom_ok n.2) (gone ++ kept) → (length (gone ++ kept) < fuel)%nat →
  ∃ s', pbuf_free ops custom_free_function fuel p s = Done (u8 (len gone), s') ∧
    (∀ a, a ∈ gone.*1 → pbufs s' !! a = None) ∧
    (∀ a b kept', kept = (a, b) :: kept' → pbufs s' !! a = Some (with_ref (ref b - 1) b) ∧ chain (pbufs s') (next b) kept') ∧
    (∀ a, a ∉ gone.*1 → a ∉ take 1 kept.*1 → pbufs s' !! a = pbufs s !! a).
Proof.
  intros Hp Hp0 Hk Hc Hf. unfold pbuf_free. rewrite (proj2 (Z.eqb_neq p 0)) by done.
  destruct (free_loop_spec ops custom_free_function custom_ok fuel p _ 0 s Hp Hc Hf ltac:(done)) as (s' & E & Es).
  rewrite (freed_split _ _ _ Hk) in E, Es. simpl in E, Es. exists s'. split; [done|].
  pose proof (chain_nodup _ _ _ Hp) as Hnd. rewrite fmap_app in Hnd. apply NoDup_app in Hnd as (_ & Hdis & Hnd).
  pose proof (chain_suffix _ _ _ _ Hp) as (q & Hq). rewrite Es. destruct kept as [|[a b] kept].
  - split; [|split; [done|]]; intros x Hx; rewrite lookup_deletes; [by rewrite bool_decide_true|]. by rewrite bool_decide_false.
  - simpl in Hdis, Hnd, Hq. apply NoDup_cons in Hnd as [Hna _]. split; [|split].
    + intros x Hx. rewrite lookup_insert_ne; [by rewrite lookup_deletes, bool_decide_true|]. intros ->. apply (Hdis x Hx). left.
    + intros ? ? ? [= <- <- <-]. split; [apply lookup_insert_eq|]. eapply pbufs_frame; [|apply Hq].
      intros x Hx. rewrite lookup_insert_ne by (by intros ->). rewrite lookup_deletes, bool_decide_false; [done|].
      intros Hg. apply (Hdis x Hg). by right.
    + intros x Hx Hx'. simpl in Hx'. apply not_elem_of_cons in Hx' as [Hx' _].
      rewrite lookup_insert_ne by done. by rewrite lookup_deletes, bool_decide_false.
Qed.

(** Data written at an offset of a packet of any number of structures that
    share no memory is what [pbuf_copy_partial] reads there afterwards, and no byte before
    or behind it and no other memory changes; data that does not fit is refused with
    [ERR_MEM] and nothing is written. *)
Theorem take_at_then_copy fuel p ns data n off s :
  packet s p ns → separate s ns → (length ns < fuel)%nat → 0 <= n <= len data → 0 <= off < len (bytes_of ns) → off + n < 2 ^ 16 →
  (len (bytes_of ns) < off + n → pbuf_take_at fuel p data n off s = Done (ERR_MEM, s)) ∧
  (off + n <= len (bytes_of ns) → ∃ s' ns', pbuf_take_at fuel p data n off s = Done (ERR_OK, s') ∧
    pbufs s' = pbufs s ∧ packet s' p ns' ∧ bytes_of ns' = patch (bytes_of ns) off (take (Z.to_nat n) data) ∧
    (∀ x, x ∉ (area s ∘ fst <$> ns) → blocks s' !! x = blocks s !! x) ∧
    ∀ out, len out = n → pbuf_copy_partial fuel p (Some out) n off s' = Done ((n, Some (take (Z.to_nat n) data)), s')).
Proof.
  intros Hp Hsep Hf Hn Ho H16. pose proof (take_at_spec fuel p ns data n off s Hp Hsep Hf Hn ltac:(lia) ltac:(lia)) as Htake.
  split; intros Hl; [by rewrite (proj2 (Z.ltb_lt _ _)) in Htake|]. rewrite (proj2 (Z.ltb_ge _ _)) in Htake by done.
  destruct Htake as (s' & ns' & E & Hpb & Hp' & Hadr & Hb & Hframe). exists s', ns'. do 5 (split; [done|]). intros out Hout.
  unfold pbuf_copy_partial. assert (p ≠ 0) as Hp0.
  { rewrite (packet_zero _ _ _ Hp). intros E0. subst ns. change (0 <= off < 0) in Ho. lia. }
  rewrite (proj2 (Z.eqb_neq p 0)) by done. set (d := take (Z.to_nat n) data) in *.
  assert (len d = n) as Hd by (by apply len_take).
  assert (take (Z.to_nat n) (drop (Z.to_nat off) (bytes_of ns')) = d) as Ed.
  { rewrite Hb. unfold patch. unfold len in *. rewrite drop_app_ge by (rewrite length_take; lia).
    rewrite length_take_le, Nat.sub_diag, drop_0 by lia. apply take_app_length'. lia. }
  assert (length ns' = length ns) as Hlen by (rewrite <- (length_fmap fst ns), <- Hadr; by rewrite length_fmap).
  pose proof (partial_spec fuel p ns' out 0 n off s' Hp' ltac:(lia) ltac:(lia) ltac:(lia) ltac:(lia) ltac:(lia)) as Hc.
  cbv zeta in Hc. rewrite Ed in Hc. rewrite (bind_done _ _ _ _ _ (Hc ltac:(lia))). cbn. unfold mret, ST_ret. rewrite Hd.
  do 4 f_equal. unfold patch. simpl. rewrite drop_ge by (unfold len in *; lia). by rewrite app_nil_r.
Qed.

(** [pbuf_strstr] finds the first position at which the string stands in
    the bytes of the packet, however they are divided among the structures, and gives
    0xFFFF when there is none; a string of no characters and a packet of 0xFFFF bytes
    are never found in. *)
Theorem strstr_finds_first fuel p ns str s :
  packet s p ns → ns ≠ [] → (length ns < fuel)%nat → bytes_ok (bytes_of ns) →
  (str = [] ∨ len (bytes_of ns) = 0xFFFF → pbuf_strstr fuel p (Some str) s = Done (0xFFFF, s)) ∧
  (str ≠ [] → len (bytes_of ns) ≠ 0xFFFF →
    ∃ r, pbuf_strstr fuel p (Some str) s = Done (r, s) ∧ first_occurrence (bytes_of ns) str 0 r).
Proof.
  intros Hp Hne Hf Hok. pose proof Hp as Hp'. destruct ns as [|[a d] ns]; [done|].
  destruct Hp' as (<- & _ & b & Hb & _ & [Ht Ht'] & _). destruct str as [|x str]; [split; [done|by intros []]|].
  unfold pbuf_strstr. rewrite (get_bind _ b) by done. rewrite Ht in *. set (data := bytes_of _) in *.
  pose proof (len_nonneg data). split.
  { intros [?|E]; [done|]. by rewrite E. }
  intros _ H16. rewrite (proj2 (Z.eqb_neq (len data) 0xFFFF)) by done. set (str' := x :: str) in *.
  destruct (Z.leb_spec 0xFFFF (len str')) as [Hlong|Hshort].
  - exists 0xFFFF. split; [done|]. right. split; [done|]. intros i Hi (_ & Hl & _). lia.
  - pose proof (len_nonneg str'). rewrite u16_small by (unfold is_u16; lia). apply memfind_spec; [done..|lia].
Qed.

(** A header is removed only from the bytes of the first structure and
    added only in front of data that lies behind the structure, as far as the block
    reaches and the length stays below 2^16; refused calls change nothing, removing [n]
    bytes drops the first [n] of the packet, and adding them back restores every field. *)
Theorem headers_stay_inside p d ns b n s :
  packet s p ((p, d) :: ns) → pbufs s !! p = Some b → 0 < n →
  Z.land (type_internal b) PBUF_TYPE_FLAG_STRUCT_DATA_CONTIGUOUS ≠ 0 →
  (len d < n → pbuf_remove_header p n s = Done (1, s)) ∧
  (n <= len d → ∃ s', pbuf_remove_header p n s = Done (0, s') ∧
    packet s' p ((p, drop (Z.to_nat n) d) :: ns) ∧ pbuf_add_header p n s' = Done (0, s)) ∧
  (offset (payload b) < n ∨ 2 ^ 16 <= tot_len b + n → pbuf_add_header p n s = Done (1, s)) ∧
  (n <= offset (payload b) → tot_len b + n < 2 ^ 16 → ∃ s' e, pbuf_add_header p n s = Done (0, s') ∧
    len e = n ∧ packet s' p ((p, e ++ d) :: ns)).
Proof.
  intros Hp Hb Hn Hty. destruct (packet_fields _ _ _ _ _ Hp Hb) as (Hok & Ha & Hl). unfold pbuf_add_header.
  pose proof Hok as [Hok1 Hok2]. pose proof (proj2 (Z.eqb_neq _ _) Hty) as Hty'.
  rewrite (remove_header_spec _ _ b), (add_header_spec _ _ b) by first [done|lia].
  rewrite (proj2 (Z.eqb_neq n 0)) by lia. rewrite Hty', Hl. split; [|split; [|split]].
  - intros Hlt. by rewrite (proj2 (Z.leb_gt n (len d))).
  - intros Hle. rewrite (proj2 (Z.leb_le n (len d))) by done. eexists. split; [done|].
    pose proof (packet_shifted s p d ns n b Hp Hb ltac:(lia)) as Hp'. split; [exact Hp'|].
    rewrite (add_header_spec _ p (shifted n b)); [|apply lookup_insert_eq|done|split; simpl; lia|lia].
    rewrite (proj2 (Z.eqb_neq n 0)) by lia. cbn [shifted with_payload with_len with_tot_len type_internal tot_len payload advance offset].
    rewrite Hty'. destruct Hp as (_ & _ & b' & Hb' & (_ & m & _ & H0 & _) & _). rewrite Hb in Hb'. simplify_eq.
    rewrite (proj2 (Z.leb_gt _ _)), (proj2 (Z.ltb_ge _ _)) by lia. by rewrite shifted_back, with_pbuf_back.
  - intros H. destruct (Z.leb_spec (2 ^ 16) (tot_len b + n)); [done|]. by rewrite (proj2 (Z.ltb_lt _ _)) by lia.
  - intros Ho H16. destruct (packet_unshifted s p d ns n b Hp Hb) as (e & He & Hp'); [lia|done|].
    rewrite (proj2 (Z.leb_gt _ _)), (proj2 (Z.ltb_ge _ _)) by lia. eauto.
Qed.
Lemma packet_ref s p ns a b x : packet s p ns → pbufs s !! a = Some b → packet (with_pbuf s a (with_ref x b)) p ns.
Proof.
  intros Hp Hb. revert p Hp. induction ns as [|[a' d] ns IH]; intros p; [done|].
  intros (-> & Ha & b' & Hb' & Hh & Ht & Hp). split; [done|]. split; [done|]. destruct (decide (a' = a)) as [->|Hne].
  - rewrite Hb in Hb'. injection Hb' as <-. exists (with_ref x b). split; [apply lookup_insert_eq|].
    split; [exact Hh|]. split; [done|]. by apply IH.
  - exists b'. split; [simpl; by rewrite lookup_insert_ne|]. split; [done|]. split; [done|]. by apply IH.
Qed.

(** A packet of one structure. *)
Lemma single_fields s h d b : packet s h [(h, d)] → pbufs s !! h = Some b → next b = 0 ∧ tot_len b = plen b ∧ plen b = len d.
Proof.
  intros (_ & Hh & b' & Hb' & [Hl _] & [Ht _] & Hn) Hb. rewrite Hb in Hb'. injection Hb' as <-. simpl in Hn.
  split; [done|]. rewrite Ht, Hl. split; [|done]. unfold bytes_of. simpl. by rewrite app_nil_r.
Qed.

(** *** One structure in front of a packet *)

Lemma cat_single fuel h t bh bt s : pbufs s !! h = Some bh → pbufs s !! t = Some bt → h ≠ 0 → t ≠ 0 → next bh = 0 →
  tot_len bh = plen bh → is_u16 (tot_len bh + tot_len bt) →
  pbuf_cat (Datatypes.S fuel) h t s = Done (tt, with_pbuf s h (with_next t (with_tot_len (tot_len bh + tot_len bt) bh))).
Proof.
  intros Hbh Hbt Hh Ht Hn Htot Hu. unfold pbuf_cat. rewrite !(proj2 (Z.eqb_neq _ _)) by done. cbn [orb cat_loop].
  unfold mbind at 1, ST_bind at 1. rewrite (get_bind h bh) by done. rewrite Hn. change (negb (0 =? 0)) with false. cbv iota.
  unfold mret, ST_ret. rewrite (get_bind h bh) by done. unfold LWIP_ASSERT. rewrite Htot, Z.eqb_refl, ret_bind, Hn, Z.eqb_refl, ret_bind.
  rewrite (get_bind t bt) by done. rewrite u16_small by (by rewrite <- Htot). done.
Qed.
Lemma ref_spec p b s : pbufs s !! p = Some b → p ≠ 0 → 0 <= ref b < 255 →
  pbuf_ref p s = Done (tt, with_pbuf s p (with_ref (ref b + 1) b)).
Proof.
  intros Hb Hp Hr. unfold pbuf_ref. rewrite (proj2 (Z.eqb_neq p 0)) by done. cbn [negb].
  rewrite (bind_done _ _ _ tt (with_pbuf s p (with_ref (ref b + 1) b))).
  - rewrite (get_bind p (with_ref (ref b + 1) b)) by apply lookup_insert_eq. unfold LWIP_ASSERT. simpl.
    by rewrite (proj2 (Z.ltb_lt 0 _)) by lia.
  - unfold upd. rewrite (get_bind p b) by done. by rewrite u8_small by (unfold is_u8; lia).
Qed.
(** A packet that others refer to stays. *)
Lemma free_shared fuel p b s : pbufs s !! p = Some b → p ≠ 0 → 2 <= ref b < 256 →
  pbuf_free ops custom_free_function (Datatypes.S (Datatypes.S fuel)) p s = Done (0, with_pbuf s p (with_ref (ref b - 1) b)).
Proof.
  intros Hb Hp Hr. unfold pbuf_free. rewrite (proj2 (Z.eqb_neq p 0)) by done. cbn [free_loop].
  rewrite (proj2 (Z.eqb_neq p 0)) by done. cbn [negb]. rewrite (get_bind p b) by done. unfold LWIP_ASSERT.
  rewrite (proj2 (Z.ltb_lt 0 _)), ret_bind by lia. cbv zeta. rewrite u8_small by (unfold is_u8; lia).
  unfold put. rewrite modify_bind. rewrite (proj2 (Z.eqb_neq (ref b - 1) 0)) by lia. done.
Qed.
Lemma with_pbuf_undo s h t bh bt b1 b2 b3 : pbufs s !! h = Some bh → pbufs s !! t = Some bt → h ≠ t →
  with_pbuf (with_pbuf (with_pbuf (with_pbuf (with_pbuf s h b1) t b2) t b3) h bh) t bt = s.
Proof.
  intros Hbh Hbt Hht. unfold with_pbuf. destruct s as [ps bs al]. simpl in *. f_equal. apply map_eq. intros x.
  destruct (decide (x = t)) as [->|]; [by rewrite lookup_insert_eq|]. rewrite lookup_insert_ne by done.
  destruct (decide (x = h)) as [->|]; [by rewrite lookup_insert_eq|]. by rewrite !lookup_insert_ne.
Qed.

Lemma dechain_shared fuel h t bh bt s : pbufs s !! h = Some bh → pbufs s !! t = Some bt → h ≠ t → h ≠ 0 → t ≠ 0 →
  next bh = 0 → tot_len bh = plen bh → is_u16 (tot_len bt) → 1 <= ref bt < 255 →
  pbuf_dechain ops custom_free_function (Datatypes.S (Datatypes.S fuel)) h
    (with_pbuf (with_pbuf s h (with_next t (with_tot_len (tot_len bh + tot_len bt) bh))) t (with_ref (ref bt + 1) bt)) = Done (t, s).
Proof.
  intros Hbh Hbt Hht Hh0 Ht0 Hn Htot Hu Href. set (bh' := with_next t _). set (bt' := with_ref _ bt). set (s2 := with_pbuf _ t bt').
  assert (pbufs s2 !! t = Some bt') as Hb2 by apply lookup_insert_eq.
  assert (pbufs s2 !! h = Some bh') as Hbh2 by (simpl; rewrite lookup_insert_ne by done; apply lookup_insert_eq).
  unfold pbuf_dechain. rewrite (get_bind h bh') by done.
  change (next bh') with t. change (plen bh') with (plen bh). change (tot_len bh') with (tot_len bh + tot_len bt). cbv zeta.
  rewrite (proj2 (Z.eqb_neq t 0)) by done. cbn [negb].
  rewrite (bind_done _ _ _ 0 s); [rewrite (get_bind h bh) by done; unfold LWIP_ASSERT; by rewrite Htot, Z.eqb_refl|].
  rewrite (get_bind t bt') by done. change (tot_len bt') with (tot_len bt). unfold LWIP_ASSERT.
  replace (tot_len bh + tot_len bt - plen bh) with (tot_len bt) by lia. rewrite Z.eqb_refl, ret_bind, u16_small by done.
  replace (with_tot_len (tot_len bt) bt') with bt' by (by destruct bt).
  unfold put at 1. rewrite modify_bind. unfold upd at 1.
  rewrite (bind_done _ _ _ tt (with_pbuf (with_pbuf s2 t bt') h bh)).
  - rewrite (free_shared _ t bt'); [|simpl; rewrite lookup_insert_ne by done; apply lookup_insert_eq|done|simpl; lia].
    change (ref bt') with (ref bt + 1). replace (ref bt + 1 - 1) with (ref bt) by lia.
    replace (with_ref (ref bt) bt') with bt by (by destruct bt). do 2 f_equal. by apply with_pbuf_undo.
  - rewrite (get_bind h bh') by (simpl; by rewrite lookup_insert_ne).
    change (with_tot_len (plen bh') (with_next 0 bh')) with (with_tot_len (plen bh) (with_next 0 bh)).
    replace (with_tot_len (plen bh) (with_next 0 bh)) with bh; [done|]. rewrite <- Htot, <- Hn. by destruct bh.
Qed.

(** [pbuf_chain] puts a packet behind one structure, which then holds the
    bytes of both, and takes a reference of it; [pbuf_dechain] gives that packet back,
    drops the reference, and leaves every structure as it was before. *)
Theorem chain_then_dechain fuel h t d ns bt s :
  packet s h [(h, d)] → packet s t ns → h ∉ ns.*1 → pbufs s !! t = Some bt → t ≠ 0 → 1 <= ref bt < 255 →
  len d + len (bytes_of ns) < 2 ^ 16 → (2 <= fuel)%nat →
  ∃ s', pbuf_chain fuel h t s = Done (tt, s') ∧ packet s' h ((h, d) :: ns) ∧
    pbuf_dechain ops custom_free_function fuel h s' = Done (t, s).
Proof.
  intros Hh Ht Hni Hbt Ht0 Href Hl Hf. destruct fuel as [|[|fuel]]; [lia..|].
  assert (ns ≠ []) as Hne by (intros ->; done).
  destruct (cat_spec (Datatypes.S (Datatypes.S fuel)) h t [(h, d)] ns s Hh Ht ltac:(done) Hne) as (s1 & Ecat & Hp1 & _); [|simpl; lia| |].
  { intros a Ha. apply list_elem_of_singleton in Ha as ->. done. }
  { simpl. rewrite bytes_of_cons, len_app. done. }
  pose proof Hh as (_ & Hh1 & bh & Hbh & _). destruct (single_fields s h d bh Hh Hbh) as (Hn & Htot & Hpl).
  assert (h ≠ t ∧ tot_len bt = len (bytes_of ns)) as [Hht Htt].
  { destruct ns as [|[a e] ns]; [done|]. destruct Ht as (-> & _ & b' & Hb' & _ & [Htt _] & _). rewrite Hbt in Hb'.
    injection Hb' as <-. split; [|done]. intros ->. apply Hni. by left. }
  pose proof (len_nonneg d). pose proof (len_nonneg (bytes_of ns)).
  assert (is_u16 (tot_len bh + tot_len bt)) by (unfold is_u16; lia).
  pose proof (cat_single (Datatypes.S fuel) h t bh bt s Hbh Hbt Hh1 Ht0 Hn Htot ltac:(done)) as E. rewrite E in Ecat. injection Ecat as <-.
  eexists. split; [|split].
  - unfold pbuf_chain. rewrite (bind_done _ _ _ _ _ E). apply (ref_spec t bt); [simpl; by rewrite lookup_insert_ne|done|lia].
  - apply packet_ref; [exact Hp1|]. simpl. by rewrite lookup_insert_ne.
  - apply dechain_shared; [done..|unfold is_u16; lia|done].
Qed.
End properties.

(** ** A pool of three structures and a packet in two of them *)

Module PbufDemo.
(** Which of the elements are free. *)
Definition pool3 : Type := bool * bool * bool.
Definition demo_ops : mem_ops pool3 := {|
  mem_malloc _ m := (0, m); mem_trim p _ m := (p, m); mem_free _ m := m;
  memp_malloc k m := match k, m with
    | MEMP_PBUF_POOL, (true, b, c) => (64, (false, b, c))
    | MEMP_PBUF_POOL, (_, true, c) => (128, (false, false, c))
    | MEMP_PBUF_POOL, (_, _, true) => (192, (false, false, false))
    | _, _ => (0, m) end;
  memp_free k q '(a, b, c) := match k with
    | MEMP_PBUF_POOL => (a || (q =? 64), b || (q =? 128), c || (q =? 192))
    | MEMP_PBUF => (a, b, c) end;
  fresh _ n _ := replicate (Z.to_nat n) 0;
  PBUF_POOL_IS_EMPTY m := m;
|}.
Definition demo_options : options := Options 4 16 8 u32.
Definition elements (m : pool3) : gset Z :=
  let '(a, b, c) := m in
  (if a then {[64]} else ∅) ∪ (if b then {[128]} else ∅) ∪ (if c then {[192]} else ∅).

#[export] Instance demo_options_ok : OptionsOk demo_options.
Proof. split; [by exists 2|done..]. Qed.
Lemma elements_value q m : q ∈ elements m → q = 64 ∨ q = 128 ∨ q = 192.
Proof. destruct m as [[[] []] []]; simpl; set_solver. Qed.
#[export] Instance demo_pool_laws : PoolLaws demo_ops demo_options elements.
Proof.
  split; simpl.
  - intros [[[] []] []] q m' E; simplify_eq; first [left; done|right; split; [done|]; split; [set_solver|]; by vm_compute].
  - intros m0 q [[a b] c] Hq. destruct (elements_value _ _ Hq) as [-> | [-> | ->]]; destruct a, b, c; by vm_compute.
  - done.
  - intros q n m Hn. unfold len. rewrite length_replicate. lia.
  - intros q m Hq. destruct (elements_value _ _ Hq) as [-> | [-> | ->]]; done.
Qed.

Definition demo_free (p : Z) : ST (store pool3) unit := release p id.
#[export] Instance demo_custom_free : CustomFree demo_free (λ _, True).
Proof. split; [|done]. intros p b s _ _ _. by eexists. Qed.

Definition demo_pbuf (next p off tot n ref : Z) : pbuf := Pbuf next (Pointer p off) tot n (u8 PBUF_POOL) 0 ref 0 null.
(** Six bytes, two of them in the first structure, behind four bytes of room. *)
Definition demo_store (ref1 ref2 : Z) : store pool3 :=
  Store (<[64 := demo_pbuf 128 64 4 6 2 ref1]> (<[128 := demo_pbuf 0 128 0 4 4 ref2]> ∅))
    (<[64 := [9; 9; 9; 9; 1; 2; 9; 9]]> (<[128 := [3; 4; 5; 6; 9; 9; 9; 9]]> ∅)) (false, false, true).
Definition demo_bytes : list (Z * bytes) := [(64, [1; 2]); (128, [3; 4; 5; 6])].

Lemma demo_packet r1 r2 : packet (demo_store r1 r2) 64 demo_bytes.
Proof.
  split; [done|]. split; [done|]. eexists. split; [done|]. split; [split; [done|]; by eexists|]. split; [done|].
  split; [done|]. split; [done|]. eexists. split; [done|]. split; [split; [done|]; by eexists|]. done.
Qed.
Lemma demo_separate r1 r2 : separate (demo_store r1 r2) demo_bytes.
Proof. unfold separate. change (NoDup [64; 128]). by apply (bool_decide_unpack _). Qed.

End PbufDemo.
Import PbufDemo.

(** The first structure goes, the second has one reference left. *)
Lemma pbuf_free_counts_witness : ∃ s',
  pbuf_free demo_ops demo_free 3 64 (demo_store 1 2) = Done (1, s') ∧ pbufs s' !! 64 = None ∧
  pbufs s' !! 128 = Some (demo_pbuf 0 128 0 4 4 1).
Proof.
  destruct (pbuf_free_counts demo_ops demo_free (λ _, True) 3 64 [(64, demo_pbuf 128 64 4 6 2 1)] [(128, demo_pbuf 0 128 0 4 4 2)]
    (demo_store 1 2)) as (s' & E & Hgone & Hkept & _).
  - by repeat split.
  - done.
  - split; [by constructor|done].
  - repeat constructor; try done; right; by apply (bool_decide_unpack _).
  - simpl. lia.
  - exists s'. split; [exact E|]. split; [apply Hgone; by left|]. by destruct (Hkept _ _ _ eq_refl) as [-> _].
Defined.

(** Three bytes at offset 1: the second byte of the first structure and two of the second. *)
Lemma take_at_then_copy_witness : ∃ s', pbuf_take_at 3 64 [7; 8; 9] 3 1 (demo_store 1 1) = Done (ERR_OK, s') ∧
  pbuf_copy_partial 3 64 (Some [0; 0; 0]) 3 1 s' = Done ((3, Some [7; 8; 9]), s').
Proof.
  destruct (take_at_then_copy 3 64 demo_bytes [7; 8; 9] 3 1 (demo_store 1 1)) as [_ H].
  - apply demo_packet.
  - apply demo_separate.
  - simpl. lia.
  - by vm_compute.
  - by vm_compute.
  - done.
  - destruct H as (s' & ns' & E & _ & _ & _ & _ & Hc); [by vm_compute|]. exists s'. split; [exact E|]. by apply Hc.
Defined.

(** Two bytes divided between the structures, found at position 1. *)
Lemma strstr_finds_first_witness : pbuf_strstr 3 64 (Some [2; 3]) (demo_store 1 1) = Done (1, demo_store 1 1) ∧
  first_occurrence (bytes_of demo_bytes) [2; 3] 0 1.
Proof.
  destruct (strstr_finds_first 3 64 demo_bytes [2; 3] (demo_store 1 1)) as [_ H].
  - apply demo_packet.
  - done.
  - simpl. lia.
  - repeat constructor; done.
  - destruct H as (r & E & Hr); [done|done|]. assert (pbuf_strstr 3 64 (Some [2; 3]) (demo_store 1 1) = Done (1, demo_store 1 1)) as E1
      by by vm_compute.
    rewrite E1 in E. injection E as <-. by split.
Defined.

(** Removing the only byte but one, and adding the four bytes of room. *)
Lemma headers_stay_inside_witness : ∃ s' s'' e,
  pbuf_remove_header 64 1 (demo_store 1 1) = Done (0, s') ∧ packet s' 64 [(64, [2]); (128, [3; 4; 5; 6])] ∧
  pbuf_add_header 64 1 s' = Done (0, demo_store 1 1) ∧
  pbuf_add_header 64 4 (demo_store 1 1) = Done (0, s'') ∧ packet s'' 64 ((64, e ++ [1; 2]) :: [(128, [3; 4; 5; 6])]) ∧
  pbuf_add_header 64 5 (demo_store 1 1) = Done (1, demo_store 1 1).
Proof.
  destruct (headers_stay_inside 64 [1; 2] [(128, [3; 4; 5; 6])] (demo_pbuf 128 64 4 6 2 1) 1 (demo_store 1 1)
    (demo_packet 1 1) eq_refl ltac:(lia) ltac:(done)) as (_ & (s' & E1 & Hp & E2) & _); [done|].
  destruct (headers_stay_inside 64 [1; 2] [(128, [3; 4; 5; 6])] (demo_pbuf 128 64 4 6 2 1) 4 (demo_store 1 1)
    (demo_packet 1 1) eq_refl ltac:(lia) ltac:(done)) as (_ & _ & _ & (s'' & e & E3 & _ & Hp2)); [done|done|].
  destruct (headers_stay_inside 64 [1; 2] [(128, [3; 4; 5; 6])] (demo_pbuf 128 64 4 6 2 1) 5 (demo_store 1 1)
    (demo_packet 1 1) eq_refl ltac:(lia) ltac:(done)) as (_ & _ & E4 & _).
  exists s', s'', e. repeat (split; [done|]). apply E4. by left.
Defined.

(** A structure of three bytes in front of the packet, and away again. *)
Lemma chain_then_dechain_witness :
  let h := demo_pbuf 0 192 0 3 3 1 in
  let s := Store (<[192 := h]> (pbufs (demo_store 1 1))) (<[192 := [7; 8; 9]]> (blocks (demo_store 1 1))) (false, false, false) in
  ∃ s', pbuf_chain 2 192 64 s = Done (tt, s') ∧ packet s' 192 ((192, [7; 8; 9]) :: demo_bytes) ∧
    pbuf_dechain demo_ops demo_free 2 192 s' = Done (64, s).
Proof.
  intros h s. apply (chain_then_dechain demo_ops demo_free 2 192 64 [7; 8; 9] demo_bytes (demo_pbuf 128 64 4 6 2 1) s).
  - split; [done|]. split; [done|]. eexists. split; [done|]. split; [split; [done|]; by eexists|]. done.
  - split; [done|]. split; [done|]. eexists. split; [done|]. split; [split; [done|]; by eexists|]. split; [done|].
    split; [done|]. split; [done|]. eexists. split; [done|]. split; [split; [done|]; by eexists|]. done.
  - by apply (bool_decide_unpack _).
  - done.
  - done.
  - done.
  - done.
  - lia.
Defined.

(** Twenty bytes behind a header of three fill the pool, which has no room for more. *)
Lemma pool_alloc_all_or_nothing_witness :
  let s := Store ∅ ∅ (true, true, true) in
  (∃ s' l, pbuf_alloc demo_ops demo_options demo_free 30 3 20 PBUF_POOL s = Done (64, s') ∧
     allocated elements s s' 64 l 20 4) ∧
  ∃ s', pbuf_alloc demo_ops demo_options demo_free 30 3 21 PBUF_POOL s = Done (0, s') ∧ unchanged elements s s'.
Proof.
  assert (apart elements (Store ∅ ∅ (true, true, true))) as Hap by done. split.
  - destruct (pool_alloc_all_or_nothing demo_ops demo_options demo_free elements 30 3 20 (Store ∅ ∅ (true, true, true)) Hap)
      as (p & s' & E & H & _); [done|done|done|simpl; lia|].
    assert (match pbuf_alloc demo_ops demo_options demo_free 30 3 20 PBUF_POOL (Store ∅ ∅ (true, true, true)) with
            | Done (p, _) => p =? 64 | _ => false end = true) as Ep by by vm_compute.
    rewrite E in Ep. apply Z.eqb_eq in Ep as ->. destruct H as (l & Hl); [done|]. exists s', l. by split.
  - destruct (pool_alloc_all_or_nothing demo_ops demo_options demo_free elements 30 3 21 (Store ∅ ∅ (true, true, true)) Hap)
      as (p & s' & E & _ & H); [done|done|done|simpl; lia|].
    assert (match pbuf_alloc demo_ops demo_options demo_free 30 3 21 PBUF_POOL (Store ∅ ∅ (true, true, true)) with
            | Done (p, _) => p =? 0 | _ => false end = true) as Ep by by vm_compute.
    rewrite E in Ep. apply Z.eqb_eq in Ep as ->. destruct H as [H _]; [done|]. by exists s'.
Defined.
