(* ===== verification/InetChksum.v ===== *)
(** * The Internet checksum

    [stacks/tcpip/lwip/src/core/inet_chksum.c]: the checksum of IP, ICMP, UDP and TCP,
    over one piece of memory or a chain of packet buffers ([Pbuf]), with or without a
    pseudo header. [lwipopts.h], which chooses one of three ways to sum a piece, is not
    part of the repository: the three are verified, and the functions that use the
    choice are verified for any routine with the contract [Summing]. The processor is
    little-endian. *)

From stdpp Require Import gmap.
From S2P Require Import Prelude Pbuf.
Local Open Scope Z_scope.

(** ** Operations *)

Definition FOLD_U32T (u : Z) : Z := u32 (Z.shiftr u 16 + Z.land u 0xffff).
Definition SWAP_BYTES_IN_WORD (w : Z) : Z := Z.lor (Z.shiftl (Z.land w 0xff) 8) (Z.shiftr (Z.land w 0xff00) 8).
Definition lwip_htons (x : Z) : Z := u16 (Z.lor (Z.shiftl (Z.land x 0xff) 8) (Z.shiftr (Z.land x 0xff00) 8)).

(** Loads of two and four bytes, and the two bytes of a 16-bit variable. *)
Definition half (b0 b1 : Z) : Z := b0 + b1 * 2 ^ 8.
Definition word (b0 b1 b2 b3 : Z) : Z := b0 + b1 * 2 ^ 8 + b2 * 2 ^ 16 + b3 * 2 ^ 24.
Definition set_byte0 (x t : Z) : Z := t / 2 ^ 8 * 2 ^ 8 + x.
Definition set_byte1 (x t : Z) : Z := t mod 2 ^ 8 + x * 2 ^ 8.

(** [LWIP_CHKSUM_ALGORITHM == 1] *)
Fixpoint add_octets (octetptr : bytes) (len acc : Z) : outcome (bytes * Z * Z) :=
  match octetptr with
  | b0 :: b1 :: octetptr' =>
      if 1 <? len then
        let src := u16 (Z.shiftl b0 8) in
        let src := Z.lor src b1 in
        add_octets octetptr' (len - 2) (u32 (acc + src))
      else Done (octetptr, len, acc)
  | _ => if 1 <? len then Fault else Done (octetptr, len, acc)
  end.
Definition lwip_standard_chksum_1 (dataptr : Z) (data : bytes) (len : Z) : outcome Z :=
  '(octetptr, len, acc) ← add_octets data len 0;
  acc ← (if 0 <? len then b ← load octetptr 0; mret (u32 (acc + u16 (Z.shiftl b 8))) else mret acc);
  let acc := u32 (Z.shiftr acc 16 + Z.land acc 0xffff) in
  let acc := if negb (Z.land acc 0xffff0000 =? 0) then u32 (Z.shiftr acc 16 + Z.land acc 0xffff) else acc in
  mret (lwip_htons (u16 acc)).

(** [LWIP_CHKSUM_ALGORITHM == 2] *)
Fixpoint add_halves (ps : bytes) (len sum : Z) : outcome (bytes * Z * Z) :=
  match ps with
  | b0 :: b1 :: ps' => if 1 <? len then add_halves ps' (len - 2) (u32 (sum + half b0 b1)) else Done (ps, len, sum)
  | _ => if 1 <? len then Fault else Done (ps, len, sum)
  end.
Definition lwip_standard_chksum_2 (dataptr : Z) (data : bytes) (len : Z) : outcome Z :=
  let odd := negb (Z.land dataptr 1 =? 0) in
  '(pb, len, t) ← (
    if odd && (0 <? len) then b ← load data 0; mret (ptr_add data 1, len - 1, set_byte1 b 0)
    else mret (data, len, 0));
  '(ps, len, sum) ← add_halves pb len 0;
  t ← (if 0 <? len then b ← load ps 0; mret (set_byte0 b t) else mret t);
  let sum := u32 (sum + t) in
  let sum := FOLD_U32T sum in
  let sum := FOLD_U32T sum in
  let sum := if odd then SWAP_BYTES_IN_WORD sum else sum in
  mret (u16 sum).

(** [LWIP_CHKSUM_ALGORITHM == 3] *)
Definition add_carry (sum w : Z) : Z := let tmp := u32 (sum + w) in if tmp <? sum then u32 (tmp + 1) else tmp.
Fixpoint add_words (pl : bytes) (len sum : Z) : outcome (bytes * Z * Z) :=
  match pl with
  | b0 :: b1 :: b2 :: b3 :: b4 :: b5 :: b6 :: b7 :: pl' =>
      if 7 <? len then
        let tmp := add_carry sum (word b0 b1 b2 b3) in
        let sum := add_carry tmp (word b4 b5 b6 b7) in
        add_words pl' (len - 8) sum
      else Done (pl, len, sum)
  | _ => if 7 <? len then Fault else Done (pl, len, sum)
  end.
Definition lwip_standard_chksum_3 (dataptr : Z) (data : bytes) (len : Z) : outcome Z :=
  let odd := negb (Z.land dataptr 1 =? 0) in
  '(pb, addr, len, t) ← (
    if odd && (0 <? len) then b ← load data 0; mret (ptr_add data 1, dataptr + 1, len - 1, set_byte1 b 0)
    else mret (data, dataptr, len, 0));
  '(ps, len, sum) ← (
    if negb (Z.land addr 3 =? 0) && (1 <? len) then
      b0 ← load pb 0; b1 ← load pb 1; mret (ptr_add pb 2, len - 2, u32 (half b0 b1))
    else mret (pb, len, 0));
  '(pl, len, sum) ← add_words ps len sum;
  let sum := FOLD_U32T sum in
  '(ps, len, sum) ← add_halves pl len sum;
  t ← (if 0 <? len then b ← load ps 0; mret (set_byte0 b t) else mret t);
  let sum := u32 (sum + t) in
  let sum := FOLD_U32T sum in
  let sum := FOLD_U32T sum in
  let sum := if odd then SWAP_BYTES_IN_WORD sum else sum in
  mret (u16 sum).

(** The union of the two kinds of address, in network byte order, and its tag. *)
Definition IPADDR_TYPE_V4 : Z := 0.
Definition IPADDR_TYPE_V6 : Z := 6.
Record ip_addr_t := Ip_addr { addr0 : Z; addr1 : Z; addr2 : Z; addr3 : Z; ip_type : Z }.

Section packets.
Context {M : Type} (LWIP_CHKSUM : Z → bytes → Z → outcome Z) (address : pointer → Z).
Local Abbreviation S := (store M).

Definition inet_chksum (dataptr : Z) (data : bytes) (len : Z) : outcome Z :=
  c ← LWIP_CHKSUM dataptr data len; mret (u16 (Z.lnot c)).

(** The loop over the chain; [chksum_len] is how much of it is still to be summed. *)
Fixpoint sum_chain (fuel : nat) (q acc : Z) (swapped : bool) : ST S (Z * bool) :=
  match fuel with
  | O => diverge
  | Datatypes.S fuel =>
      if negb (q =? 0) then
        b ← get q;
        d ← read (payload b) (plen b);
        c ← lift (LWIP_CHKSUM (address (payload b)) d (plen b));
        let acc := u32 (acc + c) in
        let acc := FOLD_U32T acc in
        if negb (plen b mod 2 =? 0) then sum_chain fuel (next b) (SWAP_BYTES_IN_WORD acc) (negb swapped)
        else sum_chain fuel (next b) acc swapped
      else mret (acc, swapped)
  end.
Fixpoint sum_chain_partial (fuel : nat) (q chksum_len acc : Z) (swapped : bool) : ST S (Z * bool) :=
  match fuel with
  | O => diverge
  | Datatypes.S fuel =>
      if negb (q =? 0) && (0 <? chksum_len) then
        b ← get q;
        let chklen := if chksum_len <? plen b then chksum_len else plen b in
        d ← read (payload b) chklen;
        c ← lift (LWIP_CHKSUM (address (payload b)) d chklen);
        let acc := u32 (acc + c) in
        let chksum_len := u16 (chksum_len - chklen) in
        LWIP_ASSERT (chksum_len <? 0x7fff);;
        let acc := FOLD_U32T acc in
        if negb (plen b mod 2 =? 0) then sum_chain_partial fuel (next b) chksum_len (SWAP_BYTES_IN_WORD acc) (negb swapped)
        else sum_chain_partial fuel (next b) chksum_len acc swapped
      else mret (acc, swapped)
  end.

Definition inet_chksum_pbuf (fuel : nat) (p : Z) : ST S Z :=
  '(acc, swapped) ← sum_chain fuel p 0 false;
  let acc := if swapped : bool then SWAP_BYTES_IN_WORD acc else acc in
  mret (u16 (Z.lnot (Z.land acc 0xffff))).

(** The end of both pseudo sums. *)
Definition finish_pseudo (acc : Z) (swapped : bool) (proto proto_len : Z) : Z :=
  let acc := if swapped then SWAP_BYTES_IN_WORD acc else acc in
  let acc := u32 (acc + lwip_htons (u16 proto)) in
  let acc := u32 (acc + lwip_htons proto_len) in
  let acc := FOLD_U32T acc in
  let acc := FOLD_U32T acc in
  u16 (Z.lnot (Z.land acc 0xffff)).
Definition inet_cksum_pseudo_base (fuel : nat) (p proto proto_len acc : Z) : ST S Z :=
  '(acc, swapped) ← sum_chain fuel p acc false;
  mret (finish_pseudo acc swapped proto proto_len).
Definition inet_cksum_pseudo_partial_base (fuel : nat) (p proto proto_len chksum_len acc : Z) : ST S Z :=
  '(acc, swapped) ← sum_chain_partial fuel p chksum_len acc false;
  mret (finish_pseudo acc swapped proto proto_len).

(** [acc] with both halves of a word of an address. *)
Definition add_address (acc addr : Z) : Z :=
  let acc := u32 (acc + Z.land addr 0xffff) in u32 (acc + Z.land (Z.shiftr addr 16) 0xffff).
Definition address_sum4 (src dest : ip_addr_t) : Z :=
  FOLD_U32T (FOLD_U32T (add_address (add_address 0 (addr0 src)) (addr0 dest))).
Definition address_sum6 (src dest : ip_addr_t) : Z :=
  FOLD_U32T (FOLD_U32T (foldl (λ acc part, add_address (add_address acc (part src)) (part dest)) 0 [addr0; addr1; addr2; addr3])).

Definition inet_chksum_pseudo (fuel : nat) (p proto proto_len : Z) (src dest : ip_addr_t) : ST S Z :=
  inet_cksum_pseudo_base fuel p proto proto_len (address_sum4 src dest).
Definition ip6_chksum_pseudo (fuel : nat) (p proto proto_len : Z) (src dest : ip_addr_t) : ST S Z :=
  inet_cksum_pseudo_base fuel p proto proto_len (address_sum6 src dest).
Definition ip_chksum_pseudo (fuel : nat) (p proto proto_len : Z) (src dest : ip_addr_t) : ST S Z :=
  if ip_type dest =? IPADDR_TYPE_V6 then ip6_chksum_pseudo fuel p proto proto_len src dest
  else inet_chksum_pseudo fuel p proto proto_len src dest.
Definition inet_chksum_pseudo_partial (fuel : nat) (p proto proto_len chksum_len : Z) (src dest : ip_addr_t) : ST S Z :=
  inet_cksum_pseudo_partial_base fuel p proto proto_len chksum_len (address_sum4 src dest).
Definition ip6_chksum_pseudo_partial (fuel : nat) (p proto proto_len chksum_len : Z) (src dest : ip_addr_t) : ST S Z :=
  inet_cksum_pseudo_partial_base fuel p proto proto_len chksum_len (address_sum6 src dest).
Definition ip_chksum_pseudo_partial (fuel : nat) (p proto proto_len chksum_len : Z) (src dest : ip_addr_t) : ST S Z :=
  if ip_type dest =? IPADDR_TYPE_V6 then ip6_chksum_pseudo_partial fuel p proto proto_len chksum_len src dest
  else inet_chksum_pseudo_partial fuel p proto proto_len chksum_len src dest.

(** [LWIP_CHKSUM_COPY_ALGORITHM == 1] *)
Definition lwip_chksum_copy (dst : Z) (to from : bytes) (len : Z) : outcome (bytes * Z) :=
  d ← slice from 0 len; to ← memcpy to 0 d; c ← LWIP_CHKSUM dst to len; mret (to, c).
End packets.

(** ** The sum of RFC 1071

    The 16-bit words of the data in network byte order, a last byte filled up with
    zero, added with end-around carry. *)

Fixpoint words (d : bytes) : list Z :=
  match d with
  | [] => []
  | [a] => [of_be16 a 0]
  | a :: b :: d => of_be16 a b :: words d
  end.
Definition oc_add (x y : Z) : Z := let s := x + y in s mod 2 ^ 16 + s / 2 ^ 16.
Definition internet_sum (d : bytes) : Z := foldl oc_add 0 (words d).
(** A value of 16 bits as it lies in memory in network order, read by the processor. *)
Definition in_memory (x : Z) : Z := x mod 2 ^ 8 * 2 ^ 8 + x / 2 ^ 8.

(** *** Sums modulo [2 ^ 16 - 1]

    Adding the carries back keeps a number modulo 65535, and zero apart from the
    other multiples: [norm]. *)

Definition norm (x : Z) : Z := if x =? 0 then 0 else (x - 1) mod 65535 + 1.

Lemma norm_spec x : 0 <= x → 0 <= norm x <= 65535 ∧ (norm x = 0 ↔ x = 0) ∧ ∃ k, 0 <= k ∧ x = norm x + 65535 * k.
Proof.
  intros Hx. unfold norm. destruct (Z.eqb_spec x 0) as [->|Hne]; [split_and!; [lia..|exists 0; lia]|].
  pose proof (Z.div_mod (x - 1) 65535 ltac:(lia)). pose proof (Z.mod_pos_bound (x - 1) 65535 ltac:(lia)).
  pose proof (Z.div_pos (x - 1) 65535 ltac:(lia) ltac:(lia)).
  split_and!; [lia..|exists ((x - 1) / 65535); lia].
Qed.

Lemma norm_small x : 0 <= x <= 65535 → norm x = x.
Proof. intros Hx. destruct (norm_spec x) as (?&?&k&?&?); lia. Qed.

Lemma norm_eq k x y : 0 <= x → 0 <= y → x = y + 65535 * k → (x = 0 ↔ y = 0) → norm x = norm y.
Proof.
  intros Hx Hy Hk H0. destruct (norm_spec x Hx) as (?&?&i&?&?). destruct (norm_spec y Hy) as (?&?&j&?&?).
  assert (norm x = norm y + 65535 * (k + j - i)) as E by lia. assert (k + j - i = 0 ∨ k + j - i = 1 ∨ k + j - i = -1) as [] by lia; lia.
Qed.

Lemma norm_add a b : 0 <= a → 0 <= b → norm (norm a + b) = norm (a + b).
Proof. intros Ha Hb. destruct (norm_spec a Ha) as (?&?&k&?&?). apply (norm_eq (- k)); lia. Qed.
Lemma norm_mul a b : 0 <= a → 0 < b → norm (b * norm a) = norm (b * a).
Proof. intros Ha Hb. destruct (norm_spec a Ha) as (?&?&k&?&?). apply (norm_eq (- (b * k))); nia. Qed.

Lemma land_ffff u : Z.land u 0xffff = u mod 2 ^ 16.
Proof. change 0xffff with (Z.ones 16). by rewrite Z.land_ones. Qed.
Lemma fold_value u : is_u32 u → FOLD_U32T u = u / 2 ^ 16 + u mod 2 ^ 16.
Proof.
  unfold is_u32. intros Hu. unfold FOLD_U32T. rewrite land_ffff, Z.shiftr_div_pow2 by lia. apply u32_small.
  pose proof (Z.mod_pos_bound u (2 ^ 16)). pose proof (Z.div_lt_upper_bound u (2 ^ 16) (2 ^ 16)). pose proof (Z.div_pos u (2 ^ 16)).
  unfold is_u32. lia.
Qed.
Lemma fold_norm u : is_u32 u → norm (FOLD_U32T u) = norm u ∧ 0 <= FOLD_U32T u <= 0x1fffe.
Proof.
  intros Hu. rewrite fold_value by done. unfold is_u32 in Hu.
  pose proof (Z.div_mod u (2 ^ 16)). pose proof (Z.mod_pos_bound u (2 ^ 16)). pose proof (Z.div_lt_upper_bound u (2 ^ 16) (2 ^ 16)).
  pose proof (Z.div_pos u (2 ^ 16)). split; [|lia]. apply (norm_eq (- (u / 2 ^ 16))); lia.
Qed.
Lemma fold_once u : 0 <= u <= 0x1fffe → FOLD_U32T u = norm u.
Proof.
  intros Hu. destruct (fold_norm u) as [<- ?]; [unfold is_u32; lia|]. symmetry. apply norm_small. split; [lia|].
  rewrite fold_value by (unfold is_u32; lia). pose proof (Z.div_mod u (2 ^ 16)). pose proof (Z.mod_pos_bound u (2 ^ 16)).
  assert (u / 2 ^ 16 = 0 ∨ u / 2 ^ 16 = 1) as [] by lia; lia.
Qed.
Lemma fold_twice u : is_u32 u → FOLD_U32T (FOLD_U32T u) = norm u.
Proof. intros Hu. destruct (fold_norm u Hu) as [<- ?]. by apply fold_once. Qed.

Lemma in_memory_norm x : 0 <= x <= 65535 → in_memory x = norm (2 ^ 8 * x).
Proof.
  intros Hx. unfold in_memory. pose proof (Z.div_mod x (2 ^ 8)). pose proof (Z.mod_pos_bound x (2 ^ 8)).
  pose proof (Z.div_lt_upper_bound x (2 ^ 8) (2 ^ 8)). pose proof (Z.div_pos x (2 ^ 8)).
  rewrite <- (norm_small (x mod 2 ^ 8 * 2 ^ 8 + x / 2 ^ 8)) by lia. apply (norm_eq (- (x / 2 ^ 8))); lia.
Qed.
Lemma in_memory_range x : 0 <= x <= 65535 → 0 <= in_memory x <= 65535.
Proof. intros Hx. rewrite in_memory_norm by done. apply norm_spec. lia. Qed.
Lemma swap_in_memory x : 0 <= x <= 65535 → SWAP_BYTES_IN_WORD x = in_memory x.
Proof.
  intros Hx. unfold SWAP_BYTES_IN_WORD, in_memory. change 0xff with (Z.ones 8). rewrite Z.land_ones by lia.
  change 0xff00 with (Z.shiftl (Z.ones 8) 8). rewrite Z.shiftr_land, Z.shiftr_shiftl_l, Z.sub_diag, Z.shiftl_0_r, Z.land_ones by lia.
  rewrite Z.shiftr_div_pow2 by lia. rewrite (Z.mod_small (x / 2 ^ 8)) by (split; [apply Z.div_pos; lia|apply Z.div_lt_upper_bound; lia]).
  rewrite lor_shiftl_low; [done|lia|]. split; [apply Z.div_pos; lia|apply Z.div_lt_upper_bound; lia].
Qed.
Lemma htons_in_memory x : 0 <= x <= 65535 → lwip_htons x = in_memory x.
Proof.
  intros Hx. unfold lwip_htons. change (u16 (SWAP_BYTES_IN_WORD x) = in_memory x). rewrite swap_in_memory by done.
  apply u16_small. pose proof (in_memory_range x Hx). unfold is_u16. lia.
Qed.

(** *** Weights

    The sum of the bytes at their place in little-endian words, from the low or the
    high byte of a word on. *)
Fixpoint weigh (high : bool) (d : bytes) : Z :=
  match d with [] => 0 | b :: d => (if high then 2 ^ 8 * b else b) + weigh (negb high) d end.
Definition odd_len (d : bytes) : bool := Z.odd (len d).

Lemma odd_len_cons b d : odd_len (b :: d) = negb (odd_len d).
Proof. unfold odd_len. by rewrite len_cons, Z.add_1_l, Z.odd_succ, <- Z.negb_odd. Qed.

Lemma weigh_app o d1 d2 : weigh o (d1 ++ d2) = weigh o d1 + weigh (xorb o (odd_len d1)) d2.
Proof.
  revert o. induction d1 as [|b d1 IH]; intros o; [by destruct o|]. rewrite <- app_comm_cons, odd_len_cons. cbn [weigh]. rewrite IH.
  destruct o, (odd_len d1); simpl xorb; lia.
Qed.
Lemma weigh_flip o d : ∃ k, 2 ^ 8 * weigh o d = weigh (negb o) d + 65535 * k.
Proof.
  revert o. induction d as [|b d IH]; intros o; [by exists 0|]. cbn [weigh]. destruct (IH (negb o)) as [k Hk].
  destruct o; simpl negb in *; [exists (k + b)|exists k]; lia.
Qed.
Lemma weigh_nonneg o d : bytes_ok d → 0 <= weigh o d.
Proof.
  intros H. revert o. induction H as [|b d Hb Hd IH]; intros o; [done|]. cbn [weigh]. specialize (IH (negb o)).
  unfold is_u8 in Hb. destruct o; lia.
Qed.
Lemma weigh_zero o o' d : bytes_ok d → weigh o d = 0 → weigh o' d = 0.
Proof.
  intros H. revert o o'. induction H as [|b d Hb Hd IH]; intros o o'; [done|]. cbn [weigh]. intros E.
  pose proof (weigh_nonneg (negb o) d Hd). unfold is_u8 in Hb. rewrite (IH (negb o)); destruct o, o'; lia.
Qed.
Lemma norm_flip o d : bytes_ok d → norm (2 ^ 8 * weigh o d) = norm (weigh (negb o) d).
Proof.
  intros H. destruct (weigh_flip o d) as [k Hk]. pose proof (weigh_nonneg o d H). pose proof (weigh_nonneg (negb o) d H).
  apply (norm_eq k); [lia|done|done|]. split; intros E; [apply (weigh_zero o (negb o)); [done|lia]|].
  pose proof (weigh_zero (negb o) o d H E). lia.
Qed.
Lemma weigh_bound o d : bytes_ok d → 2 * weigh o d <= 65535 * len d + (if odd_len d then if o then 65025 else -65025 else 0).
Proof.
  intros H. revert o. induction H as [|b d Hb Hd IH]; intros o; [by destruct o|]. rewrite odd_len_cons, len_cons. cbn [weigh].
  specialize (IH (negb o)). unfold is_u8 in Hb. revert IH. destruct o, (odd_len d); cbn [negb]; lia.
Qed.

Lemma pairs_ind {A} (P : list A → Prop) : P [] → (∀ a, P [a]) → (∀ a b l, P l → P (a :: b :: l)) → ∀ l, P l.
Proof.
  intros H0 H1 H2. assert (∀ l, P l ∧ ∀ a, P (a :: l)) as H; [|intros l; apply H].
  induction l as [|b l [IH1 IH2]]; split; auto.
Qed.

Lemma internet_sum_norm d : bytes_ok d → internet_sum d = norm (weigh true d).
Proof.
  unfold internet_sum. assert (∀ a, 0 <= a <= 65535 → bytes_ok d → foldl oc_add a (words d) = norm (a + weigh true d)) as H.
  2: { intros Hd. by rewrite H. }
  assert (∀ x y, 0 <= x <= 65535 → 0 <= y <= 65535 → oc_add x y = norm (x + y)) as Hadd.
  { intros x y Hx Hy. rewrite <- fold_once, fold_value by (unfold is_u32; lia). unfold oc_add. lia. }
  induction d as [|a|a b d IH] using pairs_ind; intros x Hx Hd.
  - simpl. by rewrite Z.add_0_r, norm_small.
  - inversion_clear Hd as [|? ? Ha _]. unfold is_u8 in Ha. cbn [words foldl weigh]. unfold of_be16. rewrite Hadd by lia. f_equal. lia.
  - inversion_clear Hd as [|? ? Ha Hd']. inversion_clear Hd' as [|? ? Hb Hd]. unfold is_u8 in *. cbn [words foldl weigh negb].
    pose proof (weigh_nonneg true d Hd). unfold of_be16. rewrite Hadd by lia.
    rewrite IH by (try done; apply norm_spec; lia). rewrite norm_add by lia. f_equal. lia.
Qed.

(** What every routine has to return. *)
Lemma internet_sum_memory d : bytes_ok d → in_memory (internet_sum d) = norm (weigh false d).
Proof.
  intros Hd. pose proof (weigh_nonneg true d Hd). rewrite internet_sum_norm, in_memory_norm by (try done; apply norm_spec; done).
  rewrite norm_mul by lia. by apply norm_flip.
Qed.

(** ** The three routines *)

Lemma norm_cong a a' b : 0 <= a → 0 <= a' → 0 <= b → norm a = norm a' → norm (a + b) = norm (a' + b).
Proof. intros Ha Ha' Hb E. by rewrite <- norm_add, E, norm_add. Qed.

Lemma u16_norm x : 0 <= x → u16 (norm x) = norm x.
Proof. intros Hx. apply u16_small. destruct (norm_spec x Hx). unfold is_u16. lia. Qed.

Lemma octets_spec d r acc : bytes_ok d → 0 <= acc → acc + weigh true d < 2 ^ 32 → ∃ e acc',
  add_octets (d ++ r) (len d) acc = Done (e ++ r, len e, acc') ∧ (length e <= 1)%nat ∧ bytes_ok e ∧ 0 <= acc' ∧
  acc' + weigh true e = acc + weigh true d.
Proof.
  revert acc. induction d as [|a|a b d IH] using pairs_ind; intros acc Hd H0 Hacc.
  - exists [], acc. split_and!; try done; [|simpl; lia]. destruct r as [|? [|??]]; done.
  - exists [a], acc. split_and!; try done. by destruct r.
  - pose proof Hd as Hab. apply Forall_cons in Hd as [Ha Hd]. apply Forall_cons in Hd as [Hb Hd].
    cbn [weigh negb] in Hacc. pose proof (weigh_nonneg true d Hd). unfold is_u8 in Ha, Hb. cbn [app add_octets].
    rewrite !len_cons. pose proof (len_nonneg d). rewrite (proj2 (Z.ltb_lt _ _)) by lia.
    assert (Z.lor (u16 (Z.shiftl a 8)) b = of_be16 a b) as ->.
    { rewrite u16_small by (unfold is_u16; rewrite Z.shiftl_mul_pow2 by lia; lia). rewrite lor_shiftl_low by lia. done. }
    unfold of_be16. rewrite u32_small by (unfold is_u32; lia). replace (1 + (1 + len d) - 2) with (len d) by lia.
    destruct (IH (acc + (a * 256 + b))) as (e&acc'&E&?&?&?&?); [done|lia..|]. exists e, acc'. split_and!; try done. cbn [weigh negb]. lia.
Qed.

Lemma halves_spec d r sum : bytes_ok d → 0 <= sum → sum + weigh false d < 2 ^ 32 → ∃ e sum',
  add_halves (d ++ r) (len d) sum = Done (e ++ r, len e, sum') ∧ (length e <= 1)%nat ∧ bytes_ok e ∧ 0 <= sum' ∧
  sum' + weigh false e = sum + weigh false d.
Proof.
  revert sum. induction d as [|a|a b d IH] using pairs_ind; intros sum Hd H0 Hsum.
  - exists [], sum. split_and!; try done; [|simpl; lia]. destruct r as [|? [|??]]; done.
  - exists [a], sum. split_and!; try done. by destruct r.
  - apply Forall_cons in Hd as [Ha Hd]. apply Forall_cons in Hd as [Hb Hd].
    cbn [weigh negb] in Hsum. pose proof (weigh_nonneg false d Hd). unfold is_u8 in Ha, Hb. cbn [app add_halves].
    rewrite !len_cons. pose proof (len_nonneg d). rewrite (proj2 (Z.ltb_lt _ _)) by lia.
    unfold half. rewrite u32_small by (unfold is_u32; lia). replace (1 + (1 + len d) - 2) with (len d) by lia.
    destruct (IH (sum + (a + b * 2 ^ 8))) as (e&sum'&E&?&?&?&?); [done|lia..|]. exists e, sum'. split_and!; try done. cbn [weigh negb]. lia.
Qed.

(** How the second and the third routine end. *)
Lemma halves_end (odd : bool) d r h sum : bytes_ok d → is_u8 h → 0 <= sum → sum + h * 2 ^ 8 + weigh false d < 2 ^ 32 →
  ('(ps, len, sum) ← add_halves (d ++ r) (len d) sum;
   t ← (if 0 <? len then b ← load ps 0; mret (set_byte0 b (h * 2 ^ 8)) else mret (h * 2 ^ 8));
   let sum := u32 (sum + t) in
   let sum := FOLD_U32T sum in
   let sum := FOLD_U32T sum in
   let sum := if odd then SWAP_BYTES_IN_WORD sum else sum in
   mret (u16 sum)) =
  Done (if odd then in_memory (norm (sum + h * 2 ^ 8 + weigh false d)) else norm (sum + h * 2 ^ 8 + weigh false d)).
Proof.
  intros Hd Hh H0 Hsum. unfold is_u8 in Hh. destruct (halves_spec d r sum Hd H0 ltac:(lia)) as (e&sum'&->&He&Hb&H0'&Hw).
  cbn [mbind outcome_bind].
  assert ((if 0 <? len e then b ← load (e ++ r) 0; mret (set_byte0 b (h * 2 ^ 8)) else mret (h * 2 ^ 8)) =
    Done (h * 2 ^ 8 + weigh false e)) as ->.
  { destruct e as [|b [|]]; [by rewrite Z.add_0_r| |simpl in He; lia].
    change (Done (set_byte0 b (h * 2 ^ 8)) = Done (h * 2 ^ 8 + (b + 0))). unfold set_byte0. f_equal. rewrite Z.div_mul; lia. }
  cbn [mbind outcome_bind]. pose proof (weigh_nonneg false e Hb). cbv zeta.
  rewrite u32_small by (unfold is_u32; lia). rewrite fold_twice by (unfold is_u32; lia).
  replace (sum' + (h * 2 ^ 8 + weigh false e)) with (sum + h * 2 ^ 8 + weigh false d) by lia. set (x := sum + h * 2 ^ 8 + weigh false d) in *.
  assert (0 <= norm x <= 65535) as Hx by (apply norm_spec; lia).
  unfold mret, outcome_ret. f_equal. destruct odd; [|by apply u16_norm; lia].
  rewrite swap_in_memory by done. apply u16_small. pose proof (in_memory_range _ Hx). unfold is_u16. lia.
Qed.

(** Which of the two sums the odd or even start leads to. *)
Lemma sum_from (odd : bool) d : bytes_ok d →
  (if odd then in_memory (norm (weigh odd d)) else norm (weigh odd d)) = in_memory (internet_sum d).
Proof. intros Hd. destruct odd; [by rewrite internet_sum_norm|by rewrite internet_sum_memory]. Qed.

Lemma weigh_limit o d : bytes_ok d → len d <= 0x20002 → 0 <= weigh o d < 2 ^ 32.
Proof.
  intros Hd Hl. pose proof (weigh_nonneg o d Hd). pose proof (weigh_bound o d Hd) as Hw. split; [done|].
  unfold odd_len in Hw. revert Hw. destruct (Z.odd (len d)) eqn:E; [|lia]. intros Hw.
  assert (len d ≠ 0x20002) by (intros E'; by rewrite E' in E). destruct o; lia.
Qed.

Lemma chksum_1 a d r : bytes_ok d → len d <= 0x20002 → lwip_standard_chksum_1 a (d ++ r) (len d) = Done (in_memory (internet_sum d)).
Proof.
  intros Hd Hl. pose proof (weigh_limit true d Hd Hl) as Hw. unfold lwip_standard_chksum_1.
  destruct (octets_spec d r 0 Hd ltac:(lia) ltac:(lia)) as (e&acc&->&He&Hb&H0&Hacc). cbn [mbind outcome_bind]. rewrite Z.add_0_l in Hacc.
  assert ((if 0 <? len e then b ← load (e ++ r) 0; mret (u32 (acc + u16 (Z.shiftl b 8))) else mret acc) = Done (weigh true d)) as ->.
  { destruct e as [|b [|]]; [simpl in *; by rewrite <- Hacc, Z.add_0_r| |simpl in He; lia]. apply Forall_cons in Hb as [Hb _]. unfold is_u8 in Hb.
    change (weigh true [b]) with (2 ^ 8 * b + 0) in *. change (Done (u32 (acc + u16 (Z.shiftl b 8))) = Done (weigh true d)).
    rewrite Z.shiftl_mul_pow2 by lia. rewrite u16_small by (unfold is_u16; lia).
    rewrite u32_small by (unfold is_u32; lia). f_equal. lia. }
  cbn [mbind outcome_bind]. fold (FOLD_U32T (weigh true d)). set (w := weigh true d) in *. cbv zeta. fold (FOLD_U32T (FOLD_U32T w)).
  destruct (fold_norm w ltac:(unfold is_u32; lia)) as [Hn Hr].
  assert ((if negb (Z.land (FOLD_U32T w) 0xffff0000 =? 0) then FOLD_U32T (FOLD_U32T w) else FOLD_U32T w) = norm w) as ->.
  { destruct (Z.eqb_spec (Z.land (FOLD_U32T w) 0xffff0000) 0) as [E|E]; cbn [negb]; [|rewrite <- Hn; by apply fold_once].
    rewrite <- Hn. symmetry. apply norm_small. split; [lia|].
    change 0xffff0000 with (Z.shiftl (Z.ones 16) 16) in E.
    assert (Z.shiftr (Z.land (FOLD_U32T w) (Z.shiftl (Z.ones 16) 16)) 16 = 0) as E' by by rewrite E.
    rewrite Z.shiftr_land, Z.shiftr_shiftl_l, Z.sub_diag, Z.shiftl_0_r, Z.land_ones, Z.shiftr_div_pow2 in E' by lia.
    pose proof (Z.div_mod (FOLD_U32T w) (2 ^ 16)). pose proof (Z.mod_pos_bound (FOLD_U32T w) (2 ^ 16)).
    pose proof (Z.div_lt_upper_bound (FOLD_U32T w) (2 ^ 16) (2 ^ 16)). pose proof (Z.div_pos (FOLD_U32T w) (2 ^ 16)).
    rewrite Z.mod_small in E' by lia. lia. }
  rewrite u16_norm by lia. unfold mret, outcome_ret. rewrite htons_in_memory by (apply norm_spec; lia).
  by rewrite internet_sum_norm.
Qed.

Lemma chksum_2 a d r : bytes_ok d → len d <= 0x20002 → lwip_standard_chksum_2 a (d ++ r) (len d) = Done (in_memory (internet_sum d)).
Proof.
  intros Hd Hl. unfold lwip_standard_chksum_2. set (odd := negb (Z.land a 1 =? 0)). cbv zeta.
  rewrite <- (sum_from odd d) by done. pose proof (weigh_limit odd d Hd Hl) as Hw.
  destruct d as [|b d].
  - rewrite andb_false_r. cbn [mbind outcome_bind mret outcome_ret]. change (len (@nil Z)) with 0 in *.
    apply (halves_end odd [] r 0 0); [done|done|lia|simpl; lia].
  - pose proof Hd as Hbd. apply Forall_cons in Hd as [Hb Hd]. pose proof (len_nonneg d). rewrite len_cons, (proj2 (Z.ltb_lt _ _)), andb_true_r by lia.
    destruct odd.
    + cbn [app load mbind outcome_bind mret outcome_ret]. simpl lookup. cbn [mbind outcome_bind]. cbn [weigh negb] in Hw |- *.
      change (set_byte1 b 0) with (b * 2 ^ 8). change (ptr_add (b :: d ++ r) 1) with (d ++ r). replace (1 + len d - 1) with (len d) by lia.
      etrans; [apply (halves_end true d r b 0 Hd Hb); lia|]. do 3 f_equal. lia.
    + cbn [mbind outcome_bind mret outcome_ret]. rewrite <- (len_cons b).
      etrans; [apply (halves_end false (b :: d) r 0 0 Hbd); first [done|lia]|]. done.
Qed.

Lemma carry_spec s w : is_u32 s → is_u32 w → is_u32 (add_carry s w) ∧ norm (add_carry s w) = norm (s + w).
Proof.
  unfold is_u32. intros Hs Hw. unfold add_carry. cbv zeta.
  assert (u32 (s + w) = if s + w <? 2 ^ 32 then s + w else s + w - 2 ^ 32) as ->.
  { destruct (Z.ltb_spec (s + w) (2 ^ 32)); [apply u32_small; unfold is_u32; lia|].
    unfold u32. symmetry. apply Z.mod_unique with 1; lia. }
  destruct (Z.ltb_spec (s + w) (2 ^ 32)).
  - rewrite (proj2 (Z.ltb_ge _ _)) by lia. split; [lia|done].
  - rewrite (proj2 (Z.ltb_lt _ _)) by lia. rewrite u32_small by (unfold is_u32; lia). split; [lia|].
    apply (norm_eq (-65537)); lia.
Qed.

Lemma word_range b0 b1 b2 b3 : is_u8 b0 → is_u8 b1 → is_u8 b2 → is_u8 b3 → is_u32 (word b0 b1 b2 b3).
Proof. unfold is_u8, is_u32, word. lia. Qed.

Lemma words_spec n d r sum : (length d <= n)%nat → bytes_ok d → is_u32 sum → ∃ e sum',
  add_words (d ++ r) (len d) sum = Done (e ++ r, len e, sum') ∧ (length e <= 7)%nat ∧ bytes_ok e ∧ is_u32 sum' ∧
  norm (sum' + weigh false e) = norm (sum + weigh false d).
Proof.
  revert d sum. induction n as [n IH] using lt_wf_ind. intros d sum Hn Hd Hs.
  destruct (decide (length d <= 7)%nat) as [Hl|Hl].
  - exists d, sum. split_and!; try done. assert ((7 <? len d) = false) as E by (apply Z.ltb_ge; unfold len; lia).
    generalize dependent (len d). intros l E. generalize (d ++ r). intros x. do 8 (destruct x as [|? x]; [simpl; by rewrite E|]).
    cbn [add_words]. by rewrite E.
  - destruct d as [|b0 [|b1 [|b2 [|b3 [|b4 [|b5 [|b6 [|b7 d]]]]]]]]; try (simpl in Hl; lia).
    unfold bytes_ok in Hd. repeat match goal with H : Forall _ (_ :: _) |- _ => apply Forall_cons in H as [? H] end.
    unfold is_u8 in *. cbn [app add_words]. rewrite !len_cons. pose proof (len_nonneg d). rewrite (proj2 (Z.ltb_lt _ _)) by lia.
    destruct (carry_spec sum (word b0 b1 b2 b3) Hs ltac:(apply word_range; unfold is_u8; lia)) as [Hc1 Hn1].
    set (s1 := add_carry sum (word b0 b1 b2 b3)) in *.
    destruct (carry_spec s1 (word b4 b5 b6 b7) Hc1 ltac:(apply word_range; unfold is_u8; lia)) as [Hc2 Hn2].
    set (s2 := add_carry s1 (word b4 b5 b6 b7)) in *. cbv zeta.
    destruct (IH (length d) ltac:(simpl in Hn; lia) d s2 ltac:(lia) Hd Hc2) as (e&sum'&E&?&?&?&Hw).
    exists e, sum'. replace (1 + (1 + (1 + (1 + (1 + (1 + (1 + (1 + len d))))))) - 8) with (len d) by lia.
    split_and!; try done. rewrite Hw. cbn [weigh negb]. pose proof (weigh_nonneg false d Hd). unfold is_u32 in *.
    rewrite (norm_cong s2 (s1 + word b4 b5 b6 b7)) by (done || unfold word; lia).
    rewrite <- Z.add_assoc, (norm_cong s1 (sum + word b0 b1 b2 b3)) by (done || unfold word; lia).
    apply (norm_eq (b2 + 2 ^ 8 * b3 + b6 + 2 ^ 8 * b7)); unfold word; lia.
Qed.

(** The third routine from the byte on that does not start a word of its own. *)
Lemma words_end (odd : bool) d r h s0 : bytes_ok d → is_u8 h → 0 <= s0 <= 65535 →
  ('(pl, len, sum) ← add_words (d ++ r) (len d) s0;
   let sum := FOLD_U32T sum in
   '(ps, len, sum) ← add_halves pl len sum;
   t ← (if 0 <? len then b ← load ps 0; mret (set_byte0 b (h * 2 ^ 8)) else mret (h * 2 ^ 8));
   let sum := u32 (sum + t) in
   let sum := FOLD_U32T sum in
   let sum := FOLD_U32T sum in
   let sum := if odd then SWAP_BYTES_IN_WORD sum else sum in
   mret (u16 sum)) =
  Done (if odd then in_memory (norm (s0 + h * 2 ^ 8 + weigh false d)) else norm (s0 + h * 2 ^ 8 + weigh false d)).
Proof.
  intros Hd Hh Hs. unfold is_u8 in Hh. destruct (words_spec (length d) d r s0 ltac:(done) Hd ltac:(unfold is_u32; lia)) as (e&sum&->&He&Hb&Hsum&Hn).
  cbn [mbind outcome_bind]. cbv beta iota. destruct (fold_norm sum Hsum) as [Hf Hr]. pose proof (weigh_nonneg false e Hb).
  pose proof (weigh_bound false e Hb) as Hw. assert (weigh false e <= 65535 * 7) by (unfold len in Hw; destruct (odd_len e); lia).
  etrans; [apply (halves_end odd e r h (FOLD_U32T sum)); [done|done|lia|lia]|].
  assert (norm (FOLD_U32T sum + h * 2 ^ 8 + weigh false e) = norm (s0 + h * 2 ^ 8 + weigh false d)) as ->; [|done].
  unfold is_u32 in Hsum. pose proof (weigh_nonneg false d Hd).
  replace (FOLD_U32T sum + h * 2 ^ 8 + weigh false e) with (FOLD_U32T sum + (h * 2 ^ 8 + weigh false e)) by lia.
  rewrite (norm_cong (FOLD_U32T sum) sum) by (done || lia).
  replace (sum + (h * 2 ^ 8 + weigh false e)) with (sum + weigh false e + h * 2 ^ 8) by lia.
  rewrite (norm_cong (sum + weigh false e) (s0 + weigh false d)) by (done || lia). f_equal. lia.
Qed.

Lemma chksum_3 a d r : bytes_ok d → lwip_standard_chksum_3 a (d ++ r) (len d) = Done (in_memory (internet_sum d)).
Proof.
  intros Hd. unfold lwip_standard_chksum_3. set (odd := negb (Z.land a 1 =? 0)). rewrite <- (sum_from odd d) by done.
  assert (∀ x h e, bytes_ok e → is_u8 h → h * 2 ^ 8 + weigh false e = weigh odd d →
    ('(ps, l, sum) ← (
      if negb (Z.land x 3 =? 0) && (1 <? len e) then
        b0 ← load (e ++ r) 0; b1 ← load (e ++ r) 1; mret (ptr_add (e ++ r) 2, len e - 2, u32 (half b0 b1))
      else mret (e ++ r, len e, 0));
    '(pl, l, sum) ← add_words ps l sum;
    let sum := FOLD_U32T sum in
    '(ps, l, sum) ← add_halves pl l sum;
    t ← (if 0 <? l then b ← load ps 0; mret (set_byte0 b (h * 2 ^ 8)) else mret (h * 2 ^ 8));
    let sum := u32 (sum + t) in
    let sum := FOLD_U32T sum in
    let sum := FOLD_U32T sum in
    let sum := if odd then SWAP_BYTES_IN_WORD sum else sum in
    mret (u16 sum)) = Done (if odd then in_memory (norm (weigh odd d)) else norm (weigh odd d))) as Hrest.
  { intros x h e He Hh <-. destruct (negb (Z.land x 3 =? 0) && (1 <? len e)) eqn:E.
    - apply andb_true_iff in E as [_ E%Z.ltb_lt]. destruct e as [|b0 [|b1 e]]; [done|done|].
      apply Forall_cons in He as [H0 He]. apply Forall_cons in He as [H1 He]. unfold is_u8 in H0, H1.
      change (load ((b0 :: b1 :: e) ++ r) 0) with (Done b0). change (load ((b0 :: b1 :: e) ++ r) 1) with (Done b1).
      change (ptr_add ((b0 :: b1 :: e) ++ r) 2) with (e ++ r). cbn [mbind outcome_bind mret outcome_ret]. rewrite !len_cons.
      replace (1 + (1 + len e) - 2) with (len e) by lia. unfold half. rewrite u32_small by (unfold is_u32; lia).
      etrans; [apply (words_end odd e r h (b0 + b1 * 2 ^ 8)); [done|done|lia]|]. cbn [weigh negb].
      replace (b0 + b1 * 2 ^ 8 + h * 2 ^ 8 + weigh false e) with (h * 2 ^ 8 + (b0 + (2 ^ 8 * b1 + weigh false e))) by lia. done.
    - etrans; [apply (words_end odd e r h 0); [done|done|lia]|]. done. }
  destruct d as [|b d].
  - rewrite andb_false_r. apply (Hrest a 0 []); [done|done|]. by destruct odd.
  - pose proof Hd as Hbd. apply Forall_cons in Hd as [Hb Hd]. pose proof (len_nonneg d). rewrite len_cons, (proj2 (Z.ltb_lt _ _)), andb_true_r by lia.
    destruct odd.
    + change (load ((b :: d) ++ r) 0) with (Done b). cbn [mbind outcome_bind mret outcome_ret].
      change (set_byte1 b 0) with (b * 2 ^ 8). change (ptr_add ((b :: d) ++ r) 1) with (d ++ r). replace (1 + len d - 1) with (len d) by lia.
      apply (Hrest (a + 1) b d); [done|done|]. cbn [weigh negb]. lia.
    + cbn [mbind outcome_bind mret outcome_ret]. rewrite <- (len_cons b). apply (Hrest a 0 (b :: d)); [done|done|]. lia.
Qed.

(** C34 (equivalence): The three routines sum a piece of memory as RFC 1071 says, whatever the
    address it starts at and whatever bytes follow it: [lwip_standard_chksum_3], which folds its
    carries inside its loop, for every length; [lwip_standard_chksum_1] and
    [lwip_standard_chksum_2], whose 32-bit accumulator is folded only at the end, for pieces
    of at most [0x20002] bytes. *)
Theorem routines_agree a d rest : bytes_ok d →
  lwip_standard_chksum_3 a (d ++ rest) (len d) = Done (in_memory (internet_sum d)) ∧
  (len d <= 0x20002 →
     lwip_standard_chksum_1 a (d ++ rest) (len d) = Done (in_memory (internet_sum d)) ∧
     lwip_standard_chksum_2 a (d ++ rest) (len d) = Done (in_memory (internet_sum d))).
Proof. intros Hd. split; [by apply chksum_3|]. intros Hl. split; [by apply chksum_1|by apply chksum_2]. Qed.

(** ** Chains *)

(** The contract of [LWIP_CHKSUM]. *)
Class Summing (f : Z → bytes → Z → outcome Z) : Prop :=
  sums a d : bytes_ok d → len d < 2 ^ 16 → f a d (len d) = Done (in_memory (internet_sum d)).

#[export] Instance summing_1 : Summing lwip_standard_chksum_1.
Proof. intros a d Hd Hl. rewrite <- (app_nil_r d) at 1. apply chksum_1; [done|lia]. Qed.
#[export] Instance summing_2 : Summing lwip_standard_chksum_2.
Proof. intros a d Hd Hl. rewrite <- (app_nil_r d) at 1. apply chksum_2; [done|lia]. Qed.
#[export] Instance summing_3 : Summing lwip_standard_chksum_3.
Proof. intros a d Hd Hl. rewrite <- (app_nil_r d) at 1. by apply chksum_3. Qed.

(** The accumulator without its swap. *)
Definition unswapped (swapped : bool) (acc : Z) : Z := if swapped then in_memory acc else acc.

Lemma in_memory_twice x : 0 <= x <= 65535 → in_memory (in_memory x) = x.
Proof.
  intros Hx. unfold in_memory. pose proof (Z.div_mod x (2 ^ 8)). pose proof (Z.mod_pos_bound x (2 ^ 8)).
  pose proof (Z.div_lt_upper_bound x (2 ^ 8) (2 ^ 8)). pose proof (Z.div_pos x (2 ^ 8)).
  set (l := x mod 2 ^ 8) in *. set (h := x / 2 ^ 8) in *.
  assert ((l * 2 ^ 8 + h) mod 2 ^ 8 = h) as -> by (symmetry; apply Z.mod_unique with l; lia).
  assert ((l * 2 ^ 8 + h) / 2 ^ 8 = l) as -> by (symmetry; apply Z.div_unique with h; lia). lia.
Qed.

Lemma internet_sum_range d : bytes_ok d → 0 <= internet_sum d <= 65535.
Proof. intros Hd. rewrite internet_sum_norm by done. apply norm_spec. by apply weigh_nonneg. Qed.

Lemma add_piece swapped acc d : bytes_ok d → 0 <= acc <= 65535 →
  let acc' := FOLD_U32T (u32 (acc + in_memory (internet_sum d))) in
  0 <= acc' <= 65535 ∧ unswapped swapped acc' = norm (unswapped swapped acc + weigh swapped d).
Proof.
  intros Hd Ha acc'. pose proof (internet_sum_range d Hd) as Hi. pose proof (in_memory_range _ Hi).
  pose proof (weigh_nonneg false d Hd). pose proof (weigh_nonneg true d Hd).
  assert (acc' = norm (acc + weigh false d)) as ->.
  { unfold acc'. rewrite u32_small, fold_once by (unfold is_u32; lia). rewrite internet_sum_memory by done.
    by rewrite Z.add_comm, norm_add, Z.add_comm by lia. }
  split; [apply norm_spec; lia|]. destruct swapped; [|done]. unfold unswapped.
  rewrite !in_memory_norm by (try apply norm_spec; lia). rewrite norm_mul by lia.
  rewrite norm_add by lia. rewrite Z.mul_add_distr_l, Z.add_comm.
  rewrite (norm_cong (2 ^ 8 * weigh false d) (weigh true d)) by (try lia; by rewrite norm_flip). f_equal. lia.
Qed.

Lemma swap_piece swapped acc : 0 <= acc <= 65535 →
  0 <= SWAP_BYTES_IN_WORD acc <= 65535 ∧ unswapped (negb swapped) (SWAP_BYTES_IN_WORD acc) = unswapped swapped acc.
Proof.
  intros Ha. rewrite swap_in_memory by done. split; [by apply in_memory_range|]. destruct swapped; [done|]. by apply in_memory_twice.
Qed.

Lemma odd_test (d : bytes) : negb (len d mod 2 =? 0) = odd_len d.
Proof. unfold odd_len. rewrite Zmod_odd. by destruct (Z.odd (len d)). Qed.

Lemma complement acc : 0 <= acc <= 65535 → u16 (Z.lnot (Z.land acc 0xffff)) = 65535 - acc.
Proof.
  intros Ha. rewrite land_ffff, Z.mod_small by lia. unfold u16, Z.lnot.
  symmetry. apply Z.mod_unique with (-1); lia.
Qed.

Lemma packet_piece {M} (s : store M) q a d ns : packet s q ((a, d) :: ns) → ∃ b, q = a ∧ a ≠ 0 ∧ pbufs s !! a = Some b ∧ held s b d ∧
  plen b = len d ∧ len d < 2 ^ 16 ∧ packet s (next b) ns.
Proof.
  intros (->&Ha&b&Hb&Hh&[Ht Hl]&Hp). exists b. split_and!; try done; [by destruct Hh|].
  rewrite bytes_of_cons, len_app in Ht. pose proof (len_nonneg (bytes_of ns)). lia.
Qed.

Section chains.
Context {M : Type} (LWIP_CHKSUM : Z → bytes → Z → outcome Z) `{!Summing LWIP_CHKSUM} (address : pointer → Z).
Local Abbreviation S := (store M).

Lemma sum_chain_spec fuel ns q acc swapped (s : S) : packet s q ns → bytes_ok (bytes_of ns) → (length ns < fuel)%nat → 0 <= acc <= 65535 →
  ∃ acc' swapped', sum_chain LWIP_CHKSUM address fuel q acc swapped s = Done ((acc', swapped'), s) ∧ 0 <= acc' <= 65535 ∧
    unswapped swapped' acc' = norm (unswapped swapped acc + weigh swapped (bytes_of ns)).
Proof.
  revert ns q acc swapped. induction fuel as [|fuel IH]; intros ns q acc swapped Hp Hb Hf Ha; [lia|]. cbn [sum_chain].
  destruct ns as [|[a d] ns].
  - simpl in Hp. subst q. exists acc, swapped. split_and!; [done|lia|lia|]. simpl. rewrite Z.add_0_r.
    symmetry. apply norm_small. destruct swapped; [by apply in_memory_range|done].
  - apply packet_piece in Hp as (b&->&Hne&Eb&Hh&Hlen&Hl&Hp). rewrite bytes_of_cons in Hb. apply Forall_app in Hb as [Hd Hb].
    rewrite (proj2 (Z.eqb_neq _ _)) by done. cbn [negb]. rewrite (get_bind _ b) by done.
    unfold mbind at 1, ST_bind at 1. rewrite (read_payload s b d) by (try done; rewrite Hlen; pose proof (len_nonneg d); lia).
    assert (take (Z.to_nat (plen b)) d = d) as -> by (rewrite Hlen; unfold len; rewrite Nat2Z.id; by apply take_ge).
    rewrite Hlen. unfold mbind at 1, ST_bind at 1, lift. rewrite (sums (f := LWIP_CHKSUM)) by done. cbv zeta.
    rewrite odd_test. destruct (add_piece swapped acc d Hd Ha) as [Hr Hv]. set (acc1 := FOLD_U32T _) in *.
    rewrite bytes_of_cons, weigh_app. pose proof (weigh_nonneg swapped d Hd).
    assert (0 <= unswapped swapped acc <= 65535) as Hu by (destruct swapped; [by apply in_memory_range|done]).
    pose proof (weigh_nonneg (xorb swapped (odd_len d)) (bytes_of ns) Hb).
    simpl in Hf. destruct (odd_len d).
    + destruct (swap_piece swapped acc1 Hr) as [Hr2 Hv2].
      destruct (IH ns (next b) (SWAP_BYTES_IN_WORD acc1) (negb swapped) Hp Hb ltac:(lia) Hr2) as (acc'&sw'&E&?&Hv').
      exists acc', sw'. split_and!; [exact E|lia|lia|]. rewrite Hv', Hv2, Hv. rewrite xorb_true_r in *. rewrite norm_add by lia. f_equal. lia.
    + destruct (IH ns (next b) acc1 swapped Hp Hb ltac:(lia) Hr) as (acc'&sw'&E&?&Hv').
      exists acc', sw'. split_and!; [exact E|lia|lia|]. rewrite Hv', Hv. rewrite xorb_false_r in *. rewrite norm_add by lia. f_equal. lia.
Qed.

Theorem chain_as_one_piece fuel p ns (s : S) : packet s p ns → bytes_ok (bytes_of ns) → (length ns < fuel)%nat →
  inet_chksum_pbuf LWIP_CHKSUM address fuel p s = Done (65535 - in_memory (internet_sum (bytes_of ns)), s).
Proof.
  intros Hp Hb Hf. unfold inet_chksum_pbuf, mbind, ST_bind.
  destruct (sum_chain_spec fuel ns p 0 false s Hp Hb Hf ltac:(lia)) as (acc&sw&->&Hr&Hv). cbv zeta.
  assert ((if sw then SWAP_BYTES_IN_WORD acc else acc) = unswapped sw acc) as -> by (destruct sw; [by apply swap_in_memory|done]).
  rewrite Hv. rewrite complement by (apply norm_spec; by apply weigh_nonneg).
  simpl unswapped. rewrite Z.add_0_l. by rewrite internet_sum_memory.
Qed.
End chains.

(** ** With a pseudo header *)

(** What a checksum field has to hold for the data, read by the processor. *)
Definition checksum (d : bytes) : Z := 65535 - in_memory (internet_sum d).
Definition le16 (x : Z) : bytes := [x mod 2 ^ 8; x / 2 ^ 8].
(** The pseudo headers of RFC 768 and RFC 8200. *)
Definition pseudo4 (src dest : ip_addr_t) (proto proto_len : Z) : bytes :=
  le32 (addr0 src) ++ le32 (addr0 dest) ++ [0; proto] ++ be16 proto_len.
Definition address6 (a : ip_addr_t) : bytes := le32 (addr0 a) ++ le32 (addr1 a) ++ le32 (addr2 a) ++ le32 (addr3 a).
Definition pseudo6 (src dest : ip_addr_t) (proto proto_len : Z) : bytes :=
  address6 src ++ address6 dest ++ be32 proto_len ++ [0; 0; 0; proto].
Definition pseudo_header (src dest : ip_addr_t) (proto proto_len : Z) : bytes :=
  if ip_type dest =? IPADDR_TYPE_V6 then pseudo6 src dest proto proto_len else pseudo4 src dest proto proto_len.
Definition addr_ok (a : ip_addr_t) : Prop := is_u32 (addr0 a) ∧ is_u32 (addr1 a) ∧ is_u32 (addr2 a) ∧ is_u32 (addr3 a).

Lemma checksum_weigh d : bytes_ok d → checksum d = 65535 - norm (weigh false d).
Proof. intros Hd. unfold checksum. by rewrite internet_sum_memory. Qed.

(** Bytes are bytes, piece by piece. *)
Ltac solve_app_ok := unfold bytes_ok in *; rewrite ?Forall_app; split_and!; try done; try solve_bytes_ok.

Lemma le16_ok x : is_u16 x → bytes_ok (le16 x).
Proof.
  unfold is_u16, le16. intros Hx. pose proof (Z.mod_pos_bound x (2 ^ 8)).
  pose proof (Z.div_lt_upper_bound x (2 ^ 8) (2 ^ 8)). pose proof (Z.div_pos x (2 ^ 8)).
  unfold bytes_ok, is_u8. rewrite !Forall_cons. split_and!; [lia..|by apply Forall_nil].
Qed.
Lemma le32_ok a : is_u32 a → bytes_ok (le32 a).
Proof. intros _. unfold le32. solve_bytes_ok. Qed.
Lemma weigh_le32 a : is_u32 a → weigh false (le32 a) = a mod 2 ^ 16 + a / 2 ^ 16.
Proof.
  unfold is_u32, le32. intros Ha. cbn [weigh negb]. change 256 with (2 ^ 8).
  replace (a / 2 ^ 24) with (a / 2 ^ 16 / 2 ^ 8) by (by rewrite Z.div_div by lia).
  pose proof (Z.div_mod a (2 ^ 16)). pose proof (Z.mod_pos_bound a (2 ^ 16)).
  pose proof (Z.div_lt_upper_bound a (2 ^ 16) (2 ^ 16)). pose proof (Z.div_pos a (2 ^ 16)). set (x := a / 2 ^ 16) in *.
  pose proof (Z.div_mod x (2 ^ 8)). pose proof (Z.div_lt_upper_bound x (2 ^ 8) (2 ^ 8)). pose proof (Z.div_pos x (2 ^ 8)).
  rewrite (Z.mod_small (x / 2 ^ 8)) by lia. change (a mod 2 ^ 16) with (a mod (2 ^ 8 * 2 ^ 8)). rewrite Z.rem_mul_r by lia. lia.
Qed.

Lemma add_address_value acc a : 0 <= acc < 2 ^ 31 → is_u32 a → add_address acc a = acc + weigh false (le32 a) ∧ 0 <= weigh false (le32 a) <= 0x1fffe.
Proof.
  intros Hacc Ha. rewrite weigh_le32 by done. unfold is_u32 in Ha. unfold add_address. rewrite !land_ffff, Z.shiftr_div_pow2 by lia.
  pose proof (Z.mod_pos_bound a (2 ^ 16)). pose proof (Z.div_lt_upper_bound a (2 ^ 16) (2 ^ 16)). pose proof (Z.div_pos a (2 ^ 16)).
  rewrite (Z.mod_small (a / 2 ^ 16)) by lia. rewrite (u32_small (acc + a mod 2 ^ 16)), u32_small by (unfold is_u32; lia). lia.
Qed.

Lemma address_sum4_norm src dest : addr_ok src → addr_ok dest →
  address_sum4 src dest = norm (weigh false (le32 (addr0 src) ++ le32 (addr0 dest))).
Proof.
  intros (H1&_) (H2&_). unfold address_sum4. rewrite weigh_app.
  destruct (add_address_value 0 (addr0 src) ltac:(lia) H1) as [-> ?].
  destruct (add_address_value (0 + weigh false (le32 (addr0 src))) (addr0 dest) ltac:(lia) H2) as [-> ?].
  rewrite fold_twice by (unfold is_u32; lia). f_equal.
Qed.

Lemma address_sum6_norm src dest : addr_ok src → addr_ok dest →
  address_sum6 src dest = norm (weigh false (address6 src ++ address6 dest)).
Proof.
  intros (H1&H2&H3&H4) (H1'&H2'&H3'&H4'). unfold address_sum6, address6. rewrite <- !app_assoc, !weigh_app.
  change (odd_len (le32 _)) with false. cbn [xorb foldl].
  repeat match goal with |- context [add_address ?acc ?a] =>
    lazymatch acc with context [add_address] => fail | _ => destruct (add_address_value acc a ltac:(lia) ltac:(assumption)) as [-> ?] end end.
  rewrite fold_twice by (unfold is_u32; lia). f_equal. lia.
Qed.

(** What comes after the addresses. *)
Lemma finish_norm acc sw proto proto_len : 0 <= acc <= 65535 → is_u8 proto → is_u16 proto_len →
  finish_pseudo acc sw proto proto_len = 65535 - norm (unswapped sw acc + weigh false ([0; proto] ++ be16 proto_len)).
Proof.
  intros Ha Hp Hl. unfold is_u8, is_u16 in *. unfold finish_pseudo. cbv zeta.
  assert ((if sw then SWAP_BYTES_IN_WORD acc else acc) = unswapped sw acc) as -> by (destruct sw; [by apply swap_in_memory|done]).
  assert (0 <= unswapped sw acc <= 65535) as Hu by (destruct sw; [by apply in_memory_range|done]).
  rewrite (u16_small proto) by (unfold is_u16; lia). rewrite !htons_in_memory by lia.
  pose proof (in_memory_range proto ltac:(lia)). pose proof (in_memory_range proto_len ltac:(lia)).
  rewrite (u32_small (unswapped sw acc + in_memory proto)), u32_small, fold_twice by (unfold is_u32; lia).
  rewrite complement by (apply norm_spec; lia). do 2 f_equal. rewrite <- Z.add_assoc. f_equal.
  unfold in_memory, be16. cbn [app weigh negb]. rewrite (Z.mod_small proto), (Z.div_small proto) by lia.
  rewrite (Z.mod_small (proto_len / 256)) by (split; [apply Z.div_pos; lia|apply Z.div_lt_upper_bound; lia]). change (2 ^ 8) with 256. lia.
Qed.

Section pseudo.
Context {M : Type} (LWIP_CHKSUM : Z → bytes → Z → outcome Z) `{!Summing LWIP_CHKSUM} (address : pointer → Z).
Local Abbreviation S := (store M).

Lemma pseudo_base_spec fuel p ns proto proto_len h (s : S) : packet s p ns → bytes_ok (bytes_of ns) → (length ns < fuel)%nat →
  bytes_ok h → odd_len h = false → is_u8 proto → is_u16 proto_len →
  inet_cksum_pseudo_base LWIP_CHKSUM address fuel p proto proto_len (norm (weigh false h)) s =
    Done (checksum (h ++ [0; proto] ++ be16 proto_len ++ bytes_of ns), s).
Proof.
  intros Hp Hb Hf Hh Ho Hproto Hlen. unfold inet_cksum_pseudo_base, mbind, ST_bind. pose proof (weigh_nonneg false h Hh).
  assert (0 <= norm (weigh false h) <= 65535) as Hn by (apply norm_spec; lia).
  destruct (sum_chain_spec LWIP_CHKSUM address fuel ns p (norm (weigh false h)) false s Hp Hb Hf Hn) as (acc&sw&->&Hr&Hv).
  unfold mret, ST_ret. do 2 f_equal. rewrite finish_norm, Hv by done. pose proof (weigh_nonneg false (bytes_of ns) Hb).
  assert (bytes_ok ([0; proto] ++ be16 proto_len)) as Hpl by (pose proof (be16_ok proto_len); solve_app_ok).
  pose proof (weigh_nonneg false _ Hpl). simpl unswapped. rewrite (norm_add (weigh false h)), norm_add by lia.
  rewrite checksum_weigh.
  2: { pose proof (be16_ok proto_len). solve_app_ok. }
  rewrite (weigh_app false h), Ho, app_assoc, (weigh_app _ ([0; proto] ++ be16 proto_len)).
  change (odd_len ([0; proto] ++ be16 proto_len)) with false. cbn [xorb]. do 2 f_equal. lia.
Qed.

Theorem pseudo_checksum fuel p ns proto proto_len src dest (s : S) : packet s p ns → bytes_ok (bytes_of ns) → (length ns < fuel)%nat →
  addr_ok src → addr_ok dest → is_u8 proto → is_u16 proto_len →
  ip_chksum_pseudo LWIP_CHKSUM address fuel p proto proto_len src dest s =
    Done (checksum (pseudo_header src dest proto proto_len ++ bytes_of ns), s).
Proof.
  intros Hp Hb Hf Hs Hd Hproto Hlen. assert (∀ a, addr_ok a → bytes_ok (address6 a) ∧ bytes_ok (le32 (addr0 a))) as Hok.
  { intros a (H1&H2&H3&H4). unfold address6, bytes_ok. rewrite !Forall_app. split_and!; by apply le32_ok. }
  destruct (Hok src Hs) as [Hs6 Hs4], (Hok dest Hd) as [Hd6 Hd4]. unfold ip_chksum_pseudo, pseudo_header.
  destruct (ip_type dest =? IPADDR_TYPE_V6).
  - unfold ip6_chksum_pseudo. rewrite address_sum6_norm by done. rewrite (pseudo_base_spec fuel p ns) by (try done; by apply Forall_app).
    do 2 f_equal. unfold pseudo6. pose proof (be16_ok proto_len). pose proof (be32_ok proto_len).
    rewrite !checksum_weigh by solve_app_ok.
    do 2 f_equal. rewrite <- !app_assoc. rewrite !(weigh_app _ (address6 _)). do 2 f_equal.
    unfold be32, be16. unfold is_u16 in Hlen. cbn [app weigh negb xorb].
    change (odd_len (address6 src)) with false. change (odd_len (address6 dest)) with false. cbn [xorb weigh negb app].
    rewrite (Z.div_small proto_len (2 ^ 24)), (Z.div_small proto_len (2 ^ 16)) by lia. change (2 ^ 8) with 256. rewrite Zmod_0_l. lia.
  - unfold inet_chksum_pseudo. rewrite address_sum4_norm by done. rewrite (pseudo_base_spec fuel p ns) by (try done; by apply Forall_app).
    unfold pseudo4. by rewrite <- !app_assoc.
Qed.
End pseudo.

(** ** On arrival *)

Lemma closes pre post : bytes_ok pre → bytes_ok post → odd_len pre = false →
  let c := checksum (pre ++ [0; 0] ++ post) in is_u16 c ∧ checksum (pre ++ le16 c ++ post) = 0.
Proof.
  intros Hpre Hpost Ho c. pose proof (weigh_nonneg false pre Hpre). pose proof (weigh_nonneg false post Hpost).
  assert (c = 65535 - norm (weigh false pre + weigh false post)) as Hc.
  { unfold c. rewrite checksum_weigh by solve_app_ok.
    rewrite !weigh_app, Ho. change (odd_len [0; 0]) with false. cbn [xorb weigh negb]. do 2 f_equal. }
  destruct (norm_spec (weigh false pre + weigh false post) ltac:(lia)) as (Hn&_&_).
  assert (is_u16 c) as Hu by (unfold is_u16; lia). split; [done|]. pose proof (le16_ok c Hu).
  unfold is_u16 in Hu. pose proof (Z.div_mod c (2 ^ 8)).
  rewrite checksum_weigh by solve_app_ok.
  rewrite !weigh_app, Ho. change (odd_len (le16 c)) with false. unfold le16. cbn [xorb weigh negb].
  replace (weigh false pre + (c mod 2 ^ 8 + (2 ^ 8 * (c / 2 ^ 8) + 0) + weigh false post))
    with (weigh false pre + weigh false post + c) by lia.
  rewrite <- norm_add by lia. rewrite Hc. rewrite norm_small by lia. lia.
Qed.

(** One word of a packet that passes the check is replaced, and it still passes: then
    nothing has changed, or all bits of the word have. *)
Theorem changed_word_detected pre post a b a' b' : bytes_ok pre → bytes_ok post → odd_len pre = false →
  is_u8 a → is_u8 b → is_u8 a' → is_u8 b' →
  checksum (pre ++ [a; b] ++ post) = 0 → checksum (pre ++ [a'; b'] ++ post) = 0 →
  (a', b') = (a, b) ∨ (a, b, a', b') = (0, 0, 255, 255) ∨ (a, b, a', b') = (255, 255, 0, 0).
Proof.
  intros Hpre Hpost Ho Ha Hb Ha' Hb'. pose proof (weigh_nonneg false pre Hpre). pose proof (weigh_nonneg false post Hpost).
  assert (∀ x y, is_u8 x → is_u8 y →
    checksum (pre ++ [x; y] ++ post) = 65535 - norm (weigh false pre + weigh false post + (x + 2 ^ 8 * y))) as E.
  { intros x y Hx Hy. rewrite checksum_weigh by solve_app_ok.
    rewrite !weigh_app, Ho. change (odd_len [x; y]) with false. cbn [xorb weigh negb]. do 2 f_equal. lia. }
  rewrite !E by done. unfold is_u8 in *. set (w := weigh false pre + weigh false post) in *. intros E1 E2.
  destruct (norm_spec (w + (a + 2 ^ 8 * b)) ltac:(lia)) as (_&_&i&?&?). destruct (norm_spec (w + (a' + 2 ^ 8 * b')) ltac:(lia)) as (_&_&j&?&?).
  assert (a + 2 ^ 8 * b - (a' + 2 ^ 8 * b') = 65535 * (i - j)) as Hd by lia.
  assert (i - j = 0 ∨ i - j = 1 ∨ i - j = -1) as [E0|[E0|E0]] by lia; rewrite E0 in Hd.
  - left. f_equal; lia.
  - right. right. assert (a = 255 ∧ b = 255 ∧ a' = 0 ∧ b' = 0) as (->&->&->&->) by lia. done.
  - right. left. assert (a = 0 ∧ b = 0 ∧ a' = 255 ∧ b' = 255) as (->&->&->&->) by lia. done.
Qed.

Section arrival.
Context {M M' : Type} (f g : Z → bytes → Z → outcome Z) `{!Summing f, !Summing g} (address address' : pointer → Z).

(** C33 (roundtrip): A checksum that one station computes over a packet, with the field still zero, and
    stores in the field makes the check of another station come out as zero, whichever
    of the summing routines the two use and however each has cut the packet into
    structures. *)
Theorem verified_on_arrival fuel fuel' p p' ns ns' proto proto_len src dest (s : store M) (s' : store M') pre post :
  packet s p ns → packet s' p' ns' → (length ns < fuel)%nat → (length ns' < fuel')%nat →
  bytes_ok pre → bytes_ok post → odd_len pre = false → addr_ok src → addr_ok dest → is_u8 proto → is_u16 proto_len →
  bytes_of ns = pre ++ [0; 0] ++ post →
  ∃ c, is_u16 c ∧ ip_chksum_pseudo f address fuel p proto proto_len src dest s = Done (c, s) ∧
    (bytes_of ns' = pre ++ le16 c ++ post →
     ip_chksum_pseudo g address' fuel' p' proto proto_len src dest s' = Done (0, s')).
Proof.
  intros Hp Hp' Hf Hf' Hpre Hpost Ho Hs Hd Hproto Hlen E. set (h := pseudo_header src dest proto proto_len).
  assert (bytes_ok h ∧ odd_len h = false) as [Hh Hoh].
  { unfold h, pseudo_header, pseudo6, pseudo4, address6. destruct Hs as (?&?&?&?), Hd as (?&?&?&?).
    split; [|by destruct (_ =? _)]. pose proof (be16_ok proto_len). pose proof (be32_ok proto_len).
    destruct (_ =? _); solve_app_ok; by apply le32_ok. }
  destruct (closes (h ++ pre) post) as [Hc H0]; [by apply Forall_app|done|unfold odd_len in *; by rewrite len_app, Z.odd_add, Hoh, Ho|].
  set (c := checksum ((h ++ pre) ++ [0; 0] ++ post)) in *.
  assert (c = checksum (h ++ pre ++ [0; 0] ++ post)) as Ec by (unfold c; by rewrite <- app_assoc).
  rewrite <- app_assoc in H0. exists c. split; [done|]. split.
  - rewrite (pseudo_checksum f address fuel p ns) by (try done; rewrite E; solve_app_ok).
    rewrite E. by rewrite Ec.
  - intros E'. pose proof (le16_ok c Hc).
    rewrite (pseudo_checksum g address' fuel' p' ns') by (try done; rewrite E'; solve_app_ok).
    rewrite E'. fold h. by rewrite H0.
Qed.

(** The same for a header in one piece, as that of IPv4. *)
Theorem header_verified_on_arrival a a' pre post : bytes_ok pre → bytes_ok post → odd_len pre = false →
  len pre + 2 + len post < 2 ^ 16 →
  ∃ c, is_u16 c ∧ inet_chksum f a (pre ++ [0; 0] ++ post) (len (pre ++ [0; 0] ++ post)) = Done c ∧
    inet_chksum g a' (pre ++ le16 c ++ post) (len (pre ++ le16 c ++ post)) = Done 0.
Proof.
  intros Hpre Hpost Ho Hl. destruct (closes pre post Hpre Hpost Ho) as [Hc H0]. set (c := checksum (pre ++ [0; 0] ++ post)) in *.
  exists c. split; [done|]. pose proof (le16_ok c Hc).
  assert (∀ (k : Z → bytes → Z → outcome Z) `{!Summing k} x d, bytes_ok d → len d < 2 ^ 16 → inet_chksum k x d (len d) = Done (checksum d)) as Hk.
  { intros k Hk x d Hd Hld. unfold inet_chksum. rewrite (sums (f := k)) by done. cbn [mbind outcome_bind mret outcome_ret]. f_equal.
    pose proof (in_memory_range _ (internet_sum_range d Hd)). unfold checksum, u16, Z.lnot. symmetry. apply Z.mod_unique with (-1); lia. }
  split.
  - rewrite (Hk f _) by first [rewrite !len_app; change (len [0; 0]) with 2; lia|solve_app_ok].
    done.
  - rewrite (Hk g _) by first [rewrite !len_app; change (len (le16 c)) with 2; lia|solve_app_ok].
    by rewrite H0.
Qed.
End arrival.

(** ** The first bytes of a chain *)

Section partial.
Context {M : Type} (LWIP_CHKSUM : Z → bytes → Z → outcome Z) `{!Summing LWIP_CHKSUM} (address : pointer → Z).
Local Abbreviation S := (store M).

Lemma sum_chain_partial_spec fuel ns q n acc swapped (s : S) : packet s q ns → bytes_ok (bytes_of ns) → (length ns < fuel)%nat →
  0 <= acc <= 65535 → 0 <= n < 2 ^ 16 → n < 0x7fff + len (from_option snd [] (head ns)) →
  ∃ acc' swapped', sum_chain_partial LWIP_CHKSUM address fuel q n acc swapped s = Done ((acc', swapped'), s) ∧ 0 <= acc' <= 65535 ∧
    unswapped swapped' acc' = norm (unswapped swapped acc + weigh swapped (take (Z.to_nat n) (bytes_of ns))).
Proof.
  revert ns q n acc swapped. induction fuel as [|fuel IH]; intros ns q n acc swapped Hp Hb Hf Ha Hn Hhalf; [lia|]. cbn [sum_chain_partial].
  assert (0 <= unswapped swapped acc <= 65535) as Hu by (destruct swapped; [by apply in_memory_range|done]).
  destruct ns as [|[a d] ns].
  - simpl in Hp. subst q. exists acc, swapped. split_and!; [done|lia|lia|]. change (bytes_of []) with (@nil Z). rewrite take_nil. simpl. rewrite Z.add_0_r.
    symmetry. by apply norm_small.
  - apply packet_piece in Hp as (b&->&Hne&Eb&Hh&Hlen&Hl&Hp). rewrite bytes_of_cons in Hb. apply Forall_app in Hb as [Hd Hb].
    cbn [from_option head snd] in Hhalf. pose proof (len_nonneg d). rewrite (proj2 (Z.eqb_neq _ _)) by done. cbn [negb andb].
    destruct (Z.ltb_spec 0 n) as [Hpos|Hpos].
    2: { assert (n = 0) as -> by lia. exists acc, swapped. split_and!; [done|lia|lia|]. simpl. rewrite Z.add_0_r. symmetry. by apply norm_small. }
    rewrite (get_bind _ b) by done. rewrite Hlen. set (k := if n <? len d then n else len d).
    assert (0 <= k <= len d ∧ k <= n ∧ n - k < 0x7fff) as (Hk&Hkn&Hrest) by (unfold k; destruct (Z.ltb_spec n (len d)); lia). cbv zeta.
    unfold mbind at 1, ST_bind at 1. rewrite (read_payload s b d k) by done. set (e := take (Z.to_nat k) d).
    assert (len e = k) as He by (by apply len_take). assert (bytes_ok e) as Hoke by by apply Forall_take.
    rewrite <- He. unfold mbind at 1, ST_bind at 1, lift. rewrite (sums (f := LWIP_CHKSUM)) by (done || lia).
    rewrite He, u16_small by (unfold is_u16; lia). unfold mbind at 1, ST_bind at 1, LWIP_ASSERT.
    rewrite (proj2 (Z.ltb_lt (n - k) 0x7fff)) by lia. cbn [mret ST_ret]. rewrite odd_test.
    destruct (add_piece swapped acc e Hoke Ha) as [Hr Hv]. set (acc1 := FOLD_U32T _) in *.
    pose proof (weigh_nonneg swapped e Hoke).
    assert (take (Z.to_nat n) (bytes_of ((a, d) :: ns)) = e ++ take (Z.to_nat (n - k)) (bytes_of ns)) as ->.
    { rewrite bytes_of_cons, take_app. unfold e, k. destruct (Z.ltb_spec n (len d)).
      - rewrite Z.sub_diag. f_equal. unfold len in *. by replace (Z.to_nat n - length d)%nat with 0%nat by lia.
      - f_equal; [rewrite !take_ge by (unfold len in *; lia); done|]. f_equal. unfold len in *. lia. }
    set (t := take (Z.to_nat (n - k)) (bytes_of ns)) in *. assert (bytes_ok t) as Ht by by apply Forall_take.
    rewrite weigh_app. pose proof (weigh_nonneg (xorb swapped (odd_len e)) t Ht). simpl in Hf.
    (** What follows is weighed as the length of the piece asks, or is empty. *)
    assert (weigh (xorb swapped (odd_len e)) t = weigh (xorb swapped (odd_len d)) t) as Hsame.
    { unfold t, e, k. destruct (Z.ltb_spec n (len d)); [by rewrite Z.sub_diag, !take_0|].
      by rewrite (take_ge d) by (unfold len; lia). }
    assert (n - k < 0x7fff + len (from_option snd [] (head ns))) as Hh2.
    { eapply Z.lt_le_trans; [exact Hrest|]. set (x := len _). assert (0 <= x) by apply len_nonneg. lia. }
    rewrite Hsame in *. clearbody k.
    destruct (odd_len d).
    + destruct (swap_piece swapped acc1 Hr) as [Hr2 Hv2].
      destruct (IH ns (next b) (n - k) (SWAP_BYTES_IN_WORD acc1) (negb swapped) Hp Hb ltac:(lia) Hr2 ltac:(lia) Hh2) as (acc'&sw'&E&?&Hv').
      fold t in Hv'. exists acc', sw'. split_and!; [exact E|lia|lia|]. rewrite Hv', Hv2, Hv. rewrite xorb_true_r in *. rewrite norm_add by lia. f_equal. lia.
    + destruct (IH ns (next b) (n - k) acc1 swapped Hp Hb ltac:(lia) Hr ltac:(lia) Hh2) as (acc'&sw'&E&?&Hv').
      fold t in Hv'. exists acc', sw'. split_and!; [exact E|lia|lia|]. rewrite Hv', Hv. rewrite xorb_false_r in *. rewrite norm_add by lia. f_equal. lia.
Qed.

(** The sum over the first [n] bytes of a packet of which fewer than [0x7fff] lie
    behind its first structure. *)
Theorem partial_checksum fuel p ns n proto proto_len src dest (s : S) : packet s p ns → bytes_ok (bytes_of ns) → (length ns < fuel)%nat →
  addr_ok src → addr_ok dest → is_u8 proto → is_u16 proto_len → 0 <= n < 2 ^ 16 → n < 0x7fff + len (from_option snd [] (head ns)) →
  inet_chksum_pseudo_partial LWIP_CHKSUM address fuel p proto proto_len n src dest s =
    Done (checksum (pseudo4 src dest proto proto_len ++ take (Z.to_nat n) (bytes_of ns)), s).
Proof.
  intros Hp Hb Hf Hs Hd Hproto Hlen Hn Hhalf. unfold inet_chksum_pseudo_partial, inet_cksum_pseudo_partial_base, mbind, ST_bind.
  rewrite address_sum4_norm by done. destruct Hs as (Hs&_), Hd as (Hd&_).
  assert (bytes_ok (le32 (addr0 src) ++ le32 (addr0 dest))) as Hh by (solve_app_ok; by apply le32_ok).
  set (h := le32 (addr0 src) ++ le32 (addr0 dest)) in *. pose proof (weigh_nonneg false h Hh).
  assert (0 <= norm (weigh false h) <= 65535) as Hnr by (apply norm_spec; lia).
  destruct (sum_chain_partial_spec fuel ns p n (norm (weigh false h)) false s Hp Hb Hf Hnr Hn Hhalf) as (acc&sw&->&Hr&Hv).
  unfold mret, ST_ret. do 2 f_equal. rewrite finish_norm, Hv by done. set (t := take (Z.to_nat n) (bytes_of ns)) in *.
  assert (bytes_ok t) as Ht by by apply Forall_take. pose proof (weigh_nonneg false t Ht).
  assert (bytes_ok ([0; proto] ++ be16 proto_len)) as Hpl by (pose proof (be16_ok proto_len); solve_app_ok).
  pose proof (weigh_nonneg false _ Hpl). simpl unswapped. rewrite (norm_add (weigh false h)), norm_add by lia.
  assert (pseudo4 src dest proto proto_len ++ t = h ++ ([0; proto] ++ be16 proto_len) ++ t) as -> by (unfold pseudo4, h; by rewrite <- !app_assoc).
  rewrite checksum_weigh by (apply Forall_app; split; [done|by apply Forall_app]).
  rewrite (weigh_app false h), (weigh_app _ ([0; proto] ++ be16 proto_len)).
  change (odd_len ([0; proto] ++ be16 proto_len)) with false. change (odd_len h) with false. cbn [xorb]. do 2 f_equal. lia.
Qed.

(** If more lies behind it, the sum is never finished: the assertion that says of itself
    that it is to be deleted fails. *)
Theorem partial_checksum_stops fuel p a d ns n proto proto_len src dest (s : S) : packet s p ((a, d) :: ns) → bytes_ok d →
  0x7fff + len d <= n < 2 ^ 16 →
  inet_chksum_pseudo_partial LWIP_CHKSUM address (Datatypes.S fuel) p proto proto_len n src dest s = Diverge.
Proof.
  intros Hp Hd Hn. apply packet_piece in Hp as (b&->&Hne&Eb&Hh&Hlen&Hl&_). pose proof (len_nonneg d).
  unfold inet_chksum_pseudo_partial, inet_cksum_pseudo_partial_base. cbn [sum_chain_partial].
  rewrite (proj2 (Z.eqb_neq _ _)), (proj2 (Z.ltb_lt 0 n)) by (done || lia). cbn [negb andb].
  unfold mbind at 1, ST_bind at 1. rewrite (get_bind _ b) by done. rewrite Hlen, (proj2 (Z.ltb_ge n (len d))) by lia. cbv zeta.
  unfold mbind at 1, ST_bind at 1. rewrite (read_payload s b d) by (done || lia).
  assert (take (Z.to_nat (len d)) d = d) as -> by (unfold len; rewrite Nat2Z.id; by apply take_ge).
  unfold mbind at 1, ST_bind at 1, lift. rewrite (sums (f := LWIP_CHKSUM)) by done.
  rewrite u16_small by (unfold is_u16; lia). unfold mbind at 1, ST_bind at 1, LWIP_ASSERT.
  by rewrite (proj2 (Z.ltb_ge (n - len d) 0x7fff)) by lia.
Qed.
End partial.

(** ** The limit

    Beyond [0x20002] bytes the accumulator of 32 bits overflows. *)
Definition ones (n : nat) : bytes := repeat 0xff n.
Example over_the_limit : lwip_standard_chksum_2 0x20 (ones (Z.to_nat 0x20003)) 0x20003 = Done 0xfe.
Proof. by vm_compute. Qed.
Example over_the_limit_exact : in_memory (internet_sum (ones (Z.to_nat 0x20003))) = 0xff.
Proof. by vm_compute. Qed.

(** ** A concrete packet

    Seven bytes, their checksum field at offset 4: in two structures at the sender, the
    first of odd length, and in one at the receiver. *)

Module Demo.
Definition structure (next p n tot : Z) : pbuf := Pbuf next (Pointer p 0) tot n 0 0 1 0 null.
Definition sender : store unit :=
  Store {[64 := structure 128 64 3 7; 128 := structure 0 128 4 4]} {[64 := [1; 2; 3]; 128 := [4; 0; 0; 9]]} tt.
Definition sent : list (Z * bytes) := [(64, [1; 2; 3]); (128, [4; 0; 0; 9])].
Definition receiver (c : Z) : store unit :=
  Store {[256 := structure 0 256 7 7]} {[256 := [1; 2; 3; 4] ++ le16 c ++ [9]]} tt.
Definition received (c : Z) : list (Z * bytes) := [(256, [1; 2; 3; 4] ++ le16 c ++ [9])].
Definition station (n : Z) : ip_addr_t := Ip_addr (of_le32 [192; 168; 0; n]) 0 0 0 IPADDR_TYPE_V4.

Lemma sent_packet : packet sender 64 sent.
Proof.
  split_and!; [done|done|]. exists (structure 128 64 3 7). split_and!; [done| |done|done|].
  - split; [done|]. exists [1; 2; 3]. by split_and!.
  - split_and!; [done|done|]. exists (structure 0 128 4 4). split_and!; [done| |done|done|done].
    split; [done|]. exists [4; 0; 0; 9]. by split_and!.
Qed.
Lemma received_packet c : packet (receiver c) 256 (received c).
Proof.
  split_and!; [done|done|]. exists (structure 0 256 7 7). split_and!; [done| |done|done|done].
  split; [done|]. exists ([1; 2; 3; 4] ++ le16 c ++ [9]). by split_and!.
Qed.
Lemma station_ok n : is_u8 n → addr_ok (station n).
Proof. unfold is_u8, addr_ok, is_u32, station, of_le32. simpl. lia. Qed.
End Demo.

Lemma routines_agree_witness :
  lwip_standard_chksum_3 0x21 ([0x45; 0; 0x12] ++ [7]) (len [0x45; 0; 0x12]) = Done 0x57 ∧
  (len [0x45; 0; 0x12] <= 0x20002 →
     lwip_standard_chksum_1 0x21 ([0x45; 0; 0x12] ++ [7]) (len [0x45; 0; 0x12]) = Done 0x57 ∧
     lwip_standard_chksum_2 0x21 ([0x45; 0; 0x12] ++ [7]) (len [0x45; 0; 0x12]) = Done 0x57).
Proof. apply (routines_agree 0x21 [0x45; 0; 0x12] [7]). by by_compute. Defined.

Lemma verified_on_arrival_witness : ∃ c,
  ip_chksum_pseudo lwip_standard_chksum_2 offset 3 64 17 7 (Demo.station 1) (Demo.station 2) Demo.sender = Done (c, Demo.sender) ∧
  ip_chksum_pseudo lwip_standard_chksum_3 block 2 256 17 7 (Demo.station 1) (Demo.station 2) (Demo.receiver c) = Done (0, Demo.receiver c).
Proof.
  assert (∀ c, ∃ c', is_u16 c' ∧
    ip_chksum_pseudo lwip_standard_chksum_2 offset 3 64 17 7 (Demo.station 1) (Demo.station 2) Demo.sender = Done (c', Demo.sender) ∧
    (bytes_of (Demo.received c) = [1; 2; 3; 4] ++ le16 c' ++ [9] →
     ip_chksum_pseudo lwip_standard_chksum_3 block 2 256 17 7 (Demo.station 1) (Demo.station 2) (Demo.receiver c) = Done (0, Demo.receiver c))) as H.
  { intros c. apply (verified_on_arrival lwip_standard_chksum_2 lwip_standard_chksum_3 offset block 3 2 64 256 Demo.sent (Demo.received c)
      17 7 (Demo.station 1) (Demo.station 2) Demo.sender (Demo.receiver c) [1; 2; 3; 4] [9]);
      [apply Demo.sent_packet|apply Demo.received_packet|simpl; lia|simpl; lia|by by_compute|by by_compute|done|by apply Demo.station_ok
      |by apply Demo.station_ok|done|done|done]. }
  destruct (H 0) as (c&_&E&_). exists c. split; [exact E|]. destruct (H c) as (c'&_&E'&Hr). rewrite E in E'. injection E' as <-.
  apply Hr. reflexivity.
Defined.
