(* ===== verification/Ip4Addr.v ===== *)
(** * IPv4 addresses

    [stacks/tcpip/lwip/src/core/ipv4/ip4_addr.c]: addresses as text and back, network
    masks, broadcast addresses. A character is its code; a pointer to a string is the
    list of the bytes from there to the end of the object ([Prelude]). *)

From Stdlib Require Import ZArith Lia Strings.String.
From S2P Require Import Prelude Text.
Local Open Scope list_scope.
Local Open Scope Z_scope.

(** ** Operations *)

Definition IPADDR_NONE : Z := 0xffffffff.
Definition IPADDR_ANY : Z := 0.
Definition IPADDR_BROADCAST : Z := 0xffffffff.
Definition IP4ADDR_STRLEN_MAX : Z := 16.
Definition NETIF_FLAG_BROADCAST : Z := 0x02.

Definition lwip_htonl (x : Z) : Z :=
  u32 (Z.lor (Z.lor (Z.lor (Z.shiftl (Z.land x 0xff) 24) (Z.shiftl (Z.land x 0xff00) 8))
    (Z.shiftr (Z.land x 0xff0000) 8)) (Z.shiftr (Z.land x 0xff000000) 24)).

Definition lwip_in_range (c lo up : Z) : bool := (lo <=? c) && (c <=? up).
Definition lwip_isdigit (c : Z) : bool := lwip_in_range c 48 57.
Definition lwip_isxdigit (c : Z) : bool := lwip_isdigit c || lwip_in_range c 97 102 || lwip_in_range c 65 70.
Definition lwip_islower (c : Z) : bool := lwip_in_range c 97 122.
Definition lwip_isspace (c : Z) : bool := (c =? 32) || (c =? 12) || (c =? 10) || (c =? 13) || (c =? 9) || (c =? 11).

(** What the functions read of a network interface. *)
Record netif := Netif { netif_flags : Z; netif_ip4_addr : Z; netif_ip4_netmask : Z }.

Definition ip4_addr_netcmp (addr1 addr2 mask : Z) : bool := Z.land addr1 mask =? Z.land addr2 mask.
Definition ip4_addr_isbroadcast_u32 (addr : Z) (n : netif) : bool :=
  if (u32 (Z.lnot addr) =? IPADDR_ANY) || (addr =? IPADDR_ANY) then true
  else if Z.land (netif_flags n) NETIF_FLAG_BROADCAST =? 0 then false
  else if addr =? netif_ip4_addr n then false
  else ip4_addr_netcmp addr (netif_ip4_addr n) (netif_ip4_netmask n) &&
    (Z.land addr (u32 (Z.lnot (netif_ip4_netmask n))) =? Z.land IPADDR_BROADCAST (u32 (Z.lnot (netif_ip4_netmask n)))).

(** The loops over the bits of a mask: to the first zero, and on to a one behind it. *)
Fixpoint first_zero (fuel : nat) (nm mask : Z) : outcome Z :=
  match fuel with
  | O => Diverge
  | S fuel => if mask =? 0 then Done mask else if Z.land nm mask =? 0 then Done mask else first_zero fuel nm (Z.shiftr mask 1)
  end.
Fixpoint no_more_ones (fuel : nat) (nm mask : Z) : outcome bool :=
  match fuel with
  | O => Diverge
  | S fuel => if mask =? 0 then Done true else if negb (Z.land nm mask =? 0) then Done false else no_more_ones fuel nm (Z.shiftr mask 1)
  end.
Definition ip4_addr_netmask_valid (fuel : nat) (netmask : Z) : outcome bool :=
  let nm_hostorder := lwip_htonl netmask in
  mask ← first_zero fuel nm_hostorder (Z.shiftl 1 31);
  no_more_ones fuel nm_hostorder mask.

(** [*cp] *)
Definition at_ (cp : bytes) : outcome Z := load cp 0.

(** The digits of a number from [cp] on; [c] is [*cp] throughout. *)
Fixpoint number (cp : bytes) (base val : Z) : outcome (bytes * Z) :=
  match cp with
  | [] => Fault
  | c :: cp' =>
      if lwip_isdigit c then
        if (base =? 8) && (8 <=? c - 48) then Done (cp, val)
        else number cp' base (u32 (u32 (val * base) + (c - 48)))
      else if (base =? 16) && lwip_isxdigit c then
        number cp' base (Z.lor (u32 (Z.shiftl val 4)) (c + 10 - (if lwip_islower c then 97 else 65)))
      else Done (cp, val)
  end.

(** The parts before the last dots, the last part and the rest of the text; [None] for
    [return 0]. No more than three dots are passed, so four rounds are enough. *)
Fixpoint collect (fuel : nat) (cp : bytes) (parts : list Z) : outcome (option (bytes * list Z * Z)) :=
  match fuel with
  | O => Diverge
  | S fuel =>
      c ← at_ cp;
      if negb (lwip_isdigit c) then mret None
      else
        '(cp, base) ← (
          if c =? 48 then
            let cp := ptr_add cp 1 in
            c ← at_ cp;
            if (c =? 120) || (c =? 88) then mret (ptr_add cp 1, 16) else mret (cp, 8)
          else mret (cp, 10));
        '(cp, val) ← number cp base 0;
        c ← at_ cp;
        if c =? 46 then
          if 3 <=? len parts then mret None
          else collect fuel (ptr_add cp 1) (parts ++ [val])
        else mret (Some (cp, parts, val))
  end.

(** The result is [Some addr] for 1 with [addr] stored, [None] for 0. *)
Definition ip4addr_aton (cp : bytes) : outcome (option Z) :=
  r ← collect 4 cp [];
  match r with
  | None => mret None
  | Some (cp, parts, val) =>
      c ← at_ cp;
      if negb (c =? 0) && negb (lwip_isspace c) then mret None
      else
        mret (lwip_htonl <$> match parts with
          | [] => Some val
          | [p0] => if (0xffffff <? val) || (0xff <? p0) then None else Some (Z.lor val (u32 (Z.shiftl p0 24)))
          | [p0; p1] =>
              if (0xffff <? val) || (0xff <? p0) || (0xff <? p1) then None
              else Some (Z.lor val (Z.lor (u32 (Z.shiftl p0 24)) (u32 (Z.shiftl p1 16))))
          | [p0; p1; p2] =>
              if (0xff <? val) || (0xff <? p0) || (0xff <? p1) || (0xff <? p2) then None
              else Some (Z.lor val (Z.lor (Z.lor (u32 (Z.shiftl p0 24)) (u32 (Z.shiftl p1 16))) (u32 (Z.shiftl p2 8))))
          | _ => None
          end)
  end.
Definition ipaddr_addr (cp : bytes) : outcome Z :=
  v ← ip4addr_aton cp; mret (match v with Some a => a | None => IPADDR_NONE end).

(** The digits of a byte, last first: the [do] loop. *)
Fixpoint byte_digits (fuel : nat) (ap : Z) (inv : bytes) (i : Z) : outcome (bytes * Z) :=
  match fuel with
  | O => Diverge
  | S fuel =>
      let rem := ap mod 10 in
      let ap := ap / 10 in
      inv ← Prelude.store inv i (48 + rem);
      let i := u8 (i + 1) in
      if negb (ap =? 0) then byte_digits fuel ap inv i else Done (inv, i)
  end.

(** [buf] with [rp] and [len]; the first component is [false] for [return NULL]. *)
Record writer := Writer { w_buf : bytes; w_rp : Z; w_len : Z }.
Definition put_char (buflen c : Z) (w : writer) : outcome (bool * writer) :=
  let len := w_len w in
  let w := Writer (w_buf w) (w_rp w) (len + 1) in
  if buflen <=? len then mret (false, w)
  else b ← Prelude.store (w_buf w) (w_rp w) c; mret (true, Writer b (w_rp w + 1) (w_len w)).
Fixpoint put_digits (buflen : Z) (inv : bytes) (i : nat) (w : writer) : outcome (bool * writer) :=
  match i with
  | O => Done (true, w)
  | S i =>
      c ← load inv (Z.of_nat i);
      '(ok, w) ← put_char buflen c w;
      if ok : bool then put_digits buflen inv i w else Done (false, w)
  end.
Fixpoint put_bytes (buflen : Z) (ap : bytes) (inv : bytes) (w : writer) : outcome (bool * writer) :=
  match ap with
  | [] => Done (true, w)
  | b :: ap =>
      '(inv, i) ← byte_digits 3 b inv 0;
      '(ok, w) ← put_digits buflen inv (Z.to_nat i) w;
      if ok : bool then
        '(ok, w) ← put_char buflen 46 w;
        if ok : bool then put_bytes buflen ap inv w else Done (false, w)
      else Done (false, w)
  end.
Definition ip4addr_ntoa_r (addr : Z) (buf : bytes) (buflen : Z) : outcome (bool * bytes) :=
  '(ok, w) ← put_bytes buflen (le32 addr) (local_array 3) (Writer buf 0 0);
  if ok : bool then b ← Prelude.store (w_buf w) (w_rp w - 1) 0; mret (true, b) else mret (false, w_buf w).
(** [str] is the static buffer. *)
Definition ip4addr_ntoa (addr : Z) (str : bytes) : outcome (bool * bytes) := ip4addr_ntoa_r addr str IP4ADDR_STRLEN_MAX.


(** ** Bytes of an address *)

Lemma land_byte x k : 0 <= k → Z.land x (Z.shiftl 0xff k) = x / 2 ^ k mod 2 ^ 8 * 2 ^ k.
Proof.
  intros Hk. rewrite <- Z.shiftr_div_pow2, <- Z.land_ones, <- Z.shiftl_mul_pow2 by lia. change 0xff with (Z.ones 8).
  apply Z.bits_inj'. intros n Hn. rewrite Z.land_spec, !Z.shiftl_spec, Z.land_spec by done. destruct (decide (n < k)).
  - rewrite (Z.testbit_neg_r (Z.ones 8)) by lia. by rewrite !andb_false_r.
  - rewrite Z.shiftr_spec by lia. by replace (n - k + k) with n by lia.
Qed.

Lemma htonl_value x : lwip_htonl x = of_be32 (x mod 2 ^ 8) (x / 2 ^ 8 mod 2 ^ 8) (x / 2 ^ 16 mod 2 ^ 8) (x / 2 ^ 24 mod 2 ^ 8).
Proof.
  unfold lwip_htonl. pose proof (land_byte x 0 ltac:(lia)) as H0. change (Z.shiftl 0xff 0) with 0xff in H0.
  rewrite Z.pow_0_r, Z.div_1_r, Z.mul_1_r in H0.
  pose proof (land_byte x 8 ltac:(lia)) as H1. change (Z.shiftl 0xff 8) with 0xff00 in H1.
  pose proof (land_byte x 16 ltac:(lia)) as H2. change (Z.shiftl 0xff 16) with 0xff0000 in H2.
  pose proof (land_byte x 24 ltac:(lia)) as H3. change (Z.shiftl 0xff 24) with 0xff000000 in H3.
  rewrite H0, H1, H2, H3.
  pose proof (Z.mod_pos_bound x (2 ^ 8)). set (b0 := x mod 2 ^ 8) in *.
  pose proof (Z.mod_pos_bound (x / 2 ^ 8) (2 ^ 8)). set (b1 := x / 2 ^ 8 mod 2 ^ 8) in *.
  pose proof (Z.mod_pos_bound (x / 2 ^ 16) (2 ^ 8)). set (b2 := x / 2 ^ 16 mod 2 ^ 8) in *.
  pose proof (Z.mod_pos_bound (x / 2 ^ 24) (2 ^ 8)). set (b3 := x / 2 ^ 24 mod 2 ^ 8) in *.
  assert (Z.shiftl (b1 * 2 ^ 8) 8 = u32 (Z.shiftl b1 16)) as ->
    by (rewrite u32_small by (unfold is_u32; rewrite Z.shiftl_mul_pow2 by lia; lia); rewrite !Z.shiftl_mul_pow2 by lia; lia).
  assert (Z.shiftr (b2 * 2 ^ 16) 8 = u32 (Z.shiftl b2 8)) as ->.
  { rewrite u32_small by (unfold is_u32; rewrite Z.shiftl_mul_pow2 by lia; lia). rewrite Z.shiftr_div_pow2, Z.shiftl_mul_pow2 by lia.
    change (2 ^ 16) with (2 ^ 8 * 2 ^ 8). by rewrite Z.mul_assoc, Z.div_mul by lia. }
  assert (Z.shiftr (b3 * 2 ^ 24) 24 = b3) as -> by (rewrite Z.shiftr_div_pow2 by lia; by rewrite Z.div_mul by lia).
  assert (Z.shiftl b0 24 = u32 (Z.shiftl b0 24)) as -> by (by rewrite u32_small by (unfold is_u32; rewrite Z.shiftl_mul_pow2 by lia; lia)).
  rewrite lor_be32 by (unfold is_u8; lia). apply u32_small, of_be32_range; unfold is_u8; lia.
Qed.

Lemma htonl_of_be32 a b c d : is_u8 a → is_u8 b → is_u8 c → is_u8 d → lwip_htonl (of_be32 a b c d) = of_le32 [a; b; c; d].
Proof.
  unfold is_u8. intros Ha Hb Hc Hd. rewrite htonl_value. unfold of_be32, of_le32. set (x := a * 2 ^ 24 + b * 2 ^ 16 + c * 2 ^ 8 + d).
  assert (x mod 2 ^ 8 = d) as -> by (symmetry; apply Z.mod_unique with (a * 2 ^ 16 + b * 2 ^ 8 + c); unfold x; lia).
  assert (x / 2 ^ 8 = a * 2 ^ 16 + b * 2 ^ 8 + c) as -> by (symmetry; apply Z.div_unique with d; unfold x; lia).
  assert (x / 2 ^ 16 = a * 2 ^ 8 + b) as -> by (symmetry; apply Z.div_unique with (c * 2 ^ 8 + d); unfold x; lia).
  assert (x / 2 ^ 24 = a) as -> by (symmetry; apply Z.div_unique with (b * 2 ^ 16 + c * 2 ^ 8 + d); unfold x; lia).
  assert ((a * 2 ^ 16 + b * 2 ^ 8 + c) mod 2 ^ 8 = c) as -> by (symmetry; apply Z.mod_unique with (a * 2 ^ 8 + b); lia).
  assert ((a * 2 ^ 8 + b) mod 2 ^ 8 = b) as -> by (symmetry; apply Z.mod_unique with a; lia).
  rewrite Z.mod_small by lia. lia.
Qed.

Lemma le32_bytes x : is_u32 x → ∃ a b c d, is_u8 a ∧ is_u8 b ∧ is_u8 c ∧ is_u8 d ∧ le32 x = [a; b; c; d] ∧ of_le32 [a; b; c; d] = x.
Proof.
  intros Hx. do 4 eexists. split_and!; [| | | |reflexivity|].
  1-4: apply Z.mod_pos_bound; lia.
  pose proof (of_le32_le32 x [] Hx) as E. by rewrite app_nil_r in E.
Qed.

(** ** Decimal bytes *)

Inductive dec_form (b : Z) : bytes → Prop :=
  | dec_form1 : 0 <= b < 10 → dec_form b [48 + b]
  | dec_form2 x y : 1 <= x < 10 → 0 <= y < 10 → b = 10 * x + y → dec_form b [48 + x; 48 + y]
  | dec_form3 x y z : 1 <= x < 3 → 0 <= y < 10 → 0 <= z < 10 → b = 100 * x + 10 * y + z → dec_form b [48 + x; 48 + y; 48 + z].

Lemma dec_is b : is_u8 b → dec_form b (dec b).
Proof.
  unfold is_u8, dec. intros Hb. pose proof (Z.div_mod b 10). pose proof (Z.mod_pos_bound b 10).
  pose proof (Z.div_mod (b / 10) 10). pose proof (Z.mod_pos_bound (b / 10) 10).
  cbn [dec_digits]. destruct (Z.ltb_spec b 10); [rewrite Z.mod_small by lia; apply dec_form1; lia|].
  destruct (Z.ltb_spec (b / 10) 10); [rewrite (Z.mod_small (b / 10)) by lia; apply (dec_form2 b (b / 10) (b mod 10)); lia|].
  destruct (Z.ltb_spec (b / 10 / 10) 10); [|lia]. rewrite (Z.mod_small (b / 10 / 10)) by lia. apply dec_form3; lia.
Qed.

Lemma dec_len b : is_u8 b → 1 <= len (dec b) <= 3.
Proof. intros Hb. destruct (dec_is b Hb); unfold len; simpl; lia. Qed.

(** The digits as [byte_digits] leaves them. *)
Lemma byte_digits_spec b inv : is_u8 b → length inv = 3%nat → ∃ inv' i, byte_digits 3 b inv 0 = Done (inv', Z.of_nat i) ∧
  length inv' = 3%nat ∧ (i <= 3)%nat ∧ rev (take i inv') = dec b.
Proof.
  intros Hb Hl. destruct inv as [|p [|q [|r [|]]]]; try done. unfold is_u8 in Hb.
  assert (∀ x, 0 <= x < 10 → x mod 10 = x ∧ x / 10 = 0) as Hsmall by (intros x Hx; split; [by apply Z.mod_small|by apply Z.div_small]).
  assert (∀ x y, 0 <= y < 10 → (10 * x + y) mod 10 = y ∧ (10 * x + y) / 10 = x) as Hstep.
  { intros x y Hy. split; symmetry; [apply Z.mod_unique with x; lia|apply Z.div_unique with y; lia]. }
  destruct (dec_is b Hb) as [H|x y Hx Hy E|x y z Hx Hy Hz E]; cbn [byte_digits].
  - destruct (Hsmall b H) as [-> ->]. exists [48 + b; q; r], 1%nat. split_and!; [reflexivity|done|lia|done].
  - rewrite E. destruct (Hstep x y Hy) as [-> ->]. destruct (Hsmall x ltac:(lia)) as [-> ->].
    change (store [p; q; r] 0 (48 + y)) with (Done [48 + y; q; r]). cbn [mbind outcome_bind]. change (u8 (0 + 1)) with 1.
    rewrite (proj2 (Z.eqb_neq x 0)) by lia. cbn [negb]. exists [48 + y; 48 + x; r], 2%nat. split_and!; [reflexivity|done|lia|done].
  - assert (b = 10 * (10 * x + y) + z) as -> by lia. destruct (Hstep (10 * x + y) z Hz) as [-> ->].
    destruct (Hstep x y Hy) as [-> ->]. destruct (Hsmall x ltac:(lia)) as [-> ->].
    change (store [p; q; r] 0 (48 + z)) with (Done [48 + z; q; r]). cbn [mbind outcome_bind]. change (u8 (0 + 1)) with 1.
    rewrite (proj2 (Z.eqb_neq (10 * x + y) 0)) by lia. cbn [negb].
    change (store [48 + z; q; r] 1 (48 + y)) with (Done [48 + z; 48 + y; r]). cbn [mbind outcome_bind]. change (u8 (1 + 1)) with 2.
    rewrite (proj2 (Z.eqb_neq x 0)) by lia. cbn [negb]. exists [48 + z; 48 + y; 48 + x], 3%nat. split_and!; [reflexivity|done|lia|done].
Qed.

(** ** Printing *)

(** The text of an address, with a dot behind every byte, and without the last one. *)
Definition dotted (q : bytes) : bytes := concat ((λ b, dec b ++ [46]) <$> q).
Definition quad (a b c d : Z) : bytes := dec a ++ 46 :: dec b ++ 46 :: dec c ++ 46 :: dec d.

Lemma dotted_quad a b c d : dotted [a; b; c; d] = quad a b c d ++ [46].
Proof. unfold dotted, quad. simpl. rewrite !app_nil_r. repeat (rewrite <- app_assoc; simpl). done. Qed.

Lemma quad_len a b c d : is_u8 a → is_u8 b → is_u8 c → is_u8 d → 7 <= len (quad a b c d) <= 15.
Proof.
  intros Ha Hb Hc Hd. pose proof (dec_len a Ha). pose proof (dec_len b Hb). pose proof (dec_len c Hc). pose proof (dec_len d Hd).
  unfold quad. autorewrite with len. lia.
Qed.

(** Writing a text character by character. *)
Fixpoint put_text (buflen : Z) (t : bytes) (w : writer) : outcome (bool * writer) :=
  match t with
  | [] => Done (true, w)
  | c :: t => '(ok, w) ← put_char buflen c w; if ok : bool then put_text buflen t w else Done (false, w)
  end.

Lemma put_text_app buflen t1 t2 w : put_text buflen (t1 ++ t2) w =
  ('(ok, w) ← put_text buflen t1 w; if ok : bool then put_text buflen t2 w else Done (false, w)).
Proof.
  revert w. induction t1 as [|c t1 IH]; intros w; [done|]. cbn [app put_text].
  destruct (put_char buflen c w) as [[[] w']| |]; cbn [mbind outcome_bind]; [apply IH|done..].
Qed.

Lemma put_digits_text buflen inv i w : (i <= length inv)%nat → put_digits buflen inv i w = put_text buflen (rev (take i inv)) w.
Proof.
  revert w. induction i as [|i IH]; intros w Hi; [done|]. cbn [put_digits]. destruct (lookup_lt_is_Some_2 inv i ltac:(lia)) as [c Hc].
  rewrite (take_S_r _ _ c) by done. rewrite rev_app_distr. cbn [rev app put_text].
  unfold load. rewrite (proj2 (Z.leb_le 0 (Z.of_nat i))) by lia. rewrite Nat2Z.id, Hc. cbn [mbind outcome_bind].
  destruct (put_char buflen c w) as [[[] w']| |]; cbn [mbind outcome_bind]; [apply IH; lia|done..].
Qed.

Lemma put_bytes_text buflen q inv w : bytes_ok q → length inv = 3%nat → put_bytes buflen q inv w = put_text buflen (dotted q) w.
Proof.
  intros Hq. revert inv w. induction Hq as [|b q Hb Hq IH]; intros inv w Hl; [done|]. cbn [put_bytes].
  destruct (byte_digits_spec b inv Hb Hl) as (inv'&i&->&Hl'&Hi&Hr). cbn [mbind outcome_bind]. rewrite Nat2Z.id, put_digits_text, Hr by lia.
  change (dotted (b :: q)) with ((dec b ++ [46]) ++ dotted q). rewrite <- app_assoc, put_text_app.
  destruct (put_text buflen (dec b) w) as [[[] w1]| |]; cbn [mbind outcome_bind app put_text]; [|done..].
  destruct (put_char buflen 46 w1) as [[[] w2]| |]; cbn [mbind outcome_bind]; [by apply IH|done..].
Qed.

(** [l] has been written in front of [r]. *)
Lemma put_text_spec buflen t l r : len l <= buflen <= len (l ++ r) →
  let w := Writer (l ++ r) (len l) (len l) in
  if len l + len t <=? buflen
  then put_text buflen t w = Done (true, Writer ((l ++ t) ++ drop (length t) r) (len (l ++ t)) (len (l ++ t)))
  else ∃ w', put_text buflen t w = Done (false, w') ∧ len (w_buf w') = len (l ++ r) ∧
    drop (Z.to_nat buflen) (w_buf w') = drop (Z.to_nat buflen) (l ++ r).
Proof.
  revert l r. induction t as [|c t IH]; intros l r Hb w.
  - rewrite len_nil, app_nil_r, (proj2 (Z.leb_le _ _)) by lia. done.
  - rewrite len_cons. pose proof (len_nonneg t). unfold w. cbn [put_text]. unfold put_char. cbn [w_len w_rp w_buf].
    destruct (Z.leb_spec buflen (len l)) as [Hfull|Hfull].
    + rewrite (proj2 (Z.leb_gt _ _)) by lia. cbn [mbind outcome_bind mret outcome_ret]. by eexists.
    + rewrite len_app in Hb. destruct r as [|x r]; [rewrite len_nil in Hb; lia|].
      assert (store (l ++ x :: r) (len l) c = Done ((l ++ [c]) ++ r)) as ->.
      { unfold store. rewrite (proj2 (Z.leb_le 0 (len l))), (proj2 (Z.ltb_lt (len l) (len (l ++ x :: r)))) by (rewrite ?len_app, ?len_cons; pose proof (len_nonneg l); pose proof (len_nonneg r); lia).
        cbn [andb]. f_equal. unfold len. rewrite Nat2Z.id, insert_app_r_alt, Nat.sub_diag by lia. simpl. by rewrite <- app_assoc. }
      cbn [mbind outcome_bind mret outcome_ret]. rewrite len_cons in Hb.
      assert (len l + 1 = len (l ++ [c])) as -> by (by rewrite len_app).
      specialize (IH (l ++ [c]) r). cbv zeta in IH. rewrite !len_app in IH. change (len [c]) with 1 in IH.
      replace (len l + (1 + len t)) with (len l + 1 + len t) by lia. rewrite len_app. change (len [c]) with 1.
      specialize (IH ltac:(lia)). destruct (len l + 1 + len t <=? buflen).
      * rewrite IH. cbn [length drop]. do 3 f_equal; rewrite <- ?app_assoc; rewrite ?len_app; cbn [app]; rewrite ?len_cons; try done; change (len [c]) with 1; lia.
      * destruct IH as (w'&E&E1&E2). exists w'. split_and!; [exact E|rewrite E1, len_app, len_cons; lia|].
        rewrite E2, <- app_assoc. cbn [app]. rewrite !drop_app. f_equal. unfold len in *.
        destruct (Z.to_nat buflen - length l)%nat eqn:En; [lia|done].
Qed.

Theorem ntoa_prints a b c d buf buflen : is_u8 a → is_u8 b → is_u8 c → is_u8 d → 0 <= buflen <= len buf →
  if len (quad a b c d) <? buflen
  then ip4addr_ntoa_r (of_le32 [a; b; c; d]) buf buflen = Done (true, quad a b c d ++ 0 :: drop (length (quad a b c d) + 1) buf)
  else ∃ buf', ip4addr_ntoa_r (of_le32 [a; b; c; d]) buf buflen = Done (false, buf') ∧ len buf' = len buf ∧
    drop (Z.to_nat buflen) buf' = drop (Z.to_nat buflen) buf.
Proof.
  intros Ha Hb Hc Hd Hl. assert (le32 (of_le32 [a; b; c; d]) = [a; b; c; d]) as Hq.
  { unfold is_u8 in *. unfold le32, of_le32.
    set (x := a + b * 2 ^ 8 + c * 2 ^ 16 + d * 2 ^ 24).
    assert (x / 2 ^ 8 = b + c * 2 ^ 8 + d * 2 ^ 16) as -> by (symmetry; apply Z.div_unique with a; unfold x; lia).
    assert (x / 2 ^ 16 = c + d * 2 ^ 8) as -> by (symmetry; apply Z.div_unique with (a + b * 2 ^ 8); unfold x; lia).
    assert (x / 2 ^ 24 = d) as -> by (symmetry; apply Z.div_unique with (a + b * 2 ^ 8 + c * 2 ^ 16); unfold x; lia).
    repeat f_equal; symmetry; [apply Z.mod_unique with (b + c * 2 ^ 8 + d * 2 ^ 16)|apply Z.mod_unique with (c + d * 2 ^ 8)
      |apply Z.mod_unique with d|apply Z.mod_unique with 0]; unfold x; lia. }
  unfold ip4addr_ntoa_r. rewrite Hq, put_bytes_text by (try done; unfold bytes_ok; by rewrite !Forall_cons).
  pose proof (put_text_spec buflen (dotted [a; b; c; d]) [] buf Hl) as Hput. cbv zeta in Hput. change (len (@nil Z)) with 0 in Hput. rewrite Z.add_0_l in Hput.
  cbn [app] in Hput. rewrite dotted_quad in Hput |- *. set (t := quad a b c d) in *. rewrite len_app in Hput. change (len [46]) with 1 in Hput.
  assert ((len t + 1 <=? buflen) = (len t <? buflen)) as E by (destruct (Z.leb_spec (len t + 1) buflen), (Z.ltb_spec (len t) buflen); lia).
  rewrite E in Hput. destruct (Z.ltb_spec (len t) buflen) as [Hlt|Hge].
  - rewrite Hput. cbn [mbind outcome_bind w_buf w_rp]. replace (len t + 1 - 1) with (len t) by lia. rewrite <- (app_assoc t). cbn [app].
    assert (store (t ++ 46 :: drop (length (t ++ [46])) buf) (len t) 0 = Done (t ++ 0 :: drop (length t + 1) buf)) as ->; [|done].
    unfold store. rewrite (proj2 (Z.leb_le _ _)) by apply len_nonneg. rewrite (proj2 (Z.ltb_lt _ _)) by (rewrite len_app, len_cons; pose proof (len_nonneg (drop (length (t ++ [46])) buf)); lia).
    cbn [andb]. f_equal. unfold len. rewrite Nat2Z.id, insert_app_r_alt, Nat.sub_diag, length_app by lia. done.
  - destruct Hput as (w'&->&H1&H2). cbn [mbind outcome_bind]. by exists (w_buf w').
Qed.

(** ** Reading *)

Lemma number_digit x r base v : 0 <= x < 10 → base = 10 ∨ base = 16 ∨ base = 8 ∧ x < 8 →
  number ((48 + x) :: r) base v = number r base (u32 (u32 (v * base) + x)).
Proof.
  intros Hx Hbase. cbn [number]. unfold lwip_isdigit, lwip_in_range. rewrite (proj2 (Z.leb_le _ _)), (proj2 (Z.leb_le _ _)) by lia. cbn [andb].
  assert ((base =? 8) && (8 <=? 48 + x - 48) = false) as ->.
  { apply andb_false_iff. destruct Hbase as [->|[->|[-> Hx8]]]; [by left|by left|right; apply Z.leb_gt; lia]. }
  do 2 f_equal. lia.
Qed.

Lemma number_stop c r base v : lwip_isxdigit c = false → number (c :: r) base v = Done (c :: r, v).
Proof.
  intros Hc. cbn [number]. rewrite Hc, andb_false_r. unfold lwip_isxdigit in Hc. apply orb_false_iff in Hc as [Hc _].
  apply orb_false_iff in Hc as [-> _]. done.
Qed.

(** A decimal byte and the character behind it, a dot or the end. *)
Lemma collect_byte fuel b c r parts : is_u8 b → c = 46 ∨ c = 0 →
  collect (S fuel) (dec b ++ c :: r) parts =
    if c =? 46 then if 3 <=? len parts then Done None else collect fuel r (parts ++ [b]) else Done (Some (c :: r, parts, b)).
Proof.
  intros Hb Hc. assert (lwip_isxdigit c = false) as Hx by (by destruct Hc as [-> | ->]).
  assert (∀ x t, 0 <= x < 10 → number (t ++ c :: r) 10 (u32 (u32 (0 * 10) + x)) = Done (c :: r, b) → 1 <= x → dec b = (48 + x) :: t →
    collect (S fuel) (dec b ++ c :: r) parts =
      if c =? 46 then if 3 <=? len parts then Done None else collect fuel r (parts ++ [b]) else Done (Some (c :: r, parts, b))) as Hfirst.
  { intros x t Hx10 Hn H1 E. rewrite E. cbn [collect app]. change (at_ ((48 + x) :: t ++ c :: r)) with (Done (48 + x)). cbn [mbind outcome_bind].
    assert (lwip_isdigit (48 + x) = true) as -> by (unfold lwip_isdigit, lwip_in_range; by rewrite (proj2 (Z.leb_le _ _)), (proj2 (Z.leb_le _ _)) by lia).
    cbn [negb]. rewrite (proj2 (Z.eqb_neq (48 + x) 48)) by lia. cbn [mbind outcome_bind mret outcome_ret].
    rewrite number_digit, Hn by lia. cbn [mbind outcome_bind]. change (at_ (c :: r)) with (Done c). by cbn [mbind outcome_bind]. }
  assert (∀ x, 0 <= x < 10 → u32 (u32 (0 * 10) + x) = x) as H0 by (intros x Hx10; change (u32 (0 * 10)) with 0; apply u32_small; unfold is_u32; lia).
  assert (∀ v x, 0 <= v < 100 → 0 <= x < 10 → u32 (u32 (v * 10) + x) = 10 * v + x) as Hstep.
  { intros v x Hv Hx10. rewrite (u32_small (v * 10)) by (unfold is_u32; lia). rewrite u32_small by (unfold is_u32; lia). lia. }
  destruct (dec_is b Hb) as [Hs|x y Hx1 Hy E|x y z Hx1 Hy Hz E].
  - destruct (decide (b = 0)) as [->|Hne].
    + by destruct Hc as [-> | ->].
    + apply (Hfirst b []); [done| |lia|done]. rewrite H0 by lia. cbn [app]. by rewrite number_stop.
  - apply (Hfirst x [48 + y]); [lia| |lia|done]. rewrite H0 by lia. cbn [app].
    rewrite number_digit, Hstep, number_stop by (done || lia). by rewrite E.
  - apply (Hfirst x [48 + y; 48 + z]); [lia| |lia|done]. rewrite H0 by lia. cbn [app].
    rewrite number_digit, Hstep, number_digit, Hstep, number_stop by (done || lia). do 3 f_equal. lia.
Qed.

Lemma aton_reads a b c d rest : is_u8 a → is_u8 b → is_u8 c → is_u8 d →
  ip4addr_aton (quad a b c d ++ 0 :: rest) = Done (Some (of_le32 [a; b; c; d])).
Proof.
  intros Ha Hb Hc Hd. unfold ip4addr_aton, quad.
  assert ((dec a ++ 46 :: dec b ++ 46 :: dec c ++ 46 :: dec d) ++ 0 :: rest =
    dec a ++ 46 :: dec b ++ 46 :: dec c ++ 46 :: dec d ++ 0 :: rest) as -> by (repeat (rewrite <- app_assoc; cbn [app]); done).
  do 4 (rewrite collect_byte by (done || lia); cbn [Z.eqb Pos.eqb app]; try change (3 <=? len _) with false).
  cbn [mbind outcome_bind]. change (at_ (0 :: rest)) with (Done 0). cbn [mbind outcome_bind Z.eqb negb andb mret outcome_ret].
  unfold is_u8 in *.
  rewrite (proj2 (Z.ltb_ge 0xff a)), (proj2 (Z.ltb_ge 0xff b)), (proj2 (Z.ltb_ge 0xff c)), (proj2 (Z.ltb_ge 0xff d)) by lia. cbn [orb fmap option_fmap option_map].
  rewrite Z.lor_comm, lor_be32 by done. by rewrite htonl_of_be32.
Qed.

(** C35 (roundtrip): Every address is printed into a buffer of [IP4ADDR_STRLEN_MAX] bytes or more, which is
    left alone behind those, and reading the text gives the address again. *)
Theorem text_roundtrip addr buf buflen : is_u32 addr → IP4ADDR_STRLEN_MAX <= buflen <= len buf →
  ∃ buf', ip4addr_ntoa_r addr buf buflen = Done (true, buf') ∧ len buf' = len buf ∧
    drop (Z.to_nat IP4ADDR_STRLEN_MAX) buf' = drop (Z.to_nat IP4ADDR_STRLEN_MAX) buf ∧ ip4addr_aton buf' = Done (Some addr).
Proof.
  unfold IP4ADDR_STRLEN_MAX. intros Ha Hl. destruct (le32_bytes addr Ha) as (a&b&c&d&Hua&Hub&Huc&Hud&_&<-).
  pose proof (quad_len a b c d Hua Hub Huc Hud) as Hq. pose proof (ntoa_prints a b c d buf buflen Hua Hub Huc Hud ltac:(lia)) as Hp.
  rewrite (proj2 (Z.ltb_lt (len (quad a b c d)) buflen)) in Hp by lia. set (t := quad a b c d) in *. eexists. split; [exact Hp|].
  split; [|split; [|by apply aton_reads]].
  - rewrite len_app, len_cons, len_drop_nat by (unfold len in *; lia). unfold len in *. lia.
  - rewrite drop_app, (drop_ge t), app_nil_l by (unfold len in Hq; lia). unfold len in Hq.
    destruct (Z.to_nat 16 - length t)%nat as [|k] eqn:E; [lia|]. cbn [drop]. rewrite drop_drop. f_equal. lia.
Qed.

(** Numbers wrap: a text that names no address is read as one. *)
Example aton_wraps : ip4addr_aton (literal "4294967297.1.1.1"%string ++ [0]) = ip4addr_aton (literal "1.1.1.1"%string ++ [0]).
Proof. reflexivity. Qed.
Example aton_empty_hex : ip4addr_aton (literal "0x"%string ++ [0]) = Done (Some 0).
Proof. reflexivity. Qed.

Lemma text_roundtrip_witness : ∃ buf', ip4addr_ntoa_r (of_le32 [192; 168; 0; 200]) (local_array 20) 16 = Done (true, buf') ∧
  take 14 buf' = literal "192.168.0.200"%string ++ [0] ∧ ip4addr_aton buf' = Done (Some (of_le32 [192; 168; 0; 200])).
Proof.
  destruct (text_roundtrip (of_le32 [192; 168; 0; 200]) (local_array 20) 16) as (buf'&E&_&_&H); [by by_compute|by by_compute|].
  exists buf'. split; [exact E|]. split; [|exact H].
  assert (ip4addr_ntoa_r (of_le32 [192; 168; 0; 200]) (local_array 20) 16 = Done (true, literal "192.168.0.200"%string ++ [0; 0; 0; 0; 0; 0; 0])) as E' by by vm_compute.
  rewrite E' in E. by injection E as <-.
Defined.

(** ** Masks *)

(** A mask of [k] host bits. *)
Definition mask_of (k : Z) : Z := 2 ^ 32 - 2 ^ k.

Lemma mask_bits k n : 0 <= k <= 32 → 0 <= n → Z.testbit (mask_of k) n = (k <=? n) && (n <? 32).
Proof.
  intros Hk Hn. assert (mask_of k = Z.shiftl (Z.ones (32 - k)) k) as ->.
  { unfold mask_of. rewrite Z.shiftl_mul_pow2, Z.ones_equiv by lia. rewrite <- Z.sub_1_r, Z.mul_sub_distr_r, <- Z.pow_add_r by lia.
    replace (32 - k + k) with 32 by lia. lia. }
  rewrite Z.shiftl_spec by done. destruct (Z.leb_spec k n).
  - rewrite Z.testbit_ones_nonneg by lia. destruct (Z.ltb_spec (n - k) (32 - k)), (Z.ltb_spec n 32); (done || lia).
  - by rewrite Z.testbit_neg_r by lia.
Qed.

Lemma bit_test x i : 0 <= i → (Z.land x (2 ^ i) =? 0) = negb (Z.testbit x i).
Proof.
  intros Hi. destruct (Z.eqb_spec (Z.land x (2 ^ i)) 0) as [E|E].
  - assert (Z.testbit (Z.land x (2 ^ i)) i = false) as H by (rewrite E; apply Z.bits_0).
    rewrite Z.land_spec, Z.pow2_bits_true, andb_true_r in H by done. by rewrite H.
  - destruct (Z.testbit x i) eqn:Eb; [done|]. destruct E. apply Z.bits_inj'. intros n Hn. rewrite Z.land_spec, Z.bits_0.
    destruct (decide (n = i)) as [->|Hne]; [by rewrite Eb|]. rewrite Z.pow2_bits_false by lia. apply andb_false_r.
Qed.

Lemma halve i : 0 < i → Z.shiftr (2 ^ i) 1 = 2 ^ (i - 1).
Proof. intros Hi. rewrite Z.shiftr_div_pow2 by lia. replace i with (i - 1 + 1) at 1 by lia. by rewrite Z.pow_add_r, Z.div_mul by lia. Qed.

(** The bit that [first_zero] stops at: the highest zero from [i] down. *)
Lemma first_zero_spec fuel nm i : 0 <= i → i + 1 < Z.of_nat fuel → (∃ j, first_zero fuel nm (2 ^ i) = Done (2 ^ j) ∧ 0 <= j <= i ∧
    Z.testbit nm j = false ∧ ∀ n, j < n <= i → Z.testbit nm n = true) ∨
  first_zero fuel nm (2 ^ i) = Done 0 ∧ ∀ n, 0 <= n <= i → Z.testbit nm n = true.
Proof.
  revert i. induction fuel as [|fuel IH]; intros i Hi Hf; [lia|]. cbn [first_zero].
  rewrite (proj2 (Z.eqb_neq (2 ^ i) 0)) by (pose proof (Z.pow_pos_nonneg 2 i); lia). rewrite bit_test by done.
  destruct (Z.testbit nm i) eqn:E; cbn [negb].
  2: { left. exists i. split_and!; [done|lia|lia|done|lia]. }
  destruct (decide (i = 0)) as [->|Hne].
  - right. destruct fuel; [lia|]. split; [done|]. intros n Hn. by replace n with 0 by lia.
  - rewrite halve by lia. destruct (IH (i - 1) ltac:(lia) ltac:(lia)) as [(j&E1&Hj&Hz&Ho)|[E1 Ho]].
    + left. exists j. split_and!; [done|lia|lia|done|]. intros n Hn. destruct (decide (n = i)) as [->|]; [done|]. apply Ho. lia.
    + right. split; [done|]. intros n Hn. destruct (decide (n = i)) as [->|]; [done|]. apply Ho. lia.
Qed.

Lemma no_more_ones_spec fuel nm i : 0 <= i → i + 1 < Z.of_nat fuel → ∃ r, no_more_ones fuel nm (2 ^ i) = Done r ∧
  (r = true ↔ ∀ n, 0 <= n <= i → Z.testbit nm n = false).
Proof.
  revert i. induction fuel as [|fuel IH]; intros i Hi Hf; [lia|]. cbn [no_more_ones].
  rewrite (proj2 (Z.eqb_neq (2 ^ i) 0)) by (pose proof (Z.pow_pos_nonneg 2 i); lia). rewrite bit_test by done.
  destruct (Z.testbit nm i) eqn:E; cbn [negb].
  { exists false. split; [done|]. split; [done|]. intros H. specialize (H i ltac:(lia)). congruence. }
  destruct (decide (i = 0)) as [->|Hne].
  - destruct fuel; [lia|]. exists true. split; [done|]. split; [|done]. intros _ n Hn. by replace n with 0 by lia.
  - rewrite halve by lia. destruct (IH (i - 1) ltac:(lia) ltac:(lia)) as (r&E1&Hr). exists r. split; [done|]. rewrite Hr. split; intros H n Hn.
    + destruct (decide (n = i)) as [->|]; [done|]. apply H. lia.
    + apply H. lia.
Qed.

(** A network mask is valid if and only if, in host order, it is ones followed by zeros. *)
Theorem netmask_valid_spec fuel netmask : (32 < fuel)%nat → ∃ r, ip4_addr_netmask_valid fuel netmask = Done r ∧
  (r = true ↔ ∃ k, 0 <= k <= 32 ∧ lwip_htonl netmask = mask_of k).
Proof.
  intros Hf. unfold ip4_addr_netmask_valid. cbv zeta. set (nm := lwip_htonl netmask). change (Z.shiftl 1 31) with (2 ^ 31).
  assert (is_u32 nm) as Hnm by apply u32_range.
  assert (∀ k, 0 <= k <= 32 → (∀ n, 0 <= n < 32 → Z.testbit nm n = (k <=? n)) → nm = mask_of k) as Hbits.
  { intros k Hk H. apply Z.bits_inj'. intros n Hn. rewrite mask_bits by done. destruct (Z.ltb_spec n 32); [by rewrite andb_true_r, H|].
    rewrite andb_false_r. rewrite <- (Z.mod_small nm (2 ^ 32)) by done. apply Z.mod_pow2_bits_high. lia. }
  destruct (first_zero_spec fuel nm 31 ltac:(lia) ltac:(lia)) as [(j&->&Hj&Hz&Ho)|[-> Ho]]; cbn [mbind outcome_bind].
  - destruct (no_more_ones_spec fuel nm j ltac:(lia) ltac:(lia)) as (r&->&Hr). exists r. split; [done|]. rewrite Hr. split.
    + intros H. exists (j + 1). split; [lia|]. apply Hbits; [lia|]. intros n Hn. destruct (Z.leb_spec (j + 1) n); [apply Ho; lia|apply H; lia].
    + intros (k&Hk&->) n Hn. rewrite mask_bits in Hz |- * by lia. rewrite (proj2 (Z.ltb_lt j 32)), andb_true_r in Hz by lia.
      apply Z.leb_gt in Hz. rewrite (proj2 (Z.leb_gt k n)) by lia. done.
  - destruct fuel; [lia|]. exists true. split; [done|]. split; [|done]. intros _. exists 0. split; [lia|]. apply Hbits; [lia|].
    intros n Hn. rewrite Ho by lia. symmetry. apply Z.leb_le. lia.
Qed.

(** ** Broadcast addresses *)

Lemma not_bits m n : 0 <= n → Z.testbit (u32 (Z.lnot m)) n = (n <? 32) && negb (Z.testbit m n).
Proof.
  intros Hn. unfold u32. destruct (Z.ltb_spec n 32).
  - by rewrite Z.mod_pow2_bits_low, Z.lnot_spec by lia.
  - by rewrite Z.mod_pow2_bits_high by lia.
Qed.
Lemma high_bits x n : is_u32 x → 32 <= n → Z.testbit x n = false.
Proof. intros Hx Hn. rewrite <- (Z.mod_small x (2 ^ 32)) by done. apply Z.mod_pow2_bits_high. lia. Qed.

(** On the network of the interface: the network's bits and ones behind them. *)
Lemma host_bits_ones addr own mask : is_u32 addr → is_u32 own → is_u32 mask →
  ip4_addr_netcmp addr own mask && (Z.land addr (u32 (Z.lnot mask)) =? Z.land IPADDR_BROADCAST (u32 (Z.lnot mask))) = true ↔
  addr = Z.lor (Z.land own mask) (u32 (Z.lnot mask)).
Proof.
  intros Ha Ho Hm. unfold ip4_addr_netcmp. rewrite andb_true_iff, !Z.eqb_eq.
  assert (∀ n, 0 <= n < 32 → Z.testbit IPADDR_BROADCAST n = true) as Hb.
  { intros n Hn. change IPADDR_BROADCAST with (Z.ones 32). by apply Z.ones_spec_low. }
  split.
  - intros [E1 E2]. apply Z.bits_inj'. intros n Hn. destruct (Z.ltb_spec n 32) as [Hlt|Hge].
    2: { rewrite Z.lor_spec, Z.land_spec, not_bits, !high_bits by done. by rewrite (proj2 (Z.ltb_ge n 32)). }
    apply (f_equal (λ x, Z.testbit x n)) in E1. apply (f_equal (λ x, Z.testbit x n)) in E2. rewrite !Z.land_spec in E1. rewrite !Z.land_spec, not_bits, Hb in E2 by done.
    rewrite Z.lor_spec, Z.land_spec, not_bits by done. rewrite (proj2 (Z.ltb_lt n 32)) in E2 |- * by done.
    destruct (Z.testbit addr n), (Z.testbit own n), (Z.testbit mask n); done.
  - intros ->. split; apply Z.bits_inj'; intros n Hn; rewrite !Z.land_spec, Z.lor_spec, Z.land_spec, not_bits by done;
      (destruct (Z.ltb_spec n 32); [rewrite ?Hb by lia|rewrite (high_bits mask) by done]);
      cbn [andb]; rewrite ?andb_false_r; destruct (Z.testbit own n), (Z.testbit mask n); done.
Qed.

Theorem broadcast_addresses addr n : is_u32 addr → is_u32 (netif_ip4_addr n) → is_u32 (netif_ip4_netmask n) →
  ip4_addr_isbroadcast_u32 addr n = true ↔
  addr = 0 ∨ addr = 2 ^ 32 - 1 ∨
  Z.land (netif_flags n) NETIF_FLAG_BROADCAST ≠ 0 ∧ addr ≠ netif_ip4_addr n ∧
    addr = Z.lor (Z.land (netif_ip4_addr n) (netif_ip4_netmask n)) (u32 (Z.lnot (netif_ip4_netmask n))).
Proof.
  intros Ha Ho Hm. unfold ip4_addr_isbroadcast_u32, IPADDR_ANY.
  assert (u32 (Z.lnot addr) = 2 ^ 32 - 1 - addr) as ->.
  { unfold is_u32 in Ha. unfold u32, Z.lnot. symmetry. apply Z.mod_unique with (-1); lia. }
  destruct (Z.eqb_spec (2 ^ 32 - 1 - addr) 0) as [E|E]; [split; [intros _; right; left; lia|done]|].
  destruct (Z.eqb_spec addr 0) as [E0|E0]; [split; [by left|done]|]. cbn [orb].
  destruct (Z.eqb_spec (Z.land (netif_flags n) NETIF_FLAG_BROADCAST) 0) as [Ef|Ef]; [split; [done|intros [?|[?|(?&_)]]; lia]|].
  destruct (Z.eqb_spec addr (netif_ip4_addr n)) as [En|En]; [split; [done|intros [?|[?|(_&?&_)]]; lia]|].
  rewrite host_bits_ones by done. split; [intros ->; right; right; by split_and!|intros [?|[?|(_&_&?)]]; (done || lia)].
Qed.
