(* ===== verification/EthPort.v ===== *)
(** * The Ethernet port of lwIP

    [stacks/tcpip/code/ports/netif/ethif/rtd/ethif_port.c] with an operating system
    ([NO_SYS] is 0) and frames of several buffers ([EthSendMultiBufferFrameApi] of the
    board's configuration). A frame is sent by giving the driver the payload pointers of a
    packet; the port keeps a reference of the packet in [tx_pbufs] until a confirmation. A
    received frame is wrapped into a custom packet buffer of [RX_POOL] that points to it.

    The packets are those of [Pbuf]. The driver, [RX_POOL], the mailbox of frames in flight
    and the queue of the TCP/IP thread are one state of type [M], which is the state of the
    allocators there too, with a table of operations; [others] is applied where the port
    leaves a critical section. The cache operations change no state and are left out. *)

From stdpp Require Import gmap.
From S2P Require Import Prelude Pbuf.
Local Open Scope Z_scope.

(** ** Data *)

Definition ETH_TXBD_NUM : nat := 8.
Definition ETH_RXBD_NUM : nat := 8.
Definition ETH_QUEUE : Z := 0.
Definition ERR_BUF : Z := -2.
Definition BUFREQ_OK : Z := 0.
Definition BUFREQ_E_NOT_OK : Z := 1.
Definition PBUF_RAW : Z := 0.
Definition ETH_RXBUFF_SIZE : Z := 1536.
Definition ETHIF_FRAME_PAYLOAD_OFFSET : Z := 14.
Definition ETHIF_FRAME_HEADER_LENGTH : Z := 14.
Definition NETIF_MAX_HWADDR_LEN : Z := 6.
Definition NETIF_FLAG_BROADCAST : Z := 0x02.
Definition NETIF_FLAG_ETHARP : Z := 0x08.
Definition NETIF_FLAG_ETHERNET : Z := 0x10.
Definition NETIF_FLAG_IGMP : Z := 0x20.
Definition NETIF_FLAG_MLD6 : Z := 0x40.

Inductive netif_mac_filter_action := NETIF_DEL_MAC_FILTER | NETIF_ADD_MAC_FILTER.
Inductive filter_action := ETH_ADD_TO_FILTER | ETH_REMOVE_FROM_FILTER.
Inductive controller_mode := ETH_MODE_DOWN | ETH_MODE_ACTIVE.
(** The functions that the port installs in an interface. *)
Inductive handler := etharp_output | ethip6_output | low_level_output | igmp_filter | mld_filter.

Record netif_config := NetifConfig {
  cfg_num : Z;
  cfg_name : Z * Z;
  cfg_hwaddr : bytes;
  has_IPv6 : bool;
  cfg_hostname : option bytes;
}.
Record netif := Netif {
  num : Z;
  name : Z * Z;
  hwaddr_len : Z;
  hwaddr : bytes;
  mtu : Z;
  nflags : Z;
  output : option handler;
  output_ip6 : option handler;
  linkoutput : option handler;
  igmp_mac_filter : option handler;
  mld_mac_filter : option handler;
  hostname : option bytes;
}.

(** A frame for the driver: its buffers with their lengths. *)
Abbreviation frame := (list (pointer * Z)).

(** What the port uses of the driver, of lwIP and of its pools. *)
Record port_ops (M : Type) := PortOps {
  Eth_SendMultiBufferFrame : Z → Z → frame → M → Z * M;
  Eth_ProvideRxBuffer : Z → Z → pointer → M → M;
  Eth_SetControllerMode : Z → controller_mode → M → M;
  Eth_UpdatePhysAddrFilter : Z → bytes → filter_action → M → M;
  RX_POOL_INIT : M → M;
  RX_POOL_ALLOC : M → Z * M;
  RX_POOL_FREE : Z → M → M;
  pbuf_free_callback : Z → M → Z * M;
  tx_lock_new : M → Z * M;
  tx_lock_free : M → M;
  in_flight_new : Z → M → Z * M;
  in_flight_post : Z → M → M;
  in_flight_tryfetch : M → Z * Z * M;
  in_flight_free : M → M;
  poll_thread_delete : M → M;
}.
Arguments Eth_SendMultiBufferFrame {M}. Arguments Eth_ProvideRxBuffer {M}. Arguments Eth_SetControllerMode {M}.
Arguments Eth_UpdatePhysAddrFilter {M}. Arguments RX_POOL_INIT {M}. Arguments RX_POOL_ALLOC {M}.
Arguments RX_POOL_FREE {M}. Arguments pbuf_free_callback {M}. Arguments tx_lock_new {M}. Arguments tx_lock_free {M}.
Arguments in_flight_new {M}. Arguments in_flight_post {M}. Arguments in_flight_tryfetch {M}.
Arguments in_flight_free {M}. Arguments poll_thread_delete {M}.

(** The configuration, generated and not part of the repository. *)
Record port_config := PortConfig {
  netif_cfg : list netif_config;
  ETH_HAS_EXTERNAL_RX_BUFFERS : bool;
  TCPIP_RELEASE_RX_RESOURCE : bool;
  MAX_BUFFS_IN_MULTI_BUFFER_FRAME : Z;
  MAX_RXBUFFLEN_SUPPORTED : Z;
  ethif_DataBuffer : pointer;
  LWIP_IPV4 : bool;
  LWIP_ARP : bool;
  LWIP_IGMP : bool;
  LWIP_IPV6 : bool;
  LWIP_IPV6_MLD : bool;
  LWIP_NETIF_HOSTNAME : bool;
}.

Record port (M : Type) := Port {
  mem : Pbuf.store M;
  netifs : gmap Z netif;
  g_netif : list Z;
  tx_pbufs : list Z;
  rx_bufs : list Z;
  rx_buff_process_handler : Z;
  EthIf_RxIndications : list Z;
  EthIf_TxConfirmations : list Z;
  EthIf_ModeIndications : list Z;
  EthIf_ChecksumValue : list Z;
}.
Arguments Port {M}. Arguments mem {M}. Arguments netifs {M}. Arguments g_netif {M}. Arguments tx_pbufs {M}.
Arguments rx_bufs {M}. Arguments rx_buff_process_handler {M}. Arguments EthIf_RxIndications {M}.
Arguments EthIf_TxConfirmations {M}. Arguments EthIf_ModeIndications {M}. Arguments EthIf_ChecksumValue {M}.

Section state.
Context {M : Type}.
Implicit Types (e : port M).
Definition with_mem x (e : port M) : port M := Port x (netifs e) (g_netif e) (tx_pbufs e) (rx_bufs e) (rx_buff_process_handler e) (EthIf_RxIndications e) (EthIf_TxConfirmations e) (EthIf_ModeIndications e) (EthIf_ChecksumValue e).
Definition with_netifs x (e : port M) : port M := Port (mem e) x (g_netif e) (tx_pbufs e) (rx_bufs e) (rx_buff_process_handler e) (EthIf_RxIndications e) (EthIf_TxConfirmations e) (EthIf_ModeIndications e) (EthIf_ChecksumValue e).
Definition with_g_netif x (e : port M) : port M := Port (mem e) (netifs e) x (tx_pbufs e) (rx_bufs e) (rx_buff_process_handler e) (EthIf_RxIndications e) (EthIf_TxConfirmations e) (EthIf_ModeIndications e) (EthIf_ChecksumValue e).
Definition with_tx_pbufs x (e : port M) : port M := Port (mem e) (netifs e) (g_netif e) x (rx_bufs e) (rx_buff_process_handler e) (EthIf_RxIndications e) (EthIf_TxConfirmations e) (EthIf_ModeIndications e) (EthIf_ChecksumValue e).
Definition with_rx_bufs x (e : port M) : port M := Port (mem e) (netifs e) (g_netif e) (tx_pbufs e) x (rx_buff_process_handler e) (EthIf_RxIndications e) (EthIf_TxConfirmations e) (EthIf_ModeIndications e) (EthIf_ChecksumValue e).
Definition with_handler x (e : port M) : port M := Port (mem e) (netifs e) (g_netif e) (tx_pbufs e) (rx_bufs e) x (EthIf_RxIndications e) (EthIf_TxConfirmations e) (EthIf_ModeIndications e) (EthIf_ChecksumValue e).
Definition with_rx_indications x (e : port M) : port M := Port (mem e) (netifs e) (g_netif e) (tx_pbufs e) (rx_bufs e) (rx_buff_process_handler e) x (EthIf_TxConfirmations e) (EthIf_ModeIndications e) (EthIf_ChecksumValue e).
Definition with_tx_confirmations x (e : port M) : port M := Port (mem e) (netifs e) (g_netif e) (tx_pbufs e) (rx_bufs e) (rx_buff_process_handler e) (EthIf_RxIndications e) x (EthIf_ModeIndications e) (EthIf_ChecksumValue e).
Definition with_mode_indications x (e : port M) : port M := Port (mem e) (netifs e) (g_netif e) (tx_pbufs e) (rx_bufs e) (rx_buff_process_handler e) (EthIf_RxIndications e) (EthIf_TxConfirmations e) x (EthIf_ChecksumValue e).
Definition with_checksum_value x (e : port M) : port M := Port (mem e) (netifs e) (g_netif e) (tx_pbufs e) (rx_bufs e) (rx_buff_process_handler e) (EthIf_RxIndications e) (EthIf_TxConfirmations e) (EthIf_ModeIndications e) x.
End state.

(** ** Copying *)

(** [memcpy_64], then [memcpy_custom], between two objects whose bytes are [dst] and [src];
    the addresses decide how it is done. *)
Definition copy (dst : bytes) (off_dst : Z) (src : bytes) (off_src n : Z) : outcome bytes :=
  d ← slice src off_src n; memcpy dst off_dst d.
Fixpoint copy_words (n : nat) (dst : bytes) (off_dst : Z) (src : bytes) (off_src : Z) : outcome bytes :=
  match n with
  | O => Done dst
  | S n => dst ← copy dst off_dst src off_src 8; copy_words n dst (off_dst + 8) src (off_src + 8)
  end.
Definition memcpy_64 (dst : bytes) (off_dst : Z) (src : bytes) (off_src len : Z) : outcome bytes :=
  copy_words (Z.to_nat (Z.shiftr len 3)) dst off_dst src off_src.

Definition memcpy_custom (dst_address src_address : Z) (dst src : bytes) (len : Z) : outcome bytes :=
  if len <=? 32 then copy dst 0 src 0 len
  else if Z.land (Z.lxor src_address dst_address) 0xf =? 0 then
    let alignment := 16 - Z.land dst_address 0xf in
    dst ← copy dst 0 src 0 alignment;
    let len := u32 (len - alignment) in
    dst ← memcpy_64 dst alignment src alignment len;
    if negb (Z.land len 0xf =? 0) then
      let o := alignment + Z.shiftl (Z.shiftr len 3) 3 in
      copy dst o src o (Z.land len 0xf)
    else Done dst
  else copy dst 0 src 0 len.

(** ** Operations *)

(** A custom structure was made by the port for an interface of the configuration. *)
Definition cfg_of (cfg : port_config) (i : Z) : option netif_config :=
  if 0 <=? i then netif_cfg cfg !! Z.to_nat i else None.

(** The callback of a custom structure; [release] gives the structure back to [RX_POOL]. *)
Definition ethif_pbuf_free_custom {M} (ops : port_ops M) (cfg : port_config) (p : Z) : ST (Pbuf.store M) unit :=
  LWIP_ASSERT (negb (p =? 0));;
  upd p (λ b, with_if_idx (u8 (if_idx b - 1)) b);;
  b ← get p;
  (if ETH_HAS_EXTERNAL_RX_BUFFERS cfg && TCPIP_RELEASE_RX_RESOURCE cfg then
     match cfg_of cfg (if_idx b) with
     | Some c => call (λ m, (tt, Eth_ProvideRxBuffer ops (cfg_num c) 0 (rx_buf b) m))
     | None => λ _, Fault end
   else mret tt);;
  release p (RX_POOL_FREE ops p).

Section operations.
Context {M : Type} (ops : port_ops M) (mops : mem_ops M) (opt : options) (cfg : port_config).
Local Abbreviation P := (port M).
(** The interrupts that may come, and the functions of lwIP: [netif->input], and
    [netif_set_link_up]. *)
Context (others : P → P) (netif_input : Z → Z → ST P Z) (netif_set_link_up : Z → ST P unit).

Definition on_mem {A} (f : ST (Pbuf.store M) A) : ST P A := λ e,
  match f (mem e) with Done (a, s) => Done (a, with_mem s e) | Fault => Fault | Diverge => Diverge end.
Definition driver {A} (f : M → A * M) : ST P A := on_mem (call f).
Definition driver_ (f : M → M) : ST P unit := driver (λ m, (tt, f m)).
Definition get_netif (n : Z) : ST P netif := λ e, match netifs e !! n with Some x => Done (x, e) | None => Fault end.
Definition upd_netif (n : Z) (f : netif → netif) : ST P unit :=
  x ← get_netif n; modify (λ e, with_netifs (<[n := f x]> (netifs e)) e).
Definition config (i : Z) : ST P netif_config := λ e, match cfg_of cfg i with Some c => Done (c, e) | None => Fault end.
(** [t[i]] and [t[i] = v] of a global array. *)
Definition entry (t : P → list Z) (i : Z) : ST P Z := e ← gets id; lift (load (t e) i).
Definition set_entry (t : P → list Z) (put : list Z → P → P) (i v : Z) : ST P unit :=
  e ← gets id; l ← lift (Prelude.store (t e) i v); modify (put l).

(** *** Sending *)

Fixpoint frame_loop (fuel : nat) (q i : Z) (multiFrame : frame) : ST P frame :=
  match fuel with
  | O => diverge
  | S fuel =>
      if MAX_BUFFS_IN_MULTI_BUFFER_FRAME cfg <=? i then λ _, Fault
      else
        b ← on_mem (get q);
        let multiFrame := multiFrame ++ [(payload b, plen b)] in
        if negb (next b =? 0) then frame_loop fuel (next b) (i + 1) multiFrame else mret multiFrame
  end.

(** One pass over the slots: the slot, the status of the driver, the result. *)
Fixpoint try_slots (slots : nat) (ctrl p i : Z) (multiFrame : frame) (status : Z) : ST P (Z * Z * Z) :=
  match slots with
  | O => mret (i, status, ERR_BUF)
  | S slots =>
      t ← entry tx_pbufs i;
      '(status, pbuf_status) ← (
        if t =? 0 then
          status ← driver (Eth_SendMultiBufferFrame ops ctrl ETH_QUEUE multiFrame);
          if BUFREQ_OK =? status then set_entry tx_pbufs with_tx_pbufs i p;; mret (status, ERR_OK)
          else mret (status, ERR_BUF)
        else mret (status, ERR_BUF));
      modify others;;
      if ERR_OK =? pbuf_status then mret (i, status, pbuf_status)
      else try_slots slots ctrl p (i + 1) multiFrame status
  end.
Fixpoint send_loop (fuel : nat) (ctrl p : Z) (multiFrame : frame) (status : Z) : ST P (Z * Z * Z) :=
  match fuel with
  | O => diverge
  | S fuel =>
      '(i, status, pbuf_status) ← try_slots ETH_TXBD_NUM ctrl p 0 multiFrame status;
      if ERR_BUF =? pbuf_status then send_loop fuel ctrl p multiFrame status
      else mret (i, status, pbuf_status)
  end.

(** [fuel] for the walks through the packet and for the passes over the slots. *)
Definition ethif_low_level_output (fuel : nat) (n p : Z) : ST P Z :=
  on_mem (LWIP_ASSERT (negb (p =? 0)));;
  on_mem (pbuf_ref p);;
  bufs ← on_mem (pbuf_clen fuel p);
  let bufs_num := u8 bufs in
  on_mem (LWIP_ASSERT (bufs_num <=? 16));;
  multiFrame ← frame_loop fuel p 0 [];
  x ← get_netif n;
  c ← config (num x);
  '(i, status, pbuf_status) ← send_loop fuel (cfg_num c) p multiFrame BUFREQ_E_NOT_OK;
  (if negb (BUFREQ_OK =? status) then
     on_mem (pbuf_free mops (ethif_pbuf_free_custom ops cfg) fuel p);;
     set_entry tx_pbufs with_tx_pbufs i 0
   else mret tt);;
  mret pbuf_status.

(** Every slot in use is handed over and emptied. *)
Fixpoint confirm_loop (slots : nat) (i : Z) : ST P unit :=
  match slots with
  | O => mret tt
  | S slots =>
      t ← entry tx_pbufs i;
      (if negb (t =? 0) then
         driver (pbuf_free_callback ops t);; set_entry tx_pbufs with_tx_pbufs i 0
       else mret tt);;
      confirm_loop slots (i + 1)
  end.
Definition EthIf_TxConfirmation (CtrlIdx BufIdx Result : Z) : ST P unit :=
  c ← entry EthIf_TxConfirmations CtrlIdx;
  set_entry EthIf_TxConfirmations with_tx_confirmations CtrlIdx (u32 (c + 1));;
  confirm_loop ETH_TXBD_NUM 0.

(** *** Receiving *)

Definition netif_get_index (x : netif) : Z := u8 (num x + 1).

Definition ethif_input (fuel : nat) (n : Z) (data : pointer) (size : Z) : ST P Z :=
  ethif_pbuf ← driver (RX_POOL_ALLOC ops);
  if negb (ethif_pbuf =? 0) then
    p ← on_mem (pbuf_alloced_custom opt PBUF_RAW size PBUF_REF ethif_pbuf data size);
    x ← get_netif n;
    on_mem (upd p (with_if_idx (netif_get_index x)));;
    on_mem (upd p (with_rx_buf data));;
    ret ← netif_input p n;
    if negb (ERR_OK =? ret) then
      on_mem (pbuf_free mops (ethif_pbuf_free_custom ops cfg) fuel p);; mret ret
    else mret ret
  else mret ERR_MEM.

(** [DataPtr] points behind the header of the frame. *)
Definition EthIf_RxIndication (fuel : nat) (CtrlIdx : Z) (DataPtr : pointer) (LenByte : Z) : ST P unit :=
  c ← entry EthIf_RxIndications CtrlIdx;
  set_entry EthIf_RxIndications with_rx_indications CtrlIdx (u32 (c + 1));;
  d ← on_mem (read (advance DataPtr 10) 2);
  set_entry EthIf_ChecksumValue with_checksum_value CtrlIdx (default 0 (d !! 0%nat) + 256 * default 0 (d !! 1%nat));;
  let DataPtr := advance DataPtr (- ETHIF_FRAME_PAYLOAD_OFFSET) in
  let LenByte := u16 (LenByte + ETHIF_FRAME_HEADER_LENGTH) in
  n ← entry g_netif CtrlIdx;
  ethif_input fuel n DataPtr LenByte;;
  mret tt.

Definition EthIf_CtrlModeIndication (CtrlIdx CtrlMode : Z) : ST P unit :=
  set_entry EthIf_ModeIndications with_mode_indications CtrlIdx 1.
Definition ethif_register_rx_buff_process_condition_handler (h : Z) : ST P unit := modify (with_handler h).

(** *** Filters *)

(** The bytes of a group address are in network order. *)
Definition IP6_ADDR_BLOCK7 (group : bytes) : Z := of_be16 (default 0 (group !! 12%nat)) (default 0 (group !! 13%nat)).
Definition IP6_ADDR_BLOCK8 (group : bytes) : Z := of_be16 (default 0 (group !! 14%nat)) (default 0 (group !! 15%nat)).
Definition mld_eth_filter (n : Z) (group : bytes) (action : netif_mac_filter_action) : ST P Z :=
  let group_MAC := [0x33; 0x33; u8 (Z.shiftr (IP6_ADDR_BLOCK7 group) 8); u8 (IP6_ADDR_BLOCK7 group);
                    u8 (Z.shiftr (IP6_ADDR_BLOCK8 group) 8); u8 (IP6_ADDR_BLOCK8 group)] in
  x ← get_netif n;
  c ← config (num x);
  driver_ (Eth_UpdatePhysAddrFilter ops (cfg_num c) group_MAC
    match action with NETIF_DEL_MAC_FILTER => ETH_REMOVE_FROM_FILTER | _ => ETH_ADD_TO_FILTER end);;
  mret ERR_OK.
Definition igmp_eth_filter (n : Z) (group : bytes) (action : netif_mac_filter_action) : ST P Z :=
  let ip4_addr i := default 0 (group !! i) in
  let group_MAC := [0x01; 0x00; 0x5e; Z.land 0x7f (ip4_addr 1%nat); ip4_addr 2%nat; ip4_addr 3%nat] in
  x ← get_netif n;
  c ← config (num x);
  driver_ (Eth_UpdatePhysAddrFilter ops (cfg_num c) group_MAC
    match action with NETIF_DEL_MAC_FILTER => ETH_REMOVE_FROM_FILTER | _ => ETH_ADD_TO_FILTER end);;
  mret ERR_OK.

(** *** Start and end *)

Definition ip6_allnodes_ll : bytes := [0xff; 0x02; 0; 0; 0; 0; 0; 0; 0; 0; 0; 0; 0; 0; 0; 0x01].

Definition ethif_low_level_init (n : Z) : ST P unit :=
  x ← get_netif n;
  c ← config (num x);
  a ← lift (slice (cfg_hwaddr c) 0 NETIF_MAX_HWADDR_LEN);
  upd_netif n (λ x, Netif (num x) (name x) NETIF_MAX_HWADDR_LEN a 1500
    (Z.lor (Z.lor NETIF_FLAG_BROADCAST NETIF_FLAG_ETHARP) NETIF_FLAG_ETHERNET)
    (output x) (output_ip6 x) (linkoutput x) (igmp_mac_filter x) (mld_mac_filter x) (hostname x));;
  (if LWIP_IGMP cfg then
     upd_netif n (λ x, Netif (num x) (name x) (hwaddr_len x) (hwaddr x) (mtu x) (Z.lor (nflags x) NETIF_FLAG_IGMP)
       (output x) (output_ip6 x) (linkoutput x) (Some igmp_filter) (mld_mac_filter x) (hostname x))
   else mret tt);;
  set_entry g_netif with_g_netif (num x) n;;
  (if ETH_HAS_EXTERNAL_RX_BUFFERS cfg then
     for_each (seq 0 ETH_RXBD_NUM) (λ i,
       driver_ (Eth_ProvideRxBuffer ops (cfg_num c) 0
         (advance (ethif_DataBuffer cfg) (Z.of_nat i * MAX_RXBUFFLEN_SUPPORTED cfg)));;
       set_entry rx_bufs with_rx_bufs (Z.of_nat i) 0)
   else mret tt);;
  driver_ (Eth_SetControllerMode ops (cfg_num c) ETH_MODE_ACTIVE);;
  driver_ (Eth_UpdatePhysAddrFilter ops (cfg_num c) (cfg_hwaddr c) ETH_ADD_TO_FILTER);;
  (if LWIP_IPV6 cfg && LWIP_IPV6_MLD cfg && has_IPv6 c then
     upd_netif n (λ x, Netif (num x) (name x) (hwaddr_len x) (hwaddr x) (mtu x) (Z.lor (nflags x) NETIF_FLAG_MLD6)
       (output x) (output_ip6 x) (linkoutput x) (igmp_mac_filter x) (Some mld_filter) (hostname x));;
     mld_eth_filter n ip6_allnodes_ll NETIF_ADD_MAC_FILTER;; mret tt
   else mret tt);;
  netif_set_link_up n.

Definition ethif_ethernetif_init (n : Z) : ST P Z :=
  driver_ (RX_POOL_INIT ops);;
  status ← driver (tx_lock_new ops);
  ret ← driver (in_flight_new ops (Z.of_nat ETH_TXBD_NUM));
  on_mem (LWIP_ASSERT (ret =? ERR_OK));;
  on_mem (LWIP_ASSERT (status =? ERR_OK));;
  for_each (seq 0 ETH_TXBD_NUM) (λ i, set_entry tx_pbufs with_tx_pbufs (Z.of_nat i) 0);;
  x ← get_netif n;
  c ← config (num x);
  upd_netif n (λ x, Netif (num x) (cfg_name c) (hwaddr_len x) (hwaddr x) (mtu x) (nflags x)
    (if LWIP_IPV4 cfg then if LWIP_ARP cfg then Some etharp_output else None else output x)
    (if LWIP_IPV6 cfg && has_IPv6 c then Some ethip6_output else output_ip6 x)
    (Some low_level_output) (igmp_mac_filter x) (mld_mac_filter x)
    (if LWIP_NETIF_HOSTNAME cfg then match cfg_hostname c with Some h => Some h | None => hostname x end else hostname x));;
  ethif_low_level_init n;;
  mret ret.

Fixpoint drain_loop (fuel : nat) : ST P unit :=
  match fuel with
  | O => diverge
  | S fuel =>
      '(r, p) ← driver (in_flight_tryfetch ops);
      if 0 =? r then driver (pbuf_free_callback ops p);; drain_loop fuel else mret tt
  end.
Definition ethif_ethernetif_shutdown (fuel : nat) (n : Z) : ST P unit :=
  driver_ (poll_thread_delete ops);;
  drain_loop fuel;;
  driver_ (in_flight_free ops);;
  x ← get_netif n;
  c ← config (num x);
  driver_ (Eth_SetControllerMode ops (cfg_num c) ETH_MODE_DOWN);;
  driver_ (tx_lock_free ops).

Definition send_tx_pbuffs_dummy_char (fuel : nat) : ST P unit :=
  dummy ← on_mem (pbuf_alloc mops opt (ethif_pbuf_free_custom ops cfg) fuel PBUF_RAW ETH_RXBUFF_SIZE PBUF_RAM);
  driver_ (in_flight_post ops dummy).
End operations.

(** ** Copying *)

Lemma copy_Done dst o src o' n : 0 <= o → 0 <= o' → 0 <= n → o + n <= len dst → o' + n <= len src →
  copy dst o src o' n = Done (patch dst o (take (Z.to_nat n) (drop (Z.to_nat o') src))).
Proof.
  intros. unfold copy. rewrite slice_Done by lia. simpl. rewrite memcpy_patch; [done|done|].
  rewrite len_take; [lia|]. rewrite len_drop; lia.
Qed.
Lemma copy_Fault dst o src o' n : len dst < o + n → 0 <= n → copy dst o src o' n = Fault.
Proof.
  intros Hd Hn. unfold copy, slice. case_match eqn:E; [|done]. simpl. apply memcpy_overflow.
  apply andb_true_iff in E as [[Ho%Z.leb_le _]%andb_true_iff Hl%Z.leb_le]. rewrite len_take; [lia|]. rewrite len_drop; lia.
Qed.

Lemma copy_words_Done n dst o src o' : 0 <= o → 0 <= o' → o + 8 * Z.of_nat n <= len dst → o' + 8 * Z.of_nat n <= len src →
  copy_words n dst o src o' = Done (patch dst o (take (8 * n) (drop (Z.to_nat o') src))).
Proof.
  revert dst o o'. induction n as [|n IH]; intros dst o o' Ho Ho' Hd Hs.
  - simpl. unfold patch. simpl. by rewrite Nat.add_0_r, take_drop.
  - cbn [copy_words]. rewrite copy_Done by lia. cbn [mbind outcome_bind].
    set (d := take (Z.to_nat 8) (drop (Z.to_nat o') src)).
    assert (len d = 8) as Hld by (unfold d; rewrite len_take; [done|]; rewrite len_drop; lia).
    rewrite IH by (rewrite ?len_patch; lia).
    rewrite (patch_patch dst o d) by (rewrite ?len_take; try lia; rewrite ?len_drop; lia || (unfold len in *; rewrite length_take, length_drop; lia)).
    do 2 f_equal. unfold d. replace (8 * S n)%nat with (8 + 8 * n)%nat by lia.
    rewrite <- (take_drop 8 (take (8 + 8 * n) (drop (Z.to_nat o') src))). rewrite take_take, Nat.min_l by lia.
    f_equal. rewrite skipn_firstn_comm, drop_drop. f_equal; [lia|]. f_equal. lia.
Qed.

(** Copying stays inside both objects or fails. *)
Lemma copy_cases dst o src o' n : 0 <= n →
  copy dst o src o' n = Fault ∨ ∃ d, copy dst o src o' n = Done d ∧ len d = len dst ∧ o + n <= len dst ∧ o' + n <= len src.
Proof.
  intros Hn. unfold copy, slice. case_match eqn:E; [|by left]. simpl.
  apply andb_true_iff in E as [[Ho%Z.leb_le _]%andb_true_iff Hl%Z.leb_le].
  assert (len (take (Z.to_nat n) (drop (Z.to_nat o') src)) = n) as Hlen by (rewrite len_take; [done|rewrite len_drop; lia]).
  unfold memcpy. rewrite Hlen. case_match eqn:E; [|by left]. apply andb_true_iff in E as [Ho'%Z.leb_le Hl'%Z.leb_le].
  right. eexists. split; [done|]. rewrite len_patch by lia. lia.
Qed.
Lemma copy_words_cases n dst o src o' : 0 <= o →
  copy_words n dst o src o' = Fault ∨
  ∃ d, copy_words n dst o src o' = Done d ∧ len d = len dst ∧ (n = 0%nat ∨ o + 8 * Z.of_nat n <= len dst ∧ o' + 8 * Z.of_nat n <= len src).
Proof.
  revert dst o o'. induction n as [|n IH]; intros dst o o' Ho; [right; eexists; split; [done|]; lia|].
  cbn [copy_words].
  destruct (copy_cases dst o src o' 8) as [->|(d & -> & Hl & Hd & Hs)]; [done|by left|]. cbn [mbind outcome_bind].
  destruct (IH d (o + 8) (o' + 8)) as [->|(d' & -> & Hl' & Hb)]; [lia|by left|]. right. eexists. split; [done|]. lia.
Qed.

(** The number of bytes that [memcpy_custom] copies. *)
Definition custom_length (dst_address src_address len : Z) : Z :=
  if (32 <? len) && (src_address mod 16 =? dst_address mod 16) && (8 <=? (len - (16 - dst_address mod 16)) mod 16)
  then len + 8 else len.

Lemma low_bits_equal a b : (Z.land (Z.lxor a b) 0xf =? 0) = (a mod 16 =? b mod 16).
Proof.
  assert (Z.land (Z.lxor a b) 0xf = Z.lxor (a mod 16) (b mod 16)) as ->.
  { change 16 with (2 ^ 4). rewrite <- !Z.land_ones by lia. apply Z.bits_inj'. intros i Hi.
    rewrite Z.land_spec, !Z.lxor_spec, !Z.land_spec. change 0xf with (Z.ones 4).
    destruct (Z.testbit a i), (Z.testbit b i), (Z.testbit (Z.ones 4) i); done. }
  apply eq_true_iff_eq. rewrite !Z.eqb_eq. split; [apply Z.lxor_eq|intros ->; apply Z.lxor_nilpotent].
Qed.

(** The part of [memcpy_custom] behind the first, aligning copy. *)
Lemma aligned_part dst src a r : 0 <= a → 16 <= r < 2 ^ 32 →
  let n := if 8 <=? r mod 16 then r + 8 else r in
  let f := dst' ← memcpy_64 dst a src a r;
    if negb (Z.land r 0xf =? 0) then copy dst' (a + Z.shiftl (Z.shiftr r 3) 3) src (a + Z.shiftl (Z.shiftr r 3) 3) (Z.land r 0xf)
    else Done dst' in
  (a + n <= len dst → a + n <= len src → f = Done (patch dst a (take (Z.to_nat n) (drop (Z.to_nat a) src)))) ∧
  (len dst < a + n → f = Fault).
Proof.
  intros Ha Hr n f. subst f. unfold memcpy_64.
  assert (Z.land r 0xf = r mod 16) as El by (change 0xf with (Z.ones 4); by rewrite Z.land_ones).
  assert (Z.shiftr r 3 = r / 8) as Es by (by rewrite Z.shiftr_div_pow2).
  rewrite El, Es, Z.shiftl_mul_pow2 by lia. change (2 ^ 3) with 8.
  assert (n = 8 * (r / 8) + r mod 16) as Hn.
  { subst n. destruct (Z.leb_spec 8 (r mod 16)); Z.to_euclidean_division_equations; lia. }
  clearbody n. pose proof (Z.mod_pos_bound r 16 ltac:(lia)). assert (1 <= r / 8) by (apply Z.div_le_lower_bound; lia). split.
  - intros Hd Hs. rewrite copy_words_Done by lia. cbn [mbind outcome_bind].
    destruct (Z.eqb_spec (r mod 16) 0) as [E0|E0]; cbn [negb].
    + do 2 f_equal. f_equal. lia.
    + set (d := take (8 * Z.to_nat (r / 8)) (drop (Z.to_nat a) src)).
      assert (len d = r / 8 * 8) as Hld by (unfold d, len in *; rewrite length_take, length_drop; lia).
      rewrite copy_Done by (rewrite ?len_patch; lia).
      rewrite (patch_patch dst a d); [|done|lia|rewrite len_take; [lia|]; rewrite len_drop; lia].
      do 2 f_equal. unfold d. rewrite <- (take_drop (8 * Z.to_nat (r / 8)) (take (Z.to_nat n) (drop (Z.to_nat a) src))).
      rewrite take_take, Nat.min_l by lia. f_equal. rewrite skipn_firstn_comm, drop_drop. f_equal; [lia|]. f_equal. lia.
  - intros Hd. destruct (copy_words_cases (Z.to_nat (r / 8)) dst a src a Ha) as [->|(d & -> & Hl & Hb)]; [done|].
    cbn [mbind outcome_bind]. destruct (Z.eqb_spec (r mod 16) 0) as [E0|E0]; cbn [negb]; [lia|].
    apply copy_Fault; lia.
Qed.

(** [memcpy_custom] copies what it is asked to unless source and target lie
    equally in a block of 16 bytes, more than 32 bytes are copied, and eight or more of
    the last, incomplete block are left behind the first alignment: then it copies eight
    bytes too many, and leaves a target of just the length asked for. *)
Theorem memcpy_custom_overruns dst_address src_address dst src length :
  0 <= length < 2 ^ 32 → 0 <= dst_address →
  let n := custom_length dst_address src_address length in
  (n <= len dst → n <= len src → memcpy_custom dst_address src_address dst src length = Done (patch dst 0 (take (Z.to_nat n) src))) ∧
  (len dst < n → memcpy_custom dst_address src_address dst src length = Fault).
Proof.
  intros Hl Ha n. unfold memcpy_custom. rewrite low_bits_equal. subst n. unfold custom_length.
  destruct (Z.leb_spec length 32) as [Hs|Hs].
  { rewrite (proj2 (Z.ltb_ge 32 length)) by done. cbn [andb]. split; [intros; by rewrite copy_Done by lia|intros; apply copy_Fault; lia]. }
  rewrite (proj2 (Z.ltb_lt 32 length)) by done. cbn [andb]. destruct (src_address mod 16 =? dst_address mod 16); cbn [andb].
  2: { split; [intros; by rewrite copy_Done by lia|intros; apply copy_Fault; lia]. }
  assert (Z.land dst_address 0xf = dst_address mod 16) as -> by (change 0xf with (Z.ones 4); by rewrite Z.land_ones).
  pose proof (Z.mod_pos_bound dst_address 16 ltac:(lia)). set (a := 16 - dst_address mod 16). assert (1 <= a <= 16) as Hab by lia.
  clearbody a. rewrite (u32_small (length - a)) by (unfold is_u32; lia).
  set (r := length - a). assert (length = a + r) as Er by lia. clearbody r. subst length.
  assert ((if 8 <=? r mod 16 then a + r + 8 else a + r) = a + (if 8 <=? r mod 16 then r + 8 else r)) as -> by (case_match; lia).
  set (n := if 8 <=? r mod 16 then r + 8 else r). assert (r <= n) as Hrn by (subst n; case_match; lia). split.
  - intros Hd Hs'. rewrite copy_Done by lia. cbn [mbind outcome_bind].
    assert (len (take (Z.to_nat a) (drop (Z.to_nat 0) src)) = a) as Hla by (rewrite len_take; [done|]; rewrite len_drop; lia).
    destruct (aligned_part (patch dst 0 (take (Z.to_nat a) (drop (Z.to_nat 0) src))) src a r) as [Hp _]; [lia|lia|].
    cbv zeta in Hp. fold n in Hp. rewrite Hp by (rewrite ?len_patch; lia).
    rewrite patch_patch; [|done|lia|rewrite len_take; [lia|]; rewrite len_drop; lia]. do 2 f_equal. rewrite drop_0.
    rewrite <- (take_drop (Z.to_nat a) (take (Z.to_nat (a + n)) src)). rewrite take_take, Nat.min_l by lia.
    f_equal. rewrite skipn_firstn_comm. f_equal. lia.
  - intros Hd. destruct (copy_cases dst 0 src 0 a) as [->|(d & -> & Hld & _)]; [lia|done|]. cbn [mbind outcome_bind].
    destruct (aligned_part d src a r) as [_ Hp]; [lia|lia|]. cbv zeta in Hp. fold n in Hp. apply Hp. lia.
Qed.

(** Of 51 bytes 35 are left behind the first 16, which end with 3 in an incomplete block: copied
    as asked. Of 56 bytes 40 are left, which end with 8: a target of 56 bytes is left. *)
Lemma memcpy_custom_overruns_witness :
  memcpy_custom 0x20000000 0x20001000 (replicate 51 0) (replicate 51 7) 51 = Done (replicate 51 7) ∧
  memcpy_custom 0x20000000 0x20001000 (replicate 56 0) (replicate 80 7) 56 = Fault.
Proof.
  destruct (memcpy_custom_overruns 0x20000000 0x20001000 (replicate 51 0) (replicate 51 7) 51) as [H _]; [lia|lia|].
  destruct (memcpy_custom_overruns 0x20000000 0x20001000 (replicate 56 0) (replicate 80 7) 56) as [_ H']; [lia|lia|].
  split; [rewrite H by (by vm_compute); by vm_compute|apply H'; by vm_compute].
Defined.

(** ** Sending *)

(** The interrupts leave the interfaces and the packets that are there alone, but may add
    packets that are received; of the slots they only empty some. *)
Class Interrupts {M} (others : port M → port M) : Prop := {
  others_pbufs e : pbufs (mem e) ⊆ pbufs (mem (others e));
  others_blocks e : blocks (mem e) ⊆ blocks (mem (others e));
  others_netifs e : netifs (others e) = netifs e;
  others_length e : length (tx_pbufs (others e)) = length (tx_pbufs e);
  others_slots e i t : tx_pbufs e !! i = Some t → tx_pbufs (others e) !! i = Some t ∨ tx_pbufs (others e) !! i = Some 0;
}.

Section sending.
Context {M : Type} (ops : port_ops M) (mops : mem_ops M) (cfg : port_config) (others : port M → port M) `{!Interrupts others}.
Local Abbreviation P := (port M).
Implicit Types (e : P) (f : frame).

Lemma on_mem_done {A B} (f : ST (Pbuf.store M) A) (k : A → ST P B) e a s :
  f (mem e) = Done (a, s) → (on_mem f ≫= k) e = k a (with_mem s e).
Proof. intros E. unfold mbind, ST_bind, on_mem. by rewrite E. Qed.
Lemma with_mem_id e : with_mem (mem e) e = e.
Proof. by destruct e. Qed.

(** The buffers of a frame hold the bytes [d]. *)
Definition gathers (s : Pbuf.store M) f (d : bytes) : Prop :=
  ∃ ds, d = concat ds ∧ Forall2 (λ x di, read x.1 x.2 s = Done (di, s)) f ds.

Lemma frame_loop_spec fuel q ns i acc e : packet (mem e) q ns → ns ≠ [] → (length ns <= fuel)%nat →
  i + len ns <= MAX_BUFFS_IN_MULTI_BUFFER_FRAME cfg →
  ∃ f, frame_loop cfg fuel q i acc e = Done (acc ++ f, e) ∧ gathers (mem e) f (bytes_of ns) ∧ length f = length ns.
Proof.
  revert q ns i acc. induction fuel as [|fuel IH]; intros q ns i acc Hp Hne Hf Hi; [destruct ns; [done|simpl in *; lia]|].
  destruct ns as [|[a d] ns]; [done|]. pose proof Hp as (-> & Ha & b & Hb & Hh & _ & Hp'). rewrite len_cons in Hi.
  pose proof (len_nonneg ns). cbn [frame_loop]. rewrite (proj2 (Z.leb_gt _ _)) by lia.
  assert (get a (mem e) = Done (b, mem e)) as Eg by (unfold get; by rewrite Hb).
  rewrite (on_mem_done _ _ _ _ _ Eg), with_mem_id. cbv zeta.
  assert (read (payload b) (plen b) (mem e) = Done (d, mem e)) as Er.
  { rewrite (read_payload _ _ _ _ Hh) by (pose proof (proj1 Hh); pose proof (len_nonneg d); lia).
    rewrite <- (proj1 Hh), <- length_to_nat_len. by rewrite take_ge by lia. }
  destruct (Z.eqb_spec (next b) 0) as [E|E]; cbn [negb].
  - rewrite (packet_zero _ _ _ Hp') in E. subst ns. exists [(payload b, plen b)]. split; [done|]. split; [|done].
    exists [d]. split; [done|]. by constructor.
  - destruct (IH (next b) ns (i + 1) (acc ++ [(payload b, plen b)])) as (f & -> & (ds & Eds & Hds) & Hl);
      [done|intros ->; by apply E|simpl in *; lia|lia|].
    exists ((payload b, plen b) :: f). rewrite <- app_assoc. split; [done|]. split; [|simpl; by rewrite Hl].
    exists (d :: ds). rewrite bytes_of_cons, Eds. split; [done|]. by constructor.
Qed.

Lemma entry_done {B} (t : P → list Z) (i : nat) v (k : Z → ST P B) e : t e !! i = Some v →
  (entry t (Z.of_nat i) ≫= k) e = k v e.
Proof.
  intros Hv. unfold entry. unfold mbind at 1, ST_bind at 1. rewrite gets_id.
  unfold lift. rewrite (load_lookup _ _ v) by (rewrite ?Nat2Z.id; lia || done). done.
Qed.
Lemma set_entry_run (t : P → list Z) put (i : nat) v e : (i < length (t e))%nat →
  set_entry t put (Z.of_nat i) v e = Done (tt, put (<[i := v]> (t e)) e).
Proof.
  intros Hi. unfold set_entry, Prelude.store. rewrite gets_id.
  rewrite (proj2 (Z.leb_le 0 _)), (proj2 (Z.ltb_lt _ _)) by (unfold len; lia). cbn [andb]. by rewrite Nat2Z.id.
Qed.
Lemma set_entry_done {B} (t : P → list Z) put (i : nat) v (k : unit → ST P B) e : (i < length (t e))%nat →
  (set_entry t put (Z.of_nat i) v ≫= k) e = k tt (put (<[i := v]> (t e)) e).
Proof. intros Hi. by rewrite (bind_done _ _ _ _ _ (set_entry_run _ _ _ _ _ Hi)). Qed.

(** The state in which the driver has taken the frame and slot [i] has the packet. *)
Definition sent e (i : nat) (p : Z) (m : M) : P :=
  with_tx_pbufs (<[i := p]> (tx_pbufs e)) (with_mem (Store (pbufs (mem e)) (blocks (mem e)) m) e).
Definition refused e (m : M) : P := with_mem (Store (pbufs (mem e)) (blocks (mem e)) m) e.
(** The packets of [e] are as they were in [e'], whatever others came. *)
Definition same_packets e e' : Prop :=
  pbufs (mem e) ⊆ pbufs (mem e') ∧ blocks (mem e) ⊆ blocks (mem e') ∧ netifs e' = netifs e.
(** A state that may come up while a frame of [e0] waits to be taken. *)
Definition waiting e0 e : Prop :=
  same_packets e0 e ∧ length (tx_pbufs e) = length (tx_pbufs e0) ∧
  ∀ i, tx_pbufs e0 !! i = Some 0 → tx_pbufs e !! i = Some 0.

(** The driver and the interrupts give way to the frame [f] in the end: [left] bounds the
    interrupts to wait for until a slot is empty and the driver takes the
    frame; until then all slots may be in use and the driver may refuse. *)
Record gives_way (ctrl : Z) f (left : P → nat) e0 : Prop := {
  way_ready e : waiting e0 e → left e = 0%nat →
    (∃ i, tx_pbufs e !! i = Some 0) ∧ (Eth_SendMultiBufferFrame ops ctrl ETH_QUEUE f (allocator (mem e))).1 = BUFREQ_OK;
  way_refused e r m : waiting e0 e → Eth_SendMultiBufferFrame ops ctrl ETH_QUEUE f (allocator (mem e)) = (r, m) →
    r ≠ BUFREQ_OK → (left (refused e m) <= left e)%nat;
  way_passes e : waiting e0 e → (left (others e) <= pred (left e))%nat;
}.

Lemma waiting_refl e : waiting e e.
Proof. done. Qed.
Lemma waiting_others e0 e : waiting e0 e → waiting e0 (others e).
Proof.
  intros ((Hp & Hb & Hn) & Hl & Hs). split; [split_and!|split].
  - by etrans; [|apply others_pbufs].
  - by etrans; [|apply others_blocks].
  - by rewrite others_netifs.
  - by rewrite others_length.
  - intros i Hi. by destruct (others_slots e i 0 (Hs i Hi)).
Qed.
Lemma waiting_refused e0 e m : waiting e0 e → waiting e0 (refused e m).
Proof. done. Qed.

(** A slot in use, or a driver that refuses: what one step of the pass does. *)
Lemma slot_step (slots : nat) ctrl p (i : nat) f status e t : tx_pbufs e !! i = Some t →
  try_slots ops others (S slots) ctrl p (Z.of_nat i) f status e =
  let '(r, m) := Eth_SendMultiBufferFrame ops ctrl ETH_QUEUE f (allocator (mem e)) in
  if t =? 0 then
    if BUFREQ_OK =? r then Done ((Z.of_nat i, r, ERR_OK), others (sent e i p m))
    else try_slots ops others slots ctrl p (Z.of_nat (S i)) f r (others (refused e m))
  else try_slots ops others slots ctrl p (Z.of_nat (S i)) f status (others e).
Proof.
  intros Ht. cbn [try_slots]. rewrite (entry_done _ _ _ _ _ Ht). replace (Z.of_nat i + 1) with (Z.of_nat (S i)) by lia.
  destruct (Eth_SendMultiBufferFrame _ _ _ _ _) as [r m] eqn:Es. destruct (Z.eqb_spec t 0) as [->|Hne]; [|done].
  assert (∀ B (k : Z → ST P B), (driver (Eth_SendMultiBufferFrame ops ctrl ETH_QUEUE f) ≫= k) e = k r (refused e m)) as Hd.
  { intros B k. unfold driver. by rewrite (on_mem_done _ _ _ r (Store (pbufs (mem e)) (blocks (mem e)) m)) by (unfold call; by rewrite Es). }
  destruct (Z.eqb_spec BUFREQ_OK r) as [<-|Hr].
  - rewrite (bind_done _ _ _ (BUFREQ_OK, ERR_OK) (sent e i p m)); [done|]. rewrite Hd, Z.eqb_refl.
    rewrite set_entry_done by (by eapply lookup_lt_Some). done.
  - rewrite (bind_done _ _ _ (r, ERR_BUF) (refused e m)); [done|]. rewrite Hd. by rewrite (proj2 (Z.eqb_neq _ _)).
Qed.

(** One pass over the slots from [i] on: the frame is taken, or the wait is shorter. *)
Definition taken_at e0 (ctrl p : Z) f (r : outcome (Z * Z * Z * P)) : Prop :=
  ∃ e1 j m, r = Done ((Z.of_nat j, BUFREQ_OK, ERR_OK), others (sent e1 j p m)) ∧ waiting e0 e1 ∧
    tx_pbufs e1 !! j = Some 0 ∧ Eth_SendMultiBufferFrame ops ctrl ETH_QUEUE f (allocator (mem e1)) = (BUFREQ_OK, m).

Lemma try_slots_spec slots ctrl p i f status left e0 e : gives_way ctrl f left e0 → waiting e0 e →
  length (tx_pbufs e) = (i + slots)%nat →
  let r := try_slots ops others slots ctrl p (Z.of_nat i) f status e in
  taken_at e0 ctrl p f r ∨
  ∃ i' status' e1, r = Done ((i', status', ERR_BUF), e1) ∧ waiting e0 e1 ∧ (left e1 <= left e - slots)%nat ∧
    (left e = 0%nat → ∀ j, (i <= j)%nat → tx_pbufs e !! j ≠ Some 0).
Proof.
  intros Hway. revert i status e. induction slots as [|slots IH]; intros i status e He Hl r.
  { right. exists (Z.of_nat i), status, e. split_and!; [done|done|lia|]. intros _ j Hj Hf%lookup_lt_Some. lia. }
  destruct (lookup_lt_is_Some_2 (tx_pbufs e) i) as [t Ht]; [lia|]. subst r. rewrite (slot_step _ _ _ _ _ _ _ _ Ht).
  destruct (Eth_SendMultiBufferFrame ops ctrl ETH_QUEUE f (allocator (mem e))) as [r m] eqn:Es.
  (* the rest of the pass, from a state that is not nearer *)
  assert (∀ e1 status', waiting e0 e1 → length (tx_pbufs e1) = length (tx_pbufs e) → (left e1 <= left e)%nat →
    (left e = 0%nat → t ≠ 0 ∧ e1 = e) →
    taken_at e0 ctrl p f (try_slots ops others slots ctrl p (Z.of_nat (S i)) f status' (others e1)) ∨
    ∃ i' st e2, try_slots ops others slots ctrl p (Z.of_nat (S i)) f status' (others e1) = Done ((i', st, ERR_BUF), e2) ∧
      waiting e0 e2 ∧ (left e2 <= left e - S slots)%nat ∧
      (left e = 0%nat → ∀ j, (i <= j)%nat → tx_pbufs e !! j ≠ Some 0)) as Hrest.
  { intros e1 st He1 Hl1 Hle Hz. pose proof (way_passes _ _ _ _ Hway e1 He1) as Hp.
    destruct (IH (S i) st (others e1)) as [?|(i'&st'&e2&E&He2&Hle2&Hn)]; [by apply waiting_others|rewrite others_length; lia|by left|].
    right. exists i', st', e2. split_and!; [done|done|lia|]. intros Hz0 j Hj Hf. destruct (Hz Hz0) as [Hne ->].
    destruct (decide (j = i)) as [->|]; [congruence|]. apply (Hn ltac:(lia) j ltac:(lia)).
    by destruct (others_slots e j 0 Hf). }
  destruct (Z.eqb_spec t 0) as [->|Hne]; [|by apply Hrest].
  destruct (Z.eqb_spec BUFREQ_OK r) as [<-|Hr]; [by left; exists e, i, m|].
  apply Hrest; [by apply waiting_refused|done|by eapply (way_refused _ _ _ _ Hway)|].
  intros Hz. destruct (way_ready _ _ _ _ Hway e He Hz) as [_ Hok]. rewrite Es in Hok. by destruct Hr.
Qed.

Lemma attempts_spec fuel ctrl p f status left e0 e : gives_way ctrl f left e0 → waiting e0 e →
  length (tx_pbufs e0) = ETH_TXBD_NUM → (left e < fuel)%nat →
  taken_at e0 ctrl p f (send_loop ops others fuel ctrl p f status e).
Proof.
  intros Hway. revert status e. induction fuel as [|fuel IH]; intros status e He Hl Hf; [lia|]. cbn [send_loop].
  destruct (try_slots_spec ETH_TXBD_NUM ctrl p 0 f status left e0 e Hway He) as [(e1&j&m&E&H1)|(i&st&e1&E&H1&Hle&Hn)].
  - rewrite (proj1 (proj2 He)), Hl. done.
  - exists e1, j, m. split; [|done]. change 0 with (Z.of_nat 0). by rewrite (bind_done _ _ _ _ _ E).
  - change 0 with (Z.of_nat 0). rewrite (bind_done _ _ _ _ _ E). apply IH; [done|done|].
    destruct (left e) as [|k] eqn:Hk; [|change ETH_TXBD_NUM with 8%nat in Hle; lia].
    destruct (way_ready _ _ _ _ Hway e He Hk) as [(i1&Hi1) _]. by destruct (Hn eq_refl i1 ltac:(lia)).
Qed.

(** C36 (functional): a packet of at most 16 buffers is sent as one frame of the bytes that
    it holds, buffer by buffer and without a copy. All slots may be in use at the
    call, and the driver may refuse the frame: the call tries the slots over and over, and
    returns as soon as a slot is empty and the driver accepts, which is assumed to happen
    after a bounded number of interrupts ([gives_way]; with a driver that never accepts the call never
    returns). It then keeps one reference of the packet in an empty slot until a
    confirmation. It changes no other packet, whatever interrupts come meanwhile, confirmations
    that empty slots and received frames that add packets ([Interrupts]). *)
Theorem frame_reaches_driver fuel n p ns b x c (left : port M → nat) e :
  packet (mem e) p ns → ns ≠ [] → len ns <= 16 → len ns <= MAX_BUFFS_IN_MULTI_BUFFER_FRAME cfg → (length ns < fuel)%nat →
  pbufs (mem e) !! p = Some b → 0 <= ref b < 255 → netifs e !! n = Some x → cfg_of cfg (num x) = Some c →
  length (tx_pbufs e) = ETH_TXBD_NUM →
  let e0 := with_mem (with_pbuf (mem e) p (with_ref (ref b + 1) b)) e in
  (∀ f, gathers (mem e) f (bytes_of ns) → gives_way (cfg_num c) f left e0) → (left e0 < fuel)%nat →
  ∃ e1 j f m, ethif_low_level_output ops mops cfg others fuel n p e = Done (ERR_OK, others (sent e1 j p m)) ∧
    same_packets e0 e1 ∧ gathers (mem e) f (bytes_of ns) ∧
    Eth_SendMultiBufferFrame ops (cfg_num c) ETH_QUEUE f (allocator (mem e1)) = (BUFREQ_OK, m) ∧
    tx_pbufs e1 !! j = Some 0.
Proof.
  intros Hp Hne H16 Hmax Hf Hb Href Hx Hc Hl e0 Hw Hleft.
  assert (p ≠ 0) as Hp0 by (by rewrite (packet_zero _ _ _ Hp)).
  unfold ethif_low_level_output. rewrite (proj2 (Z.eqb_neq p 0)) by done. cbn [negb].
  rewrite (on_mem_done _ _ _ tt (mem e)) by done. rewrite with_mem_id.
  rewrite (on_mem_done _ _ _ _ _ (ref_spec p b (mem e) Hb Hp0 Href)). fold e0.
  pose proof (packet_ref (mem e) p ns p b (ref b + 1) Hp Hb) as Hp1. change (packet (mem e0) p ns) in Hp1.
  pose proof (clen_spec fuel p ns 0 (mem e0) Hp1 Hf ltac:(lia) ltac:(lia)) as Hclen.
  rewrite (on_mem_done (pbuf_clen fuel p) _ e0 _ _ Hclen), with_mem_id. cbv zeta. rewrite Z.add_0_l.
  pose proof (len_nonneg ns). rewrite u8_small by (unfold is_u8; lia). rewrite (proj2 (Z.leb_le (len ns) 16)) by done.
  rewrite (on_mem_done _ _ _ tt (mem e0)) by done. rewrite with_mem_id.
  destruct (frame_loop_spec fuel p ns 0 [] e0 Hp1 Hne ltac:(lia) ltac:(lia)) as (f & Ef & Hg & _). simpl in Ef.
  assert (gathers (mem e) f (bytes_of ns)) as Hg0.
  { destruct Hg as (ds & Eds & Hds). exists ds. split; [done|]. eapply Forall2_impl; [exact Hds|].
    intros [x' n'] di. simpl. unfold read. simpl. repeat case_match; congruence. }
  rewrite (bind_done _ _ _ _ _ Ef).
  assert (get_netif n e0 = Done (x, e0)) as En by (unfold get_netif; simpl; by rewrite Hx). rewrite (bind_done _ _ _ _ _ En).
  assert (config cfg (num x) e0 = Done (c, e0)) as Ec by (unfold config; by rewrite Hc). rewrite (bind_done _ _ _ _ _ Ec).
  destruct (attempts_spec fuel (cfg_num c) p f BUFREQ_E_NOT_OK left e0 e0 (Hw f Hg0) (waiting_refl e0) Hl Hleft)
    as (e1 & j & m & Et & (Hs & _) & Hj & Es).
  exists e1, j, f, m. by rewrite (bind_done _ _ _ _ _ Et).
Qed.
End sending.

(** ** Confirmations *)

Section confirming.
Context {M : Type} (ops : port_ops M).
Local Abbreviation P := (port M).
Implicit Types (e : P).

(** Every frame of the slots is handed to the TCP/IP thread. *)
Definition hand_over (l : list Z) (m : M) : M :=
  foldl (λ m t, if t =? 0 then m else (pbuf_free_callback ops t m).2) m l.
Definition confirmed e (l : list Z) (m : M) : P :=
  with_tx_pbufs l (with_mem (Store (pbufs (mem e)) (blocks (mem e)) m) e).

Lemma confirm_loop_spec e done_ todo : tx_pbufs e = done_ ++ todo →
  confirm_loop ops (length todo) (len done_) e =
    Done (tt, confirmed e (done_ ++ replicate (length todo) 0) (hand_over todo (allocator (mem e)))).
Proof.
  revert e done_. induction todo as [|t todo IH]; intros e done_ He.
  - unfold confirmed. simpl. rewrite app_nil_r in *. rewrite <- He. by destruct e as [[] ? ? ? ? ? ? ? ? ?].
  - cbn [confirm_loop length]. change (len done_) with (Z.of_nat (length done_)). rewrite (entry_done _ _ t) by (by rewrite He, list_lookup_middle).
    destruct (Z.eqb_spec t 0) as [->|Ht]; cbn [negb].
    + rewrite ret_bind. replace (Z.of_nat (length done_) + 1) with (len (done_ ++ [0])) by (rewrite len_app; unfold len; simpl; lia).
      rewrite IH by (by rewrite <- app_assoc). by rewrite <- app_assoc.
    + destruct (pbuf_free_callback ops t (allocator (mem e))) as [r m] eqn:Em.
      set (e1 := confirmed e (done_ ++ 0 :: todo) m).
      rewrite (bind_done _ _ _ tt e1).
      * replace (Z.of_nat (length done_) + 1) with (len (done_ ++ [0])) by (rewrite len_app; unfold len; simpl; lia).
        rewrite (IH e1) by (by rewrite <- app_assoc). rewrite <- app_assoc. unfold confirmed, hand_over. simpl.
        rewrite (proj2 (Z.eqb_neq t 0)), Em by done. done.
      * unfold driver. rewrite (on_mem_done _ _ _ r (Store (pbufs (mem e)) (blocks (mem e)) m)) by (unfold call; by rewrite Em).
        rewrite set_entry_run by (simpl; rewrite He, length_app; simpl; lia). simpl. rewrite He.
        by rewrite insert_app_r_alt, Nat.sub_diag by lia.
Qed.
End confirming.

(** The requests to free a packet that the TCP/IP thread has accepted and not served. *)
Class FreeQueue {M} (ops : port_ops M) (requests : M → list Z) : Prop := {
  callback_accepted p m m' : pbuf_free_callback ops p m = (ERR_OK, m') → requests m' = requests m ++ [p];
  callback_refused p m r m' : pbuf_free_callback ops p m = (r, m') → r ≠ ERR_OK → requests m' = requests m;
}.

Section releasing.
Context {M : Type} (ops : port_ops M) (mops : mem_ops M) (cfg : port_config).
Context (requests : M → list Z) `{!FreeQueue ops requests}.
Local Abbreviation P := (port M).
Implicit Types (e : P).

(** The packets of the frames that have not been confirmed. *)
Definition in_flight (l : list Z) : list Z := filter (λ t, t ≠ 0) l.

Lemma hand_over_accepted l m : (∀ p m, (pbuf_free_callback ops p m).1 = ERR_OK) →
  requests (hand_over ops l m) = requests m ++ in_flight l.
Proof.
  intros Hok. revert m. induction l as [|t l IH]; intros m; [by rewrite app_nil_r|].
  cbn [hand_over foldl]. fold (hand_over ops l). unfold in_flight. rewrite filter_cons. destruct (Z.eqb_spec t 0) as [->|Ht].
  - rewrite decide_False by naive_solver. apply IH.
  - rewrite decide_True by done. destruct (pbuf_free_callback ops t m) as [r m'] eqn:E. pose proof (Hok t m) as Hr. rewrite E in Hr.
    simpl in *. subst r. change (requests (hand_over ops l m') = requests m ++ t :: in_flight l).
    by rewrite IH, (callback_accepted t m m' E), <- app_assoc.
Qed.
Lemma hand_over_refused l m : (∀ p m, (pbuf_free_callback ops p m).1 ≠ ERR_OK) → requests (hand_over ops l m) = requests m.
Proof.
  intros Hno. revert m. induction l as [|t l IH]; intros m; [done|]. cbn [hand_over foldl]. fold (hand_over ops l).
  destruct (Z.eqb_spec t 0); [apply IH|]. destruct (pbuf_free_callback ops t m) as [r m'] eqn:E.
  pose proof (Hno t m) as Hr. rewrite E in Hr. change (requests (hand_over ops l m') = requests m).
  rewrite IH. by eapply callback_refused.
Qed.

(** A packet of one structure to which nothing else refers. *)
Definition only_ours (s : Pbuf.store M) (p : Z) : Prop :=
  p ≠ 0 ∧ ∃ b, pbufs s !! p = Some b ∧ next b = 0 ∧ ref b = 1 ∧ is_custom b = false ∧
    pbuf_get_allocsrc b ∈ [PBUF_TYPE_ALLOC_SRC_MASK_STD_HEAP; PBUF_TYPE_ALLOC_SRC_MASK_STD_MEMP_PBUF;
                           PBUF_TYPE_ALLOC_SRC_MASK_STD_MEMP_PBUF_POOL].

Lemma free_only (free : Z → ST (Pbuf.store M) unit) fuel p (s : Pbuf.store M) : only_ours s p → (1 < fuel)%nat →
  ∃ s', pbuf_free mops free fuel p s = Done (1, s') ∧ pbufs s' = delete p (pbufs s).
Proof.
  intros (Hp & b & Hb & Hn & Hr & Hc & Hsrc) Hf. destruct fuel as [|fuel]; [lia|].
  unfold pbuf_free. rewrite (proj2 (Z.eqb_neq p 0)) by done. cbn [free_loop]. rewrite (proj2 (Z.eqb_neq p 0)) by done. cbn [negb].
  rewrite (get_bind p b) by done. rewrite Hr. change (0 <? 1) with true. unfold LWIP_ASSERT. cbv iota. rewrite ret_bind.
  cbv zeta. unfold put at 1. rewrite modify_bind. change (u8 (1 - 1) =? 0) with true. cbv iota. rewrite Hn.
  unfold free_one. rewrite Hc. rewrite !elem_of_cons, elem_of_nil in Hsrc.
  destruct fuel as [|fuel]; [lia|]. destruct Hsrc as [-> | [-> | [-> | []]]]; cbv zeta; simpl; eexists; (split; [done|]); simpl; by rewrite delete_insert_eq.
Qed.

Lemma free_all (free : Z → ST (Pbuf.store M) unit) fuel l (s : Pbuf.store M) : NoDup l → Forall (only_ours s) l → (1 < fuel)%nat →
  ∃ s', for_each l (λ p, pbuf_free mops free fuel p;; mret tt) s = Done (tt, s') ∧ ∀ p, p ∈ l → pbufs s' !! p = None.
Proof.
  intros Hnd Hl Hf.
  assert (∀ l (s : Pbuf.store M), NoDup l → Forall (only_ours s) l →
    ∃ s', for_each l (λ p, pbuf_free mops free fuel p;; mret tt) s = Done (tt, s') ∧
      ∀ p, pbufs s' !! p = if bool_decide (p ∈ l) then None else pbufs s !! p) as Hall.
  { clear l s Hnd Hl. induction l as [|t l IH]; intros s Hnd Hl; [by exists s|].
    apply NoDup_cons in Hnd as [Hnt Hnd]. apply Forall_cons in Hl as [Ht Hl].
    destruct (free_only free fuel t s Ht Hf) as (s1 & E1 & Hs1).
    destruct (IH s1 Hnd) as (s2 & E2 & Hs2).
    { apply Forall_forall. intros x Hx. rewrite Forall_forall in Hl. destruct (Hl x Hx) as (Hx0 & b & Hb & Hr).
      split; [done|]. exists b. rewrite Hs1, lookup_delete_ne by (by intros ->). done. }
    exists s2. split.
    - cbn [for_each]. rewrite (bind_done _ _ _ tt s1); [done|]. by rewrite (bind_done _ _ _ _ _ E1).
    - intros p. rewrite Hs2, Hs1. destruct (decide (p = t)) as [->|Hne].
      + rewrite lookup_delete_eq, (bool_decide_true (t ∈ t :: l)) by (by left). by case_match.
      + rewrite lookup_delete_ne by done. rewrite (bool_decide_ext (p ∈ t :: l) (p ∈ l)); [done|]. rewrite elem_of_cons. naive_solver. }
  destruct (Hall l s Hnd Hl) as (s' & E & Hs'). exists s'. split; [done|]. intros p Hp. by rewrite Hs', bool_decide_true.
Qed.

(** The confirmation of one frame, whichever it is, releases the packets of
    all frames that the driver still has: every slot is empty afterwards, each packet in a
    slot has been handed to the TCP/IP thread, in order, and once that has served the
    requests, the structures and their memory are gone though the driver still reads them. *)
Theorem confirmation_frees_frames_in_flight (free : Z → ST (Pbuf.store M) unit) fuel (CtrlIdx : nat) c BufIdx Result e :
  length (tx_pbufs e) = ETH_TXBD_NUM → EthIf_TxConfirmations e !! CtrlIdx = Some c →
  (∀ p m, (pbuf_free_callback ops p m).1 = ERR_OK) →
  NoDup (in_flight (tx_pbufs e)) → Forall (only_ours (mem e)) (in_flight (tx_pbufs e)) → (1 < fuel)%nat →
  ∃ e', EthIf_TxConfirmation ops (Z.of_nat CtrlIdx) BufIdx Result e = Done (tt, e') ∧
    tx_pbufs e' = replicate ETH_TXBD_NUM 0 ∧
    requests (allocator (mem e')) = requests (allocator (mem e)) ++ in_flight (tx_pbufs e) ∧
    ∃ s, for_each (in_flight (tx_pbufs e)) (λ p, pbuf_free mops free fuel p;; mret tt) (mem e') = Done (tt, s) ∧
      ∀ p, p ∈ in_flight (tx_pbufs e) → pbufs s !! p = None.
Proof.
  intros Hl Hc Hok Hnd Hours Hf. unfold EthIf_TxConfirmation. rewrite (entry_done _ _ c) by done.
  rewrite set_entry_done by (by eapply lookup_lt_Some). set (e1 := with_tx_confirmations _ e).
  pose proof (confirm_loop_spec ops e1 [] (tx_pbufs e) eq_refl) as E. rewrite Hl in E.
  eexists. split; [exact E|]. split; [done|]. split; [apply (hand_over_accepted _ _ Hok)|].
  by apply free_all.
Qed.

(** A request that the TCP/IP thread refuses is forgotten: the slot is empty all the same. *)
Lemma refused_request_loses_packet (CtrlIdx : nat) c BufIdx Result e :
  length (tx_pbufs e) = ETH_TXBD_NUM → EthIf_TxConfirmations e !! CtrlIdx = Some c →
  (∀ p m, (pbuf_free_callback ops p m).1 ≠ ERR_OK) →
  ∃ e', EthIf_TxConfirmation ops (Z.of_nat CtrlIdx) BufIdx Result e = Done (tt, e') ∧
    tx_pbufs e' = replicate ETH_TXBD_NUM 0 ∧ pbufs (mem e') = pbufs (mem e) ∧
    requests (allocator (mem e')) = requests (allocator (mem e)).
Proof.
  intros Hl Hc Hno. unfold EthIf_TxConfirmation. rewrite (entry_done _ _ c) by done.
  rewrite set_entry_done by (by eapply lookup_lt_Some). set (e1 := with_tx_confirmations _ e).
  pose proof (confirm_loop_spec ops e1 [] (tx_pbufs e) eq_refl) as E. rewrite Hl in E.
  eexists. split; [exact E|]. split; [done|]. split; [done|]. apply (hand_over_refused _ _ Hno).
Qed.
End releasing.

(** ** Receiving *)

(** The custom structures that the port can free: those of an interface it is configured for. *)
Definition port_custom (cfg : port_config) (b : pbuf) : Prop := is_Some (cfg_of cfg (u8 (if_idx b - 1))).
#[export] Instance ethif_custom_free {M} (ops : port_ops M) (cfg : port_config) :
  CustomFree (ethif_pbuf_free_custom ops cfg) (port_custom cfg).
Proof.
  split; [|done]. intros p b s Hp Hb [c Hc]. unfold ethif_pbuf_free_custom.
  rewrite (proj2 (Z.eqb_neq p 0)) by done. cbn [negb]. change (LWIP_ASSERT true) with (mret tt : ST (Pbuf.store M) unit).
  rewrite ret_bind. unfold upd at 1.
  rewrite (bind_done _ _ _ tt (with_pbuf s p (with_if_idx (u8 (if_idx b - 1)) b))) by (by rewrite (get_bind p b)).
  rewrite (get_bind p (with_if_idx (u8 (if_idx b - 1)) b)) by apply lookup_insert_eq. simpl. rewrite Hc.
  destruct (ETH_HAS_EXTERNAL_RX_BUFFERS cfg && TCPIP_RELEASE_RX_RESOURCE cfg); eexists; (split; [done|]);
    simpl; by rewrite delete_insert_eq.
Qed.

Section receiving.
Context {M : Type} (ops : port_ops M) (mops : mem_ops M) (opt : options) (cfg : port_config) `{!OptionsOk opt}.
Context (netif_input : Z → Z → ST (port M) Z).
Local Abbreviation P := (port M).
Implicit Types (e : P).

(** The packet made of a received frame of [size] bytes at [data]. *)
Definition wrapped (x : netif) (data : pointer) (size : Z) : pbuf :=
  Pbuf 0 data size size (u8 PBUF_REF) PBUF_FLAG_IS_CUSTOM 1 (netif_get_index x) data.
(** The counters of the indication. *)
Definition indicated (CtrlIdx : nat) (c checksum : Z) e : P :=
  with_checksum_value (<[CtrlIdx := checksum]> (EthIf_ChecksumValue e))
    (with_rx_indications (<[CtrlIdx := u32 (c + 1)]> (EthIf_RxIndications e)) e).
Definition with_allocator (m : M) e : P := with_mem (Store (pbufs (mem e)) (blocks (mem e)) m) e.
Definition with_packet (p : Z) (b : pbuf) e : P := with_mem (with_pbuf (mem e) p b) e.
(** What giving the receive buffer of a packet back does. *)
Definition give_back (c : netif_config) (p : Z) (data : pointer) (m : M) : M :=
  RX_POOL_FREE ops p (if ETH_HAS_EXTERNAL_RX_BUFFERS cfg && TCPIP_RELEASE_RX_RESOURCE cfg
    then Eth_ProvideRxBuffer ops (cfg_num c) 0 data m else m).

Lemma align_zero : LWIP_MEM_ALIGN_SIZE opt 0 = 0.
Proof.
  pose proof (alignment_pos opt). unfold LWIP_MEM_ALIGN_SIZE. fold (LWIP_MEM_ALIGN opt 0). rewrite align_value by (done||lia).
  rewrite Z.mod_small; lia.
Qed.

Lemma input_spec fuel n x data size m p m' e : RX_POOL_ALLOC ops (allocator (mem e)) = (p, m') → m = allocator (mem e) →
  netifs e !! n = Some x → block data ≠ 0 → is_u16 size →
  ethif_input ops mops opt cfg netif_input fuel n data size e =
    if p =? 0 then Done (ERR_MEM, with_allocator m' e)
    else (ret ← netif_input p n;
          if negb (ERR_OK =? ret) then on_mem (pbuf_free mops (ethif_pbuf_free_custom ops cfg) fuel p);; mret ret else mret ret)
         (with_packet p (wrapped x data size) (with_allocator m' e)).
Proof.
  intros Hm -> Hx Hd Hs. unfold ethif_input, driver.
  rewrite (on_mem_done _ _ _ p (Store (pbufs (mem e)) (blocks (mem e)) m')) by (unfold call; by rewrite Hm).
  destruct (Z.eqb_spec p 0) as [->|Hp]; cbn [negb]; [done|]. set (e1 := with_mem _ e).
  assert (pbuf_alloced_custom opt PBUF_RAW size PBUF_REF p data size (mem e1) =
    Done (p, with_pbuf (mem e1) p (Pbuf 0 data size size (u8 PBUF_REF) PBUF_FLAG_IS_CUSTOM 1 NETIF_NO_INDEX null))) as Ea.
  { unfold pbuf_alloced_custom. change (u16 PBUF_RAW) with 0. rewrite align_zero. cbv zeta. rewrite Z.add_0_l, Z.ltb_irrefl.
    rewrite (proj2 (Z.eqb_neq (block data) 0)) by done. cbn [negb]. unfold advance. rewrite Z.add_0_r. by destruct data. }
  rewrite (on_mem_done _ _ _ _ _ Ea). set (b0 := Pbuf _ _ _ _ _ _ _ _ _). set (s1 := with_pbuf (mem e1) p b0).
  rewrite (bind_done _ _ _ x (with_mem s1 e1)) by (unfold get_netif; simpl; by rewrite Hx).
  assert (∀ b f (s : Pbuf.store M), pbufs s !! p = Some b → upd p f s = Done (tt, with_pbuf s p (f b))) as Hupd
    by (intros b f s Hb; unfold upd; by rewrite (get_bind p b)).
  set (b1 := with_if_idx (netif_get_index x) b0).
  rewrite (on_mem_done _ _ _ tt (with_pbuf s1 p b1)) by apply (Hupd b0), lookup_insert_eq.
  rewrite (on_mem_done _ _ _ tt (with_pbuf (with_pbuf s1 p b1) p (with_rx_buf data b1))) by apply (Hupd b1), lookup_insert_eq.
  unfold with_packet, with_allocator, with_pbuf, wrapped, s1, e1. simpl. rewrite !insert_insert_eq. done.
Qed.

Lemma free_wrapped fuel p x c frame size (s : Pbuf.store M) : p ≠ 0 → pbufs s !! p = None → blocks s !! p = None →
  cfg_of cfg (num x) = Some c → 0 <= num x < 255 → (1 < fuel)%nat →
  pbuf_free mops (ethif_pbuf_free_custom ops cfg) fuel p (with_pbuf s p (wrapped x frame size)) =
    Done (1, Store (pbufs s) (blocks s) (give_back c p frame (allocator s))).
Proof.
  intros Hp Hs1 Hs2 Hc Hnum Hf. destruct fuel as [|fuel]; [lia|]. set (b := wrapped x frame size).
  unfold pbuf_free. rewrite (proj2 (Z.eqb_neq p 0)) by done. cbn [free_loop]. rewrite (proj2 (Z.eqb_neq p 0)) by done. cbn [negb].
  rewrite (get_bind p b) by apply lookup_insert_eq. change (0 <? ref b) with true. unfold LWIP_ASSERT at 1. cbv iota. rewrite ret_bind.
  cbv zeta. unfold put at 1. rewrite modify_bind. change (u8 (ref b - 1)) with 0. change (0 =? 0) with true. cbv iota.
  change (next b) with 0. unfold free_one. change (is_custom b) with true. cbv iota.
  set (b' := with_ref 0 b). set (s1 := Store (<[p:=b']> (<[p:=b]> (pbufs s))) (blocks s) (allocator s)).
  assert (ethif_pbuf_free_custom ops cfg p s1 = Done (tt, Store (pbufs s) (blocks s) (give_back c p frame (allocator s)))) as E.
  { assert (u8 (netif_get_index x - 1) = num x) as En
      by (unfold netif_get_index; rewrite (u8_small (num x + 1)), u8_small by (unfold is_u8; lia); lia).
    unfold ethif_pbuf_free_custom. rewrite (proj2 (Z.eqb_neq p 0)) by done. cbn [negb].
    change (LWIP_ASSERT true) with (mret tt : ST (Pbuf.store M) unit). rewrite ret_bind.
    assert (pbufs s1 !! p = Some b') as Hb' by apply lookup_insert_eq.
    rewrite (bind_done _ _ _ tt (with_pbuf s1 p (with_if_idx (num x) b'))).
    2: { unfold upd. rewrite (get_bind p b') by done. change (if_idx b') with (netif_get_index x). by rewrite En. }
    rewrite (get_bind p (with_if_idx (num x) b')) by apply lookup_insert_eq.
    change (if_idx (with_if_idx (num x) b')) with (num x). rewrite Hc. unfold give_back.
    assert (∀ m, release p (RX_POOL_FREE ops p) (Store (pbufs (with_pbuf s1 p (with_if_idx (num x) b'))) (blocks s) m) =
      Done (tt, Store (pbufs s) (blocks s) (RX_POOL_FREE ops p m))) as Hrel.
    { intros m. unfold release, modify. simpl. rewrite !insert_insert_eq, delete_insert_id, delete_id by done. done. }
    destruct (ETH_HAS_EXTERNAL_RX_BUFFERS cfg && TCPIP_RELEASE_RX_RESOURCE cfg); apply Hrel. }
  rewrite (bind_done _ _ _ _ _ E). destruct fuel as [|fuel]; [lia|]. done.
Qed.

(** C37 (error): a received frame has one owner, with one exception. If [RX_POOL] has a
    structure, the stack gets a packet of the whole frame, header included, with one
    reference; what the stack accepts is the stack's. A frame that it refuses, leaving the
    packet alone, is gone with its structure, and its buffer is back with the driver as
    configured. If [RX_POOL] is empty nothing refers to the buffer afterwards, and it is
    not given back: the error is dropped. *)
Theorem received_frame_owner fuel (CtrlIdx : nat) c n x cf data d size p m e :
  EthIf_RxIndications e !! CtrlIdx = Some c → (CtrlIdx < length (EthIf_ChecksumValue e))%nat →
  g_netif e !! CtrlIdx = Some n → netifs e !! n = Some x → is_u8 (num x) → num x < 255 → cfg_of cfg (num x) = Some cf →
  block data ≠ 0 → 0 <= size → size + 14 < 2 ^ 16 → read (advance data 10) 2 (mem e) = Done (d, mem e) →
  RX_POOL_ALLOC ops (allocator (mem e)) = (p, m) → pbufs (mem e) !! p = None → blocks (mem e) !! p = None → (1 < fuel)%nat →
  let frame := advance data (- ETHIF_FRAME_PAYLOAD_OFFSET) in
  let checksum := default 0 (d !! 0%nat) + 256 * default 0 (d !! 1%nat) in
  let e1 := with_allocator m (indicated CtrlIdx c checksum e) in
  let e2 := with_packet p (wrapped x frame (size + 14)) e1 in
  let indication := EthIf_RxIndication ops mops opt cfg netif_input fuel (Z.of_nat CtrlIdx) data size e in
  (p = 0 → indication = Done (tt, e1)) ∧
  (p ≠ 0 → ∀ e3, netif_input p n e2 = Done (ERR_OK, e3) → indication = Done (tt, e3)) ∧
  (p ≠ 0 → ∀ r m', r ≠ ERR_OK → netif_input p n e2 = Done (r, with_allocator m' e2) →
     indication = Done (tt, with_allocator (give_back cf p frame m') (indicated CtrlIdx c checksum e))).
Proof.
  intros Hc Hcs Hn Hx Hnum Hnum' Hcf Hd Hs0 Hs Hr Hm Hp1 Hp2 Hf frame checksum e1 e2 indication.
  assert (indication = (ethif_input ops mops opt cfg netif_input fuel n frame (size + 14);; mret tt) (indicated CtrlIdx c checksum e)) as ->.
  { unfold indication, EthIf_RxIndication. rewrite (entry_done _ _ c) by done.
    rewrite set_entry_done by (by eapply lookup_lt_Some).
    rewrite (on_mem_done _ _ _ d (mem e)) by done.
    rewrite set_entry_done by done. cbv zeta.
    unfold ETHIF_FRAME_HEADER_LENGTH. rewrite u16_small by (unfold is_u16; lia). rewrite (entry_done _ _ n) by done. done. }
  pose proof (input_spec fuel n x frame (size + 14) (allocator (mem e)) p m (indicated CtrlIdx c checksum e)
    Hm eq_refl Hx ltac:(done) ltac:(unfold is_u16; lia)) as E. revert E. change (with_allocator m (indicated CtrlIdx c checksum e)) with e1. change (with_packet p _ e1) with e2.
  intros E. unfold mbind, ST_bind at 1 2 3. rewrite E. split; [intros ->; done|]. split.
  - intros Hp e3 Hin. rewrite (proj2 (Z.eqb_neq p 0)) by done. unfold mbind, ST_bind. by rewrite Hin.
  - intros Hp r m' Hr' Hin. rewrite (proj2 (Z.eqb_neq p 0)) by done. unfold mbind at 1, ST_bind at 1. rewrite Hin.
    rewrite (proj2 (Z.eqb_neq ERR_OK r)) by done. cbn [negb].
    rewrite (on_mem_done _ _ _ 1 (Store (pbufs (mem e)) (blocks (mem e)) (give_back cf p frame m'))); [done|].
    apply (free_wrapped fuel p x cf frame (size + 14) (Store (pbufs (mem e)) (blocks (mem e)) m')); [done..|unfold is_u8 in Hnum; lia|done].
Qed.
End receiving.

(** ** A driver that keeps the frames it is given *)

Import PbufDemo.

Module PortDemo.
Record driver_state := DriverState {
  frames : list frame;
  to_free : list Z;
  rx_free : list Z;
  provided : list pointer;
}.
Definition demo_port_ops : port_ops driver_state := {|
  Eth_SendMultiBufferFrame _ _ f m := (BUFREQ_OK, DriverState (frames m ++ [f]) (to_free m) (rx_free m) (provided m));
  Eth_ProvideRxBuffer _ _ x m := DriverState (frames m) (to_free m) (rx_free m) (provided m ++ [x]);
  Eth_SetControllerMode _ _ m := m;
  Eth_UpdatePhysAddrFilter _ _ _ m := m;
  RX_POOL_INIT m := m;
  RX_POOL_ALLOC m := match rx_free m with
    | p :: l => (p, DriverState (frames m) (to_free m) l (provided m)) | [] => (0, m) end;
  RX_POOL_FREE p m := DriverState (frames m) (to_free m) (p :: rx_free m) (provided m);
  pbuf_free_callback p m := (ERR_OK, DriverState (frames m) (to_free m ++ [p]) (rx_free m) (provided m));
  tx_lock_new m := (ERR_OK, m); tx_lock_free m := m;
  in_flight_new _ m := (ERR_OK, m); in_flight_post _ m := m; in_flight_tryfetch m := (0xFFFFFFFF, 0, m); in_flight_free m := m;
  poll_thread_delete m := m;
|}.
Definition demo_mem_ops : mem_ops driver_state := {|
  mem_malloc _ m := (0, m); mem_trim p _ m := (p, m); mem_free _ m := m;
  memp_malloc _ m := (0, m); memp_free _ _ m := m; fresh _ n _ := replicate (Z.to_nat n) 0; PBUF_POOL_IS_EMPTY m := m |}.
Definition demo_cfg : port_config :=
  PortConfig [NetifConfig 0 (101, 110) [2; 0; 0; 0; 0; 1] false None] true true 16 1536 (Pointer 0x1000 0)
    true true false false false false.
Definition demo_netif : netif := Netif 0 (101, 110) 6 [2; 0; 0; 0; 0; 1] 1500 26 None None None None None None.

Definition ram (off n : Z) (p : Z) : pbuf := Pbuf 0 (Pointer p off) n n (u8 PBUF_RAM) 0 1 0 null.
(** A confirmation interrupt that empties every slot, and a received frame that adds a packet. *)
Definition confirms (e : port driver_state) : port driver_state :=
  with_tx_pbufs ((λ _, 0) <$> tx_pbufs e) (with_mem (Store (pbufs (mem e) ∪ {[ 320 := ram 0 1 320 ]}) (blocks (mem e)) (allocator (mem e))) e).
#[export] Instance demo_interrupts : Interrupts confirms.
Proof.
  split; [intros e; apply map_union_subseteq_l|done|done|intros e; apply length_fmap|].
  intros e i t Ht. right. cbn [confirms tx_pbufs with_tx_pbufs]. by rewrite list_lookup_fmap, Ht.
Qed.
Definition interrupts_left (e : port driver_state) : nat := if existsb (Z.eqb 0) (tx_pbufs e) then 0 else 1.
Lemma demo_gives_way ctrl f e : length (tx_pbufs e) = ETH_TXBD_NUM → gives_way demo_port_ops confirms ctrl f interrupts_left e.
Proof.
  intros Hl. split.
  - intros e1 _ Hz. split; [|done]. unfold interrupts_left in Hz. destruct (existsb _ _) eqn:E; [|done].
    apply existsb_exists in E as (t & Ht & <-%Z.eqb_eq). by apply list_elem_of_lookup, list_elem_of_In.
  - intros e1 r m _ [= <- <-] Hr. by destruct Hr.
  - intros e1 (_ & Hl1 & _). rewrite Hl in Hl1. unfold interrupts_left. cbn [confirms tx_pbufs with_tx_pbufs].
    destruct (tx_pbufs e1); [done|]. simpl. lia.
Qed.
#[export] Instance demo_free_queue : FreeQueue demo_port_ops to_free.
Proof. split; [by intros p m m' [= <-]|by intros p m r m' [= <- <-]]. Qed.

(** A packet of two structures, one of a single structure, a received frame. *)
Definition demo_memory (rx : list Z) : Pbuf.store driver_state :=
  Store (<[64 := Pbuf 128 (Pointer 64 0) 5 2 (u8 PBUF_RAM) 0 1 0 null]> (<[128 := ram 0 3 128]> (<[192 := ram 0 2 192]> ∅)))
    (<[64 := [1; 2]]> (<[128 := [3; 4; 5]]> (<[192 := [6; 7]]> (<[4096 := replicate 60 9]> ∅)))) (DriverState [] [] rx []).
Definition demo_port (rx slots : list Z) : port driver_state :=
  Port (demo_memory rx) {[ 7 := demo_netif ]} [7] slots (replicate 8 0) 0 (replicate 10 0) (replicate 10 0) (replicate 10 0) (replicate 10 0).

Lemma demo_packet2 rx : packet (demo_memory rx) 64 [(64, [1; 2]); (128, [3; 4; 5])].
Proof.
  split; [done|]. split; [done|]. eexists. split; [done|]. split; [split; [done|]; by eexists|]. split; [done|].
  split; [done|]. split; [done|]. eexists. split; [done|]. split; [split; [done|]; by eexists|]. done.
Qed.
Definition refuse (p n : Z) : ST (port driver_state) Z := mret ERR_MEM.
End PortDemo.
Import PortDemo.

(** All slots are in use until the first interrupt; the frame has the five bytes of both
    structures. *)
Lemma frame_reaches_driver_witness : ∃ e1 j f m,
  ethif_low_level_output demo_port_ops demo_mem_ops demo_cfg confirms 5 7 64 (demo_port [] (replicate 8 192)) =
    Done (ERR_OK, confirms (sent e1 j 64 m)) ∧ gathers (demo_memory []) f [1; 2; 3; 4; 5] ∧ tx_pbufs e1 !! j = Some 0.
Proof.
  destruct (frame_reaches_driver demo_port_ops demo_mem_ops demo_cfg confirms 5 7 64 [(64, [1; 2]); (128, [3; 4; 5])]
    (Pbuf 128 (Pointer 64 0) 5 2 (u8 PBUF_RAM) 0 1 0 null) demo_netif (NetifConfig 0 (101, 110) [2; 0; 0; 0; 0; 1] false None)
    interrupts_left (demo_port [] (replicate 8 192))) as (e1 & j & f & m & E & _ & Hg & _ & Hj).
  - apply demo_packet2.
  - done.
  - done.
  - done.
  - simpl. lia.
  - done.
  - done.
  - done.
  - done.
  - done.
  - intros f _. by apply demo_gives_way.
  - unfold interrupts_left. simpl. lia.
  - exists e1, j, f, m. split; [exact E|]. split; [exact Hg|done].
Defined.

(** Two frames are with the driver; the buffer of the first is confirmed, both packets go. *)
Lemma confirmation_frees_frames_in_flight_witness : ∃ e' s,
  EthIf_TxConfirmation demo_port_ops 0 0 0 (demo_port [] (128 :: 192 :: replicate 6 0)) = Done (tt, e') ∧
  to_free (allocator (mem e')) = [128; 192] ∧
  for_each [128; 192] (λ p, pbuf_free demo_mem_ops (ethif_pbuf_free_custom demo_port_ops demo_cfg) 2 p;; mret tt) (mem e') = Done (tt, s) ∧
  pbufs s !! 192 = None.
Proof.
  destruct (confirmation_frees_frames_in_flight demo_port_ops demo_mem_ops to_free (ethif_pbuf_free_custom demo_port_ops demo_cfg) 2 0 0 0 0
    (demo_port [] (128 :: 192 :: replicate 6 0))) as (e' & E & _ & Hreq & s & Es & Hs).
  - done.
  - done.
  - done.
  - by apply (bool_decide_unpack _).
  - repeat constructor; try done; eexists; (split; [done|]); do 3 (split; [done|]); by left.
  - lia.
  - exists e', s. split; [exact E|]. split; [exact Hreq|]. split; [exact Es|]. apply Hs. by right; left.
Defined.

(** The stack refuses a frame of 20 bytes: its buffer is given back; without a structure of
    the pool it is not. *)
Lemma received_frame_owner_witness :
  EthIf_RxIndication demo_port_ops demo_mem_ops demo_options demo_cfg refuse 2 0 (Pointer 4096 14) 6 (demo_port [256] (replicate 8 0)) =
    Done (tt, with_allocator (DriverState [] [] [256] [Pointer 4096 0])
      (indicated 0 0 (9 + 256 * 9) (demo_port [256] (replicate 8 0)))) ∧
  EthIf_RxIndication demo_port_ops demo_mem_ops demo_options demo_cfg refuse 2 0 (Pointer 4096 14) 6 (demo_port [] (replicate 8 0)) =
    Done (tt, with_allocator (DriverState [] [] [] []) (indicated 0 0 (9 + 256 * 9) (demo_port [] (replicate 8 0)))).
Proof.
  destruct (received_frame_owner demo_port_ops demo_mem_ops demo_options demo_cfg refuse 2 0 0 7 demo_netif
    (NetifConfig 0 (101, 110) [2; 0; 0; 0; 0; 1] false None) (Pointer 4096 14) [9; 9] 6 256 (DriverState [] [] [] [])
    (demo_port [256] (replicate 8 0))) as (_ & _ & H); [done|simpl; lia|done|done|done|done|done|done|done|done|done|done|done|done|lia|].
  destruct (received_frame_owner demo_port_ops demo_mem_ops demo_options demo_cfg refuse 2 0 0 7 demo_netif
    (NetifConfig 0 (101, 110) [2; 0; 0; 0; 0; 1] false None) (Pointer 4096 14) [9; 9] 6 0 (DriverState [] [] [] [])
    (demo_port [] (replicate 8 0))) as (H' & _); [done|simpl; lia|done|done|done|done|done|done|done|done|done|done|done|done|lia|].
  split; [|by apply H']. apply (H ltac:(lia) ERR_MEM (DriverState [] [] [] [])); done.
Defined.
